(* ===== verification/_CoqProject ===== *)
-Q . S2P
Prelude.v
KyberReduce.v
Butterfly.v
KyberNtt.v
KyberNttSpec.v
Keccak.v
KeccakSpec.v
KyberSymmetric.v
KyberPoly.v
KyberPolySpec.v
KyberCodec.v
KyberPolyvec.v
KyberIndcpa.v
KyberSample.v
KyberIndcpaSpec.v
KyberKem.v
KyberKemSpec.v
NtlsTypes.v
NtlsEnv.v
NtlsLib.v
NtlsClient.v
NtlsServer.v
NtlsStatem.v
NtlsOrder.v
NtlsInvariant.v
NtlsMessageOrder.v
NtlsHandshake.v
NtlsRuns.v
NtlsTotal.v
NtlsNet.v
NtlsSafety.v
Buffers.v
NtlsMessage.v
NtlsMessageSpec.v
Sm4.v
Sm4Spec.v
Sm3.v
Sm3Spec.v
HybridKem.v
HybridSpec.v
Zuc.v
ZucSpec.v
Eia3Spec.v
Eea3Spec.v
CMem.v
Packet.v
PacketSpec.v
Wpacket.v
WpacketSpec.v
PacketRules.v
KexTypes.v
KexClient.v
KexServer.v
KexLogic.v
KexRuns.v
KexSign.v
KexRunsEvp.v
KexRunsDhe.v
KexAgree.v
KexFaults.v
KexSafety.v
ExtTypes.v
ExtToy.v
ExtCust.v
ExtClient.v
ExtServer.v
ExtTable.v
ExtCollect.v
ExtSafe.v
ExtWrite.v
ExtHello.v
ExtCustSpec.v
ExtLoop.v
ExtParse.v
ExtAgree.v
HelloTypes.v
HelloMsg.v
HelloRead.v
HelloAgree.v
HelloAccept.v
