(* ===== verification/Prelude.v ===== *)
(** * Verification of the cryptography and handshake of a TLCP stack

    The repository is a fork of Tongsuo (an OpenSSL derivative) that adds a
    post-quantum key exchange to TLCP, the transport protocol of GB/T 38636 that
    the code calls NTLS.  This library models the C code that carries the
    protocol and its algorithms, and proves that it does what the standards and
    its own comments promise.

    ** The program and its model

    Every definition keeps the name of the C function, macro or type it
    translates; a helper that names a part of a function says so.  A value of a
    C integer type is a [Z] in the range of the type, with the conversions
    [u8], [u16], [u32], [u64], [s16] and [s32] written where the code converts;
    a buffer is the list of its bytes; a function that writes through a pointer
    returns the new contents; a call that can fail returns [option], a boolean
    or its C result next to the state it leaves.

    - Kyber-768 ([crypto/kyber]).  [KyberReduce] (params.h, reduce.c),
      [KyberNtt] (ntt.c, the in-place loops), [KyberPoly] (poly.c, cbd.c,
      verify.c), [KyberPolyvec] (polyvec.c), [KyberIndcpa] (indcpa.c),
      [KyberKem] (kyber_kem.c, randombytes.c).  The hash functions come in
      through the class [Symmetric] of [KyberSymmetric], which is symmetric.h;
      its instance [shake_symmetric] is symmetric-shake.c over [Keccak], the
      whole of fips202.c.  Their theorems are in [KyberNttSpec],
      [KyberPolySpec], [KyberCodec], [KyberSample], [KyberIndcpaSpec],
      [KyberKemSpec] and [KeccakSpec]; [Butterfly] relates in-place loops to
      recursion over halves.
    - The NTLS handshake ([ssl/statem_ntls]).  [NtlsTypes] has the enumerations
      and the fields of [SSL] and [OSSL_STATEM] that the state machines use;
      [NtlsEnv] the state monad and the class [Env] of what they call: record
      layer, key schedule, message parsers and constructors, application
      callbacks, with the frame laws [EnvLaws]; [NtlsLib] the shared handlers
      of ntls_statem_lib.c; [NtlsClient] and [NtlsServer] the transitions,
      work functions and dispatch tables of ntls_statem_clnt.c and
      ntls_statem_srvr.c; [NtlsStatem] the message flow of ntls_statem.c.
      [NtlsOrder] to [NtlsSafety] have the theorems; [NtlsNet] is an instance of
      the environment, only to show that their hypotheses can hold.  [NtlsMessage] has the readers of
      message headers and bodies (ntls_statem_lib.c) over the record layer, a
      parameter with laws; [NtlsMessageSpec] shows that they meet the laws that
      [EnvLaws] states for them ([reader_env_laws]) and what they read.
    - The hybrid key exchanges ([crypto/sm2dh-mlkem768-hybrid],
      [crypto/ecc-kyber-hybrid]).  [HybridKem] has both, every error path
      included, over the class [Kyber768], whose instance [ref_kyber768] is the Kyber
      of [KyberKem]; the elliptic-curve library is a parameter: the class [Curve]
      with the laws [CurveLaws], a function that says which of its calls fail, and
      one that says what a failing call has written.  The objects taken from it are
      references in a table, from which the free functions remove them.  Theorems in
      [HybridSpec].
    - The SM algorithms: [Sm4] (sm4.c) with [Sm4Spec]; [Sm3] (sm3.c, sm3_local.h,
      md32_common.h) with [Sm3Spec]; [Zuc] (zuc.c, eia3.c,
      cipher_zuc_eea3_hw.c) with [ZucSpec], [Eia3Spec] and [Eea3Spec].  [Buffers] has
      what they share.

    - Memory and packets.  [CMem] has the blocks of [OPENSSL_malloc]
      (crypto/mem.c) and the monad of computations over them, in which an access
      that C does not define is a fault.  [Packet] is the reader of
      include/internal/packet.h, [Wpacket] the writer of crypto/packet.c over
      [BUF_MEM_grow] (crypto/buffer/buffer.c); theorems in [PacketSpec] and
      [WpacketSpec].
    - The key exchange messages (ntls_statem_clnt.c, ntls_statem_srvr.c,
      ntls_statem_lib.c, ssl/s3_lib.c).  [KexTypes] has the fields of [SSL] they
      use, the class [Crypto] of the library calls they make, and what both
      sides share; [KexClient] and [KexServer] every function that constructs or
      processes ServerKeyExchange and ClientKeyExchange, for RSA, SM2, SM2DHE,
      ECC-Kyber, ECDHE-Kyber, Kyber and Kyber with Aigis-enc, over the packets
      of [Packet] and [Wpacket], the memory of [CMem] and the KEM of
      [HybridKem].  [KexLogic] is a calculus of weakest preconditions for them;
      [KexRuns], [KexSign], [KexRunsEvp] and [KexRunsDhe] follow the runs in
      which nothing fails; the theorems are in [KexAgree], which has a concrete
      setting too, [KexSafety] and [KexFaults].
    - The hello extensions (ntls_extensions.c, ntls_extensions_clnt.c,
      ntls_extensions_srvr.c, ntls_extensions_cust.c).  [ExtTypes] has the state
      and the parameters: application callbacks, OCSP objects, which allocations
      fail; [ExtCust] the custom extensions, [ExtClient] and [ExtServer] the
      constructors and parsers of each side, [ExtTable] the table of built-in
      extensions and the functions that collect, parse and construct them.
      [PacketRules] has the rules by which these programs read packets,
      [ExtWrite], [ExtHello] and [ExtLoop] what they write; the theorems are in
      [ExtCollect], [ExtSafe], [ExtCustSpec], [ExtParse] and [ExtAgree], with
      instances over [ExtToy].
    - The hello messages (ntls_statem_clnt.c, ntls_statem_srvr.c,
      ntls_statem_lib.c, ssl_sess.c).  [HelloTypes] has the fields of [SSL] and of
      the session that they use besides those of the extensions, new sessions and
      the version functions; [HelloMsg] the construction and processing of the
      ClientHello and the ServerHello on both sides; the theorems are in
      [HelloRead], which has a concrete setting too, [HelloAgree] and
      [HelloAccept].

    ** What the theorems show

    - Handshake: a handshake that succeeds has exchanged exactly the messages of
      a TLCP handshake in order, whatever the peer sends and wherever the calls
      are interrupted; a message out of order fails the connection for good,
      and one in order is accepted; every call returns; the nesting counter is restored but for one early return.  A
      message is read whole from any fragments, across any number of calls that
      have to wait, and ChangeCipherSpec is accepted only between messages.
    - Key encapsulation: encapsulation and decapsulation agree when the noise of
      the run is in the decoding window (a decidable condition on the run);
      every other ciphertext is rejected implicitly; all calls return.  Below
      it: multiplication through the NTT is multiplication in the ring, no
      [int16_t] overflows, serialisation round trips, compression errors,
      binomial and uniform sampling, constant-time selection.
    - Keccak: the unrolled permutation is Keccak-f[1600] (with
      rotations and complements by arithmetic, offsets by the walk, constants by the
      shift register), the sponge functions are those of FIPS 202, however the data
      is cut.
    - Hybrid key exchange: both sides agree; a call that fails leaves no secret
      behind, whatever the failing library or Kyber call has written, but for one path
      of decapsulation that does not clear its buffer; every object is given back
      once, but for one early return; what happens when memory is short; freed key
      objects are cleared.
    - SM3, SM4, ZUC, EEA3: equal to their standards, with round trips, and for
      SM3 and EEA3 independent of how the input is cut.  EIA3: equal to its
      standard for pieces of multiples of eight bytes, and a message for which
      other pieces give a wrong MAC.

    - Packets: every reader stays inside its buffer and reads as a list of bytes
      does; the writer refines a stack of frames under any sequence of calls;
      what is written reads back.
    - Key exchange messages: when nothing fails, both sides of each of the seven
      key exchanges accept the other's messages and have the same master secret.
      On any message, the client's handler of ServerKeyExchange, and the server's
      handler of ClientKeyExchange but for the two hybrid exchanges, make no memory
      error, keep [s3.tmp.pms] a live block, and send an alert when they fail; with
      any failures but two, for which [KexFaults] shows that a block is freed twice
      (a Kyber server that cannot make the master secret, an ECC-Kyber client without
      memory for the signed bytes).  For the hybrid exchanges [KexFaults] shows a
      buffer overflow and a free of a pointer that was never set.
    - Hello extensions: the extensions of a message are collected exactly when it
      is a sequence of extensions that are allowed, solicited and not repeated, by
      rules that [ExtCollect] states apart from the code; parsing reads inside them, terminates, raises an alert when it fails and
      marks each as parsed; the block that a client sends gives the server the
      client's settings, without custom extensions, SRTP over TLS and a ticket
      callback; the table of custom extensions never holds two for one
      type and role, under any sequence of registrations, and no type that the
      library handles itself but for the cases that [ExtCustSpec] exhibits.
    - Hello messages: a ClientHello, regular or in the format of SSLv2, is accepted
      exactly when its bytes have the format of the message and its extensions can
      be collected; what the client writes is what the server has after reading
      it, the cipher suites always fitting their length; the fields of a
      ServerHello are read back; a ServerHello is safe to process whatever its
      bytes, and the client resumes only its own session, in the same context and
      version and with the cipher it was made with, unless a callback of the
      application supplies its secret.

    ** Bounds and fuel

    - Rejection sampling has no bound in the code; [gen_matrix] and what calls
      it take the number of extra blocks and return [None] when it does not
      suffice.  The theorems are for every number with which it does.
    - The three nested loops of the message flow take a fuel.  A history has at
      most 16 messages, and each takes at most three rounds to read and four to
      write, so that 80 rounds suffice ([NtlsTotal.state_machine_returns]).
    - The readers loop once per fragment: the bytes that have arrived, a measure
      that every successful read decreases, are the fuel, and the readers never
      run out of it ([header_loop_total], [body_loop_total]).
    - The loops over the bytes of extensions, protocol lists, responder ids and
      profiles have as many turns as there are bytes, and each turn takes at least
      one; no theorem is only for runs in which they suffice.
    - The Kyber of the key exchange messages takes the same number of extra
      blocks ([sampler_fuel]); running out of it is the outcome [Unfinished].
    - EIA3 positions are an [int]: messages under 2^28 bytes.  EEA3 positions
      are 32-bit: streams under 2^32 - 8 bytes.

    ** Not modelled

    - The post-processing of a ClientHello (the server's choice of version,
      session and cipher), and the Certificate, CertificateRequest and
      CertificateVerify messages: the state machines take all messages as
      parameters with frame laws.  The PSK binder, which no NTLS message uses, and
      the copying of tables of custom extensions.  The record layer, information,
      message, debug and status callbacks, error queues, DTLS.
    - The elliptic-curve, big-number and EVP libraries; provider dispatch
      tables; the assembler alternatives; PQMagic, a second implementation of
      the post-quantum algorithms; the rest of Tongsuo; demos and the vendored
      web server.

    ** Plan

    Next are the post-processing of the ClientHello and the certificate
    messages over the packets of [Packet] and [Wpacket], the extensions of the
    ServerHello as bytes, then the record layer's padding checks and the ML-DSA
    signature. *)

From Stdlib Require Export ZArith Lia List Bool Setoid Morphisms.
From stdpp Require Export base list numbers.

#[global] Open Scope Z_scope.

Create HintDb kyber discriminated.
Create HintDb carith discriminated.
#[export] Hint Constants Opaque : kyber.
Create Rewrite HintDb cells.

Declare Scope record_scope.

(** ** Record update

    [s <| f := v |>] is the C assignment [s->f = v].  An eta-expanded
    instance of the record is abstracted over the projection to build the
    update. *)

Class Eta (R : Type) := eta : R -> R.
Class Setter {R T : Type} (proj : R -> T) := set : T -> R -> R.

Ltac build_setter :=
  match goal with
  | |- @Setter ?R ?T ?proj =>
      let e := constr:(_ : Eta R) in
      let e := eval hnf in e in
      match eval pattern proj in e with
      | ?g _ => let h := eval cbv beta in (fun (v : T) (r : R) => g (fun _ => v) r) in
                exact h
      end
  end.
#[export] Hint Extern 1 (Setter _) => build_setter : typeclass_instances.

Notation "s <| f := v |>" := (set (proj := f) v s)
  (at level 12, f at next level, v at level 200, left associativity,
   format "s  <| f  :=  v |>") : record_scope.

#[global] Open Scope record_scope.

(** ** C integer conversions

    A value of a C integer type is a [Z] in the range of the type.  An
    arithmetic expression is evaluated on [Z] (all the intermediate results of
    the modelled code fit the promoted type on the inputs of the theorems); a
    conversion, an assignment or an unsigned operation goes through one of the
    functions below. *)

Definition u8 (x : Z) : Z := x mod 2 ^ 8.
Definition u16 (x : Z) : Z := x mod 2 ^ 16.
Definition u32 (x : Z) : Z := x mod 2 ^ 32.
Definition u64 (x : Z) : Z := x mod 2 ^ 64.

(** [int16_t] and [int32_t], two's complement. *)
Definition s16 (x : Z) : Z := (x + 2 ^ 15) mod 2 ^ 16 - 2 ^ 15.
Definition s32 (x : Z) : Z := (x + 2 ^ 31) mod 2 ^ 32 - 2 ^ 31.

(** Closed powers of two are computed once, so that [lia] sees numerals. *)
Ltac pow2 :=
  repeat match goal with
  | |- context [2 ^ Zpos ?p] =>
      let v := eval vm_compute in (2 ^ Zpos p) in change (2 ^ Zpos p) with v
  | H : context [2 ^ Zpos ?p] |- _ =>
      let v := eval vm_compute in (2 ^ Zpos p) in change (2 ^ Zpos p) with v in H
  end.

Ltac zdm := Z.div_mod_to_equations.

(** Case analysis on the boolean tests of the code. *)
Ltac btest :=
  match goal with
  | |- context [Z.ltb ?a ?b] => destruct (Z.ltb_spec a b)
  | |- context [Z.leb ?a ?b] => destruct (Z.leb_spec a b)
  | |- context [Z.eqb ?a ?b] => destruct (Z.eqb_spec a b)
  | |- context [Nat.ltb ?a ?b] => destruct (Nat.ltb_spec a b)
  | |- context [Nat.leb ?a ?b] => destruct (Nat.leb_spec a b)
  | |- context [Nat.eqb ?a ?b] => destruct (Nat.eqb_spec a b)
  end.

Lemma s16_small x : - 2 ^ 15 <= x < 2 ^ 15 -> s16 x = x.
Proof. intros H. unfold s16. rewrite Z.mod_small; pow2; lia. Qed.

Lemma s16_range x : - 2 ^ 15 <= s16 x < 2 ^ 15.
Proof. unfold s16. pose proof (Z.mod_pos_bound (x + 2 ^ 15) (2 ^ 16)). pow2; lia. Qed.

Lemma s32_small x : - 2 ^ 31 <= x < 2 ^ 31 -> s32 x = x.
Proof. intros H. unfold s32. rewrite Z.mod_small; pow2; lia. Qed.

Lemma u8_small x : 0 <= x < 2 ^ 8 -> u8 x = x.
Proof. apply Z.mod_small. Qed.
Lemma u16_small x : 0 <= x < 2 ^ 16 -> u16 x = x.
Proof. apply Z.mod_small. Qed.
Lemma u32_small x : 0 <= x < 2 ^ 32 -> u32 x = x.
Proof. apply Z.mod_small. Qed.
Lemma u64_small x : 0 <= x < 2 ^ 64 -> u64 x = x.
Proof. apply Z.mod_small. Qed.
Lemma u8_range x : 0 <= u8 x < 2 ^ 8.
Proof. apply Z.mod_pos_bound. reflexivity. Qed.
Lemma u32_range x : 0 <= u32 x < 2 ^ 32.
Proof. apply Z.mod_pos_bound. reflexivity. Qed.
Lemma u64_range x : 0 <= u64 x < 2 ^ 64.
Proof. apply Z.mod_pos_bound. reflexivity. Qed.

#[export] Hint Resolve s16_range u8_range u32_range u64_range : carith.

(** A byte string: the contents of a [uint8_t] array. *)
Definition is_byte (x : Z) : Prop := 0 <= x < 256.
Definition bytes (l : list Z) : Prop := Forall is_byte l.

(** ** Congruence modulo [q] *)

Definition cong (q a b : Z) : Prop := a mod q = b mod q.

Declare Scope cong_scope.
Delimit Scope cong_scope with cong.
#[warnings="-postfix-notation-not-level-1"]
Notation "a ≡ b [mod q ]" := (cong q a b)
  (at level 70, b at next level, format "a  ≡  b  [mod  q ]") : cong_scope.
#[global] Open Scope cong_scope.

Section Cong.
Variable q : Z.

#[global] Instance cong_equiv : Equivalence (cong q).
Proof. split; red; unfold cong; intros; congruence. Qed.

#[global] Instance cong_add : Proper (cong q ==> cong q ==> cong q) Z.add.
Proof.
  unfold cong. intros a a' Ha b b' Hb.
  now rewrite Zplus_mod, Ha, Hb, <- Zplus_mod.
Qed.

#[global] Instance cong_sub : Proper (cong q ==> cong q ==> cong q) Z.sub.
Proof.
  unfold cong. intros a a' Ha b b' Hb.
  now rewrite Zminus_mod, Ha, Hb, <- Zminus_mod.
Qed.

#[global] Instance cong_mul : Proper (cong q ==> cong q ==> cong q) Z.mul.
Proof.
  unfold cong. intros a a' Ha b b' Hb.
  now rewrite Zmult_mod, Ha, Hb, <- Zmult_mod.
Qed.

#[global] Instance cong_opp : Proper (cong q ==> cong q) Z.opp.
Proof. intros a a' Ha. rewrite <- (Z.sub_0_l a), <- (Z.sub_0_l a'). now rewrite Ha. Qed.

Lemma cong_of_eq a b : a = b -> a ≡ b [mod q].
Proof. now intros ->. Qed.

Lemma cong_divide a b : q <> 0 -> a ≡ b [mod q] <-> (q | a - b).
Proof.
  intros Hq. unfold cong. split; intros H.
  - apply Z.mod_divide; [easy|]. now rewrite Zminus_mod, H, Z.sub_diag, Z.mod_0_l.
  - apply Z.mod_divide in H; [|easy].
    replace a with (b + (a - b)) by lia.
    now rewrite Zplus_mod, H, Z.add_0_r, Z.mod_mod.
Qed.

Lemma cong_exists a b k : a = b + k * q -> a ≡ b [mod q].
Proof. intros ->. unfold cong. apply Z_mod_plus_full. Qed.

Lemma cong_mod a : a mod q ≡ a [mod q].
Proof. unfold cong. apply Zmod_mod. Qed.

(** A factor that is invertible modulo [q] can be cancelled. *)
Lemma cong_mul_cancel c c' a b :
  c * c' ≡ 1 [mod q] -> c * a ≡ c * b [mod q] -> a ≡ b [mod q].
Proof.
  intros Hc H.
  transitivity (c * c' * a); [rewrite Hc; apply cong_of_eq; ring|].
  transitivity (c' * (c * a)); [apply cong_of_eq; ring|].
  rewrite H. transitivity (c * c' * b); [apply cong_of_eq; ring|].
  rewrite Hc. apply cong_of_eq; ring.
Qed.

(** Two congruent representatives in one centred interval are equal. *)
Lemma cong_small_eq a b : 0 < q -> a ≡ b [mod q] -> Z.abs (a - b) < q -> a = b.
Proof.
  intros Hq H Hab. apply cong_divide in H; [|lia]. destruct H as [k Hk].
  destruct (Z.lt_trichotomy k 0) as [?|[->|?]]; nia.
Qed.
End Cong.

Lemma s16_cong x : s16 x ≡ x [mod 2 ^ 16].
Proof. apply cong_exists with (- ((x + 2 ^ 15) / 2 ^ 16)). unfold s16. zdm; pow2; lia. Qed.

Lemma s16_eq x y : x ≡ y [mod 2 ^ 16] -> s16 x = s16 y.
Proof.
  intros H. unfold s16. f_equal. change (x + 2 ^ 15 ≡ y + 2 ^ 15 [mod 2 ^ 16]). now rewrite H.
Qed.

(** Congruence of coefficient lists. *)
Abbreviation congl q := (Forall2 (cong q)).

(** ** Arrays

    A C array is the list of its cells; [get] reads a cell and stdpp's
    [<[i := x]> l] writes one.  Every index of the modelled loops is in range. *)

Definition get (l : list Z) (i : nat) : Z := nth i l 0.

Lemma get_cons_0 x l : get (x :: l) 0 = x.
Proof. reflexivity. Qed.

Lemma get_cons_S x l i : get (x :: l) (S i) = get l i.
Proof. reflexivity. Qed.

#[export] Hint Rewrite get_cons_0 get_cons_S : cells.

(** Reads of literal cells. *)
Ltac cells := autorewrite with cells in *.

Lemma get_app_l l k i : (i < length l)%nat -> get (l ++ k) i = get l i.
Proof. intros. unfold get. now apply app_nth1. Qed.

Lemma get_app_r l k i : (length l <= i)%nat -> get (l ++ k) i = get k (i - length l).
Proof. intros. unfold get. now apply app_nth2. Qed.

Lemma get_middle l x k : get (l ++ x :: k) (length l) = x.
Proof. rewrite get_app_r by lia. now rewrite Nat.sub_diag. Qed.

Lemma get_lookup l i : (i < length l)%nat -> l !! i = Some (get l i).
Proof.
  intros H. unfold get. destruct (lookup_lt_is_Some_2 l i H) as [x Hx].
  rewrite (nth_lookup_Some _ _ _ _ Hx). exact Hx.
Qed.

Lemma get_insert_eq l i x : (i < length l)%nat -> get (<[i:=x]> l) i = x.
Proof.
  intros H. unfold get. apply nth_lookup_Some. now apply list_lookup_insert_eq.
Qed.

Lemma get_insert_ne l i j x : i <> j -> get (<[i:=x]> l) j = get l j.
Proof. intros H. unfold get. now rewrite !nth_lookup, list_lookup_insert_ne. Qed.

Lemma insert_middle (l k : list Z) x y : <[length l := y]> (l ++ x :: k) = l ++ y :: k.
Proof. rewrite insert_app_r_alt by lia. now rewrite Nat.sub_diag. Qed.

Lemma get_map f l i : (i < length l)%nat -> get (map f l) i = f (get l i).
Proof.
  intros H. unfold get. rewrite nth_indep with (d' := f 0) by now rewrite length_map.
  apply map_nth.
Qed.

Lemma get_Forall (P : Z -> Prop) l i : Forall P l -> (i < length l)%nat -> P (get l i).
Proof.
  intros HF H. rewrite Forall_lookup in HF. eapply HF. now apply get_lookup.
Qed.

Lemma list_eq_get (l k : list Z) :
  length l = length k -> (forall i, (i < length l)%nat -> get l i = get k i) -> l = k.
Proof. intros. eapply nth_ext; eauto. Qed.

Lemma Forall2_get (R : Z -> Z -> Prop) l k :
  Forall2 R l k <->
  length l = length k /\ forall i, (i < length l)%nat -> R (get l i) (get k i).
Proof.
  split.
  - induction 1 as [|x y l k Hxy H [IHl IH]]; [split; [easy|simpl; lia]|].
    split; [simpl; congruence|]. intros [|i] Hi; [exact Hxy|].
    apply (IH i). simpl in Hi. lia.
  - revert k. induction l as [|x l IH]; intros [|y k] [Hl H]; simpl in Hl; try lia;
      constructor.
    + apply (H 0%nat). simpl. lia.
    + apply IH. split; [lia|]. intros i Hi. apply (H (S i)). simpl. lia.
Qed.

(** [map f (seq 0 n)] is the array filled by [for (i = 0; i < n; i++) r[i] = f(i)]. *)
Lemma get_map_seq (f : nat -> Z) n i :
  (i < n)%nat -> get (map f (seq 0 n)) i = f i.
Proof.
  intros H. unfold get.
  rewrite nth_indep with (d' := f 0%nat) by now rewrite length_map, length_seq.
  rewrite map_nth, seq_nth by easy. f_equal; lia.
Qed.

(** Cell [n] of row [i] in an array with rows of [m] cells. *)
Lemma nat_div_cell m i n : (n < m)%nat -> ((m * i + n) / m = i)%nat.
Proof. intros H. symmetry. now apply Nat.div_unique with n. Qed.

Lemma nat_mod_cell m i n : (n < m)%nat -> ((m * i + n) mod m = n)%nat.
Proof. intros H. symmetry. now apply Nat.mod_unique with i. Qed.

(** Normal form of concatenations. *)
Ltac lapp := repeat (progress (simpl; rewrite <- ?app_assoc)); try reflexivity.

(** ** Folds *)

Lemma foldl_ext_in {A B} (f g : A -> B -> A) l : forall a,
  (forall a x, In x l -> f a x = g a x) -> foldl f a l = foldl g a l.
Proof.
  induction l as [|x l IH]; intros a H; [easy|]. simpl. rewrite H by now left.
  apply IH. intros. apply H. now right.
Qed.

(** ** Pointwise combination of lists *)

Lemma Forall2_zip_with (P Q R : Z -> Z -> Prop) f g l1 l2 k1 k2 :
  (forall a a' b b', P a a' -> Q b b' -> R (f a b) (g a' b')) ->
  Forall2 P l1 l2 -> Forall2 Q k1 k2 -> Forall2 R (zip_with f l1 k1) (zip_with g l2 k2).
Proof.
  intros HR H. revert k1 k2.
  induction H; intros k1 k2 HQ; destruct HQ; simpl; constructor; auto.
Qed.

Lemma Forall2_map_map (P Q : Z -> Z -> Prop) f g l k :
  (forall a a', P a a' -> Q (f a) (g a')) -> Forall2 P l k -> Forall2 Q (map f l) (map g k).
Proof. intros HR. induction 1; simpl; constructor; auto. Qed.

Lemma congl_refl q l : congl q l l.
Proof. apply Forall_Forall2_diag, Forall_true. reflexivity. Qed.

#[export] Instance congl_equiv q : Equivalence (congl q).
Proof.
  split; red.
  - apply congl_refl.
  - intros l k H. apply Forall2_flip. eapply Forall2_impl; eauto. now intros ? ? ->.
  - intros l k m H. revert m. induction H as [|x y l k Hxy H IH]; intros m Hm;
      inversion Hm; subst; constructor; [etransitivity; eauto|auto].
Qed.

(** ** Bit fields *)

Lemma land_shiftl_small a b n : 0 <= n -> 0 <= a < 2 ^ n -> Z.land a (Z.shiftl b n) = 0.
Proof.
  intros Hn Ha. apply Z.bits_inj'. intros i Hi. rewrite Z.land_spec, Z.bits_0.
  destruct (Z.lt_ge_cases i n).
  - rewrite Z.shiftl_spec_low by lia. apply andb_false_r.
  - rewrite <- (Z.mod_small a (2 ^ n)), Z.mod_pow2_bits_high by lia. reflexivity.
Qed.

Lemma lor_shiftl_add a b n :
  0 <= n -> 0 <= a < 2 ^ n -> Z.lor a (Z.shiftl b n) = a + 2 ^ n * b.
Proof.
  intros Hn Ha. rewrite <- Z.lxor_lor by now apply land_shiftl_small.
  rewrite <- Z.add_nocarry_lxor by now apply land_shiftl_small.
  rewrite Z.shiftl_mul_pow2 by easy. ring.
Qed.

(** ** Arrays filled row by row

    [rows n f] is the array that a loop [for (i = 0; i < n; i++)] fills when
    pass [i] appends the cells [f i]. *)
Definition rows (n : nat) (f : nat -> list Z) : list Z := concat (map f (seq 0 n)).

Lemma rows_S n f : rows (S n) f = rows n f ++ f n.
Proof. unfold rows. rewrite seq_S, map_app, concat_app. simpl. now rewrite app_nil_r. Qed.

Lemma rows_length m n f :
  (forall i, (i < n)%nat -> length (f i) = m) -> length (rows n f) = (m * n)%nat.
Proof.
  intros H. induction n as [|n IH]; [simpl; lia|].
  rewrite rows_S, length_app, IH, H by auto. lia.
Qed.

Lemma get_rows m n f i j :
  (forall i, (i < n)%nat -> length (f i) = m) -> (i < n)%nat -> (j < m)%nat ->
  get (rows n f) (m * i + j) = get (f i) j.
Proof.
  intros H. induction n as [|n IH]; intros Hi Hj; [lia|].
  rewrite rows_S. assert (Hl : length (rows n f) = (m * n)%nat) by (apply rows_length; auto).
  destruct (Nat.lt_ge_cases i n).
  - rewrite get_app_l by nia. apply IH; auto.
  - replace i with n by lia. rewrite get_app_r by lia. f_equal. lia.
Qed.

Lemma Forall_rows (P : Z -> Prop) n f :
  (forall i, (i < n)%nat -> Forall P (f i)) -> Forall P (rows n f).
Proof.
  intros H. induction n as [|n IH]; [constructor|].
  rewrite rows_S. apply Forall_app. split; auto.
Qed.

Lemma rows_ext n f g : (forall i, (i < n)%nat -> f i = g i) -> rows n f = rows n g.
Proof.
  intros H. induction n as [|n IH]; [easy|]. rewrite !rows_S, IH, H by auto. reflexivity.
Qed.

(** Every array is filled from its own cells. *)
Lemma rows_eta m n l :
  length l = (m * n)%nat ->
  rows n (fun i => map (fun j => get l (m * i + j)) (seq 0 m)) = l.
Proof.
  intros H.
  assert (Hl : forall i, (i < n)%nat ->
    length (map (fun j => get l (m * i + j)%nat) (seq 0 m)) = m)
    by (intros; now rewrite length_map, length_seq).
  apply list_eq_get.
  - rewrite (rows_length m) by easy. lia.
  - rewrite (rows_length m) by easy. intros k Hk.
    assert (m <> 0%nat) by lia.
    rewrite (Nat.div_mod_eq k m). pose proof (Nat.mod_upper_bound k m ltac:(easy)).
    rewrite (get_rows m) by (auto; apply Nat.Div0.div_lt_upper_bound; lia).
    now rewrite get_map_seq.
Qed.
