(* ===== verification/KyberReduce.v ===== *)
(** * Kyber: parameters and modular reduction

    The constants of [crypto/kyber/params.h] (with [KYBER_K = 3], the value the
    build uses) and the two reductions of [crypto/kyber/reduce.c]. *)
From S2P Require Import Prelude.

(** ** [params.h] *)

Definition KYBER_K : nat := 3.
Definition KYBER_N : nat := 256.
Definition KYBER_Q : Z := 3329.
Definition KYBER_SYMBYTES : nat := 32.
Definition KYBER_SSBYTES : nat := 32.
Definition KYBER_POLYBYTES : nat := 384.
Definition KYBER_POLYVECBYTES : nat := KYBER_K * KYBER_POLYBYTES.
Definition KYBER_ETA1 : nat := 2.
Definition KYBER_POLYCOMPRESSEDBYTES : nat := 128.
Definition KYBER_POLYVECCOMPRESSEDBYTES : nat := KYBER_K * 320.
Definition KYBER_ETA2 : nat := 2.
Definition KYBER_INDCPA_MSGBYTES : nat := KYBER_SYMBYTES.
Definition KYBER_INDCPA_PUBLICKEYBYTES : nat := KYBER_POLYVECBYTES + KYBER_SYMBYTES.
Definition KYBER_INDCPA_SECRETKEYBYTES : nat := KYBER_POLYVECBYTES.
Definition KYBER_INDCPA_BYTES : nat :=
  KYBER_POLYVECCOMPRESSEDBYTES + KYBER_POLYCOMPRESSEDBYTES.
Definition KYBER_PUBLICKEYBYTES : nat := KYBER_INDCPA_PUBLICKEYBYTES.
Definition KYBER_SECRETKEYBYTES : nat :=
  KYBER_INDCPA_SECRETKEYBYTES + KYBER_INDCPA_PUBLICKEYBYTES + 2 * KYBER_SYMBYTES.
Definition KYBER_CIPHERTEXTBYTES : nat := KYBER_INDCPA_BYTES.

(** ** [reduce.h], [reduce.c] *)

Definition MONT : Z := -1044.
Definition QINV : Z := -3327.

Definition montgomery_reduce (a : Z) : Z :=
  let t := s16 (s16 a * QINV) in
  s16 (Z.shiftr (a - t * KYBER_Q) 16).

Definition barrett_reduce (a : Z) : Z :=
  let v := s16 ((Z.shiftl 1 26 + KYBER_Q / 2) / KYBER_Q) in
  let t := s16 (Z.shiftr (v * a + Z.shiftl 1 25) 26) in
  let t := s16 (t * KYBER_Q) in
  s16 (a - t).

(** The Montgomery radix and its inverse modulo [q]. *)
Definition R : Z := 2 ^ 16.
Definition Rinv : Z := 169.

Lemma R_Rinv : R * Rinv ≡ 1 [mod KYBER_Q].
Proof. reflexivity. Qed.

Lemma QINV_spec : KYBER_Q * QINV ≡ 1 [mod 2 ^ 16].
Proof. reflexivity. Qed.

(** The subtraction in [montgomery_reduce] clears the low 16 bits. *)
Lemma montgomery_exact a :
  a - s16 (s16 a * QINV) * KYBER_Q ≡ 0 [mod 2 ^ 16].
Proof.
  rewrite (s16_cong (s16 a * QINV)), (s16_cong a).
  transitivity (a * (1 - KYBER_Q * QINV)); [apply cong_of_eq; ring|].
  rewrite QINV_spec. apply cong_of_eq. ring.
Qed.

Lemma montgomery_reduce_range a :
  - KYBER_Q * 2 ^ 15 <= a < KYBER_Q * 2 ^ 15 ->
  - KYBER_Q < Z.shiftr (a - s16 (s16 a * QINV) * KYBER_Q) 16 < KYBER_Q.
Proof.
  intros Ha. pose proof (s16_range (s16 a * QINV)) as Ht.
  pose proof (montgomery_exact a) as He. unfold cong in He.
  set (t := s16 _) in *. clearbody t. rewrite Z.shiftr_div_pow2 by lia.
  unfold KYBER_Q in *. pow2. zdm; lia.
Qed.

Lemma montgomery_reduce_bounds a :
  - KYBER_Q * 2 ^ 15 <= a < KYBER_Q * 2 ^ 15 ->
  - KYBER_Q < montgomery_reduce a < KYBER_Q.
Proof.
  intros Ha. pose proof (montgomery_reduce_range a Ha) as Hr.
  unfold montgomery_reduce. rewrite s16_small; [exact Hr|].
  unfold KYBER_Q in *. pow2. lia.
Qed.

Lemma montgomery_reduce_cong a :
  - KYBER_Q * 2 ^ 15 <= a < KYBER_Q * 2 ^ 15 ->
  R * montgomery_reduce a ≡ a [mod KYBER_Q].
Proof.
  intros Ha. pose proof (montgomery_reduce_range a Ha) as Hr.
  pose proof (montgomery_exact a) as He.
  unfold montgomery_reduce. rewrite s16_small by (unfold KYBER_Q in *; pow2; lia).
  set (t := s16 (s16 a * QINV)) in *. rewrite Z.shiftr_div_pow2 by lia.
  unfold cong in He. rewrite Z.mod_0_l in He by lia.
  apply cong_exists with (- t). unfold R. zdm; pow2; lia.
Qed.

(** The same fact solved for the result. *)
Lemma montgomery_reduce_Rinv a :
  - KYBER_Q * 2 ^ 15 <= a < KYBER_Q * 2 ^ 15 ->
  montgomery_reduce a ≡ a * Rinv [mod KYBER_Q].
Proof.
  intros Ha. apply cong_mul_cancel with R Rinv; [exact R_Rinv|].
  rewrite montgomery_reduce_cong by easy.
  transitivity (a * (R * Rinv)); [|apply cong_of_eq; ring].
  rewrite R_Rinv. apply cong_of_eq. ring.
Qed.

(** Barrett reduction: the quotient estimate is the rounded quotient. *)
Lemma barrett_reduce_unfold a :
  - 2 ^ 15 <= a < 2 ^ 15 ->
  barrett_reduce a = a - (20159 * a + 2 ^ 25) / 2 ^ 26 * KYBER_Q /\
  - ((KYBER_Q - 1) / 2) <= a - (20159 * a + 2 ^ 25) / 2 ^ 26 * KYBER_Q <= (KYBER_Q - 1) / 2.
Proof.
  intros Ha.
  assert (H : - ((KYBER_Q - 1) / 2) <= a - (20159 * a + 2 ^ 25) / 2 ^ 26 * KYBER_Q
              <= (KYBER_Q - 1) / 2).
  { change ((KYBER_Q - 1) / 2) with 1664. unfold KYBER_Q. pow2. zdm; lia. }
  split; [|exact H].
  unfold barrett_reduce. change (s16 ((Z.shiftl 1 26 + KYBER_Q / 2) / KYBER_Q)) with 20159.
  change (Z.shiftl 1 25) with (2 ^ 25). rewrite Z.shiftr_div_pow2 by lia.
  change ((KYBER_Q - 1) / 2) with 1664 in H.
  set (t := (20159 * a + 2 ^ 25) / 2 ^ 26) in *.
  assert (- 10 <= t <= 10) by (unfold t; pow2; zdm; lia).
  unfold KYBER_Q in *. rewrite (s16_small t) by (pow2; lia).
  rewrite (s16_eq (a - s16 (t * 3329)) (a - t * 3329)) by now rewrite s16_cong.
  rewrite s16_small; pow2; lia.
Qed.

Lemma barrett_reduce_bounds a :
  - 2 ^ 15 <= a < 2 ^ 15 -> - ((KYBER_Q - 1) / 2) <= barrett_reduce a <= (KYBER_Q - 1) / 2.
Proof. intros Ha. destruct (barrett_reduce_unfold a Ha) as [-> H]. exact H. Qed.

Lemma barrett_reduce_cong a :
  - 2 ^ 15 <= a < 2 ^ 15 -> barrett_reduce a ≡ a [mod KYBER_Q].
Proof.
  intros Ha. destruct (barrett_reduce_unfold a Ha) as [-> _].
  apply cong_exists with (- ((20159 * a + 2 ^ 25) / 2 ^ 26)). ring.
Qed.

(** ** Claims *)

(** [montgomery_reduce] on the whole range its comment documents: the result is
    strictly between [-q] and [q] and times [2 ^ 16] it is the input modulo [q]; none of
    its 16- and 32-bit conversions loses information. *)
Theorem montgomery_reduce_correct (a : Z) :
  - KYBER_Q * 2 ^ 15 <= a < KYBER_Q * 2 ^ 15 ->
  - KYBER_Q < montgomery_reduce a < KYBER_Q /\
  2 ^ 16 * montgomery_reduce a ≡ a [mod KYBER_Q].
Proof. intros H. split; [now apply montgomery_reduce_bounds|now apply montgomery_reduce_cong]. Qed.

Lemma montgomery_reduce_correct_witness :
  (- KYBER_Q * 2 ^ 15 <= 1000000 < KYBER_Q * 2 ^ 15) /\
  - KYBER_Q < montgomery_reduce 1000000 < KYBER_Q.
Proof.
  assert (H : - KYBER_Q * 2 ^ 15 <= 1000000 < KYBER_Q * 2 ^ 15) by (unfold KYBER_Q; pow2; lia).
  split; [exact H|]. exact (proj1 (montgomery_reduce_correct 1000000 H)).
Defined.

(** [barrett_reduce] of any [int16_t] is the representative of its residue class
    in [{-(q-1)/2, ..., (q-1)/2}], although the product [t * q] is truncated to 16
    bits. *)
Theorem barrett_reduce_correct (a r : Z) :
  - 2 ^ 15 <= a < 2 ^ 15 ->
  barrett_reduce a = r <->
  (- ((KYBER_Q - 1) / 2) <= r <= (KYBER_Q - 1) / 2 /\ r ≡ a [mod KYBER_Q]).
Proof.
  intros Ha. pose proof (barrett_reduce_bounds a Ha) as Hb. pose proof (barrett_reduce_cong a Ha) as Hc.
  split; [intros <-; easy|]. intros [Hr Hra].
  apply (cong_small_eq KYBER_Q); [reflexivity|now rewrite Hc, Hra|].
  change ((KYBER_Q - 1) / 2) with 1664 in *. unfold KYBER_Q. lia.
Qed.

Lemma barrett_reduce_correct_witness :
  (- 2 ^ 15 <= 32767 < 2 ^ 15) /\ barrett_reduce 32767 = -523.
Proof.
  assert (H : - 2 ^ 15 <= 32767 < 2 ^ 15) by (pow2; lia).
  split; [exact H|]. apply (proj2 (barrett_reduce_correct 32767 (-523) H)).
  split; [vm_compute; split; discriminate|reflexivity].
Defined.
