(* ===== verification/Butterfly.v ===== *)
(** * In-place butterfly passes and their recursive form

    A number-theoretic transform in C is three nested loops that update one
    array in place, layer by layer.  This file relates that shape to a recursion
    over the halves of the array: a layer works on blocks of [2 * len] cells,
    replaces the halves [lo, hi] of block number [k] by
    [f k lo hi] and [g k lo hi] (cell by cell), and the whole transform is the
    recursion [ntree] (forward, splitting) or [itree] (inverse, merging). *)
From S2P Require Import Prelude.

(** One butterfly: cells [j] and [j + len] are both rewritten. *)
Definition bf (f g : Z -> Z -> Z) (len : nat) (r : list Z) (j : nat) : list Z :=
  <[j := f (get r j) (get r (j + len))]> (<[(j + len)%nat := g (get r j) (get r (j + len))]> r).

(** The blocks of one layer: block [k + i] of the list is split in halves of
    [h] cells. *)
Fixpoint split_blocks (f g : nat -> Z -> Z -> Z) (h k : nat) (bs : list (list Z))
    : list (list Z) :=
  match bs with
  | [] => []
  | b :: bs =>
      zip_with (f k) (take h b) (drop h b) :: zip_with (g k) (take h b) (drop h b)
      :: split_blocks f g h (S k) bs
  end.

(** Forward transform of a block of [2 ^ n * w] cells at tree node [k]. *)
Fixpoint ntree (f g : nat -> Z -> Z -> Z) (w n k : nat) (p : list Z) : list Z :=
  match n with
  | O => p
  | S n =>
      let h := (2 ^ n * w)%nat in
      ntree f g w n (2 * k) (zip_with (f k) (take h p) (drop h p)) ++
      ntree f g w n (2 * k + 1) (zip_with (g k) (take h p) (drop h p))
  end.

Fixpoint ntree_blocks (f g : nat -> Z -> Z -> Z) (w n k : nat) (bs : list (list Z)) : list Z :=
  match bs with
  | [] => []
  | b :: bs => ntree f g w n k b ++ ntree_blocks f g w n (S k) bs
  end.

(** One layer of the inverse: adjacent blocks are merged, the block number going
    down from [k]. *)
Fixpoint merge_blocks (f g : nat -> Z -> Z -> Z) (k : nat) (bs : list (list Z))
    : list (list Z) :=
  match bs with
  | x :: y :: bs => (zip_with (f k) x y ++ zip_with (g k) x y) :: merge_blocks f g (k - 1) bs
  | _ => []
  end.

Fixpoint halves (h : nat) (bs : list (list Z)) : list (list Z) :=
  match bs with
  | [] => []
  | b :: bs => take h b :: drop h b :: halves h bs
  end.

(** Inverse transform; the children of node [k] are [2 k + 1] and [2 k]. *)
Fixpoint itree (f g : nat -> Z -> Z -> Z) (w n k : nat) (p : list Z) : list Z :=
  match n with
  | O => p
  | S n =>
      let h := (2 ^ n * w)%nat in
      let x := itree f g w n (2 * k + 1) (take h p) in
      let y := itree f g w n (2 * k) (drop h p) in
      zip_with (f k) x y ++ zip_with (g k) x y
  end.

Fixpoint itree_blocks (f g : nat -> Z -> Z -> Z) (w n k : nat) (bs : list (list Z))
    : list (list Z) :=
  match bs with
  | [] => []
  | b :: bs => itree f g w n k b :: itree_blocks f g w n (k - 1) bs
  end.

(** ** The in-place pass over one block *)

Lemma bf_step f g pre a lo mid b post len :
  len = S (length lo + length mid)%nat ->
  bf f g len (pre ++ (a :: lo) ++ mid ++ b :: post) (length pre) =
  pre ++ (f a b :: lo) ++ mid ++ g a b :: post.
Proof.
  intros ->. unfold bf.
  replace (get _ (length pre)) with a by (simpl; now rewrite get_middle).
  assert (Hsplit : forall x y, pre ++ (x :: lo) ++ mid ++ y :: post =
                          (pre ++ x :: lo ++ mid) ++ y :: post).
  { intros. now lapp. }
  rewrite Hsplit.
  replace (length pre + S (length lo + length mid))%nat with (length (pre ++ a :: lo ++ mid))
    by (rewrite length_app; simpl; rewrite length_app; lia).
  rewrite get_middle, insert_middle, <- Hsplit. simpl. now rewrite insert_middle.
Qed.

Lemma bf_pass f g pre post lo : forall lod hi hid len,
  length lo = length hi -> length lod = length hid -> len = (length lod + length lo)%nat ->
  foldl (bf f g len) (pre ++ (lod ++ lo) ++ (hid ++ hi) ++ post)
    (seq (length pre + length lod) (length lo)) =
  pre ++ (lod ++ zip_with f lo hi) ++ (hid ++ zip_with g lo hi) ++ post.
Proof.
  induction lo as [|a lo IH]; intros lod [|b hi] hid len Hl Hd ->; simpl in Hl; try lia;
    [reflexivity|].
  change (seq (length pre + length lod) (length (a :: lo)))
    with ((length pre + length lod)%nat :: seq (S (length pre + length lod)) (length lo)).
  cbn [foldl].
  replace (pre ++ (lod ++ a :: lo) ++ (hid ++ b :: hi) ++ post)
    with ((pre ++ lod) ++ (a :: lo) ++ hid ++ b :: (hi ++ post))
    by now lapp.
  pose proof (bf_step f g (pre ++ lod) a lo hid b (hi ++ post)
                (length lod + length (a :: lo))) as E.
  rewrite length_app in E. rewrite E by (simpl; lia). clear E.
  replace ((pre ++ lod) ++ (f a b :: lo) ++ hid ++ g a b :: hi ++ post)
    with (pre ++ ((lod ++ [f a b]) ++ lo) ++ ((hid ++ [g a b]) ++ hi) ++ post)
    by now lapp.
  replace (S (length pre + length lod)) with (length pre + length (lod ++ [f a b]))%nat
    by (rewrite length_app; simpl; lia).
  rewrite (IH (lod ++ [f a b]) hi (hid ++ [g a b])); rewrite ?length_app; simpl; try lia.
  now lapp.
Qed.

Lemma bf_block f g pre lo hi post :
  length lo = length hi ->
  foldl (bf f g (length lo)) (pre ++ lo ++ hi ++ post) (seq (length pre) (length lo)) =
  pre ++ zip_with f lo hi ++ zip_with g lo hi ++ post.
Proof.
  intros H. pose proof (bf_pass f g pre post lo [] hi [] (length lo) H eq_refl eq_refl) as E.
  simpl in E. rewrite Nat.add_0_r in E. exact E.
Qed.

(** The same pass stated on a block that is still in one piece. *)
Lemma bf_block_split f g len pre b post :
  length b = (2 * len)%nat ->
  foldl (bf f g len) (pre ++ b ++ post) (seq (length pre) len) =
  pre ++ zip_with f (take len b) (drop len b) ++ zip_with g (take len b) (drop len b) ++ post.
Proof.
  intros H. pose proof (bf_block f g pre (take len b) (drop len b) post) as E.
  rewrite length_take, length_drop, H in E.
  replace (len `min` (2 * len))%nat with len in E by lia.
  rewrite <- E by lia. f_equal. now rewrite (app_assoc (take len b)), take_drop.
Qed.

(** ** From layers to the recursion *)

Lemma ntree_blocks_0 f g w k bs : ntree_blocks f g w 0 k bs = concat bs.
Proof. revert k. induction bs as [|b bs IH]; intros k; simpl; [easy|now rewrite IH]. Qed.

Lemma ntree_blocks_S f g w n k bs :
  ntree_blocks f g w (S n) k bs =
  ntree_blocks f g w n (2 * k) (split_blocks f g (2 ^ n * w) k bs).
Proof.
  revert k. induction bs as [|b bs IH]; intros k; [easy|].
  cbn [ntree_blocks ntree split_blocks].
  rewrite IH, <- app_assoc. do 2 f_equal; [f_equal; lia|].
  f_equal. lia.
Qed.

Lemma ntree_blocks_one f g w n k p : ntree_blocks f g w n k [p] = ntree f g w n k p.
Proof. simpl. apply app_nil_r. Qed.

Lemma split_blocks_length f g h k bs : length (split_blocks f g h k bs) = (2 * length bs)%nat.
Proof. revert k. induction bs as [|b bs IH]; intros k; simpl; [easy|]. rewrite IH. lia. Qed.

Lemma split_blocks_sizes f g h k bs :
  Forall (fun b => length b = 2 * h)%nat bs ->
  Forall (fun b => length b = h) (split_blocks f g h k bs).
Proof.
  intros H. revert k. induction H as [|b bs Hb H IH]; intros k; simpl; [constructor|].
  repeat constructor; auto; rewrite length_zip_with, length_take, length_drop; lia.
Qed.

Lemma concat_sizes m (bs : list (list Z)) :
  Forall (fun b => length b = m) bs -> length (concat bs) = (length bs * m)%nat.
Proof. induction 1 as [|b bs Hb H IH]; simpl; [easy|]. rewrite length_app, IH. lia. Qed.

Lemma concat_split_length f g h k bs :
  Forall (fun b => length b = 2 * h)%nat bs ->
  length (concat (split_blocks f g h k bs)) = length (concat bs).
Proof.
  intros H. rewrite (concat_sizes h) by now apply split_blocks_sizes.
  rewrite split_blocks_length, (concat_sizes (2 * h)) by easy. lia.
Qed.

Lemma itree_blocks_0 f g w k bs : itree_blocks f g w 0 k bs = bs.
Proof. revert k. induction bs as [|b bs IH]; intros k; simpl; [easy|now rewrite IH]. Qed.

Lemma itree_blocks_S f g w n k bs :
  (length bs <= k)%nat ->
  itree_blocks f g w (S n) k bs =
  merge_blocks f g k (itree_blocks f g w n (2 * k + 1) (halves (2 ^ n * w) bs)).
Proof.
  revert k. induction bs as [|b bs IH]; intros k Hk; [easy|]. simpl in Hk.
  cbn [itree_blocks itree halves merge_blocks].
  replace (2 * k + 1 - 1)%nat with (2 * k)%nat by lia.
  f_equal. rewrite IH by lia. do 2 f_equal. lia.
Qed.

Lemma halves_length h bs : length (halves h bs) = (2 * length bs)%nat.
Proof. induction bs as [|b bs IH]; simpl; [easy|]. rewrite IH. lia. Qed.

Lemma halves_concat h bs : concat (halves h bs) = concat bs.
Proof.
  induction bs as [|b bs IH]; simpl; [easy|]. rewrite IH.
  now rewrite app_assoc, take_drop.
Qed.

Lemma halves_sizes h bs :
  Forall (fun b => length b = 2 * h)%nat bs -> Forall (fun b => length b = h) (halves h bs).
Proof.
  induction 1 as [|b bs Hb H IH]; simpl; [constructor|].
  repeat constructor; auto; rewrite ?length_take, ?length_drop; lia.
Qed.

Lemma ntree_length f g w n k p :
  length p = (2 ^ n * w)%nat -> length (ntree f g w n k p) = (2 ^ n * w)%nat.
Proof.
  revert k p. induction n as [|n IH]; intros k p Hp; [exact Hp|].
  cbn [ntree]. rewrite Nat.pow_succ_r' in *.
  rewrite length_app, !IH; rewrite ?length_zip_with, ?length_take, ?length_drop; lia.
Qed.

Lemma itree_length f g w n k p :
  length p = (2 ^ n * w)%nat -> length (itree f g w n k p) = (2 ^ n * w)%nat.
Proof.
  revert k p. induction n as [|n IH]; intros k p Hp; [exact Hp|].
  cbn [itree]. rewrite Nat.pow_succ_r' in *.
  rewrite length_app, !length_zip_with, !IH; rewrite ?length_take, ?length_drop; lia.
Qed.

Lemma itree_blocks_length f g w n k bs : length (itree_blocks f g w n k bs) = length bs.
Proof. revert k. induction bs as [|b bs IH]; intros k; simpl; [easy|]. now rewrite IH. Qed.

Lemma itree_blocks_sizes f g w n k bs :
  Forall (fun b => length b = 2 ^ n * w)%nat bs ->
  Forall (fun b => length b = 2 ^ n * w)%nat (itree_blocks f g w n k bs).
Proof.
  intros H. revert k. induction H as [|b bs Hb H IH]; intros k; simpl; constructor; auto.
  now apply itree_length.
Qed.
