(* ===== verification/KyberNtt.v ===== *)
(** * Kyber: the number-theoretic transform

    The code of [crypto/kyber/ntt.c] and its first refinement: the in-place loops
    compute the recursions of [Butterfly]. *)
From S2P Require Import Prelude KyberReduce Butterfly.

(** ** [ntt.c] *)

Definition zetas : list Z :=
  [-1044;  -758;  -359; -1517;  1493;  1422;   287;   202;
    -171;   622;  1577;   182;   962; -1202; -1474;  1468;
     573; -1325;   264;   383;  -829;  1458; -1602;  -130;
    -681;  1017;   732;   608; -1542;   411;  -205; -1571;
    1223;   652;  -552;  1015; -1293;  1491;  -282; -1544;
     516;    -8;  -320;  -666; -1618; -1162;   126;  1469;
    -853;   -90;  -271;   830;   107; -1421;  -247;  -951;
    -398;   961; -1508;  -725;   448; -1065;   677; -1275;
   -1103;   430;   555;   843; -1251;   871;  1550;   105;
     422;   587;   177;  -235;  -291;  -460;  1574;  1653;
    -246;   778;  1159;  -147;  -777;  1483;  -602;  1119;
   -1590;   644;  -872;   349;   418;   329;  -156;   -75;
     817;  1097;   603;   610;  1322; -1285; -1465;   384;
   -1215;  -136;  1218; -1335;  -874;   220; -1187; -1659;
   -1185; -1530; -1278;   794; -1510;  -854;  -870;   478;
    -108;  -308;   996;   991;   958; -1460;  1522;  1628].

Definition fqmul (a b : Z) : Z := montgomery_reduce (a * b).

(** The body of the innermost loop of [ntt]. *)
Definition ntt_body (zeta : Z) (len : nat) (r : list Z) (j : nat) : list Z :=
  let t := fqmul zeta (get r (j + len)) in
  let r := <[(j + len)%nat := s16 (get r j - t)]> r in
  <[j := s16 (get r j + t)]> r.

(** [for (start = 0; start < 256; start = j + len)]: the inner loop leaves
    [j = start + len]. *)
Fixpoint ntt_starts (fuel len start k : nat) (r : list Z) : nat * list Z :=
  match fuel with
  | O => (k, r)
  | S fuel =>
      if (start <? 256)%nat then
        let zeta := get zetas k in
        let r := foldl (ntt_body zeta len) r (seq start len) in
        let j := (start + len)%nat in
        ntt_starts fuel len (j + len) (k + 1) r
      else (k, r)
  end.

(** [for (len = 128; len >= 2; len >>= 1)] *)
Fixpoint ntt_lens (fuel len k : nat) (r : list Z) : list Z :=
  match fuel with
  | O => r
  | S fuel =>
      if (2 <=? len)%nat then
        let '(k, r) := ntt_starts 256 len 0 k r in
        ntt_lens fuel (len / 2) k r
      else r
  end.

Definition ntt (r : list Z) : list Z := ntt_lens 8 128 1 r.

(** The body of the innermost loop of [invntt]. *)
Definition invntt_body (zeta : Z) (len : nat) (r : list Z) (j : nat) : list Z :=
  let t := get r j in
  let r := <[j := barrett_reduce (s16 (t + get r (j + len)))]> r in
  let r := <[(j + len)%nat := s16 (get r (j + len) - t)]> r in
  <[(j + len)%nat := fqmul zeta (get r (j + len))]> r.

Fixpoint invntt_starts (fuel len start k : nat) (r : list Z) : nat * list Z :=
  match fuel with
  | O => (k, r)
  | S fuel =>
      if (start <? 256)%nat then
        let zeta := get zetas k in
        let r := foldl (invntt_body zeta len) r (seq start len) in
        let j := (start + len)%nat in
        invntt_starts fuel len (j + len) (k - 1) r
      else (k, r)
  end.

(** [for (len = 2; len <= 128; len <<= 1)] *)
Fixpoint invntt_lens (fuel len k : nat) (r : list Z) : list Z :=
  match fuel with
  | O => r
  | S fuel =>
      if (len <=? 128)%nat then
        let '(k, r) := invntt_starts 256 len 0 k r in
        invntt_lens fuel (2 * len) k r
      else r
  end.

(** [for (j = 0; j < 256; j++) r[j] = fqmul(r[j], f)] *)
Definition invntt (r : list Z) : list Z :=
  let f := 1441 in
  let r := invntt_lens 8 2 127 r in
  foldl (fun r j => <[j := fqmul (get r j) f]> r) r (seq 0 256).

(** [basemul(r, a, b, zeta)]: the two cells written to [r]. *)
Definition basemul (a b : Z * Z) (zeta : Z) : Z * Z :=
  let r0 := fqmul (snd a) (snd b) in
  let r0 := fqmul r0 zeta in
  let r0 := s16 (r0 + fqmul (fst a) (fst b)) in
  let r1 := fqmul (fst a) (snd b) in
  let r1 := s16 (r1 + fqmul (snd a) (fst b)) in
  (r0, r1).

(** ** The loops compute the recursions *)

Definition fwd_lo (k : nat) (a b : Z) : Z := s16 (a + fqmul (get zetas k) b).
Definition fwd_hi (k : nat) (a b : Z) : Z := s16 (a - fqmul (get zetas k) b).
Definition inv_lo (k : nat) (a b : Z) : Z := barrett_reduce (s16 (a + b)).
Definition inv_hi (k : nat) (a b : Z) : Z := fqmul (get zetas k) (s16 (b - a)).

Lemma ntt_body_bf k len r j :
  (0 < len)%nat -> ntt_body (get zetas k) len r j = bf (fwd_lo k) (fwd_hi k) len r j.
Proof.
  intros H. unfold ntt_body, bf, fwd_lo, fwd_hi. cbv zeta.
  now rewrite (get_insert_ne r (j + len) j) by lia.
Qed.

Lemma invntt_body_bf k len r j :
  (0 < len)%nat -> (j + len < length r)%nat ->
  invntt_body (get zetas k) len r j = bf (inv_lo k) (inv_hi k) len r j.
Proof.
  intros H Hl. unfold invntt_body, bf, inv_lo, inv_hi. cbv zeta.
  rewrite (get_insert_ne r j (j + len)) by lia.
  rewrite get_insert_eq by (now rewrite length_insert).
  rewrite list_insert_insert_eq. apply list_insert_insert_ne. lia.
Qed.

Lemma bf_length f g len r j : length (bf f g len r j) = length r.
Proof. unfold bf. now rewrite !length_insert. Qed.

Lemma ntt_inner_bf k len r s n :
  (0 < len)%nat ->
  foldl (ntt_body (get zetas k) len) r (seq s n) =
  foldl (bf (fwd_lo k) (fwd_hi k) len) r (seq s n).
Proof.
  intros H. revert s r. induction n as [|n IH]; intros s r; simpl; [easy|].
  now rewrite ntt_body_bf, IH by easy.
Qed.

Lemma invntt_inner_bf k len s n r :
  (0 < len)%nat -> (s + n + len <= length r)%nat ->
  foldl (invntt_body (get zetas k) len) r (seq s n) =
  foldl (bf (inv_lo k) (inv_hi k) len) r (seq s n).
Proof.
  intros H. revert s r. induction n as [|n IH]; intros s r Hl; simpl; [easy|].
  rewrite invntt_body_bf, IH; rewrite ?bf_length; [easy|lia..].
Qed.

(** One layer of [ntt]. *)
Lemma ntt_starts_blocks len bs : forall fuel pre k,
  (0 < len)%nat -> Forall (fun b => length b = 2 * len)%nat bs ->
  (length pre + length (concat bs) = 256)%nat -> (length bs < fuel)%nat ->
  ntt_starts fuel len (length pre) k (pre ++ concat bs) =
  ((k + length bs)%nat, pre ++ concat (split_blocks fwd_lo fwd_hi len k bs)).
Proof.
  induction bs as [|b bs IH]; intros [|fuel] pre k Hlen Hbs Hsz Hf; simpl in Hf; try lia.
  - simpl in *. destruct (Nat.ltb_spec (length pre) 256); [lia|].
    f_equal; lia.
  - inversion Hbs as [|? ? Hb Hbs']; subst. simpl concat in *. rewrite length_app in Hsz.
    cbn [ntt_starts]. destruct (Nat.ltb_spec (length pre) 256); [|lia].
    rewrite ntt_inner_bf, bf_block_split by easy.
    set (x := zip_with _ _ _). set (y := zip_with _ _ _).
    assert (Hxy : length (x ++ y) = (2 * len)%nat).
    { unfold x, y. rewrite length_app, !length_zip_with, length_take, length_drop. lia. }
    replace (length pre + len + len)%nat with (length (pre ++ x ++ y))
      by (rewrite length_app; lia).
    replace (pre ++ x ++ y ++ concat bs) with ((pre ++ x ++ y) ++ concat bs) by now lapp.
    rewrite IH; [|easy|easy|rewrite length_app; lia|lia].
    cbn [split_blocks concat length]. fold x y. rewrite Nat.add_1_r. f_equal; [lia|now lapp].
Qed.

(** All the layers: [n] are left, the array is cut in [k] blocks. *)
Lemma ntt_lens_tree n : forall fuel k bs,
  (n < fuel)%nat -> Forall (fun b => length b = 2 ^ n * 2)%nat bs ->
  length bs = k -> length (concat bs) = 256%nat ->
  ntt_lens fuel (2 ^ n) k (concat bs) = ntree_blocks fwd_lo fwd_hi 2 n k bs.
Proof.
  induction n as [|n IH]; intros [|fuel] k bs Hf Hbs Hk Hsz; try lia.
  - simpl. symmetry. apply ntree_blocks_0.
  - cbn [ntt_lens]. rewrite Nat.pow_succ_r' in *.
    assert (0 < 2 ^ n)%nat by (apply Nat.neq_0_lt_0, Nat.pow_nonzero; lia).
    destruct (Nat.leb_spec 2 (2 * 2 ^ n)); [|lia].
    pose proof (ntt_starts_blocks (2 * 2 ^ n) bs 256 [] k) as E. simpl length in E.
    rewrite !app_nil_l in E.
    assert (Hcount : (length bs < 256)%nat).
    { pose proof (concat_sizes _ _ Hbs). nia. }
    assert (Hbs2 : Forall (fun b : list Z => length b = (2 * (2 * 2 ^ n))%nat) bs).
    { eapply Forall_impl; [|exact Hbs]. simpl. intros; lia. }
    rewrite E by (auto; simpl; lia). clear E.
    replace (2 * 2 ^ n / 2)%nat with (2 ^ n)%nat by (rewrite Nat.mul_comm, Nat.div_mul; lia).
    rewrite ntree_blocks_S. replace (k + length bs)%nat with (2 * k)%nat by lia.
    replace (2 ^ n * 2)%nat with (2 * 2 ^ n)%nat by lia.
    apply IH.
    + lia.
    + pose proof (split_blocks_sizes fwd_lo fwd_hi (2 * 2 ^ n) k bs Hbs2) as HS.
      eapply Forall_impl; [|exact HS]. simpl. intros; lia.
    + rewrite split_blocks_length. lia.
    + rewrite (concat_split_length fwd_lo fwd_hi (2 * 2 ^ n) k bs Hbs2). exact Hsz.
Qed.

(** The forward transform is the seven-level recursion from the root node 1. *)
Lemma ntt_tree r : length r = 256%nat -> ntt r = ntree fwd_lo fwd_hi 2 7 1 r.
Proof.
  intros H. unfold ntt. change 128%nat with (2 ^ 7)%nat.
  pose proof (ntt_lens_tree 7 8 1 [r]) as E. simpl concat in E. rewrite app_nil_r in E.
  rewrite E, ntree_blocks_one; [easy|lia|repeat constructor; now rewrite H|easy|easy].
Qed.

(** One layer of [invntt]. *)
Lemma invntt_starts_blocks len m : forall ys fuel pre k,
  (0 < len)%nat -> length ys = (2 * m)%nat -> Forall (fun b => length b = len) ys ->
  (length pre + length (concat ys) = 256)%nat -> (m < fuel)%nat ->
  invntt_starts fuel len (length pre) k (pre ++ concat ys) =
  ((k - m)%nat, pre ++ concat (merge_blocks inv_lo inv_hi k ys)).
Proof.
  induction m as [|m IH]; intros ys [|fuel] pre k Hlen Hm Hys Hsz Hf; try lia.
  - destruct ys; [|simpl in Hm; lia]. simpl in *.
    destruct (Nat.ltb_spec (length pre) 256); [lia|]. f_equal; lia.
  - destruct ys as [|x [|y ys]]; simpl in Hm; try lia.
    inversion Hys as [|? ? Hx Hys1]; subst. inversion Hys1 as [|? ? Hy Hys2]; subst.
    simpl concat in *. rewrite !length_app in Hsz.
    cbn [invntt_starts]. destruct (Nat.ltb_spec (length pre) 256); [|lia].
    rewrite invntt_inner_bf by (rewrite ?length_app; lia).
    rewrite bf_block by easy.
    set (x' := zip_with _ _ _). set (y' := zip_with _ _ _).
    assert (Hxy : length (x' ++ y') = (2 * length x)%nat).
    { unfold x', y'. rewrite length_app, !length_zip_with. lia. }
    replace (length pre + length x + length x)%nat with (length (pre ++ x' ++ y'))
      by (rewrite length_app; lia).
    replace (pre ++ x' ++ y' ++ concat ys) with ((pre ++ x' ++ y') ++ concat ys) by now lapp.
    rewrite IH; [|easy|lia|easy|rewrite length_app; lia|lia].
    cbn [merge_blocks concat length]. fold x' y'. f_equal; [lia|now lapp].
Qed.

(** The array cut in [2 ^ d] pieces. *)
Fixpoint pieces (d : nat) (p : list Z) : list (list Z) :=
  match d with
  | O => [p]
  | S d => halves (2 ^ (6 - d) * 2) (pieces d p)
  end.

Lemma pieces_concat d p : concat (pieces d p) = p.
Proof. induction d as [|d IH]; simpl; [apply app_nil_r|]. now rewrite halves_concat. Qed.

Lemma pieces_length d p : length (pieces d p) = (2 ^ d)%nat.
Proof. induction d as [|d IH]; [easy|]. cbn [pieces]. rewrite halves_length, IH. simpl. lia. Qed.

Lemma pieces_sizes d p :
  (d <= 7)%nat -> length p = 256%nat ->
  Forall (fun b => length b = 2 ^ (7 - d) * 2)%nat (pieces d p).
Proof.
  intros Hd Hp. induction d as [|d IH]; [repeat constructor; now rewrite Hp|].
  cbn [pieces]. replace (7 - S d)%nat with (6 - d)%nat by lia.
  apply halves_sizes. eapply Forall_impl; [|apply IH; lia]. simpl. intros b Hb.
  rewrite Hb. replace (7 - d)%nat with (S (6 - d)) by lia. rewrite Nat.pow_succ_r'. lia.
Qed.

Lemma invntt_lens_tree p : length p = 256%nat -> forall d fuel,
  (d <= 7)%nat -> (d < fuel)%nat ->
  invntt_lens fuel (2 ^ (8 - d)) (2 ^ d - 1)
    (concat (itree_blocks inv_lo inv_hi 2 (7 - d) (2 ^ S d - 1) (pieces d p))) =
  itree inv_lo inv_hi 2 7 1 p.
Proof.
  intros Hp. induction d as [|d IH]; intros [|fuel] Hd Hf; try lia.
  - cbn [invntt_lens]. change (2 ^ (8 - 0) <=? 128)%nat with false. cbv iota.
    change (7 - 0)%nat with 7%nat. change (2 ^ 1 - 1)%nat with 1%nat.
    cbn [pieces itree_blocks concat]. apply app_nil_r.
  - cbn [invntt_lens].
    pose proof (pieces_length d p) as Hlen. pose proof (pieces_sizes d p ltac:(lia) Hp) as Hsz.
    assert (H2d : (0 < 2 ^ d)%nat) by (apply Nat.neq_0_lt_0, Nat.pow_nonzero; lia).
    replace (8 - S d)%nat with (7 - d)%nat by lia.
    replace (7 - S d)%nat with (6 - d)%nat by lia.
    assert (Hle : (2 ^ (7 - d) <= 2 ^ 7)%nat) by (apply Nat.pow_le_mono_r; lia).
    destruct (Nat.leb_spec (2 ^ (7 - d)) 128); [|change (2 ^ 7)%nat with 128%nat in Hle; lia].
    assert (Hcount : (2 ^ d <= 2 ^ 6)%nat) by (apply Nat.pow_le_mono_r; lia).
    change (2 ^ 6)%nat with 64%nat in Hcount.
    set (k := (2 ^ S d - 1)%nat).
    replace (2 ^ S (S d) - 1)%nat with (2 * k + 1)%nat
      by (unfold k; rewrite !Nat.pow_succ_r'; lia).
    set (ys := itree_blocks inv_lo inv_hi 2 (6 - d) (2 * k + 1) (pieces (S d) p)).
    assert (Hys : Forall (fun b => length b = 2 ^ (7 - d))%nat ys).
    { pose proof (pieces_sizes (S d) p ltac:(lia) Hp) as HS.
      replace (7 - S d)%nat with (6 - d)%nat in HS by lia.
      eapply Forall_impl; [|apply itree_blocks_sizes, HS]. simpl. intros b ->.
      replace (7 - d)%nat with (S (6 - d)) by lia. rewrite Nat.pow_succ_r'. lia. }
    assert (Hylen : length ys = (2 * 2 ^ d)%nat).
    { unfold ys. rewrite itree_blocks_length, pieces_length. apply Nat.pow_succ_r'. }
    pose proof (invntt_starts_blocks (2 ^ (7 - d)) (2 ^ d) ys 256 [] k) as E.
    rewrite !app_nil_l in E. simpl length in E. rewrite E; clear E; try lia; try easy.
    2: { apply Nat.neq_0_lt_0, Nat.pow_nonzero; lia. }
    2: { rewrite (concat_sizes _ _ Hys), Hylen. change (0 + ?x)%nat with x.
         rewrite <- Nat.mul_assoc, <- Nat.pow_add_r. replace (d + (7 - d))%nat with 7%nat by lia.
         reflexivity. }
    unfold ys. cbn [pieces].
    rewrite <- itree_blocks_S by (rewrite Hlen; unfold k; rewrite Nat.pow_succ_r'; lia).
    replace (S (6 - d)) with (7 - d)%nat by lia.
    replace (k - 2 ^ d)%nat with (2 ^ d - 1)%nat
      by (unfold k; rewrite Nat.pow_succ_r'; lia).
    replace (2 * 2 ^ (7 - d))%nat with (2 ^ (8 - d))%nat
      by (replace (8 - d)%nat with (S (7 - d)) by lia; apply Nat.pow_succ_r').
    apply IH; lia.
Qed.

Lemma for_map (f : Z -> Z) n : forall l k,
  length l = n ->
  foldl (fun r j => <[j := f (get r j)]> r) (k ++ l) (seq (length k) n) = k ++ map f l.
Proof.
  induction n as [|n IH]; intros [|x l] k Hl; simpl in Hl; try lia; [easy|].
  simpl. rewrite get_middle, insert_middle.
  specialize (IH l (k ++ [f x]) ltac:(lia)).
  rewrite length_app, Nat.add_1_r, <- app_assoc in IH. simpl in IH. rewrite IH. now lapp.
Qed.

Lemma invntt_tree r :
  length r = 256%nat ->
  invntt r = map (fun x => fqmul x 1441) (itree inv_lo inv_hi 2 7 1 r).
Proof.
  intros H. unfold invntt. cbv zeta.
  pose proof (invntt_lens_tree r H 7 8 ltac:(lia) ltac:(lia)) as E.
  change (7 - 7)%nat with 0%nat in E. rewrite itree_blocks_0, pieces_concat in E.
  change (2 ^ (8 - 7))%nat with 2%nat in E. change (2 ^ 7 - 1)%nat with 127%nat in E.
  rewrite E. pose proof (itree_length inv_lo inv_hi 2 7 1 r H) as Hl.
  exact (for_map (fun x => fqmul x 1441) 256 _ [] Hl).
Qed.
