(* ===== verification/KyberNttSpec.v ===== *)
(** * Kyber: what the number-theoretic transform computes

    The transform of [KyberNtt] is compared with exact arithmetic modulo
    [q = 3329]: the forward transform evaluates the polynomial at the 128 roots
    of [X ^ 256 + 1] (each residue modulo [X ^ 2 - gamma i] is a pair), the
    inverse undoes it up to the Montgomery factor, and [basemul] multiplies
    residues, so that the three together multiply in [Z_q[X] / (X ^ 256 + 1)]:
    multiplication of the ring by its coefficient formula and its values at the
    roots come last. *)

From S2P Require Import Prelude KyberReduce Butterfly KyberNtt.

Abbreviation q := KYBER_Q.

(** ** The powers of the root of unity *)

(** Bit reversal on seven bits. *)
Definition brv7 (k : nat) : nat :=
  foldl (fun acc i => (2 * acc + (if Nat.testbit k i then 1 else 0))%nat) 0%nat (seq 0 7).

Fixpoint powm (b : Z) (e : nat) : Z :=
  match e with
  | O => 1
  | S e => (b * powm b e) mod q
  end.

(** [zeta k = 17 ^ brv7 k]; the table of the code holds it in Montgomery form. *)
Definition zeta (k : nat) : Z := powm 17 (brv7 k).

(** The residue ring at tree node [k] is [Z_q[X] / (X ^ m - node k)]. *)
Definition node (k : nat) : Z :=
  if (k <=? 1)%nat then -1
  else if Nat.even k then zeta (Nat.div2 k) else - zeta (Nat.div2 k).

(** The root behind output pair [i]. *)
Definition gamma (i : nat) : Z := node (128 + i).

Lemma forallb_seq (P : nat -> bool) a n :
  forallb P (seq a n) = true -> forall i, (a <= i < a + n)%nat -> P i = true.
Proof. rewrite forallb_forall. intros H i Hi. apply H, in_seq. lia. Qed.

Lemma zetas_table k : (k < 128)%nat -> get zetas k ≡ R * zeta k [mod q].
Proof.
  intros H. apply Z.eqb_eq.
  refine (forallb_seq (fun k => get zetas k mod q =? (R * zeta k) mod q) 0 128 _ k _); [vm_compute; reflexivity|lia].
Qed.

Lemma zetas_bound k : (k < 128)%nat -> - 1664 <= get zetas k <= 1664.
Proof.
  intros H. apply (proj1 (Z.abs_le (get zetas k) 1664)), Z.leb_le.
  refine (forallb_seq (fun k => Z.abs (get zetas k) <=? 1664) 0 128 _ k _); [vm_compute; reflexivity|lia].
Qed.

Lemma zeta_square k : (1 <= k < 128)%nat -> zeta k * zeta k ≡ node k [mod q].
Proof.
  intros H. apply Z.eqb_eq.
  refine (forallb_seq (fun k => (zeta k * zeta k) mod q =? node k mod q) 1 127 _ k _); [vm_compute; reflexivity|lia].
Qed.

(** Node [k] of the forward tree and node [k'] of the inverse tree sit at the
    same place. *)
Definition mirrored (k k' : nat) : Prop :=
  exists l, (l < 7)%nat /\ (k + k' + 1 = 3 * 2 ^ l /\ 2 ^ l <= k < 2 ^ S l)%nat.

Lemma zeta_mirror k k' : mirrored k k' -> zeta k' * zeta k ≡ -1 [mod q].
Proof.
  intros (l & Hl & Hk & Hb).
  assert (E : forallb (fun l => forallb (fun b =>
    (zeta (2 * 2 ^ l - 1 - b) * zeta (2 ^ l + b)) mod q =? -1 mod q)
      (seq 0 (2 ^ l))) (seq 0 7) = true) by (vm_compute; reflexivity).
  pose proof (forallb_seq _ _ _ E l ltac:(lia)) as E1. cbv beta in E1.
  assert (Hs : (2 ^ S l = 2 * 2 ^ l)%nat) by apply Nat.pow_succ_r'.
  pose proof (forallb_seq _ _ _ E1 (k - 2 ^ l)%nat ltac:(lia)) as E2. cbv beta in E2.
  apply Z.eqb_eq in E2. unfold cong.
  replace (2 * 2 ^ l - 1 - (k - 2 ^ l))%nat with k' in E2 by lia.
  replace (2 ^ l + (k - 2 ^ l))%nat with k in E2 by lia. exact E2.
Qed.

Lemma node_even k : (1 <= k)%nat -> node (2 * k) = zeta k.
Proof.
  intros H. unfold node. destruct (Nat.leb_spec (2 * k) 1); [lia|].
  now rewrite Nat.even_even, Nat.div2_double.
Qed.

Lemma node_odd k : (1 <= k)%nat -> node (2 * k + 1) = - zeta k.
Proof.
  intros H. unfold node. destruct (Nat.leb_spec (2 * k + 1) 1); [lia|].
  rewrite Nat.even_odd. replace (2 * k + 1)%nat with (S (2 * k)) by lia.
  now rewrite Nat.div2_succ_double.
Qed.

(** ** The butterflies modulo [q] *)

Lemma fqmul_bounds a b :
  - KYBER_Q * 2 ^ 15 <= a * b < KYBER_Q * 2 ^ 15 -> - q < fqmul a b < q.
Proof. apply montgomery_reduce_bounds. Qed.

Lemma fqmul_cong a b :
  - KYBER_Q * 2 ^ 15 <= a * b < KYBER_Q * 2 ^ 15 -> fqmul a b ≡ a * b * Rinv [mod q].
Proof. apply montgomery_reduce_Rinv. Qed.

(** A table entry times a 16-bit value is in the range of the reduction. *)
Lemma zetas_fqmul k x :
  (k < 128)%nat -> - 2 ^ 15 <= x < 2 ^ 15 ->
  - q < fqmul (get zetas k) x < q /\ fqmul (get zetas k) x ≡ zeta k * x [mod q].
Proof.
  intros Hk Hx. pose proof (zetas_bound k Hk) as Hz.
  assert (Hr : - KYBER_Q * 2 ^ 15 <= get zetas k * x < KYBER_Q * 2 ^ 15)
    by (unfold KYBER_Q; pow2; nia).
  split; [now apply fqmul_bounds|]. rewrite fqmul_cong, zetas_table by easy.
  transitivity (R * Rinv * (zeta k * x)); [apply cong_of_eq; ring|].
  rewrite R_Rinv. apply cong_of_eq. ring.
Qed.

(** A machine value [a] stands for [b] modulo [q] and is bounded by [B]. *)
Definition repr (B a b : Z) : Prop := - B <= a <= B /\ a ≡ b [mod q].

(** The exact butterflies. *)
Definition spec_lo (k : nat) (a b : Z) : Z := a + zeta k * b.
Definition spec_hi (k : nat) (a b : Z) : Z := a - zeta k * b.
Definition ispec_lo (k : nat) (a b : Z) : Z := a + b.
Definition ispec_hi (k : nat) (a b : Z) : Z := zeta k * (b - a).

Lemma fwd_repr B k a a' b b' :
  (k < 128)%nat -> B + q <= 32767 -> repr B a a' -> repr B b b' ->
  repr (B + q) (fwd_lo k a b) (spec_lo k a' b') /\
  repr (B + q) (fwd_hi k a b) (spec_hi k a' b').
Proof.
  intros Hk HB [Ha Ca] [Hb Cb]. unfold fwd_lo, fwd_hi, spec_lo, spec_hi.
  unfold KYBER_Q in HB.
  destruct (zetas_fqmul k b Hk ltac:(pow2; lia)) as [Hf Cf].
  unfold KYBER_Q in Hf.
  rewrite !s16_small by (pow2; lia).
  split; (split; [unfold KYBER_Q; lia|]); now rewrite Cf, Ca, Cb.
Qed.

Lemma inv_repr B k a a' b b' :
  (k < 128)%nat -> q <= B <= 16383 -> repr B a a' -> repr B b b' ->
  repr q (inv_lo k a b) (ispec_lo k a' b') /\ repr q (inv_hi k a b) (ispec_hi k a' b').
Proof.
  intros Hk HB [Ha Ca] [Hb Cb]. unfold inv_lo, inv_hi, ispec_lo, ispec_hi.
  rewrite !s16_small by (pow2; lia).
  pose proof (barrett_reduce_bounds (a + b) ltac:(pow2; lia)) as Hr.
  change ((KYBER_Q - 1) / 2) with 1664 in Hr.
  destruct (zetas_fqmul k (b - a) Hk ltac:(pow2; lia)) as [Hf Cf].
  split; split; try (unfold KYBER_Q in *; lia).
  - rewrite barrett_reduce_cong by (pow2; lia). now rewrite Ca, Cb.
  - now rewrite Cf, Ca, Cb.
Qed.

(** ** The whole transforms modulo [q] *)

Lemma repr_weaken B B' a b : B <= B' -> repr B a b -> repr B' a b.
Proof. intros H [H1 H2]. split; [lia|easy]. Qed.

Lemma Forall2_repr_cong B l l' : Forall2 (repr B) l l' -> congl q l l'.
Proof. intros H. eapply Forall2_impl; [|exact H]. now intros ? ? []. Qed.

Lemma Forall2_repr_refl B l : Forall (fun x => - B <= x <= B) l -> Forall2 (repr B) l l.
Proof.
  intros H. apply Forall_Forall2_diag. eapply Forall_impl; [|exact H].
  now split.
Qed.

Lemma fwd_repr_list B k p p' :
  (k < 128)%nat -> B + q <= 32767 -> forall h, Forall2 (repr B) p p' ->
  Forall2 (repr (B + q)) (zip_with (fwd_lo k) (take h p) (drop h p))
    (zip_with (spec_lo k) (take h p') (drop h p')) /\
  Forall2 (repr (B + q)) (zip_with (fwd_hi k) (take h p) (drop h p))
    (zip_with (spec_hi k) (take h p') (drop h p')).
Proof.
  intros Hk HB h H. split; eapply Forall2_zip_with;
    eauto using Forall2_take, Forall2_drop; intros; now apply fwd_repr.
Qed.

Lemma ntree_repr n : forall B k p p',
  (1 <= k /\ (k + 1) * 2 ^ n <= 256)%nat -> 0 <= B -> B + Z.of_nat n * q <= 32767 ->
  Forall2 (repr B) p p' ->
  Forall2 (repr (B + Z.of_nat n * q)) (ntree fwd_lo fwd_hi 2 n k p)
    (ntree spec_lo spec_hi 2 n k p').
Proof.
  induction n as [|n IH]; intros B k p p' [Hk1 Hk] HB0 HB Hp.
  - replace (B + Z.of_nat 0 * q) with B by lia. exact Hp.
  - rewrite Nat.pow_succ_r' in Hk.
    assert (0 < 2 ^ n)%nat by (apply Nat.neq_0_lt_0, Nat.pow_nonzero; lia).
    rewrite Nat2Z.inj_succ in *. unfold KYBER_Q in HB.
    replace (B + Z.succ (Z.of_nat n) * q) with (B + q + Z.of_nat n * q) by lia.
    destruct (fwd_repr_list B k p p' ltac:(nia) ltac:(unfold KYBER_Q; lia) (2 ^ n * 2)%nat Hp)
      as [H1 H2].
    cbn [ntree]. apply Forall2_app; apply IH; try easy; unfold KYBER_Q; try lia; nia.
Qed.

Lemma itree_repr n : forall B k p p',
  ((k + 1) * 2 ^ n <= 256)%nat -> q <= B <= 16383 -> Forall2 (repr B) p p' ->
  Forall2 (repr (if Nat.eqb n 0 then B else q)) (itree inv_lo inv_hi 2 n k p)
    (itree ispec_lo ispec_hi 2 n k p').
Proof.
  induction n as [|n IH]; intros B k p p' Hk HB Hp; [exact Hp|].
  rewrite Nat.pow_succ_r' in Hk.
  assert (0 < 2 ^ n)%nat by (apply Nat.neq_0_lt_0, Nat.pow_nonzero; lia).
  cbn [itree Nat.eqb].
  pose proof (IH B (2 * k + 1)%nat _ _ ltac:(lia) HB (Forall2_take _ _ _ (2 ^ n * 2) Hp)) as H1.
  pose proof (IH B (2 * k)%nat _ _ ltac:(lia) HB (Forall2_drop _ _ _ (2 ^ n * 2) Hp)) as H2.
  assert (HB' : q <= (if Nat.eqb n 0 then B else q) <= 16383)
    by (destruct (Nat.eqb n 0); unfold KYBER_Q in *; lia).
  apply Forall2_app; eapply Forall2_zip_with; eauto;
    intros; eapply inv_repr; eauto; nia.
Qed.

(** ** Round trip *)

Definition mir (l k k' : nat) : Prop := (k + k' + 1 = 3 * 2 ^ l /\ 2 ^ l <= k < 2 ^ S l)%nat.

Lemma zip_merge (P : Z -> Z -> Prop) (F f g : Z -> Z -> Z) (u : Z -> Z) (v : Z -> Z -> Z) lo hi :
  (forall a b, P (F (u (f a b)) (u (g a b))) (v a b)) -> length lo = length hi ->
  Forall2 P (zip_with F (map u (zip_with f lo hi)) (map u (zip_with g lo hi)))
    (zip_with v lo hi).
Proof.
  intros HP. revert hi. induction lo as [|a lo IH]; intros [|b hi] Hl; simpl in Hl; try lia;
    simpl; constructor; auto.
Qed.

Lemma zip_with_fst (u : Z -> Z) (lo hi : list Z) :
  length lo = length hi -> zip_with (fun a _ => u a) lo hi = map u lo.
Proof. revert hi. induction lo as [|a lo IH]; intros [|b hi] Hl; simpl in *; f_equal; auto; lia. Qed.

Lemma zip_with_snd (u : Z -> Z) (lo hi : list Z) :
  length lo = length hi -> zip_with (fun _ b => u b) lo hi = map u hi.
Proof. revert hi. induction lo as [|a lo IH]; intros [|b hi] Hl; simpl in *; f_equal; auto; lia. Qed.

Lemma spec_roundtrip n : forall l k k' p,
  mir l k k' -> (l + n <= 7)%nat -> length p = (2 ^ n * 2)%nat ->
  congl q (itree ispec_lo ispec_hi 2 n k' (ntree spec_lo spec_hi 2 n k p))
    (map (fun x => 2 ^ Z.of_nat n * x) p).
Proof.
  induction n as [|n IH]; intros l k k' p Hm Hl Hp.
  - simpl. replace (map _ p) with p; [reflexivity|].
    symmetry. rewrite <- (map_id p) at 2. apply map_ext. intros a. destruct a; reflexivity.
  - assert (Hz : zeta k' * zeta k ≡ -1 [mod q]).
    { apply zeta_mirror. exists l. destruct Hm. split; [lia|easy]. }
    destruct Hm as [Hm1 Hm2]. rewrite Nat.pow_succ_r' in *.
    set (h := (2 ^ n * 2)%nat) in *.
    set (lo := take h p). set (hi := drop h p).
    assert (Hlo : length lo = h) by (unfold lo; rewrite length_take; lia).
    assert (Hhi : length hi = h) by (unfold hi; rewrite length_drop; lia).
    cbn [ntree itree]. fold h lo hi.
    set (X := zip_with (spec_lo k) lo hi). set (Y := zip_with (spec_hi k) lo hi).
    assert (HX : length (ntree spec_lo spec_hi 2 n (2 * k) X) = h).
    { apply ntree_length. unfold X. rewrite length_zip_with. lia. }
    rewrite (take_app_length' _ _ _ (eq_sym HX)), (drop_app_length' _ _ _ (eq_sym HX)).
    assert (IHX := IH (S l) (2 * k)%nat (2 * k' + 1)%nat X).
    assert (IHY := IH (S l) (2 * k + 1)%nat (2 * k')%nat Y).
    specialize (IHX ltac:(split; simpl in *; lia) ltac:(lia)
                  ltac:(unfold X; rewrite length_zip_with; lia)).
    specialize (IHY ltac:(split; simpl in *; lia) ltac:(lia)
                  ltac:(unfold Y; rewrite length_zip_with; lia)).
    rewrite <- (take_drop h p). fold lo hi. rewrite map_app.
    rewrite Nat2Z.inj_succ, Z.pow_succ_r by lia.
    set (c := 2 ^ Z.of_nat n) in *.
    apply Forall2_app.
    + etransitivity.
      { eapply Forall2_zip_with; [|exact IHX|exact IHY].
        intros a a' b b' Ha Hb. unfold ispec_lo. now rewrite Ha, Hb. }
      rewrite <- (zip_with_fst _ lo hi) by lia. apply zip_merge; [|lia].
      intros a b. apply cong_of_eq. unfold spec_lo, spec_hi. ring.
    + etransitivity.
      { eapply Forall2_zip_with; [|exact IHX|exact IHY].
        intros a a' b b' Ha Hb. unfold ispec_hi. now rewrite Ha, Hb. }
      rewrite <- (zip_with_snd _ lo hi) by lia. apply zip_merge; [|lia].
      intros a b. unfold spec_lo, spec_hi.
      transitivity (zeta k' * zeta k * (- 2 * c * b)); [apply cong_of_eq; ring|].
      rewrite Hz. apply cong_of_eq. ring.
Qed.

Lemma zip_collapse (P Q R : Z -> Z -> Prop) (F G1 G2 : Z -> Z -> Z) (u : Z -> Z -> Z) x y lo hi :
  (forall a b s t, P s (G1 a b) -> Q t (G2 a b) -> R (F s t) (u a b)) ->
  Forall2 P lo (zip_with G1 x y) -> Forall2 Q hi (zip_with G2 x y) ->
  Forall2 R (zip_with F lo hi) (zip_with u x y).
Proof.
  intros H. revert y lo hi. induction x as [|a x IH]; intros [|b y] lo hi Hlo Hhi;
    simpl in *; inversion Hlo; subst; inversion Hhi; subst; simpl; constructor; auto.
Qed.

Lemma map_zip (u : Z -> Z) (F : Z -> Z -> Z) x y :
  map u (zip_with F x y) = zip_with (fun a b => u (F a b)) x y.
Proof. revert y. induction x as [|a x IH]; intros [|b y]; simpl; f_equal; auto. Qed.

(** The other composition, for any multiple of the inverse transform. *)
Lemma spec_roundtrip_inv n : forall l k k' c p p',
  mir l k k' -> (l + n <= 7)%nat -> length p = (2 ^ n * 2)%nat ->
  congl q p' (map (fun x => c * x) (itree ispec_lo ispec_hi 2 n k' p)) ->
  congl q (ntree spec_lo spec_hi 2 n k p') (map (fun x => c * 2 ^ Z.of_nat n * x) p).
Proof.
  induction n as [|n IH]; intros l k k' c p p' Hm Hl Hp Hp'.
  - cbn [ntree itree] in *. etransitivity; [exact Hp'|].
    change (2 ^ Z.of_nat 0) with 1. rewrite Z.mul_1_r. reflexivity.
  - assert (Hz : zeta k' * zeta k ≡ -1 [mod q]).
    { apply zeta_mirror. exists l. destruct Hm. split; [lia|easy]. }
    destruct Hm as [Hm1 Hm2]. rewrite Nat.pow_succ_r' in *.
    set (h := (2 ^ n * 2)%nat) in *.
    cbn [ntree itree] in *. fold h in Hp' |- *.
    set (X := itree _ _ 2 n (2 * k' + 1) (take h p)) in *.
    set (Y := itree _ _ 2 n (2 * k') (drop h p)) in *.
    assert (Hx : length (take h p) = h) by (rewrite length_take; lia).
    assert (Hy : length (drop h p) = h) by (rewrite length_drop; lia).
    assert (HX : length X = h) by now apply itree_length.
    assert (HY : length Y = h) by now apply itree_length.
    rewrite map_app in Hp'. apply Forall2_app_inv_r in Hp'.
    destruct Hp' as (lo & hi & Hlo & Hhi & ->).
    assert (El : length lo = h).
    { apply Forall2_length in Hlo. rewrite Hlo, length_map, length_zip_with. lia. }
    rewrite (take_app_length' lo hi h), (drop_app_length' lo hi h) by easy.
    rewrite <- (take_drop h p), map_app.
    rewrite Nat2Z.inj_succ, Z.pow_succ_r by lia.
    rewrite map_zip in Hlo, Hhi.
    replace (c * (2 * 2 ^ Z.of_nat n)) with (2 * c * 2 ^ Z.of_nat n) by ring.
    apply Forall2_app;
      [apply (IH (S l) _ (2 * k' + 1)%nat)|apply (IH (S l) _ (2 * k')%nat)];
      try easy; try lia; try (split; simpl in *; lia).
    + fold X. rewrite <- (zip_with_fst _ X Y) by lia.
      eapply zip_collapse; [|exact Hlo|exact Hhi].
      intros a b s t Hs Ht. unfold spec_lo, ispec_lo, ispec_hi in *. rewrite Hs, Ht.
      transitivity (c * (a + b) + (zeta k' * zeta k) * (c * (b - a))); [apply cong_of_eq; ring|].
      rewrite Hz. apply cong_of_eq. ring.
    + fold Y. rewrite <- (zip_with_snd _ X Y) by lia.
      eapply zip_collapse; [|exact Hlo|exact Hhi].
      intros a b s t Hs Ht. unfold spec_hi, ispec_lo, ispec_hi in *. rewrite Hs, Ht.
      transitivity (c * (a + b) - (zeta k' * zeta k) * (c * (b - a))); [apply cong_of_eq; ring|].
      rewrite Hz. apply cong_of_eq. ring.
Qed.

(** ** Residues modulo [X ^ 2 - w]

    A residue [x0 + x1 X] is the pair [(x0, x1)]. *)

Definition padd (x y : Z * Z) : Z * Z := (fst x + fst y, snd x + snd y).
Definition pscale (c : Z) (x : Z * Z) : Z * Z := (c * fst x, c * snd x).
Definition pmulX (w : Z) (x : Z * Z) : Z * Z := (w * snd x, fst x).
Definition pmul (w : Z) (x y : Z * Z) : Z * Z :=
  (fst x * fst y + w * (snd x * snd y), fst x * snd y + snd x * fst y).

Definition pcong (x y : Z * Z) : Prop := fst x ≡ fst y [mod q] /\ snd x ≡ snd y [mod q].

#[export] Instance pcong_equiv : Equivalence pcong.
Proof.
  split; red; unfold pcong.
  - now split.
  - intros x y [H1 H2]. now rewrite H1, H2.
  - intros x y z [H1 H2] [H3 H4]. now rewrite H1, H2, H3, H4.
Qed.

#[export] Instance padd_proper : Proper (pcong ==> pcong ==> pcong) padd.
Proof. intros x x' [H1 H2] y y' [H3 H4]. split; simpl; now rewrite ?H1, ?H2, ?H3, ?H4. Qed.

#[export] Instance pscale_proper : Proper (cong q ==> pcong ==> pcong) pscale.
Proof. intros c c' Hc x x' [H1 H2]. split; simpl; now rewrite ?Hc, ?H1, ?H2. Qed.

#[export] Instance pmulX_proper : Proper (cong q ==> pcong ==> pcong) pmulX.
Proof. intros c c' Hc x x' [H1 H2]. split; simpl; now rewrite ?Hc, ?H1, ?H2. Qed.

#[export] Instance pmul_proper : Proper (cong q ==> pcong ==> pcong ==> pcong) pmul.
Proof.
  intros c c' Hc x x' [H1 H2] y y' [H3 H4]. split; simpl; now rewrite ?Hc, ?H1, ?H2, ?H3, ?H4.
Qed.

(** Equality of residues by components. *)
Ltac pring := unfold padd, pscale, pmulX, pmul; cbn [fst snd]; f_equal; ring.

(** The value of a polynomial in [Z[X] / (X ^ 2 - w)], by Horner's rule. *)
Fixpoint evalX (w : Z) (p : list Z) : Z * Z :=
  match p with
  | [] => (0, 0)
  | a :: p => padd (a, 0) (pmulX w (evalX w p))
  end.

Lemma evalX_app w m : forall lo hi,
  length lo = (2 * m)%nat ->
  evalX w (lo ++ hi) = padd (evalX w lo) (pscale (w ^ Z.of_nat m) (evalX w hi)).
Proof.
  induction m as [|m IH]; intros lo hi Hl.
  - destruct lo; [|simpl in Hl; lia]. cbn [app evalX]. change (w ^ Z.of_nat 0) with 1.
    destruct (evalX w hi). pring.
  - destruct lo as [|a [|b lo]]; simpl in Hl; try lia.
    simpl app. cbn [evalX]. rewrite IH by lia.
    rewrite Nat2Z.inj_succ, Z.pow_succ_r by lia. pring.
Qed.

Lemma evalX_zip w (F : Z -> Z -> Z) c lo hi :
  (forall a b, F a b = a + c * b) -> length lo = length hi ->
  evalX w (zip_with F lo hi) = padd (evalX w lo) (pscale c (evalX w hi)).
Proof.
  intros HF. revert hi. induction lo as [|a lo IH]; intros [|b hi] Hl; simpl in Hl; try lia.
  - cbn [zip_with evalX]. pring.
  - cbn [zip_with evalX]. rewrite IH, HF by lia. pring.
Qed.

Lemma evalX_map w c p : evalX w (map (fun x => c * x) p) = pscale c (evalX w p).
Proof. induction p as [|a p IH]; cbn [map evalX]; [|rewrite IH]; pring. Qed.

(** The two cells that hold residue [i]. *)
Definition pair_at (r : list Z) (i : nat) : Z * Z := (get r (2 * i), get r (2 * i + 1)).

Lemma pair_at_app_l x y i : (2 * i + 1 < length x)%nat -> pair_at (x ++ y) i = pair_at x i.
Proof. intros H. unfold pair_at. rewrite !get_app_l by lia. reflexivity. Qed.

Lemma pair_at_app_r x y i m :
  length x = (2 * m)%nat -> (m <= i)%nat -> pair_at (x ++ y) i = pair_at y (i - m).
Proof.
  intros H Hi. unfold pair_at. rewrite !get_app_r by lia. rewrite H.
  do 2 f_equal; lia.
Qed.

Lemma leaf_power n : forall k i,
  (1 <= k)%nat -> ((k + 1) * 2 ^ n <= 256)%nat -> (i < 2 ^ n)%nat ->
  node (k * 2 ^ n + i) ^ Z.of_nat (2 ^ n) ≡ node k [mod q].
Proof.
  induction n as [|n IH]; intros k i Hk1 Hk Hi.
  - change (2 ^ 0)%nat with 1%nat in *. replace (k * 1 + i)%nat with k by lia.
    change (Z.of_nat 1) with 1. now rewrite Z.pow_1_r.
  - rewrite Nat.pow_succ_r' in *.
    assert (0 < 2 ^ n)%nat by (apply Nat.neq_0_lt_0, Nat.pow_nonzero; lia).
    replace (Z.of_nat (2 * 2 ^ n)) with (Z.of_nat (2 ^ n) + Z.of_nat (2 ^ n)) by lia.
    rewrite Z.pow_add_r by lia.
    destruct (Nat.lt_ge_cases i (2 ^ n)).
    + replace (k * (2 * 2 ^ n) + i)%nat with ((2 * k) * 2 ^ n + i)%nat by lia.
      rewrite IH by lia. rewrite node_even by lia. apply zeta_square. nia.
    + replace (k * (2 * 2 ^ n) + i)%nat with ((2 * k + 1) * 2 ^ n + (i - 2 ^ n))%nat by lia.
      rewrite IH by lia. rewrite node_odd by lia.
      transitivity (zeta k * zeta k); [apply cong_of_eq; ring|]. apply zeta_square. nia.
Qed.

(** Every output pair of the tree is the residue of the input at its leaf. *)
Lemma ntree_eval n : forall k p i,
  (1 <= k)%nat -> ((k + 1) * 2 ^ n <= 256)%nat -> length p = (2 ^ n * 2)%nat ->
  (i < 2 ^ n)%nat ->
  pcong (pair_at (ntree spec_lo spec_hi 2 n k p) i) (evalX (node (k * 2 ^ n + i)) p).
Proof.
  induction n as [|n IH]; intros k p i Hk1 Hk Hp Hi.
  - simpl in *. destruct p as [|a [|b [|c p]]]; simpl in Hp; try lia.
    replace i with 0%nat by lia.
    unfold pair_at, get, evalX, pmulX, padd. cbn [fst snd nth Nat.mul Nat.add].
    split; cbn [fst snd]; apply cong_of_eq; ring.
  - rewrite Nat.pow_succ_r' in *.
    assert (0 < 2 ^ n)%nat by (apply Nat.neq_0_lt_0, Nat.pow_nonzero; lia).
    set (h := (2 ^ n * 2)%nat) in *.
    set (lo := take h p). set (hi := drop h p).
    assert (Hlo : length lo = h) by (unfold lo; rewrite length_take; lia).
    assert (Hhi : length hi = h) by (unfold hi; rewrite length_drop; lia).
    cbn [ntree]. fold h lo hi.
    set (X := zip_with (spec_lo k) lo hi). set (Y := zip_with (spec_hi k) lo hi).
    assert (HXl : length X = h) by (unfold X; rewrite length_zip_with; lia).
    assert (HYl : length Y = h) by (unfold Y; rewrite length_zip_with; lia).
    pose proof (ntree_length spec_lo spec_hi 2 n (2 * k) X HXl) as HX.
    replace p with (lo ++ hi) by (unfold lo, hi; apply take_drop).
    destruct (Nat.lt_ge_cases i (2 ^ n)).
    + rewrite pair_at_app_l by lia. rewrite IH by lia.
      replace (2 * k * 2 ^ n + i)%nat with (k * (2 * 2 ^ n) + i)%nat by lia.
      set (w := node _).
      assert (Hw : w ^ Z.of_nat (2 ^ n) ≡ zeta k [mod q]).
      { rewrite <- node_even by lia. unfold w.
        replace (k * (2 * 2 ^ n) + i)%nat with (2 * k * 2 ^ n + i)%nat by lia.
        apply leaf_power; lia. }
      unfold X. rewrite (evalX_zip w _ (zeta k)) by (try easy; lia).
      rewrite (evalX_app w (2 ^ n)) by lia. now rewrite Hw.
    + rewrite (pair_at_app_r _ _ _ (2 ^ n)) by lia. rewrite IH by lia.
      replace ((2 * k + 1) * 2 ^ n + (i - 2 ^ n))%nat with (k * (2 * 2 ^ n) + i)%nat by lia.
      set (w := node _).
      assert (Hw : w ^ Z.of_nat (2 ^ n) ≡ - zeta k [mod q]).
      { rewrite <- node_odd by lia. unfold w.
        replace (k * (2 * 2 ^ n) + i)%nat with ((2 * k + 1) * 2 ^ n + (i - 2 ^ n))%nat by lia.
        apply leaf_power; lia. }
      unfold Y. rewrite (evalX_zip w _ (- zeta k)); [|unfold spec_hi; intros; ring|lia].
      rewrite (evalX_app w (2 ^ n)) by lia. now rewrite Hw.
Qed.

Lemma gamma_root i : (i < 128)%nat -> gamma i ^ 128 ≡ -1 [mod q].
Proof. intros H. exact (leaf_power 7 1 i ltac:(lia) ltac:(simpl; lia) H). Qed.

(** ** The ring *)

(** ** Negacyclic multiplication *)

Definition sumZ (l : list Z) : Z := foldr Z.add 0 l.

(** Coefficient [k] of [a * b mod X ^ 256 + 1]: [X ^ 256 = -1]. *)
Definition ring_coeff (a b : list Z) (k : nat) : Z :=
  sumZ (map (fun i => get a i * (if (i <=? k)%nat then get b (k - i) else - get b (256 + k - i)))
         (seq 0 256)).

Definition ring_mul (a b : list Z) : list Z := map (ring_coeff a b) (seq 0 256).

(** Multiplication by [X]. *)
Definition negshift (p : list Z) : list Z := - get p 255 :: take 255 p.

(** The product by Horner's rule on the first factor. *)
Fixpoint horner_mul (a b : list Z) : list Z :=
  match a with
  | [] => replicate 256 0
  | x :: a => zip_with Z.add (map (fun y => x * y) b) (negshift (horner_mul a b))
  end.

Lemma horner_mul_length a b : length b = 256%nat -> length (horner_mul a b) = 256%nat.
Proof.
  intros Hb. induction a as [|x a IH]; [reflexivity|].
  cbn [horner_mul]. unfold negshift. rewrite length_zip_with, length_map. simpl length.
  rewrite length_take. lia.
Qed.

Lemma get_zip_with F l k i :
  (i < length l)%nat -> (i < length k)%nat -> get (zip_with F l k) i = F (get l i) (get k i).
Proof.
  revert k i. induction l as [|x l IH]; intros [|y k] [|i] Hl Hk; simpl in *; try lia; [easy|].
  apply (IH k i); lia.
Qed.

Lemma get_take n l i : (i < n)%nat -> get (take n l) i = get l i.
Proof. intros H. unfold get. rewrite !nth_lookup. now rewrite lookup_take_lt. Qed.

Lemma get_drop n l i : get (drop n l) i = get l (n + i).
Proof. unfold get. now rewrite !nth_lookup, lookup_drop. Qed.

Lemma sumZ_app l k : sumZ (l ++ k) = sumZ l + sumZ k.
Proof. induction l as [|x l IH]; simpl; [lia|]. unfold sumZ in *. simpl. lia. Qed.

Lemma sumZ_ext {A} (f g : A -> Z) l :
  (forall x, In x l -> f x = g x) -> sumZ (map f l) = sumZ (map g l).
Proof. intros H. f_equal. now apply map_ext_in. Qed.

Lemma sumZ_mul {A} c (f : A -> Z) l : sumZ (map (fun x => c * f x) l) = c * sumZ (map f l).
Proof. induction l as [|x l IH]; simpl; [lia|]. unfold sumZ in *. simpl. lia. Qed.

(** The coefficients of the Horner product of a short first factor. *)
Lemma horner_coeff a b : length b = 256%nat -> (length a <= 256)%nat -> forall k,
  (k < 256)%nat ->
  get (horner_mul a b) k =
  sumZ (map (fun i => get a i * (if (i <=? k)%nat then get b (k - i) else - get b (256 + k - i)))
         (seq 0 (length a))).
Proof.
  intros Hb. induction a as [|x a IH]; intros Ha k Hk.
  - cbn [horner_mul length seq map]. unfold get. rewrite nth_lookup, lookup_replicate_2 by lia.
    reflexivity.
  - simpl length in Ha. cbn [horner_mul].
    pose proof (horner_mul_length a b Hb) as Hl.
    rewrite get_zip_with; [|now rewrite length_map, Hb|].
    2: { unfold negshift. simpl length. rewrite length_take. lia. }
    rewrite get_map by lia.
    change (seq 0 (length (x :: a))) with (0%nat :: seq 1 (length a)).
    rewrite <- seq_shift, map_cons, map_map.
    change (sumZ (?u :: ?v)) with (u + sumZ v). f_equal.
    + change (get (x :: a) 0) with x. change (0 <=? k)%nat with true. cbv iota.
      now rewrite Nat.sub_0_r.
    + unfold negshift. destruct k as [|k].
      * change (get (- get (horner_mul a b) 255 :: take 255 (horner_mul a b)) 0)
          with (- get (horner_mul a b) 255).
        rewrite (IH ltac:(lia) 255%nat ltac:(lia)).
        rewrite <- (Z.mul_1_l (sumZ _)), <- Z.mul_opp_l, <- sumZ_mul.
        apply sumZ_ext. intros i Hi%in_seq.
        destruct (Nat.leb_spec i 255); [|lia]. destruct (Nat.leb_spec (S i) 0); [lia|].
        change (get (x :: a) (S i)) with (get a i).
        replace (256 + 0 - S i)%nat with (255 - i)%nat by lia. ring.
      * change (get (- get (horner_mul a b) 255 :: take 255 (horner_mul a b)) (S k))
          with (get (take 255 (horner_mul a b)) k).
        rewrite get_take by lia. rewrite (IH ltac:(lia) k ltac:(lia)).
        apply sumZ_ext. intros i Hi%in_seq. change (get (x :: a) (S i)) with (get a i).
        change (S i <=? S k)%nat with (i <=? k)%nat.
        destruct (i <=? k)%nat; do 3 f_equal; lia.
Qed.

Lemma ring_mul_length a b : length (ring_mul a b) = 256%nat.
Proof. unfold ring_mul. now rewrite length_map, length_seq. Qed.

Lemma ring_mul_horner a b :
  length a = 256%nat -> length b = 256%nat -> ring_mul a b = horner_mul a b.
Proof.
  intros Ha Hb. apply list_eq_get.
  - now rewrite ring_mul_length, horner_mul_length.
  - intros k Hk. rewrite ring_mul_length in Hk. unfold ring_mul.
    rewrite get_map_seq by easy. rewrite horner_coeff by lia. now rewrite Ha.
Qed.

(** ** Evaluation is a ring morphism *)

Lemma evalX_zeros w n : evalX w (replicate n 0) = (0, 0).
Proof. induction n as [|n IH]; [easy|]. cbn [replicate evalX]. rewrite IH. pring. Qed.

Lemma evalX_negshift w p :
  w ^ 128 ≡ -1 [mod q] -> length p = 256%nat ->
  pcong (evalX w (negshift p)) (pmulX w (evalX w p)).
Proof.
  intros Hw Hp.
  assert (Ep : p = take 255 p ++ [get p 255]).
  { rewrite <- (take_drop 255 p) at 1. f_equal.
    assert (length (drop 255 p) = 1%nat) by (rewrite length_drop; lia).
    replace (get p 255) with (get (drop 255 p) 0) by (rewrite get_drop; f_equal; lia).
    destruct (drop 255 p) as [|z [|]]; simpl in *; try lia; easy. }
  unfold negshift. set (z := get p 255) in *. set (t := take 255 p) in *. rewrite Ep.
  pose proof (evalX_app w 128 (0 :: t) [z]) as E. simpl length in E.
  specialize (E ltac:(unfold t; rewrite length_take; lia)).
  change ((0 :: t) ++ [z]) with (0 :: (t ++ [z])) in E. cbn [evalX] in E.
  change (Z.of_nat 128) with 128 in E.
  transitivity (padd (0, 0) (pmulX w (evalX w (t ++ [z])))).
  2: { apply eq_subrelation; [exact _|]. destruct (evalX w (t ++ [z])). pring. }
  rewrite E, Hw. apply eq_subrelation; [exact _|].
  cbn [evalX]. destruct (evalX w t). pring.
Qed.

Lemma evalX_horner w a b :
  w ^ 128 ≡ -1 [mod q] -> length b = 256%nat ->
  pcong (evalX w (horner_mul a b)) (pmul w (evalX w a) (evalX w b)).
Proof.
  intros Hw Hb. induction a as [|x a IH].
  - cbn [horner_mul]. rewrite evalX_zeros. apply eq_subrelation; [exact _|]. cbn [evalX]. pring.
  - cbn [horner_mul]. pose proof (horner_mul_length a b Hb) as Hl.
    rewrite (evalX_zip w _ 1); [|intros; ring|].
    2: { unfold negshift. rewrite length_map. simpl length. rewrite length_take. lia. }
    rewrite evalX_map, evalX_negshift by easy. rewrite IH.
    apply eq_subrelation; [exact _|]. cbn [evalX].
    destruct (evalX w a), (evalX w b). pring.
Qed.

Lemma evalX_ring_mul i a b :
  (i < 128)%nat -> length a = 256%nat -> length b = 256%nat ->
  pcong (evalX (gamma i) (ring_mul a b))
    (pmul (gamma i) (evalX (gamma i) a) (evalX (gamma i) b)).
Proof.
  intros Hi Ha Hb. rewrite ring_mul_horner by easy. apply evalX_horner; [now apply gamma_root|easy].
Qed.
