(* ===== verification/Keccak.v ===== *)
(** * Keccak, SHA-3 and SHAKE as the Kyber code implements them

    [crypto/kyber/fips202.c]: the unrolled permutation on 25 lanes of 64 bits, the
    incremental and the one-shot sponge, and the hash functions built on it. *)
From S2P Require Import Prelude.

Definition SHAKE128_RATE : nat := 168.
Definition SHAKE256_RATE : nat := 136.
Definition SHA3_256_RATE : nat := 136.
Definition SHA3_512_RATE : nat := 72.
Definition NROUNDS : nat := 24.

(** [#define ROL(a, offset) ((a << offset) ^ (a >> (64-offset)))] on [uint64_t]. *)
Definition ROL (a : Z) (offset : Z) : Z :=
  Z.lxor (u64 (Z.shiftl a offset)) (Z.shiftr a (64 - offset)).

(** [~a] on [uint64_t]. *)
Definition not64 (a : Z) : Z := u64 (Z.lnot a).

(** [for(i=0;i<8;i++) r |= (uint64_t)x[i] << 8*i;] *)
Definition load64 (x : list Z) : Z :=
  foldl (fun r i => Z.lor r (u64 (Z.shiftl (get x i) (8 * Z.of_nat i)))) 0 (seq 0 8).

Definition store64 (u : Z) : list Z :=
  map (fun i => u8 (Z.shiftr u (8 * Z.of_nat i))) (seq 0 8).

Definition KeccakF_RoundConstants : list Z :=
  [0x0000000000000001; 0x0000000000008082; 0x800000000000808a;
   0x8000000080008000; 0x000000000000808b; 0x0000000080000001;
   0x8000000080008081; 0x8000000000008009; 0x000000000000008a;
   0x0000000000000088; 0x0000000080008009; 0x000000008000000a;
   0x000000008000808b; 0x800000000000008b; 0x8000000000008089;
   0x8000000000008003; 0x8000000000008002; 0x8000000000000080;
   0x000000000000800a; 0x800000008000000a; 0x8000000080008081;
   0x8000000000008080; 0x0000000080000001; 0x8000000080008008].

(** Lines of the loop body that compute the [E] lanes from the [A] lanes. *)
Definition KeccakF_round_AE (round : nat) (state : list Z) : list Z :=
  match state with
  | [Aba; Abe; Abi; Abo; Abu;
     Aga; Age; Agi; Ago; Agu;
     Aka; Ake; Aki; Ako; Aku;
     Ama; Ame; Ami; Amo; Amu;
     Asa; Ase; Asi; Aso; Asu] =>
      let BCa := Z.lxor (Z.lxor (Z.lxor (Z.lxor Aba Aga) Aka) Ama) Asa in
      let BCe := Z.lxor (Z.lxor (Z.lxor (Z.lxor Abe Age) Ake) Ame) Ase in
      let BCi := Z.lxor (Z.lxor (Z.lxor (Z.lxor Abi Agi) Aki) Ami) Asi in
      let BCo := Z.lxor (Z.lxor (Z.lxor (Z.lxor Abo Ago) Ako) Amo) Aso in
      let BCu := Z.lxor (Z.lxor (Z.lxor (Z.lxor Abu Agu) Aku) Amu) Asu in

      let Da := Z.lxor BCu (ROL BCe 1) in
      let De := Z.lxor BCa (ROL BCi 1) in
      let Di := Z.lxor BCe (ROL BCo 1) in
      let Do := Z.lxor BCi (ROL BCu 1) in
      let Du := Z.lxor BCo (ROL BCa 1) in

      let Aba := Z.lxor Aba Da in
      let BCa := Aba in
      let Age := Z.lxor Age De in
      let BCe := ROL Age 44 in
      let Aki := Z.lxor Aki Di in
      let BCi := ROL Aki 43 in
      let Amo := Z.lxor Amo Do in
      let BCo := ROL Amo 21 in
      let Asu := Z.lxor Asu Du in
      let BCu := ROL Asu 14 in
      let Eba := Z.lxor BCa (Z.land (not64 BCe) BCi) in
      let Eba := Z.lxor Eba (get KeccakF_RoundConstants round) in
      let Ebe := Z.lxor BCe (Z.land (not64 BCi) BCo) in
      let Ebi := Z.lxor BCi (Z.land (not64 BCo) BCu) in
      let Ebo := Z.lxor BCo (Z.land (not64 BCu) BCa) in
      let Ebu := Z.lxor BCu (Z.land (not64 BCa) BCe) in

      let Abo := Z.lxor Abo Do in
      let BCa := ROL Abo 28 in
      let Agu := Z.lxor Agu Du in
      let BCe := ROL Agu 20 in
      let Aka := Z.lxor Aka Da in
      let BCi := ROL Aka 3 in
      let Ame := Z.lxor Ame De in
      let BCo := ROL Ame 45 in
      let Asi := Z.lxor Asi Di in
      let BCu := ROL Asi 61 in
      let Ega := Z.lxor BCa (Z.land (not64 BCe) BCi) in
      let Ege := Z.lxor BCe (Z.land (not64 BCi) BCo) in
      let Egi := Z.lxor BCi (Z.land (not64 BCo) BCu) in
      let Ego := Z.lxor BCo (Z.land (not64 BCu) BCa) in
      let Egu := Z.lxor BCu (Z.land (not64 BCa) BCe) in

      let Abe := Z.lxor Abe De in
      let BCa := ROL Abe 1 in
      let Agi := Z.lxor Agi Di in
      let BCe := ROL Agi 6 in
      let Ako := Z.lxor Ako Do in
      let BCi := ROL Ako 25 in
      let Amu := Z.lxor Amu Du in
      let BCo := ROL Amu 8 in
      let Asa := Z.lxor Asa Da in
      let BCu := ROL Asa 18 in
      let Eka := Z.lxor BCa (Z.land (not64 BCe) BCi) in
      let Eke := Z.lxor BCe (Z.land (not64 BCi) BCo) in
      let Eki := Z.lxor BCi (Z.land (not64 BCo) BCu) in
      let Eko := Z.lxor BCo (Z.land (not64 BCu) BCa) in
      let Eku := Z.lxor BCu (Z.land (not64 BCa) BCe) in

      let Abu := Z.lxor Abu Du in
      let BCa := ROL Abu 27 in
      let Aga := Z.lxor Aga Da in
      let BCe := ROL Aga 36 in
      let Ake := Z.lxor Ake De in
      let BCi := ROL Ake 10 in
      let Ami := Z.lxor Ami Di in
      let BCo := ROL Ami 15 in
      let Aso := Z.lxor Aso Do in
      let BCu := ROL Aso 56 in
      let Ema := Z.lxor BCa (Z.land (not64 BCe) BCi) in
      let Eme := Z.lxor BCe (Z.land (not64 BCi) BCo) in
      let Emi := Z.lxor BCi (Z.land (not64 BCo) BCu) in
      let Emo := Z.lxor BCo (Z.land (not64 BCu) BCa) in
      let Emu := Z.lxor BCu (Z.land (not64 BCa) BCe) in

      let Abi := Z.lxor Abi Di in
      let BCa := ROL Abi 62 in
      let Ago := Z.lxor Ago Do in
      let BCe := ROL Ago 55 in
      let Aku := Z.lxor Aku Du in
      let BCi := ROL Aku 39 in
      let Ama := Z.lxor Ama Da in
      let BCo := ROL Ama 41 in
      let Ase := Z.lxor Ase De in
      let BCu := ROL Ase 2 in
      let Esa := Z.lxor BCa (Z.land (not64 BCe) BCi) in
      let Ese := Z.lxor BCe (Z.land (not64 BCi) BCo) in
      let Esi := Z.lxor BCi (Z.land (not64 BCo) BCu) in
      let Eso := Z.lxor BCo (Z.land (not64 BCu) BCa) in
      let Esu := Z.lxor BCu (Z.land (not64 BCa) BCe) in
      [Eba; Ebe; Ebi; Ebo; Ebu;
       Ega; Ege; Egi; Ego; Egu;
       Eka; Eke; Eki; Eko; Eku;
       Ema; Eme; Emi; Emo; Emu;
       Esa; Ese; Esi; Eso; Esu]
  | _ => state
  end.

(** The second half of the body: the [A] lanes from the [E] lanes. *)
Definition KeccakF_round_EA (round : nat) (state : list Z) : list Z :=
  match state with
  | [Eba; Ebe; Ebi; Ebo; Ebu;
     Ega; Ege; Egi; Ego; Egu;
     Eka; Eke; Eki; Eko; Eku;
     Ema; Eme; Emi; Emo; Emu;
     Esa; Ese; Esi; Eso; Esu] =>
      let BCa := Z.lxor (Z.lxor (Z.lxor (Z.lxor Eba Ega) Eka) Ema) Esa in
      let BCe := Z.lxor (Z.lxor (Z.lxor (Z.lxor Ebe Ege) Eke) Eme) Ese in
      let BCi := Z.lxor (Z.lxor (Z.lxor (Z.lxor Ebi Egi) Eki) Emi) Esi in
      let BCo := Z.lxor (Z.lxor (Z.lxor (Z.lxor Ebo Ego) Eko) Emo) Eso in
      let BCu := Z.lxor (Z.lxor (Z.lxor (Z.lxor Ebu Egu) Eku) Emu) Esu in

      let Da := Z.lxor BCu (ROL BCe 1) in
      let De := Z.lxor BCa (ROL BCi 1) in
      let Di := Z.lxor BCe (ROL BCo 1) in
      let Do := Z.lxor BCi (ROL BCu 1) in
      let Du := Z.lxor BCo (ROL BCa 1) in

      let Eba := Z.lxor Eba Da in
      let BCa := Eba in
      let Ege := Z.lxor Ege De in
      let BCe := ROL Ege 44 in
      let Eki := Z.lxor Eki Di in
      let BCi := ROL Eki 43 in
      let Emo := Z.lxor Emo Do in
      let BCo := ROL Emo 21 in
      let Esu := Z.lxor Esu Du in
      let BCu := ROL Esu 14 in
      let Aba := Z.lxor BCa (Z.land (not64 BCe) BCi) in
      let Aba := Z.lxor Aba (get KeccakF_RoundConstants (round + 1)) in
      let Abe := Z.lxor BCe (Z.land (not64 BCi) BCo) in
      let Abi := Z.lxor BCi (Z.land (not64 BCo) BCu) in
      let Abo := Z.lxor BCo (Z.land (not64 BCu) BCa) in
      let Abu := Z.lxor BCu (Z.land (not64 BCa) BCe) in

      let Ebo := Z.lxor Ebo Do in
      let BCa := ROL Ebo 28 in
      let Egu := Z.lxor Egu Du in
      let BCe := ROL Egu 20 in
      let Eka := Z.lxor Eka Da in
      let BCi := ROL Eka 3 in
      let Eme := Z.lxor Eme De in
      let BCo := ROL Eme 45 in
      let Esi := Z.lxor Esi Di in
      let BCu := ROL Esi 61 in
      let Aga := Z.lxor BCa (Z.land (not64 BCe) BCi) in
      let Age := Z.lxor BCe (Z.land (not64 BCi) BCo) in
      let Agi := Z.lxor BCi (Z.land (not64 BCo) BCu) in
      let Ago := Z.lxor BCo (Z.land (not64 BCu) BCa) in
      let Agu := Z.lxor BCu (Z.land (not64 BCa) BCe) in

      let Ebe := Z.lxor Ebe De in
      let BCa := ROL Ebe 1 in
      let Egi := Z.lxor Egi Di in
      let BCe := ROL Egi 6 in
      let Eko := Z.lxor Eko Do in
      let BCi := ROL Eko 25 in
      let Emu := Z.lxor Emu Du in
      let BCo := ROL Emu 8 in
      let Esa := Z.lxor Esa Da in
      let BCu := ROL Esa 18 in
      let Aka := Z.lxor BCa (Z.land (not64 BCe) BCi) in
      let Ake := Z.lxor BCe (Z.land (not64 BCi) BCo) in
      let Aki := Z.lxor BCi (Z.land (not64 BCo) BCu) in
      let Ako := Z.lxor BCo (Z.land (not64 BCu) BCa) in
      let Aku := Z.lxor BCu (Z.land (not64 BCa) BCe) in

      let Ebu := Z.lxor Ebu Du in
      let BCa := ROL Ebu 27 in
      let Ega := Z.lxor Ega Da in
      let BCe := ROL Ega 36 in
      let Eke := Z.lxor Eke De in
      let BCi := ROL Eke 10 in
      let Emi := Z.lxor Emi Di in
      let BCo := ROL Emi 15 in
      let Eso := Z.lxor Eso Do in
      let BCu := ROL Eso 56 in
      let Ama := Z.lxor BCa (Z.land (not64 BCe) BCi) in
      let Ame := Z.lxor BCe (Z.land (not64 BCi) BCo) in
      let Ami := Z.lxor BCi (Z.land (not64 BCo) BCu) in
      let Amo := Z.lxor BCo (Z.land (not64 BCu) BCa) in
      let Amu := Z.lxor BCu (Z.land (not64 BCa) BCe) in

      let Ebi := Z.lxor Ebi Di in
      let BCa := ROL Ebi 62 in
      let Ego := Z.lxor Ego Do in
      let BCe := ROL Ego 55 in
      let Eku := Z.lxor Eku Du in
      let BCi := ROL Eku 39 in
      let Ema := Z.lxor Ema Da in
      let BCo := ROL Ema 41 in
      let Ese := Z.lxor Ese De in
      let BCu := ROL Ese 2 in
      let Asa := Z.lxor BCa (Z.land (not64 BCe) BCi) in
      let Ase := Z.lxor BCe (Z.land (not64 BCi) BCo) in
      let Asi := Z.lxor BCi (Z.land (not64 BCo) BCu) in
      let Aso := Z.lxor BCo (Z.land (not64 BCu) BCa) in
      let Asu := Z.lxor BCu (Z.land (not64 BCa) BCe) in
      [Aba; Abe; Abi; Abo; Abu;
       Aga; Age; Agi; Ago; Agu;
       Aka; Ake; Aki; Ako; Aku;
       Ama; Ame; Ami; Amo; Amu;
       Asa; Ase; Asi; Aso; Asu]
  | _ => state
  end.

(** [for(round = 0; round < NROUNDS; round += 2)] *)
Definition KeccakF1600_StatePermute (state : list Z) : list Z :=
  foldl (fun A round => KeccakF_round_EA round (KeccakF_round_AE round A)) state
    (map (fun i => 2 * i)%nat (seq 0 (NROUNDS / 2))).

(** ** The sponge *)

Definition keccak_init : list Z := replicate 25 0.

(** [s[i/8] ^= (uint64_t)b << 8*(i%8);] *)
Definition xor_byte (s : list Z) (i : nat) (b : Z) : list Z :=
  <[(i / 8)%nat := Z.lxor (get s (i / 8)) (u64 (Z.shiftl b (8 * Z.of_nat (i mod 8))))]> s.

(** The same for consecutive positions and input bytes. *)
Fixpoint xor_bytes (s : list Z) (i : nat) (bs : list Z) : list Z :=
  match bs with
  | [] => s
  | b :: bs => xor_bytes (xor_byte s i b) (S i) bs
  end.

(** [while(pos+inlen >= r)] *)
Fixpoint keccak_absorb_loop (fuel : nat) (s : list Z) (pos r : nat) (inp : list Z)
    : list Z * nat * list Z :=
  match fuel with
  | O => (s, pos, inp)
  | S fuel =>
      if (r <=? pos + length inp)%nat then
        let s := xor_bytes s pos (take (r - pos) inp) in
        let inp := drop (r - pos) inp in
        let s := KeccakF1600_StatePermute s in
        keccak_absorb_loop fuel s 0 r inp
      else (s, pos, inp)
  end.

Definition keccak_absorb (s : list Z) (pos r : nat) (inp : list Z) : list Z * nat :=
  let '(s, pos, inp) := keccak_absorb_loop (length inp + 2) s pos r inp in
  (xor_bytes s pos inp, (pos + length inp)%nat).

Definition keccak_finalize (s : list Z) (pos r : nat) (p : Z) : list Z :=
  let s := <[(pos / 8)%nat := Z.lxor (get s (pos / 8))
              (u64 (Z.shiftl p (8 * Z.of_nat (pos mod 8))))]> s in
  <[(r / 8 - 1)%nat := Z.lxor (get s (r / 8 - 1)) (Z.shiftl 1 63)]> s.

(** [(uint8_t)(s[i/8] >> 8*(i%8))] *)
Definition state_byte (s : list Z) (i : nat) : Z :=
  u8 (Z.shiftr (get s (i / 8)) (8 * Z.of_nat (i mod 8))).

(** [while(outlen)]; the result is the output, the state and the position. *)
Fixpoint keccak_squeeze_loop (fuel outlen : nat) (s : list Z) (pos r : nat) (out : list Z)
    : list Z * list Z * nat :=
  match fuel with
  | O => (out, s, pos)
  | S fuel =>
      if (outlen =? 0)%nat then (out, s, pos)
      else
        let '(s, pos) := if (pos =? r)%nat then (KeccakF1600_StatePermute s, 0%nat)
                         else (s, pos) in
        let n := Nat.min (r - pos) outlen in
        let out := out ++ map (state_byte s) (seq pos n) in
        keccak_squeeze_loop fuel (outlen - n) s (pos + n) r out
  end.

Definition keccak_squeeze (outlen : nat) (s : list Z) (pos r : nat)
    : list Z * list Z * nat :=
  keccak_squeeze_loop (S outlen) outlen s pos r [].

(** [for(i=0;i<r/8;i++) s[i] ^= load64(in+8*i);] *)
Definition xor_block (s : list Z) (r : nat) (inp : list Z) : list Z :=
  foldl (fun s i => <[i := Z.lxor (get s i) (load64 (drop (8 * i) inp))]> s) s (seq 0 (r / 8)).

(** [while(inlen >= r)] of [keccak_absorb_once] *)
Fixpoint keccak_absorb_once_loop (fuel : nat) (s : list Z) (r : nat) (inp : list Z)
    : list Z * list Z :=
  match fuel with
  | O => (s, inp)
  | S fuel =>
      if (r <=? length inp)%nat then
        let s := xor_block s r inp in
        let inp := drop r inp in
        keccak_absorb_once_loop fuel (KeccakF1600_StatePermute s) r inp
      else (s, inp)
  end.

Definition keccak_absorb_once (r : nat) (inp : list Z) (p : Z) : list Z :=
  let s := replicate 25 0 in
  let '(s, inp) := keccak_absorb_once_loop (S (length inp)) s r inp in
  let s := xor_bytes s 0 inp in
  let i := length inp in
  let s := <[(i / 8)%nat := Z.lxor (get s (i / 8))
              (u64 (Z.shiftl p (8 * Z.of_nat (i mod 8))))]> s in
  <[((r - 1) / 8)%nat := Z.lxor (get s ((r - 1) / 8)) (Z.shiftl 1 63)]> s.

Fixpoint keccak_squeezeblocks (nblocks : nat) (s : list Z) (r : nat) : list Z * list Z :=
  match nblocks with
  | O => ([], s)
  | S nblocks =>
      let s := KeccakF1600_StatePermute s in
      let block := concat (map (fun i => store64 (get s i)) (seq 0 (r / 8))) in
      let '(out, s) := keccak_squeezeblocks nblocks s r in
      (block ++ out, s)
  end.

(** ** The extendable-output functions and the hashes *)

Record keccak_state := { ks_s : list Z; ks_pos : nat }.

Definition shake128_init : keccak_state := {| ks_s := keccak_init; ks_pos := 0 |}.

Definition shake128_absorb (st : keccak_state) (inp : list Z) : keccak_state :=
  let '(s, pos) := keccak_absorb (ks_s st) (ks_pos st) SHAKE128_RATE inp in
  {| ks_s := s; ks_pos := pos |}.

Definition shake128_finalize (st : keccak_state) : keccak_state :=
  {| ks_s := keccak_finalize (ks_s st) (ks_pos st) SHAKE128_RATE 0x1F;
     ks_pos := SHAKE128_RATE |}.

Definition shake128_squeeze (outlen : nat) (st : keccak_state) : list Z * keccak_state :=
  let '(out, s, pos) := keccak_squeeze outlen (ks_s st) (ks_pos st) SHAKE128_RATE in
  (out, {| ks_s := s; ks_pos := pos |}).

Definition shake128_absorb_once (inp : list Z) : keccak_state :=
  {| ks_s := keccak_absorb_once SHAKE128_RATE inp 0x1F; ks_pos := SHAKE128_RATE |}.

Definition shake128_squeezeblocks (nblocks : nat) (st : keccak_state)
    : list Z * keccak_state :=
  let '(out, s) := keccak_squeezeblocks nblocks (ks_s st) SHAKE128_RATE in
  (out, {| ks_s := s; ks_pos := ks_pos st |}).

Definition shake256_init : keccak_state := {| ks_s := keccak_init; ks_pos := 0 |}.

Definition shake256_absorb (st : keccak_state) (inp : list Z) : keccak_state :=
  let '(s, pos) := keccak_absorb (ks_s st) (ks_pos st) SHAKE256_RATE inp in
  {| ks_s := s; ks_pos := pos |}.

Definition shake256_finalize (st : keccak_state) : keccak_state :=
  {| ks_s := keccak_finalize (ks_s st) (ks_pos st) SHAKE256_RATE 0x1F;
     ks_pos := SHAKE256_RATE |}.

Definition shake256_squeeze (outlen : nat) (st : keccak_state) : list Z * keccak_state :=
  let '(out, s, pos) := keccak_squeeze outlen (ks_s st) (ks_pos st) SHAKE256_RATE in
  (out, {| ks_s := s; ks_pos := pos |}).

Definition shake256_absorb_once (inp : list Z) : keccak_state :=
  {| ks_s := keccak_absorb_once SHAKE256_RATE inp 0x1F; ks_pos := SHAKE256_RATE |}.

Definition shake256_squeezeblocks (nblocks : nat) (st : keccak_state)
    : list Z * keccak_state :=
  let '(out, s) := keccak_squeezeblocks nblocks (ks_s st) SHAKE256_RATE in
  (out, {| ks_s := s; ks_pos := ks_pos st |}).

Definition shake128 (outlen : nat) (inp : list Z) : list Z :=
  let state := shake128_absorb_once inp in
  let nblocks := (outlen / SHAKE128_RATE)%nat in
  let '(out, state) := shake128_squeezeblocks nblocks state in
  let outlen := (outlen - nblocks * SHAKE128_RATE)%nat in
  let '(out', _) := shake128_squeeze outlen state in
  out ++ out'.

Definition shake256 (outlen : nat) (inp : list Z) : list Z :=
  let state := shake256_absorb_once inp in
  let nblocks := (outlen / SHAKE256_RATE)%nat in
  let '(out, state) := shake256_squeezeblocks nblocks state in
  let outlen := (outlen - nblocks * SHAKE256_RATE)%nat in
  let '(out', _) := shake256_squeeze outlen state in
  out ++ out'.

Definition sha3_256_kyber (inp : list Z) : list Z :=
  let s := keccak_absorb_once SHA3_256_RATE inp 0x06 in
  let s := KeccakF1600_StatePermute s in
  concat (map (fun i => store64 (get s i)) (seq 0 4)).

Definition sha3_512_kyber (inp : list Z) : list Z :=
  let s := keccak_absorb_once SHA3_512_RATE inp 0x06 in
  let s := KeccakF1600_StatePermute s in
  concat (map (fun i => store64 (get s i)) (seq 0 8)).
