(* ===== verification/KeccakSpec.v ===== *)
(** * Keccak: the unrolled permutation and the sponge against their specification *)
From S2P Require Import Prelude Keccak.

(** ** The step mappings of FIPS 202 (section 3.2)

    Lane [(x, y)] of the state is cell [x + 5 y]. *)

Definition lane (s : list Z) (x y : nat) : Z := get s (x mod 5 + 5 * (y mod 5)).

Definition of_lanes (f : nat -> nat -> Z) : list Z :=
  map (fun i => f (i mod 5)%nat (i / 5)%nat) (seq 0 25).

(** Rotation and complement of a lane, as arithmetic on 64-bit numbers. *)
Definition rotl64 (a : Z) (n : nat) : Z :=
  if (n =? 0)%nat then a
  else Z.lxor ((a * 2 ^ Z.of_nat n) mod 2 ^ 64) (a / 2 ^ (64 - Z.of_nat n)).
Definition complement64 (a : Z) : Z := (2 ^ 64 - 1 - a) mod 2 ^ 64.

Definition theta_c (s : list Z) (x : nat) : Z :=
  foldl (fun c y => Z.lxor c (lane s x y)) (lane s x 0) (seq 1 4).

Definition theta (s : list Z) : list Z :=
  of_lanes (fun x y => Z.lxor (lane s x y)
    (Z.lxor (theta_c s (x + 4)) (rotl64 (theta_c s (x + 1)) 1))).

(** The offsets of [rho]: [(t + 1) (t + 2) / 2] along the walk
    [(x, y) -> (y, 2 x + 3 y)] from [(1, 0)]. *)
Fixpoint rho_walk (n t x y : nat) (x0 y0 : nat) : nat :=
  match n with
  | O => 0
  | S n => if ((x =? x0) && (y =? y0))%nat then ((t + 1) * (t + 2) / 2) mod 64
           else rho_walk n (t + 1) y ((2 * x + 3 * y) mod 5) x0 y0
  end.

Definition rho_offset (x y : nat) : nat := rho_walk 24 0 1 0 x y.

Definition rho (s : list Z) : list Z :=
  of_lanes (fun x y => rotl64 (lane s x y) (rho_offset x y)).

Definition pi (s : list Z) : list Z := of_lanes (fun x y => lane s (x + 3 * y) x).

Definition chi (s : list Z) : list Z :=
  of_lanes (fun x y => Z.lxor (lane s x y) (Z.land (complement64 (lane s (x + 1) y)) (lane s (x + 2) y))).

(** The bits of the round constants come from the shift register
    [x^8 + x^6 + x^5 + x^4 + 1]. *)
Definition lfsr_step (r : Z) : Z :=
  let r := Z.shiftl r 1 in if Z.testbit r 8 then Z.lxor r 0x171 else r.

Definition rc_bit (t : nat) : bool := Z.testbit (Nat.iter t lfsr_step 1) 0.

Definition spec_round_constant (ir : nat) : Z :=
  foldl (fun c j => if rc_bit (j + 7 * ir) then Z.lxor c (Z.shiftl 1 (2 ^ Z.of_nat j - 1)) else c)
    0 (seq 0 7).

Definition iota (ir : nat) (s : list Z) : list Z :=
  <[0%nat := Z.lxor (get s 0) (spec_round_constant ir)]> s.

Definition Rnd (s : list Z) (ir : nat) : list Z := iota ir (chi (pi (rho (theta s)))).

Definition keccak_f (s : list Z) : list Z := foldl Rnd s (seq 0 24).

(** ** The operations of the code *)

Lemma round_constants : KeccakF_RoundConstants = map spec_round_constant (seq 0 24).
Proof. vm_compute. reflexivity. Qed.

Lemma round_constant ir : (ir < 24)%nat -> get KeccakF_RoundConstants ir = spec_round_constant ir.
Proof. intros H. rewrite round_constants. now apply get_map_seq. Qed.

(** [ROL] and [~] are the rotation and the complement. *)
Lemma ROL_rotl64 a n : (0 < n < 64)%nat -> ROL a (Z.of_nat n) = rotl64 a n.
Proof.
  intros H. unfold ROL, rotl64, u64. destruct (Nat.eqb_spec n 0); [lia |].
  now rewrite Z.shiftl_mul_pow2, Z.shiftr_div_pow2 by lia.
Qed.

Lemma not64_complement a : not64 a = complement64 a.
Proof. unfold not64, complement64, u64, Z.lnot. rewrite <- (Z_mod_plus_full (Z.pred (- a)) 1). f_equal. lia. Qed.

(** On lanes of 64 bits [rotl64] moves bit [i] to bit [i + n] modulo 64. *)
Lemma rotl64_bit a n i :
  0 <= a < 2 ^ 64 -> (n < 64)%nat -> 0 <= i < 64 ->
  Z.testbit (rotl64 a n) ((i + Z.of_nat n) mod 64) = Z.testbit a i.
Proof.
  intros Ha Hn Hi. unfold rotl64. destruct (Nat.eqb_spec n 0) as [-> | H0].
  { cbn. rewrite Z.add_0_r, Z.mod_small by lia. reflexivity. }
  rewrite <- Z.shiftl_mul_pow2, <- Z.shiftr_div_pow2, Z.lxor_spec by lia.
  pose proof (Z.mod_pos_bound (i + Z.of_nat n) 64 ltac:(lia)) as Hm.
  rewrite Z.mod_pow2_bits_low, Z.shiftl_spec, Z.shiftr_spec by lia.
  destruct (Z.lt_ge_cases (i + Z.of_nat n) 64) as [Hlt | Hge].
  - rewrite Z.mod_small by lia. replace (i + Z.of_nat n - Z.of_nat n) with i by lia.
    rewrite (Z.bits_above_log2 a (_ + _)); [apply xorb_false_r | lia |].
    destruct (Z.eq_dec a 0) as [-> | Ha0]; [cbn; lia |].
    apply Z.lt_le_trans with 64; [apply Z.log2_lt_pow2; lia | lia].
  - assert (E : (i + Z.of_nat n) mod 64 = i + Z.of_nat n - 64).
    { symmetry. apply (Z.mod_unique_pos _ _ 1); lia. }
    rewrite E. rewrite Z.testbit_neg_r by lia. cbn [xorb]. f_equal. lia.
Qed.

Ltac destruct_list25 s H :=
  do 25 (destruct s as [|? s]; [discriminate H|]); destruct s; [|discriminate H].

(** A round of the specification with the operations of the code. *)
Definition code_rotl (a : Z) (n : nat) : Z := if (n =? 0)%nat then a else ROL a (Z.of_nat n).

Lemma code_rotl_spec a n : (n < 64)%nat -> rotl64 a n = code_rotl a n.
Proof.
  intros H. unfold code_rotl. destruct (Nat.eqb_spec n 0) as [-> |]; [reflexivity |].
  symmetry. apply ROL_rotl64. lia.
Qed.

Lemma of_lanes_ext f g :
  (forall x y, (x < 5)%nat -> (y < 5)%nat -> f x y = g x y) -> of_lanes f = of_lanes g.
Proof.
  intros H. apply map_ext_in. intros i Hi%in_seq. apply H; [apply Nat.mod_upper_bound; lia |].
  apply Nat.Div0.div_lt_upper_bound. lia.
Qed.

Lemma theta_code s :
  theta s = of_lanes (fun x y => Z.lxor (lane s x y) (Z.lxor (theta_c s (x + 4)) (code_rotl (theta_c s (x + 1)) 1))).
Proof. apply of_lanes_ext. intros x y _ _. now rewrite code_rotl_spec by lia. Qed.

Lemma rho_walk_range n : forall t a b x y, (rho_walk n t a b x y < 64)%nat.
Proof.
  induction n as [| n IH]; intros t a b x y; cbn [rho_walk]; [lia |].
  destruct (_ && _)%bool; [apply Nat.mod_upper_bound; lia | apply IH].
Qed.

Lemma rho_code s : rho s = of_lanes (fun x y => code_rotl (lane s x y) (rho_offset x y)).
Proof. apply of_lanes_ext. intros x y _ _. apply code_rotl_spec, rho_walk_range. Qed.

Lemma chi_code s :
  chi s = of_lanes (fun x y => Z.lxor (lane s x y) (Z.land (not64 (lane s (x + 1) y)) (lane s (x + 2) y))).
Proof. apply of_lanes_ext. intros x y _ _. now rewrite not64_complement. Qed.

Lemma round_AE_Rnd round s :
  (round < 24)%nat -> length s = 25%nat -> KeccakF_round_AE round s = Rnd s round.
Proof.
  intros Hr H. unfold KeccakF_round_AE, Rnd, iota. rewrite chi_code, rho_code, theta_code, <- round_constant by easy.
  destruct_list25 s H. clear H.
  generalize (get KeccakF_RoundConstants round). intros c.
  cbv -[Z.lxor Z.land ROL not64]. reflexivity.
Qed.

Lemma round_EA_Rnd round s :
  (round + 1 < 24)%nat -> length s = 25%nat -> KeccakF_round_EA round s = Rnd s (round + 1).
Proof.
  intros Hr H. unfold KeccakF_round_EA, Rnd, iota. rewrite chi_code, rho_code, theta_code, <- round_constant by easy.
  destruct_list25 s H. clear H.
  generalize (get KeccakF_RoundConstants (round + 1)). intros c.
  cbv -[Z.lxor Z.land ROL not64]. reflexivity.
Qed.

Lemma of_lanes_length f : length (of_lanes f) = 25%nat.
Proof. unfold of_lanes. now rewrite length_map, length_seq. Qed.

Lemma Rnd_length s ir : length (Rnd s ir) = 25%nat.
Proof. unfold Rnd, iota. rewrite length_insert. apply of_lanes_length. Qed.

Lemma foldl_rounds n : forall k s, (k + n <= 12)%nat -> length s = 25%nat ->
  foldl (fun A round => KeccakF_round_EA round (KeccakF_round_AE round A)) s
    (map (fun i => 2 * i)%nat (seq k n)) = foldl Rnd s (seq (2 * k) (2 * n)).
Proof.
  induction n as [|n IH]; intros k s Hk Hs; [easy|].
  replace (2 * S n)%nat with (S (S (2 * n))) by lia. cbn [seq map foldl].
  rewrite round_AE_Rnd by (lia || easy). rewrite round_EA_Rnd by (lia || apply Rnd_length).
  rewrite IH by (lia || apply Rnd_length). replace (2 * S k)%nat with (S (S (2 * k))) by lia.
  now rewrite Nat.add_1_r.
Qed.

Lemma StatePermute_keccak_f s : length s = 25%nat -> KeccakF1600_StatePermute s = keccak_f s.
Proof. intros H. apply (foldl_rounds 12 0 s); [lia | exact H]. Qed.

Lemma keccak_f_length s : length s = 25%nat -> length (keccak_f s) = 25%nat.
Proof.
  intros H. unfold keccak_f. change (seq 0 24) with (seq 0 23 ++ [23%nat]).
  rewrite foldl_app. apply Rnd_length.
Qed.

(** ** Absorbing byte by byte *)

Abbreviation permute := KeccakF1600_StatePermute.

Definition absorb_byte (r : nat) (st : list Z * nat) (b : Z) : list Z * nat :=
  let s := xor_byte (fst st) (snd st) b in
  if (S (snd st) =? r)%nat then (permute s, 0%nat) else (s, S (snd st)).

Definition absorb_spec (r : nat) (st : list Z * nat) (inp : list Z) : list Z * nat :=
  foldl (absorb_byte r) st inp.

Lemma absorb_spec_app r st a b :
  absorb_spec r st (a ++ b) = absorb_spec r (absorb_spec r st a) b.
Proof. apply foldl_app. Qed.

Lemma absorb_spec_cons r s pos b bs :
  absorb_spec r (s, pos) (b :: bs) =
  absorb_spec r (if (S pos =? r)%nat then (permute (xor_byte s pos b), 0%nat)
                 else (xor_byte s pos b, S pos)) bs.
Proof. reflexivity. Qed.

Lemma absorb_spec_short r bs : forall s pos,
  (pos + length bs < r)%nat ->
  absorb_spec r (s, pos) bs = (xor_bytes s pos bs, (pos + length bs)%nat).
Proof.
  induction bs as [|b bs IH]; intros s pos H.
  - cbn. f_equal. lia.
  - rewrite absorb_spec_cons. cbn [length] in *. destruct (Nat.eqb_spec (S pos) r); [lia|].
    rewrite IH by lia. cbn [xor_bytes]. f_equal. lia.
Qed.

Lemma absorb_spec_block r bs : forall s pos,
  (pos + length bs = r)%nat -> bs <> [] ->
  absorb_spec r (s, pos) bs = (permute (xor_bytes s pos bs), 0%nat).
Proof.
  induction bs as [|b bs IH]; intros s pos H Hne; [easy|].
  rewrite absorb_spec_cons. cbn [length] in *. destruct (Nat.eqb_spec (S pos) r) as [E|E].
  - destruct bs; [easy|simpl in H; lia].
  - apply IH; [lia|]. intros ->. simpl in H. lia.
Qed.

Lemma absorb_loop_spec r : (0 < r)%nat -> forall fuel s pos inp,
  (pos < r)%nat -> (length inp < fuel)%nat ->
  let '(s', pos', inp') := keccak_absorb_loop fuel s pos r inp in
  absorb_spec r (s, pos) inp = absorb_spec r (s', pos') inp' /\ (pos' + length inp' < r)%nat.
Proof.
  intros Hr. induction fuel as [|fuel IH]; intros s pos inp Hpos Hf; [lia|].
  cbn [keccak_absorb_loop]. destruct (Nat.leb_spec r (pos + length inp)); [|easy].
  assert (Hl : length (take (r - pos) inp) = (r - pos)%nat) by (rewrite length_take; lia).
  specialize (IH (permute (xor_bytes s pos (take (r - pos) inp))) 0%nat (drop (r - pos) inp) Hr).
  rewrite length_drop in IH. specialize (IH ltac:(lia)).
  destruct (keccak_absorb_loop _ _ _ _ _) as [[s' pos'] inp']. destruct IH as [IH1 IH2].
  split; [|easy]. rewrite <- IH1. rewrite <- (take_drop (r - pos) inp) at 1.
  rewrite absorb_spec_app. f_equal. apply absorb_spec_block; [lia|].
  intros E. rewrite E in Hl. simpl in Hl. lia.
Qed.

(** The incremental absorption of the code is the byte-wise one. *)
Lemma keccak_absorb_spec s pos r inp :
  (pos < r)%nat -> keccak_absorb s pos r inp = absorb_spec r (s, pos) inp.
Proof.
  intros H. unfold keccak_absorb.
  pose proof (absorb_loop_spec r ltac:(lia) (length inp + 2) s pos inp H ltac:(lia)) as E.
  destruct (keccak_absorb_loop _ _ _ _ _) as [[s' pos'] inp']. destruct E as [E1 E2].
  now rewrite E1, absorb_spec_short.
Qed.

Lemma absorb_spec_pos r st inp : (snd st < r)%nat -> (snd (absorb_spec r st inp) < r)%nat.
Proof.
  revert st. induction inp as [|b inp IH]; intros st H; [easy|]. simpl. apply IH.
  unfold absorb_byte. destruct (Nat.eqb_spec (S (snd st)) r); simpl; lia.
Qed.

Lemma keccak_absorb_pos s pos r inp : (pos < r)%nat -> (snd (keccak_absorb s pos r inp) < r)%nat.
Proof. intros H. rewrite keccak_absorb_spec by easy. now apply absorb_spec_pos. Qed.

(** ** The one-shot absorption *)

(** A byte moved to byte position [j] of a 64-bit lane. *)
Lemma u64_shiftl_byte b j :
  is_byte b -> (j < 8)%nat ->
  u64 (Z.shiftl b (8 * Z.of_nat j)) = Z.shiftl b (8 * Z.of_nat j).
Proof.
  intros Hb Hj. apply u64_small. unfold is_byte in Hb. rewrite Z.shiftl_mul_pow2 by lia.
  split; [apply Z.mul_nonneg_nonneg; [lia|apply Z.pow_nonneg; lia]|].
  assert (2 ^ (8 * Z.of_nat j) <= 2 ^ 56) by (apply Z.pow_le_mono_r; lia). pow2. nia.
Qed.

(** Bytes [0 .. n-1] of a little-endian word, combined with [lor] or [lxor]. *)
Definition lor_word (x : list Z) (n : nat) : Z :=
  foldl (fun r i => Z.lor r (u64 (Z.shiftl (get x i) (8 * Z.of_nat i)))) 0 (seq 0 n).

Definition lxor_word (x : list Z) (c : Z) (n : nat) : Z :=
  foldl (fun r i => Z.lxor r (u64 (Z.shiftl (get x i) (8 * Z.of_nat i)))) c (seq 0 n).

Lemma lor_word_S x n :
  lor_word x (S n) = Z.lor (lor_word x n) (u64 (Z.shiftl (get x n) (8 * Z.of_nat n))).
Proof. unfold lor_word. now rewrite seq_S, foldl_snoc. Qed.

Lemma lxor_word_S x c n :
  lxor_word x c (S n) = Z.lxor (lxor_word x c n) (u64 (Z.shiftl (get x n) (8 * Z.of_nat n))).
Proof. unfold lxor_word. now rewrite seq_S, foldl_snoc. Qed.

Lemma lor_word_bound x n :
  bytes x -> (n <= 8)%nat -> (8 <= length x)%nat -> 0 <= lor_word x n < 2 ^ (8 * Z.of_nat n).
Proof.
  intros Hx Hn Hl. induction n as [|n IH]; [simpl; unfold lor_word; simpl; lia|].
  specialize (IH ltac:(lia)).
  assert (Hb : is_byte (get x n)) by (apply get_Forall; [exact Hx|lia]).
  rewrite lor_word_S, u64_shiftl_byte, lor_shiftl_add by (easy || lia).
  rewrite Nat2Z.inj_succ. replace (8 * Z.succ (Z.of_nat n)) with (8 * Z.of_nat n + 8) by lia.
  rewrite Z.pow_add_r by lia. unfold is_byte in Hb.
  assert (0 < 2 ^ (8 * Z.of_nat n)) by (apply Z.pow_pos_nonneg; lia). pow2. nia.
Qed.

Lemma lxor_lor_word x c n :
  bytes x -> (n <= 8)%nat -> (8 <= length x)%nat -> Z.lxor c (lor_word x n) = lxor_word x c n.
Proof.
  intros Hx Hn Hl. induction n as [|n IH]; [apply Z.lxor_0_r|].
  assert (Hb : is_byte (get x n)) by (apply get_Forall; [exact Hx|lia]).
  rewrite lxor_word_S, <- IH, lor_word_S, Z.lxor_assoc by lia. f_equal.
  rewrite u64_shiftl_byte by (easy || lia). symmetry. apply Z.lxor_lor.
  apply land_shiftl_small; [lia|]. apply lor_word_bound; easy || lia.
Qed.

Lemma xor_bytes_lane s i (x : list Z) n :
  (i < length s)%nat -> (n <= 8)%nat -> (8 <= length x)%nat ->
  xor_bytes s (8 * i) (take n x) =
  <[i := lxor_word x (get s i) n]> s.
Proof.
  intros Hi. induction n as [|n IH]; intros Hn Hl.
  - simpl. symmetry. apply list_insert_id. now apply get_lookup.
  - specialize (IH ltac:(lia) Hl).
    rewrite (take_S_r _ _ (get x n)) by (apply get_lookup; lia).
    assert (Happ : forall bs s k b, xor_bytes s k (bs ++ [b]) = xor_byte (xor_bytes s k bs) (k + length bs) b).
    { clear. induction bs as [|c bs IH]; intros s k b; simpl; [now rewrite Nat.add_0_r|].
      rewrite IH. f_equal. lia. }
    rewrite Happ, IH, length_take. replace (n `min` length x)%nat with n by lia.
    unfold xor_byte. rewrite nat_div_cell, nat_mod_cell by lia.
    rewrite get_insert_eq by easy. now rewrite list_insert_insert_eq, lxor_word_S.
Qed.

Lemma xor_bytes_app s k a b :
  xor_bytes s k (a ++ b) = xor_bytes (xor_bytes s k a) (k + length a) b.
Proof.
  revert s k. induction a as [|x a IH]; intros s k; simpl; [now rewrite Nat.add_0_r|].
  rewrite IH. f_equal. lia.
Qed.

Lemma xor_bytes_length s k a : length (xor_bytes s k a) = length s.
Proof.
  revert s k. induction a as [|x a IH]; intros s k; simpl; [easy|].
  rewrite IH. apply length_insert.
Qed.

Lemma xor_block_bytes s inp : bytes inp -> forall n,
  (n <= length s)%nat -> (8 * n <= length inp)%nat ->
  foldl (fun s i => <[i := Z.lxor (get s i) (load64 (drop (8 * i) inp))]> s) s (seq 0 n) =
  xor_bytes s 0 (take (8 * n) inp).
Proof.
  intros Hb. induction n as [|n IH]; intros Hn Hl; [easy|].
  rewrite seq_S, foldl_snoc, IH by lia. cbn [Nat.add].
  set (x := drop (8 * n) inp).
  assert (Hx : (8 <= length x)%nat) by (unfold x; rewrite length_drop; lia).
  replace (take (8 * S n) inp) with (take (8 * n) inp ++ take 8 x)
    by (unfold x; rewrite take_take_drop; f_equal; lia).
  rewrite xor_bytes_app, length_take. replace (0 + (8 * n) `min` length inp)%nat with (8 * n)%nat by lia.
  rewrite xor_bytes_lane by (rewrite ?xor_bytes_length; lia).
  rewrite <- lxor_lor_word; [reflexivity|now apply Forall_drop|lia|easy].
Qed.

(** A rate of the code: a positive multiple of 8 bytes within the state. *)
Definition good_rate (r : nat) : Prop := exists n, r = (8 * n)%nat /\ (0 < n <= 25)%nat.

Lemma permute_length s : length s = 25%nat -> length (permute s) = 25%nat.
Proof. intros H. rewrite StatePermute_keccak_f by easy. now apply keccak_f_length. Qed.

Lemma absorb_once_loop_spec r : good_rate r -> forall fuel s inp,
  length s = 25%nat -> bytes inp -> (length inp < fuel)%nat ->
  let '(s', inp') := keccak_absorb_once_loop fuel s r inp in
  absorb_spec r (s, 0%nat) inp = absorb_spec r (s', 0%nat) inp' /\
  (length inp' < r)%nat /\ length s' = 25%nat.
Proof.
  intros (n & -> & Hn). induction fuel as [|fuel IH]; intros s inp Hs Hb Hf; [lia|].
  cbn [keccak_absorb_once_loop]. destruct (Nat.leb_spec (8 * n) (length inp)); [|easy].
  assert (E : xor_block s (8 * n) inp = xor_bytes s 0 (take (8 * n) inp)).
  { unfold xor_block. rewrite Nat.mul_comm, Nat.div_mul by lia. rewrite Nat.mul_comm.
    apply xor_block_bytes; [easy|lia|easy]. }
  rewrite E. set (s1 := xor_bytes s 0 (take (8 * n) inp)).
  specialize (IH (permute s1) (drop (8 * n) inp)).
  specialize (IH ltac:(apply permute_length; unfold s1; now rewrite xor_bytes_length)
                 ltac:(now apply Forall_drop) ltac:(rewrite length_drop; lia)).
  destruct (keccak_absorb_once_loop _ _ _ _) as [s' inp']. destruct IH as [IH1 IH2].
  split; [|easy]. rewrite <- IH1. rewrite <- (take_drop (8 * n) inp) at 1.
  rewrite absorb_spec_app. f_equal.
  assert (Hl : length (take (8 * n) inp) = (8 * n)%nat) by (rewrite length_take; lia).
  apply absorb_spec_block; [lia|]. intros E0. rewrite E0 in Hl. simpl in Hl. lia.
Qed.

(** [keccak_absorb_once] is initialise, absorb, finalise. *)
Lemma absorb_once_spec r inp p :
  good_rate r -> bytes inp ->
  keccak_absorb_once r inp p =
  let '(s, pos) := absorb_spec r (keccak_init, 0%nat) inp in keccak_finalize s pos r p.
Proof.
  intros Hr Hb. unfold keccak_absorb_once.
  pose proof (absorb_once_loop_spec r Hr (S (length inp)) keccak_init inp eq_refl Hb ltac:(lia)) as E.
  change (replicate 25 0) with keccak_init.
  destruct (keccak_absorb_once_loop _ _ _ _) as [s' inp']. destruct E as (E1 & E2 & E3).
  rewrite E1, absorb_spec_short by lia. unfold keccak_finalize. cbn [Nat.add].
  destruct Hr as (n & -> & Hn).
  replace ((8 * n - 1) / 8)%nat with (8 * n / 8 - 1)%nat; [easy|].
  rewrite (Nat.mul_comm 8 n), Nat.div_mul by lia.
  replace (n * 8 - 1)%nat with (8 * (n - 1) + 7)%nat by lia. rewrite nat_div_cell; lia.
Qed.

(** ** Squeezing byte by byte *)

Fixpoint squeeze_spec (r outlen : nat) (s : list Z) (pos : nat) : list Z * (list Z * nat) :=
  match outlen with
  | O => ([], (s, pos))
  | S outlen =>
      let '(s, pos) := if (pos =? r)%nat then (permute s, 0%nat) else (s, pos) in
      let '(out, st) := squeeze_spec r outlen s (S pos) in
      (state_byte s pos :: out, st)
  end.

Lemma squeeze_spec_app r n m s pos :
  squeeze_spec r (n + m) s pos =
  let '(out, (s, pos)) := squeeze_spec r n s pos in
  let '(out', st) := squeeze_spec r m s pos in (out ++ out', st).
Proof.
  revert s pos. induction n as [|n IH]; intros s pos; cbn [Nat.add squeeze_spec].
  - now destruct (squeeze_spec r m s pos).
  - destruct (if (pos =? r)%nat then _ else _) as [s1 pos1]. rewrite IH.
    destruct (squeeze_spec r n s1 (S pos1)) as [out [s2 pos2]].
    now destruct (squeeze_spec r m s2 pos2).
Qed.

Lemma squeeze_spec_run r n : forall s pos,
  (pos + n <= r)%nat ->
  squeeze_spec r n s pos = (map (state_byte s) (seq pos n), (s, (pos + n)%nat)).
Proof.
  induction n as [|n IH]; intros s pos H; cbn [squeeze_spec seq map].
  - now rewrite Nat.add_0_r.
  - destruct (Nat.eqb_spec pos r); [lia|]. rewrite IH by lia. do 2 f_equal. lia.
Qed.

Lemma squeeze_spec_wrap r n s :
  (0 < r)%nat -> (0 < n)%nat -> squeeze_spec r n s r = squeeze_spec r n (permute s) 0.
Proof.
  intros Hr Hn. destruct n as [|n]; [lia|]. cbn [squeeze_spec]. rewrite Nat.eqb_refl.
  now destruct (Nat.eqb_spec 0 r); [lia|].
Qed.

Lemma squeeze_loop_spec r : (0 < r)%nat -> forall fuel outlen s pos out,
  (pos <= r)%nat -> (outlen < fuel)%nat ->
  keccak_squeeze_loop fuel outlen s pos r out =
  let '(out', (s', pos')) := squeeze_spec r outlen s pos in (out ++ out', s', pos').
Proof.
  intros Hr. induction fuel as [|fuel IH]; intros outlen s pos out Hp Hf; [lia|].
  cbn [keccak_squeeze_loop]. destruct (Nat.eqb_spec outlen 0) as [->|Hne].
  { cbn. now rewrite app_nil_r. }
  assert (Hgen : forall s pos, (pos < r)%nat ->
    keccak_squeeze_loop fuel (outlen - Nat.min (r - pos) outlen) s
      (pos + Nat.min (r - pos) outlen) r
      (out ++ map (state_byte s) (seq pos (Nat.min (r - pos) outlen))) =
    let '(out', (s', pos')) := squeeze_spec r outlen s pos in (out ++ out', s', pos')).
  { clear s pos Hp. intros s pos Hp. set (n := Nat.min (r - pos) outlen).
    assert (Hn : (0 < n <= outlen /\ pos + n <= r)%nat) by (unfold n; lia). clearbody n.
    rewrite IH by lia. pose proof (squeeze_spec_app r n (outlen - n) s pos) as E.
    rewrite (squeeze_spec_run r n s pos) in E by lia.
    replace (n + (outlen - n))%nat with outlen in E by lia. rewrite E.
    destruct (squeeze_spec r (outlen - n) s (pos + n)) as [out' [s' pos']].
    now rewrite app_assoc. }
  destruct (Nat.eqb_spec pos r) as [->|Hpr].
  - rewrite Hgen by lia. now rewrite squeeze_spec_wrap by lia.
  - apply Hgen. lia.
Qed.

Lemma keccak_squeeze_spec outlen s pos r :
  (0 < r)%nat -> (pos <= r)%nat ->
  keccak_squeeze outlen s pos r =
  let '(out, (s', pos')) := squeeze_spec r outlen s pos in (out, s', pos').
Proof.
  intros Hr Hp. unfold keccak_squeeze. rewrite squeeze_loop_spec by lia.
  now destruct (squeeze_spec r outlen s pos) as [out [s' pos']].
Qed.

Lemma store64_bytes s n :
  concat (map (fun i => store64 (get s i)) (seq 0 n)) = map (state_byte s) (seq 0 (8 * n)).
Proof.
  induction n as [|n IH]; [easy|].
  rewrite seq_S, map_app, concat_app, IH. replace (8 * S n)%nat with (8 * n + 8)%nat by lia.
  rewrite seq_app, map_app. f_equal. cbn [map concat]. rewrite app_nil_r.
  unfold store64. cbn [Nat.add]. replace (seq (8 * n) 8) with (map (Nat.add (8 * n)) (seq 0 8))
    by (rewrite <- (Nat.add_0_r (8 * n)) at 2; exact (fmap_add_seq (8 * n) 0 8)).
  rewrite map_map. apply map_ext_in. intros i Hi%in_seq.
  unfold state_byte. now rewrite nat_div_cell, nat_mod_cell by lia.
Qed.

(** Whole blocks: from a full block ([pos = r]) the block-wise squeeze is the
    byte-wise one and leaves a full block. *)
Lemma squeezeblocks_spec n m : (0 < m <= 25)%nat -> forall s,
  squeeze_spec (8 * m) (n * (8 * m)) s (8 * m) =
  let '(out, s') := keccak_squeezeblocks n s (8 * m) in (out, (s', (8 * m)%nat)).
Proof.
  intros Hm. induction n as [|n IH]; intros s; [easy|].
  cbn [keccak_squeezeblocks]. replace (S n * (8 * m))%nat with (8 * m + n * (8 * m))%nat by lia.
  rewrite squeeze_spec_app.
  rewrite squeeze_spec_wrap, squeeze_spec_run by lia. cbn [Nat.add]. rewrite IH.
  replace (8 * m / 8)%nat with m by (rewrite Nat.mul_comm, Nat.div_mul; lia).
  rewrite store64_bytes. now destruct (keccak_squeezeblocks n (permute s) (8 * m)).
Qed.

Lemma squeeze_spec_length r n s pos : length (fst (squeeze_spec r n s pos)) = n.
Proof.
  revert s pos. induction n as [|n IH]; intros s pos; [easy|]. cbn [squeeze_spec].
  destruct (if (pos =? r)%nat then _ else _) as [s1 pos1].
  specialize (IH s1 (S pos1)). destruct (squeeze_spec r n s1 (S pos1)). simpl in *. lia.
Qed.

(** ** The sponge of FIPS 202 on byte strings *)

(** The padding: the domain byte, zeros, and a final bit in the last byte. *)
Definition pad (r len : nat) (p : Z) : list Z :=
  let k := (r - 1 - len mod r)%nat in
  if (k =? 0)%nat then [Z.lxor p 128] else p :: replicate (k - 1) 0 ++ [128].

(** XOR a block into the state and permute, for every block. *)
Fixpoint absorb_blocks (n r : nat) (s : list Z) (m : list Z) : list Z :=
  match n with
  | O => s
  | S n => absorb_blocks n r (keccak_f (xor_bytes s 0 (take r m))) (drop r m)
  end.

(** [outlen] bytes of the sponge on [m] with rate [r] and domain byte [p]: the
    state after the padded message, then [r] bytes per permutation. *)
Fixpoint squeeze_blocks (n r : nat) (s : list Z) : list Z :=
  match n with
  | O => []
  | S n => map (state_byte s) (seq 0 r) ++ squeeze_blocks n r (keccak_f s)
  end.

Definition sponge (r : nat) (p : Z) (m : list Z) (outlen : nat) : list Z :=
  let padded := m ++ pad r (length m) p in
  let s := absorb_blocks (length padded / r) r keccak_init padded in
  take outlen (squeeze_blocks (S (outlen / r)) r s).

Lemma xor_byte_0 s i : xor_byte s i 0 = s.
Proof.
  unfold xor_byte. rewrite Z.shiftl_0_l. change (u64 0) with 0. rewrite Z.lxor_0_r.
  destruct (Nat.lt_ge_cases (i / 8) (length s)).
  - apply list_insert_id. now apply get_lookup.
  - now apply list_insert_ge.
Qed.

Lemma xor_bytes_zeros s i n : xor_bytes s i (replicate n 0) = s.
Proof.
  revert s i. induction n as [|n IH]; intros s i; cbn [replicate xor_bytes]; [easy|].
  now rewrite xor_byte_0.
Qed.

(** XORing the padding in is [keccak_finalize]. *)
Lemma xor_bytes_pad s r len p :
  good_rate r -> length s = 25%nat -> 0 <= p < 128 ->
  xor_bytes s (len mod r) (pad r len p) = keccak_finalize s (len mod r) r p.
Proof.
  intros (n & -> & Hn) Hs Hp.
  pose proof (Nat.mod_upper_bound len (8 * n) ltac:(lia)) as Hpos.
  set (pos := (len mod (8 * n))%nat) in *.
  assert (Hlast : forall s, length s = 25%nat ->
    xor_byte s (8 * n - 1) 128 =
    <[(8 * n / 8 - 1)%nat := Z.lxor (get s (8 * n / 8 - 1)) (Z.shiftl 1 63)]> s).
  { clear -Hn. intros s Hs. unfold xor_byte.
    destruct n as [|n]; [lia|].
    replace (8 * S n - 1)%nat with (8 * n + 7)%nat by lia.
    rewrite nat_div_cell, nat_mod_cell by lia.
    replace (8 * S n / 8 - 1)%nat with n by (rewrite Nat.mul_comm, Nat.div_mul; lia).
    reflexivity. }
  unfold pad. fold pos. unfold keccak_finalize. destruct (Nat.eqb_spec (8 * n - 1 - pos) 0).
  - cbn [xor_bytes]. rewrite <- Hlast by now rewrite length_insert.
    replace (8 * n - 1)%nat with pos by lia. unfold xor_byte.
    assert (Hi : (pos / 8 < length s)%nat) by (rewrite Hs; apply Nat.Div0.div_lt_upper_bound; lia).
    rewrite get_insert_eq, list_insert_insert_eq by easy. f_equal.
    rewrite Z.lxor_assoc. f_equal.
    assert (Hx : Z.lxor p 128 = p + 128).
    { rewrite Z.add_nocarry_lxor; [easy|]. apply (land_shiftl_small p 1 7); lia. }
    assert (Hm : (pos mod 8 < 8)%nat) by (apply Nat.mod_upper_bound; lia).
    rewrite !u64_shiftl_byte by (unfold is_byte; lia).
    now rewrite Z.shiftl_lxor.
  - cbn [xor_bytes]. rewrite xor_bytes_app, xor_bytes_zeros, length_replicate.
    cbn [xor_bytes]. replace (S pos + (8 * n - 1 - pos - 1))%nat with (8 * n - 1)%nat by lia.
    apply Hlast. unfold xor_byte. now rewrite length_insert.
Qed.

Lemma absorb_spec_state r st m :
  length (fst st) = 25%nat -> length (fst (absorb_spec r st m)) = 25%nat.
Proof.
  revert st. induction m as [|b m IH]; intros [s pos] H; [easy|].
  rewrite absorb_spec_cons. apply IH. cbn [fst] in H. unfold xor_byte.
  destruct (S pos =? r)%nat; cbn [fst]; [apply permute_length|]; now rewrite length_insert.
Qed.

Lemma absorb_spec_mod r s m : (0 < r)%nat -> forall pos, (pos < r)%nat ->
  snd (absorb_spec r (s, pos) m) = ((pos + length m) mod r)%nat.
Proof.
  intros Hr. revert s. induction m as [|b m IH]; intros s pos Hp.
  - cbn. now rewrite Nat.add_0_r, Nat.mod_small.
  - rewrite absorb_spec_cons. cbn [length]. destruct (Nat.eqb_spec (S pos) r) as [<-|].
    + rewrite IH by lia. replace (pos + S (length m))%nat with (0 + length m + 1 * S pos)%nat by lia.
      now rewrite Nat.Div0.mod_add.
    + rewrite IH by lia. f_equal. lia.
Qed.

Lemma pad_length r len p : (0 < r)%nat -> length (pad r len p) = (r - len mod r)%nat.
Proof.
  intros Hr. pose proof (Nat.mod_upper_bound len r ltac:(lia)). unfold pad.
  destruct (Nat.eqb_spec (r - 1 - len mod r) 0); simpl; [lia|].
  rewrite length_app, length_replicate. simpl. lia.
Qed.

Lemma absorb_spec_blocks r : (0 < r)%nat -> forall n s m,
  length s = 25%nat -> length m = (n * r)%nat ->
  absorb_spec r (s, 0%nat) m = (absorb_blocks n r s m, 0%nat).
Proof.
  intros Hr. induction n as [|n IH]; intros s m Hs Hm.
  - destruct m; [easy|simpl in Hm; lia].
  - cbn [absorb_blocks]. rewrite <- (take_drop r m) at 1. rewrite absorb_spec_app.
    assert (Hl : length (take r m) = r) by (rewrite length_take; lia).
    rewrite absorb_spec_block; [|lia|intros E; rewrite E in Hl; simpl in Hl; lia].
    rewrite StatePermute_keccak_f by now rewrite xor_bytes_length.
    apply IH; [apply keccak_f_length; now rewrite xor_bytes_length|rewrite length_drop; lia].
Qed.

(** The state after the one-shot absorption of [m], permuted once, is the
    state of the sponge on the padded message. *)
Lemma absorb_once_sponge r m p :
  good_rate r -> bytes m -> 0 <= p < 128 ->
  permute (keccak_absorb_once r m p) =
  absorb_blocks (length (m ++ pad r (length m) p) / r) r keccak_init (m ++ pad r (length m) p).
Proof.
  intros Hr Hm Hp. assert (Hr0 : (0 < r)%nat) by (destruct Hr as (n & -> & ?); lia).
  set (padded := m ++ _).
  assert (Hlen : exists n, length padded = (n * r)%nat).
  { exists (length m / r + 1)%nat. unfold padded. rewrite length_app, pad_length by easy.
    pose proof (Nat.mod_upper_bound (length m) r ltac:(lia)).
    pose proof (Nat.div_mod_eq (length m) r). nia. }
  destruct Hlen as [n Hlen]. rewrite Hlen, Nat.div_mul by lia.
  pose proof (absorb_spec_blocks r Hr0 n keccak_init padded eq_refl Hlen) as E.
  unfold padded in E at 1. rewrite absorb_spec_app in E.
  rewrite absorb_once_spec by easy.
  pose proof (absorb_spec_mod r keccak_init m Hr0 0%nat Hr0) as Hpos.
  pose proof (absorb_spec_state r (keccak_init, 0%nat) m eq_refl) as Hs.
  destruct (absorb_spec r (keccak_init, 0%nat) m) as [s pos]. simpl in Hpos, Hs. subst pos.
  pose proof (Nat.mod_upper_bound (length m) r ltac:(lia)).
  rewrite absorb_spec_block in E.
  - rewrite xor_bytes_pad in E by easy. congruence.
  - rewrite pad_length; lia.
  - intros E0. apply (f_equal length) in E0. rewrite pad_length in E0 by easy. simpl in E0. lia.
Qed.

Lemma squeeze_blocks_spec r : (0 < r)%nat -> forall n s,
  length s = 25%nat -> fst (squeeze_spec r (n * r) s r) = squeeze_blocks n r (keccak_f s).
Proof.
  intros Hr. induction n as [|n IH]; intros s Hs; [easy|].
  cbn [squeeze_blocks]. replace (S n * r)%nat with (r + n * r)%nat by lia.
  rewrite squeeze_spec_app, squeeze_spec_wrap, squeeze_spec_run by lia. cbn [Nat.add].
  rewrite StatePermute_keccak_f by easy.
  specialize (IH (keccak_f s) (keccak_f_length s Hs)).
  destruct (squeeze_spec r (n * r) (keccak_f s) r). simpl in *. now subst.
Qed.

Lemma squeeze_prefix r n k s pos :
  fst (squeeze_spec r n s pos) = take n (fst (squeeze_spec r (n + k) s pos)).
Proof.
  rewrite squeeze_spec_app. pose proof (squeeze_spec_length r n s pos) as H.
  destruct (squeeze_spec r n s pos) as [out [s' pos']].
  destruct (squeeze_spec r k s' pos') as [out' st]. simpl in *.
  now rewrite take_app_length'.
Qed.

(** Byte-wise squeezing after the one-shot absorption is the sponge. *)
Lemma squeeze_sponge r m p outlen :
  good_rate r -> bytes m -> 0 <= p < 128 ->
  fst (squeeze_spec r outlen (keccak_absorb_once r m p) r) = sponge r p m outlen.
Proof.
  intros Hr Hm Hp. assert (Hr0 : (0 < r)%nat) by (destruct Hr as (n & -> & ?); lia).
  assert (Hs : length (keccak_absorb_once r m p) = 25%nat).
  { rewrite absorb_once_spec by easy.
    pose proof (absorb_spec_state r (keccak_init, 0%nat) m eq_refl) as Hs.
    destruct (absorb_spec r (keccak_init, 0%nat) m). unfold keccak_finalize.
    now rewrite !length_insert. }
  unfold sponge. rewrite <- absorb_once_sponge by easy.
  rewrite StatePermute_keccak_f by easy. rewrite <- squeeze_blocks_spec by easy.
  pose proof (Nat.div_mod_eq outlen r). pose proof (Nat.mod_upper_bound outlen r ltac:(lia)).
  rewrite (squeeze_prefix r outlen (S (outlen / r) * r - outlen)). do 3 f_equal. nia.
Qed.


(** ** The functions of fips202.h against the sponge *)

Lemma absorb_once_length r m p :
  good_rate r -> bytes m -> length (keccak_absorb_once r m p) = 25%nat.
Proof.
  intros Hr Hm. rewrite absorb_once_spec by easy.
  pose proof (absorb_spec_state r (keccak_init, 0%nat) m eq_refl) as Hs.
  destruct (absorb_spec r (keccak_init, 0%nat) m). unfold keccak_finalize.
  now rewrite !length_insert.
Qed.

(** Squeezing whole blocks and then the remainder is squeezing byte by byte. *)
Lemma blocks_then_rest m outlen s :
  (0 < m <= 25)%nat ->
  (let '(out, s') := keccak_squeezeblocks (outlen / (8 * m)) s (8 * m) in
   let '(out', _, _) := keccak_squeeze (outlen - outlen / (8 * m) * (8 * m)) s' (8 * m) (8 * m) in
   out ++ out') = fst (squeeze_spec (8 * m) outlen s (8 * m)).
Proof.
  intros Hm. pose proof (Nat.div_mod_eq outlen (8 * m)) as Hdm.
  pose proof (squeeze_spec_app (8 * m) (outlen / (8 * m) * (8 * m))
                (outlen - outlen / (8 * m) * (8 * m)) s (8 * m)) as E.
  replace (outlen / (8 * m) * (8 * m) + (outlen - outlen / (8 * m) * (8 * m)))%nat
    with outlen in E by nia.
  rewrite E, squeezeblocks_spec by easy.
  destruct (keccak_squeezeblocks _ s _) as [out s']. rewrite keccak_squeeze_spec by lia.
  now destruct (squeeze_spec _ _ s' _) as [out' [? ?]].
Qed.

Lemma shake128_squeeze_spec outlen inp :
  shake128 outlen inp =
  fst (squeeze_spec SHAKE128_RATE outlen (keccak_absorb_once SHAKE128_RATE inp 0x1F) SHAKE128_RATE).
Proof.
  unfold shake128, shake128_squeezeblocks, shake128_absorb_once, shake128_squeeze. cbn [ks_s ks_pos].
  rewrite <- (blocks_then_rest 21 outlen) by lia. change (8 * 21)%nat with SHAKE128_RATE.
  destruct (keccak_squeezeblocks _ _ _) as [out s]. cbn [ks_s ks_pos].
  now destruct (keccak_squeeze _ _ _ _) as [[? ?] ?].
Qed.

Lemma shake256_squeeze_spec outlen inp :
  shake256 outlen inp =
  fst (squeeze_spec SHAKE256_RATE outlen (keccak_absorb_once SHAKE256_RATE inp 0x1F) SHAKE256_RATE).
Proof.
  unfold shake256, shake256_squeezeblocks, shake256_absorb_once, shake256_squeeze. cbn [ks_s ks_pos].
  rewrite <- (blocks_then_rest 17 outlen) by lia. change (8 * 17)%nat with SHAKE256_RATE.
  destruct (keccak_squeezeblocks _ _ _) as [out s]. cbn [ks_s ks_pos].
  now destruct (keccak_squeeze _ _ _ _) as [[? ?] ?].
Qed.

Lemma good_rate_shake128 : good_rate SHAKE128_RATE.
Proof. exists 21%nat. split; [reflexivity|lia]. Qed.
Lemma good_rate_shake256 : good_rate SHAKE256_RATE.
Proof. exists 17%nat. split; [reflexivity|lia]. Qed.
Lemma good_rate_sha3_256 : good_rate SHA3_256_RATE.
Proof. exists 17%nat. split; [reflexivity|lia]. Qed.
Lemma good_rate_sha3_512 : good_rate SHA3_512_RATE.
Proof. exists 9%nat. split; [reflexivity|lia]. Qed.
#[export] Hint Resolve good_rate_shake128 good_rate_shake256 good_rate_sha3_256
  good_rate_sha3_512 : kyber.

(** A digest shorter than the rate is the start of the permuted state. *)
Lemma digest_sponge r m p n :
  good_rate r -> bytes m -> 0 <= p < 128 -> (8 * n <= r)%nat -> (0 < n)%nat ->
  concat (map (fun i => store64 (get (permute (keccak_absorb_once r m p)) i)) (seq 0 n)) =
  sponge r p m (8 * n).
Proof.
  intros Hr Hm Hp Hn H0. rewrite <- squeeze_sponge by easy.
  rewrite squeeze_spec_wrap, squeeze_spec_run, store64_bytes by lia. reflexivity.
Qed.

Lemma shake256_length outlen inp : length (shake256 outlen inp) = outlen.
Proof. rewrite shake256_squeeze_spec. apply squeeze_spec_length. Qed.

Lemma shake128_length outlen inp : length (shake128 outlen inp) = outlen.
Proof. rewrite shake128_squeeze_spec. apply squeeze_spec_length. Qed.

Lemma state_byte_is_byte s i : is_byte (state_byte s i).
Proof. apply u8_range. Qed.

Lemma squeeze_spec_bytes r n s pos : bytes (fst (squeeze_spec r n s pos)).
Proof.
  revert s pos. induction n as [|n IH]; intros s pos; [constructor|]. cbn [squeeze_spec].
  destruct (if (pos =? r)%nat then _ else _) as [s1 pos1].
  specialize (IH s1 (S pos1)). destruct (squeeze_spec r n s1 (S pos1)).
  constructor; [apply state_byte_is_byte|exact IH].
Qed.

Lemma shake256_bytes outlen inp : bytes (shake256 outlen inp).
Proof. rewrite shake256_squeeze_spec. apply squeeze_spec_bytes. Qed.

(** Absorbing pieces with [shake256_absorb] and squeezing pieces with
    [shake256_squeeze]. *)
Fixpoint shake256_squeeze_all (lens : list nat) (st : keccak_state) : list Z :=
  match lens with
  | [] => []
  | n :: lens => let '(out, st) := shake256_squeeze n st in out ++ shake256_squeeze_all lens st
  end.

Lemma shake256_absorb_all chunks : forall s pos,
  (pos < SHAKE256_RATE)%nat ->
  let st := foldl shake256_absorb {| ks_s := s; ks_pos := pos |} chunks in
  (ks_s st, ks_pos st) = absorb_spec SHAKE256_RATE (s, pos) (concat chunks).
Proof.
  induction chunks as [|c chunks IH]; intros s pos H; [reflexivity|].
  cbn [foldl concat]. rewrite absorb_spec_app.
  pose proof (keccak_absorb_pos s pos SHAKE256_RATE c H) as Hp.
  assert (E : shake256_absorb {| ks_s := s; ks_pos := pos |} c =
    {| ks_s := fst (keccak_absorb s pos SHAKE256_RATE c);
       ks_pos := snd (keccak_absorb s pos SHAKE256_RATE c) |}).
  { unfold shake256_absorb. cbn [ks_s ks_pos]. now destruct (keccak_absorb s pos _ c). }
  rewrite E, <- keccak_absorb_spec by easy.
  destruct (keccak_absorb s pos SHAKE256_RATE c) as [s' pos']. now apply IH.
Qed.

Lemma shake256_squeeze_all_spec lens : forall s pos, (pos <= SHAKE256_RATE)%nat ->
  shake256_squeeze_all lens {| ks_s := s; ks_pos := pos |} =
  fst (squeeze_spec SHAKE256_RATE (sum_list lens) s pos).
Proof.
  induction lens as [|n lens IH]; intros s pos H; [reflexivity|].
  cbn [shake256_squeeze_all]. change (sum_list (n :: lens)) with (n + sum_list lens)%nat.
  rewrite squeeze_spec_app.
  unfold shake256_squeeze. cbn [ks_s ks_pos].
  rewrite keccak_squeeze_spec by first [exact H|unfold SHAKE256_RATE; lia].
  assert (Hp : (snd (snd (squeeze_spec SHAKE256_RATE n s pos)) <= SHAKE256_RATE)%nat).
  { clear IH. revert s pos H. induction n as [|n IHn]; intros s pos H; [exact H|].
    cbn [squeeze_spec]. destruct (Nat.eqb_spec pos SHAKE256_RATE) as [E|E].
    - specialize (IHn (permute s) 1%nat ltac:(unfold SHAKE256_RATE; lia)).
      now destruct (squeeze_spec SHAKE256_RATE n (permute s) 1).
    - specialize (IHn s (S pos) ltac:(lia)).
      now destruct (squeeze_spec SHAKE256_RATE n s (S pos)). }
  destruct (squeeze_spec SHAKE256_RATE n s pos) as [out [s' pos']]. cbn [snd] in Hp.
  rewrite IH by easy. now destruct (squeeze_spec SHAKE256_RATE (sum_list lens) s' pos').
Qed.

(** ** Claims *)

(** C29: the permutation of fips202.c, written as twelve passes of two unrolled
    rounds with the lanes in local variables, is Keccak-f[1600] of FIPS 202:
    twenty-four rounds of theta, rho, pi, chi and iota, with the rotation and the
    complement given by arithmetic, the offsets by the walk and the round constants
    by the shift register. *)
Theorem KeccakF1600_correct (s : list Z) :
  length s = 25%nat -> KeccakF1600_StatePermute s = keccak_f s.
Proof. apply StatePermute_keccak_f. Qed.

Lemma KeccakF1600_correct_witness :
  length keccak_init = 25%nat /\ KeccakF1600_StatePermute keccak_init = keccak_f keccak_init.
Proof. split; [reflexivity|]. apply KeccakF1600_correct. reflexivity. Defined.

(** C30: the four functions the KEM hashes with are the sponge of FIPS 202: pad the
    message, absorb it block by block, squeeze; SHAKE with domain byte 0x1F and any
    output length, SHA3 with domain byte 0x06 and its fixed length; the rates are
    168, 136, 136 and 72 bytes. *)
Theorem fips202_sponge (m : list Z) (outlen : nat) :
  bytes m ->
  shake128 outlen m = sponge 168 0x1F m outlen /\
  shake256 outlen m = sponge 136 0x1F m outlen /\
  sha3_256_kyber m = sponge 136 0x06 m 32 /\
  sha3_512_kyber m = sponge 72 0x06 m 64.
Proof.
  change 168%nat with SHAKE128_RATE. change 72%nat with SHA3_512_RATE.
  intros Hm. rewrite shake128_squeeze_spec, shake256_squeeze_spec.
  rewrite !squeeze_sponge by (auto with kyber; lia).
  repeat split; [apply (digest_sponge SHA3_256_RATE m 6 4)|apply (digest_sponge SHA3_512_RATE m 6 8)];
    auto with kyber; unfold SHA3_256_RATE, SHA3_512_RATE; lia.
Qed.

Lemma fips202_sponge_witness :
  bytes [1; 2; 255] /\
  shake256 3 [1; 2; 255] = sponge 136 0x1F [1; 2; 255] 3.
Proof.
  assert (H : bytes [1; 2; 255]) by (repeat constructor; unfold is_byte; lia).
  split; [exact H|]. exact (proj1 (proj2 (fips202_sponge _ 3 H))).
Defined.

(** the incremental interface does not depend on how a caller cuts its data:
    absorbing any pieces and squeezing any pieces gives what one call of [shake256]
    gives on the concatenated input, for the summed output length. *)
Theorem shake256_incremental (chunks : list (list Z)) (lens : list nat) :
  bytes (concat chunks) ->
  shake256_squeeze_all lens (shake256_finalize (foldl shake256_absorb shake256_init chunks)) =
  shake256 (sum_list lens) (concat chunks).
Proof.
  intros Hb. unfold shake256_finalize. rewrite shake256_squeeze_all_spec by easy.
  rewrite shake256_squeeze_spec, absorb_once_spec by auto with kyber.
  pose proof (shake256_absorb_all chunks keccak_init 0 ltac:(unfold SHAKE256_RATE; lia)) as E.
  change {| ks_s := keccak_init; ks_pos := 0 |} with shake256_init in E. cbv zeta in E.
  now rewrite <- E.
Qed.

Lemma shake256_incremental_witness :
  bytes (concat [[1]; [2; 3]]) /\
  shake256_squeeze_all [1; 2]%nat (shake256_finalize (foldl shake256_absorb shake256_init [[1]; [2; 3]])) =
  shake256 (sum_list [1; 2]%nat) (concat [[1]; [2; 3]]).
Proof.
  assert (H : bytes (concat [[1]; [2; 3]])) by (repeat constructor; unfold is_byte; lia).
  split; [exact H|]. apply (shake256_incremental [[1]; [2; 3]] [1; 2]%nat H).
Defined.
