(* ===== verification/KyberSymmetric.v ===== *)
(** * Kyber: the symmetric primitives

    [crypto/kyber/symmetric.h] puts six names between the KEM and the hash
    functions: [hash_h], [hash_g], [xof_absorb], [xof_squeezeblocks], [prf] and
    [rkprf].  The class [Symmetric] is that header; the KEM is written and proved
    against it, and [shake_symmetric] is the instance the build selects, the
    functions of [symmetric-shake.c] over [fips202.c]. *)
From S2P Require Import Prelude KyberReduce Keccak KeccakSpec.

Definition XOF_BLOCKBYTES : nat := SHAKE128_RATE.

(** ** [symmetric-shake.c] *)

Definition kyber_shake128_absorb (seed : list Z) (x y : Z) : keccak_state :=
  let extseed := take KYBER_SYMBYTES seed ++ [x; y] in
  shake128_absorb_once extseed.

Definition kyber_shake256_prf (outlen : nat) (key : list Z) (nonce : Z) : list Z :=
  let extkey := take KYBER_SYMBYTES key ++ [nonce] in
  shake256 outlen extkey.

Definition kyber_shake256_rkprf (key input : list Z) : list Z :=
  let s := shake256_init in
  let s := shake256_absorb s (take KYBER_SYMBYTES key) in
  let s := shake256_absorb s (take KYBER_CIPHERTEXTBYTES input) in
  let s := shake256_finalize s in
  fst (shake256_squeeze KYBER_SSBYTES s).

(** ** The interface *)

Class Symmetric := {
  xof_state : Type;
  hash_h : list Z -> list Z;
  hash_g : list Z -> list Z;
  xof_absorb : list Z -> Z -> Z -> xof_state;
  xof_squeezeblocks : nat -> xof_state -> list Z * xof_state;
  prf : nat -> list Z -> Z -> list Z;
  rkprf : list Z -> list Z -> list Z
}.

(** What the KEM relies on: the lengths of the outputs, outputs that are bytes,
    and a squeeze that can be cut at block boundaries. *)
Class SymmetricLaws (S : Symmetric) : Prop := {
  hash_h_length m : length (hash_h m) = KYBER_SYMBYTES;
  hash_g_length m : length (hash_g m) = (2 * KYBER_SYMBYTES)%nat;
  hash_h_bytes m : bytes (hash_h m);
  hash_g_bytes m : bytes (hash_g m);
  xof_length n st : length (fst (xof_squeezeblocks n st)) = (n * XOF_BLOCKBYTES)%nat;
  xof_bytes n st : bytes (fst (xof_squeezeblocks n st));
  xof_split n m st :
    xof_squeezeblocks (n + m) st =
    let '(out, st) := xof_squeezeblocks n st in
    let '(out', st) := xof_squeezeblocks m st in (out ++ out', st);
  prf_length n k i : length (prf n k i) = n;
  prf_bytes n k i : bytes (prf n k i);
  rkprf_length k c : length (rkprf k c) = KYBER_SSBYTES;
  rkprf_bytes k c : bytes (rkprf k c)
}.

#[export] Instance shake_symmetric : Symmetric := {|
  xof_state := keccak_state;
  hash_h := sha3_256_kyber;
  hash_g := sha3_512_kyber;
  xof_absorb := kyber_shake128_absorb;
  xof_squeezeblocks := shake128_squeezeblocks;
  prf := kyber_shake256_prf;
  rkprf := kyber_shake256_rkprf
|}.

(** ** The instance satisfies the laws *)

Lemma store64_length x : length (store64 x) = 8%nat.
Proof. reflexivity. Qed.

Lemma store64_rows_length s n :
  length (concat (map (fun i => store64 (get s i)) (seq 0 n))) = (8 * n)%nat.
Proof. apply (rows_length 8 n). intros. apply store64_length. Qed.

Lemma store64_rows_bytes s n : bytes (concat (map (fun i => store64 (get s i)) (seq 0 n))).
Proof.
  rewrite store64_bytes. apply List.Forall_map, Forall_true. apply state_byte_is_byte.
Qed.

Lemma keccak_squeezeblocks_length n m s :
  length (fst (keccak_squeezeblocks n s (8 * m))) = (n * (8 * m))%nat.
Proof.
  revert s. induction n as [|n IH]; intros s; [easy|]. cbn [keccak_squeezeblocks].
  specialize (IH (permute s)). destruct (keccak_squeezeblocks n _ _) as [out s'].
  cbn [fst] in *. rewrite length_app, IH, store64_rows_length.
  rewrite (Nat.mul_comm 8 m), Nat.div_mul by lia. lia.
Qed.

Lemma keccak_squeezeblocks_bytes n r s : bytes (fst (keccak_squeezeblocks n s r)).
Proof.
  revert s. induction n as [|n IH]; intros s; [constructor|]. cbn [keccak_squeezeblocks].
  specialize (IH (permute s)). destruct (keccak_squeezeblocks n _ _) as [out s'].
  cbn [fst] in *. apply Forall_app. split; [apply store64_rows_bytes|exact IH].
Qed.

Lemma keccak_squeezeblocks_split n m r s :
  keccak_squeezeblocks (n + m) s r =
  let '(out, s) := keccak_squeezeblocks n s r in
  let '(out', s) := keccak_squeezeblocks m s r in (out ++ out', s).
Proof.
  revert s. induction n as [|n IH]; intros s; cbn [Nat.add keccak_squeezeblocks].
  - now destruct (keccak_squeezeblocks m s r).
  - rewrite IH. destruct (keccak_squeezeblocks n _ r) as [out s'].
    destruct (keccak_squeezeblocks m s' r) as [out' s'']. now rewrite <- app_assoc.
Qed.

(** The rejection key is SHAKE256 of the concatenation. *)
Lemma rkprf_shake key input :
  bytes key -> bytes input ->
  kyber_shake256_rkprf key input =
  shake256 KYBER_SSBYTES (take KYBER_SYMBYTES key ++ take KYBER_CIPHERTEXTBYTES input).
Proof.
  intros Hk Hi. set (a := take KYBER_SYMBYTES key). set (b := take KYBER_CIPHERTEXTBYTES input).
  assert (Hb : bytes (a ++ b)) by (apply Forall_app; split; now apply Forall_take).
  pose proof (shake256_absorb_all [a; b] keccak_init 0 ltac:(unfold SHAKE256_RATE; lia)) as E.
  cbv zeta in E. cbn [foldl concat] in E. rewrite app_nil_r in E.
  pose proof (shake256_squeeze_all_spec [KYBER_SSBYTES]
    (keccak_finalize (ks_s (shake256_absorb (shake256_absorb shake256_init a) b))
       (ks_pos (shake256_absorb (shake256_absorb shake256_init a) b)) SHAKE256_RATE 0x1F)
    SHAKE256_RATE ltac:(reflexivity)) as F.
  rewrite shake256_squeeze_spec, absorb_once_spec by auto with kyber.
  change {| ks_s := keccak_init; ks_pos := 0 |} with shake256_init in E. rewrite <- E.
  change (sum_list [KYBER_SSBYTES]) with KYBER_SSBYTES in F. rewrite <- F.
  cbn [shake256_squeeze_all]. unfold kyber_shake256_rkprf. cbv zeta. fold a b.
  unfold shake256_finalize. destruct (shake256_squeeze KYBER_SSBYTES _). cbn [fst].
  now rewrite app_nil_r.
Qed.

Lemma rkprf_out key input :
  length (kyber_shake256_rkprf key input) = KYBER_SSBYTES /\
  bytes (kyber_shake256_rkprf key input).
Proof.
  unfold kyber_shake256_rkprf. cbv zeta. set (st := shake256_absorb _ _). clearbody st.
  unfold shake256_squeeze, shake256_finalize. cbn [ks_s ks_pos].
  rewrite keccak_squeeze_spec by (unfold SHAKE256_RATE; lia).
  pose proof (squeeze_spec_length SHAKE256_RATE KYBER_SSBYTES
    (keccak_finalize (ks_s st) (ks_pos st) SHAKE256_RATE 31) SHAKE256_RATE) as Hl.
  pose proof (squeeze_spec_bytes SHAKE256_RATE KYBER_SSBYTES
    (keccak_finalize (ks_s st) (ks_pos st) SHAKE256_RATE 31) SHAKE256_RATE) as Hb.
  now destruct (squeeze_spec _ _ _ _) as [out [s pos]].
Qed.

#[export] Instance shake_laws : SymmetricLaws shake_symmetric.
Proof.
  constructor; cbn [hash_h hash_g xof_squeezeblocks prf rkprf shake_symmetric]; intros.
  - apply (store64_rows_length _ 4).
  - apply (store64_rows_length _ 8).
  - apply store64_rows_bytes.
  - apply store64_rows_bytes.
  - pose proof (keccak_squeezeblocks_length n 21 (ks_s st)) as H.
    unfold shake128_squeezeblocks. change SHAKE128_RATE with (8 * 21)%nat.
    now destruct (keccak_squeezeblocks n (ks_s st) _).
  - pose proof (keccak_squeezeblocks_bytes n SHAKE128_RATE (ks_s st)) as H.
    unfold shake128_squeezeblocks. now destruct (keccak_squeezeblocks n (ks_s st) _).
  - unfold shake128_squeezeblocks. rewrite keccak_squeezeblocks_split.
    destruct (keccak_squeezeblocks n (ks_s st) _) as [out s]. cbn [ks_s ks_pos].
    now destruct (keccak_squeezeblocks m s _).
  - apply shake256_length.
  - apply shake256_bytes.
  - apply rkprf_out.
  - apply rkprf_out.
Qed.

(** ** A degenerate instance

    An instance of the interface in which every output is zero, used to
    evaluate the theorems of the KEM at a concrete input. *)

Definition zero_symmetric : Symmetric := {|
  xof_state := unit;
  hash_h _ := replicate 32 0;
  hash_g _ := replicate 64 0;
  xof_absorb _ _ _ := tt;
  xof_squeezeblocks n _ := (replicate (n * XOF_BLOCKBYTES) 0, tt);
  prf n _ _ := replicate n 0;
  rkprf _ _ := replicate 32 0
|}.

Lemma zeros_bytes n : bytes (replicate n 0).
Proof. induction n; constructor; [unfold is_byte; lia|easy]. Qed.

Lemma zero_laws : SymmetricLaws zero_symmetric.
Proof.
  constructor; cbn [hash_h hash_g xof_squeezeblocks prf rkprf zero_symmetric fst]; intros;
    rewrite ?length_replicate; try reflexivity; try apply zeros_bytes.
  now rewrite Nat.mul_add_distr_r, replicate_add.
Qed.
