(* ===== verification/KyberPoly.v ===== *)
(** * Kyber: polynomials

    The code of [crypto/kyber/verify.c], [cbd.c] and [poly.c].  A [poly] is the
    list of its 256 [int16_t] coefficients; an output array is the list of the
    cells the loops write.  Of the alternatives the preprocessor selects by
    [KYBER_K] the ones for [KYBER_K = 3] are modelled. *)
From S2P Require Import Prelude KyberReduce KyberNtt KyberSymmetric.

(** ** [verify.c] *)

(** [r |= a[i] ^ b[i]] for the [len] bytes, then [(-(uint64_t)r) >> 63]. *)
Definition verify (a b : list Z) (len : nat) : Z :=
  let r := foldl (fun r i => u8 (Z.lor r (Z.lxor (get a i) (get b i)))) 0 (seq 0 len) in
  Z.shiftr (u64 (- r)) 63.

Definition cmov (r x : list Z) (len : nat) (b : Z) : list Z :=
  let b := u8 (- b) in
  foldl (fun r i => <[i := u8 (Z.lxor (get r i) (Z.land b (Z.lxor (get r i) (get x i))))]> r)
    r (seq 0 len).

Definition cmov_int16 (r v b : Z) : Z :=
  let b := u16 (- b) in
  s16 (Z.lxor r (Z.land b (Z.lxor r v))).

(** ** [cbd.c] *)

Definition load32_littleendian (x : list Z) : Z :=
  let r := get x 0 in
  let r := Z.lor r (u32 (Z.shiftl (get x 1) 8)) in
  let r := Z.lor r (u32 (Z.shiftl (get x 2) 16)) in
  Z.lor r (u32 (Z.shiftl (get x 3) 24)).

Definition cbd2 (buf : list Z) : list Z :=
  rows (KYBER_N / 8) (fun i =>
    let t := load32_littleendian (drop (4 * i) buf) in
    let d := Z.land t 0x55555555 in
    let d := u32 (d + Z.land (Z.shiftr t 1) 0x55555555) in
    map (fun j =>
      let a := s16 (Z.land (Z.shiftr d (4 * Z.of_nat j + 0)) 3) in
      let b := s16 (Z.land (Z.shiftr d (4 * Z.of_nat j + 2)) 3) in
      s16 (a - b)) (seq 0 8)).

Definition poly_cbd_eta1 (buf : list Z) : list Z := cbd2 buf.
Definition poly_cbd_eta2 (buf : list Z) : list Z := cbd2 buf.

(** ** [poly.c] *)

(** The body of the inner loop of [poly_compress]: [t[j]]. *)
Definition compress_coeff4 (c : Z) : Z :=
  let u := c in
  let u := s16 (u + Z.land (Z.shiftr u 15) KYBER_Q) in
  let d0 := u32 (Z.shiftl u 4) in
  let d0 := u32 (d0 + 1665) in
  let d0 := u32 (d0 * 80635) in
  let d0 := Z.shiftr d0 28 in
  u8 (Z.land d0 0xf).

Definition poly_compress (a : list Z) : list Z :=
  rows (KYBER_N / 8) (fun i =>
    let t := map (fun j => compress_coeff4 (get a (8 * i + j))) (seq 0 8) in
    [u8 (Z.lor (get t 0) (Z.shiftl (get t 1) 4));
     u8 (Z.lor (get t 2) (Z.shiftl (get t 3) 4));
     u8 (Z.lor (get t 4) (Z.shiftl (get t 5) 4));
     u8 (Z.lor (get t 6) (Z.shiftl (get t 7) 4))]).

Definition poly_decompress (a : list Z) : list Z :=
  rows (KYBER_N / 2) (fun i =>
    [s16 (Z.shiftr (u16 (Z.land (get a i) 15) * KYBER_Q + 8) 4);
     s16 (Z.shiftr (u16 (Z.shiftr (get a i) 4) * KYBER_Q + 8) 4)]).

(** [t = c; t += ((int16_t)t >> 15) & KYBER_Q] with [uint16_t t]. *)
Definition to_unsigned (c : Z) : Z :=
  let t := u16 c in
  u16 (t + Z.land (Z.shiftr (s16 t) 15) KYBER_Q).

Definition poly_tobytes (a : list Z) : list Z :=
  rows (KYBER_N / 2) (fun i =>
    let t0 := to_unsigned (get a (2 * i)) in
    let t1 := to_unsigned (get a (2 * i + 1)) in
    [u8 (Z.shiftr t0 0);
     u8 (Z.lor (Z.shiftr t0 8) (Z.shiftl t1 4));
     u8 (Z.shiftr t1 4)]).

Definition poly_frombytes (a : list Z) : list Z :=
  rows (KYBER_N / 2) (fun i =>
    [s16 (Z.land (Z.lor (Z.shiftr (get a (3 * i + 0)) 0) (Z.shiftl (get a (3 * i + 1)) 8)) 0xFFF);
     s16 (Z.land (Z.lor (Z.shiftr (get a (3 * i + 1)) 4) (Z.shiftl (get a (3 * i + 2)) 4)) 0xFFF)]).

Definition poly_frommsg (msg : list Z) : list Z :=
  rows (KYBER_N / 8) (fun i =>
    map (fun j => cmov_int16 0 ((KYBER_Q + 1) / 2) (Z.land (Z.shiftr (get msg i) (Z.of_nat j)) 1))
      (seq 0 8)).

(** The body of the inner loop of [poly_tomsg]: the bit [t]. *)
Definition tomsg_bit (c : Z) : Z :=
  let t := u32 c in
  let t := u32 (Z.shiftl t 1) in
  let t := u32 (t + 1665) in
  let t := u32 (t * 80635) in
  let t := Z.shiftr t 28 in
  Z.land t 1.

Definition poly_tomsg (a : list Z) : list Z :=
  map (fun i =>
    foldl (fun m j => u8 (Z.lor m (u32 (Z.shiftl (tomsg_bit (get a (8 * i + j))) (Z.of_nat j)))))
      0 (seq 0 8)) (seq 0 (KYBER_N / 8)).

Section Noise.
Context `{Symmetric}.

Definition poly_getnoise_eta1 (seed : list Z) (nonce : Z) : list Z :=
  let buf := prf (KYBER_ETA1 * KYBER_N / 4) seed nonce in
  poly_cbd_eta1 buf.

Definition poly_getnoise_eta2 (seed : list Z) (nonce : Z) : list Z :=
  let buf := prf (KYBER_ETA2 * KYBER_N / 4) seed nonce in
  poly_cbd_eta2 buf.
End Noise.

Definition poly_reduce (r : list Z) : list Z :=
  map (fun i => barrett_reduce (get r i)) (seq 0 KYBER_N).

Definition poly_ntt (r : list Z) : list Z := poly_reduce (ntt r).

Definition poly_invntt_tomont (r : list Z) : list Z := invntt r.

(** [zeta] is an [int16_t] parameter, so the negated table entry is converted. *)
Definition poly_basemul_montgomery (a b : list Z) : list Z :=
  rows (KYBER_N / 4) (fun i =>
    let x := basemul (get a (4 * i), get a (4 * i + 1)) (get b (4 * i), get b (4 * i + 1))
               (get zetas (64 + i)) in
    let y := basemul (get a (4 * i + 2), get a (4 * i + 3))
               (get b (4 * i + 2), get b (4 * i + 3)) (s16 (- get zetas (64 + i))) in
    [fst x; snd x; fst y; snd y]).

Definition poly_tomont (r : list Z) : list Z :=
  let f := s16 (Z.shiftl 1 32 mod KYBER_Q) in
  map (fun i => montgomery_reduce (get r i * f)) (seq 0 KYBER_N).

Definition poly_add (a b : list Z) : list Z :=
  map (fun i => s16 (get a i + get b i)) (seq 0 KYBER_N).

Definition poly_sub (a b : list Z) : list Z :=
  map (fun i => s16 (get a i - get b i)) (seq 0 KYBER_N).
