(* ===== verification/KyberPolySpec.v ===== *)
(** * Kyber: polynomial arithmetic against the ring

    The transforms of [poly.c] on residues: [poly_ntt] computes the values of a
    polynomial at the 128 roots [gamma i], [poly_basemul_montgomery] multiplies
    values, [poly_invntt_tomont] recovers the polynomial; no [int16_t] overflows
    on the way.  The bounds are the ones the KEM needs. *)
From S2P Require Import Prelude KyberReduce Butterfly KyberNtt KyberNttSpec KyberSymmetric KyberPoly.

(** ** Bounded coefficient arrays *)

Definition bounded (B : Z) (l : list Z) : Prop := Forall (fun x => - B <= x <= B) l.

(** A [poly]: 256 cells. *)
Definition is_poly (p : list Z) : Prop := length p = 256%nat.

Lemma bounded_weaken B B' l : B <= B' -> bounded B l -> bounded B' l.
Proof. intros HB H. eapply Forall_impl; [|exact H]. simpl. lia. Qed.

Lemma bounded_get B l i : 0 <= B -> bounded B l -> - B <= get l i <= B.
Proof.
  intros HB H. destruct (Nat.lt_ge_cases i (length l)).
  - now apply (get_Forall (fun x => - B <= x <= B)).
  - unfold get. rewrite nth_overflow by easy. lia.
Qed.

Lemma map_get_seq (f : Z -> Z) l n : length l = n -> map (fun i => f (get l i)) (seq 0 n) = map f l.
Proof.
  intros H. apply list_eq_get; rewrite ?length_map, length_seq; [easy|].
  intros i Hi. rewrite get_map_seq, get_map by lia. reflexivity.
Qed.

Lemma map2_get_seq (f : Z -> Z -> Z) l k n :
  length l = n -> length k = n ->
  map (fun i => f (get l i) (get k i)) (seq 0 n) = zip_with f l k.
Proof.
  intros Hl Hk. apply list_eq_get; rewrite length_map, length_seq.
  - rewrite length_zip_with. lia.
  - intros i Hi. rewrite get_map_seq, get_zip_with by lia. reflexivity.
Qed.

Lemma Forall_map_seq (P : Z -> Prop) (f : nat -> Z) n :
  (forall i, (i < n)%nat -> P (f i)) -> Forall P (map f (seq 0 n)).
Proof.
  intros H. apply List.Forall_map, List.Forall_forall. intros i Hi%in_seq. apply H. lia.
Qed.

Lemma Forall2_repr_intro B l l' :
  bounded B l -> congl q l l' -> Forall2 (repr B) l l'.
Proof.
  intros HB H. induction H as [|x y l l' Hxy H IH]; [constructor|].
  inversion HB; subst. constructor; [now split|auto].
Qed.

Lemma repr_bounded B l l' : Forall2 (repr B) l l' -> bounded B l.
Proof. induction 1 as [|x y l l' [Hx _] H IH]; constructor; auto. Qed.

(** ** The coefficient-wise routines *)

Lemma poly_reduce_spec p :
  is_poly p -> bounded 32767 p ->
  is_poly (poly_reduce p) /\ bounded 1664 (poly_reduce p) /\ congl q (poly_reduce p) p.
Proof.
  intros Hp Hb. unfold poly_reduce. rewrite map_get_seq by exact Hp.
  split; [unfold is_poly; now rewrite length_map|].
  split.
  - apply List.Forall_map. eapply Forall_impl; [|exact Hb]. simpl. intros a Ha.
    pose proof (barrett_reduce_bounds a ltac:(pow2; lia)) as H.
    change ((KYBER_Q - 1) / 2) with 1664 in H. exact H.
  - clear Hp. induction Hb as [|x l Hx Hb IH]; simpl; constructor; [|exact IH].
    apply barrett_reduce_cong. pow2. lia.
Qed.

Lemma poly_add_spec A B a b :
  is_poly a -> is_poly b -> bounded A a -> bounded B b -> A + B <= 32767 ->
  is_poly (poly_add a b) /\ bounded (A + B) (poly_add a b) /\
  poly_add a b = zip_with Z.add a b.
Proof.
  intros Ha Hb HA HB HAB.
  assert (E : poly_add a b = zip_with Z.add a b).
  { unfold poly_add. rewrite map2_get_seq with (f := fun x y => s16 (x + y)) by easy.
    unfold is_poly in *. assert (Hl : length a = length b) by lia. clear Ha Hb.
    revert b HB Hl. induction HA as [|x a Hx HA IH]; intros [|y b] HB Hl; simpl in *; try lia; [easy|].
    inversion HB as [|? ? Hy HB']; subst. rewrite s16_small by (pow2; lia). f_equal. apply IH; [easy|lia]. }
  rewrite E. split; [|split; [|easy]].
  - unfold is_poly in *. rewrite length_zip_with. lia.
  - unfold is_poly in *. clear E Ha Hb. revert b HB.
    induction HA as [|x a Hx HA IH]; intros [|y b] HB; simpl; constructor;
      inversion HB; subst; [lia|now apply IH].
Qed.

Lemma poly_sub_spec A B a b :
  is_poly a -> is_poly b -> bounded A a -> bounded B b -> A + B <= 32767 ->
  is_poly (poly_sub a b) /\ bounded (A + B) (poly_sub a b) /\
  poly_sub a b = zip_with Z.sub a b.
Proof.
  intros Ha Hb HA HB HAB.
  assert (E : poly_sub a b = zip_with Z.sub a b).
  { unfold poly_sub. rewrite map2_get_seq with (f := fun x y => s16 (x - y)) by easy.
    unfold is_poly in *. assert (Hl : length a = length b) by lia. clear Ha Hb.
    revert b HB Hl. induction HA as [|x a Hx HA IH]; intros [|y b] HB Hl; simpl in *; try lia; [easy|].
    inversion HB as [|? ? Hy HB']; subst. rewrite s16_small by (pow2; lia). f_equal. apply IH; [easy|lia]. }
  rewrite E. split; [|split; [|easy]].
  - unfold is_poly in *. rewrite length_zip_with. lia.
  - unfold is_poly in *. clear E Ha Hb. revert b HB.
    induction HA as [|x a Hx HA IH]; intros [|y b] HB; simpl; constructor;
      inversion HB; subst; [lia|now apply IH].
Qed.

(** [poly_tomont] multiplies by the Montgomery radix. *)
Lemma poly_tomont_spec p :
  is_poly p -> bounded 32767 p ->
  is_poly (poly_tomont p) /\ bounded 3328 (poly_tomont p) /\
  congl q (poly_tomont p) (map (fun x => R * x) p).
Proof.
  intros Hp Hb. unfold poly_tomont. change (s16 (Z.shiftl 1 32 mod KYBER_Q)) with 1353. cbv zeta.
  rewrite map_get_seq with (f := fun x => montgomery_reduce (x * 1353)) by exact Hp.
  assert (Hr : forall x, - 32767 <= x <= 32767 ->
    - KYBER_Q * 2 ^ 15 <= x * 1353 < KYBER_Q * 2 ^ 15) by (intros; unfold KYBER_Q; pow2; lia).
  split; [unfold is_poly; now rewrite length_map|]. split.
  - apply List.Forall_map. eapply Forall_impl; [|exact Hb]. simpl. intros a Ha.
    pose proof (montgomery_reduce_bounds _ (Hr a Ha)) as H. unfold KYBER_Q in H. lia.
  - clear Hp. induction Hb as [|x l Hx Hb IH]; simpl; constructor; [|exact IH].
    rewrite montgomery_reduce_Rinv by auto.
    transitivity (R * Rinv * R * x); [|rewrite R_Rinv; apply cong_of_eq; ring].
    assert (E : 1353 ≡ R * R [mod q]) by reflexivity. rewrite E. apply cong_of_eq. ring.
Qed.

(** ** The transform domain *)

(** [x] holds the values of the polynomial [p] at the roots. *)
Definition ntt_of (x p : list Z) : Prop :=
  forall i, (i < 128)%nat -> pcong (pair_at x i) (evalX (gamma i) p).

Lemma pair_at_congl x y i : congl q x y -> pcong (pair_at x i) (pair_at y i).
Proof.
  intros H. apply Forall2_get in H. destruct H as [Hl H].
  assert (Hg : forall j, get x j ≡ get y j [mod q]).
  { intros j. destruct (Nat.lt_ge_cases j (length x)); [now apply H|].
    unfold get. rewrite !nth_overflow by lia. reflexivity. }
  split; apply Hg.
Qed.

#[export] Instance evalX_proper w : Proper (congl q ==> pcong) (evalX w).
Proof.
  intros x y H. induction H as [|a b x y Hab H IH]; [reflexivity|]. cbn [evalX].
  rewrite IH. split; cbn [fst snd padd]; [now rewrite Hab|reflexivity].
Qed.

#[export] Instance ntt_of_proper : Proper (congl q ==> congl q ==> iff) ntt_of.
Proof.
  intros x x' Hx p p' Hp. unfold ntt_of. split; intros H i Hi.
  - rewrite <- (pair_at_congl x x' i Hx), <- Hp. now apply H.
  - rewrite (pair_at_congl x x' i Hx), Hp. now apply H.
Qed.

Lemma spec_ntt_of p : is_poly p -> ntt_of (ntree spec_lo spec_hi 2 7 1 p) p.
Proof. intros Hp i Hi. apply (ntree_eval 7 1 p i); [lia|simpl; lia|exact Hp|exact Hi]. Qed.

Lemma pairs_congl x y :
  is_poly x -> is_poly y -> (forall i, (i < 128)%nat -> pcong (pair_at x i) (pair_at y i)) ->
  congl q x y.
Proof.
  intros Hx Hy H. apply Forall2_get. unfold is_poly in *. split; [lia|]. intros j Hj.
  destruct (H (j / 2)%nat ltac:(apply Nat.Div0.div_lt_upper_bound; lia)) as [H0 H1].
  unfold pair_at in H0, H1. cbn [fst snd] in H0, H1.
  pose proof (Nat.div_mod_eq j 2). pose proof (Nat.mod_upper_bound j 2 ltac:(lia)).
  destruct (Nat.eq_dec (j mod 2)%nat 0%nat) as [E|E].
  - now replace j with (2 * (j / 2))%nat by lia.
  - now replace j with (2 * (j / 2) + 1)%nat by lia.
Qed.

Lemma ispec_congl n : forall k x y,
  congl q x y -> congl q (itree ispec_lo ispec_hi 2 n k x) (itree ispec_lo ispec_hi 2 n k y).
Proof.
  induction n as [|n IH]; intros k x y E; [exact E|]. cbn [itree].
  apply Forall2_app;
    (eapply Forall2_zip_with; [|apply IH; now apply Forall2_take|apply IH; now apply Forall2_drop]);
    intros a a' b b' Ha Hb; unfold ispec_lo, ispec_hi; now rewrite Ha, Hb.
Qed.

(** The values determine the polynomial modulo [q]. *)
Lemma ntt_of_inj x p p' : is_poly p -> is_poly p' -> ntt_of x p -> ntt_of x p' -> congl q p p'.
Proof.
  intros Hp Hp' H H'.
  assert (E : congl q (ntree spec_lo spec_hi 2 7 1 p) (ntree spec_lo spec_hi 2 7 1 p')).
  { apply pairs_congl; [now apply ntree_length|now apply ntree_length|]. intros i Hi.
    rewrite (spec_ntt_of p Hp i Hi), (spec_ntt_of p' Hp' i Hi), <- (H i Hi). now apply H'. }
  assert (Hm : mir 0 1 1) by (split; simpl; lia).
  pose proof (spec_roundtrip 7 0 1 1 p Hm ltac:(lia) Hp) as E1.
  pose proof (spec_roundtrip 7 0 1 1 p' Hm ltac:(lia) Hp') as E2.
  assert (E3 : congl q (map (fun x => 2 ^ Z.of_nat 7 * x) p) (map (fun x => 2 ^ Z.of_nat 7 * x) p')).
  { rewrite <- E1, <- E2. now apply ispec_congl. }
  apply Forall2_get in E3. rewrite !length_map in E3. destruct E3 as [El E3].
  apply Forall2_get. split; [easy|]. intros i Hi. specialize (E3 i Hi).
  rewrite !get_map in E3 by lia. apply cong_mul_cancel with (2 ^ Z.of_nat 7) 3303; [reflexivity|exact E3].
Qed.

(** [ntt]: no overflow from inputs below [32767 - 7 q], and the values of the input. *)
Lemma ntt_spec B p :
  is_poly p -> 0 <= B -> B + 7 * KYBER_Q <= 32767 -> bounded B p ->
  is_poly (ntt p) /\ bounded (B + 7 * KYBER_Q) (ntt p) /\ ntt_of (ntt p) p.
Proof.
  intros Hp HB0 HB Hb. rewrite ntt_tree by exact Hp.
  pose proof (ntree_repr 7 B 1 p p ltac:(simpl; lia) HB0 HB (Forall2_repr_refl B p Hb)) as H.
  split; [now apply ntree_length|]. split; [eapply repr_bounded, H|].
  intros i Hi. rewrite (pair_at_congl _ _ i (Forall2_repr_cong _ _ _ H)).
  now apply spec_ntt_of.
Qed.

Lemma poly_ntt_spec B p :
  is_poly p -> 0 <= B -> B + 7 * KYBER_Q <= 32767 -> bounded B p ->
  is_poly (poly_ntt p) /\ bounded 1664 (poly_ntt p) /\ ntt_of (poly_ntt p) p.
Proof.
  intros Hp HB0 HB Hb. destruct (ntt_spec B p Hp HB0 HB Hb) as (Hl & Hb' & He).
  destruct (poly_reduce_spec (ntt p) Hl) as (Hl2 & Hb2 & He2).
  { eapply bounded_weaken; [|exact Hb']. exact HB. }
  unfold poly_ntt. split; [easy|]. split; [easy|]. now rewrite He2.
Qed.

(** [invntt]: the polynomial whose values are [R] times the input. *)
Lemma invntt_spec B x :
  is_poly x -> 0 <= B <= 16383 -> bounded B x ->
  is_poly (invntt x) /\ bounded 3328 (invntt x) /\
  forall i, (i < 128)%nat -> pcong (evalX (gamma i) (invntt x)) (pscale R (pair_at x i)).
Proof.
  intros Hx HB Hb. rewrite invntt_tree by exact Hx.
  assert (Hr : Forall2 (repr 16383) x x)
    by (apply Forall2_repr_refl; eapply bounded_weaken; [|exact Hb]; lia).
  pose proof (itree_repr 7 16383 1 x x ltac:(simpl; lia) ltac:(unfold KYBER_Q; lia) Hr) as H.
  cbn [Nat.eqb] in H. set (y := itree inv_lo inv_hi 2 7 1 x) in *.
  set (y' := itree ispec_lo ispec_hi 2 7 1 x) in *.
  assert (Hy : is_poly y) by now apply itree_length.
  assert (Hy' : is_poly y') by now apply itree_length.
  assert (Hf : forall a, - KYBER_Q <= a <= KYBER_Q -> - KYBER_Q * 2 ^ 15 <= a * 1441 < KYBER_Q * 2 ^ 15)
    by (unfold KYBER_Q; intros; pow2; lia).
  split; [unfold is_poly; now rewrite length_map|]. split.
  - apply List.Forall_map. eapply Forall_impl; [|eapply repr_bounded, H]. simpl. intros a Ha.
    pose proof (fqmul_bounds a 1441 (Hf a Ha)) as Hq. unfold KYBER_Q in Hq. lia.
  - intros i Hi.
    assert (E : congl q (map (fun x => fqmul x 1441) y) (map (fun x => 1441 * Rinv * x) y')).
    { eapply Forall2_map_map; [|exact H]. intros a a' [Ha1 Ha2].
      rewrite fqmul_cong by auto. rewrite Ha2. apply cong_of_eq. ring. }
    rewrite E, evalX_map.
    assert (Hm : mir 0 1 1) by (split; simpl; lia).
    pose proof (spec_roundtrip_inv 7 0 1 1 1 x y' Hm ltac:(lia) Hx) as E2.
    rewrite <- (spec_ntt_of y' Hy' i Hi).
    rewrite (pair_at_congl (ntree spec_lo spec_hi 2 7 1 y') (map (fun x => 1 * 2 ^ Z.of_nat 7 * x) x) i).
    2: { apply E2. replace (map _ _) with y'; [reflexivity|].
         rewrite <- (map_id y') at 1. apply map_ext. intros; ring. }
    unfold pair_at. unfold is_poly in *. rewrite !get_map by lia.
    split; cbn [fst snd pscale]; (rewrite Z.mul_assoc; apply cong_mul; reflexivity).
Qed.

(** ** Multiplication of values *)

Lemma basemul_spec a b z w A B :
  A * B <= KYBER_Q * 2 ^ 14 -> 0 <= A -> 0 <= B -> - 1664 <= z <= 1664 -> z ≡ R * w [mod q] ->
  - A <= fst a <= A -> - A <= snd a <= A -> - B <= fst b <= B -> - B <= snd b <= B ->
  let r := basemul a b z in
  (- (2 * KYBER_Q) <= fst r <= 2 * KYBER_Q) /\ (- (2 * KYBER_Q) <= snd r <= 2 * KYBER_Q) /\
  pcong r (pscale Rinv (pmul w a b)).
Proof.
  intros HAB HA HB Hz Hw Ha0 Ha1 Hb0 Hb1. destruct a as [a0 a1], b as [b0 b1]. cbn [fst snd] in *.
  assert (Hr : forall x y, - A <= x <= A -> - B <= y <= B ->
    - KYBER_Q * 2 ^ 15 <= x * y < KYBER_Q * 2 ^ 15).
  { intros x y Hx Hy. assert (- (A * B) <= x * y <= A * B) by nia. unfold KYBER_Q in *. pow2. lia. }
  assert (Hm : forall x y, - A <= x <= A -> - B <= y <= B ->
    - KYBER_Q < fqmul x y < KYBER_Q /\ fqmul x y ≡ x * y * Rinv [mod q]).
  { intros. split; [apply fqmul_bounds|apply fqmul_cong]; auto. }
  destruct (Hm a1 b1 Ha1 Hb1) as [M1 C1]. destruct (Hm a0 b0 Ha0 Hb0) as [M2 C2].
  destruct (Hm a0 b1 Ha0 Hb1) as [M3 C3]. destruct (Hm a1 b0 Ha1 Hb0) as [M4 C4].
  assert (Hz' : - KYBER_Q * 2 ^ 15 <= fqmul a1 b1 * z < KYBER_Q * 2 ^ 15)
    by (unfold KYBER_Q in *; pow2; nia).
  pose proof (fqmul_bounds _ _ Hz') as M5. pose proof (fqmul_cong _ _ Hz') as C5.
  unfold basemul. cbn [fst snd]. unfold KYBER_Q in *.
  rewrite !s16_small by (pow2; lia). split; [lia|]. split; [lia|].
  split; cbn [fst snd pscale pmul].
  - rewrite C5, C1, C2, Hw.
    transitivity (Rinv * (a0 * b0) + (R * Rinv) * (Rinv * (w * (a1 * b1)))); [apply cong_of_eq; ring|].
    rewrite R_Rinv. apply cong_of_eq. ring.
  - rewrite C3, C4. apply cong_of_eq. ring.
Qed.

(** Slots [2 i] and [2 i + 1] use the root of table entry [64 + i] and its negation. *)
Lemma gamma_pair i : (i < 64)%nat ->
  gamma (2 * i) = zeta (64 + i) /\ gamma (2 * i + 1) = - zeta (64 + i).
Proof.
  intros Hi. unfold gamma. split.
  - replace (128 + 2 * i)%nat with (2 * (64 + i))%nat by lia. apply node_even. lia.
  - replace (128 + (2 * i + 1))%nat with (2 * (64 + i) + 1)%nat by lia. apply node_odd. lia.
Qed.

Lemma poly_basemul_spec A B a b :
  is_poly a -> is_poly b -> 0 <= A -> 0 <= B -> A * B <= KYBER_Q * 2 ^ 14 ->
  bounded A a -> bounded B b ->
  is_poly (poly_basemul_montgomery a b) /\
  bounded (2 * KYBER_Q) (poly_basemul_montgomery a b) /\
  forall i, (i < 128)%nat ->
    pcong (pair_at (poly_basemul_montgomery a b) i)
      (pscale Rinv (pmul (gamma i) (pair_at a i) (pair_at b i))).
Proof.
  intros Ha Hb HA HB HAB HbA HbB.
  pose proof (fun j => bounded_get A a j HA HbA) as GA.
  pose proof (fun j => bounded_get B b j HB HbB) as GB.
  assert (Hpair : forall i s z w, z ≡ R * w [mod q] -> - 1664 <= z <= 1664 ->
    let r := basemul (get a (4 * i + s), get a (4 * i + S s)) (get b (4 * i + s), get b (4 * i + S s)) z in
    (- (2 * KYBER_Q) <= fst r <= 2 * KYBER_Q) /\ (- (2 * KYBER_Q) <= snd r <= 2 * KYBER_Q) /\
    pcong r (pscale Rinv (pmul w (get a (4 * i + s), get a (4 * i + S s))
                                 (get b (4 * i + s), get b (4 * i + S s))))).
  { intros i s z w Hz Hzb. apply (basemul_spec _ _ _ _ A B); cbn [fst snd]; auto. }
  assert (Hrow : forall i, (i < 64)%nat ->
    (get zetas (64 + i) ≡ R * gamma (2 * i) [mod q] /\ - 1664 <= get zetas (64 + i) <= 1664) /\
    (s16 (- get zetas (64 + i)) ≡ R * gamma (2 * i + 1) [mod q] /\
     - 1664 <= s16 (- get zetas (64 + i)) <= 1664)).
  { intros i Hi. destruct (gamma_pair i Hi) as [-> ->].
    pose proof (zetas_bound (64 + i) ltac:(lia)). pose proof (zetas_table (64 + i) ltac:(lia)) as E.
    rewrite s16_small by (pow2; lia). repeat split; try lia; [exact E|].
    rewrite E. apply cong_of_eq. ring. }
  split; [apply (rows_length 4 64); reflexivity|]. split.
  - apply Forall_rows. intros i Hi. change (KYBER_N / 4)%nat with 64%nat in Hi.
    destruct (Hrow i Hi) as [[E1 B1] [E2 B2]].
    pose proof (Hpair i 0%nat _ _ E1 B1) as H0. pose proof (Hpair i 2%nat _ _ E2 B2) as H2.
    rewrite Nat.add_0_r in H0. cbv zeta in H0, H2. repeat constructor; (apply H0 || apply H2).
  - intros i Hi. pose proof (Nat.div_mod_eq i 2) as Hdm.
    pose proof (Nat.mod_upper_bound i 2 ltac:(lia)) as Hmod.
    set (h := (i / 2)%nat) in *.
    assert (Hh : (h < 64)%nat) by lia. destruct (Hrow h Hh) as [[E1 B1] [E2 B2]].
    change (KYBER_N / 4)%nat with 64%nat in *.
    unfold poly_basemul_montgomery. change (KYBER_N / 4)%nat with 64%nat.
    unfold pair_at. destruct (Nat.eq_dec (i mod 2)%nat 0%nat) as [E|E].
    + replace (2 * i)%nat with (4 * h + 0)%nat by lia.
      replace (4 * h + 0 + 1)%nat with (4 * h + 1)%nat by lia.
      rewrite !(get_rows 4) by (lia || reflexivity). pose proof (Hpair h 0%nat _ _ E1 B1) as (_ & _ & C).
      replace i with (2 * h)%nat by lia. rewrite Nat.add_0_r in *. exact C.
    + replace (2 * i)%nat with (4 * h + 2)%nat by lia.
      replace (4 * h + 2 + 1)%nat with (4 * h + 3)%nat by lia.
      rewrite !(get_rows 4) by (lia || reflexivity). pose proof (Hpair h 2%nat _ _ E2 B2) as (_ & _ & C).
      replace i with (2 * h + 1)%nat by lia. exact C.
Qed.

(** ** Claims *)

(** C28: multiplication in the ring.  For all polynomials with coefficients up to 9464 in
    absolute value, transforming both, multiplying in the transform domain and
    transforming back gives the negacyclic product of the two modulo [q]: the
    coefficients agree modulo 3329 with the schoolbook formula in
    [Z_q[X] / (X ^ 256 + 1)], and they are reduced. *)
Theorem poly_mul_correct (a b : list Z) :
  is_poly a -> is_poly b -> bounded 9464 a -> bounded 9464 b ->
  let c := poly_invntt_tomont (poly_basemul_montgomery (poly_ntt a) (poly_ntt b)) in
  is_poly c /\ bounded (KYBER_Q - 1) c /\ congl KYBER_Q c (ring_mul a b).
Proof.
  intros La Lb Ba Bb c.
  destruct (poly_ntt_spec 9464 a La ltac:(lia) ltac:(unfold KYBER_Q; lia) Ba) as (Na & Da & Ea).
  destruct (poly_ntt_spec 9464 b Lb ltac:(lia) ltac:(unfold KYBER_Q; lia) Bb) as (Nb & Db & Eb).
  destruct (poly_basemul_spec 1664 1664 _ _ Na Nb ltac:(lia) ltac:(lia) ltac:(unfold KYBER_Q; pow2; lia) Da Db)
    as (Lm & Bm & Em).
  destruct (invntt_spec (2 * KYBER_Q) _ Lm ltac:(unfold KYBER_Q; lia) Bm) as (Lc & Bc & Ec).
  unfold poly_invntt_tomont in c. subst c. set (c := invntt _) in *. clearbody c.
  split; [exact Lc|]. split; [exact Bc|].
  apply (ntt_of_inj (ntree spec_lo spec_hi 2 7 1 c)); [easy|apply ring_mul_length|now apply spec_ntt_of|].
  intros i Hi. rewrite (spec_ntt_of c Lc i Hi), (Ec i Hi), (Em i Hi), (Ea i Hi), (Eb i Hi).
  rewrite evalX_ring_mul by easy. set (x := pmul _ _ _). destruct x as [x0 x1].
  split; cbn [fst snd pscale]; rewrite Z.mul_assoc, R_Rinv; apply cong_of_eq; ring.
Qed.

Lemma poly_mul_correct_witness :
  bounded 9464 (replicate 256 3) /\
  congl KYBER_Q (poly_invntt_tomont (poly_basemul_montgomery (poly_ntt (replicate 256 3)) (poly_ntt (replicate 256 3))))
    (ring_mul (replicate 256 3) (replicate 256 3)).
Proof.
  assert (H : bounded 9464 (replicate 256 3)) by (apply Forall_replicate; lia).
  split; [exact H|].
  exact (proj2 (proj2 (poly_mul_correct (replicate 256 3) (replicate 256 3)
           (length_replicate 256 3) (length_replicate 256 3) H H))).
Defined.

(** C35: [ntt] never overflows an [int16_t] on coefficients up to 9464 in absolute value,
    and cells [2 i] and [2 i + 1] of its output are the residue of the input modulo
    [X ^ 2 - gamma i] for the 128 roots [gamma i] of [X ^ 128 + 1] modulo [q], in
    bit-reversed order. *)
Theorem ntt_evaluates (p : list Z) (i : nat) :
  is_poly p -> bounded 9464 p -> (i < 128)%nat ->
  bounded 32767 (ntt p) /\
  gamma i ^ 128 ≡ -1 [mod KYBER_Q] /\
  get (ntt p) (2 * i) ≡ fst (evalX (gamma i) p) [mod KYBER_Q] /\
  get (ntt p) (2 * i + 1) ≡ snd (evalX (gamma i) p) [mod KYBER_Q].
Proof.
  intros Lp Bp Hi. destruct (ntt_spec 9464 p Lp ltac:(lia) ltac:(unfold KYBER_Q; lia) Bp) as (Ln & Bn & En).
  split; [eapply bounded_weaken; [|exact Bn]; unfold KYBER_Q; lia|].
  split; [now apply gamma_root|]. specialize (En i Hi). revert En. generalize (ntt p).
  intros x [E0 E1]. split; [exact E0|exact E1].
Qed.

Lemma ntt_evaluates_witness :
  bounded 9464 (replicate 256 9464) /\ bounded 32767 (ntt (replicate 256 9464)).
Proof.
  assert (H : bounded 9464 (replicate 256 9464)) by (apply Forall_replicate; lia).
  split; [exact H|].
  exact (proj1 (ntt_evaluates (replicate 256 9464) 0 (length_replicate 256 9464) H ltac:(lia))).
Defined.

(** the inverse transform inverts the forward one up to the Montgomery factor
    [2 ^ 16], and the forward transform inverts the inverse one up to the same factor. *)
Theorem ntt_invntt_roundtrip (p x : list Z) :
  is_poly p -> bounded 9464 p -> is_poly x -> bounded 16383 x ->
  congl KYBER_Q (poly_invntt_tomont (poly_ntt p)) (map (fun c => 2 ^ 16 * c) p) /\
  congl KYBER_Q (poly_ntt (poly_invntt_tomont x)) (map (fun c => 2 ^ 16 * c) x).
Proof.
  intros Lp Bp Lx Bx.
  destruct (poly_ntt_spec 9464 p Lp ltac:(lia) ltac:(unfold KYBER_Q; lia) Bp) as (Ln & Bn & En).
  destruct (invntt_spec 1664 _ Ln ltac:(lia) Bn) as (Li & Bi & Ei).
  destruct (invntt_spec 16383 x Lx ltac:(lia) Bx) as (Lj & Bj & Ej).
  destruct (poly_ntt_spec 3328 _ Lj ltac:(lia) ltac:(unfold KYBER_Q; lia) Bj) as (Lk & Bk & Ek).
  assert (Lm : forall l, is_poly l -> is_poly (map (fun c => 2 ^ 16 * c) l))
    by (unfold is_poly; intros; now rewrite length_map).
  unfold poly_invntt_tomont. split.
  - revert Li Ei. generalize (invntt (poly_ntt p)). intros y Li Ei.
    apply (ntt_of_inj (ntree spec_lo spec_hi 2 7 1 y)); [exact Li|now apply Lm|now apply spec_ntt_of|].
    intros i Hi. rewrite (spec_ntt_of _ Li i Hi), (Ei i Hi), (En i Hi), evalX_map. reflexivity.
  - apply pairs_congl; [exact Lk|now apply Lm|]. intros i Hi.
    rewrite (Ek i Hi), (Ej i Hi). unfold pair_at. unfold is_poly in Lx. rewrite !get_map by lia.
    reflexivity.
Qed.

Lemma ntt_invntt_roundtrip_witness :
  bounded 9464 (replicate 256 1) /\
  congl KYBER_Q (poly_invntt_tomont (poly_ntt (replicate 256 1)))
    (map (fun c => 2 ^ 16 * c) (replicate 256 1)).
Proof.
  assert (H : bounded 9464 (replicate 256 1)) by (apply Forall_replicate; lia).
  assert (H' : bounded 16383 (replicate 256 1)) by (apply Forall_replicate; lia).
  split; [exact H|].
  exact (proj1 (ntt_invntt_roundtrip (replicate 256 1) (replicate 256 1)
    (length_replicate 256 1) H (length_replicate 256 1) H')).
Defined.
