(* ===== verification/KyberCodec.v ===== *)
(** * Kyber: serialisation, compression, messages and noise

    The byte formats of [poly.c] and the sampler of [cbd.c] against their
    definitions in the ML-KEM standard. *)
From S2P Require Import Prelude KyberReduce KyberNtt KyberNttSpec KyberSymmetric KyberPoly KyberPolySpec.

(** ** Bit fields as arithmetic *)

Lemma land_fff x : Z.land x 0xFFF = x mod 4096.
Proof. exact (Z.land_ones x 12 ltac:(lia)). Qed.
Lemma land_f x : Z.land x 0xf = x mod 16.
Proof. exact (Z.land_ones x 4 ltac:(lia)). Qed.
Lemma land_3 x : Z.land x 3 = x mod 4.
Proof. exact (Z.land_ones x 2 ltac:(lia)). Qed.
Lemma land_1 x : Z.land x 1 = x mod 2.
Proof. exact (Z.land_ones x 1 ltac:(lia)). Qed.
Lemma land_3ff x : Z.land x 0x3ff = x mod 1024.
Proof. exact (Z.land_ones x 10 ltac:(lia)). Qed.

(** Closed shifts become division and multiplication by a numeral. *)
Ltac shifts :=
  repeat match goal with
  | |- context [Z.shiftr ?x ?n] =>
      rewrite (Z.shiftr_div_pow2 x n) by lia
  | |- context [Z.shiftl ?x ?n] =>
      lazymatch x with 1 => fail | _ => rewrite (Z.shiftl_mul_pow2 x n) by lia end
  end; pow2.

(** Equality of literal lists, cell by cell. *)
Ltac cells_eq :=
  repeat match goal with
  | |- _ :: _ = _ :: _ => apply (f_equal2 cons)
  | |- [] = [] => reflexivity
  end.

(** The sign-dependent addition of [q]. *)
Lemma sign_mask c : - 2 ^ 15 <= c < 2 ^ 15 ->
  Z.land (Z.shiftr c 15) KYBER_Q = if c <? 0 then KYBER_Q else 0.
Proof.
  intros H. rewrite Z.shiftr_div_pow2 by lia. pow2. destruct (Z.ltb_spec c 0).
  - replace (c / 32768) with (-1) by (zdm; lia). apply Z.land_m1_l.
  - replace (c / 32768) with 0 by (zdm; lia). reflexivity.
Qed.

Lemma to_unsigned_mod c : - KYBER_Q <= c < KYBER_Q -> to_unsigned c = c mod KYBER_Q.
Proof.
  intros H. unfold to_unsigned. assert (E : s16 (u16 c) = c).
  { rewrite (s16_eq (u16 c) c) by apply cong_mod. apply s16_small. unfold KYBER_Q in H. pow2. lia. }
  rewrite E, sign_mask by (unfold KYBER_Q in H; pow2; lia).
  unfold u16, KYBER_Q in *. pow2. destruct (Z.ltb_spec c 0); zdm; lia.
Qed.

(** ** Twelve-bit packing *)

Lemma pack12_bytes t0 t1 : 0 <= t0 < 4096 -> 0 <= t1 < 4096 ->
  [u8 (Z.shiftr t0 0); u8 (Z.lor (Z.shiftr t0 8) (Z.shiftl t1 4)); u8 (Z.shiftr t1 4)] =
  [t0 mod 256; t0 / 256 + 16 * (t1 mod 16); t1 / 16].
Proof.
  intros H0 H1. rewrite lor_shiftl_add by (lia || (rewrite Z.shiftr_div_pow2 by lia; pow2; zdm; lia)).
  unfold u8. rewrite Z.shiftr_0_r. shifts. cells_eq; zdm; lia.
Qed.

Lemma unpack12_coeffs b0 b1 b2 : is_byte b0 -> is_byte b1 -> is_byte b2 ->
  [s16 (Z.land (Z.lor (Z.shiftr b0 0) (Z.shiftl b1 8)) 0xFFF);
   s16 (Z.land (Z.lor (Z.shiftr b1 4) (Z.shiftl b2 4)) 0xFFF)] =
  [b0 + 256 * (b1 mod 16); b1 / 16 + 16 * b2].
Proof.
  unfold is_byte. intros H0 H1 H2. rewrite !land_fff, Z.shiftr_0_r.
  rewrite !lor_shiftl_add by (lia || (rewrite ?Z.shiftr_div_pow2 by lia; pow2; zdm; lia)).
  shifts. repeat f_equal; (rewrite s16_small; [|pow2]; zdm; lia).
Qed.

Lemma get_tobytes a i j : (i < 128)%nat -> (j < 3)%nat ->
  get (poly_tobytes a) (3 * i + j) =
  get (let t0 := to_unsigned (get a (2 * i)) in
       let t1 := to_unsigned (get a (2 * i + 1)) in
       [u8 (Z.shiftr t0 0); u8 (Z.lor (Z.shiftr t0 8) (Z.shiftl t1 4)); u8 (Z.shiftr t1 4)]) j.
Proof.
  intros Hi Hj. unfold poly_tobytes. change (KYBER_N / 2)%nat with 128%nat.
  now rewrite (get_rows 3) by (easy || reflexivity).
Qed.

Lemma poly_tobytes_length a : length (poly_tobytes a) = KYBER_POLYBYTES.
Proof. apply (rows_length 3 128). reflexivity. Qed.

Lemma poly_frombytes_length a : is_poly (poly_frombytes a).
Proof. apply (rows_length 2 128). reflexivity. Qed.

Lemma poly_tobytes_bytes a : bytes (poly_tobytes a).
Proof. apply Forall_rows. intros i Hi. repeat constructor; apply u8_range. Qed.

Lemma frombytes_tobytes p :
  is_poly p -> Forall (fun c => - KYBER_Q <= c < KYBER_Q) p ->
  poly_frombytes (poly_tobytes p) = map (fun c => c mod KYBER_Q) p.
Proof.
  intros Hp Hb. rewrite <- (rows_eta 2 128 (map _ p)) by (rewrite length_map; exact Hp).
  unfold poly_frombytes. change (KYBER_N / 2)%nat with 128%nat.
  apply rows_ext. intros i Hi. unfold is_poly in Hp.
  rewrite !get_tobytes by lia. cbv zeta.
  assert (Hc : forall j, (j < 256)%nat -> to_unsigned (get p j) = get p j mod KYBER_Q /\
                                  0 <= get p j mod KYBER_Q < 4096).
  { intros j Hj. split; [apply to_unsigned_mod|unfold KYBER_Q; zdm; lia].
    apply (get_Forall (fun c => - KYBER_Q <= c < KYBER_Q)); [easy|lia]. }
  destruct (Hc (2 * i)%nat ltac:(lia)) as [E0 B0]. destruct (Hc (2 * i + 1)%nat ltac:(lia)) as [E1 B1].
  rewrite E0, E1. rewrite pack12_bytes by easy. cells.
  rewrite unpack12_coeffs by (unfold is_byte; zdm; lia).
  cbn [seq map]. rewrite !get_map by lia. rewrite Nat.add_0_r.
  repeat f_equal; zdm; lia.
Qed.

(** Bytes that encode coefficients below [q] are restored exactly. *)
Lemma tobytes_frombytes b :
  length b = KYBER_POLYBYTES -> bytes b -> Forall (fun c => c < KYBER_Q) (poly_frombytes b) ->
  poly_tobytes (poly_frombytes b) = b.
Proof.
  intros Hl Hb Hc. rewrite <- (rows_eta 3 128 b) at 2 by exact Hl.
  unfold poly_tobytes. change (KYBER_N / 2)%nat with 128%nat. apply rows_ext. intros i Hi.
  change KYBER_POLYBYTES with 384%nat in Hl.
  assert (Hg : forall j, (j < 3)%nat -> is_byte (get b (3 * i + j)))
    by (intros; apply get_Forall; [easy|lia]).
  pose proof (Hg 0%nat ltac:(lia)) as H0. pose proof (Hg 1%nat ltac:(lia)) as H1.
  pose proof (Hg 2%nat ltac:(lia)) as H2.
  assert (Hrow : forall j, (j < 2)%nat -> get (poly_frombytes b) (2 * i + j) =
    get [get b (3 * i + 0) + 256 * (get b (3 * i + 1) mod 16); get b (3 * i + 1) / 16 + 16 * get b (3 * i + 2)] j).
  { intros j Hj. unfold poly_frombytes. change (KYBER_N / 2)%nat with 128%nat.
    rewrite (get_rows 2) by (easy || reflexivity). now rewrite unpack12_coeffs by easy. }
  pose proof (poly_frombytes_length b) as Hp. unfold is_poly in Hp.
  pose proof (get_Forall _ _ (2 * i + 0) Hc ltac:(lia)) as L0.
  pose proof (get_Forall _ _ (2 * i + 1) Hc ltac:(lia)) as L1. cbv beta in L0, L1.
  pose proof (Hrow 0%nat ltac:(lia)) as E0. pose proof (Hrow 1%nat ltac:(lia)) as E1.
  rewrite Nat.add_0_r in E0, L0. rewrite E0 in L0 |- *. rewrite E1 in L1 |- *.
  cells.
  unfold is_byte in *. rewrite !to_unsigned_mod by (unfold KYBER_Q in *; zdm; lia).
  unfold KYBER_Q in *. rewrite !(Z.mod_small _ 3329) by (zdm; lia).
  rewrite pack12_bytes by (zdm; lia).
  cbn [seq map]. repeat f_equal; zdm; lia.
Qed.

(** ** Compression

    [Compress_d] and [Decompress_d] of the standard: scaling by [2 ^ d / q] and
    back, rounded to nearest. *)
Definition compress (d x : Z) : Z := ((2 ^ d * x + 1664) / KYBER_Q) mod 2 ^ d.
Definition decompress (d y : Z) : Z := (KYBER_Q * y + 2 ^ (d - 1)) / 2 ^ d.

(** The multiplication by [80635 / 2 ^ 28], which wraps for the largest
    coefficients, is the division by [q]. *)
Lemma compress4_arith u : 0 <= u < 3329 ->
  ((16 * u + 1665) * 80635) mod 4294967296 / 268435456 mod 16 = ((16 * u + 1664) / 3329) mod 16.
Proof. intros H. zdm; lia. Qed.

Lemma add_q_mod c : - KYBER_Q <= c < KYBER_Q ->
  s16 (c + Z.land (Z.shiftr c 15) KYBER_Q) = c mod KYBER_Q.
Proof.
  intros H. unfold KYBER_Q in *. rewrite sign_mask by (pow2; lia). unfold KYBER_Q.
  destruct (Z.ltb_spec c 0); rewrite s16_small by (pow2; lia); zdm; lia.
Qed.

Lemma compress_coeff4_spec c : - KYBER_Q <= c < KYBER_Q ->
  compress_coeff4 c = compress 4 (c mod KYBER_Q).
Proof.
  intros H. unfold compress_coeff4. cbv zeta. rewrite add_q_mod by easy.
  assert (Hu : 0 <= c mod KYBER_Q < 3329) by (apply Z.mod_pos_bound; reflexivity).
  set (u := c mod KYBER_Q) in *. clearbody u. rewrite land_f. shifts.
  unfold compress, KYBER_Q. pow2. unfold u8, u32. pow2.
  rewrite (Z.mod_small (u * 16)), (Z.mod_small (u * 16 + 1665)) by lia.
  replace (u * 16 + 1665) with (16 * u + 1665) by ring. rewrite compress4_arith by easy.
  apply Z.mod_small. zdm; lia.
Qed.

Lemma compress_range d x : 0 <= d -> 0 <= compress d x < 2 ^ d.
Proof. intros. apply Z.mod_pos_bound. apply Z.pow_pos_nonneg; lia. Qed.

(** Lossy compression moves a coefficient by at most [round (q / 2 ^ (d + 1))]. *)
Lemma compress4_error u : 0 <= u < KYBER_Q ->
  exists k, - 104 <= decompress 4 (compress 4 u) - u - KYBER_Q * k <= 104.
Proof.
  unfold decompress, compress, KYBER_Q. intros H. exists (- (((16 * u + 1664) / 3329) / 16)).
  change (2 ^ (4 - 1)) with 8. pow2. zdm; lia.
Qed.

Lemma compress10_error u : 0 <= u < KYBER_Q ->
  exists k, - 2 <= decompress 10 (compress 10 u) - u - KYBER_Q * k <= 2.
Proof.
  unfold decompress, compress, KYBER_Q. intros H. exists (- (((1024 * u + 1664) / 3329) / 1024)).
  change (2 ^ (10 - 1)) with 512. pow2. zdm; lia.
Qed.

Lemma compress_decompress4 y : 0 <= y < 16 -> compress 4 (decompress 4 y) = y.
Proof. unfold decompress, compress, KYBER_Q. change (2 ^ (4 - 1)) with 8. pow2. intros. zdm; lia. Qed.

Lemma compress_decompress10 y : 0 <= y < 1024 -> compress 10 (decompress 10 y) = y.
Proof. unfold decompress, compress, KYBER_Q. change (2 ^ (10 - 1)) with 512. pow2. intros. zdm; lia. Qed.

Lemma decompress_range d y : d = 4 \/ d = 10 -> 0 <= y < 2 ^ d -> 0 <= decompress d y < KYBER_Q.
Proof.
  intros [->| ->]; unfold decompress, KYBER_Q; [change (2 ^ (4 - 1)) with 8|change (2 ^ (10 - 1)) with 512];
    pow2; intros; zdm; lia.
Qed.

(** Byte [i] of a compressed polynomial holds coefficients [2 i] and [2 i + 1]. *)
Lemma get_poly_compress a i : (i < 128)%nat ->
  get (poly_compress a) i =
  u8 (Z.lor (compress_coeff4 (get a (2 * i))) (Z.shiftl (compress_coeff4 (get a (2 * i + 1))) 4)).
Proof.
  intros Hi. pose proof (Nat.div_mod_eq i 4) as E. pose proof (Nat.mod_upper_bound i 4 ltac:(lia)).
  set (h := (i / 4)%nat) in *. set (j := (i mod 4)%nat) in *. clearbody h j. subst i.
  unfold poly_compress. change (KYBER_N / 8)%nat with 32%nat.
  rewrite (get_rows 4) by (lia || reflexivity). cbn [seq map]. cells.
  replace (2 * (4 * h + j))%nat with (8 * h + 2 * j)%nat by lia.
  destruct j as [|[|[|[|j]]]]; try lia; cells; rewrite <- ?Nat.add_assoc; reflexivity.
Qed.

Lemma poly_compress_length a : length (poly_compress a) = KYBER_POLYCOMPRESSEDBYTES.
Proof. apply (rows_length 4 32). reflexivity. Qed.

Lemma poly_compress_bytes a : bytes (poly_compress a).
Proof. apply Forall_rows. intros i Hi. repeat constructor; apply u8_range. Qed.

Lemma poly_decompress_length b : is_poly (poly_decompress b).
Proof. apply (rows_length 2 128). reflexivity. Qed.

Lemma decompress_row y : is_byte y ->
  [s16 (Z.shiftr (u16 (Z.land y 15) * KYBER_Q + 8) 4);
   s16 (Z.shiftr (u16 (Z.shiftr y 4) * KYBER_Q + 8) 4)] =
  [decompress 4 (y mod 16); decompress 4 (y / 16)].
Proof.
  unfold is_byte. intros H. rewrite land_f. shifts. unfold decompress, u16, KYBER_Q.
  change (2 ^ (4 - 1)) with 8. pow2.
  rewrite (Z.mod_small (y mod 16)), (Z.mod_small (y / 16)) by (zdm; lia).
  repeat f_equal; (rewrite s16_small; [f_equal; ring|pow2; zdm; lia]).
Qed.

Lemma pack4 x y : 0 <= x < 16 -> 0 <= y < 16 -> u8 (Z.lor x (Z.shiftl y 4)) = x + 16 * y.
Proof.
  intros Hx Hy. rewrite lor_shiftl_add by (pow2; lia). apply u8_small. pow2. lia.
Qed.

Lemma compress4_range c : 0 <= compress_coeff4 c < 16.
Proof.
  unfold compress_coeff4. cbv zeta. rewrite land_f. unfold u8. pow2. zdm; lia.
Qed.

Lemma get_poly_compress_pack a i : (i < 128)%nat ->
  get (poly_compress a) i =
  compress_coeff4 (get a (2 * i)) + 16 * compress_coeff4 (get a (2 * i + 1)).
Proof. intros Hi. rewrite get_poly_compress by easy. apply pack4; apply compress4_range. Qed.

Lemma decompress_compress_poly a :
  is_poly a -> Forall (fun c => - KYBER_Q <= c < KYBER_Q) a ->
  poly_decompress (poly_compress a) = map (fun c => decompress 4 (compress 4 (c mod KYBER_Q))) a.
Proof.
  intros Ha Hb. rewrite <- (rows_eta 2 128 (map _ a)) by (rewrite length_map; exact Ha).
  unfold poly_decompress. change (KYBER_N / 2)%nat with 128%nat. apply rows_ext. intros i Hi.
  unfold is_poly in Ha.
  rewrite decompress_row
    by (apply (get_Forall is_byte); [apply poly_compress_bytes|rewrite poly_compress_length; exact Hi]).
  rewrite get_poly_compress_pack by easy.
  cbn [seq map]. rewrite !get_map by lia. rewrite Nat.add_0_r.
  rewrite <- !compress_coeff4_spec
    by (apply (get_Forall (fun c => - KYBER_Q <= c < KYBER_Q)); [easy|lia]).
  pose proof (compress4_range (get a (2 * i))). pose proof (compress4_range (get a (2 * i + 1))).
  repeat f_equal; zdm; lia.
Qed.

Lemma compress_decompress_poly b :
  length b = KYBER_POLYCOMPRESSEDBYTES -> bytes b -> poly_compress (poly_decompress b) = b.
Proof.
  intros Hl Hb. apply list_eq_get; [now rewrite poly_compress_length, Hl|].
  intros i Hi. rewrite poly_compress_length in Hi. change KYBER_POLYCOMPRESSEDBYTES with 128%nat in *.
  rewrite get_poly_compress_pack by easy.
  assert (Hy : is_byte (get b i)) by (apply get_Forall; [easy|lia]).
  assert (Hrow : forall j, (j < 2)%nat -> get (poly_decompress b) (2 * i + j) =
    get [decompress 4 (get b i mod 16); decompress 4 (get b i / 16)] j).
  { intros j Hj. unfold poly_decompress. change (KYBER_N / 2)%nat with 128%nat.
    rewrite (get_rows 2) by (easy || reflexivity). now rewrite decompress_row by easy. }
  pose proof (Hrow 0%nat ltac:(lia)) as E0. pose proof (Hrow 1%nat ltac:(lia)) as E1.
  rewrite Nat.add_0_r in E0. rewrite E0, E1. cells. unfold is_byte in Hy.
  assert (H0 : 0 <= get b i mod 16 < 16) by (zdm; lia).
  assert (H1 : 0 <= get b i / 16 < 16) by (zdm; lia).
  pose proof (decompress_range 4 _ (or_introl eq_refl) H0).
  pose proof (decompress_range 4 _ (or_introl eq_refl) H1).
  assert (Hq : - KYBER_Q <= 0) by (unfold KYBER_Q; lia).
  rewrite !compress_coeff4_spec by (split; [eapply Z.le_trans; [exact Hq|]|]; easy).
  rewrite !(Z.mod_small _ KYBER_Q), !compress_decompress4 by easy.
  pose proof (Z.div_mod (get b i) 16 ltac:(lia)). lia.
Qed.

(** ** Messages *)

Lemma cmov_int16_spec r v b :
  - 2 ^ 15 <= r < 2 ^ 15 -> - 2 ^ 15 <= v < 2 ^ 15 -> b = 0 \/ b = 1 ->
  cmov_int16 r v b = if b =? 1 then v else r.
Proof.
  intros Hr Hv [->| ->]; unfold cmov_int16; cbv zeta.
  - change (u16 (- 0)) with 0. rewrite Z.land_0_l, Z.lxor_0_r. now apply s16_small.
  - change (u16 (- (1))) with (Z.ones 16). change (1 =? 1) with true. cbv iota.
    rewrite <- (s16_small v Hv) at 2. apply s16_eq. unfold cong.
    rewrite <- !Z.land_ones by lia. apply Z.bits_inj'. intros i Hi.
    rewrite !Z.land_spec, !Z.lxor_spec, Z.land_spec, Z.lxor_spec.
    destruct (Z.testbit (Z.ones 16) i), (Z.testbit r i), (Z.testbit v i); reflexivity.
Qed.

(** Bit [j] of a byte, as the code extracts it. *)
Definition byte_bit (m : Z) (j : nat) : Z := Z.land (Z.shiftr m (Z.of_nat j)) 1.

Lemma byte_bit_01 m j : byte_bit m j = 0 \/ byte_bit m j = 1.
Proof. unfold byte_bit. rewrite land_1. zdm; lia. Qed.

Lemma poly_frommsg_length m : is_poly (poly_frommsg m).
Proof. apply (rows_length 8 32). reflexivity. Qed.

Lemma get_frommsg m i j : (i < 32)%nat -> (j < 8)%nat ->
  get (poly_frommsg m) (8 * i + j) = 1665 * byte_bit (get m i) j.
Proof.
  intros Hi Hj. unfold poly_frommsg. change (KYBER_N / 8)%nat with 32%nat.
  rewrite (get_rows 8) by (easy || reflexivity). rewrite get_map_seq by easy. fold (byte_bit (get m i) j).
  change ((KYBER_Q + 1) / 2) with 1665.
  destruct (byte_bit_01 (get m i) j) as [-> | ->]; reflexivity.
Qed.

Lemma frommsg_bounded m : bounded 1665 (poly_frommsg m).
Proof.
  apply Forall_rows. intros i Hi. apply Forall_map_seq. intros j Hj.
  change ((KYBER_Q + 1) / 2) with 1665. fold (byte_bit (get m i) j).
  destruct (byte_bit_01 (get m i) j) as [-> | ->]; vm_compute; split; discriminate.
Qed.

(** The threshold of the decoder. *)
Lemma tomsg_bit_spec c : - 1664 <= c <= 1664 ->
  tomsg_bit c = if Z.abs c <=? 832 then 0 else 1.
Proof.
  intros H. unfold tomsg_bit. cbv zeta. rewrite land_1. shifts. unfold u32. pow2.
  btest; zdm; lia.
Qed.

(** A coefficient that is [1665 b] up to noise in [-832, 831] decodes to [b]. *)
Lemma tomsg_bit_noise c b w : - 1664 <= c <= 1664 -> b = 0 \/ b = 1 -> - 832 <= w <= 831 ->
  c ≡ 1665 * b + w [mod q] -> tomsg_bit c = b.
Proof.
  intros Hc Hb Hw H. rewrite tomsg_bit_spec by easy.
  apply cong_divide in H; [|discriminate]. destruct H as [k Hk]. unfold KYBER_Q in Hk.
  btest; lia.
Qed.

Lemma byte_of_bits m : is_byte m ->
  foldl (fun acc j => u8 (Z.lor acc (u32 (Z.shiftl (byte_bit m j) (Z.of_nat j))))) 0 (seq 0 8) = m.
Proof.
  intros H.
  assert (E : forallb (fun k => let m := Z.of_nat k in
    foldl (fun acc j => u8 (Z.lor acc (u32 (Z.shiftl (byte_bit m j) (Z.of_nat j))))) 0 (seq 0 8) =? m)
    (seq 0 256) = true) by (vm_compute; reflexivity).
  unfold is_byte in H.
  pose proof (forallb_seq _ _ _ E (Z.to_nat m) ltac:(lia)) as E1. cbv beta zeta in E1.
  rewrite Z2Nat.id in E1 by lia. now apply Z.eqb_eq.
Qed.

Lemma poly_tomsg_length a : length (poly_tomsg a) = KYBER_INDCPA_MSGBYTES.
Proof. reflexivity. Qed.

Lemma poly_tomsg_bits a m :
  length m = KYBER_INDCPA_MSGBYTES -> bytes m ->
  (forall i j, (i < 32)%nat -> (j < 8)%nat -> tomsg_bit (get a (8 * i + j)) = byte_bit (get m i) j) ->
  poly_tomsg a = m.
Proof.
  intros Hl Hb H. change KYBER_INDCPA_MSGBYTES with 32%nat in Hl.
  apply list_eq_get; [now rewrite poly_tomsg_length, Hl|]. intros i Hi.
  change (length (poly_tomsg a)) with 32%nat in Hi.
  unfold poly_tomsg. rewrite get_map_seq by exact Hi.
  rewrite <- (byte_of_bits (get m i)) by (apply get_Forall; [easy|lia]).
  apply foldl_ext_in. intros acc j Hj%in_seq. now rewrite H by lia.
Qed.

(** ** Noise *)

(** Coefficient [n] of the centred binomial sampler: bits [4 n .. 4 n + 3] of the
    buffer, the first two added and the last two subtracted. *)
Definition buf_bit (buf : list Z) (k : nat) : Z := byte_bit (get buf (k / 8)) (k mod 8).

Definition cbd_coeff (buf : list Z) (n : nat) : Z :=
  buf_bit buf (4 * n) + buf_bit buf (4 * n + 1) - buf_bit buf (4 * n + 2) - buf_bit buf (4 * n + 3).

Lemma land_concat n a b c d : 0 <= n -> 0 <= a < 2 ^ n -> 0 <= c < 2 ^ n ->
  Z.land (a + 2 ^ n * b) (c + 2 ^ n * d) = Z.land a c + 2 ^ n * Z.land b d.
Proof.
  intros Hn Ha Hc.
  assert (Hl : 0 <= Z.land a c < 2 ^ n).
  { assert (E : Z.land (Z.land a c) (Z.ones n) = Z.land a c)
      by now rewrite <- Z.land_assoc, Z.land_ones, Z.mod_small by lia.
    rewrite <- E, Z.land_ones by lia. apply Z.mod_pos_bound, Z.pow_pos_nonneg; lia. }
  rewrite <- !(lor_shiftl_add _ _ n) by easy. apply Z.bits_inj'. intros i Hi.
  rewrite !Z.land_spec, !Z.lor_spec, Z.land_spec, !Z.shiftl_spec by lia.
  destruct (Z.lt_ge_cases i n).
  - rewrite !(Z.testbit_neg_r _ (i - n)) by lia. now rewrite !orb_false_r.
  - assert (Hz : forall x, 0 <= x < 2 ^ n -> Z.testbit x i = false).
    { intros x Hx. rewrite <- (Z.mod_small x (2 ^ n)) by lia. now apply Z.mod_pow2_bits_high; lia. }
    rewrite !Hz by easy. rewrite Z.land_spec. reflexivity.
Qed.

(** The masked sum of one byte. *)
Definition cbd_byte (y : Z) : Z := Z.land y 0x55 + Z.land (Z.shiftr y 1) 0x55.

Lemma cbd_byte_spec y : is_byte y -> 0 <= cbd_byte y < 256 /\
  (cbd_byte y mod 4 = byte_bit y 0 + byte_bit y 1) /\
  (cbd_byte y / 4 mod 4 = byte_bit y 2 + byte_bit y 3) /\
  (cbd_byte y / 16 mod 4 = byte_bit y 4 + byte_bit y 5) /\
  (cbd_byte y / 64 = byte_bit y 6 + byte_bit y 7).
Proof.
  intros H.
  assert (E : forallb (fun k => let y := Z.of_nat k in
    (0 <=? cbd_byte y) && (cbd_byte y <? 256) &&
    (cbd_byte y mod 4 =? byte_bit y 0 + byte_bit y 1) &&
    (cbd_byte y / 4 mod 4 =? byte_bit y 2 + byte_bit y 3) &&
    (cbd_byte y / 16 mod 4 =? byte_bit y 4 + byte_bit y 5) &&
    (cbd_byte y / 64 =? byte_bit y 6 + byte_bit y 7)) (seq 0 256) = true)
    by (vm_compute; reflexivity).
  unfold is_byte in H. pose proof (forallb_seq _ _ _ E (Z.to_nat y) ltac:(lia)) as E1.
  cbv beta zeta in E1. rewrite Z2Nat.id in E1 by lia. clear E. lia.
Qed.

Lemma load32_value x : bytes x -> (4 <= length x)%nat ->
  load32_littleendian x = get x 0 + 2 ^ 8 * (get x 1 + 2 ^ 8 * (get x 2 + 2 ^ 8 * get x 3)).
Proof.
  intros Hx Hl.
  assert (Hg : forall i, (i < 4)%nat -> is_byte (get x i)) by (intros; apply get_Forall; [easy|lia]).
  pose proof (Hg 0%nat ltac:(lia)). pose proof (Hg 1%nat ltac:(lia)).
  pose proof (Hg 2%nat ltac:(lia)). pose proof (Hg 3%nat ltac:(lia)). unfold is_byte in *.
  unfold load32_littleendian. cbv zeta.
  rewrite !u32_small by (rewrite Z.shiftl_mul_pow2 by lia; pow2; lia).
  rewrite (lor_shiftl_add (get x 0)), (lor_shiftl_add _ (get x 2)), (lor_shiftl_add _ (get x 3))
    by (pow2; lia).
  pow2. ring.
Qed.

Lemma cbd_word x0 x1 x2 x3 : is_byte x0 -> is_byte x1 -> is_byte x2 -> is_byte x3 ->
  let t := x0 + 2 ^ 8 * (x1 + 2 ^ 8 * (x2 + 2 ^ 8 * x3)) in
  Z.land t 0x55555555 + Z.land (Z.shiftr t 1) 0x55555555 =
  cbd_byte x0 + 2 ^ 8 * (cbd_byte x1 + 2 ^ 8 * (cbd_byte x2 + 2 ^ 8 * cbd_byte x3)).
Proof.
  intros H0 H1 H2 H3. cbv zeta.
  assert (Hc : 0x55555555 = 0x55 + 2 ^ 8 * (0x55 + 2 ^ 8 * (0x55 + 2 ^ 8 * 0x55))) by reflexivity.
  unfold cbd_byte. rewrite Hc, !Z.shiftr_div_pow2 by lia. change (2 ^ 1) with 2.
  set (a1 := x1 + 2 ^ 8 * (x2 + 2 ^ 8 * x3)). set (a2 := x2 + 2 ^ 8 * x3).
  (* the byte above contributes its bit 0 to bit 7 of the shifted byte, which the mask drops *)
  assert (Hsplit : forall y z m, is_byte y -> 0 <= z ->
    Z.land ((y + 2 ^ 8 * z) / 2) (0x55 + 2 ^ 8 * m) = Z.land (y / 2) 0x55 + 2 ^ 8 * Z.land (z / 2) m).
  { intros y z m Hy Hz. unfold is_byte in Hy.
    replace ((y + 2 ^ 8 * z) / 2) with ((y / 2 + 2 ^ 7 * (z mod 2)) + 2 ^ 8 * (z / 2)) by (pow2; zdm; lia).
    rewrite land_concat by (pow2; zdm; lia). f_equal.
    pose proof (land_concat 7 (y / 2) (z mod 2) 0x55 0) as E.
    rewrite Z.mul_0_r, Z.add_0_r, Z.land_0_r, Z.mul_0_r, Z.add_0_r in E. apply E; pow2; zdm; lia. }
  unfold is_byte in *.
  rewrite !land_concat, !Hsplit by (unfold a1, a2, is_byte; pow2; lia).
  unfold a1, a2. rewrite !land_concat, !Hsplit by (unfold is_byte; pow2; lia). ring.
Qed.

(** Two bits of byte [k] of a four-byte word. *)
Lemma word_field d0 d1 d2 d3 (k : nat) (s : Z) :
  0 <= d0 < 256 -> 0 <= d1 < 256 -> 0 <= d2 < 256 -> 0 <= d3 < 256 ->
  (k < 4)%nat -> s = 0 \/ s = 2 \/ s = 4 \/ s = 6 ->
  Z.land (Z.shiftr (d0 + 2 ^ 8 * (d1 + 2 ^ 8 * (d2 + 2 ^ 8 * d3))) (8 * Z.of_nat k + s)) 3 =
  get [d0; d1; d2; d3] k / 2 ^ s mod 4.
Proof.
  intros H0 H1 H2 H3 Hk Hs. rewrite land_3, Z.shiftr_div_pow2 by lia.
  destruct k as [|[|[|[|k]]]]; try lia; cells;
    destruct Hs as [->|[->|[->| ->]]]; cbn [Z.of_nat Pos.of_succ_nat Pos.succ];
    change (8 * 0) with 0; change (8 * 1) with 8; change (8 * 2) with 16; change (8 * 3) with 24;
    cbn [Z.add Pos.add Pos.succ]; rewrite ?Z.pow_0_r; pow2; zdm; lia.
Qed.

Lemma cbd2_length buf : is_poly (cbd2 buf).
Proof. apply (rows_length 8 32). reflexivity. Qed.

Lemma cbd2_spec buf n :
  bytes buf -> length buf = 128%nat -> (n < 256)%nat -> get (cbd2 buf) n = cbd_coeff buf n.
Proof.
  intros Hb Hl Hn.
  (* byte 4 i + k of the buffer, low or high half *)
  assert (exists i k h, n = (8 * i + (2 * k + h))%nat /\ (i < 32 /\ k < 4 /\ h < 2)%nat) as
    (i & k & h & -> & Hi & Hk & Hh).
  { exists (n / 8)%nat, (n mod 8 / 2)%nat, (n mod 2)%nat.
    pose proof (Nat.div_mod_eq n 8). pose proof (Nat.mod_upper_bound n 8 ltac:(lia)).
    pose proof (Nat.div_mod_eq (n mod 8) 2). pose proof (Nat.mod_upper_bound n 2 ltac:(lia)).
    assert ((n mod 8) mod 2 = n mod 2)%nat.
    { rewrite (Nat.div_mod_eq n 8) at 2. replace (8 * (n / 8))%nat with (4 * (n / 8) * 2)%nat by lia.
      now rewrite Nat.add_comm, Nat.Div0.mod_add. }
    pose proof (Nat.mod_upper_bound n 2 ltac:(lia)). lia. }
  unfold cbd2. change (KYBER_N / 8)%nat with 32%nat.
  rewrite (get_rows 8) by (lia || reflexivity). rewrite get_map_seq by lia.
  assert (Hg : forall j, (j < 4)%nat -> is_byte (get buf (4 * i + j)))
    by (intros; apply get_Forall; [easy|lia]).
  pose proof (Hg 0%nat ltac:(lia)) as B0. pose proof (Hg 1%nat ltac:(lia)) as B1.
  pose proof (Hg 2%nat ltac:(lia)) as B2. pose proof (Hg 3%nat ltac:(lia)) as B3.
  rewrite load32_value by (try apply Forall_drop; rewrite ?length_drop; easy || lia).
  rewrite !get_drop. rewrite cbd_word by easy.
  destruct (cbd_byte_spec _ B0) as [D0 _]. destruct (cbd_byte_spec _ B1) as [D1 _].
  destruct (cbd_byte_spec _ B2) as [D2 _]. destruct (cbd_byte_spec _ B3) as [D3 _].
  rewrite u32_small by (pow2; lia).
  replace (4 * Z.of_nat (2 * k + h) + 0) with (8 * Z.of_nat k + 4 * Z.of_nat h) by lia.
  replace (4 * Z.of_nat (2 * k + h) + 2) with (8 * Z.of_nat k + (4 * Z.of_nat h + 2)) by lia.
  rewrite !word_field by (easy || lia).
  set (y := get buf (4 * i + k)).
  replace (get [_; _; _; _] k) with (cbd_byte y)
    by (unfold y; destruct k as [|[|[|[|k]]]]; try lia; reflexivity).
  assert (By : is_byte y) by (apply Hg; lia). destruct (cbd_byte_spec y By) as (Dy & E0 & E1 & E2 & E3).
  assert (Hbit : forall m, (m < 4)%nat ->
    buf_bit buf (4 * (8 * i + (2 * k + h)) + m) = byte_bit y (4 * h + m)).
  { intros m Hm. unfold buf_bit. replace (4 * (8 * i + (2 * k + h)) + m)%nat with (8 * (4 * i + k) + (4 * h + m))%nat by lia.
    rewrite nat_div_cell, nat_mod_cell by lia. reflexivity. }
  unfold cbd_coeff. pose proof (Hbit 0%nat ltac:(lia)) as Hb0. rewrite Nat.add_0_r in Hb0.
  rewrite Hb0, !Hbit by lia.
  pose proof (byte_bit_01 y) as Hbb.
  destruct h as [|[|h]]; try lia; cbn [Nat.mul Nat.add];
    [change (2 ^ (4 * Z.of_nat 0)) with 1; change (2 ^ (4 * Z.of_nat 0 + 2)) with 4
    |change (2 ^ (4 * Z.of_nat 1)) with 16; change (2 ^ (4 * Z.of_nat 1 + 2)) with 64].
  - rewrite Z.div_1_r, E0, E1.
    pose proof (Hbb 0%nat); pose proof (Hbb 1%nat); pose proof (Hbb 2%nat); pose proof (Hbb 3%nat).
    rewrite !s16_small; pow2; try lia; rewrite !s16_small; pow2; lia.
  - rewrite E2. rewrite (Z.mod_small (cbd_byte y / 64)) by (zdm; lia). rewrite E3.
    pose proof (Hbb 4%nat); pose proof (Hbb 5%nat); pose proof (Hbb 6%nat); pose proof (Hbb 7%nat).
    rewrite !s16_small; pow2; try lia; rewrite !s16_small; pow2; lia.
Qed.

Lemma cbd_coeff_range buf n : - 2 <= cbd_coeff buf n <= 2.
Proof.
  unfold cbd_coeff, buf_bit.
  repeat match goal with |- context [byte_bit ?m ?j] =>
    let b := fresh "b" in destruct (byte_bit_01 m j); set (b := byte_bit m j) in *; clearbody b
  end; lia.
Qed.

Lemma cbd2_bounded buf : bytes buf -> length buf = 128%nat -> bounded 2 (cbd2 buf).
Proof.
  intros Hb Hl. apply List.Forall_forall. intros x Hx.
  apply (In_nth _ _ 0) in Hx. destruct Hx as (n & Hn & <-).
  rewrite (cbd2_length buf) in Hn. change (nth n (cbd2 buf) 0) with (get (cbd2 buf) n).
  rewrite cbd2_spec by easy. apply cbd_coeff_range.
Qed.

(** ** Constant-time comparison and selection *)

Lemma lor_bits_zero a b : Z.lor a b = 0 <-> a = 0 /\ b = 0.
Proof. apply Z.lor_eq_0_iff. Qed.

Lemma byte_lor a b : is_byte a -> is_byte b -> u8 (Z.lor a b) = Z.lor a b /\ is_byte (Z.lor a b).
Proof.
  unfold is_byte. intros Ha Hb.
  assert (H : 0 <= Z.lor a b < 2 ^ 8).
  { split; [apply Z.lor_nonneg; lia|].
    destruct (Z.eq_dec (Z.lor a b) 0) as [->|Hne]; [lia|].
    assert (0 <= Z.lor a b) by (apply Z.lor_nonneg; lia).
    apply Z.log2_lt_pow2; [lia|]. rewrite Z.log2_lor by lia.
    assert (Hlog : forall x, 0 <= x < 256 -> Z.log2 x < 8).
    { intros x Hx. destruct (Z.eq_dec x 0) as [->|]; [reflexivity|]. apply Z.log2_lt_pow2; pow2; lia. }
    pose proof (Hlog a Ha). pose proof (Hlog b Hb). lia. }
  split; [now apply u8_small|]. pow2. lia.
Qed.

Lemma byte_lxor a b : is_byte a -> is_byte b -> is_byte (Z.lxor a b).
Proof.
  unfold is_byte. intros Ha Hb. assert (H0 : 0 <= Z.lxor a b) by (apply Z.lxor_nonneg; lia).
  split; [easy|]. destruct (Z.eq_dec (Z.lxor a b) 0) as [->|Hne]; [lia|].
  change 256 with (2 ^ 8). apply Z.log2_lt_pow2; [lia|].
  pose proof (Z.log2_lxor a b ltac:(lia) ltac:(lia)) as Hl.
  assert (Hlog : forall x, 0 <= x < 256 -> Z.log2 x < 8).
  { intros x Hx. destruct (Z.eq_dec x 0) as [->|]; [reflexivity|]. apply Z.log2_lt_pow2; pow2; lia. }
  pose proof (Hlog a Ha). pose proof (Hlog b Hb). lia.
Qed.

Lemma verify_fold a b n : bytes a -> bytes b -> (n <= length a)%nat -> (n <= length b)%nat ->
  let r := foldl (fun r i => u8 (Z.lor r (Z.lxor (get a i) (get b i)))) 0 (seq 0 n) in
  is_byte r /\ (r = 0 <-> take n a = take n b).
Proof.
  intros Ha Hb. induction n as [|n IH]; intros La Lb; [simpl; unfold is_byte; split; [lia|easy]|].
  rewrite seq_S, foldl_snoc. cbn [Nat.add]. cbv zeta in *.
  destruct (IH ltac:(lia) ltac:(lia)) as [IHb IHe].
  set (r := foldl _ 0 (seq 0 n)) in *. clearbody r.
  assert (Hga : is_byte (get a n)) by (apply get_Forall; [easy|lia]).
  assert (Hgb : is_byte (get b n)) by (apply get_Forall; [easy|lia]).
  destruct (byte_lor r (Z.lxor (get a n) (get b n)) IHb (byte_lxor _ _ Hga Hgb)) as [-> Hr].
  split; [exact Hr|]. rewrite lor_bits_zero, Z.lxor_eq_0_iff, IHe.
  rewrite (take_S_r a n (get a n)), (take_S_r b n (get b n)) by (apply get_lookup; lia).
  split; [intros [-> ->]; easy|]. intros E.
  apply app_inj_2 in E; [|reflexivity]. destruct E as [E1 E2]. split; [easy|]. now injection E2.
Qed.

(** [verify] is 0 exactly on equal prefixes, and 1 otherwise. *)
Lemma verify_spec a b n : bytes a -> bytes b -> (n <= length a)%nat -> (n <= length b)%nat ->
  verify a b n = if decide (take n a = take n b) then 0 else 1.
Proof.
  intros Ha Hb La Lb. destruct (verify_fold a b n Ha Hb La Lb) as [Hr He]. cbv zeta in *.
  unfold verify. cbv zeta. set (r := foldl _ 0 (seq 0 n)) in *. clearbody r.
  unfold is_byte in Hr. unfold u64. rewrite Z.shiftr_div_pow2 by lia.
  destruct (decide (take n a = take n b)) as [E|E].
  - apply He in E. subst r. reflexivity.
  - assert (r <> 0) by tauto. pow2. zdm; lia.
Qed.

(** [cmov] copies the prefix when the condition bit is 1. *)
Lemma cmov_spec r x n b :
  bytes r -> bytes x -> (n <= length r)%nat -> (n <= length x)%nat -> b = 0 \/ b = 1 ->
  cmov r x n b = if b =? 1 then take n x ++ drop n r else r.
Proof.
  intros Hr Hx Lr Lx Hb. unfold cmov. cbv zeta.
  assert (Hstep : forall u v, is_byte u -> is_byte v ->
    u8 (Z.lxor u (Z.land (u8 (- b)) (Z.lxor u v))) = if b =? 1 then v else u).
  { intros u v Hu Hv. unfold is_byte in *. destruct Hb as [->| ->].
    - change (u8 (- 0)) with 0. rewrite Z.land_0_l, Z.lxor_0_r. now apply u8_small.
    - change (u8 (- (1))) with (Z.ones 8). change (1 =? 1) with true. cbv iota. rewrite Z.land_comm, Z.land_ones, Z.mod_small.
      + rewrite <- Z.lxor_assoc, Z.lxor_nilpotent, Z.lxor_0_l. now apply u8_small.
      + exact (byte_lxor u v Hu Hv).
      + lia. }
  induction n as [|n IH]; [now destruct (b =? 1)|].
  rewrite seq_S, foldl_snoc. cbn [Nat.add]. specialize (IH ltac:(lia) ltac:(lia)).
  rewrite IH. clear IH.
  assert (Hgr : is_byte (get r n)) by (apply get_Forall; [easy|lia]).
  assert (Hgx : is_byte (get x n)) by (apply get_Forall; [easy|lia]).
  destruct (b =? 1) eqn:Eb.
  - assert (Hd : drop n r = get r n :: drop (S n) r) by (apply drop_S, get_lookup; lia).
    assert (Hlen : length (take n x) = n) by (rewrite length_take; lia).
    pose proof (get_middle (take n x) (get r n) (drop (S n) r)) as G.
    pose proof (fun y => insert_middle (take n x) (drop (S n) r) (get r n) y) as I.
    rewrite Hlen in G, I. rewrite Hd, G, I, Hstep by easy.
    rewrite (take_S_r x n (get x n)) by (apply get_lookup; lia). now rewrite <- app_assoc.
  - rewrite Hstep by easy. apply list_insert_id, get_lookup. lia.
Qed.

(** ** Claims *)

(** serialisation of a polynomial.  Reading back the 384 bytes that [poly_tobytes]
    writes gives the coefficients reduced to [0, q), for all coefficients in [-q, q);
    and writing what was read restores every 384-byte string that encodes
    coefficients below [q]. *)
Theorem poly_bytes_roundtrip (p b : list Z) :
  is_poly p -> Forall (fun c => - KYBER_Q <= c < KYBER_Q) p ->
  length b = KYBER_POLYBYTES -> bytes b -> Forall (fun c => c < KYBER_Q) (poly_frombytes b) ->
  poly_frombytes (poly_tobytes p) = map (fun c => c mod KYBER_Q) p /\
  poly_tobytes (poly_frombytes b) = b.
Proof. intros. split; [now apply frombytes_tobytes|now apply tobytes_frombytes]. Qed.

Lemma poly_bytes_roundtrip_witness :
  poly_frombytes (poly_tobytes (replicate 256 (-1))) = map (fun c => c mod KYBER_Q) (replicate 256 (-1)) /\
  poly_tobytes (poly_frombytes (replicate 384 7)) = replicate 384 7.
Proof.
  apply (poly_bytes_roundtrip (replicate 256 (-1)) (replicate 384 7)).
  - apply length_replicate.
  - apply Forall_replicate. unfold KYBER_Q. lia.
  - apply length_replicate.
  - apply Forall_replicate. unfold is_byte. lia.
  - assert (E : forallb (fun c => c <? KYBER_Q) (poly_frombytes (replicate 384 7)) = true)
      by (vm_compute; reflexivity).
    apply List.Forall_forall. intros x Hx. rewrite forallb_forall in E. now apply Z.ltb_lt, E.
Defined.

(** messages survive noise.  When every coefficient of a reduced polynomial is
    congruent to that of [poly_frommsg m] plus a noise term in [-832, 831],
    [poly_tomsg] recovers the 32-byte message [m]; without noise the two are inverse. *)
Theorem poly_tomsg_decodes (m a : list Z) :
  length m = KYBER_INDCPA_MSGBYTES -> bytes m -> is_poly a -> bounded 1664 a ->
  (forall n, (n < KYBER_N)%nat -> exists w, - 832 <= w <= 831 /\
     get a n ≡ get (poly_frommsg m) n + w [mod KYBER_Q]) ->
  poly_tomsg a = m.
Proof.
  intros Lm Bm La Ba H. apply poly_tomsg_bits; [easy|easy|]. intros i j Hi Hj.
  destruct (H (8 * i + j)%nat) as (w & Hw & E); [change KYBER_N with 256%nat; lia|].
  rewrite get_frommsg in E by easy.
  apply (tomsg_bit_noise _ _ w); [now apply (bounded_get 1664)|apply byte_bit_01|easy|exact E].
Qed.

Lemma poly_tomsg_decodes_witness : poly_tomsg (replicate 256 (-800)) = replicate 32 0.
Proof.
  apply (poly_tomsg_decodes (replicate 32 0) (replicate 256 (-800))).
  - reflexivity.
  - apply Forall_replicate. unfold is_byte. lia.
  - apply length_replicate.
  - apply Forall_replicate. lia.
  - intros n Hn. exists (-800). split; [lia|]. apply cong_of_eq.
    assert (E1 : get (replicate 256 (-800)) n = -800).
    { unfold get. now rewrite nth_lookup, (lookup_replicate_2 256 (-800) n Hn). }
    assert (E2 : poly_frommsg (replicate 32 0) = replicate 256 0) by (vm_compute; reflexivity).
    rewrite E1, E2. unfold get. now rewrite nth_lookup, (lookup_replicate_2 256 0 n Hn).
Defined.

(** the noise sampler.  Coefficient [n] of [cbd2] is the sum of bits [4 n] and
    [4 n + 1] minus the sum of bits [4 n + 2] and [4 n + 3] of the 128-byte buffer, so it
    is between -2 and 2: the word-parallel masks and additions never carry. *)
Theorem cbd2_correct (buf : list Z) (n : nat) :
  bytes buf -> length buf = 128%nat -> (n < KYBER_N)%nat ->
  let bit k := Z.b2z (Z.testbit (get buf (k / 8)) (Z.of_nat (k mod 8))) in
  get (cbd2 buf) n = bit (4 * n)%nat + bit (4 * n + 1)%nat - bit (4 * n + 2)%nat - bit (4 * n + 3)%nat /\
  - 2 <= get (cbd2 buf) n <= 2.
Proof.
  intros Hb Hl Hn bit. rewrite cbd2_spec by easy. split; [|apply cbd_coeff_range].
  assert (E : forall k, buf_bit buf k = bit k).
  { intros k. unfold buf_bit, byte_bit, bit. rewrite land_1, <- Z.bit0_mod.
    now rewrite Z.shiftr_spec, Z.add_0_l by lia. }
  unfold cbd_coeff. now rewrite !E.
Qed.

Lemma cbd2_correct_witness : - 2 <= get (cbd2 (replicate 128 0xE4)) 3 <= 2.
Proof.
  assert (Hb : bytes (replicate 128 0xE4)) by (apply Forall_replicate; unfold is_byte; lia).
  exact (proj2 (cbd2_correct (replicate 128 0xE4) 3 Hb (length_replicate 128 0xE4)
           ltac:(change KYBER_N with 256%nat; lia))).
Defined.

(** the constant-time helpers.  [verify] returns 0 when the first [n] bytes of its
    arguments agree and 1 otherwise; [cmov] with condition 1 overwrites the first [n]
    bytes with the source and with condition 0 changes nothing. *)
Theorem verify_cmov_correct (a b : list Z) (n : nat) :
  bytes a -> bytes b -> (n <= length a)%nat -> (n <= length b)%nat ->
  (verify a b n = 0 <-> take n a = take n b) /\ (verify a b n = 0 \/ verify a b n = 1) /\
  cmov a b n 1 = take n b ++ drop n a /\ cmov a b n 0 = a.
Proof.
  intros Ha Hb La Lb. rewrite verify_spec by easy.
  rewrite !cmov_spec by auto. destruct (decide (take n a = take n b)) as [E|E];
    repeat split; auto; intros H; (discriminate H || now elim E).
Qed.

Lemma verify_cmov_correct_witness :
  cmov [1; 2; 3] [7; 8; 9] 2 1 = [7; 8; 3] /\ cmov [1; 2; 3] [7; 8; 9] 2 0 = [1; 2; 3].
Proof.
  assert (Ha : bytes [1; 2; 3]) by (repeat constructor; unfold is_byte; lia).
  assert (Hb : bytes [7; 8; 9]) by (repeat constructor; unfold is_byte; lia).
  exact (proj2 (proj2 (verify_cmov_correct [1; 2; 3] [7; 8; 9] 2 Ha Hb ltac:(simpl; lia) ltac:(simpl; lia)))).
Defined.
