(* ===== verification/KyberPolyvec.v ===== *)
(** * Kyber: vectors of polynomials

    The code of [crypto/kyber/polyvec.c].  A [polyvec] is the list of its
    [KYBER_K] polynomials. *)
From S2P Require Import Prelude KyberReduce KyberNtt KyberNttSpec KyberSymmetric KyberPoly KyberPolySpec KyberCodec.

(** [a->vec[i]] *)
Definition vec (a : list (list Z)) (i : nat) : list Z := nth i a [].

(** ** [polyvec.c] *)

(** The body of the inner loop of [polyvec_compress]: [t[k]]. *)
Definition compress_coeff10 (c : Z) : Z :=
  let t := u16 c in
  let t := u16 (t + Z.land (Z.shiftr (s16 t) 15) KYBER_Q) in
  let d0 := t in
  let d0 := u64 (Z.shiftl d0 10) in
  let d0 := u64 (d0 + 1665) in
  let d0 := u64 (d0 * 1290167) in
  let d0 := Z.shiftr d0 32 in
  u16 (Z.land d0 0x3ff).

Definition polyvec_compress (a : list (list Z)) : list Z :=
  rows KYBER_K (fun i =>
    rows (KYBER_N / 4) (fun j =>
      let t := map (fun k => compress_coeff10 (get (vec a i) (4 * j + k))) (seq 0 4) in
      [u8 (Z.shiftr (get t 0) 0);
       u8 (Z.lor (Z.shiftr (get t 0) 8) (Z.shiftl (get t 1) 2));
       u8 (Z.lor (Z.shiftr (get t 1) 6) (Z.shiftl (get t 2) 4));
       u8 (Z.lor (Z.shiftr (get t 2) 4) (Z.shiftl (get t 3) 6));
       u8 (Z.shiftr (get t 3) 2)])).

(** [a] has advanced by 5 bytes per group of four coefficients. *)
Definition polyvec_decompress (a : list Z) : list (list Z) :=
  map (fun i =>
    rows (KYBER_N / 4) (fun j =>
      let a := drop (5 * (KYBER_N / 4 * i + j)) a in
      let t := [u16 (Z.lor (Z.shiftr (get a 0) 0) (u16 (Z.shiftl (get a 1) 8)));
                u16 (Z.lor (Z.shiftr (get a 1) 2) (Z.shiftl (get a 2) 6));
                u16 (Z.lor (Z.shiftr (get a 2) 4) (Z.shiftl (get a 3) 4));
                u16 (Z.lor (Z.shiftr (get a 3) 6) (Z.shiftl (get a 4) 2))] in
      map (fun k => s16 (Z.shiftr (u32 (Z.land (get t k) 0x3FF * KYBER_Q + 512)) 10)) (seq 0 4)))
    (seq 0 KYBER_K).

Definition polyvec_tobytes (a : list (list Z)) : list Z :=
  rows KYBER_K (fun i => poly_tobytes (vec a i)).

Definition polyvec_frombytes (a : list Z) : list (list Z) :=
  map (fun i => poly_frombytes (drop (i * KYBER_POLYBYTES) a)) (seq 0 KYBER_K).

Definition polyvec_ntt (r : list (list Z)) : list (list Z) :=
  map (fun i => poly_ntt (vec r i)) (seq 0 KYBER_K).

Definition polyvec_invntt_tomont (r : list (list Z)) : list (list Z) :=
  map (fun i => poly_invntt_tomont (vec r i)) (seq 0 KYBER_K).

Definition polyvec_basemul_acc_montgomery (a b : list (list Z)) : list Z :=
  let r := poly_basemul_montgomery (vec a 0) (vec b 0) in
  let r := foldl (fun r i =>
    let t := poly_basemul_montgomery (vec a i) (vec b i) in
    poly_add r t) r (seq 1 (KYBER_K - 1)) in
  poly_reduce r.

Definition polyvec_reduce (r : list (list Z)) : list (list Z) :=
  map (fun i => poly_reduce (vec r i)) (seq 0 KYBER_K).

Definition polyvec_add (a b : list (list Z)) : list (list Z) :=
  map (fun i => poly_add (vec a i) (vec b i)) (seq 0 KYBER_K).

(** ** Vectors *)

(** A [polyvec] whose polynomials satisfy [P]. *)
Definition polyvec_of (P : list Z -> Prop) (v : list (list Z)) : Prop :=
  length v = KYBER_K /\ forall i, (i < KYBER_K)%nat -> is_poly (vec v i) /\ P (vec v i).

Lemma vec_map_seq (f : nat -> list Z) n i : (i < n)%nat -> vec (map f (seq 0 n)) i = f i.
Proof.
  intros H. unfold vec. rewrite nth_indep with (d' := f 0%nat) by now rewrite length_map, length_seq.
  rewrite map_nth, seq_nth by easy. f_equal; lia.
Qed.

Lemma polyvec_of_map P f :
  (forall i, (i < KYBER_K)%nat -> is_poly (f i) /\ P (f i)) ->
  polyvec_of P (map f (seq 0 KYBER_K)).
Proof.
  intros H. split; [reflexivity|]. intros i Hi. rewrite vec_map_seq by easy. auto.
Qed.

Lemma polyvec_of_impl (P Q : list Z -> Prop) v :
  (forall p, is_poly p -> P p -> Q p) -> polyvec_of P v -> polyvec_of Q v.
Proof. intros H [Hl Hv]. split; [easy|]. intros i Hi. destruct (Hv i Hi). auto. Qed.

Lemma polyvec_eq v w : length v = KYBER_K -> length w = KYBER_K ->
  (forall i, (i < KYBER_K)%nat -> vec v i = vec w i) -> v = w.
Proof. intros Hv Hw H. eapply nth_ext; [congruence|]. rewrite Hv. exact H. Qed.

(** ** Ten-bit compression *)

Lemma c10_arith u : 0 <= u < 3329 ->
  ((1024 * u + 1665) * 1290167) / 4294967296 mod 1024 = ((1024 * u + 1664) / 3329) mod 1024.
Proof. intros H. zdm; lia. Qed.

Lemma compress_coeff10_spec c : - KYBER_Q <= c < KYBER_Q ->
  compress_coeff10 c = compress 10 (c mod KYBER_Q).
Proof.
  intros H. unfold compress_coeff10. cbv zeta. fold (to_unsigned c). rewrite to_unsigned_mod by easy.
  assert (Hu : 0 <= c mod KYBER_Q < 3329) by (apply Z.mod_pos_bound; reflexivity).
  set (u := c mod KYBER_Q) in *. clearbody u. rewrite land_3ff. shifts.
  unfold compress, KYBER_Q, u64, u16. pow2.
  rewrite (Z.mod_small (u * 1024)), (Z.mod_small (u * 1024 + 1665)) by lia.
  rewrite (Z.mod_small ((u * 1024 + 1665) * 1290167)) by lia.
  replace (u * 1024 + 1665) with (1024 * u + 1665) by ring. rewrite c10_arith by easy.
  apply Z.mod_small. zdm; lia.
Qed.

Lemma compress10_range c : 0 <= compress_coeff10 c < 1024.
Proof. unfold compress_coeff10. cbv zeta. rewrite land_3ff. unfold u16. pow2. zdm; lia. Qed.

(** Five bytes for four ten-bit fields. *)
Definition pack10 (t0 t1 t2 t3 : Z) : list Z :=
  [t0 mod 256; t0 / 256 + 4 * (t1 mod 64); t1 / 64 + 16 * (t2 mod 16);
   t2 / 16 + 64 * (t3 mod 4); t3 / 4].

Lemma pack10_bytes t0 t1 t2 t3 :
  0 <= t0 < 1024 -> 0 <= t1 < 1024 -> 0 <= t2 < 1024 -> 0 <= t3 < 1024 ->
  [u8 (Z.shiftr t0 0); u8 (Z.lor (Z.shiftr t0 8) (Z.shiftl t1 2));
   u8 (Z.lor (Z.shiftr t1 6) (Z.shiftl t2 4)); u8 (Z.lor (Z.shiftr t2 4) (Z.shiftl t3 6));
   u8 (Z.shiftr t3 2)] = pack10 t0 t1 t2 t3.
Proof.
  intros H0 H1 H2 H3. unfold pack10.
  rewrite !lor_shiftl_add by (lia || (rewrite Z.shiftr_div_pow2 by lia; pow2; zdm; lia)).
  unfold u8. rewrite Z.shiftr_0_r. shifts. cells_eq; zdm; lia.
Qed.

Definition unpack10 (b0 b1 b2 b3 b4 : Z) : list Z :=
  [b0 + 256 * (b1 mod 4); b1 / 4 + 64 * (b2 mod 16); b2 / 16 + 16 * (b3 mod 64);
   b3 / 64 + 4 * b4].

Lemma unpack10_fields b0 b1 b2 b3 b4 :
  is_byte b0 -> is_byte b1 -> is_byte b2 -> is_byte b3 -> is_byte b4 ->
  map (fun t => Z.land t 0x3FF)
    [u16 (Z.lor (Z.shiftr b0 0) (u16 (Z.shiftl b1 8)));
     u16 (Z.lor (Z.shiftr b1 2) (Z.shiftl b2 6));
     u16 (Z.lor (Z.shiftr b2 4) (Z.shiftl b3 4));
     u16 (Z.lor (Z.shiftr b3 6) (Z.shiftl b4 2))] = unpack10 b0 b1 b2 b3 b4.
Proof.
  unfold is_byte, unpack10. intros H0 H1 H2 H3 H4. cbn [map]. rewrite !land_3ff.
  rewrite (u16_small (Z.shiftl b1 8)) by (rewrite Z.shiftl_mul_pow2 by lia; pow2; lia).
  rewrite Z.shiftr_0_r.
  rewrite !lor_shiftl_add by (lia || (rewrite ?Z.shiftr_div_pow2 by lia; pow2; zdm; lia)).
  unfold u16. shifts. cells_eq; zdm; lia.
Qed.

Lemma unpack_pack10 t0 t1 t2 t3 :
  0 <= t0 < 1024 -> 0 <= t1 < 1024 -> 0 <= t2 < 1024 -> 0 <= t3 < 1024 ->
  let b := pack10 t0 t1 t2 t3 in
  unpack10 (get b 0) (get b 1) (get b 2) (get b 3) (get b 4) = [t0; t1; t2; t3].
Proof.
  intros H0 H1 H2 H3. unfold pack10, unpack10. cbv zeta. cells. cells_eq; zdm; lia.
Qed.

Lemma pack_unpack10 b0 b1 b2 b3 b4 :
  is_byte b0 -> is_byte b1 -> is_byte b2 -> is_byte b3 -> is_byte b4 ->
  let t := unpack10 b0 b1 b2 b3 b4 in
  pack10 (get t 0) (get t 1) (get t 2) (get t 3) = [b0; b1; b2; b3; b4].
Proof.
  unfold is_byte. intros H0 H1 H2 H3 H4. unfold pack10, unpack10. cbv zeta. cells. cells_eq; zdm; lia.
Qed.

Lemma unpack10_range b0 b1 b2 b3 b4 k :
  is_byte b0 -> is_byte b1 -> is_byte b2 -> is_byte b3 -> is_byte b4 -> (k < 4)%nat ->
  0 <= get (unpack10 b0 b1 b2 b3 b4) k < 1024.
Proof.
  unfold is_byte, unpack10. intros H0 H1 H2 H3 H4 Hk.
  destruct k as [|[|[|[|k]]]]; try lia; cells; zdm; lia.
Qed.

Lemma decompress10_value t : 0 <= t < 1024 ->
  s16 (Z.shiftr (u32 (t * KYBER_Q + 512)) 10) = decompress 10 t.
Proof.
  intros H. unfold decompress, u32, KYBER_Q. change (2 ^ (10 - 1)) with 512. shifts.
  rewrite Z.mod_small by lia. rewrite s16_small by (pow2; zdm; lia). f_equal. ring.
Qed.

(** Bytes [5 m .. 5 m + 4] of a compressed vector, [m] the number of the group. *)
Lemma get_polyvec_compress a i j k :
  (i < KYBER_K)%nat -> (j < 64)%nat -> (k < 5)%nat ->
  get (polyvec_compress a) (5 * (64 * i + j) + k) =
  get (pack10 (compress_coeff10 (get (vec a i) (4 * j + 0))) (compress_coeff10 (get (vec a i) (4 * j + 1)))
              (compress_coeff10 (get (vec a i) (4 * j + 2))) (compress_coeff10 (get (vec a i) (4 * j + 3)))) k.
Proof.
  intros Hi Hj Hk. unfold polyvec_compress. change (KYBER_N / 4)%nat with 64%nat.
  replace (5 * (64 * i + j) + k)%nat with (320 * i + (5 * j + k))%nat by lia.
  rewrite (get_rows 320); [|intros; now rewrite (rows_length 5)|easy|lia].
  rewrite (get_rows 5) by (easy || reflexivity). cbn [map seq]. cells.
  now rewrite pack10_bytes by apply compress10_range.
Qed.

Lemma polyvec_compress_length a : length (polyvec_compress a) = KYBER_POLYVECCOMPRESSEDBYTES.
Proof. apply (rows_length 320 3). intros. now apply (rows_length 5 64). Qed.

Lemma polyvec_compress_bytes a : bytes (polyvec_compress a).
Proof. apply Forall_rows. intros i Hi. apply Forall_rows. intros j Hj. repeat constructor; apply u8_range. Qed.

(** Group [j] of polynomial [i] of a decompressed vector. *)
Lemma decompress_group b i j :
  bytes b -> length b = KYBER_POLYVECCOMPRESSEDBYTES -> (i < KYBER_K)%nat -> (j < 64)%nat ->
  forall k, (k < 4)%nat ->
  get (vec (polyvec_decompress b) i) (4 * j + k) =
  decompress 10 (get (let m := (5 * (64 * i + j))%nat in
    unpack10 (get b (m + 0)) (get b (m + 1)) (get b (m + 2)) (get b (m + 3)) (get b (m + 4))) k).
Proof.
  intros Hb Hl Hi Hj k Hk. change KYBER_POLYVECCOMPRESSEDBYTES with 960%nat in Hl.
  change KYBER_K with 3%nat in Hi.
  unfold polyvec_decompress. rewrite vec_map_seq by exact Hi. change (KYBER_N / 4)%nat with 64%nat.
  rewrite (get_rows 4) by (easy || reflexivity). rewrite get_map_seq by easy.
  rewrite !get_drop. cbv zeta. set (m := (5 * (64 * i + j))%nat).
  assert (Hg : forall s, (s < 5)%nat -> is_byte (get b (m + s)))
    by (intros; apply get_Forall; [easy|unfold m; lia]).
  pose proof (unpack10_fields (get b (m + 0)) (get b (m + 1)) (get b (m + 2)) (get b (m + 3))
    (get b (m + 4)) ltac:(apply Hg; lia) ltac:(apply Hg; lia) ltac:(apply Hg; lia)
    ltac:(apply Hg; lia) ltac:(apply Hg; lia)) as E.
  apply (f_equal (fun l => get l k)) in E. rewrite get_map in E by exact Hk.
  rewrite E, decompress10_value by (apply unpack10_range; (easy || (apply Hg; lia))). reflexivity.
Qed.

Lemma polyvec_decompress_shape b i : (i < KYBER_K)%nat -> is_poly (vec (polyvec_decompress b) i).
Proof.
  intros Hi. unfold polyvec_decompress. rewrite vec_map_seq by easy.
  apply (rows_length 4 64). reflexivity.
Qed.

(** Compression and decompression is the rounding of every coefficient. *)
Lemma decompress_compress_polyvec a :
  polyvec_of (Forall (fun c => - KYBER_Q <= c < KYBER_Q)) a ->
  polyvec_decompress (polyvec_compress a) =
  map (map (fun c => decompress 10 (compress 10 (c mod KYBER_Q)))) a.
Proof.
  intros [Hl Ha]. apply polyvec_eq; [reflexivity|now rewrite length_map|].
  intros i Hi. destruct (Ha i Hi) as [Hp Hr]. unfold is_poly in Hp.
  assert (Em : vec (map (map (fun c => decompress 10 (compress 10 (c mod KYBER_Q)))) a) i =
               map (fun c => decompress 10 (compress 10 (c mod KYBER_Q))) (vec a i))
    by exact (map_nth (map (fun c => decompress 10 (compress 10 (c mod KYBER_Q)))) a [] i).
  rewrite Em. apply list_eq_get.
  - rewrite length_map, Hp. now apply polyvec_decompress_shape.
  - intros n Hn. rewrite (polyvec_decompress_shape _ i Hi) in Hn.
    rewrite get_map by lia. pose proof (Nat.div_mod_eq n 4) as E.
    pose proof (Nat.mod_upper_bound n 4 ltac:(lia)) as Hk.
    assert (Hj : (n / 4 < 64)%nat) by lia.
    set (j := (n / 4)%nat) in *. set (k := (n mod 4)%nat) in *. clearbody j k. subst n.
    rewrite (decompress_group _ i j (polyvec_compress_bytes a) (polyvec_compress_length a) Hi Hj k Hk).
    cbv zeta. rewrite !get_polyvec_compress by (easy || lia).
    rewrite unpack_pack10 by apply compress10_range.
    f_equal. rewrite <- compress_coeff10_spec
      by (apply (get_Forall (fun c => - KYBER_Q <= c < KYBER_Q)); [easy|lia]).
    destruct k as [|[|[|[|k]]]]; try lia; reflexivity.
Qed.

(** A compressed vector is restored by compression. *)
Lemma compress_decompress_polyvec b :
  length b = KYBER_POLYVECCOMPRESSEDBYTES -> bytes b ->
  polyvec_compress (polyvec_decompress b) = b.
Proof.
  intros Hl Hb. apply list_eq_get; [now rewrite polyvec_compress_length|].
  intros n Hn. rewrite polyvec_compress_length in Hn. change KYBER_POLYVECCOMPRESSEDBYTES with 960%nat in *.
  assert (exists i j k, n = (5 * (64 * i + j) + k)%nat /\ (i < 3 /\ j < 64 /\ k < 5)%nat)
    as (i & j & k & -> & Hi & Hj & Hk).
  { exists (n / 5 / 64)%nat, (n / 5 mod 64)%nat, (n mod 5)%nat.
    pose proof (Nat.div_mod_eq n 5). pose proof (Nat.div_mod_eq (n / 5) 64).
    pose proof (Nat.mod_upper_bound n 5 ltac:(lia)). pose proof (Nat.mod_upper_bound (n / 5) 64 ltac:(lia)).
    lia. }
  rewrite get_polyvec_compress by easy.
  assert (Hg : forall s, (s < 5)%nat -> is_byte (get b (5 * (64 * i + j) + s)))
    by (intros; apply get_Forall; [easy|lia]).
  rewrite !(decompress_group b i j Hb Hl Hi Hj) by lia. cbv zeta.
  set (m := (5 * (64 * i + j))%nat) in *.
  assert (Hr : forall s, (s < 4)%nat -> forall u, u = unpack10 (get b (m + 0)) (get b (m + 1))
      (get b (m + 2)) (get b (m + 3)) (get b (m + 4)) ->
    compress_coeff10 (decompress 10 (get u s)) = get u s).
  { intros s Hs u ->. set (u := unpack10 _ _ _ _ _).
    assert (Hu : 0 <= get u s < 1024) by (apply unpack10_range; (easy || (apply Hg; lia))).
    pose proof (decompress_range 10 (get u s) (or_intror eq_refl) Hu) as Hd.
    rewrite compress_coeff10_spec by (unfold KYBER_Q in *; lia).
    rewrite Z.mod_small by easy. now apply compress_decompress10. }
  rewrite !Hr by (lia || reflexivity).
  rewrite pack_unpack10 by (apply Hg; lia).
  destruct k as [|[|[|[|[|k]]]]]; try lia; reflexivity.
Qed.

(** ** Serialisation of vectors *)

Lemma polyvec_tobytes_length a : length (polyvec_tobytes a) = KYBER_POLYVECBYTES.
Proof. apply (rows_length 384 3). intros. apply poly_tobytes_length. Qed.

Lemma polyvec_tobytes_bytes a : bytes (polyvec_tobytes a).
Proof. apply Forall_rows. intros. apply poly_tobytes_bytes. Qed.

(** [poly_frombytes] reads the first [KYBER_POLYBYTES] bytes only. *)
Lemma poly_frombytes_prefix a b :
  (forall i, (i < KYBER_POLYBYTES)%nat -> get a i = get b i) -> poly_frombytes a = poly_frombytes b.
Proof.
  intros H. change KYBER_POLYBYTES with 384%nat in H. unfold poly_frombytes.
  change (KYBER_N / 2)%nat with 128%nat. apply rows_ext. intros i Hi. now rewrite !H by lia.
Qed.

Lemma polyvec_frombytes_prefix a b :
  (forall i, (i < KYBER_POLYVECBYTES)%nat -> get a i = get b i) ->
  polyvec_frombytes a = polyvec_frombytes b.
Proof.
  intros H. unfold polyvec_frombytes. apply map_ext_in. intros i Hi%in_seq.
  apply poly_frombytes_prefix. intros j Hj. rewrite !get_drop. apply H.
  change KYBER_POLYVECBYTES with (3 * KYBER_POLYBYTES)%nat.
  change KYBER_K with 3%nat in Hi. nia.
Qed.

Lemma frombytes_tobytes_polyvec a :
  polyvec_of (Forall (fun c => - KYBER_Q <= c < KYBER_Q)) a ->
  polyvec_frombytes (polyvec_tobytes a) = map (map (fun c => c mod KYBER_Q)) a.
Proof.
  intros [Hl Ha]. apply polyvec_eq; [reflexivity|now rewrite length_map|].
  intros i Hi. destruct (Ha i Hi) as [Hp Hr].
  assert (Em : vec (map (map (fun c => c mod KYBER_Q)) a) i = map (fun c => c mod KYBER_Q) (vec a i))
    by exact (map_nth (map (fun c => c mod KYBER_Q)) a [] i).
  rewrite Em, <- frombytes_tobytes by easy.
  unfold polyvec_frombytes. rewrite vec_map_seq by exact Hi.
  apply poly_frombytes_prefix. intros j Hj. rewrite get_drop, (Nat.mul_comm i).
  apply (get_rows KYBER_POLYBYTES); [|easy|easy]. intros. apply poly_tobytes_length.
Qed.
