(* ===== verification/KyberIndcpa.v ===== *)
(** * Kyber: the CPA-secure encryption scheme

    The code of [crypto/kyber/indcpa.c].  [gen_matrix] runs a rejection loop that
    no input bounds, so it takes the number of extra blocks it may squeeze and
    returns [None] when they do not suffice; everything built on it does the
    same. *)
From S2P Require Import Prelude KyberReduce KyberNtt KyberSymmetric KyberPoly KyberPolyvec.

(** ** Packing *)

Definition pack_pk (pk : list (list Z)) (seed : list Z) : list Z :=
  polyvec_tobytes pk ++ take KYBER_SYMBYTES seed.

Definition unpack_pk (packedpk : list Z) : list (list Z) * list Z :=
  (polyvec_frombytes packedpk, take KYBER_SYMBYTES (drop KYBER_POLYVECBYTES packedpk)).

Definition pack_sk (sk : list (list Z)) : list Z := polyvec_tobytes sk.

Definition unpack_sk (packedsk : list Z) : list (list Z) := polyvec_frombytes packedsk.

Definition pack_ciphertext (b : list (list Z)) (v : list Z) : list Z :=
  polyvec_compress b ++ poly_compress v.

Definition unpack_ciphertext (c : list Z) : list (list Z) * list Z :=
  (polyvec_decompress c, poly_decompress (drop KYBER_POLYVECCOMPRESSEDBYTES c)).

(** ** Rejection sampling *)

(** [while(ctr < len && pos + 3 <= buflen)]; [out] is [r[0 .. ctr-1]]. *)
Fixpoint rej_uniform_loop (fuel len : nat) (buf : list Z) (buflen pos : nat) (out : list Z)
    : list Z :=
  match fuel with
  | O => out
  | S fuel =>
      if ((length out <? len) && (pos + 3 <=? buflen))%nat then
        let val0 := Z.land (Z.lor (Z.shiftr (get buf (pos + 0)) 0)
                                  (Z.shiftl (get buf (pos + 1)) 8)) 0xFFF in
        let val1 := Z.land (Z.lor (Z.shiftr (get buf (pos + 1)) 4)
                                  (Z.shiftl (get buf (pos + 2)) 4)) 0xFFF in
        let pos := (pos + 3)%nat in
        let out := if val0 <? KYBER_Q then out ++ [val0] else out in
        let out := if (length out <? len)%nat && (val1 <? KYBER_Q) then out ++ [val1] else out in
        rej_uniform_loop fuel len buf buflen pos out
      else out
  end.

(** The sampled integers; their number is the value the function returns. *)
Definition rej_uniform (len : nat) (buf : list Z) (buflen : nat) : list Z :=
  rej_uniform_loop (S buflen) len buf buflen 0 [].

Definition GEN_MATRIX_NBLOCKS : nat :=
  ((12 * KYBER_N / 8 * (2 ^ 12) / 3329 + XOF_BLOCKBYTES) / XOF_BLOCKBYTES)%nat.

Section Indcpa.
Context `{Symmetric}.

(** [while(ctr < KYBER_N)] *)
Fixpoint gen_entry_loop (fuel : nat) (state : xof_state) (coeffs : list Z)
    : option (list Z) :=
  if (length coeffs <? KYBER_N)%nat then
    match fuel with
    | O => None
    | S fuel =>
        let '(buf, state) := xof_squeezeblocks 1 state in
        let buflen := XOF_BLOCKBYTES in
        let coeffs := coeffs ++ rej_uniform (KYBER_N - length coeffs) buf buflen in
        gen_entry_loop fuel state coeffs
    end
  else Some coeffs.

(** The body of the two loops of [gen_matrix]. *)
Definition gen_entry (fuel : nat) (state : xof_state) : option (list Z) :=
  let '(buf, state) := xof_squeezeblocks GEN_MATRIX_NBLOCKS state in
  let buflen := (GEN_MATRIX_NBLOCKS * XOF_BLOCKBYTES)%nat in
  let coeffs := rej_uniform KYBER_N buf buflen in
  gen_entry_loop fuel state coeffs.

Definition gen_matrix (fuel : nat) (seed : list Z) (transposed : bool)
    : option (list (list (list Z))) :=
  mapM (fun i =>
    mapM (fun j =>
      let state := if transposed then xof_absorb seed (Z.of_nat i) (Z.of_nat j)
                   else xof_absorb seed (Z.of_nat j) (Z.of_nat i) in
      gen_entry fuel state) (seq 0 KYBER_K)) (seq 0 KYBER_K).

Definition gen_a (fuel : nat) (seed : list Z) := gen_matrix fuel seed false.
Definition gen_at (fuel : nat) (seed : list Z) := gen_matrix fuel seed true.

(** ** Key generation, encryption, decryption *)

(** [for(i=0;i<KYBER_K;i++) poly_getnoise_eta1(&v.vec[i], seed, nonce++)] *)
Definition noise_eta1 (seed : list Z) (nonce : nat) : list (list Z) :=
  map (fun i => poly_getnoise_eta1 seed (u8 (Z.of_nat (nonce + i)))) (seq 0 KYBER_K).

Definition noise_eta2 (seed : list Z) (nonce : nat) : list (list Z) :=
  map (fun i => poly_getnoise_eta2 seed (u8 (Z.of_nat (nonce + i)))) (seq 0 KYBER_K).

(** The pair (pk, sk).  [publicseed] and [noiseseed] are the two halves of
    [buf]; the functions they are passed to read [KYBER_SYMBYTES] bytes. *)
Definition indcpa_keypair_derand (fuel : nat) (coins : list Z) : option (list Z * list Z) :=
  let buf := hash_g (take KYBER_SYMBYTES coins ++ [Z.of_nat KYBER_K]) in
  let publicseed := take KYBER_SYMBYTES buf in
  let noiseseed := drop KYBER_SYMBYTES buf in
  a ← gen_a fuel publicseed;
  let skpv := noise_eta1 noiseseed 0 in
  let e := noise_eta1 noiseseed KYBER_K in
  let skpv := polyvec_ntt skpv in
  let e := polyvec_ntt e in
  let pkpv := map (fun i =>
    poly_tomont (polyvec_basemul_acc_montgomery (nth i a []) skpv)) (seq 0 KYBER_K) in
  let pkpv := polyvec_add pkpv e in
  let pkpv := polyvec_reduce pkpv in
  let sk := pack_sk skpv in
  let pk := pack_pk pkpv publicseed in
  Some (pk, sk).

Definition indcpa_enc (fuel : nat) (m pk coins : list Z) : option (list Z) :=
  let '(pkpv, seed) := unpack_pk pk in
  let k := poly_frommsg m in
  at_ ← gen_at fuel seed;
  let sp := noise_eta1 coins 0 in
  let ep := noise_eta2 coins KYBER_K in
  let epp := poly_getnoise_eta2 coins (u8 (Z.of_nat (2 * KYBER_K))) in
  let sp := polyvec_ntt sp in
  let b := map (fun i => polyvec_basemul_acc_montgomery (nth i at_ []) sp) (seq 0 KYBER_K) in
  let v := polyvec_basemul_acc_montgomery pkpv sp in
  let b := polyvec_invntt_tomont b in
  let v := poly_invntt_tomont v in
  let b := polyvec_add b ep in
  let v := poly_add v epp in
  let v := poly_add v k in
  let b := polyvec_reduce b in
  let v := poly_reduce v in
  Some (pack_ciphertext b v).
End Indcpa.

Definition indcpa_dec (c sk : list Z) : list Z :=
  let '(b, v) := unpack_ciphertext c in
  let skpv := unpack_sk sk in
  let b := polyvec_ntt b in
  let mp := polyvec_basemul_acc_montgomery skpv b in
  let mp := poly_invntt_tomont mp in
  let mp := poly_sub v mp in
  let mp := poly_reduce mp in
  poly_tomsg mp.
