(* ===== verification/KyberSample.v ===== *)
(** * Kyber: rejection sampling of the public matrix

    [rej_uniform] and [gen_matrix] against the sampler of the standard: the
    entries are the first 256 twelve-bit candidates below [q] of the XOF stream,
    however the stream is cut into blocks. *)
From S2P Require Import Prelude KyberReduce KyberSymmetric KyberPoly KyberPolySpec KyberCodec KyberPolyvec KyberIndcpa.

(** The twelve-bit candidates of a byte stream, three bytes at a time. *)
Fixpoint candidates (buf : list Z) : list Z :=
  match buf with
  | b0 :: b1 :: b2 :: buf => (b0 + 256 * (b1 mod 16)) :: (b1 / 16 + 16 * b2) :: candidates buf
  | _ => []
  end.

Definition accepted (buf : list Z) : list Z :=
  List.filter (fun v => v <? KYBER_Q) (candidates buf).

Lemma candidate_values b0 b1 b2 : is_byte b0 -> is_byte b1 -> is_byte b2 ->
  Z.land (Z.lor (Z.shiftr b0 0) (Z.shiftl b1 8)) 0xFFF = b0 + 256 * (b1 mod 16) /\
  Z.land (Z.lor (Z.shiftr b1 4) (Z.shiftl b2 4)) 0xFFF = b1 / 16 + 16 * b2.
Proof.
  unfold is_byte. intros H0 H1 H2. rewrite !land_fff, Z.shiftr_0_r.
  rewrite !lor_shiftl_add by (lia || (rewrite ?Z.shiftr_div_pow2 by lia; pow2; zdm; lia)).
  shifts. split; zdm; lia.
Qed.

Lemma drop_three (buf : list Z) pos : (pos + 3 <= length buf)%nat ->
  drop pos buf = get buf (pos + 0) :: get buf (pos + 1) :: get buf (pos + 2) :: drop (pos + 3) buf.
Proof.
  intros H. rewrite (drop_S buf (get buf pos) pos) by (apply get_lookup; lia).
  rewrite (drop_S buf (get buf (S pos)) (S pos)) by (apply get_lookup; lia).
  rewrite (drop_S buf (get buf (S (S pos))) (S (S pos))) by (apply get_lookup; lia).
  rewrite Nat.add_0_r. replace (pos + 1)%nat with (S pos) by lia.
  replace (pos + 2)%nat with (S (S pos)) by lia. now replace (pos + 3)%nat with (S (S (S pos))) by lia.
Qed.

Lemma accepted_cons b0 b1 b2 buf :
  accepted (b0 :: b1 :: b2 :: buf) =
  (if b0 + 256 * (b1 mod 16) <? KYBER_Q then [b0 + 256 * (b1 mod 16)] else []) ++
  (if b1 / 16 + 16 * b2 <? KYBER_Q then [b1 / 16 + 16 * b2] else []) ++ accepted buf.
Proof.
  unfold accepted. cbn [candidates List.filter].
  destruct (_ <? KYBER_Q), (_ <? KYBER_Q); reflexivity.
Qed.

(** One candidate: kept when it is below [q] and there is room. *)
Definition push (len : nat) (out : list Z) (v : Z) : list Z :=
  if (length out <? len)%nat && (v <? KYBER_Q) then out ++ [v] else out.

Lemma push_length len out v : (length out <= len)%nat -> (length (push len out v) <= len)%nat.
Proof.
  intros H. unfold push. destruct (Nat.ltb_spec (length out) len); cbn [andb]; [|easy].
  destruct (v <? KYBER_Q); [|easy]. rewrite length_app. simpl. lia.
Qed.

Lemma push_take len out v rest : (length out <= len)%nat ->
  push len out v ++ take (len - length (push len out v)) rest =
  out ++ take (len - length out) ((if v <? KYBER_Q then [v] else []) ++ rest).
Proof.
  intros H. unfold push. destruct (Nat.ltb_spec (length out) len) as [Hl|Hl]; cbn [andb].
  - destruct (v <? KYBER_Q); [|reflexivity]. rewrite <- app_assoc, length_app. f_equal.
    cbn [length app]. replace (len - length out)%nat with (S (len - (length out + 1))) by lia.
    reflexivity.
  - replace (len - length out)%nat with 0%nat by lia. reflexivity.
Qed.

Lemma rej_uniform_loop_spec buf len : bytes buf -> forall fuel pos out,
  (length buf - pos < fuel)%nat -> (length out <= len)%nat ->
  rej_uniform_loop fuel len buf (length buf) pos out =
  out ++ take (len - length out) (accepted (drop pos buf)).
Proof.
  intros Hb. induction fuel as [|fuel IH]; intros pos out Hf Ho; [lia|].
  cbn [rej_uniform_loop]. destruct (Nat.ltb_spec (length out) len) as [Hlt|Hge]; cbn [andb].
  2: { replace (len - length out)%nat with 0%nat by lia. now rewrite take_0, app_nil_r. }
  destruct (Nat.leb_spec (pos + 3) (length buf)) as [Hp|Hp].
  2: { assert (Hd : (length (drop pos buf) < 3)%nat) by (rewrite length_drop; lia).
       destruct (drop pos buf) as [|x [|y [|z l]]]; simpl in Hd; try lia;
         unfold accepted; cbn [candidates List.filter]; now rewrite take_nil, app_nil_r. }
  rewrite drop_three by easy.
  assert (Hg : forall i, (i < 3)%nat -> is_byte (get buf (pos + i)))
    by (intros; apply get_Forall; [easy|lia]).
  destruct (candidate_values (get buf (pos + 0)) (get buf (pos + 1)) (get buf (pos + 2)))
    as [E0 E1]; [apply Hg; lia..|].
  rewrite E0, E1, accepted_cons.
  set (v0 := get buf (pos + 0) + _). set (v1 := get buf (pos + 1) / 16 + _). clearbody v0 v1.
  assert (P0 : (if v0 <? KYBER_Q then out ++ [v0] else out) = push len out v0).
  { unfold push. now destruct (Nat.ltb_spec (length out) len); [|lia]. }
  rewrite P0. fold (push len (push len out v0) v1).
  rewrite IH by (try apply push_length, push_length; easy || lia).
  now rewrite !push_take by (try apply push_length; easy).
Qed.

Lemma rej_uniform_spec len buf : bytes buf ->
  rej_uniform len buf (length buf) = take len (accepted buf).
Proof.
  intros Hb. unfold rej_uniform. rewrite rej_uniform_loop_spec by (easy || simpl; lia).
  simpl. now rewrite Nat.sub_0_r.
Qed.

(** Candidates do not straddle a cut at a multiple of three. *)
Lemma accepted_app n : forall a b, length a = (3 * n)%nat ->
  accepted (a ++ b) = accepted a ++ accepted b.
Proof.
  induction n as [|n IH]; intros a b Ha.
  - destruct a; [reflexivity|simpl in Ha; lia].
  - destruct a as [|x [|y [|z a]]]; simpl in Ha; try lia. cbn [app].
    rewrite !accepted_cons, IH by lia. now rewrite <- !app_assoc.
Qed.

Lemma accepted_range buf : bytes buf -> Forall (fun c => 0 <= c < KYBER_Q) (accepted buf).
Proof.
  intros Hb. unfold accepted. apply List.Forall_forall. intros c Hc.
  apply filter_In in Hc. destruct Hc as [Hin Hlt%Z.ltb_lt]. split; [|easy].
  assert (Hall : Forall (fun c => 0 <= c) (candidates buf)).
  { clear Hin. revert Hb. clear. revert buf.
    fix IH 1. intros [|x [|y [|z buf]]] Hb; cbn [candidates]; try constructor.
    - inversion Hb as [|? ? Hx Hb1]; subst. inversion Hb1 as [|? ? Hy Hb2]; subst.
      unfold is_byte in *. zdm; lia.
    - inversion Hb as [|? ? Hx Hb1]; subst. inversion Hb1 as [|? ? Hy Hb2]; subst.
      inversion Hb2 as [|? ? Hz Hb3]; subst. constructor; [unfold is_byte in *; zdm; lia|].
      now apply IH. }
  rewrite List.Forall_forall in Hall. auto.
Qed.

(** ** The matrix *)

Section Sample.
Context `{HS : SymmetricLaws}.

(** The sampler of the standard on the first [n] blocks of the stream. *)
Definition sample_ntt (n : nat) (st : xof_state) : option (list Z) :=
  let out := take KYBER_N (accepted (fst (xof_squeezeblocks n st))) in
  if (length out =? KYBER_N)%nat then Some out else None.

Lemma xof_zero st : fst (xof_squeezeblocks 0 st) = [].
Proof. pose proof (xof_length 0 st) as E. now destruct (fst (xof_squeezeblocks 0 st)). Qed.

Lemma xof_blocks_3 n st : length (fst (xof_squeezeblocks n st)) = (3 * (n * 56))%nat.
Proof. rewrite xof_length. unfold XOF_BLOCKBYTES, Keccak.SHAKE128_RATE. lia. Qed.

Lemma gen_entry_loop_spec fuel : forall st (pre : list Z) n,
  length pre = (3 * n)%nat ->
  gen_entry_loop fuel st (take KYBER_N (accepted pre)) =
  let out := take KYBER_N (accepted (pre ++ fst (xof_squeezeblocks fuel st))) in
  if (length out =? KYBER_N)%nat then Some out else None.
Proof.
  induction fuel as [|fuel IH]; intros st pre n Hpre; cbn [gen_entry_loop].
  - rewrite xof_zero, app_nil_r. cbv zeta. set (t := take KYBER_N (accepted pre)).
    assert (length t <= KYBER_N)%nat by (unfold t; rewrite length_take; lia).
    destruct (Nat.ltb_spec (length t) KYBER_N), (Nat.eqb_spec (length t) KYBER_N); easy || lia.
  - pose proof (xof_split 1 fuel st) as Es. change (1 + fuel)%nat with (S fuel) in Es. rewrite Es.
    pose proof (xof_length 1 st) as L1. pose proof (xof_bytes 1 st) as B1.
    pose proof (xof_blocks_3 1 st) as L3.
    destruct (xof_squeezeblocks 1 st) as [blk st1]. cbn [fst] in *.
    assert (Ef : fst (let '(out', st2) := xof_squeezeblocks fuel st1 in (blk ++ out', st2)) =
                 blk ++ fst (xof_squeezeblocks fuel st1))
      by now destruct (xof_squeezeblocks fuel st1).
    rewrite Ef. clear Ef Es. set (t := take KYBER_N (accepted pre)).
    assert (Ht : length t = Nat.min KYBER_N (length (accepted pre))) by apply length_take.
    destruct (Nat.ltb_spec (length t) KYBER_N) as [Hlt|Hge].
    + assert (E : t ++ rej_uniform (KYBER_N - length t) blk XOF_BLOCKBYTES =
                  take KYBER_N (accepted (pre ++ blk))).
      { rewrite Nat.mul_1_l in L1. rewrite <- L1, rej_uniform_spec by easy.
        rewrite (accepted_app n) by easy. unfold t in *.
        rewrite (take_ge (accepted pre)) by lia. rewrite take_app.
        rewrite (take_ge (accepted pre)) by lia. reflexivity. }
      rewrite E. rewrite (IH st1 (pre ++ blk) (n + 1 * 56)%nat)
        by (rewrite length_app, Hpre, L3; lia).
      now rewrite <- app_assoc.
    + cbv zeta. rewrite (accepted_app n) by easy.
      rewrite take_app. replace (KYBER_N - length (accepted pre))%nat with 0%nat by lia.
      rewrite take_0, app_nil_r. fold t.
      now destruct (Nat.eqb_spec (length t) KYBER_N); [|lia].
Qed.

(** The entry depends on the stream only, not on how it is squeezed. *)
Lemma gen_entry_spec fuel st : gen_entry fuel st = sample_ntt (GEN_MATRIX_NBLOCKS + fuel) st.
Proof.
  unfold gen_entry, sample_ntt. rewrite xof_split.
  pose proof (xof_length GEN_MATRIX_NBLOCKS st) as L. pose proof (xof_bytes GEN_MATRIX_NBLOCKS st) as B.
  pose proof (xof_blocks_3 GEN_MATRIX_NBLOCKS st) as L3.
  destruct (xof_squeezeblocks GEN_MATRIX_NBLOCKS st) as [buf st1]. cbn [fst] in *.
  rewrite <- L, rej_uniform_spec by easy.
  rewrite (gen_entry_loop_spec fuel st1 buf _ L3).
  now destruct (xof_squeezeblocks fuel st1).
Qed.

Lemma gen_entry_poly fuel st p : gen_entry fuel st = Some p ->
  is_poly p /\ Forall (fun c => 0 <= c < KYBER_Q) p.
Proof.
  rewrite gen_entry_spec. unfold sample_ntt. cbv zeta.
  destruct (Nat.eqb_spec (length (take KYBER_N (accepted (fst (xof_squeezeblocks (GEN_MATRIX_NBLOCKS + fuel) st))))) KYBER_N);
    [|discriminate].
  intros Hp%(inj Some). subst p. split; [easy|]. apply Forall_take, accepted_range, xof_bytes.
Qed.

(** The same by cases on the number of accepted candidates. *)
Lemma gen_entry_sample fuel st :
  gen_entry fuel st =
  let stream := fst (xof_squeezeblocks (3 + fuel) st) in
  if (KYBER_N <=? length (accepted stream))%nat then Some (take KYBER_N (accepted stream)) else None.
Proof.
  rewrite gen_entry_spec. unfold sample_ntt. change (GEN_MATRIX_NBLOCKS + fuel)%nat with (3 + fuel)%nat.
  cbv zeta. rewrite length_take.
  destruct (Nat.leb_spec KYBER_N (length (accepted (fst (xof_squeezeblocks (3 + fuel) st)))));
    destruct (Nat.eqb_spec (KYBER_N `min` length (accepted (fst (xof_squeezeblocks (3 + fuel) st)))) KYBER_N);
    reflexivity || lia.
Qed.

(** More fuel never changes an entry. *)
Lemma gen_entry_mono fuel fuel' st p : (fuel <= fuel')%nat ->
  gen_entry fuel st = Some p -> gen_entry fuel' st = Some p.
Proof.
  intros Hle. rewrite !gen_entry_spec. unfold sample_ntt. cbv zeta.
  replace (GEN_MATRIX_NBLOCKS + fuel')%nat with (GEN_MATRIX_NBLOCKS + fuel + (fuel' - fuel))%nat by lia.
  rewrite (xof_split (GEN_MATRIX_NBLOCKS + fuel)).
  pose proof (xof_blocks_3 (GEN_MATRIX_NBLOCKS + fuel) st) as L3.
  destruct (xof_squeezeblocks (GEN_MATRIX_NBLOCKS + fuel) st) as [out st1]. cbn [fst] in *.
  destruct (xof_squeezeblocks (fuel' - fuel) st1) as [out' st2]. cbn [fst].
  destruct (Nat.eqb_spec (length (take KYBER_N (accepted out))) KYBER_N) as [E|E]; [|discriminate].
  intros Hp%(inj Some). subst p. rewrite (accepted_app _ _ _ L3).
  rewrite length_take in E. rewrite take_app. replace (KYBER_N - length (accepted out))%nat with 0%nat by lia.
  rewrite take_0, app_nil_r, length_take.
  destruct (Nat.eqb_spec (KYBER_N `min` length (accepted out)) KYBER_N); [easy|lia].
Qed.
End Sample.

(** ** Matrices as functions of their indices *)

Lemma mapM_seq {A} (d : A) (f : nat -> option A) n (l : list A) :
  mapM f (seq 0 n) = Some l <->
  length l = n /\ forall i, (i < n)%nat -> f i = Some (nth i l d).
Proof.
  rewrite mapM_Some, Forall2_same_length_lookup. rewrite length_seq. split.
  - intros [Hl H]. split; [easy|]. intros i Hi.
    destruct (lookup_lt_is_Some_2 l i ltac:(lia)) as [x Hx].
    rewrite (nth_lookup_Some _ _ _ _ Hx). apply (H i); [|exact Hx].
    now apply lookup_seq_lt.
  - intros [Hl H]. split; [easy|]. intros i x y Hx Hy. apply lookup_seq in Hx. destruct Hx as [-> Hi].
    simpl. rewrite H by easy. now rewrite (nth_lookup_Some _ _ _ _ Hy).
Qed.

(** Entry [(i, j)] of a matrix. *)
Definition entry (a : list (list (list Z))) (i j : nat) : list Z := vec (nth i a []) j.

Section Matrix.
Context `{HS : SymmetricLaws}.

Definition entry_state (seed : list Z) (transposed : bool) (i j : nat) : xof_state :=
  if transposed then xof_absorb seed (Z.of_nat i) (Z.of_nat j)
  else xof_absorb seed (Z.of_nat j) (Z.of_nat i).

Lemma gen_matrix_spec fuel seed tr a :
  gen_matrix fuel seed tr = Some a <->
  length a = KYBER_K /\
  forall i, (i < KYBER_K)%nat -> length (nth i a []) = KYBER_K /\
    forall j, (j < KYBER_K)%nat ->
      gen_entry fuel (entry_state seed tr i j) = Some (entry a i j).
Proof.
  unfold gen_matrix. rewrite (mapM_seq []). apply and_iff_compat_l.
  split; intros H i Hi; specialize (H i Hi); [apply (mapM_seq []) in H|apply (mapM_seq [])]; exact H.
Qed.

Lemma gen_matrix_rows fuel seed tr a i :
  gen_matrix fuel seed tr = Some a -> (i < KYBER_K)%nat ->
  polyvec_of (Forall (fun c => 0 <= c < KYBER_Q)) (nth i a []).
Proof.
  intros H Hi. apply gen_matrix_spec in H. destruct H as [_ H]. destruct (H i Hi) as [Hl He].
  split; [easy|]. intros j Hj. apply (gen_entry_poly fuel (entry_state seed tr i j)). now apply He.
Qed.

(** The transposed matrix exists whenever the matrix does. *)
Lemma gen_at_of_gen_a fuel seed a :
  gen_a fuel seed = Some a ->
  exists at_, gen_at fuel seed = Some at_ /\
    forall i j, (i < KYBER_K)%nat -> (j < KYBER_K)%nat -> entry at_ i j = entry a j i.
Proof.
  intros H. apply gen_matrix_spec in H. destruct H as [Hl H].
  exists (map (fun i => map (fun j => entry a j i) (seq 0 KYBER_K)) (seq 0 KYBER_K)).
  assert (E : forall i, (i < KYBER_K)%nat ->
    nth i (map (fun i => map (fun j => entry a j i) (seq 0 KYBER_K)) (seq 0 KYBER_K)) [] =
    map (fun j => entry a j i) (seq 0 KYBER_K)).
  { intros i Hi. rewrite nth_indep with (d' := map (fun j => entry a j 0) (seq 0 KYBER_K))
      by now rewrite length_map, length_seq.
    rewrite (map_nth (fun i => map (fun j => entry a j i) (seq 0 KYBER_K))), seq_nth by easy.
    reflexivity. }
  split.
  - apply gen_matrix_spec. split; [reflexivity|]. intros i Hi. rewrite E by easy.
    split; [reflexivity|]. intros j Hj. unfold entry at 1. rewrite E, vec_map_seq by easy.
    destruct (H j Hj) as [_ He]. apply (He i Hi).
  - intros i j Hi Hj. unfold entry at 1. now rewrite E, vec_map_seq by easy.
Qed.
End Matrix.

(** ** Claims *)

(** C34: the public matrix.  [gen_matrix] succeeds with at most [fuel] extra blocks per
    entry exactly when the first [3 + fuel] blocks of every XOF stream hold 256
    candidates below [q]; then entry [(i, j)] is the first 256 of them in order, all in
    [0, q), and the matrix generated with [transposed = 1] is the transpose of the one
    generated with [transposed = 0]. *)
Theorem gen_matrix_samples `{HS : SymmetricLaws} (fuel : nat) (seed : list Z) :
  let stream i j := fst (xof_squeezeblocks (3 + fuel) (xof_absorb seed (Z.of_nat j) (Z.of_nat i))) in
  ((exists a, gen_matrix fuel seed false = Some a) <->
   forall i j, (i < KYBER_K)%nat -> (j < KYBER_K)%nat -> (KYBER_N <= length (accepted (stream i j)))%nat) /\
  forall a, gen_matrix fuel seed false = Some a ->
    (forall i j, (i < KYBER_K)%nat -> (j < KYBER_K)%nat ->
       entry a i j = take KYBER_N (accepted (stream i j)) /\
       length (entry a i j) = KYBER_N /\ Forall (fun c => 0 <= c < KYBER_Q) (entry a i j)) /\
    exists at_, gen_matrix fuel seed true = Some at_ /\
      forall i j, (i < KYBER_K)%nat -> (j < KYBER_K)%nat -> entry at_ i j = entry a j i.
Proof.
  intros stream.
  assert (Hent : forall a, gen_matrix fuel seed false = Some a -> forall i j,
    (i < KYBER_K)%nat -> (j < KYBER_K)%nat -> entry a i j = take KYBER_N (accepted (stream i j)) /\
       length (entry a i j) = KYBER_N /\ Forall (fun c => 0 <= c < KYBER_Q) (entry a i j)).
  { intros a H i j Hi Hj. apply gen_matrix_spec in H. destruct H as [_ H].
    destruct (H i Hi) as [_ He]. specialize (He j Hj).
    destruct (gen_entry_poly _ _ _ He) as [Hl Hr]. split; [|now split].
    rewrite gen_entry_sample in He. cbv zeta in He. change (entry_state seed false i j)
      with (xof_absorb seed (Z.of_nat j) (Z.of_nat i)) in He. fold (stream i j) in He.
    destruct (Nat.leb KYBER_N (length (accepted (stream i j)))); [|discriminate]. apply (inj Some) in He. symmetry. exact He. }
  split; [split|].
  - intros [a Ha] i j Hi Hj. destruct (Hent a Ha i j Hi Hj) as (E & El & _).
    rewrite E, length_take in El. lia.
  - intros H. exists (map (fun i => map (fun j => take KYBER_N (accepted (stream i j))) (seq 0 KYBER_K)) (seq 0 KYBER_K)).
    unfold gen_matrix. apply (mapM_seq []). split; [reflexivity|]. intros i Hi.
    rewrite nth_indep with (d' := map (fun j => take KYBER_N (accepted (stream 0%nat j))) (seq 0 KYBER_K))
      by now rewrite length_map, length_seq.
    rewrite (map_nth (fun i => map (fun j => take KYBER_N (accepted (stream i j))) (seq 0 KYBER_K))), seq_nth by easy.
    apply (mapM_seq []). split; [reflexivity|]. intros j Hj.
    fold (vec (map (fun j => take KYBER_N (accepted (stream (0 + i)%nat j))) (seq 0 KYBER_K)) j).
    rewrite vec_map_seq, gen_entry_sample by easy. change (0 + i)%nat with i.
    cbv zeta. fold (stream i j).
    destruct (Nat.leb_spec KYBER_N (length (accepted (stream i j)))) as [|Hlt]; [reflexivity|].
    specialize (H i j Hi Hj). lia.
  - intros a Ha. split; [now apply Hent|exact (gen_at_of_gen_a fuel seed a Ha)].
Qed.

Lemma gen_matrix_samples_witness :
  exists a, @gen_matrix zero_symmetric 0 (replicate 32 0) false = Some a.
Proof.
  apply (proj2 (proj1 (@gen_matrix_samples zero_symmetric zero_laws 0 (replicate 32 0)))).
  intros i j _ _. vm_compute. lia.
Defined.
