(* ===== verification/KyberIndcpaSpec.v ===== *)
(** * Kyber: decryption inverts encryption

    The three functions of [indcpa.c] followed slot by slot through the transform
    domain, the exact decryption noise, and the correctness of decryption when
    the noise stays inside the decoding window. *)
From S2P Require Import Prelude KyberReduce KyberNtt KyberNttSpec KyberSymmetric KyberPoly KyberPolySpec KyberCodec KyberPolyvec KyberIndcpa KyberSample.

(** ** Residues: subtraction and inner products of length three *)

Definition psub (x y : Z * Z) : Z * Z := padd x (pscale (-1) y).

Definition pdot (w : Z) (f g : nat -> Z * Z) : Z * Z :=
  padd (padd (pmul w (f 0%nat) (g 0%nat)) (pmul w (f 1%nat) (g 1%nat))) (pmul w (f 2%nat) (g 2%nat)).

#[export] Instance psub_proper : Proper (pcong ==> pcong ==> pcong) psub.
Proof. intros x x' Hx y y' Hy. unfold psub. now rewrite Hx, Hy. Qed.

Lemma pdot_proper w f f' g g' :
  (forall i, (i < 3)%nat -> pcong (f i) (f' i)) -> (forall i, (i < 3)%nat -> pcong (g i) (g' i)) ->
  pcong (pdot w f g) (pdot w f' g').
Proof. intros Hf Hg. unfold pdot. rewrite !Hf, !Hg by lia. reflexivity. Qed.

Lemma pscale_R_Rinv x : pcong (pscale R (pscale Rinv x)) x.
Proof.
  destruct x as [a b]. split; cbn [fst snd pscale]; rewrite Z.mul_assoc, R_Rinv;
    apply cong_of_eq; ring.
Qed.

(** The matrix cancels: [s . (A^T r) = (A s) . r]. *)
Lemma decryption_identity w (A : nat -> nat -> Z * Z) (s e r e1 du : nat -> Z * Z) (e2 k dv : Z * Z) :
  let t i := padd (pdot w (A i) s) (e i) in
  let u i := padd (pdot w (fun j => A j i) r) (e1 i) in
  let v := padd (padd (pdot w t r) e2) k in
  psub (padd v dv) (pdot w s (fun i => padd (u i) (du i))) =
  padd k (padd (padd e2 dv) (psub (pdot w e r) (pdot w s (fun i => padd (e1 i) (du i))))).
Proof.
  cbv zeta. unfold pdot, psub, pscale, padd, pmul. cbn [fst snd].
  apply f_equal2; ring.
Qed.

(** ** Accumulated products *)

Lemma pair_at_zip F x y i : is_poly x -> is_poly y -> (i < 128)%nat ->
  pair_at (zip_with F x y) i =
  (F (fst (pair_at x i)) (fst (pair_at y i)), F (snd (pair_at x i)) (snd (pair_at y i))).
Proof.
  unfold is_poly. intros Hx Hy Hi. unfold pair_at. cbn [fst snd]. now rewrite !get_zip_with by lia.
Qed.

Lemma pair_at_add x y i : is_poly x -> is_poly y -> (i < 128)%nat ->
  pair_at (zip_with Z.add x y) i = padd (pair_at x i) (pair_at y i).
Proof. intros. now rewrite pair_at_zip. Qed.

Lemma evalX_add w x y : is_poly x -> is_poly y ->
  evalX w (zip_with Z.add x y) = padd (evalX w x) (evalX w y).
Proof.
  intros Hx Hy. rewrite (evalX_zip w _ 1) by (intros; try ring; congruence).
  destruct (evalX w x), (evalX w y). pring.
Qed.

Lemma evalX_sub w x y : is_poly x -> is_poly y ->
  evalX w (zip_with Z.sub x y) = psub (evalX w x) (evalX w y).
Proof.
  intros Hx Hy. rewrite (evalX_zip w _ (-1)) by (intros; try ring; congruence). reflexivity.
Qed.

Lemma basemul_acc_spec A B a b :
  0 <= A -> 0 <= B -> A * B <= KYBER_Q * 2 ^ 14 ->
  polyvec_of (bounded A) a -> polyvec_of (bounded B) b ->
  let r := polyvec_basemul_acc_montgomery a b in
  is_poly r /\ bounded 1664 r /\
  forall i, (i < 128)%nat ->
    pcong (pair_at r i)
      (pscale Rinv (pdot (gamma i) (fun k => pair_at (vec a k) i) (fun k => pair_at (vec b k) i))).
Proof.
  intros HA HB HAB [_ Ha] [_ Hb] r.
  assert (Hm : forall k, (k < 3)%nat -> let p := poly_basemul_montgomery (vec a k) (vec b k) in
    is_poly p /\ bounded (2 * KYBER_Q) p /\ forall i, (i < 128)%nat ->
    pcong (pair_at p i) (pscale Rinv (pmul (gamma i) (pair_at (vec a k) i) (pair_at (vec b k) i)))).
  { intros k Hk. destruct (Ha k Hk), (Hb k Hk). now apply (poly_basemul_spec A B). }
  destruct (Hm 0%nat ltac:(lia)) as (L0 & B0 & E0). destruct (Hm 1%nat ltac:(lia)) as (L1 & B1 & E1).
  destruct (Hm 2%nat ltac:(lia)) as (L2 & B2 & E2). clear Hm.
  unfold r, polyvec_basemul_acc_montgomery. cbv zeta. change (seq 1 (KYBER_K - 1)) with [1%nat; 2%nat].
  cbn [foldl]. set (p0 := poly_basemul_montgomery (vec a 0) (vec b 0)) in *.
  set (p1 := poly_basemul_montgomery (vec a 1) (vec b 1)) in *.
  set (p2 := poly_basemul_montgomery (vec a 2) (vec b 2)) in *.
  destruct (poly_add_spec _ _ p0 p1 L0 L1 B0 B1 ltac:(unfold KYBER_Q; lia)) as (L01 & B01 & E01).
  destruct (poly_add_spec _ _ _ p2 L01 L2 B01 B2 ltac:(unfold KYBER_Q; lia)) as (L & Bd & E).
  destruct (poly_reduce_spec _ L ltac:(eapply bounded_weaken; [|exact Bd]; unfold KYBER_Q; lia))
    as (Lr & Br & Er).
  split; [easy|]. split; [easy|]. intros i Hi.
  rewrite (pair_at_congl _ _ i Er), E, pair_at_add, E01, pair_at_add by (easy || (now rewrite <- E01)).
  rewrite E0, E1, E2 by easy. unfold pdot.
  apply eq_subrelation; [exact _|]. unfold padd, pscale. cbn [fst snd]. f_equal; ring.
Qed.

(** A product recovered as a polynomial: the Montgomery factors cancel. *)
Lemma invntt_acc_spec A B a b :
  0 <= A -> 0 <= B -> A * B <= KYBER_Q * 2 ^ 14 ->
  polyvec_of (bounded A) a -> polyvec_of (bounded B) b ->
  let p := poly_invntt_tomont (polyvec_basemul_acc_montgomery a b) in
  is_poly p /\ bounded 3328 p /\
  forall i, (i < 128)%nat ->
    pcong (evalX (gamma i) p)
      (pdot (gamma i) (fun k => pair_at (vec a k) i) (fun k => pair_at (vec b k) i)).
Proof.
  intros HA HB HAB Ha Hb p.
  destruct (basemul_acc_spec A B a b HA HB HAB Ha Hb) as (L & Bd & E).
  destruct (invntt_spec 1664 _ L ltac:(lia) Bd) as (L' & B' & E').
  split; [easy|]. split; [easy|]. intros i Hi. unfold p, poly_invntt_tomont.
  rewrite E', E by easy. apply pscale_R_Rinv.
Qed.

(** ** Vectors *)

Lemma polyvec_ntt_spec B v :
  0 <= B -> B + 7 * KYBER_Q <= 32767 -> polyvec_of (bounded B) v ->
  polyvec_of (bounded 1664) (polyvec_ntt v) /\
  forall k, (k < KYBER_K)%nat -> ntt_of (vec (polyvec_ntt v) k) (vec v k).
Proof.
  intros H0 HB [_ Hv]. unfold polyvec_ntt. split.
  - apply polyvec_of_map. intros k Hk. destruct (Hv k Hk) as [Hp Hb].
    destruct (poly_ntt_spec B _ Hp H0 HB Hb) as (? & ? & _). now split.
  - intros k Hk. rewrite vec_map_seq by easy. destruct (Hv k Hk) as [Hp Hb].
    now destruct (poly_ntt_spec B _ Hp H0 HB Hb) as (_ & _ & ?).
Qed.

Lemma canonical_bounded p : Forall (fun c => 0 <= c < KYBER_Q) p -> bounded 3328 p.
Proof. intros H. eapply Forall_impl; [|exact H]. unfold KYBER_Q. simpl. lia. Qed.

Lemma congl_mod p : congl q (map (fun c => c mod KYBER_Q) p) p.
Proof. induction p; simpl; constructor; [apply cong_mod|easy]. Qed.

Lemma canonical_mod p : Forall (fun c => 0 <= c < KYBER_Q) (map (fun c => c mod KYBER_Q) p).
Proof. apply List.Forall_map, Forall_true. intros x. apply Z.mod_pos_bound. reflexivity. Qed.

Lemma bounded_range B p : B < KYBER_Q -> bounded B p -> Forall (fun c => - KYBER_Q <= c < KYBER_Q) p.
Proof. intros HB H. eapply Forall_impl; [|exact H]. simpl. lia. Qed.

(** A packed vector comes back with canonical, congruent coefficients. *)
Lemma frombytes_pack v rest :
  polyvec_of (bounded 1664) v ->
  let w := polyvec_frombytes (polyvec_tobytes v ++ rest) in
  polyvec_of (bounded 3328) w /\
  forall k, (k < KYBER_K)%nat -> congl q (vec w k) (vec v k).
Proof.
  intros Hv w.
  assert (E : w = map (map (fun c => c mod KYBER_Q)) v).
  { unfold w. rewrite <- frombytes_tobytes_polyvec.
    - apply polyvec_frombytes_prefix. intros i Hi. apply get_app_l.
      rewrite polyvec_tobytes_length. exact Hi.
    - eapply polyvec_of_impl; [|exact Hv]. intros p _. apply bounded_range. unfold KYBER_Q. lia. }
  assert (Em : forall k, vec w k = map (fun c => c mod KYBER_Q) (vec v k))
    by (intros; rewrite E; exact (map_nth (map (fun c => c mod KYBER_Q)) v [] k)).
  split.
  - destruct Hv as [Hl Hv]. split; [rewrite E, length_map; exact Hl|].
    intros i Hi. rewrite Em. split; [unfold is_poly; rewrite length_map; now apply Hv|].
    apply canonical_bounded, canonical_mod.
  - intros k Hk. rewrite Em. apply congl_mod.
Qed.

(** ** Polynomials determined by their values *)

Lemma evals_congl p p' : is_poly p -> is_poly p' ->
  (forall i, (i < 128)%nat -> pcong (evalX (gamma i) p) (evalX (gamma i) p')) -> congl q p p'.
Proof.
  intros Hp Hp' H. apply (ntt_of_inj (Butterfly.ntree spec_lo spec_hi 2 7 1 p)); [easy|easy|now apply spec_ntt_of|].
  intros i Hi. rewrite (spec_ntt_of p Hp i Hi). now apply H.
Qed.

(** ** The decryption noise *)

Definition ring_add (a b : list Z) : list Z := zip_with Z.add a b.
Definition ring_sub (a b : list Z) : list Z := zip_with Z.sub a b.

Definition ring_dot (a b : list (list Z)) : list Z :=
  ring_add (ring_add (ring_mul (vec a 0) (vec b 0)) (ring_mul (vec a 1) (vec b 1)))
    (ring_mul (vec a 2) (vec b 2)).

(** What compressing and decompressing with [d] bits adds to a coefficient. *)
Definition rounding (d : Z) (p : list Z) : list Z :=
  map (fun c => decompress d (compress d (c mod KYBER_Q)) - c) p.

(** [e2 + dv + e . r - s . (e1 + du)] in the ring. *)
Definition decryption_noise (s e r e1 : list (list Z)) (e2 : list Z) (u : list (list Z)) (v : list Z)
    : list Z :=
  let du := map (rounding 10) u in
  ring_add (ring_add e2 (rounding 4 v))
    (ring_sub (ring_dot e r)
       (ring_dot s (map (fun i => ring_add (vec e1 i) (vec du i)) (seq 0 KYBER_K)))).

(** Every coefficient has a representative in [-832, 831]. *)
Definition noise_ok (p : list Z) : bool := forallb (fun x => (x + 832) mod KYBER_Q <? 1664) p.

Lemma ring_add_poly a b : is_poly a -> is_poly b -> is_poly (ring_add a b).
Proof. unfold is_poly, ring_add. intros. rewrite length_zip_with. lia. Qed.

Lemma ring_sub_poly a b : is_poly a -> is_poly b -> is_poly (ring_sub a b).
Proof. unfold is_poly, ring_sub. intros. rewrite length_zip_with. lia. Qed.

Lemma ring_dot_poly a b : is_poly (ring_dot a b).
Proof. apply ring_add_poly; [apply ring_add_poly|]; apply ring_mul_length. Qed.

Lemma rounding_poly d p : is_poly p -> is_poly (rounding d p).
Proof. unfold is_poly, rounding. now rewrite length_map. Qed.

#[export] Hint Resolve ring_add_poly ring_sub_poly ring_dot_poly rounding_poly : kyber.

Lemma evalX_ring_add w x y : is_poly x -> is_poly y ->
  evalX w (ring_add x y) = padd (evalX w x) (evalX w y).
Proof. apply evalX_add. Qed.

Lemma evalX_ring_sub w x y : is_poly x -> is_poly y ->
  evalX w (ring_sub x y) = psub (evalX w x) (evalX w y).
Proof. apply evalX_sub. Qed.

Lemma evalX_ring_dot i a b : (i < 128)%nat ->
  (forall k, (k < KYBER_K)%nat -> is_poly (vec a k) /\ is_poly (vec b k)) ->
  pcong (evalX (gamma i) (ring_dot a b))
    (pdot (gamma i) (fun k => evalX (gamma i) (vec a k)) (fun k => evalX (gamma i) (vec b k))).
Proof.
  intros Hi H. change KYBER_K with 3%nat in H. unfold ring_dot, ring_add.
  destruct (H 0%nat ltac:(lia)), (H 1%nat ltac:(lia)), (H 2%nat ltac:(lia)).
  rewrite !evalX_add by (try apply ring_mul_length; apply ring_add_poly; apply ring_mul_length).
  now rewrite !evalX_ring_mul by easy.
Qed.

Lemma noise_ok_get p n : noise_ok p = true -> (n < length p)%nat ->
  exists w, - 832 <= w <= 831 /\ get p n ≡ w [mod q].
Proof.
  intros H Hn. unfold noise_ok in H. rewrite forallb_forall in H.
  specialize (H (get p n) (nth_In p 0 Hn)). apply Z.ltb_lt in H.
  exists ((get p n + 832) mod KYBER_Q - 832).
  pose proof (Z.mod_pos_bound (get p n + 832) KYBER_Q ltac:(reflexivity)).
  split; [lia|]. rewrite cong_mod. apply cong_of_eq. ring.
Qed.

(** ** The scheme *)

Lemma polyvec_decompress_app c rest :
  length c = KYBER_POLYVECCOMPRESSEDBYTES -> polyvec_decompress (c ++ rest) = polyvec_decompress c.
Proof.
  intros Hl. change KYBER_POLYVECCOMPRESSEDBYTES with 960%nat in Hl.
  unfold polyvec_decompress. apply map_ext_in. intros i Hi%in_seq. change KYBER_K with 3%nat in Hi.
  change (KYBER_N / 4)%nat with 64%nat. apply rows_ext. intros j Hj.
  rewrite !get_drop. now rewrite !get_app_l by lia.
Qed.

(** What decryption recovers from a packed ciphertext. *)
Lemma unpack_pack_ciphertext u v :
  polyvec_of (bounded 1664) u -> is_poly v -> bounded 1664 v ->
  unpack_ciphertext (pack_ciphertext u v) =
  (map (map (fun c => decompress 10 (compress 10 (c mod KYBER_Q)))) u,
   map (fun c => decompress 4 (compress 4 (c mod KYBER_Q))) v).
Proof.
  intros Hu Hv Bv. unfold unpack_ciphertext, pack_ciphertext.
  rewrite polyvec_decompress_app by apply polyvec_compress_length.
  rewrite (drop_app_length' _ _ KYBER_POLYVECCOMPRESSEDBYTES)
    by (symmetry; apply polyvec_compress_length).
  rewrite decompress_compress_poly by (try apply (bounded_range 1664); easy || (unfold KYBER_Q; lia)).
  rewrite decompress_compress_polyvec; [reflexivity|].
  eapply polyvec_of_impl; [|exact Hu]. intros p _. apply bounded_range. unfold KYBER_Q. lia.
Qed.

(** The rounded coefficients as the original plus [rounding]. *)
Lemma rounding_add d p :
  map (fun c => decompress d (compress d (c mod KYBER_Q))) p = ring_add p (rounding d p).
Proof.
  unfold ring_add, rounding. induction p as [|c p IH]; simpl; [easy|]. f_equal; [lia|exact IH].
Qed.

Lemma decompressed_bounded d p : d = 4 \/ d = 10 ->
  bounded 3328 (map (fun c => decompress d (compress d (c mod KYBER_Q))) p).
Proof.
  intros Hd. apply List.Forall_map, Forall_true. intros c.
  pose proof (decompress_range d (compress d (c mod KYBER_Q)) Hd ltac:(apply compress_range; lia)).
  unfold KYBER_Q in *. lia.
Qed.

Section Correct.
Context `{HS : SymmetricLaws}.

Lemma noise_spec (f : list Z -> Z -> list Z) seed n :
  (forall i, (i < KYBER_K)%nat -> exists b, length b = 128%nat /\ bytes b /\
    f seed (u8 (Z.of_nat (n + i))) = cbd2 b) ->
  polyvec_of (bounded 2) (map (fun i => f seed (u8 (Z.of_nat (n + i)))) (seq 0 KYBER_K)).
Proof.
  intros H. apply polyvec_of_map. intros i Hi. destruct (H i Hi) as (b & Hl & Hb & ->).
  split; [apply cbd2_length|now apply cbd2_bounded].
Qed.

Lemma noise_eta1_spec seed n : polyvec_of (bounded 2) (noise_eta1 seed n).
Proof.
  apply noise_spec. intros i Hi. exists (prf 128 seed (u8 (Z.of_nat (n + i)))).
  split; [apply prf_length|]. split; [apply prf_bytes|reflexivity].
Qed.

Lemma noise_eta2_spec seed n : polyvec_of (bounded 2) (noise_eta2 seed n).
Proof.
  apply noise_spec. intros i Hi. exists (prf 128 seed (u8 (Z.of_nat (n + i)))).
  split; [apply prf_length|]. split; [apply prf_bytes|reflexivity].
Qed.

Lemma getnoise_eta2_spec seed n :
  is_poly (poly_getnoise_eta2 seed n) /\ bounded 2 (poly_getnoise_eta2 seed n).
Proof.
  split; [apply cbd2_length|]. apply cbd2_bounded; [apply prf_bytes|apply prf_length].
Qed.

(** The public vector before packing. *)
Definition public_vec (a : list (list (list Z))) (s e : list (list Z)) : list (list Z) :=
  polyvec_reduce (polyvec_add
    (map (fun i => poly_tomont (polyvec_basemul_acc_montgomery (nth i a []) (polyvec_ntt s)))
       (seq 0 KYBER_K)) (polyvec_ntt e)).

(** The ciphertext polynomials before compression. *)
Definition cipher_vec (at_ : list (list (list Z))) (r e1 : list (list Z)) : list (list Z) :=
  polyvec_reduce (polyvec_add
    (polyvec_invntt_tomont
       (map (fun i => polyvec_basemul_acc_montgomery (nth i at_ []) (polyvec_ntt r))
          (seq 0 KYBER_K))) e1).

Definition cipher_poly (pkpv r : list (list Z)) (e2 m : list Z) : list Z :=
  poly_reduce (poly_add (poly_add
    (poly_invntt_tomont (polyvec_basemul_acc_montgomery pkpv (polyvec_ntt r))) e2)
    (poly_frommsg m)).

Definition rows_ok (a : list (list (list Z))) : Prop :=
  forall i, (i < KYBER_K)%nat -> polyvec_of (bounded 3328) (nth i a []).

Lemma gen_matrix_ok fuel seed tr a : gen_matrix fuel seed tr = Some a -> rows_ok a.
Proof.
  intros H i Hi. eapply polyvec_of_impl; [|eapply gen_matrix_rows; eauto].
  intros p _. apply canonical_bounded.
Qed.

Lemma public_vec_spec a s e :
  rows_ok a -> polyvec_of (bounded 2) s -> polyvec_of (bounded 2) e ->
  polyvec_of (bounded 1664) (public_vec a s e) /\
  forall k i, (k < KYBER_K)%nat -> (i < 128)%nat ->
    pcong (pair_at (vec (public_vec a s e) k) i)
      (padd (pdot (gamma i) (fun j => pair_at (entry a k j) i) (fun j => evalX (gamma i) (vec s j)))
         (evalX (gamma i) (vec e k))).
Proof.
  intros Ha Hs He.
  destruct (polyvec_ntt_spec 2 s ltac:(lia) ltac:(unfold KYBER_Q; lia) Hs) as [Ns Es].
  destruct (polyvec_ntt_spec 2 e ltac:(lia) ltac:(unfold KYBER_Q; lia) He) as [Ne Ee].
  assert (H : forall k, (k < KYBER_K)%nat -> exists p,
    vec (public_vec a s e) k = poly_reduce p /\ is_poly p /\ bounded 32767 p /\
    forall i, (i < 128)%nat -> pcong (pair_at p i)
      (padd (pdot (gamma i) (fun j => pair_at (entry a k j) i) (fun j => evalX (gamma i) (vec s j)))
         (evalX (gamma i) (vec e k)))).
  { intros k Hk. eexists. unfold public_vec, polyvec_reduce, polyvec_add.
    rewrite !vec_map_seq by easy. split; [reflexivity|].
    destruct (basemul_acc_spec 3328 1664 (nth k a []) (polyvec_ntt s) ltac:(lia) ltac:(lia)
      ltac:(unfold KYBER_Q; pow2; lia) (Ha k Hk) Ns) as (L & Bd & E).
    destruct (poly_tomont_spec _ L ltac:(eapply bounded_weaken; [|exact Bd]; lia)) as (Lt & Bt & Et).
    destruct Ne as [_ Ne]. destruct (Ne k Hk) as [Le Be].
    destruct (poly_add_spec _ _ _ _ Lt Le Bt Be ltac:(lia)) as (La & Ba & Eq).
    split; [easy|]. split; [eapply bounded_weaken; [|exact Ba]; lia|].
    intros i Hi. rewrite Eq, pair_at_add by easy.
    rewrite (pair_at_congl _ _ i Et), (Ee k Hk i Hi).
    unfold pair_at at 1. unfold is_poly in L. rewrite !get_map by lia.
    assert (Hp : pcong (R * get (polyvec_basemul_acc_montgomery (nth k a []) (polyvec_ntt s)) (2 * i),
                R * get (polyvec_basemul_acc_montgomery (nth k a []) (polyvec_ntt s)) (2 * i + 1))
      (pscale R (pair_at (polyvec_basemul_acc_montgomery (nth k a []) (polyvec_ntt s)) i))) by reflexivity.
    rewrite Hp, (E i Hi), pscale_R_Rinv.
    apply padd_proper; [|reflexivity]. apply pdot_proper; [reflexivity|].
    intros j Hj. now apply Es. }
  split.
  - split; [reflexivity|]. intros k Hk. destruct (H k Hk) as (p & -> & Lp & Bp & _).
    destruct (poly_reduce_spec p Lp Bp) as (? & ? & _). now split.
  - intros k i Hk Hi. destruct (H k Hk) as (p & -> & Lp & Bp & Ep).
    destruct (poly_reduce_spec p Lp Bp) as (_ & _ & Er).
    rewrite (pair_at_congl _ _ i Er). now apply Ep.
Qed.

Lemma cipher_vec_spec at_ r e1 :
  rows_ok at_ -> polyvec_of (bounded 2) r -> polyvec_of (bounded 2) e1 ->
  polyvec_of (bounded 1664) (cipher_vec at_ r e1) /\
  forall k i, (k < KYBER_K)%nat -> (i < 128)%nat ->
    pcong (evalX (gamma i) (vec (cipher_vec at_ r e1) k))
      (padd (pdot (gamma i) (fun j => pair_at (entry at_ k j) i) (fun j => evalX (gamma i) (vec r j)))
         (evalX (gamma i) (vec e1 k))).
Proof.
  intros Ha Hr He.
  destruct (polyvec_ntt_spec 2 r ltac:(lia) ltac:(unfold KYBER_Q; lia) Hr) as [Nr Er].
  assert (H : forall k, (k < KYBER_K)%nat -> exists p,
    vec (cipher_vec at_ r e1) k = poly_reduce p /\ is_poly p /\ bounded 32767 p /\
    forall i, (i < 128)%nat -> pcong (evalX (gamma i) p)
      (padd (pdot (gamma i) (fun j => pair_at (entry at_ k j) i) (fun j => evalX (gamma i) (vec r j)))
         (evalX (gamma i) (vec e1 k)))).
  { intros k Hk. eexists. unfold cipher_vec, polyvec_reduce, polyvec_add, polyvec_invntt_tomont.
    rewrite !vec_map_seq by easy. split; [reflexivity|].
    destruct (invntt_acc_spec 3328 1664 (nth k at_ []) (polyvec_ntt r) ltac:(lia) ltac:(lia)
      ltac:(unfold KYBER_Q; pow2; lia) (Ha k Hk) Nr) as (L & Bd & E).
    destruct He as [_ He]. destruct (He k Hk) as [Le Be].
    destruct (poly_add_spec _ _ _ _ L Le Bd Be ltac:(lia)) as (La & Ba & Eq).
    split; [easy|]. split; [eapply bounded_weaken; [|exact Ba]; lia|].
    intros i Hi. rewrite Eq, evalX_add, (E i Hi) by easy.
    apply padd_proper; [|reflexivity]. apply pdot_proper; [reflexivity|].
    intros j Hj. now apply Er. }
  split.
  - split; [reflexivity|]. intros k Hk. destruct (H k Hk) as (p & -> & Lp & Bp & _).
    destruct (poly_reduce_spec p Lp Bp) as (? & ? & _). now split.
  - intros k i Hk Hi. destruct (H k Hk) as (p & -> & Lp & Bp & Ep).
    destruct (poly_reduce_spec p Lp Bp) as (_ & _ & Ered). rewrite Ered. now apply Ep.
Qed.

Lemma cipher_poly_spec pkpv r e2 m :
  polyvec_of (bounded 3328) pkpv -> polyvec_of (bounded 2) r -> is_poly e2 -> bounded 2 e2 ->
  is_poly (cipher_poly pkpv r e2 m) /\ bounded 1664 (cipher_poly pkpv r e2 m) /\
  forall i, (i < 128)%nat ->
    pcong (evalX (gamma i) (cipher_poly pkpv r e2 m))
      (padd (padd (pdot (gamma i) (fun j => pair_at (vec pkpv j) i) (fun j => evalX (gamma i) (vec r j)))
         (evalX (gamma i) e2)) (evalX (gamma i) (poly_frommsg m))).
Proof.
  intros Hpk Hr L2 B2.
  destruct (polyvec_ntt_spec 2 r ltac:(lia) ltac:(unfold KYBER_Q; lia) Hr) as [Nr Er].
  destruct (invntt_acc_spec 3328 1664 pkpv (polyvec_ntt r) ltac:(lia) ltac:(lia)
    ltac:(unfold KYBER_Q; pow2; lia) Hpk Nr) as (L & Bd & E).
  destruct (poly_add_spec _ _ _ _ L L2 Bd B2 ltac:(lia)) as (La & Ba & Ea).
  pose proof (poly_frommsg_length m) as Lm. pose proof (frommsg_bounded m) as Bm.
  destruct (poly_add_spec _ _ _ _ La Lm Ba Bm ltac:(lia)) as (Lb & Bb & Eb).
  destruct (poly_reduce_spec _ Lb ltac:(eapply bounded_weaken; [|exact Bb]; lia)) as (Lr & Br & Ered).
  split; [easy|]. split; [easy|]. intros i Hi. unfold cipher_poly.
  rewrite Ered, Eb, evalX_add, Ea, evalX_add, (E i Hi) by (easy || (now rewrite <- Ea)).
  apply padd_proper; [|reflexivity]. apply padd_proper; [|reflexivity].
  apply pdot_proper; [reflexivity|]. intros j Hj. now apply Er.
Qed.

Lemma indcpa_dec_spec s u v rest :
  polyvec_of (bounded 2) s -> polyvec_of (bounded 1664) u -> is_poly v -> bounded 1664 v ->
  exists mp, indcpa_dec (pack_ciphertext u v) (pack_sk (polyvec_ntt s) ++ rest) = poly_tomsg mp /\
    is_poly mp /\ bounded 1664 mp /\
    forall i, (i < 128)%nat ->
      pcong (evalX (gamma i) mp)
        (psub (padd (evalX (gamma i) v) (evalX (gamma i) (rounding 4 v)))
           (pdot (gamma i) (fun k => evalX (gamma i) (vec s k))
              (fun k => padd (evalX (gamma i) (vec u k)) (evalX (gamma i) (rounding 10 (vec u k)))))).
Proof.
  intros Hs Hu Lv Bv. unfold indcpa_dec. rewrite unpack_pack_ciphertext by easy.
  set (u' := map _ u). set (v' := map _ v).
  destruct (polyvec_ntt_spec 2 s ltac:(lia) ltac:(unfold KYBER_Q; lia) Hs) as [Ns Es].
  destruct (frombytes_pack (polyvec_ntt s) rest Ns) as [Hsk Esk]. cbv zeta in Hsk, Esk.
  fold (pack_sk (polyvec_ntt s)) (unpack_sk (pack_sk (polyvec_ntt s) ++ rest)) in Hsk, Esk.
  set (skpv := unpack_sk _) in *.
  assert (Eu : forall k, vec u' k = ring_add (vec u k) (rounding 10 (vec u k))).
  { intros k. rewrite <- rounding_add.
    exact (map_nth (map (fun c => decompress 10 (compress 10 (c mod KYBER_Q)))) u [] k). }
  assert (Hu' : polyvec_of (bounded 3328) u').
  { destruct Hu as [Hl Hu]. split; [unfold u'; now rewrite length_map|]. intros k Hk.
    destruct (Hu k Hk) as [Lk _]. split; [rewrite Eu; auto with kyber|].
    rewrite Eu, <- rounding_add. apply decompressed_bounded. now right. }
  assert (Lv' : is_poly v') by (unfold is_poly, v'; now rewrite length_map).
  assert (Bv' : bounded 3328 v') by (apply decompressed_bounded; now left).
  destruct (polyvec_ntt_spec 3328 u' ltac:(lia) ltac:(unfold KYBER_Q; lia) Hu') as [Nu Enu].
  destruct (invntt_acc_spec 3328 1664 skpv (polyvec_ntt u') ltac:(lia) ltac:(lia)
    ltac:(unfold KYBER_Q; pow2; lia) Hsk Nu) as (Lm & Bm & Em).
  destruct (poly_sub_spec _ _ _ _ Lv' Lm Bv' Bm ltac:(lia)) as (Ls & Bs & Esub).
  destruct (poly_reduce_spec _ Ls ltac:(eapply bounded_weaken; [|exact Bs]; lia)) as (Lr & Br & Er).
  eexists. split; [reflexivity|]. split; [exact Lr|]. split; [exact Br|]. intros i Hi.
  rewrite Er, Esub, evalX_sub, (Em i Hi) by easy.
  apply psub_proper.
  - unfold v'. rewrite rounding_add, evalX_ring_add by auto with kyber. reflexivity.
  - apply pdot_proper; intros k Hk.
    + rewrite (pair_at_congl _ _ i (Esk k Hk)). now apply Es.
    + rewrite (Enu k Hk i Hi), Eu. destruct Hu as [_ Hu]. destruct (Hu k Hk).
      rewrite evalX_ring_add by auto with kyber. reflexivity.
Qed.

(** The errors of the second key component, rounding included. *)
Definition error_vec (e1 u : list (list Z)) : list (list Z) :=
  map (fun i => ring_add (vec e1 i) (vec (map (rounding 10) u) i)) (seq 0 KYBER_K).

Lemma polyvec_of_poly (P : list Z -> Prop) x k :
  polyvec_of P x -> (k < KYBER_K)%nat -> is_poly (vec x k).
Proof. intros [_ H] Hk. now apply H. Qed.

Lemma error_vec_spec e1 u P Q k :
  polyvec_of P e1 -> polyvec_of Q u -> (k < KYBER_K)%nat ->
  is_poly (vec (error_vec e1 u) k) /\
  forall w, evalX w (vec (error_vec e1 u) k) =
            padd (evalX w (vec e1 k)) (evalX w (rounding 10 (vec u k))).
Proof.
  intros He Hu Hk. unfold error_vec. rewrite vec_map_seq by easy.
  assert (E : vec (map (rounding 10) u) k = rounding 10 (vec u k))
    by exact (map_nth (rounding 10) u [] k).
  rewrite E. pose proof (polyvec_of_poly P e1 k He Hk). pose proof (polyvec_of_poly Q u k Hu Hk).
  split; [auto with kyber|]. intros w. apply evalX_ring_add; auto with kyber.
Qed.

Lemma decryption_noise_poly s e r e1 e2 u v :
  is_poly e2 -> is_poly v -> is_poly (decryption_noise s e r e1 e2 u v).
Proof. intros. unfold decryption_noise. cbv zeta. auto with kyber. Qed.

Lemma evalX_noise P s e r e1 e2 u v i :
  polyvec_of P s -> polyvec_of P e -> polyvec_of P r -> polyvec_of P e1 ->
  polyvec_of (bounded 1664) u -> is_poly e2 -> is_poly v -> (i < 128)%nat ->
  pcong (evalX (gamma i) (decryption_noise s e r e1 e2 u v))
    (padd (padd (evalX (gamma i) e2) (evalX (gamma i) (rounding 4 v)))
      (psub (pdot (gamma i) (fun k => evalX (gamma i) (vec e k)) (fun k => evalX (gamma i) (vec r k)))
        (pdot (gamma i) (fun k => evalX (gamma i) (vec s k))
           (fun k => padd (evalX (gamma i) (vec e1 k)) (evalX (gamma i) (rounding 10 (vec u k))))))).
Proof.
  intros Hs He Hr He1 Hu L2 Lv Hi. unfold decryption_noise. cbv zeta. fold (error_vec e1 u).
  rewrite !evalX_ring_add, evalX_ring_sub by auto with kyber.
  pose proof (fun k => error_vec_spec e1 u P (bounded 1664) k He1 Hu) as Hev.
  pose proof (polyvec_of_poly P) as Hp.
  apply padd_proper; [reflexivity|]. apply psub_proper.
  - apply evalX_ring_dot; [exact Hi|]. intros k Hk. split; now apply Hp.
  - rewrite evalX_ring_dot; [|exact Hi|intros k Hk; split; [now apply Hp|now apply Hev]].
    apply pdot_proper; [reflexivity|]. intros k Hk. destruct (Hev k Hk) as [_ ->]. reflexivity.
Qed.

(** Decryption of an honest ciphertext: the message polynomial plus the noise. *)
Lemma indcpa_correct a at_ s e r e1 e2 m seed rest pkrest :
  rows_ok a -> rows_ok at_ ->
  (forall i j, (i < KYBER_K)%nat -> (j < KYBER_K)%nat -> entry at_ i j = entry a j i) ->
  polyvec_of (bounded 2) s -> polyvec_of (bounded 2) e -> polyvec_of (bounded 2) r ->
  polyvec_of (bounded 2) e1 -> is_poly e2 -> bounded 2 e2 ->
  length m = KYBER_INDCPA_MSGBYTES -> bytes m ->
  let pk := pack_pk (public_vec a s e) seed ++ pkrest in
  let u := cipher_vec at_ r e1 in
  let v := cipher_poly (fst (unpack_pk pk)) r e2 m in
  noise_ok (decryption_noise s e r e1 e2 u v) = true ->
  indcpa_dec (pack_ciphertext u v) (pack_sk (polyvec_ntt s) ++ rest) = m.
Proof.
  intros Ha Hat Htr Hs He Hr He1 L2 B2 Lm Bm pk u v Hn.
  destruct (public_vec_spec a s e Ha Hs He) as [Hpk Epk].
  destruct (frombytes_pack (public_vec a s e) (take KYBER_SYMBYTES seed ++ pkrest) Hpk) as [Hpk' Epk'].
  cbv zeta in Hpk', Epk'.
  assert (Eun : polyvec_frombytes (polyvec_tobytes (public_vec a s e) ++ take KYBER_SYMBYTES seed ++ pkrest)
                = fst (unpack_pk pk))
    by (unfold pk, pack_pk, unpack_pk; cbn [fst]; now rewrite <- app_assoc).
  rewrite Eun in Hpk', Epk'.
  destruct (cipher_vec_spec at_ r e1 Hat Hr He1) as [Hu Eu]. fold u in Hu, Eu.
  destruct (cipher_poly_spec (fst (unpack_pk pk)) r e2 m Hpk' Hr L2 B2) as (Lv & Bv & Ev).
  fold v in Lv, Bv, Ev. clearbody u v. revert Hpk' Epk' Ev. generalize (fst (unpack_pk pk)).
  clear Eun. intros pkv Hpk' Epk' Ev.
  destruct (indcpa_dec_spec s u v rest Hs Hu Lv Bv) as (mp & -> & Lmp & Bmp & Emp).
  pose proof (decryption_noise_poly s e r e1 e2 u v L2 Lv) as Lnoise.
  pose proof (fun i => evalX_noise (bounded 2) s e r e1 e2 u v i Hs He Hr He1 Hu L2 Lv) as En.
  revert Hn Lnoise En. generalize (decryption_noise s e r e1 e2 u v). intros noise Hn Lnoise En.
  assert (Hc : congl q mp (ring_add (poly_frommsg m) noise)).
  { apply evals_congl; [easy|apply ring_add_poly; [apply poly_frommsg_length|easy]|].
    intros i Hi. rewrite evalX_ring_add by (easy || apply poly_frommsg_length).
    rewrite (En i Hi), (Emp i Hi).
    rewrite <- (decryption_identity (gamma i) (fun x y => pair_at (entry a x y) i)
      (fun k => evalX (gamma i) (vec s k)) (fun k => evalX (gamma i) (vec e k))
      (fun k => evalX (gamma i) (vec r k)) (fun k => evalX (gamma i) (vec e1 k))
      (fun k => evalX (gamma i) (rounding 10 (vec u k))) (evalX (gamma i) e2)
      (evalX (gamma i) (poly_frommsg m)) (evalX (gamma i) (rounding 4 v))).
    apply psub_proper.
    - rewrite (Ev i Hi). do 3 (apply padd_proper; [|reflexivity]).
      apply pdot_proper; [|reflexivity]. intros j Hj.
      rewrite (pair_at_congl _ _ i (Epk' j Hj)). now apply Epk.
    - apply pdot_proper; [reflexivity|]. intros k Hk. apply padd_proper; [|reflexivity].
      rewrite (Eu k i Hk Hi). apply padd_proper; [|reflexivity].
      apply pdot_proper; [|reflexivity]. intros j Hj. now rewrite Htr. }
  apply poly_tomsg_bits; [easy|easy|]. intros i j Hi Hj.
  apply Forall2_get in Hc. destruct Hc as [_ Hc]. unfold is_poly in *.
  specialize (Hc (8 * i + j)%nat ltac:(lia)). unfold ring_add in Hc.
  pose proof (poly_frommsg_length m) as Lk. unfold is_poly in Lk.
  rewrite get_zip_with, get_frommsg in Hc by lia.
  destruct (noise_ok_get noise (8 * i + j) Hn ltac:(lia)) as (w & Hw & Ew). rewrite Ew in Hc.
  apply (tomsg_bit_noise _ _ w); [now apply (bounded_get 1664)|apply byte_bit_01|easy|easy].
Qed.
End Correct.

(** ** Claims *)

(** lossy compression.  Unpacking a packed ciphertext gives polynomials whose
    coefficients differ from the originals, modulo [q], by at most 2 in the vector
    (10 bits) and at most 104 in the polynomial (4 bits): every coefficient comes back
    as the rounded value of the standard. *)
Theorem ciphertext_rounding (u : list (list Z)) (v : list Z) :
  polyvec_of (bounded 1664) u -> is_poly v -> bounded 1664 v ->
  let '(u', v') := unpack_ciphertext (pack_ciphertext u v) in
  (forall k n, (k < KYBER_K)%nat -> (n < KYBER_N)%nat ->
     exists d, - 2 <= d <= 2 /\ get (vec u' k) n ≡ get (vec u k) n + d [mod KYBER_Q]) /\
  (forall n, (n < KYBER_N)%nat ->
     exists d, - 104 <= d <= 104 /\ get v' n ≡ get v n + d [mod KYBER_Q]).
Proof.
  intros Hu Lv Bv. rewrite unpack_pack_ciphertext by easy.
  assert (Hround : forall d b c, (forall x, 0 <= x < KYBER_Q ->
      exists k, - b <= decompress d (compress d x) - x - KYBER_Q * k <= b) ->
    exists e, - b <= e <= b /\ decompress d (compress d (c mod KYBER_Q)) ≡ c + e [mod KYBER_Q]).
  { intros d b c H. destruct (H (c mod KYBER_Q)) as [k Hk]; [apply Z.mod_pos_bound; reflexivity|].
    eexists. split; [exact Hk|]. rewrite <- (cong_mod KYBER_Q c) at 2.
    apply cong_exists with k. ring. }
  split.
  - intros k n Hk Hn.
    assert (E : vec (map (map (fun c => decompress 10 (compress 10 (c mod KYBER_Q)))) u) k =
                map (fun c => decompress 10 (compress 10 (c mod KYBER_Q))) (vec u k))
      by exact (map_nth (map (fun c => decompress 10 (compress 10 (c mod KYBER_Q)))) u [] k).
    destruct Hu as [_ Hu]. destruct (Hu k Hk) as [Lk _]. unfold is_poly in Lk.
    rewrite E, get_map by (rewrite Lk; exact Hn). apply (Hround 10 2). apply compress10_error.
  - intros n Hn. unfold is_poly in Lv. rewrite get_map by (rewrite Lv; exact Hn).
    apply (Hround 4 104). apply compress4_error.
Qed.

Lemma ciphertext_rounding_witness :
  let '(u', v') := unpack_ciphertext (pack_ciphertext (replicate 3 (replicate 256 1000)) (replicate 256 (-1664))) in
  (forall k n, (k < KYBER_K)%nat -> (n < KYBER_N)%nat ->
     exists d, - 2 <= d <= 2 /\
       get (vec u' k) n ≡ get (vec (replicate 3 (replicate 256 1000)) k) n + d [mod KYBER_Q]) /\
  (forall n, (n < KYBER_N)%nat ->
     exists d, - 104 <= d <= 104 /\ get v' n ≡ get (replicate 256 (-1664)) n + d [mod KYBER_Q]).
Proof.
  apply (ciphertext_rounding (replicate 3 (replicate 256 1000)) (replicate 256 (-1664))).
  - split; [reflexivity|]. intros i Hi. change KYBER_K with 3%nat in Hi.
    destruct i as [|[|[|i]]]; try lia; (split; [apply length_replicate|apply Forall_replicate; lia]).
  - apply length_replicate.
  - apply Forall_replicate. lia.
Defined.

(** ciphertexts are canonical.  Packing what [unpack_ciphertext] returns restores
    every 1088-byte string, so the comparison of decapsulation distinguishes any two
    ciphertexts. *)
Theorem ciphertext_repack (c : list Z) :
  length c = KYBER_CIPHERTEXTBYTES -> bytes c ->
  let '(b, v) := unpack_ciphertext c in pack_ciphertext b v = c.
Proof.
  intros Hl Hb. unfold unpack_ciphertext, pack_ciphertext.
  rewrite <- (take_drop KYBER_POLYVECCOMPRESSEDBYTES c) at 1 3.
  assert (Lt : length (take KYBER_POLYVECCOMPRESSEDBYTES c) = KYBER_POLYVECCOMPRESSEDBYTES)
    by (rewrite length_take, Hl; reflexivity).
  rewrite polyvec_decompress_app by exact Lt.
  rewrite compress_decompress_polyvec by (exact Lt || now apply Forall_take).
  rewrite compress_decompress_poly; [reflexivity|rewrite length_drop, Hl; reflexivity|now apply Forall_drop].
Qed.

Lemma ciphertext_repack_witness :
  let '(b, v) := unpack_ciphertext (replicate 1088 173) in pack_ciphertext b v = replicate 1088 173.
Proof.
  apply (ciphertext_repack (replicate 1088 173)); [now rewrite length_replicate|].
  apply Forall_replicate. unfold is_byte. lia.
Defined.
