(* ===== verification/KyberKem.v ===== *)
(** * Kyber: the key encapsulation mechanism

    The code of [crypto/kyber/kyber_kem.c] and the entropy loop of
    [randombytes.c]. *)
From S2P Require Import Prelude KyberReduce KyberSymmetric KyberPoly KyberPolyvec KyberIndcpa.

(** ** [randombytes.c]

    The Linux branch.  The kernel is a list of the results of the successive
    [getrandom] system calls: an interrupted call, a failed one, or the bytes it
    wrote. *)
Inductive getrandom_ret := GR_EINTR | GR_error | GR_bytes (bs : list Z).

(** How [randombytes] ends: with the buffer filled, by [abort], or still waiting
    for the next system call. *)
Inductive randombytes_res :=
  | RB_done (out : list Z) (kernel : list getrandom_ret)
  | RB_abort
  | RB_waiting.

Fixpoint randombytes (kernel : list getrandom_ret) (outlen : nat) : randombytes_res :=
  if (outlen =? 0)%nat then RB_done [] kernel
  else
    match kernel with
    | [] => RB_waiting
    | GR_EINTR :: kernel => randombytes kernel outlen
    | GR_error :: _ => RB_abort
    | GR_bytes bs :: kernel =>
        match randombytes kernel (outlen - length bs) with
        | RB_done out kernel => RB_done (bs ++ out) kernel
        | r => r
        end
    end.

(** ** [kyber_kem.c] *)

Section Kem.
Context `{Symmetric}.

(** The pair (pk, sk). *)
Definition crypto_kem_keypair_derand (fuel : nat) (coins : list Z)
    : option (list Z * list Z) :=
  '(pk, sk) ← indcpa_keypair_derand fuel coins;
  let sk := sk ++ take KYBER_PUBLICKEYBYTES pk in
  let sk := sk ++ hash_h (take KYBER_PUBLICKEYBYTES pk) in
  let sk := sk ++ take KYBER_SYMBYTES (drop KYBER_SYMBYTES coins) in
  Some (pk, sk).

(** The pair (ct, ss). *)
Definition crypto_kem_enc_derand (fuel : nat) (pk coins : list Z)
    : option (list Z * list Z) :=
  let buf := take KYBER_SYMBYTES coins in
  let buf := buf ++ hash_h (take KYBER_PUBLICKEYBYTES pk) in
  let kr := hash_g (take (2 * KYBER_SYMBYTES) buf) in
  ct ← indcpa_enc fuel buf pk (drop KYBER_SYMBYTES kr);
  let ss := take KYBER_SYMBYTES kr in
  Some (ct, ss).

Definition crypto_kem_dec (fuel : nat) (ct sk : list Z) : option (list Z) :=
  let pk := drop KYBER_INDCPA_SECRETKEYBYTES sk in
  let buf := indcpa_dec ct sk in
  let buf := buf ++ take KYBER_SYMBYTES (drop (KYBER_SECRETKEYBYTES - 2 * KYBER_SYMBYTES) sk) in
  let kr := hash_g (take (2 * KYBER_SYMBYTES) buf) in
  cmp ← indcpa_enc fuel buf pk (drop KYBER_SYMBYTES kr);
  let fail := verify ct cmp KYBER_CIPHERTEXTBYTES in
  let ss := rkprf (drop (KYBER_SECRETKEYBYTES - KYBER_SYMBYTES) sk) ct in
  let ss := cmov ss kr KYBER_SYMBYTES (if fail =? 0 then 1 else 0) in
  Some ss.

(** [memset], [randombytes] and the derandomised function. *)
Definition crypto_kem_keypair (fuel : nat) (kernel : list getrandom_ret)
    : option (list Z * list Z) :=
  match randombytes kernel (2 * KYBER_SYMBYTES) with
  | RB_done coins _ => crypto_kem_keypair_derand fuel coins
  | _ => None
  end.

Definition crypto_kem_enc (fuel : nat) (kernel : list getrandom_ret) (pk : list Z)
    : option (list Z * list Z) :=
  match randombytes kernel KYBER_SYMBYTES with
  | RB_done coins _ => crypto_kem_enc_derand fuel pk coins
  | _ => None
  end.
End Kem.

(** ** The entropy loop *)

(** The bytes of the successful calls, in order. *)
Fixpoint kernel_bytes (kernel : list getrandom_ret) : list Z :=
  match kernel with
  | [] => []
  | GR_bytes bs :: kernel => bs ++ kernel_bytes kernel
  | _ :: kernel => kernel_bytes kernel
  end.

(** Until [outlen] bytes have been delivered no call fails, and none returns more
    bytes than it was asked for. *)
Fixpoint kernel_ok (kernel : list getrandom_ret) (outlen : nat) : bool :=
  (outlen =? 0)%nat ||
  match kernel with
  | [] => true
  | GR_EINTR :: kernel => kernel_ok kernel outlen
  | GR_error :: _ => false
  | GR_bytes bs :: kernel => (length bs <=? outlen)%nat && kernel_ok kernel (outlen - length bs)
  end.

Lemma randombytes_step ret kernel n :
  randombytes (ret :: kernel) (S n) =
  match ret with
  | GR_EINTR => randombytes kernel (S n)
  | GR_error => RB_abort
  | GR_bytes bs =>
      match randombytes kernel (S n - length bs) with
      | RB_done out kernel => RB_done (bs ++ out) kernel
      | r => r
      end
  end.
Proof. now destruct ret. Qed.

(** [randombytes].  Whatever interruptions and short reads the kernel delivers, as
    long as no call fails the loop fills the buffer as soon as the calls have delivered
    [outlen] bytes, the buffer holds exactly the first [outlen] delivered bytes in
    order, and until then the loop keeps waiting. *)
Theorem randombytes_correct (kernel : list getrandom_ret) (outlen : nat) :
  kernel_ok kernel outlen = true ->
  if (outlen <=? length (kernel_bytes kernel))%nat
  then exists rest, randombytes kernel outlen = RB_done (take outlen (kernel_bytes kernel)) rest
  else randombytes kernel outlen = RB_waiting.
Proof.
  revert outlen. induction kernel as [|ret kernel IH]; intros [|n] H.
  - now exists [].
  - reflexivity.
  - now exists (ret :: kernel).
  - rewrite randombytes_step. cbn [kernel_ok kernel_bytes] in *. change (S n =? 0)%nat with false in H.
    rewrite orb_false_l in H. destruct ret as [| |bs]; [exact (IH _ H)|discriminate|].
    apply andb_prop in H. destruct H as [Hl%Nat.leb_le Hk]. specialize (IH _ Hk).
    rewrite length_app. rewrite take_app, (take_ge bs) by easy.
    destruct (Nat.leb_spec (S n - length bs) (length (kernel_bytes kernel)));
      destruct (Nat.leb_spec (S n) (length bs + length (kernel_bytes kernel))); try lia.
    + destruct IH as [rest ->]. now exists rest.
    + now rewrite IH.
Qed.

Lemma randombytes_correct_witness :
  exists rest, randombytes [GR_EINTR; GR_bytes [1; 2]; GR_bytes [3]; GR_bytes [4; 5]] 3 =
    RB_done [1; 2; 3] rest.
Proof.
  exact (randombytes_correct [GR_EINTR; GR_bytes [1; 2]; GR_bytes [3]; GR_bytes [4; 5]] 3 eq_refl).
Defined.
