(* ===== verification/KyberKemSpec.v ===== *)
(** * Kyber: correctness of the key encapsulation mechanism

    Decapsulation returns the encapsulated key for honest ciphertexts, and the
    rejection key for every other one; all sizes are the ones of [params.h]. *)
From S2P Require Import Prelude KyberReduce KyberNtt KyberNttSpec KyberSymmetric KyberPoly KyberPolySpec KyberCodec KyberPolyvec KyberIndcpa KyberSample KyberIndcpaSpec KyberKem.

Section KemSpec.
Context `{HS : SymmetricLaws}.

(** ** The values behind a key pair and a ciphertext *)

Definition key_seeds (coins : list Z) : list Z :=
  hash_g (take KYBER_SYMBYTES coins ++ [Z.of_nat KYBER_K]).
Definition public_seed (coins : list Z) : list Z := take KYBER_SYMBYTES (key_seeds coins).
Definition noise_seed (coins : list Z) : list Z := drop KYBER_SYMBYTES (key_seeds coins).

(** The key pair over a given matrix. *)
Definition key_public (a : list (list (list Z))) (coins : list Z) : list Z :=
  pack_pk (public_vec a (noise_eta1 (noise_seed coins) 0) (noise_eta1 (noise_seed coins) KYBER_K))
    (public_seed coins).
Definition key_secret (coins : list Z) : list Z :=
  pack_sk (polyvec_ntt (noise_eta1 (noise_seed coins) 0)).

(** The polynomials of a ciphertext before compression. *)
Definition enc_u (at_ : list (list (list Z))) (coins : list Z) : list (list Z) :=
  cipher_vec at_ (noise_eta1 coins 0) (noise_eta2 coins KYBER_K).
Definition enc_v (pk m coins : list Z) : list Z :=
  cipher_poly (fst (unpack_pk pk)) (noise_eta1 coins 0)
    (poly_getnoise_eta2 coins (u8 (Z.of_nat (2 * KYBER_K)))) m.

Lemma keypair_value fuel coins a :
  gen_a fuel (public_seed coins) = Some a ->
  indcpa_keypair_derand fuel coins = Some (key_public a coins, key_secret coins).
Proof.
  intros H. unfold indcpa_keypair_derand. cbv zeta. fold (key_seeds coins).
  fold (public_seed coins) (noise_seed coins). rewrite H. reflexivity.
Qed.

Lemma enc_value fuel m pk coins at_ :
  gen_at fuel (snd (unpack_pk pk)) = Some at_ ->
  indcpa_enc fuel m pk coins = Some (pack_ciphertext (enc_u at_ coins) (enc_v pk m coins)).
Proof.
  intros H. unfold indcpa_enc, enc_u, enc_v. destruct (unpack_pk pk) as [pkpv seed].
  cbn [fst snd] in *. rewrite H. reflexivity.
Qed.

Lemma enc_none fuel m pk coins :
  gen_at fuel (snd (unpack_pk pk)) = None -> indcpa_enc fuel m pk coins = None.
Proof.
  intros H. unfold indcpa_enc. destruct (unpack_pk pk) as [pkpv seed].
  cbn [snd] in H. now rewrite H.
Qed.

Lemma public_seed_length coins : length (public_seed coins) = KYBER_SYMBYTES.
Proof. unfold public_seed, key_seeds. rewrite length_take, hash_g_length. reflexivity. Qed.

Lemma key_public_length a coins : length (key_public a coins) = KYBER_PUBLICKEYBYTES.
Proof.
  unfold key_public, pack_pk. rewrite length_app, polyvec_tobytes_length, length_take.
  rewrite public_seed_length. reflexivity.
Qed.

Lemma key_secret_length coins : length (key_secret coins) = KYBER_INDCPA_SECRETKEYBYTES.
Proof. apply polyvec_tobytes_length. Qed.

(** The seed read back from the public key, whatever follows it. *)
Lemma unpack_seed a coins rest :
  snd (unpack_pk (key_public a coins ++ rest)) = public_seed coins.
Proof.
  unfold unpack_pk, key_public, pack_pk. cbn [snd]. rewrite <- app_assoc.
  rewrite (drop_app_length' _ _ KYBER_POLYVECBYTES) by (symmetry; apply polyvec_tobytes_length).
  rewrite (take_ge (public_seed coins)) by (rewrite public_seed_length; lia).
  apply take_app_length'. symmetry. apply public_seed_length.
Qed.

Lemma pack_ciphertext_length u v : length (pack_ciphertext u v) = KYBER_CIPHERTEXTBYTES.
Proof.
  unfold pack_ciphertext. rewrite length_app, polyvec_compress_length, poly_compress_length.
  reflexivity.
Qed.

Lemma pack_ciphertext_bytes u v : bytes (pack_ciphertext u v).
Proof. apply Forall_app. split; [apply polyvec_compress_bytes|apply poly_compress_bytes]. Qed.

(** Encryption only reads the public key proper. *)
Lemma indcpa_enc_prefix fuel m pk rest coins :
  length pk = KYBER_PUBLICKEYBYTES -> indcpa_enc fuel m (pk ++ rest) coins = indcpa_enc fuel m pk coins.
Proof.
  intros Hl. unfold indcpa_enc.
  assert (E : unpack_pk (pk ++ rest) = unpack_pk pk).
  { unfold unpack_pk. f_equal.
    - apply polyvec_frombytes_prefix. intros i Hi. apply get_app_l. rewrite Hl.
      change KYBER_PUBLICKEYBYTES with 1184%nat. change KYBER_POLYVECBYTES with 1152%nat in Hi. lia.
    - rewrite drop_app_le by (rewrite Hl; vm_compute; lia).
      apply take_app_le. rewrite length_drop, Hl. vm_compute. lia. }
  now rewrite E.
Qed.

(** [poly_frommsg] reads the first 32 bytes of its buffer. *)
Lemma poly_frommsg_prefix m rest :
  length m = KYBER_INDCPA_MSGBYTES -> poly_frommsg (m ++ rest) = poly_frommsg m.
Proof.
  intros Hl. change KYBER_INDCPA_MSGBYTES with 32%nat in Hl. unfold poly_frommsg.
  change (KYBER_N / 8)%nat with 32%nat. apply rows_ext. intros i Hi. now rewrite get_app_l by lia.
Qed.

Lemma indcpa_enc_msg fuel m rest pk coins :
  length m = KYBER_INDCPA_MSGBYTES -> indcpa_enc fuel (m ++ rest) pk coins = indcpa_enc fuel m pk coins.
Proof. intros Hl. unfold indcpa_enc. now rewrite poly_frommsg_prefix. Qed.

(** ** Decapsulation *)

(** What [crypto_kem_dec] does with the decrypted message. *)
Definition dec_message (ct sk : list Z) : list Z := indcpa_dec ct sk.
Definition dec_kr (ct sk : list Z) : list Z :=
  hash_g (dec_message ct sk ++
    take KYBER_SYMBYTES (drop (KYBER_SECRETKEYBYTES - 2 * KYBER_SYMBYTES) sk)).
Definition dec_reencrypt (fuel : nat) (ct sk : list Z) : option (list Z) :=
  indcpa_enc fuel (dec_message ct sk) (drop KYBER_INDCPA_SECRETKEYBYTES sk)
    (drop KYBER_SYMBYTES (dec_kr ct sk)).
Definition dec_reject (ct sk : list Z) : list Z :=
  rkprf (drop (KYBER_SECRETKEYBYTES - KYBER_SYMBYTES) sk) ct.

Lemma indcpa_enc_out fuel m pk coins ct :
  indcpa_enc fuel m pk coins = Some ct -> length ct = KYBER_CIPHERTEXTBYTES /\ bytes ct.
Proof.
  intros H. destruct (gen_at fuel (snd (unpack_pk pk))) as [at_|] eqn:E.
  - rewrite (enc_value fuel m pk coins at_ E) in H. apply (inj Some) in H. subst ct.
    split; [apply pack_ciphertext_length|apply pack_ciphertext_bytes].
  - rewrite enc_none in H by easy. discriminate.
Qed.

Lemma kem_dec_spec fuel ct sk cmp :
  length ct = KYBER_CIPHERTEXTBYTES -> bytes ct ->
  dec_reencrypt fuel ct sk = Some cmp ->
  crypto_kem_dec fuel ct sk =
  Some (if decide (ct = cmp) then take KYBER_SYMBYTES (dec_kr ct sk) else dec_reject ct sk).
Proof.
  intros Hl Hb Hre. destruct (indcpa_enc_out _ _ _ _ _ Hre) as [Lc Bc].
  unfold crypto_kem_dec. cbv zeta.
  set (h := take KYBER_SYMBYTES (drop (KYBER_SECRETKEYBYTES - 2 * KYBER_SYMBYTES) sk)).
  assert (Eb : take (2 * KYBER_SYMBYTES) (indcpa_dec ct sk ++ h) = indcpa_dec ct sk ++ h).
  { apply take_ge. rewrite length_app. unfold indcpa_dec.
    destruct (unpack_ciphertext ct). rewrite poly_tomsg_length. unfold h.
    rewrite length_take. change KYBER_INDCPA_MSGBYTES with KYBER_SYMBYTES. lia. }
  rewrite Eb. fold (dec_message ct sk). unfold h. fold (dec_kr ct sk).
  rewrite indcpa_enc_msg by (unfold dec_message, indcpa_dec; destruct (unpack_ciphertext ct); apply poly_tomsg_length).
  fold (dec_reencrypt fuel ct sk). rewrite Hre. cbn [mbind option_bind]. f_equal.
  rewrite verify_spec by (easy || lia). rewrite !take_ge by lia.
  rewrite cmov_spec; [|apply rkprf_bytes|apply hash_g_bytes
    |rewrite rkprf_length; reflexivity|unfold dec_kr; rewrite hash_g_length; vm_compute; lia
    |destruct (decide (ct = cmp)); simpl; auto].
  fold (dec_reject ct sk). destruct (decide (ct = cmp)); [|reflexivity]. cbn [Z.eqb].
  change (1 =? 1) with true. cbv iota.
  rewrite drop_ge, app_nil_r by (unfold dec_reject; rewrite rkprf_length; reflexivity). reflexivity.
Qed.

(** ** Honest runs *)

(** The key and the coins that encapsulation derives from the message [m]. *)
Definition enc_kr (pk m : list Z) : list Z := hash_g (take KYBER_SYMBYTES m ++ hash_h pk).
Definition enc_coins (pk m : list Z) : list Z := drop KYBER_SYMBYTES (enc_kr pk m).

(** The sampler finishes within [fuel] extra blocks and the noise of the run
    stays in the decoding window. *)
Definition kem_noise_ok (fuel : nat) (coins m : list Z) : bool :=
  match gen_a fuel (public_seed coins), gen_at fuel (public_seed coins) with
  | Some a, Some at_ =>
      let pk := key_public a coins in
      let r := enc_coins pk m in
      noise_ok (decryption_noise
        (noise_eta1 (noise_seed coins) 0) (noise_eta1 (noise_seed coins) KYBER_K)
        (noise_eta1 r 0) (noise_eta2 r KYBER_K)
        (poly_getnoise_eta2 r (u8 (Z.of_nat (2 * KYBER_K))))
        (enc_u at_ r) (enc_v pk m r))
  | _, _ => false
  end.

(** The secret key of the KEM. *)
Definition kem_secret (a : list (list (list Z))) (coins : list Z) : list Z :=
  ((key_secret coins ++ key_public a coins) ++ hash_h (key_public a coins)) ++
  take KYBER_SYMBYTES (drop KYBER_SYMBYTES coins).

Lemma kem_keypair_value fuel coins a :
  gen_a fuel (public_seed coins) = Some a ->
  crypto_kem_keypair_derand fuel coins = Some (key_public a coins, kem_secret a coins).
Proof.
  intros H. unfold crypto_kem_keypair_derand. rewrite (keypair_value fuel coins a H).
  cbn [mbind option_bind]. rewrite take_ge by (rewrite key_public_length; lia). reflexivity.
Qed.

Lemma kem_secret_length a coins :
  length coins = (2 * KYBER_SYMBYTES)%nat -> length (kem_secret a coins) = KYBER_SECRETKEYBYTES.
Proof.
  intros Hl. unfold kem_secret.
  rewrite !length_app, key_secret_length, key_public_length, hash_h_length, length_take, length_drop, Hl.
  reflexivity.
Qed.

Lemma kem_enc_value fuel coins a at_ m :
  length m = KYBER_SYMBYTES ->
  gen_at fuel (public_seed coins) = Some at_ ->
  crypto_kem_enc_derand fuel (key_public a coins) m =
  Some (pack_ciphertext (enc_u at_ (enc_coins (key_public a coins) m))
          (enc_v (key_public a coins) m (enc_coins (key_public a coins) m)),
        take KYBER_SYMBYTES (enc_kr (key_public a coins) m)).
Proof.
  intros Hl H. unfold crypto_kem_enc_derand. cbv zeta.
  rewrite (take_ge m) by lia. rewrite (take_ge (key_public a coins)) by (rewrite key_public_length; lia).
  rewrite (take_ge (m ++ _)) by (rewrite length_app, hash_h_length; lia).
  rewrite indcpa_enc_msg by easy. unfold enc_coins, enc_kr. rewrite (take_ge m) by lia.
  pose proof (unpack_seed a coins []) as Es. rewrite app_nil_r in Es.
  rewrite (enc_value fuel _ _ _ at_) by (now rewrite Es). reflexivity.
Qed.

Lemma drop_exact (a b : list Z) n : length a = n -> drop n (a ++ b) = b.
Proof. intros H. now apply drop_app_length'. Qed.

Lemma take_exact (a b : list Z) n : length a = n -> take n (a ++ b) = a.
Proof. intros H. now apply take_app_length'. Qed.

(** Decryption of the ciphertext of a run gives the message. *)
Lemma run_decrypts fuel coins m a at_ :
  length m = KYBER_SYMBYTES -> bytes m ->
  gen_a fuel (public_seed coins) = Some a -> gen_at fuel (public_seed coins) = Some at_ ->
  kem_noise_ok fuel coins m = true -> forall rest,
  indcpa_dec (pack_ciphertext (enc_u at_ (enc_coins (key_public a coins) m))
      (enc_v (key_public a coins) m (enc_coins (key_public a coins) m)))
    (key_secret coins ++ rest) = m.
Proof.
  intros Lm Bm Ea Et Hn rest. unfold kem_noise_ok in Hn. rewrite Ea, Et in Hn. cbv zeta in Hn.
  destruct (gen_at_of_gen_a fuel _ a Ea) as (at' & Et' & Htr).
  rewrite Et in Et'. injection Et' as <-. unfold key_secret.
  pose proof (indcpa_correct a at_ (noise_eta1 (noise_seed coins) 0)
    (noise_eta1 (noise_seed coins) KYBER_K) (noise_eta1 (enc_coins (key_public a coins) m) 0)
    (noise_eta2 (enc_coins (key_public a coins) m) KYBER_K)
    (poly_getnoise_eta2 (enc_coins (key_public a coins) m) (u8 (Z.of_nat (2 * KYBER_K))))
    m (public_seed coins) rest []) as Hc.
  cbv zeta in Hc. rewrite app_nil_r in Hc. fold (key_public a coins) in Hc.
  apply Hc; [exact (gen_matrix_ok fuel (public_seed coins) false a Ea)|exact (gen_matrix_ok fuel (public_seed coins) true at_ Et)|exact Htr
    |apply noise_eta1_spec|apply noise_eta1_spec|apply noise_eta1_spec|apply noise_eta2_spec
    |apply getnoise_eta2_spec|apply getnoise_eta2_spec|exact Lm|exact Bm|exact Hn].
Qed.

(** A run of the three functions. *)
Lemma kem_agreement fuel coins m :
  length m = KYBER_SYMBYTES -> bytes m -> kem_noise_ok fuel coins m = true ->
  exists pk sk ct ss,
    crypto_kem_keypair_derand fuel coins = Some (pk, sk) /\
    crypto_kem_enc_derand fuel pk m = Some (ct, ss) /\
    crypto_kem_dec fuel ct sk = Some ss /\
    length pk = KYBER_PUBLICKEYBYTES /\ length ct = KYBER_CIPHERTEXTBYTES /\
    length ss = KYBER_SSBYTES /\
    (length coins = (2 * KYBER_SYMBYTES)%nat -> length sk = KYBER_SECRETKEYBYTES).
Proof.
  intros Lm Bm Hn. pose proof Hn as Hn'. unfold kem_noise_ok in Hn'.
  destruct (gen_a fuel (public_seed coins)) as [a|] eqn:Ea; [|discriminate].
  destruct (gen_at_of_gen_a fuel _ a Ea) as (at_ & Et & Htr). clear Hn'.
  pose proof (kem_keypair_value fuel coins a Ea) as Ekey.
  pose proof (kem_enc_value fuel coins a at_ m Lm Et) as Eenc.
  pose proof (key_public_length a coins) as Lpk.
  pose proof (run_decrypts fuel coins m a at_ Lm Bm Ea Et Hn) as Hdec.
  set (pk := key_public a coins) in *. set (r := enc_coins pk m) in *.
  set (ct := pack_ciphertext (enc_u at_ r) (enc_v pk m r)) in *.
  exists pk, (kem_secret a coins), ct, (take KYBER_SYMBYTES (enc_kr pk m)).
  split; [exact Ekey|]. split; [exact Eenc|].
  assert (Esk : kem_secret a coins = key_secret coins ++ pk ++ hash_h pk ++
            take KYBER_SYMBYTES (drop KYBER_SYMBYTES coins))
    by (unfold kem_secret; now rewrite <- !app_assoc).
  assert (Emsg : dec_message ct (kem_secret a coins) = m) by (rewrite Esk; apply Hdec).
  assert (Ekr : dec_kr ct (kem_secret a coins) = enc_kr pk m).
  { unfold dec_kr, enc_kr. rewrite Emsg, (take_ge m) by lia. f_equal. f_equal. rewrite Esk.
    rewrite app_assoc, drop_exact by (rewrite length_app, key_secret_length, Lpk; reflexivity).
    apply take_exact, hash_h_length. }
  assert (Ere : dec_reencrypt fuel ct (kem_secret a coins) = Some ct).
  { unfold dec_reencrypt. rewrite Emsg, Ekr, Esk, drop_exact by apply key_secret_length.
    rewrite indcpa_enc_prefix by exact Lpk.
    pose proof (unpack_seed a coins []) as Es. rewrite app_nil_r in Es.
    apply enc_value. fold pk in Es. now rewrite Es. }
  split.
  - rewrite (kem_dec_spec fuel ct _ ct) by (apply pack_ciphertext_length || apply pack_ciphertext_bytes || exact Ere).
    rewrite decide_True by reflexivity. now rewrite Ekr.
  - split; [exact Lpk|]. split; [apply pack_ciphertext_length|].
    split; [rewrite length_take; unfold enc_kr; rewrite hash_g_length; reflexivity |].
    apply kem_secret_length.
Qed.

(** C2: correctness of the KEM.  For every key-generation seed, every message and
    every number of blocks for which the sampler finishes and the noise of the run
    stays in the decoding window (a decidable condition), key generation,
    encapsulation and decapsulation all return, decapsulation yields the key that
    encapsulation gave, and the outputs have the sizes of [params.h]. *)
Theorem kem_correct fuel coins m :
  length m = KYBER_SYMBYTES -> bytes m -> kem_noise_ok fuel coins m = true ->
  exists pk sk ct ss,
    crypto_kem_keypair_derand fuel coins = Some (pk, sk) /\
    crypto_kem_enc_derand fuel pk m = Some (ct, ss) /\
    crypto_kem_dec fuel ct sk = Some ss /\
    length pk = KYBER_PUBLICKEYBYTES /\ length ct = KYBER_CIPHERTEXTBYTES /\
    length ss = KYBER_SSBYTES.
Proof.
  intros Lm Bm Hn. destruct (kem_agreement fuel coins m Lm Bm Hn)
    as (pk & sk & ct & ss & Hk & He & Hd & Lp & Lc & Ls & _).
  exists pk, sk, ct, ss. split_and!; assumption.
Qed.

(** C11: decapsulation on an arbitrary ciphertext.  [crypto_kem_dec] decrypts,
    re-encrypts with the coins derived from the decrypted message and the stored
    hash of the public key, and returns the derived key exactly when the
    re-encryption reproduces the ciphertext, and the pseudorandom rejection key of
    the stored secret [z] and the ciphertext in every other case. *)
Theorem kem_dec_implicit_rejection fuel ct sk cmp :
  length ct = KYBER_CIPHERTEXTBYTES -> bytes ct ->
  indcpa_enc fuel (indcpa_dec ct sk) (drop KYBER_INDCPA_SECRETKEYBYTES sk)
    (drop KYBER_SYMBYTES (hash_g (indcpa_dec ct sk ++
       take KYBER_SYMBYTES (drop (KYBER_SECRETKEYBYTES - 2 * KYBER_SYMBYTES) sk)))) = Some cmp ->
  (ct = cmp -> crypto_kem_dec fuel ct sk = Some (take KYBER_SYMBYTES (hash_g (indcpa_dec ct sk ++
       take KYBER_SYMBYTES (drop (KYBER_SECRETKEYBYTES - 2 * KYBER_SYMBYTES) sk))))) /\
  (ct <> cmp -> crypto_kem_dec fuel ct sk =
     Some (rkprf (drop (KYBER_SECRETKEYBYTES - KYBER_SYMBYTES) sk) ct)).
Proof.
  intros Hl Hb He. rewrite (kem_dec_spec fuel ct sk cmp Hl Hb He).
  split; intros H; [rewrite decide_True by easy|rewrite decide_False by easy]; reflexivity.
Qed.

(** C31: key generation, encapsulation for the generated key and decapsulation of any
    ciphertext with the generated secret key never fail once the sampler finishes
    for the public seed within [fuel] extra blocks; the sizes are those of
    [params.h]. *)
Theorem kem_total fuel coins m ct a :
  length coins = (2 * KYBER_SYMBYTES)%nat -> length m = KYBER_SYMBYTES ->
  length ct = KYBER_CIPHERTEXTBYTES -> bytes ct ->
  gen_matrix fuel (take KYBER_SYMBYTES
    (hash_g (take KYBER_SYMBYTES coins ++ [Z.of_nat KYBER_K]))) false = Some a ->
  exists pk sk ct' ss ss',
    crypto_kem_keypair_derand fuel coins = Some (pk, sk) /\
    crypto_kem_enc_derand fuel pk m = Some (ct', ss) /\
    crypto_kem_dec fuel ct sk = Some ss' /\
    length pk = KYBER_PUBLICKEYBYTES /\ length sk = KYBER_SECRETKEYBYTES /\
    length ct' = KYBER_CIPHERTEXTBYTES /\ length ss = KYBER_SSBYTES /\ length ss' = KYBER_SSBYTES.
Proof.
  intros Lc Lm Lct Bct Ea. change (gen_a fuel (public_seed coins) = Some a) in Ea.
  destruct (gen_at_of_gen_a fuel _ a Ea) as (at_ & Et & _).
  assert (Esk : kem_secret a coins = key_secret coins ++ key_public a coins ++
    hash_h (key_public a coins) ++ take KYBER_SYMBYTES (drop KYBER_SYMBYTES coins))
    by (unfold kem_secret; now rewrite <- !app_assoc).
  assert (Ere : exists cmp, dec_reencrypt fuel ct (kem_secret a coins) = Some cmp).
  { eexists. unfold dec_reencrypt. rewrite Esk at 2. rewrite drop_exact by apply key_secret_length.
    apply enc_value. rewrite unpack_seed. exact Et. }
  destruct Ere as [cmp Ere]. pose proof (kem_dec_spec fuel ct _ cmp Lct Bct Ere) as Ed.
  do 5 eexists. split; [exact (kem_keypair_value fuel coins a Ea)|].
  split; [exact (kem_enc_value fuel coins a at_ m Lm Et)|]. split; [exact Ed|].
  split; [apply key_public_length|]. split; [now apply kem_secret_length|].
  split; [apply pack_ciphertext_length|].
  split; [unfold enc_kr; rewrite length_take, hash_g_length; reflexivity|].
  destruct (decide (ct = cmp)); [unfold dec_kr; rewrite length_take, hash_g_length; reflexivity|].
  apply rkprf_length.
Qed.
End KemSpec.

(** ** Evaluation at a concrete input

    In the all-zero instance the matrix and all noise vanish. *)

Definition zero_vec : list (list Z) := replicate 3 (replicate 256 0).

Lemma zero_sampler : exists a, @gen_matrix zero_symmetric 0 (replicate 32 0) false = Some a.
Proof.
  assert (E : match @gen_matrix zero_symmetric 0 (replicate 32 0) false with
              | Some _ => true | None => false end = true) by (vm_compute; reflexivity).
  destruct (gen_matrix 0 (replicate 32 0) false) as [a|]; [now exists a|discriminate].
Qed.

Lemma get_zeros n i : get (replicate n 0) i = 0.
Proof.
  unfold get. rewrite nth_lookup. destruct (replicate n 0 !! i) as [x|] eqn:E; [|reflexivity].
  apply lookup_replicate in E. now destruct E as [-> _].
Qed.

Lemma ring_mul_zeros b : ring_mul (replicate 256 0) b = replicate 256 0.
Proof.
  apply list_eq_get; [now rewrite ring_mul_length, length_replicate|]. intros k Hk.
  rewrite ring_mul_length in Hk. unfold ring_mul. rewrite get_map_seq, get_zeros by easy.
  unfold ring_coeff. rewrite (sumZ_ext _ (fun _ => 0)) by (intros; now rewrite get_zeros).
  generalize (seq 0 256). intros l. induction l as [|x l IH]; [easy|]. unfold sumZ in *. simpl. lia.
Qed.

Lemma ring_dot_zeros b : ring_dot zero_vec b = replicate 256 0.
Proof. unfold ring_dot. cbn [vec zero_vec replicate nth]. rewrite !ring_mul_zeros. reflexivity. Qed.

(** Without noise only the rounding of [v] remains. *)
Lemma zero_noise_ok r e1 u v :
  is_poly v -> noise_ok (decryption_noise zero_vec zero_vec r e1 (replicate 256 0) u v) = true.
Proof.
  intros Hv. unfold noise_ok. apply forallb_forall. intros x Hx.
  apply (In_nth _ _ 0) in Hx. destruct Hx as (n & Hn & <-). apply Z.ltb_lt.
  unfold decryption_noise in *. cbv zeta in *. rewrite !ring_dot_zeros in *.
  pose proof (rounding_poly 4 v Hv) as Lr. pose proof (length_replicate 256 0) as Lz.
  assert (Lz2 : is_poly (ring_sub (replicate 256 0) (replicate 256 0))) by now apply ring_sub_poly.
  assert (Lz3 : is_poly (ring_add (replicate 256 0) (rounding 4 v))) by now apply ring_add_poly.
  rewrite (ring_add_poly _ _ Lz3 Lz2) in Hn. unfold is_poly in *. fold (get (ring_add
    (ring_add (replicate 256 0) (rounding 4 v)) (ring_sub (replicate 256 0) (replicate 256 0))) n).
  unfold ring_add, ring_sub in *. rewrite !get_zip_with by lia. rewrite !get_zeros.
  unfold rounding. rewrite get_map by lia.
  pose proof (Z.mod_pos_bound (get v n) KYBER_Q ltac:(reflexivity)) as Hu.
  destruct (compress4_error _ Hu) as [k Hk]. set (d := decompress 4 _) in *. clearbody d.
  unfold KYBER_Q in *. zdm; lia.
Qed.

Lemma zero_kem_noise_ok : @kem_noise_ok zero_symmetric 0 (replicate 64 0) (replicate 32 0) = true.
Proof.
  unfold kem_noise_ok.
  assert (Es : @public_seed zero_symmetric (replicate 64 0) = replicate 32 0) by reflexivity.
  rewrite Es. destruct zero_sampler as [a Ea].
  change (@gen_a zero_symmetric 0 (replicate 32 0) = Some a) in Ea.
  destruct (@gen_at_of_gen_a zero_symmetric 0 _ a Ea) as (at_ & Et & _).
  rewrite Ea, Et. cbv zeta.
  assert (En : forall seed n, @noise_eta1 zero_symmetric seed n = zero_vec)
    by (intros; vm_compute; reflexivity).
  assert (E2 : forall seed n, @poly_getnoise_eta2 zero_symmetric seed n = replicate 256 0)
    by (intros; vm_compute; reflexivity).
  rewrite !En, E2. apply zero_noise_ok. unfold enc_v, cipher_poly, poly_reduce, is_poly.
  now rewrite length_map, length_seq.
Qed.

Lemma kem_correct_witness :
  @kem_noise_ok zero_symmetric 0 (replicate 64 0) (replicate 32 0) = true /\
  exists pk sk ct ss,
    @crypto_kem_keypair_derand zero_symmetric 0 (replicate 64 0) = Some (pk, sk) /\
    @crypto_kem_enc_derand zero_symmetric 0 pk (replicate 32 0) = Some (ct, ss) /\
    @crypto_kem_dec zero_symmetric 0 ct sk = Some ss /\
    length pk = KYBER_PUBLICKEYBYTES /\ length ct = KYBER_CIPHERTEXTBYTES /\
    length ss = KYBER_SSBYTES.
Proof.
  split; [exact zero_kem_noise_ok|].
  exact (@kem_correct zero_symmetric zero_laws 0 (replicate 64 0) (replicate 32 0)
           eq_refl (zeros_bytes 32) zero_kem_noise_ok).
Defined.

Lemma kem_total_witness :
  exists pk sk ct' ss ss',
    @crypto_kem_keypair_derand zero_symmetric 0 (replicate 64 0) = Some (pk, sk) /\
    @crypto_kem_enc_derand zero_symmetric 0 pk (replicate 32 0) = Some (ct', ss) /\
    @crypto_kem_dec zero_symmetric 0 (replicate 1088 7) sk = Some ss' /\
    length pk = KYBER_PUBLICKEYBYTES /\ length sk = KYBER_SECRETKEYBYTES /\
    length ct' = KYBER_CIPHERTEXTBYTES /\ length ss = KYBER_SSBYTES /\ length ss' = KYBER_SSBYTES.
Proof.
  destruct zero_sampler as [a Ea].
  refine (@kem_total zero_symmetric zero_laws 0 (replicate 64 0) (replicate 32 0)
            (replicate 1088 7) a eq_refl eq_refl _ _ Ea); [now rewrite length_replicate|].
  apply Forall_replicate. unfold is_byte. lia.
Defined.

(** The reencryption of the all-sevens ciphertext under the zero key exists. *)
Lemma kem_dec_implicit_rejection_witness :
  exists sk cmp,
    @indcpa_enc zero_symmetric 0 (indcpa_dec (replicate 1088 7) sk)
      (drop KYBER_INDCPA_SECRETKEYBYTES sk)
      (drop KYBER_SYMBYTES (replicate 64 0)) = Some cmp /\
    (replicate 1088 7 <> cmp ->
       @crypto_kem_dec zero_symmetric 0 (replicate 1088 7) sk = Some (replicate 32 0)).
Proof.
  destruct zero_sampler as [a Ea].
  destruct (@gen_at_of_gen_a zero_symmetric 0 _ a Ea) as (at_ & Et & _).
  exists (replicate 2400 0). eexists.
  assert (He : @indcpa_enc zero_symmetric 0 (indcpa_dec (replicate 1088 7) (replicate 2400 0))
      (drop KYBER_INDCPA_SECRETKEYBYTES (replicate 2400 0))
      (drop KYBER_SYMBYTES (replicate 64 0)) = Some _)
    by (apply enc_value; exact Et).
  split; [exact He|]. intros Hne.
  exact (proj2 (@kem_dec_implicit_rejection zero_symmetric zero_laws 0 (replicate 1088 7)
    (replicate 2400 0) _ (length_replicate 1088 7)
    (Forall_replicate is_byte 1088 7 ltac:(unfold is_byte; lia)) He) Hne).
Defined.
