(* ===== verification/NtlsTypes.v ===== *)
(** * NTLS handshake: data

    The data of the TLCP (NTLS) handshake state machines of
    [tongsuo/ssl/statem_ntls]: the enumerations of [ssl.h] and [statem.h], the
    [OSSL_STATEM] structure, the fields of the [SSL] object the state machines
    read or write. *)

From S2P Require Import Prelude.

Declare Scope ntls_scope.
Delimit Scope ntls_scope with ntls.

Open Scope ntls_scope.

(** ** Enumerations *)

(** [OSSL_HANDSHAKE_STATE] of [openssl/ssl.h]. *)
Inductive OSSL_HANDSHAKE_STATE : Set :=
| TLS_ST_BEFORE
| TLS_ST_OK
| DTLS_ST_CR_HELLO_VERIFY_REQUEST
| TLS_ST_CR_SRVR_HELLO
| TLS_ST_CR_CERT
| TLS_ST_CR_CERT_STATUS
| TLS_ST_CR_KEY_EXCH
| TLS_ST_CR_CERT_REQ
| TLS_ST_CR_SRVR_DONE
| TLS_ST_CR_SESSION_TICKET
| TLS_ST_CR_CHANGE
| TLS_ST_CR_FINISHED
| TLS_ST_CW_CLNT_HELLO
| TLS_ST_CW_CERT
| TLS_ST_CW_KEY_EXCH
| TLS_ST_CW_CERT_VRFY
| TLS_ST_CW_CHANGE
| TLS_ST_CW_NEXT_PROTO
| TLS_ST_CW_FINISHED
| TLS_ST_SW_HELLO_REQ
| TLS_ST_SR_CLNT_HELLO
| DTLS_ST_SW_HELLO_VERIFY_REQUEST
| TLS_ST_SW_SRVR_HELLO
| TLS_ST_SW_CERT
| TLS_ST_SW_KEY_EXCH
| TLS_ST_SW_CERT_REQ
| TLS_ST_SW_SRVR_DONE
| TLS_ST_SR_CERT
| TLS_ST_SR_KEY_EXCH
| TLS_ST_SR_CERT_VRFY
| TLS_ST_SR_NEXT_PROTO
| TLS_ST_SR_CHANGE
| TLS_ST_SR_FINISHED
| TLS_ST_SW_SESSION_TICKET
| TLS_ST_SW_CERT_STATUS
| TLS_ST_SW_CHANGE
| TLS_ST_SW_FINISHED
| TLS_ST_SW_ENCRYPTED_EXTENSIONS
| TLS_ST_CR_ENCRYPTED_EXTENSIONS
| TLS_ST_CR_CERT_VRFY
| TLS_ST_SW_CERT_VRFY
| TLS_ST_CR_HELLO_REQ
| TLS_ST_SW_KEY_UPDATE
| TLS_ST_CW_KEY_UPDATE
| TLS_ST_SR_KEY_UPDATE
| TLS_ST_CR_KEY_UPDATE
| TLS_ST_EARLY_DATA
| TLS_ST_PENDING_EARLY_DATA_END
| TLS_ST_CW_END_OF_EARLY_DATA
| TLS_ST_SR_END_OF_EARLY_DATA.

(** The enumerations of [ssl/statem/statem.h]. *)
Inductive WORK_STATE : Set :=
| WORK_ERROR
| WORK_FINISHED_STOP
| WORK_FINISHED_CONTINUE
| WORK_MORE_A
| WORK_MORE_B
| WORK_MORE_C.

Inductive WRITE_TRAN : Set :=
| WRITE_TRAN_ERROR
| WRITE_TRAN_CONTINUE
| WRITE_TRAN_FINISHED.

Inductive MSG_FLOW_STATE : Set :=
| MSG_FLOW_UNINITED
| MSG_FLOW_ERROR
| MSG_FLOW_READING
| MSG_FLOW_WRITING
| MSG_FLOW_FINISHED.

Inductive READ_STATE : Set :=
| READ_STATE_HEADER
| READ_STATE_BODY
| READ_STATE_POST_PROCESS.

Inductive WRITE_STATE : Set :=
| WRITE_STATE_TRANSITION
| WRITE_STATE_PRE_WORK
| WRITE_STATE_SEND
| WRITE_STATE_POST_WORK.

Inductive ENC_WRITE_STATES : Set :=
| ENC_WRITE_STATE_VALID
| ENC_WRITE_STATE_INVALID
| ENC_WRITE_STATE_WRITE_PLAIN_ALERTS.

Inductive ENC_READ_STATES : Set :=
| ENC_READ_STATE_VALID
| ENC_READ_STATE_ALLOW_PLAIN_ALERTS.

(** [MSG_PROCESS_RETURN] of [ntls_statem_local.h]. *)
Inductive MSG_PROCESS_RETURN : Set :=
| MSG_PROCESS_ERROR
| MSG_PROCESS_FINISHED_READING
| MSG_PROCESS_CONTINUE_PROCESSING
| MSG_PROCESS_CONTINUE_READING.

(** [SUB_STATE_RETURN] of [ntls_statem.c]. *)
Inductive SUB_STATE_RETURN : Set :=
| SUB_STATE_ERROR
| SUB_STATE_FINISHED
| SUB_STATE_END_HANDSHAKE.

(** The enumerations of [ssl_local.h] the state machines test. *)
Inductive SSL_EARLY_DATA_STATE : Set :=
| SSL_EARLY_DATA_NONE
| SSL_EARLY_DATA_CONNECT_RETRY
| SSL_EARLY_DATA_CONNECTING
| SSL_EARLY_DATA_WRITE_RETRY
| SSL_EARLY_DATA_WRITING
| SSL_EARLY_DATA_WRITE_FLUSH
| SSL_EARLY_DATA_UNAUTH_WRITING
| SSL_EARLY_DATA_FINISHED_WRITING
| SSL_EARLY_DATA_ACCEPT_RETRY
| SSL_EARLY_DATA_ACCEPTING
| SSL_EARLY_DATA_READ_RETRY
| SSL_EARLY_DATA_READING
| SSL_EARLY_DATA_FINISHED_READING.

Inductive SSL_PHA_STATE : Set :=
| SSL_PHA_NONE
| SSL_PHA_EXT_SENT
| SSL_PHA_EXT_RECEIVED
| SSL_PHA_REQUEST_PENDING
| SSL_PHA_REQUESTED.

Inductive SSL_HRR_STATE : Set :=
| SSL_HRR_NONE
| SSL_HRR_PENDING
| SSL_HRR_COMPLETE.

#[export] Instance hand_state_eq_dec : EqDecision OSSL_HANDSHAKE_STATE.
Proof. solve_decision. Defined.
#[export] Instance flow_state_eq_dec : EqDecision MSG_FLOW_STATE.
Proof. solve_decision. Defined.
#[export] Instance early_data_eq_dec : EqDecision SSL_EARLY_DATA_STATE.
Proof. solve_decision. Defined.
#[export] Instance pha_eq_dec : EqDecision SSL_PHA_STATE.
Proof. solve_decision. Defined.
#[export] Instance hrr_eq_dec : EqDecision SSL_HRR_STATE.
Proof. solve_decision. Defined.
#[export] Instance work_state_eq_dec : EqDecision WORK_STATE.
Proof. solve_decision. Defined.
#[export] Instance process_return_eq_dec : EqDecision MSG_PROCESS_RETURN.
Proof. solve_decision. Defined.
#[export] Instance enc_write_eq_dec : EqDecision ENC_WRITE_STATES.
Proof. solve_decision. Defined.

(** ** Constants *)

(** Handshake message types ([ssl3.h]). *)
Definition SSL3_MT_HELLO_REQUEST : Z := 0.
Definition SSL3_MT_CLIENT_HELLO : Z := 1.
Definition SSL3_MT_SERVER_HELLO : Z := 2.
Definition SSL3_MT_NEWSESSION_TICKET : Z := 4.
Definition SSL3_MT_END_OF_EARLY_DATA : Z := 5.
Definition SSL3_MT_CERTIFICATE : Z := 11.
Definition SSL3_MT_SERVER_KEY_EXCHANGE : Z := 12.
Definition SSL3_MT_CERTIFICATE_REQUEST : Z := 13.
Definition SSL3_MT_SERVER_DONE : Z := 14.
Definition SSL3_MT_CERTIFICATE_VERIFY : Z := 15.
Definition SSL3_MT_CLIENT_KEY_EXCHANGE : Z := 16.
Definition SSL3_MT_FINISHED : Z := 20.
Definition SSL3_MT_CERTIFICATE_STATUS : Z := 22.
Definition SSL3_MT_NEXT_PROTO : Z := 67.
Definition SSL3_MT_CHANGE_CIPHER_SPEC : Z := 0x0101.
Definition SSL3_MT_DUMMY : Z := -1.

Definition SSL3_VERSION : Z := 0x0300.
Definition TLS1_3_VERSION : Z := 0x0304.
Definition NTLS_VERSION : Z := 0x0101.

Definition SSL_aNULL : Z := 0x4.
Definition SSL_aPSK : Z := 0x10.
Definition SSL_aSRP : Z := 0x40.
Definition SSL_aSM2 : Z := 0x100.
Definition SSL_PSK : Z := 0x1c8.

Definition SSL_VERIFY_PEER : Z := 1.
Definition SSL_VERIFY_FAIL_IF_NO_PEER_CERT : Z := 2.
Definition SSL_VERIFY_CLIENT_ONCE : Z := 4.

Definition SSL_OP_ENABLE_MIDDLEBOX_COMPAT : Z := 2 ^ 20.
Definition SSL_OP_NO_RENEGOTIATION : Z := 2 ^ 30.
Definition TLS1_FLAGS_SKIP_CERT_VERIFY : Z := 0x10.
Definition TLS1_FLAGS_STATELESS : Z := 0x800.

Definition SSL_NOTHING : Z := 1.
Definition SSL_WRITING : Z := 2.
Definition SSL_X509_LOOKUP : Z := 4.

Definition SSL_EARLY_DATA_NOT_SENT : Z := 0.
Definition SSL_EARLY_DATA_REJECTED : Z := 1.
Definition SSL_EARLY_DATA_ACCEPTED : Z := 2.

Definition SSL3_CHANGE_CIPHER_CLIENT_WRITE : Z := 0x12.
Definition SSL3_CHANGE_CIPHER_SERVER_READ : Z := 0x21.
Definition SSL3_CHANGE_CIPHER_CLIENT_READ : Z := 0x11.
Definition SSL3_CHANGE_CIPHER_SERVER_WRITE : Z := 0x22.
Definition SSL3_CC_EARLY : Z := 0x40.

(** Alerts. *)
Definition SSL_AD_NO_ALERT : Z := -1.
Definition SSL3_AL_WARNING : Z := 1.
Definition SSL3_AL_FATAL : Z := 2.
Definition SSL_AD_UNEXPECTED_MESSAGE : Z := 10.
Definition SSL_AD_HANDSHAKE_FAILURE : Z := 40.
Definition SSL_AD_ILLEGAL_PARAMETER : Z := 47.
Definition SSL_AD_DECODE_ERROR : Z := 50.
Definition SSL_AD_DECRYPT_ERROR : Z := 51.
Definition SSL_AD_PROTOCOL_VERSION : Z := 70.
Definition SSL_AD_INTERNAL_ERROR : Z := 80.
Definition SSL_AD_NO_RENEGOTIATION : Z := 100.

(** Message size limits ([ntls_statem_local.h], [ntls_statem_srvr.c]). *)
Definition SSL3_RT_MAX_PLAIN_LENGTH : Z := 16384.
Definition SSL3_HM_HEADER_LENGTH : Z := 4.
Definition SERVER_HELLO_MAX_LENGTH : Z := 65607.
Definition SERVER_KEY_EXCH_MAX_LENGTH : Z := 102400.
Definition SERVER_HELLO_DONE_MAX_LENGTH : Z := 0.
Definition CCS_MAX_LENGTH : Z := 1.
Definition SESSION_TICKET_MAX_LENGTH_TLS12 : Z := 65541.
Definition FINISHED_MAX_LENGTH : Z := 64.
Definition ENCRYPTED_EXTENSIONS_MAX_LENGTH : Z := 20000.
Definition KEY_UPDATE_MAX_LENGTH : Z := 1.
Definition CLIENT_HELLO_MAX_LENGTH : Z := 131396.
Definition CLIENT_KEY_EXCH_MAX_LENGTH : Z := 2048.
Definition NEXT_PROTO_MAX_LENGTH : Z := 514.
Definition EVP_MAX_MD_SIZE : Z := 64.

(** [(x & mask) != 0]. *)
Definition flag (x mask : Z) : bool := negb (Z.land x mask =? 0).

(** ** Structures *)

(** The fields of [SSL_CIPHER] the state machines use. *)
Record SSL_CIPHER := mk_cipher {
  cipher_id : Z;
  algorithm_mkey : Z;
  algorithm_auth : Z;
  min_tls : Z;
  max_tls : Z }.

#[export] Instance cipher_eq_dec : EqDecision SSL_CIPHER.
Proof. solve_decision. Defined.

(** An accepted or sent handshake message (or ChangeCipherSpec), by type. *)
Inductive event : Set :=
| Rd (mt : Z)
| Wr (mt : Z).

#[export] Instance event_eq_dec : EqDecision event.
Proof. solve_decision. Defined.

(** [OSSL_STATEM], and [SSL] with the fields the state machines touch: the
    [s3], [s3.tmp], [ext] and [session] members carry the name of the
    structure they are in; pointers that are only tested against [NULL] are
    booleans ([true]: not [NULL]); [init_msg] is the offset of the message in
    [init_buf].  Two fields are not in the C code: [trace], a ghost history of
    the messages accepted and sent in the current handshake, oldest first,
    and [world], all the state the state machines do not look at. *)
Record OSSL_STATEM := mk_statem {
  state : MSG_FLOW_STATE;
  write_state : WRITE_STATE;
  write_state_work : WORK_STATE;
  read_state : READ_STATE;
  read_state_work : WORK_STATE;
  hand_state : OSSL_HANDSHAKE_STATE;
  request_state : OSSL_HANDSHAKE_STATE;
  in_init : bool;
  read_state_first_init : bool;
  in_handshake : Z;
  cleanuphand : bool;
  no_cert_verify : bool;
  enc_write_state : ENC_WRITE_STATES;
  enc_read_state : ENC_READ_STATES }.

Record SSL (W : Type) := mk_ssl {
  statem : OSSL_STATEM;
  server : bool;
  version : Z;
  hit : bool;
  renegotiate : bool;
  new_session : bool;
  options : Z;
  early_data_state : SSL_EARLY_DATA_STATE;
  max_early_data : Z;
  hello_retry_request : SSL_HRR_STATE;
  post_handshake_auth : SSL_PHA_STATE;
  shutdown : Z;
  rwstate : Z;
  first_packet : bool;
  init_buf : bool;
  init_num : Z;
  init_msg : Z;
  verify_mode : Z;
  certreqs_sent : Z;
  max_cert_list : Z;
  session_cipher : option SSL_CIPHER;
  session_peer : bool;
  session_tick : bool;
  ext_session_secret_cb : bool;
  ext_ticket_expected : bool;
  ext_status_expected : bool;
  ext_early_data : Z;
  s3_flags : Z;
  s3_renegotiate : bool;
  s3_change_cipher_spec : bool;
  s3_npn_seen : bool;
  s3_in_read_app_data : bool;
  s3_num_renegotiations : Z;
  s3_total_renegotiations : Z;
  s3_key_block : bool;
  s3_handshake_buffer : bool;
  s3_previous_client_finished : list Z;
  s3_previous_server_finished : list Z;
  tmp_new_cipher : option SSL_CIPHER;
  tmp_cert_req : Z;
  tmp_cert_request : bool;
  tmp_message_size : Z;
  tmp_finish_md : list Z;
  tmp_peer_finish_md : list Z;
  trace : list event;
  world : W }.


Arguments statem {W} _.
Arguments server {W} _.
Arguments version {W} _.
Arguments hit {W} _.
Arguments renegotiate {W} _.
Arguments new_session {W} _.
Arguments options {W} _.
Arguments early_data_state {W} _.
Arguments max_early_data {W} _.
Arguments hello_retry_request {W} _.
Arguments post_handshake_auth {W} _.
Arguments shutdown {W} _.
Arguments rwstate {W} _.
Arguments first_packet {W} _.
Arguments init_buf {W} _.
Arguments init_num {W} _.
Arguments init_msg {W} _.
Arguments verify_mode {W} _.
Arguments certreqs_sent {W} _.
Arguments max_cert_list {W} _.
Arguments session_cipher {W} _.
Arguments session_peer {W} _.
Arguments session_tick {W} _.
Arguments ext_session_secret_cb {W} _.
Arguments ext_ticket_expected {W} _.
Arguments ext_status_expected {W} _.
Arguments ext_early_data {W} _.
Arguments s3_flags {W} _.
Arguments s3_renegotiate {W} _.
Arguments s3_change_cipher_spec {W} _.
Arguments s3_npn_seen {W} _.
Arguments s3_in_read_app_data {W} _.
Arguments s3_num_renegotiations {W} _.
Arguments s3_total_renegotiations {W} _.
Arguments s3_key_block {W} _.
Arguments s3_handshake_buffer {W} _.
Arguments s3_previous_client_finished {W} _.
Arguments s3_previous_server_finished {W} _.
Arguments tmp_new_cipher {W} _.
Arguments tmp_cert_req {W} _.
Arguments tmp_cert_request {W} _.
Arguments tmp_message_size {W} _.
Arguments tmp_finish_md {W} _.
Arguments tmp_peer_finish_md {W} _.
Arguments trace {W} _.
Arguments world {W} _.
Arguments mk_ssl {W} _ _ _ _ _ _ _ _ _ _ _ _ _ _ _ _ _ _ _ _ _ _ _ _ _ _ _ _ _
  _ _ _ _ _ _ _ _ _ _ _ _ _ _ _ _ _ .

#[export] Instance eta_statem : Eta OSSL_STATEM := fun r => mk_statem (state
  r) (write_state r) (write_state_work r) (read_state r) (read_state_work r)
  (hand_state r) (request_state r) (in_init r) (read_state_first_init r)
  (in_handshake r) (cleanuphand r) (no_cert_verify r) (enc_write_state r)
  (enc_read_state r).

#[export] Instance eta_ssl {W} : Eta (SSL W) := fun r => mk_ssl (statem r)
  (server r) (version r) (hit r) (renegotiate r) (new_session r) (options r)
  (early_data_state r) (max_early_data r) (hello_retry_request r)
  (post_handshake_auth r) (shutdown r) (rwstate r) (first_packet r) (init_buf
  r) (init_num r) (init_msg r) (verify_mode r) (certreqs_sent r) (max_cert_list r)
  (session_cipher r) (session_peer r) (session_tick r) (ext_session_secret_cb
  r) (ext_ticket_expected r) (ext_status_expected r) (ext_early_data r)
  (s3_flags r) (s3_renegotiate r) (s3_change_cipher_spec r) (s3_npn_seen r)
  (s3_in_read_app_data r) (s3_num_renegotiations r) (s3_total_renegotiations
  r) (s3_key_block r) (s3_handshake_buffer r) (s3_previous_client_finished r)
  (s3_previous_server_finished r) (tmp_new_cipher r) (tmp_cert_req r)
  (tmp_cert_request r) (tmp_message_size r) (tmp_finish_md r)
  (tmp_peer_finish_md r) (trace r) (world r).

(** [s->statem.f = v]. *)
Notation "s <| 'st' f := v |>" := (s <| statem := set (proj := f) v (statem s) |>)
  (at level 12, f at next level, v at level 200, left associativity,
   format "s  <| 'st'  f  :=  v |>") : ntls_scope.
