(* ===== verification/NtlsEnv.v ===== *)
(** * NTLS handshake: environment

    The state monad in which the state machines run, and the functions they
    call without defining them: the record layer and its buffers, the key
    schedule, the parsers and constructors of the handshake messages that are
    not modelled, and the callbacks of the application.  [Env] names them;
    [EnvLaws] states what the state machines rely on: which fields of [SSL]
    such a function leaves alone. *)

From S2P Require Import Prelude NtlsTypes.

(** ** State monad *)

Definition M (W A : Type) : Type := SSL W -> A * SSL W.

Definition ret {W A} (a : A) : M W A := fun s => (a, s).
Definition bind {W A B} (m : M W A) (k : A -> M W B) : M W B :=
  fun s => let '(a, s) := m s in k a s.
Definition modify {W} (f : SSL W -> SSL W) : M W unit := fun s => (tt, f s).
Definition get {W A} (f : SSL W -> A) : M W A := fun s => (f s, s).

Notation "'let*' x := m 'in' k" := (bind m (fun x => k))
  (at level 10, x name, m at level 100, k at level 200) : ntls_scope.
Notation "m ;;; k" := (bind m (fun _ => k))
  (at level 100, right associativity) : ntls_scope.

(** ** Names of the functions the state machines call *)

(** Functions returning an [int]. *)
Inductive ext_fn : Set :=
| BUF_MEM_new | BUF_MEM_grow (len : Z) | BUF_MEM_grow_clean (len : Z)
| ssl3_setup_buffers | ssl_init_wbio_buffer | ssl_free_wbio_buffer
| ssl3_init_finished_mac | ssl3_digest_cached_records (keep : Z)
| ssl3_send_alert (level desc : Z)
| BIO_flush | ssl3_do_write_ccs | ssl_do_write
| WPACKET_init | ssl_set_handshake_header (mt : Z)
| ssl_close_construct_packet (mt : Z) | WPACKET_finish
| WPACKET_memcpy (bytes : list Z) | WPACKET_put_bytes_u8 (v : Z)
| ssl_log_secret
| setup_key_block | change_cipher_state (which : Z)
| tls13_change_cipher_state (which : Z) | tls13_update_key
| tls_client_key_exchange_post_work_ntls
| tls_process_initial_server_flight_ntls
| ssl3_check_client_certificate_ntls
| SSL_use_certificate | SSL_use_PrivateKey.

(** Message parsers, post-processing steps and message constructors. *)
Inductive process_fn : Set :=
| tls_process_server_hello_ntls
| tls_process_server_certificate_ntls
| tls_process_cert_status_ntls
| tls_process_key_exchange_ntls
| tls_process_certificate_request_ntls
| tls_process_new_session_ticket_ntls
| tls_process_client_hello_ntls
| tls_process_end_of_early_data_ntls
| tls_process_client_certificate_ntls
| tls_process_client_key_exchange_ntls
| tls_process_cert_verify_ntls
| tls_process_next_proto_ntls.

Inductive work_fn : Set :=
| tls_post_process_server_certificate_ntls
| tls_post_process_client_hello_ntls.

Inductive construct_fn : Set :=
| tls_construct_client_hello_ntls
| tls_construct_end_of_early_data_ntls
| tls_construct_client_certificate_ntls
| tls_construct_client_key_exchange_ntls
| tls_construct_cert_verify_ntls
| tls_construct_next_proto_ntls
| tls_construct_server_hello_ntls
| tls_construct_server_certificate_ntls
| tls_construct_server_key_exchange_ntls
| tls_construct_certificate_request_ntls
| tls_construct_server_done_ntls
| tls_construct_new_session_ticket_ntls
| tls_construct_cert_status_ntls.

Class Env (W : Type) := {
  ext : ext_fn -> M W Z;
  (** [None] is the return value 0; otherwise the message type or the body. *)
  tls_get_message_header_ntls : M W (option Z);
  tls_get_message_body_ntls : M W (option (list Z));
  process : process_fn -> list Z -> M W MSG_PROCESS_RETURN;
  work : work_fn -> WORK_STATE -> M W WORK_STATE;
  construct : construct_fn -> M W bool;
  (** [ssl3_enc->final_finish_mac] with the server ([true]) or client label. *)
  final_finish_mac : bool -> M W (list Z);
  (** [s->cert->cert_cb], when set. *)
  cert_cb : option (M W Z);
  (** Its result, and whether both output pointers are set. *)
  ssl_do_client_cert_cb_ntls : M W (Z * bool);
  SSL_clear : M W bool;
  ssl_security : SSL W -> bool;
  (** [ver_max], when [ssl_get_min_max_version] succeeds. *)
  ssl_get_max_version : SSL W -> option Z;
  SSL_get_ciphers : SSL W -> list SSL_CIPHER;
  session_has_master_key : SSL W -> bool;
  RECORD_LAYER_read_pending : SSL W -> bool;
  RECORD_LAYER_write_pending : SSL W -> bool }.

(** ** Frame conditions *)

(** The fields only the state machines write. *)
Definition core {W} (s : SSL W) :=
  (hand_state (statem s), write_state (statem s), write_state_work (statem s),
   read_state (statem s), read_state_work (statem s), in_handshake (statem s),
   server s, trace s).

(** An NTLS connection: no TLS 1.3 feature is in use. *)
Definition ntls_mode {W} (s : SSL W) : Prop :=
  version s = NTLS_VERSION
  /\ hello_retry_request s = SSL_HRR_NONE
  /\ early_data_state s = SSL_EARLY_DATA_NONE
  /\ post_handshake_auth s = SSL_PHA_NONE.

(** The control state is left alone, but for [SSLfatal_ntls]. *)
Definition frame {W} (s s' : SSL W) : Prop :=
  core s' = core s
  /\ (state (statem s') = state (statem s) \/ state (statem s') = MSG_FLOW_ERROR)
  /\ (ntls_mode s -> ntls_mode s').

(** The negotiated parameters. *)
Definition same_cipher {W} (s s' : SSL W) : Prop :=
  hit s' = hit s /\ tmp_new_cipher s' = tmp_new_cipher s.
Definition same_req {W} (s s' : SSL W) : Prop :=
  (tmp_cert_req s' =? 0) = (tmp_cert_req s =? 0)
  /\ tmp_cert_request s' = tmp_cert_request s.
Definition same_peer {W} (s s' : SSL W) : Prop :=
  session_peer s' = session_peer s
  /\ no_cert_verify (statem s') = no_cert_verify (statem s).

(** Our Finished message. *)
Definition same_fin {W} (s s' : SSL W) : Prop := tmp_finish_md s' = tmp_finish_md s.

(** The negotiated parameters are left alone too. *)
Definition calm {W} (s s' : SSL W) : Prop :=
  frame s s' /\ same_cipher s s' /\ same_req s s' /\ same_peer s s'.

Definition quiet {W} (s s' : SSL W) : Prop := calm s s' /\ same_fin s s'.

(** Which parser negotiates what. *)
Definition sets_cipher (f : process_fn) : bool :=
  match f with
  | tls_process_server_hello_ntls | tls_process_client_hello_ntls => true
  | _ => false
  end.
Definition sets_req (f : process_fn) : bool :=
  match f with tls_process_certificate_request_ntls => true | _ => false end.
Definition sets_peer (f : process_fn) : bool :=
  match f with
  | tls_process_server_hello_ntls | tls_process_client_hello_ntls
  | tls_process_client_certificate_ntls => true
  | _ => false
  end.

Class EnvLaws (W : Type) {E : Env W} := {
  ext_quiet f (s : SSL W) : quiet s (ext f s).2;
  header_quiet (s : SSL W) : quiet s (tls_get_message_header_ntls s).2;
  body_quiet (s : SSL W) : quiet s (tls_get_message_body_ntls s).2;
  construct_frame f (s : SSL W) : frame s (construct f s).2;
  construct_cipher f (s : SSL W) : ntls_mode s -> same_cipher s (construct f s).2;
  construct_peer f (s : SSL W) : ntls_mode s -> same_peer s (construct f s).2;
  construct_req f (s : SSL W) :
    f <> tls_construct_certificate_request_ntls -> same_req s (construct f s).2;
  construct_cert_request (s : SSL W) :
    (construct tls_construct_certificate_request_ntls s).1 = true ->
    tmp_cert_request (construct tls_construct_certificate_request_ntls s).2 = true;
  finish_mac_quiet b (s : SSL W) : quiet s (final_finish_mac b s).2;
  cert_cb_quiet cb (s : SSL W) : cert_cb = Some cb -> quiet s (cb s).2;
  client_cert_cb_quiet (s : SSL W) : quiet s (ssl_do_client_cert_cb_ntls s).2;
  process_frame f p (s : SSL W) : frame s (process f p s).2;
  process_cipher f p (s : SSL W) :
    sets_cipher f = false -> same_cipher s (process f p s).2;
  process_req f p (s : SSL W) : sets_req f = false -> same_req s (process f p s).2;
  process_peer f p (s : SSL W) : sets_peer f = false -> same_peer s (process f p s).2;
  process_cert_req p (s : SSL W) :
    (process tls_process_certificate_request_ntls p s).1 <> MSG_PROCESS_ERROR ->
    tmp_cert_req (process tls_process_certificate_request_ntls p s).2 <> 0;
  (** A HelloRetryRequest needs TLS 1.3, so the ServerHello is not the end of
      the server's flight. *)
  server_hello_continues p (s : SSL W) :
    ntls_mode s ->
    (process tls_process_server_hello_ntls p s).1 <> MSG_PROCESS_FINISHED_READING;
  work_frame f wst (s : SSL W) : frame s (work f wst s).2;
  work_server_certificate wst (s : SSL W) :
    same_cipher s (work tls_post_process_server_certificate_ntls wst s).2
    /\ same_req s (work tls_post_process_server_certificate_ntls wst s).2;
  work_client_hello wst (s : SSL W) :
    same_req s (work tls_post_process_client_hello_ntls wst s).2;
  process_fin f p (s : SSL W) : same_fin s (process f p s).2;
  work_fin f wst (s : SSL W) : same_fin s (work f wst s).2;
  clear_core (s : SSL W) :
    in_handshake (statem (SSL_clear s).2) = in_handshake (statem s)
    /\ trace (SSL_clear s).2 = trace s;
  clear_ok (s : SSL W) :
    (SSL_clear s).1 = true ->
    let s' := (SSL_clear s).2 in
    state (statem s') = MSG_FLOW_UNINITED
    /\ hand_state (statem s') = TLS_ST_BEFORE
    /\ in_init (statem s') = true
    /\ tmp_finish_md s' = [] /\ tmp_cert_request s' = false /\ tmp_cert_req s' = 0
    /\ (ntls_mode s -> ntls_mode s') }.

(** [quiet] and [frame] are preorders, so that they compose along a handler. *)
#[export] Instance frame_preorder {W} : PreOrder (@frame W).
Proof.
  split.
  - intros s. split_and!; auto.
  - intros s s' s'' (Hc & Hs & Hm) (Hc' & Hs' & Hm'). split_and!; [congruence | | auto].
    destruct Hs, Hs'; (left; congruence) || (right; congruence).
Qed.

#[export] Instance calm_preorder {W} : PreOrder (@calm W).
Proof.
  split.
  - intros s. split; [reflexivity | repeat split].
  - intros s s' s'' (F & [C1 C2] & [R1 R2] & [P1 P2]) (F' & [C1' C2'] & [R1' R2'] & [P1' P2']).
    split; [etrans; eassumption |]. unfold same_cipher, same_req, same_peer in *.
    repeat split; congruence.
Qed.

#[export] Instance same_fin_preorder {W} : PreOrder (@same_fin W).
Proof. split; [intros s; reflexivity | intros s s' s''; unfold same_fin; congruence]. Qed.

#[export] Instance quiet_preorder {W} : PreOrder (@quiet W).
Proof.
  split.
  - intros s. split; reflexivity.
  - intros s s' s'' [C F] [C' F']. split; etrans; eassumption.
Qed.

Lemma quiet_frame {W} (s s' : SSL W) : quiet s s' -> frame s s'.
Proof. intros [[H _] _]. exact H. Qed.

(** A computation is [quiet] (or [frame]) when all its runs are. *)
Definition always {W A} (R : SSL W -> SSL W -> Prop) (m : M W A) : Prop :=
  forall s, R s (m s).2.

Section Always.
Context {W : Type} (R : SSL W -> SSL W -> Prop) `{!PreOrder R}.

Lemma always_ret {A} (a : A) : always R (ret a).
Proof. intros s. reflexivity. Qed.

Lemma always_bind {A B} (m : M W A) (k : A -> M W B) :
  always R m -> (forall a, always R (k a)) -> always R (bind m k).
Proof.
  intros Hm Hk s. unfold bind. specialize (Hm s). destruct (m s) as [a s1].
  cbn in Hm. etrans; [exact Hm | apply Hk].
Qed.

Lemma always_get {A} (f : SSL W -> A) : always R (get f).
Proof. intros s. reflexivity. Qed.

Lemma always_if {A} (b : bool) (m m' : M W A) :
  always R m -> always R m' -> always R (if b then m else m').
Proof. destruct b; auto. Qed.

End Always.
