(* ===== verification/NtlsLib.v ===== *)
(** * NTLS handshake: functions shared by client and server

    The error transitions of [ntls_statem.c] and the handlers of
    [ntls_statem_lib.c], [ntls_statem_clnt.c] and [ntls_statem_srvr.c] that
    decide how the state machines go on: setting a handshake up, finishing it,
    ChangeCipherSpec and Finished, HelloRequest and ServerHelloDone, the
    preparation of a client certificate.  Messages on the error queue, the
    information callbacks and the diagnostic prints are not modelled. *)

From S2P Require Import Prelude NtlsTypes NtlsEnv.

Section Lib.
Context {W : Type} {E : Env W}.
Implicit Types s : SSL W.

(** The int result of a call, as a C condition. *)
Definition call (f : ext_fn) : M W bool :=
  let* r := ext f in ret (negb (r =? 0)).

(** [SSL_in_init_ntls], [SSL_is_init_finished_ntls], [SSL_in_before_ntls] and
    [SSL_get_state_ntls]. *)
Definition SSL_get_state_ntls (s : SSL W) : OSSL_HANDSHAKE_STATE := hand_state (statem s).
Definition SSL_in_init_ntls (s : SSL W) : bool := in_init (statem s).
Definition SSL_is_init_finished_ntls (s : SSL W) : bool :=
  negb (in_init (statem s)) && bool_decide (hand_state (statem s) = TLS_ST_OK).
Definition SSL_in_before_ntls (s : SSL W) : bool :=
  bool_decide (hand_state (statem s) = TLS_ST_BEFORE)
  && bool_decide (state (statem s) = MSG_FLOW_UNINITED).

Definition ossl_statem_clear_ntls (s : SSL W) : SSL W :=
  s <|st state := MSG_FLOW_UNINITED|> <|st hand_state := TLS_ST_BEFORE|>
    <|st in_init := true|> <|st no_cert_verify := false|>.

Definition ossl_statem_set_renegotiate_ntls (s : SSL W) : SSL W :=
  s <|st in_init := true|> <|st request_state := TLS_ST_SW_HELLO_REQ|>.

(** ** Fatal errors *)

Definition ossl_statem_send_fatal_ntls (al : Z) : M W unit := fun s =>
  if in_init (statem s) && bool_decide (state (statem s) = MSG_FLOW_ERROR) then (tt, s)
  else
    let s := s <|st in_init := true|> <|st state := MSG_FLOW_ERROR|> in
    if negb (al =? SSL_AD_NO_ALERT)
       && bool_decide (enc_write_state (statem s) <> ENC_WRITE_STATE_INVALID)
    then (let* _ := ext (ssl3_send_alert SSL3_AL_FATAL al) in ret tt) s
    else (tt, s).

(** [SSLfatal_ntls]: [ossl_statem_fatal_ntls] without the error queue. *)
Definition SSLfatal_ntls (al : Z) : M W unit := ossl_statem_send_fatal_ntls al.

Definition check_fatal : M W unit := fun s =>
  if in_init (statem s) && bool_decide (state (statem s) = MSG_FLOW_ERROR) then (tt, s)
  else SSLfatal_ntls SSL_AD_INTERNAL_ERROR s.

Definition ossl_statem_in_error_ntls (s : SSL W) : bool :=
  bool_decide (state (statem s) = MSG_FLOW_ERROR).

(** Fail with an alert and a result. *)
Definition fail {A} (al : Z) (a : A) : M W A := SSLfatal_ntls al ;;; ret a.

(** ** Flushing, set-up and end of a handshake *)

Definition statem_flush_ntls : M W bool :=
  modify (fun s => s <|rwstate := SSL_WRITING|>) ;;;
  let* r := ext BIO_flush in
  if r <=? 0 then ret false
  else (modify (fun s => s <|rwstate := SSL_NOTHING|>) ;;; ret true).

Definition SSL_IS_FIRST_HANDSHAKE (s : SSL W) : bool :=
  (length (tmp_finish_md s) =? 0)%nat || (length (tmp_peer_finish_md s) =? 0)%nat.

Definition tls_setup_handshake_ntls : M W bool :=
  let* ok := call ssl3_init_finished_mac in
  if negb ok then ret false
  else fun s =>
    match ssl_get_max_version s with
    | None => fail SSL_AD_PROTOCOL_VERSION false s
    | Some ver_max =>
        if server s then
          if existsb (fun c => (min_tls c <=? ver_max) && (ver_max <=? max_tls c))
               (SSL_get_ciphers s)
          then (true, if SSL_IS_FIRST_HANDSHAKE s then s
                      else s <|tmp_cert_request := false|>)
          else fail SSL_AD_HANDSHAKE_FAILURE false s
        else (true, s <|hit := false|> <|tmp_cert_req := 0|>)
    end.

Definition tls_finish_handshake_ntls (clearbufs stop : bool) : M W WORK_STATE := fun s =>
  let hand := cleanuphand (statem s) in
  (let* ok := (if clearbufs then
                 modify (fun s => s <|init_buf := false|>) ;;;
                 let* ok := call ssl_free_wbio_buffer in
                 if ok then modify (fun s => s <|init_num := 0|>) ;;; ret true
                 else fail SSL_AD_INTERNAL_ERROR false
               else ret true) in
   if negb ok then ret WORK_ERROR
   else
     (if hand then modify (fun s => s <|renegotiate := false|> <|new_session := false|>
                                      <|st cleanuphand := false|>
                                      <|ext_ticket_expected := false|>
                                      <|s3_key_block := false|>)
      else ret tt) ;;;
     modify (fun s => s <|st in_init := false|>) ;;;
     if stop then ret WORK_FINISHED_STOP
     else modify (fun s => s <|st in_init := true|>) ;;; ret WORK_FINISHED_CONTINUE) s.

(** [ssl3_renegotiate_check] with [initok = 1] ([ssl/s3_lib.c]). *)
Definition ssl3_renegotiate_check : M W bool := fun s =>
  if s3_renegotiate s then
    if negb (RECORD_LAYER_read_pending s) && negb (RECORD_LAYER_write_pending s)
    then (true, ossl_statem_set_renegotiate_ntls s
                  <|s3_renegotiate := false|>
                  <|s3_num_renegotiations := s3_num_renegotiations s + 1|>
                  <|s3_total_renegotiations := s3_total_renegotiations s + 1|>)
    else (false, s)
  else (false, s).

(** [SSL_renegotiate_abbreviated] ([ssl/ssl_lib.c]) inside a handshake. *)
Definition SSL_renegotiate_abbreviated (s : SSL W) : SSL W :=
  if (TLS1_3_VERSION <=? version s) && negb (version s =? 0x10000) then s
  else if flag (options s) SSL_OP_NO_RENEGOTIATION then s
  else s <|renegotiate := true|> <|new_session := false|> <|s3_renegotiate := true|>.

(** ** ChangeCipherSpec and Finished *)

(** [ssl3_do_change_cipher_spec] ([ssl/s3_msg.c]). *)
Definition ssl3_do_change_cipher_spec : M W bool := fun s =>
  let i := if server s then SSL3_CHANGE_CIPHER_SERVER_READ
           else SSL3_CHANGE_CIPHER_CLIENT_READ in
  (let* ok := (if s3_key_block s then ret true
               else if negb (session_has_master_key s) then ret false
               else modify (fun s => s <|session_cipher := tmp_new_cipher s|>) ;;;
                    call setup_key_block) in
   if negb ok then ret false else call (change_cipher_state i)) s.

Definition tls_process_change_cipher_spec_ntls (pkt : list Z) : M W MSG_PROCESS_RETURN :=
  fun s =>
    match pkt with
    | _ :: _ => fail SSL_AD_DECODE_ERROR MSG_PROCESS_ERROR s
    | [] =>
        match tmp_new_cipher s with
        | None => fail SSL_AD_UNEXPECTED_MESSAGE MSG_PROCESS_ERROR s
        | Some _ =>
            (modify (fun s => s <|s3_change_cipher_spec := true|>) ;;;
             let* ok := ssl3_do_change_cipher_spec in
             if negb ok then fail SSL_AD_INTERNAL_ERROR MSG_PROCESS_ERROR
             else ret MSG_PROCESS_CONTINUE_READING) s
        end
    end.

Definition tls_construct_change_cipher_spec_ntls : M W bool :=
  let* ok := call (WPACKET_put_bytes_u8 1) in
  if ok then ret true else fail SSL_AD_INTERNAL_ERROR false.

Definition zlen (l : list Z) : Z := Z.of_nat (length l).

(** [ssl3_take_mac_ntls]; the MAC of length 0 is the error. *)
Definition ssl3_take_mac_ntls : M W bool := fun s =>
  (let* md := final_finish_mac (negb (server s)) in
   modify (fun s => s <|tmp_peer_finish_md := md|>) ;;;
   ret (negb (zlen md =? 0))) s.

Definition tls_process_finished_ntls (pkt : list Z) : M W MSG_PROCESS_RETURN :=
  modify (fun s =>
    if server s then
      let s := s <|st enc_read_state := ENC_READ_STATE_VALID|> in
      if bool_decide (post_handshake_auth s <> SSL_PHA_REQUESTED)
      then s <|st cleanuphand := true|> else s
    else s) ;;;
  fun s =>
    if negb (s3_change_cipher_spec s) then fail SSL_AD_UNEXPECTED_MESSAGE MSG_PROCESS_ERROR s
    else
      let s := s <|s3_change_cipher_spec := false|> in
      let md := tmp_peer_finish_md s in
      if negb (zlen md =? zlen pkt) then fail SSL_AD_DECODE_ERROR MSG_PROCESS_ERROR s
      else if bool_decide (pkt <> md) then fail SSL_AD_DECRYPT_ERROR MSG_PROCESS_ERROR s
      else if EVP_MAX_MD_SIZE <? zlen md then fail SSL_AD_INTERNAL_ERROR MSG_PROCESS_ERROR s
      else (MSG_PROCESS_FINISHED_READING,
            if server s then s <|s3_previous_client_finished := md|>
            else s <|s3_previous_server_finished := md|>).

Definition tls_construct_finished_ntls : M W bool :=
  modify (fun s =>
    if negb (server s) && bool_decide (post_handshake_auth s <> SSL_PHA_REQUESTED)
    then s <|st cleanuphand := true|> else s) ;;;
  fun s =>
  (let* md := final_finish_mac (server s) in
   if zlen md =? 0 then ret false
   else
     modify (fun s => s <|tmp_finish_md := md|>) ;;;
     let* ok := call (WPACKET_memcpy md) in
     if negb ok then fail SSL_AD_INTERNAL_ERROR false
     else
       let* ok := call ssl_log_secret in
       if negb ok then ret false
       else if EVP_MAX_MD_SIZE <? zlen md then fail SSL_AD_INTERNAL_ERROR false
       else modify (fun s => if negb (server s) then s <|s3_previous_client_finished := md|>
                             else s <|s3_previous_server_finished := md|>) ;;;
            ret true) s.

(** ** Other handlers *)

Definition tls_process_server_done_ntls (pkt : list Z) : M W MSG_PROCESS_RETURN :=
  match pkt with
  | _ :: _ => fail SSL_AD_DECODE_ERROR MSG_PROCESS_ERROR
  | [] =>
      let* ok := call tls_process_initial_server_flight_ntls in
      if negb ok then ret MSG_PROCESS_ERROR else ret MSG_PROCESS_FINISHED_READING
  end.

Definition tls_process_hello_req_ntls (pkt : list Z) : M W MSG_PROCESS_RETURN := fun s =>
  match pkt with
  | _ :: _ => fail SSL_AD_DECODE_ERROR MSG_PROCESS_ERROR s
  | [] =>
      if flag (options s) SSL_OP_NO_RENEGOTIATION then
        (let* _ := ext (ssl3_send_alert SSL3_AL_WARNING SSL_AD_NO_RENEGOTIATION) in
         ret MSG_PROCESS_FINISHED_READING) s
      else (MSG_PROCESS_FINISHED_READING, SSL_renegotiate_abbreviated s)
  end.

Definition tls_post_process_client_key_exchange_ntls : M W WORK_STATE := fun s =>
  if no_cert_verify (statem s) || negb (session_peer s) then
    (let* ok := call (ssl3_digest_cached_records 0) in
     if negb ok then ret WORK_ERROR else ret WORK_FINISHED_CONTINUE) s
  else if negb (s3_handshake_buffer s) then fail SSL_AD_INTERNAL_ERROR WORK_ERROR s
  else
    (let* ok := call (ssl3_digest_cached_records 1) in
     if negb ok then ret WORK_ERROR else ret WORK_FINISHED_CONTINUE) s.

(** The end of both phases: a post-handshake request stops here. *)
Definition prepare_done : M W WORK_STATE := fun s =>
  (if bool_decide (post_handshake_auth s = SSL_PHA_REQUESTED)
   then WORK_FINISHED_STOP else WORK_FINISHED_CONTINUE, s).

(** Phase B of [tls_prepare_client_certificate_ntls]. *)
Definition prepare_more_b : M W WORK_STATE :=
  let* r := ssl_do_client_cert_cb_ntls in
  let (i, both) := r : Z * bool in
  if i <? 0 then modify (fun s => s <|rwstate := SSL_X509_LOOKUP|>) ;;; ret WORK_MORE_B
  else
    modify (fun s => s <|rwstate := SSL_NOTHING|>) ;;;
    let* i := (if (i =? 1) && both then
                 let* ok := call SSL_use_certificate in
                 if negb ok then ret 0
                 else let* ok := call SSL_use_PrivateKey in ret (if ok then i else 0)
               else ret (if i =? 1 then 0 else i)) in
    let* i := (if i =? 0 then ret 0
               else let* ok := call ssl3_check_client_certificate_ntls in
                    ret (if ok then i else 0)) in
    if i =? 0 then
      modify (fun s => s <|tmp_cert_req := 2|>) ;;;
      let* ok := call (ssl3_digest_cached_records 0) in
      if negb ok then ret WORK_ERROR else prepare_done
    else prepare_done.

Definition tls_prepare_client_certificate_ntls (wst : WORK_STATE) : M W WORK_STATE :=
  match wst with
  | WORK_MORE_A =>
      let* i := (match cert_cb with
                 | None => ret 1
                 | Some cb => let* i := cb in
                     if i <? 0 then modify (fun s => s <|rwstate := SSL_X509_LOOKUP|>) ;;; ret i
                     else if i =? 0 then fail SSL_AD_INTERNAL_ERROR 0
                     else modify (fun s => s <|rwstate := SSL_NOTHING|>) ;;; ret i
                 end) in
      if i <? 0 then ret WORK_MORE_A
      else if i =? 0 then ret WORK_ERROR
      else
        let* ok := call ssl3_check_client_certificate_ntls in
        if ok then prepare_done else prepare_more_b
  | WORK_MORE_B => prepare_more_b
  | _ => fail SSL_AD_INTERNAL_ERROR WORK_ERROR
  end.

End Lib.
