(* ===== verification/NtlsClient.v ===== *)
(** * NTLS handshake: the client

    [ntls_statem_clnt.c]: the handshake state transitions of the client when
    it reads and when it writes, the work before and after each message, the
    message constructors and parsers of each state and the limits on message
    sizes. *)

From S2P Require Import Prelude NtlsTypes NtlsEnv NtlsLib.

(** The constructors the state machines choose from; [None] is [NULL]. *)
Inductive confunc : Set :=
| Construct (f : construct_fn)
| ConstructCCS
| ConstructFinished.

Section Client.
Context {W : Type} {E : Env W}.
Implicit Types s : SSL W.

(** [s->s3.tmp.new_cipher->algorithm_auth] and [->algorithm_mkey]; the cipher
    is set before the states that read them. *)
Definition cipher_auth (s : SSL W) : Z :=
  match tmp_new_cipher s with Some c => algorithm_auth c | None => 0 end.
Definition cipher_mkey (s : SSL W) : Z :=
  match tmp_new_cipher s with Some c => algorithm_mkey c | None => 0 end.

Definition cert_req_allowed (s : SSL W) : bool :=
  negb (((SSL3_VERSION <? version s) && flag (cipher_auth s) SSL_aNULL)
        || flag (cipher_auth s) (Z.lor SSL_aSRP SSL_aPSK)).

Definition key_exchange_expected (s : SSL W) : bool := true.

(** No certificate: anonymous, SRP or PSK authentication. *)
Definition no_auth (s : SSL W) : bool :=
  flag (cipher_auth s) (Z.lor SSL_aNULL (Z.lor SSL_aSRP SSL_aPSK)).

(** [st->hand_state = h; return 1;] and the [err] label. *)
Definition move_to (h : OSSL_HANDSHAKE_STATE) : M W bool := fun s =>
  (true, s <|st hand_state := h|>).
Definition unexpected_message : M W bool := fail SSL_AD_UNEXPECTED_MESSAGE false.

(** The cases [TLS_ST_CR_CERT_REQ], [TLS_ST_CR_KEY_EXCH] and
    [TLS_ST_CR_CERT_STATUS], each falling through to the one before. *)
Definition read_after_cert_req (mt : Z) : M W bool :=
  if mt =? SSL3_MT_SERVER_DONE then move_to TLS_ST_CR_SRVR_DONE else unexpected_message.

Definition read_after_key_exch (mt : Z) : M W bool := fun s =>
  if mt =? SSL3_MT_CERTIFICATE_REQUEST then
    if cert_req_allowed s then move_to TLS_ST_CR_CERT_REQ s else unexpected_message s
  else read_after_cert_req mt s.

Definition read_after_cert_status (mt : Z) : M W bool := fun s =>
  if key_exchange_expected s
     || (flag (cipher_mkey s) SSL_PSK && (mt =? SSL3_MT_SERVER_KEY_EXCHANGE)) then
    if mt =? SSL3_MT_SERVER_KEY_EXCHANGE then move_to TLS_ST_CR_KEY_EXCH s
    else unexpected_message s
  else read_after_key_exch mt s.

Definition ossl_statem_client_read_transition_ntls (mt : Z) : M W bool := fun s =>
  match hand_state (statem s) with
  | TLS_ST_CW_CLNT_HELLO
  | TLS_ST_EARLY_DATA =>
      if mt =? SSL3_MT_SERVER_HELLO then move_to TLS_ST_CR_SRVR_HELLO s
      else unexpected_message s
  | TLS_ST_CR_SRVR_HELLO =>
      if hit s then
        if ext_ticket_expected s then
          if mt =? SSL3_MT_NEWSESSION_TICKET then move_to TLS_ST_CR_SESSION_TICKET s
          else unexpected_message s
        else if mt =? SSL3_MT_CHANGE_CIPHER_SPEC then move_to TLS_ST_CR_CHANGE s
        else unexpected_message s
      else if (NTLS_VERSION <=? version s) && ext_session_secret_cb s && session_tick s
              && (mt =? SSL3_MT_CHANGE_CIPHER_SPEC) then
        move_to TLS_ST_CR_CHANGE (s <|hit := true|>)
      else if negb (no_auth s) then
        if mt =? SSL3_MT_CERTIFICATE then move_to TLS_ST_CR_CERT s else unexpected_message s
      else if key_exchange_expected s
              || (flag (cipher_mkey s) SSL_PSK && (mt =? SSL3_MT_SERVER_KEY_EXCHANGE)) then
        if mt =? SSL3_MT_SERVER_KEY_EXCHANGE then move_to TLS_ST_CR_KEY_EXCH s
        else unexpected_message s
      else if (mt =? SSL3_MT_CERTIFICATE_REQUEST) && cert_req_allowed s then
        move_to TLS_ST_CR_CERT_REQ s
      else if mt =? SSL3_MT_SERVER_DONE then move_to TLS_ST_CR_SRVR_DONE s
      else unexpected_message s
  | TLS_ST_CR_CERT =>
      if ext_status_expected s && (mt =? SSL3_MT_CERTIFICATE_STATUS) then
        move_to TLS_ST_CR_CERT_STATUS s
      else read_after_cert_status mt s
  | TLS_ST_CR_CERT_STATUS => read_after_cert_status mt s
  | TLS_ST_CR_KEY_EXCH => read_after_key_exch mt s
  | TLS_ST_CR_CERT_REQ => read_after_cert_req mt s
  | TLS_ST_CW_FINISHED =>
      if ext_ticket_expected s then
        if mt =? SSL3_MT_NEWSESSION_TICKET then move_to TLS_ST_CR_SESSION_TICKET s
        else unexpected_message s
      else if mt =? SSL3_MT_CHANGE_CIPHER_SPEC then move_to TLS_ST_CR_CHANGE s
      else unexpected_message s
  | TLS_ST_CR_SESSION_TICKET =>
      if mt =? SSL3_MT_CHANGE_CIPHER_SPEC then move_to TLS_ST_CR_CHANGE s
      else unexpected_message s
  | TLS_ST_CR_CHANGE =>
      if mt =? SSL3_MT_FINISHED then move_to TLS_ST_CR_FINISHED s else unexpected_message s
  | TLS_ST_OK =>
      if mt =? SSL3_MT_HELLO_REQUEST then move_to TLS_ST_CR_HELLO_REQ s
      else unexpected_message s
  | _ => unexpected_message s
  end.

(** [st->hand_state = h; return WRITE_TRAN_CONTINUE;] *)
Definition write_to (h : OSSL_HANDSHAKE_STATE) : M W WRITE_TRAN := fun s =>
  (WRITE_TRAN_CONTINUE, s <|st hand_state := h|>).

Definition ossl_statem_client_write_transition_ntls : M W WRITE_TRAN := fun s =>
  match hand_state (statem s) with
  | TLS_ST_OK =>
      if negb (renegotiate s) then (WRITE_TRAN_FINISHED, s)
      else write_to TLS_ST_CW_CLNT_HELLO s
  | TLS_ST_BEFORE => write_to TLS_ST_CW_CLNT_HELLO s
  | TLS_ST_CW_CLNT_HELLO =>
      if bool_decide (early_data_state s = SSL_EARLY_DATA_CONNECTING) then
        if flag (options s) SSL_OP_ENABLE_MIDDLEBOX_COMPAT then write_to TLS_ST_CW_CHANGE s
        else write_to TLS_ST_EARLY_DATA s
      else (WRITE_TRAN_FINISHED, s)
  | TLS_ST_CR_SRVR_HELLO =>
      if flag (options s) SSL_OP_ENABLE_MIDDLEBOX_COMPAT
         && bool_decide (early_data_state s <> SSL_EARLY_DATA_FINISHED_WRITING)
      then write_to TLS_ST_CW_CHANGE s
      else write_to TLS_ST_CW_CLNT_HELLO s
  | TLS_ST_EARLY_DATA => (WRITE_TRAN_FINISHED, s)
  | TLS_ST_CR_SRVR_DONE =>
      if negb (tmp_cert_req s =? 0) then write_to TLS_ST_CW_CERT s
      else write_to TLS_ST_CW_KEY_EXCH s
  | TLS_ST_CW_CERT => write_to TLS_ST_CW_KEY_EXCH s
  | TLS_ST_CW_KEY_EXCH =>
      if flag (s3_flags s) TLS1_FLAGS_SKIP_CERT_VERIFY then write_to TLS_ST_CW_CHANGE s
      else if tmp_cert_req s =? 1 then write_to TLS_ST_CW_CERT_VRFY s
      else write_to TLS_ST_CW_CHANGE s
  | TLS_ST_CW_CERT_VRFY => write_to TLS_ST_CW_CHANGE s
  | TLS_ST_CW_CHANGE =>
      if bool_decide (hello_retry_request s = SSL_HRR_PENDING) then
        write_to TLS_ST_CW_CLNT_HELLO s
      else if bool_decide (early_data_state s = SSL_EARLY_DATA_CONNECTING) then
        write_to TLS_ST_EARLY_DATA s
      else if s3_npn_seen s then write_to TLS_ST_CW_NEXT_PROTO s
      else write_to TLS_ST_CW_FINISHED s
  | TLS_ST_CW_NEXT_PROTO => write_to TLS_ST_CW_FINISHED s
  | TLS_ST_CW_FINISHED =>
      if hit s then write_to TLS_ST_OK s else (WRITE_TRAN_FINISHED, s)
  | TLS_ST_CR_FINISHED =>
      if hit s then write_to TLS_ST_CW_CHANGE s else write_to TLS_ST_OK s
  | TLS_ST_CR_HELLO_REQ =>
      (let* reneg := ssl3_renegotiate_check in
       if reneg then
         let* ok := tls_setup_handshake_ntls in
         if negb ok then ret WRITE_TRAN_ERROR else write_to TLS_ST_CW_CLNT_HELLO
       else write_to TLS_ST_OK) s
  | _ => fail SSL_AD_INTERNAL_ERROR WRITE_TRAN_ERROR s
  end.

Definition ossl_statem_client_pre_work_ntls (wst : WORK_STATE) : M W WORK_STATE := fun s =>
  match hand_state (statem s) with
  | TLS_ST_CW_CLNT_HELLO => (WORK_FINISHED_CONTINUE, s <|shutdown := 0|>)
  | TLS_ST_PENDING_EARLY_DATA_END =>
      if bool_decide (early_data_state s = SSL_EARLY_DATA_FINISHED_WRITING)
         || bool_decide (early_data_state s = SSL_EARLY_DATA_NONE)
      then (WORK_FINISHED_CONTINUE, s)
      else tls_finish_handshake_ntls false true s
  | TLS_ST_EARLY_DATA => tls_finish_handshake_ntls false true s
  | TLS_ST_OK => tls_finish_handshake_ntls true true s
  | _ => (WORK_FINISHED_CONTINUE, s)
  end.

(** [if (!f) return WORK_ERROR;] before the rest. *)
Definition or_error (m : M W bool) (k : M W WORK_STATE) : M W WORK_STATE :=
  let* ok := m in if negb ok then ret WORK_ERROR else k.
Definition or_more (more : WORK_STATE) (m : M W bool) (k : M W WORK_STATE) : M W WORK_STATE :=
  let* ok := m in if negb ok then ret more else k.
Definition continue : M W WORK_STATE := ret WORK_FINISHED_CONTINUE.

Definition ossl_statem_client_post_work_ntls (wst : WORK_STATE) : M W WORK_STATE :=
  modify (fun s => s <|init_num := 0|>) ;;;
  fun s =>
  match hand_state (statem s) with
  | TLS_ST_CW_CLNT_HELLO =>
      if bool_decide (early_data_state s = SSL_EARLY_DATA_CONNECTING)
         && (0 <? max_early_data s) then
        if negb (flag (options s) SSL_OP_ENABLE_MIDDLEBOX_COMPAT) then
          or_error (call (tls13_change_cipher_state
                            (Z.lor SSL3_CC_EARLY SSL3_CHANGE_CIPHER_CLIENT_WRITE)))
            continue s
        else continue s
      else or_more WORK_MORE_A statem_flush_ntls continue s
  | TLS_ST_CW_KEY_EXCH => or_error (call tls_client_key_exchange_post_work_ntls) continue s
  | TLS_ST_CW_CHANGE =>
      if bool_decide (hello_retry_request s = SSL_HRR_PENDING) then continue s
      else if bool_decide (early_data_state s = SSL_EARLY_DATA_CONNECTING)
              && (0 <? max_early_data s) then
        or_error (call (tls13_change_cipher_state
                          (Z.lor SSL3_CC_EARLY SSL3_CHANGE_CIPHER_CLIENT_WRITE)))
          continue s
      else
        or_error (call setup_key_block)
          (or_error (call (change_cipher_state SSL3_CHANGE_CIPHER_CLIENT_WRITE)) continue)
          (s <|session_cipher := tmp_new_cipher s|>)
  | TLS_ST_CW_FINISHED => or_more WORK_MORE_B statem_flush_ntls continue s
  | TLS_ST_CW_KEY_UPDATE =>
      or_more WORK_MORE_A statem_flush_ntls
        (or_error (call tls13_update_key) continue) s
  | _ => continue s
  end.

(** [None]: no function for the state; otherwise the constructor and the
    message type. *)
Definition ossl_statem_client_construct_message_ntls (s : SSL W) : option (option confunc * Z) :=
  match hand_state (statem s) with
  | TLS_ST_CW_CHANGE => Some (Some ConstructCCS, SSL3_MT_CHANGE_CIPHER_SPEC)
  | TLS_ST_CW_CLNT_HELLO =>
      Some (Some (Construct tls_construct_client_hello_ntls), SSL3_MT_CLIENT_HELLO)
  | TLS_ST_CW_END_OF_EARLY_DATA =>
      Some (Some (Construct tls_construct_end_of_early_data_ntls), SSL3_MT_END_OF_EARLY_DATA)
  | TLS_ST_PENDING_EARLY_DATA_END => Some (None, SSL3_MT_DUMMY)
  | TLS_ST_CW_CERT =>
      Some (Some (Construct tls_construct_client_certificate_ntls), SSL3_MT_CERTIFICATE)
  | TLS_ST_CW_KEY_EXCH =>
      Some (Some (Construct tls_construct_client_key_exchange_ntls),
            SSL3_MT_CLIENT_KEY_EXCHANGE)
  | TLS_ST_CW_CERT_VRFY =>
      Some (Some (Construct tls_construct_cert_verify_ntls), SSL3_MT_CERTIFICATE_VERIFY)
  | TLS_ST_CW_NEXT_PROTO =>
      Some (Some (Construct tls_construct_next_proto_ntls), SSL3_MT_NEXT_PROTO)
  | TLS_ST_CW_FINISHED => Some (Some ConstructFinished, SSL3_MT_FINISHED)
  | _ => None
  end.

Definition ossl_statem_client_max_message_size_ntls (s : SSL W) : Z :=
  match hand_state (statem s) with
  | TLS_ST_CR_SRVR_HELLO => SERVER_HELLO_MAX_LENGTH
  | TLS_ST_CR_CERT => max_cert_list s
  | TLS_ST_CR_CERT_STATUS => SSL3_RT_MAX_PLAIN_LENGTH
  | TLS_ST_CR_KEY_EXCH => SERVER_KEY_EXCH_MAX_LENGTH
  | TLS_ST_CR_CERT_REQ => max_cert_list s
  | TLS_ST_CR_SRVR_DONE => SERVER_HELLO_DONE_MAX_LENGTH
  | TLS_ST_CR_CHANGE => CCS_MAX_LENGTH
  | TLS_ST_CR_SESSION_TICKET => SESSION_TICKET_MAX_LENGTH_TLS12
  | TLS_ST_CR_FINISHED => FINISHED_MAX_LENGTH
  | TLS_ST_CR_ENCRYPTED_EXTENSIONS => ENCRYPTED_EXTENSIONS_MAX_LENGTH
  | TLS_ST_CR_KEY_UPDATE => KEY_UPDATE_MAX_LENGTH
  | _ => 0
  end.

Definition ossl_statem_client_process_message_ntls (pkt : list Z) : M W MSG_PROCESS_RETURN :=
  fun s =>
  match hand_state (statem s) with
  | TLS_ST_CR_SRVR_HELLO => process tls_process_server_hello_ntls pkt s
  | TLS_ST_CR_CERT => process tls_process_server_certificate_ntls pkt s
  | TLS_ST_CR_CERT_STATUS => process tls_process_cert_status_ntls pkt s
  | TLS_ST_CR_KEY_EXCH => process tls_process_key_exchange_ntls pkt s
  | TLS_ST_CR_CERT_REQ => process tls_process_certificate_request_ntls pkt s
  | TLS_ST_CR_SRVR_DONE => tls_process_server_done_ntls pkt s
  | TLS_ST_CR_CHANGE => tls_process_change_cipher_spec_ntls pkt s
  | TLS_ST_CR_SESSION_TICKET => process tls_process_new_session_ticket_ntls pkt s
  | TLS_ST_CR_FINISHED => tls_process_finished_ntls pkt s
  | TLS_ST_CR_HELLO_REQ => tls_process_hello_req_ntls pkt s
  | _ => fail SSL_AD_INTERNAL_ERROR MSG_PROCESS_ERROR s
  end.

Definition ossl_statem_client_post_process_message_ntls (wst : WORK_STATE) : M W WORK_STATE :=
  fun s =>
  match hand_state (statem s) with
  | TLS_ST_CR_CERT => work tls_post_process_server_certificate_ntls wst s
  | TLS_ST_CR_CERT_REQ => tls_prepare_client_certificate_ntls wst s
  | _ => fail SSL_AD_INTERNAL_ERROR WORK_ERROR s
  end.

End Client.
