(* ===== verification/NtlsServer.v ===== *)
(** * NTLS handshake: the server

    [ntls_statem_srvr.c]: the handshake state transitions of the server when
    it reads and when it writes, the work before and after each message, the
    message constructors and parsers of each state and the limits on message
    sizes. *)

From S2P Require Import Prelude NtlsTypes NtlsEnv NtlsLib NtlsClient.

Section Server.
Context {W : Type} {E : Env W}.
Implicit Types s : SSL W.

Definition ossl_statem_server_read_transition_ntls (mt : Z) : M W bool := fun s =>
  match hand_state (statem s) with
  | TLS_ST_BEFORE
  | TLS_ST_OK =>
      if mt =? SSL3_MT_CLIENT_HELLO then move_to TLS_ST_SR_CLNT_HELLO s
      else unexpected_message s
  | TLS_ST_SW_SRVR_DONE =>
      if mt =? SSL3_MT_CLIENT_KEY_EXCHANGE then
        if tmp_cert_request s then
          if version s =? SSL3_VERSION then
            if flag (verify_mode s) SSL_VERIFY_PEER
               && flag (verify_mode s) SSL_VERIFY_FAIL_IF_NO_PEER_CERT
            then fail SSL_AD_HANDSHAKE_FAILURE false s
            else move_to TLS_ST_SR_KEY_EXCH s
          else unexpected_message s
        else move_to TLS_ST_SR_KEY_EXCH s
      else if tmp_cert_request s then
        if mt =? SSL3_MT_CERTIFICATE then move_to TLS_ST_SR_CERT s else unexpected_message s
      else unexpected_message s
  | TLS_ST_SR_CERT =>
      if mt =? SSL3_MT_CLIENT_KEY_EXCHANGE then move_to TLS_ST_SR_KEY_EXCH s
      else unexpected_message s
  | TLS_ST_SR_KEY_EXCH =>
      if negb (session_peer s) || no_cert_verify (statem s) then
        if mt =? SSL3_MT_CHANGE_CIPHER_SPEC then move_to TLS_ST_SR_CHANGE s
        else unexpected_message s
      else if mt =? SSL3_MT_CERTIFICATE_VERIFY then move_to TLS_ST_SR_CERT_VRFY s
      else unexpected_message s
  | TLS_ST_SR_CERT_VRFY =>
      if mt =? SSL3_MT_CHANGE_CIPHER_SPEC then move_to TLS_ST_SR_CHANGE s
      else unexpected_message s
  | TLS_ST_SR_CHANGE =>
      if s3_npn_seen s then
        if mt =? SSL3_MT_NEXT_PROTO then move_to TLS_ST_SR_NEXT_PROTO s
        else unexpected_message s
      else if mt =? SSL3_MT_FINISHED then move_to TLS_ST_SR_FINISHED s
      else unexpected_message s
  | TLS_ST_SR_NEXT_PROTO =>
      if mt =? SSL3_MT_FINISHED then move_to TLS_ST_SR_FINISHED s else unexpected_message s
  | TLS_ST_SW_FINISHED =>
      if mt =? SSL3_MT_CHANGE_CIPHER_SPEC then move_to TLS_ST_SR_CHANGE s
      else unexpected_message s
  | _ => unexpected_message s
  end.

Definition send_server_key_exchange (s : SSL W) : bool := true.

Definition send_certificate_request_ntls (s : SSL W) : bool :=
  flag (verify_mode s) SSL_VERIFY_PEER
  && ((certreqs_sent s <? 1) || negb (flag (verify_mode s) SSL_VERIFY_CLIENT_ONCE))
  && (negb (flag (cipher_auth s) SSL_aNULL)
      || flag (verify_mode s) SSL_VERIFY_FAIL_IF_NO_PEER_CERT)
  && negb (flag (cipher_auth s) SSL_aSRP)
  && negb (flag (cipher_auth s) SSL_aPSK).

(** The cases [TLS_ST_SW_KEY_EXCH] and [TLS_ST_SW_CERT_STATUS], each falling
    through to the next. *)
Definition write_after_key_exch : M W WRITE_TRAN := fun s =>
  if send_certificate_request_ntls s then write_to TLS_ST_SW_CERT_REQ s
  else write_to TLS_ST_SW_SRVR_DONE s.

Definition write_after_cert_status : M W WRITE_TRAN := fun s =>
  if send_server_key_exchange s then write_to TLS_ST_SW_KEY_EXCH s
  else write_after_key_exch s.

Definition ossl_statem_server_write_transition_ntls : M W WRITE_TRAN := fun s =>
  match hand_state (statem s) with
  | TLS_ST_OK =>
      if bool_decide (request_state (statem s) = TLS_ST_SW_HELLO_REQ) then
        (WRITE_TRAN_CONTINUE,
         s <|st hand_state := TLS_ST_SW_HELLO_REQ|> <|st request_state := TLS_ST_BEFORE|>)
      else
        (let* ok := tls_setup_handshake_ntls in
         if negb ok then ret WRITE_TRAN_ERROR else ret WRITE_TRAN_FINISHED) s
  | TLS_ST_BEFORE => (WRITE_TRAN_FINISHED, s)
  | TLS_ST_SW_HELLO_REQ => write_to TLS_ST_OK s
  | TLS_ST_SR_CLNT_HELLO =>
      if negb (renegotiate s) && negb (SSL_IS_FIRST_HANDSHAKE s) then write_to TLS_ST_OK s
      else write_to TLS_ST_SW_SRVR_HELLO s
  | TLS_ST_SW_SRVR_HELLO =>
      if hit s then
        if ext_ticket_expected s then write_to TLS_ST_SW_SESSION_TICKET s
        else write_to TLS_ST_SW_CHANGE s
      else if negb (no_auth s) then write_to TLS_ST_SW_CERT s
      else if send_server_key_exchange s then write_to TLS_ST_SW_KEY_EXCH s
      else if send_certificate_request_ntls s then write_to TLS_ST_SW_CERT_REQ s
      else write_to TLS_ST_SW_SRVR_DONE s
  | TLS_ST_SW_CERT =>
      if ext_status_expected s then write_to TLS_ST_SW_CERT_STATUS s
      else write_after_cert_status s
  | TLS_ST_SW_CERT_STATUS => write_after_cert_status s
  | TLS_ST_SW_KEY_EXCH => write_after_key_exch s
  | TLS_ST_SW_CERT_REQ => write_to TLS_ST_SW_SRVR_DONE s
  | TLS_ST_SW_SRVR_DONE => (WRITE_TRAN_FINISHED, s)
  | TLS_ST_SR_FINISHED =>
      if hit s then write_to TLS_ST_OK s
      else if ext_ticket_expected s then write_to TLS_ST_SW_SESSION_TICKET s
      else write_to TLS_ST_SW_CHANGE s
  | TLS_ST_SW_SESSION_TICKET => write_to TLS_ST_SW_CHANGE s
  | TLS_ST_SW_CHANGE => write_to TLS_ST_SW_FINISHED s
  | TLS_ST_SW_FINISHED =>
      if hit s then (WRITE_TRAN_FINISHED, s) else write_to TLS_ST_OK s
  | _ => fail SSL_AD_INTERNAL_ERROR WRITE_TRAN_ERROR s
  end.

Definition ossl_statem_server_pre_work_ntls (wst : WORK_STATE) : M W WORK_STATE := fun s =>
  match hand_state (statem s) with
  | TLS_ST_SW_HELLO_REQ => (WORK_FINISHED_CONTINUE, s <|shutdown := 0|>)
  | TLS_ST_SW_CHANGE =>
      match session_cipher s with
      | None =>
          or_error (call setup_key_block) continue (s <|session_cipher := tmp_new_cipher s|>)
      | Some c =>
          if bool_decide (Some c <> tmp_new_cipher s)
          then fail SSL_AD_INTERNAL_ERROR WORK_ERROR s
          else or_error (call setup_key_block) continue s
      end
  | TLS_ST_EARLY_DATA =>
      if bool_decide (early_data_state s <> SSL_EARLY_DATA_ACCEPTING)
         && negb (flag (s3_flags s) TLS1_FLAGS_STATELESS)
      then (WORK_FINISHED_CONTINUE, s)
      else tls_finish_handshake_ntls true true s
  | TLS_ST_OK => tls_finish_handshake_ntls true true s
  | _ => (WORK_FINISHED_CONTINUE, s)
  end.

Definition ossl_statem_server_post_work_ntls (wst : WORK_STATE) : M W WORK_STATE :=
  modify (fun s => s <|init_num := 0|>) ;;;
  fun s =>
  match hand_state (statem s) with
  | TLS_ST_SW_HELLO_REQ =>
      or_more WORK_MORE_A statem_flush_ntls
        (or_error (call ssl3_init_finished_mac) continue) s
  | TLS_ST_SW_CHANGE =>
      if bool_decide (hello_retry_request s = SSL_HRR_PENDING)
      then or_more WORK_MORE_A statem_flush_ntls continue s
      else or_error (call (change_cipher_state SSL3_CHANGE_CIPHER_SERVER_WRITE)) continue s
  | TLS_ST_SW_SRVR_DONE
  | TLS_ST_SW_FINISHED => or_more WORK_MORE_A statem_flush_ntls continue s
  | TLS_ST_SW_CERT_REQ =>
      if bool_decide (post_handshake_auth s = SSL_PHA_REQUEST_PENDING)
      then or_more WORK_MORE_A statem_flush_ntls continue s
      else continue s
  | TLS_ST_SW_KEY_UPDATE =>
      or_more WORK_MORE_A statem_flush_ntls
        (or_error (call tls13_update_key) continue) s
  | _ => continue s
  end.

Definition ossl_statem_server_construct_message_ntls (s : SSL W) : option (option confunc * Z) :=
  match hand_state (statem s) with
  | TLS_ST_SW_CHANGE => Some (Some ConstructCCS, SSL3_MT_CHANGE_CIPHER_SPEC)
  | TLS_ST_SW_HELLO_REQ => Some (None, SSL3_MT_HELLO_REQUEST)
  | TLS_ST_SW_SRVR_HELLO =>
      Some (Some (Construct tls_construct_server_hello_ntls), SSL3_MT_SERVER_HELLO)
  | TLS_ST_SW_CERT =>
      Some (Some (Construct tls_construct_server_certificate_ntls), SSL3_MT_CERTIFICATE)
  | TLS_ST_SW_KEY_EXCH =>
      Some (Some (Construct tls_construct_server_key_exchange_ntls),
            SSL3_MT_SERVER_KEY_EXCHANGE)
  | TLS_ST_SW_CERT_REQ =>
      Some (Some (Construct tls_construct_certificate_request_ntls),
            SSL3_MT_CERTIFICATE_REQUEST)
  | TLS_ST_SW_SRVR_DONE =>
      Some (Some (Construct tls_construct_server_done_ntls), SSL3_MT_SERVER_DONE)
  | TLS_ST_SW_SESSION_TICKET =>
      Some (Some (Construct tls_construct_new_session_ticket_ntls), SSL3_MT_NEWSESSION_TICKET)
  | TLS_ST_SW_CERT_STATUS =>
      Some (Some (Construct tls_construct_cert_status_ntls), SSL3_MT_CERTIFICATE_STATUS)
  | TLS_ST_SW_FINISHED => Some (Some ConstructFinished, SSL3_MT_FINISHED)
  | TLS_ST_EARLY_DATA => Some (None, SSL3_MT_DUMMY)
  | _ => None
  end.

Definition ossl_statem_server_max_message_size_ntls (s : SSL W) : Z :=
  match hand_state (statem s) with
  | TLS_ST_SR_CLNT_HELLO => CLIENT_HELLO_MAX_LENGTH
  | TLS_ST_SR_CERT => max_cert_list s
  | TLS_ST_SR_KEY_EXCH => CLIENT_KEY_EXCH_MAX_LENGTH
  | TLS_ST_SR_CERT_VRFY => SSL3_RT_MAX_PLAIN_LENGTH
  | TLS_ST_SR_NEXT_PROTO => NEXT_PROTO_MAX_LENGTH
  | TLS_ST_SR_CHANGE => CCS_MAX_LENGTH
  | TLS_ST_SR_FINISHED => FINISHED_MAX_LENGTH
  | _ => 0
  end.

Definition ossl_statem_server_process_message_ntls (pkt : list Z) : M W MSG_PROCESS_RETURN :=
  fun s =>
  match hand_state (statem s) with
  | TLS_ST_SR_CLNT_HELLO => process tls_process_client_hello_ntls pkt s
  | TLS_ST_SR_END_OF_EARLY_DATA => process tls_process_end_of_early_data_ntls pkt s
  | TLS_ST_SR_CERT => process tls_process_client_certificate_ntls pkt s
  | TLS_ST_SR_KEY_EXCH => process tls_process_client_key_exchange_ntls pkt s
  | TLS_ST_SR_CERT_VRFY => process tls_process_cert_verify_ntls pkt s
  | TLS_ST_SR_NEXT_PROTO => process tls_process_next_proto_ntls pkt s
  | TLS_ST_SR_CHANGE => tls_process_change_cipher_spec_ntls pkt s
  | TLS_ST_SR_FINISHED => tls_process_finished_ntls pkt s
  | _ => fail SSL_AD_INTERNAL_ERROR MSG_PROCESS_ERROR s
  end.

Definition ossl_statem_server_post_process_message_ntls (wst : WORK_STATE) : M W WORK_STATE :=
  fun s =>
  match hand_state (statem s) with
  | TLS_ST_SR_CLNT_HELLO => work tls_post_process_client_hello_ntls wst s
  | TLS_ST_SR_KEY_EXCH => tls_post_process_client_key_exchange_ntls s
  | _ => fail SSL_AD_INTERNAL_ERROR WORK_ERROR s
  end.

End Server.
