(* ===== verification/NtlsStatem.v ===== *)
(** * NTLS handshake: the message flow state machine

    [ntls_statem.c]: the sub-state machines that read and write handshake
    messages, the state machine that alternates them, and the predicates the
    rest of the library asks of a connection.  The C loops have no bound: a
    loop takes a fuel and returns [None] when it runs out. *)

From S2P Require Import Prelude NtlsTypes NtlsEnv NtlsLib NtlsClient NtlsServer.

(** [while (1) step], until the step returns a value. *)
Fixpoint loop {S R : Type} (fuel : nat) (step : S -> option (option R * S)) (s : S) :
  option (R * S) :=
  match fuel with
  | O => None
  | Datatypes.S fuel =>
      match step s with
      | None => None
      | Some (Some r, s) => Some (r, s)
      | Some (None, s) => loop fuel step s
      end
  end.

Section Statem.
Context {W : Type} {E : Env W}.
Implicit Types s : SSL W.

(** ** Queries and small operations *)

Definition ossl_statem_set_in_init_ntls (init : bool) (s : SSL W) : SSL W :=
  s <|st in_init := init|>.

Definition ossl_statem_get_in_handshake_ntls (s : SSL W) : Z := in_handshake (statem s).

Definition ossl_statem_set_in_handshake_ntls (inhand : bool) (s : SSL W) : SSL W :=
  if inhand then s <|st in_handshake := in_handshake (statem s) + 1|>
  else s <|st in_handshake := in_handshake (statem s) - 1|>.

Definition ossl_statem_skip_early_data_ntls (s : SSL W) : bool :=
  if negb (ext_early_data s =? SSL_EARLY_DATA_REJECTED) then false
  else if negb (server s)
          || bool_decide (hand_state (statem s) <> TLS_ST_EARLY_DATA)
          || bool_decide (hello_retry_request s = SSL_HRR_COMPLETE)
  then false else true.

(** In a state where early data may still be sent. *)
Definition in_early_data (s : SSL W) : bool :=
  bool_decide (hand_state (statem s) = TLS_ST_PENDING_EARLY_DATA_END)
  || bool_decide (hand_state (statem s) = TLS_ST_EARLY_DATA).

(** No more early data once a retried write has been given up. *)
Definition stop_write_retry (s : SSL W) : SSL W :=
  if bool_decide (early_data_state s = SSL_EARLY_DATA_WRITE_RETRY)
  then s <|early_data_state := SSL_EARLY_DATA_FINISHED_WRITING|> else s.

Definition ossl_statem_check_finish_init_ntls (sending : Z) (s : SSL W) : SSL W :=
  if sending =? -1 then
    if in_early_data s then stop_write_retry (ossl_statem_set_in_init_ntls true s) else s
  else if negb (server s) then
    if (negb (sending =? 0) && in_early_data s
        && bool_decide (early_data_state s <> SSL_EARLY_DATA_WRITING))
       || ((sending =? 0) && bool_decide (hand_state (statem s) = TLS_ST_EARLY_DATA))
    then
      let s := ossl_statem_set_in_init_ntls true s in
      if negb (sending =? 0) then stop_write_retry s else s
    else s
  else if bool_decide (early_data_state s = SSL_EARLY_DATA_FINISHED_READING)
          && bool_decide (hand_state (statem s) = TLS_ST_EARLY_DATA)
  then ossl_statem_set_in_init_ntls true s else s.

Definition ossl_statem_set_hello_verify_done_ntls (s : SSL W) : SSL W :=
  s <|st state := MSG_FLOW_UNINITED|> <|st in_init := true|>
    <|st hand_state := TLS_ST_SR_CLNT_HELLO|>.

Definition ossl_statem_app_data_allowed_ntls (s : SSL W) : bool :=
  if bool_decide (state (statem s) = MSG_FLOW_UNINITED) then false
  else if negb (s3_in_read_app_data s) || (s3_total_renegotiations s =? 0) then false
  else if server s then
    bool_decide (hand_state (statem s) = TLS_ST_BEFORE)
    || bool_decide (hand_state (statem s) = TLS_ST_SR_CLNT_HELLO)
  else bool_decide (hand_state (statem s) = TLS_ST_CW_CLNT_HELLO).

Definition ossl_statem_export_allowed_ntls (s : SSL W) : bool :=
  negb (zlen (s3_previous_server_finished s) =? 0)
  && bool_decide (hand_state (statem s) <> TLS_ST_SW_FINISHED).

Definition ossl_statem_export_early_allowed_ntls (s : SSL W) : bool :=
  (ext_early_data s =? SSL_EARLY_DATA_ACCEPTED)
  || (negb (server s) && negb (ext_early_data s =? SSL_EARLY_DATA_NOT_SENT)).

(** ** Reading *)

Definition init_read_state_machine_ntls (s : SSL W) : SSL W :=
  s <|st read_state := READ_STATE_HEADER|>.

(** [size < msg_offset] is tested after the buffer has grown. *)
Definition grow_init_buf (size : Z) : M W bool := fun s =>
  (let* ok := call (BUF_MEM_grow_clean size) in
   if negb ok then ret false
   else if size <? init_msg s then ret false else ret true) s.

(** The functions of the role, chosen once at the entry of the sub-state
    machine. *)
Definition read_transition (srv : bool) : Z -> M W bool :=
  if srv then ossl_statem_server_read_transition_ntls
  else ossl_statem_client_read_transition_ntls.
Definition process_message (srv : bool) : list Z -> M W MSG_PROCESS_RETURN :=
  if srv then ossl_statem_server_process_message_ntls
  else ossl_statem_client_process_message_ntls.
Definition max_message_size (srv : bool) : SSL W -> Z :=
  if srv then ossl_statem_server_max_message_size_ntls
  else ossl_statem_client_max_message_size_ntls.
Definition post_process_message (srv : bool) : WORK_STATE -> M W WORK_STATE :=
  if srv then ossl_statem_server_post_process_message_ntls
  else ossl_statem_client_post_process_message_ntls.

(** A [return] of the sub-state machine; [None] goes round its loop. *)
Definition stop (r : SUB_STATE_RETURN) : M W (option SUB_STATE_RETURN) := ret (Some r).
Definition again : M W (option SUB_STATE_RETURN) := ret None.

Definition record (e : event) : M W unit := modify (fun s => s <|trace := trace s ++ [e]|>).

(** [case READ_STATE_BODY] *)
Definition read_body (srv : bool) : M W (option SUB_STATE_RETURN) :=
  let* body := tls_get_message_body_ntls in
  match body with
  | None => stop SUB_STATE_ERROR
  | Some pkt =>
      modify (fun s => s <|first_packet := false|>) ;;;
      let* r := process_message srv pkt in
      modify (fun s => s <|init_num := 0|>) ;;;
      match r with
      | MSG_PROCESS_ERROR => check_fatal ;;; stop SUB_STATE_ERROR
      | MSG_PROCESS_FINISHED_READING => stop SUB_STATE_FINISHED
      | MSG_PROCESS_CONTINUE_PROCESSING =>
          modify (fun s => s <|st read_state := READ_STATE_POST_PROCESS|>
                             <|st read_state_work := WORK_MORE_A|>) ;;; again
      | MSG_PROCESS_CONTINUE_READING =>
          modify (fun s => s <|st read_state := READ_STATE_HEADER|>) ;;; again
      end
  end.

(** [case READ_STATE_HEADER], which falls through to the body. *)
Definition read_header (srv : bool) : M W (option SUB_STATE_RETURN) :=
  let* header := tls_get_message_header_ntls in
  match header with
  | None => stop SUB_STATE_ERROR
  | Some mt =>
      let* allowed := read_transition srv mt in
      if negb allowed then stop SUB_STATE_ERROR
      else
        record (Rd mt) ;;;
        let* size := get tmp_message_size in
        let* limit := get (max_message_size srv) in
        if limit <? size then fail SSL_AD_ILLEGAL_PARAMETER (Some SUB_STATE_ERROR)
        else
          let* ok := (if 0 <? size then grow_init_buf (size + SSL3_HM_HEADER_LENGTH)
                      else ret true) in
          if negb ok then fail SSL_AD_INTERNAL_ERROR (Some SUB_STATE_ERROR)
          else
            modify (fun s => s <|st read_state := READ_STATE_BODY|>) ;;;
            read_body srv
  end.

(** [case READ_STATE_POST_PROCESS] *)
Definition read_post_process (srv : bool) : M W (option SUB_STATE_RETURN) := fun s =>
  (let* w := post_process_message srv (read_state_work (statem s)) in
   modify (fun s => s <|st read_state_work := w|>) ;;;
   match w with
   | WORK_ERROR => check_fatal ;;; stop SUB_STATE_ERROR
   | WORK_MORE_A | WORK_MORE_B | WORK_MORE_C => stop SUB_STATE_ERROR
   | WORK_FINISHED_CONTINUE =>
       modify (fun s => s <|st read_state := READ_STATE_HEADER|>) ;;; again
   | WORK_FINISHED_STOP => stop SUB_STATE_FINISHED
   end) s.

Definition read_step (srv : bool) : M W (option SUB_STATE_RETURN) := fun s =>
  match read_state (statem s) with
  | READ_STATE_HEADER => read_header srv s
  | READ_STATE_BODY => read_body srv s
  | READ_STATE_POST_PROCESS => read_post_process srv s
  end.

Definition read_state_machine_ntls (fuel : nat) (s : SSL W) : option (SUB_STATE_RETURN * SSL W) :=
  let srv := server s in
  let s := if read_state_first_init (statem s)
           then s <|first_packet := true|> <|st read_state_first_init := false|> else s in
  loop fuel (fun s => Some (read_step srv s)) s.

(** ** Writing *)

Definition init_write_state_machine_ntls (s : SSL W) : SSL W :=
  s <|st write_state := WRITE_STATE_TRANSITION|>.

Definition statem_do_write : M W Z := fun s =>
  if bool_decide (hand_state (statem s) = TLS_ST_CW_CHANGE)
     || bool_decide (hand_state (statem s) = TLS_ST_SW_CHANGE)
  then ext ssl3_do_write_ccs s else ext ssl_do_write s.

Definition write_transition (srv : bool) : M W WRITE_TRAN :=
  if srv then ossl_statem_server_write_transition_ntls
  else ossl_statem_client_write_transition_ntls.
Definition pre_work (srv : bool) : WORK_STATE -> M W WORK_STATE :=
  if srv then ossl_statem_server_pre_work_ntls else ossl_statem_client_pre_work_ntls.
Definition post_work (srv : bool) : WORK_STATE -> M W WORK_STATE :=
  if srv then ossl_statem_server_post_work_ntls else ossl_statem_client_post_work_ntls.
Definition get_construct_message (srv : bool) : SSL W -> option (option confunc * Z) :=
  if srv then ossl_statem_server_construct_message_ntls
  else ossl_statem_client_construct_message_ntls.

(** [confunc != NULL && !confunc(s, &pkt)] fails. *)
Definition run_confunc (f : option confunc) : M W bool :=
  match f with
  | None => ret true
  | Some (Construct f) => construct f
  | Some ConstructCCS => tls_construct_change_cipher_spec_ntls
  | Some ConstructFinished => tls_construct_finished_ntls
  end.

(** The message of the current state, for the history. *)
Definition sent_type (srv : bool) (s : SSL W) : Z :=
  match get_construct_message srv s with Some (_, mt) => mt | None => SSL3_MT_DUMMY end.

(** [case WRITE_STATE_POST_WORK] *)
Definition write_post_work (srv : bool) : M W (option SUB_STATE_RETURN) := fun s =>
  (let* w := post_work srv (write_state_work (statem s)) in
   modify (fun s => s <|st write_state_work := w|>) ;;;
   match w with
   | WORK_ERROR => check_fatal ;;; stop SUB_STATE_ERROR
   | WORK_MORE_A | WORK_MORE_B | WORK_MORE_C => stop SUB_STATE_ERROR
   | WORK_FINISHED_CONTINUE =>
       modify (fun s => s <|st write_state := WRITE_STATE_TRANSITION|>) ;;; again
   | WORK_FINISHED_STOP => stop SUB_STATE_END_HANDSHAKE
   end) s.

Definition to_post_work : M W unit :=
  modify (fun s => s <|st write_state := WRITE_STATE_POST_WORK|>
                     <|st write_state_work := WORK_MORE_A|>).

(** [case WRITE_STATE_SEND], which falls through to the post work. *)
Definition write_send (srv : bool) : M W (option SUB_STATE_RETURN) := fun s =>
  (let* r := statem_do_write in
   if r <=? 0 then stop SUB_STATE_ERROR
   else record (Wr (sent_type srv s)) ;;; to_post_work ;;; write_post_work srv) s.

(** Building the message in [case WRITE_STATE_PRE_WORK]. *)
Definition write_construct (srv : bool) (f : option confunc) (mt : Z) :
  M W (option SUB_STATE_RETURN) :=
  let* ok := call WPACKET_init in
  let* ok := (if ok then call (ssl_set_handshake_header mt) else ret false) in
  if negb ok then fail SSL_AD_INTERNAL_ERROR (Some SUB_STATE_ERROR)
  else
    let* ok := run_confunc f in
    if negb ok then check_fatal ;;; stop SUB_STATE_ERROR
    else
      let* ok := call (ssl_close_construct_packet mt) in
      let* ok := (if ok then call WPACKET_finish else ret false) in
      if negb ok then fail SSL_AD_INTERNAL_ERROR (Some SUB_STATE_ERROR)
      else write_send srv.

(** [case WRITE_STATE_PRE_WORK].  The state with no constructor is the fatal
    error of [get_construct_message_f]. *)
Definition write_pre_work (srv : bool) : M W (option SUB_STATE_RETURN) := fun s =>
  (let* w := pre_work srv (write_state_work (statem s)) in
   modify (fun s => s <|st write_state_work := w|>) ;;;
   match w with
   | WORK_ERROR => check_fatal ;;; stop SUB_STATE_ERROR
   | WORK_MORE_A | WORK_MORE_B | WORK_MORE_C => stop SUB_STATE_ERROR
   | WORK_FINISHED_STOP => stop SUB_STATE_END_HANDSHAKE
   | WORK_FINISHED_CONTINUE =>
       modify (fun s => s <|st write_state := WRITE_STATE_SEND|>) ;;;
       let* c := get (get_construct_message srv) in
       match c with
       | None => fail SSL_AD_INTERNAL_ERROR (Some SUB_STATE_ERROR)
       | Some (f, mt) =>
           if mt =? SSL3_MT_DUMMY then to_post_work ;;; again
           else write_construct srv f mt
       end
   end) s.

(** [case WRITE_STATE_TRANSITION] *)
Definition write_tran (srv : bool) : M W (option SUB_STATE_RETURN) :=
  let* t := write_transition srv in
  match t with
  | WRITE_TRAN_CONTINUE =>
      modify (fun s => s <|st write_state := WRITE_STATE_PRE_WORK|>
                         <|st write_state_work := WORK_MORE_A|>) ;;; again
  | WRITE_TRAN_FINISHED => stop SUB_STATE_FINISHED
  | WRITE_TRAN_ERROR => check_fatal ;;; stop SUB_STATE_ERROR
  end.

Definition write_step (srv : bool) : M W (option SUB_STATE_RETURN) := fun s =>
  match write_state (statem s) with
  | WRITE_STATE_TRANSITION => write_tran srv s
  | WRITE_STATE_PRE_WORK => write_pre_work srv s
  | WRITE_STATE_SEND => write_send srv s
  | WRITE_STATE_POST_WORK => write_post_work srv s
  end.

Definition write_state_machine_ntls (fuel : nat) (s : SSL W) :
  option (SUB_STATE_RETURN * SSL W) :=
  loop fuel (fun s' => Some (write_step (server s) s')) s.

(** ** The message flow state machine *)

(** [if (!f) { SSLfatal_ntls(s, SSL_AD_NO_ALERT, ...); goto end; }] *)
Definition or_fatal (m : M W bool) (k : M W bool) : M W bool :=
  let* ok := m in if negb ok then fail SSL_AD_NO_ALERT false else k.

(** A first handshake or a renegotiation is set up. *)
Definition setup_if_fresh : M W bool := fun s =>
  if SSL_in_before_ntls s || renegotiate s then
    (let* ok := tls_setup_handshake_ntls in
     if negb ok then ret false
     else modify (fun s => if SSL_IS_FIRST_HANDSHAKE s
                           then s <|st read_state_first_init := true|> else s) ;;;
          ret true) s
  else (true, s).

(** "Initialise state machine"; [false] is [goto end]. *)
Definition state_machine_init (srv : bool) : M W bool :=
  modify (fun s =>
    (if bool_decide (state (statem s) = MSG_FLOW_UNINITED)
     then s <|st hand_state := TLS_ST_BEFORE|> <|st request_state := TLS_ST_BEFORE|>
     else s) <|server := srv|>) ;;;
  or_fatal (get ssl_security)
  (or_fatal (let* have := get init_buf in
             if have then ret true
             else
               let* ok := call BUF_MEM_new in
               let* ok := (if ok then call (BUF_MEM_grow SSL3_RT_MAX_PLAIN_LENGTH)
                           else ret false) in
               if ok then modify (fun s => s <|init_buf := true|>) ;;; ret true
               else ret false)
  (or_fatal (call ssl3_setup_buffers)
  (modify (fun s => s <|init_num := 0|> <|s3_change_cipher_spec := false|>) ;;;
  or_fatal (call ssl_init_wbio_buffer)
  (let* ok := setup_if_fresh in
   if negb ok then ret false
   else modify (fun s => init_write_state_machine_ntls
                           (s <|st state := MSG_FLOW_WRITING|> <|trace := []|>)) ;;;
        ret true)))).

(** One round of [while (st->state != MSG_FLOW_FINISHED)]. *)
Definition flow_step (fuel : nat) (s : SSL W) : option (option Z * SSL W) :=
  match state (statem s) with
  | MSG_FLOW_FINISHED => Some (Some 1, s)
  | MSG_FLOW_READING =>
      match read_state_machine_ntls fuel s with
      | None => None
      | Some (SUB_STATE_FINISHED, s) =>
          Some (None, init_write_state_machine_ntls (s <|st state := MSG_FLOW_WRITING|>))
      | Some (_, s) => Some (Some (-1), s)
      end
  | MSG_FLOW_WRITING =>
      match write_state_machine_ntls fuel s with
      | None => None
      | Some (SUB_STATE_FINISHED, s) =>
          Some (None, init_read_state_machine_ntls (s <|st state := MSG_FLOW_READING|>))
      | Some (SUB_STATE_END_HANDSHAKE, s) => Some (None, s <|st state := MSG_FLOW_FINISHED|>)
      | Some (SUB_STATE_ERROR, s) => Some (Some (-1), s)
      end
  | _ => let '(_, s) := check_fatal s in Some (Some (-1), s)
  end.

(** [end:] *)
Definition leave (s : SSL W) : SSL W := s <|st in_handshake := in_handshake (statem s) - 1|>.

(** [st->in_handshake++], then [SSL_clear] for a connection that is not in a
    handshake; [false] is the early [return -1]. *)
Definition entry_clear : M W bool := fun s =>
  let s := s <|st in_handshake := in_handshake (statem s) + 1|> in
  if (negb (SSL_in_init_ntls s) || SSL_in_before_ntls s)
     && negb (flag (s3_flags s) TLS1_FLAGS_STATELESS)
  then SSL_clear s else (true, s).

Definition state_machine_ntls (fuel : nat) (srv : bool) (s : SSL W) : option (Z * SSL W) :=
  if bool_decide (state (statem s) = MSG_FLOW_ERROR) then Some (-1, s)
  else
    let '(ok, s) := entry_clear s in
    if negb ok then Some (-1, s)
    else
      let '(ok, s) :=
        if bool_decide (state (statem s) = MSG_FLOW_UNINITED)
           || bool_decide (state (statem s) = MSG_FLOW_FINISHED)
        then state_machine_init srv s else (true, s) in
      if negb ok then Some (-1, leave s)
      else
        match loop fuel (flow_step fuel) s with
        | None => None
        | Some (r, s) => Some (r, leave s)
        end.

Definition ossl_statem_connect_ntls (fuel : nat) : SSL W -> option (Z * SSL W) :=
  state_machine_ntls fuel false.
Definition ossl_statem_accept_ntls (fuel : nat) : SSL W -> option (Z * SSL W) :=
  state_machine_ntls fuel true.

End Statem.
