(* ===== verification/NtlsOrder.v ===== *)
(** * NTLS handshake: the order of the messages

    What the handlers leave alone: under the laws of the environment every
    handler of the client and of the server keeps the control fields of the
    connection ([frame]), and all but the ones that negotiate keep the negotiated
    parameters ([quiet]).  Both follow from the structure of the handlers by one
    tactic.

    The specification: the message sequences of a full and of an abbreviated
    TLCP handshake, for each role and choice of negotiated parameters, as
    finite sets of words.  The invariant: the history of a connection is a
    prefix of such a word and the handshake state is the one of its last
    message.  The theorems: every transition of the client and of the server
    extends the history to another prefix, so that a handshake that ends
    successfully has followed one of the words. *)

From S2P Require Import Prelude NtlsTypes NtlsEnv NtlsLib NtlsClient NtlsServer NtlsStatem.

Create HintDb ntls discriminated.
#[export] Hint Constants Opaque : ntls.

(** Like [quiet], except that a requested certificate may change into an empty
    one. *)
Definition prepared {W} (s s' : SSL W) : Prop :=
  frame s s' /\ same_cipher s s' /\ same_peer s s' /\ same_fin s s'
  /\ tmp_cert_request s' = tmp_cert_request s
  /\ (tmp_cert_req s <> 0 -> tmp_cert_req s' <> 0).

#[export] Instance prepared_preorder {W} : PreOrder (@prepared W).
Proof.
  split.
  - intros s. split; [reflexivity | repeat split]. auto.
  - intros s s' s'' (F & [C1 C2] & [P1 P2] & N & Q & R) (F' & [C1' C2'] & [P1' P2'] & N' & Q' & R').
    split; [etrans; eassumption |]. unfold same_cipher, same_peer, same_fin in *.
    repeat split; try congruence. auto.
Qed.

Lemma quiet_prepared {W} (s s' : SSL W) : quiet s s' -> prepared s s'.
Proof.
  intros [(F & C & [R Q] & P) N]. repeat split; try apply F; try apply C; try apply P; auto.
  intros H1 H2. rewrite H2 in R. symmetry in R. apply Z.eqb_eq in R. contradiction.
Qed.

(** An assignment to fields outside [core], [ntls_mode] and the negotiated
    parameters. *)
Ltac assign_tac :=
  unfold prepared, quiet, calm, frame, same_cipher, same_req, same_peer, same_fin, ntls_mode; cbn;
  split_and?;
  first [ reflexivity | assumption | discriminate | intros _; discriminate | intros ?; assumption | left; reflexivity | right; reflexivity
        | intros (? & ? & ? & ?); split_and!; assumption ].

(** Follow the control flow of a handler down to the calls it makes, which the
    hint database covers, and to assignments. *)
Ltac always_step :=
  match goal with
  | |- always _ (bind _ _) => apply always_bind; [typeclasses eauto | | intro]
  | |- always _ (ret _) => apply always_ret; typeclasses eauto
  | |- always _ (get _) => apply always_get; typeclasses eauto
  | |- always _ (if ?b then _ else _) => destruct b eqn:?
  | |- always _ (match ?x with _ => _ end) => destruct x eqn:?
  | |- always _ (modify _) => intros ?; unfold modify; cbn [snd]
  | |- always _ (fun _ => _) => intros ?; cbv beta
  | |- ?R ?s (if ?b then _ else _) => destruct b eqn:?
  | |- ?R ?s ?s => reflexivity
  | |- ?R ?s (let x := ?v in @?k x).2 => change (R s (k v).2); cbv beta
  | |- ?R ?s (if ?b then _ else _).2 => destruct b eqn:?
  | |- ?R ?s (match ?x with _ => _ end).2 => destruct x eqn:?
  | |- ?R ?s (_, _).2 => cbn [snd]
  | |- ?R ?s (?m ?s).2 => cut (always R m); [let H := fresh in solve [intros H; apply H] |]
  | |- ?R ?s (?m ?s').2 =>
      transitivity s'; [ | cut (always R m); [let H := fresh in solve [intros H; apply H] |]]
  end.

Ltac always_tac :=
  repeat first [ solve [auto 1 with ntls nocore] | always_step ]; try assign_tac.

Section Frame.
Context {W : Type} {E : Env W} {L : EnvLaws W}.

Lemma quiet_ext f : always quiet (ext (W := W) f).
Proof. exact (ext_quiet f). Qed.
#[local] Hint Resolve quiet_ext : ntls.
Lemma quiet_call f : always quiet (call (W := W) f).
Proof. unfold call. always_tac. Qed.
#[local] Hint Resolve quiet_call : ntls.

Lemma quiet_header : always quiet (tls_get_message_header_ntls (W := W)).
Proof. exact header_quiet. Qed.
Lemma quiet_body : always quiet (tls_get_message_body_ntls (W := W)).
Proof. exact body_quiet. Qed.
Lemma quiet_finish_mac b : always quiet (final_finish_mac (W := W) b).
Proof. exact (finish_mac_quiet b). Qed.
Lemma quiet_client_cert_cb : always quiet (ssl_do_client_cert_cb_ntls (W := W)).
Proof. exact client_cert_cb_quiet. Qed.
#[local] Hint Resolve quiet_header quiet_body quiet_finish_mac quiet_client_cert_cb : ntls.

Lemma quiet_send_fatal al : always quiet (ossl_statem_send_fatal_ntls (W := W) al).
Proof. unfold ossl_statem_send_fatal_ntls. always_tac. Qed.
#[local] Hint Resolve quiet_send_fatal : ntls.
Lemma quiet_SSLfatal al : always quiet (SSLfatal_ntls (W := W) al).
Proof. exact (quiet_send_fatal al). Qed.
#[local] Hint Resolve quiet_SSLfatal : ntls.
Lemma quiet_fail {A} al (a : A) : always quiet (fail (W := W) al a).
Proof. unfold fail. always_tac. Qed.
Lemma quiet_check_fatal : always quiet (check_fatal (W := W)).
Proof. unfold check_fatal. always_tac. Qed.
#[local] Hint Resolve quiet_fail quiet_check_fatal : ntls.

Lemma quiet_flush : always quiet (statem_flush_ntls (W := W)).
Proof. unfold statem_flush_ntls. always_tac. Qed.
Lemma quiet_finish_handshake b b' : always quiet (tls_finish_handshake_ntls (W := W) b b').
Proof. unfold tls_finish_handshake_ntls. always_tac. Qed.
Lemma quiet_renegotiate_check : always quiet (ssl3_renegotiate_check (W := W)).
Proof. unfold ssl3_renegotiate_check, ossl_statem_set_renegotiate_ntls. always_tac. Qed.
Lemma quiet_do_change_cipher_spec : always quiet (ssl3_do_change_cipher_spec (W := W)).
Proof. unfold ssl3_do_change_cipher_spec. always_tac. Qed.
#[local] Hint Resolve quiet_flush quiet_finish_handshake quiet_renegotiate_check
  quiet_do_change_cipher_spec : ntls.

Lemma quiet_process_ccs p : always quiet (tls_process_change_cipher_spec_ntls (W := W) p).
Proof. unfold tls_process_change_cipher_spec_ntls. always_tac. Qed.
Lemma quiet_construct_ccs : always quiet (tls_construct_change_cipher_spec_ntls (W := W)).
Proof. unfold tls_construct_change_cipher_spec_ntls. always_tac. Qed.
Lemma quiet_process_finished p : always quiet (tls_process_finished_ntls (W := W) p).
Proof. unfold tls_process_finished_ntls. always_tac. Qed.
Lemma quiet_server_done p : always quiet (tls_process_server_done_ntls (W := W) p).
Proof. unfold tls_process_server_done_ntls. always_tac. Qed.
Lemma quiet_hello_req p : always quiet (tls_process_hello_req_ntls (W := W) p).
Proof. unfold tls_process_hello_req_ntls, SSL_renegotiate_abbreviated. always_tac. Qed.
Lemma quiet_post_cke : always quiet (tls_post_process_client_key_exchange_ntls (W := W)).
Proof. unfold tls_post_process_client_key_exchange_ntls. always_tac. Qed.
#[local] Hint Resolve quiet_process_ccs quiet_construct_ccs quiet_process_finished
  quiet_server_done quiet_hello_req quiet_post_cke : ntls.

Lemma quiet_post_ext f : always quiet (or_error (W := W) (call f) continue).
Proof. unfold or_error, continue. always_tac. Qed.
#[local] Hint Resolve quiet_post_ext : ntls.

(** ** The functions of the two roles *)

Lemma quiet_pre_work srv wst : always quiet (pre_work (W := W) srv wst).
Proof.
  unfold pre_work, ossl_statem_server_pre_work_ntls, ossl_statem_client_pre_work_ntls.
  destruct srv; always_tac.
Qed.

Lemma quiet_post_work srv wst : always quiet (post_work (W := W) srv wst).
Proof.
  unfold post_work, ossl_statem_server_post_work_ntls, ossl_statem_client_post_work_ntls,
    or_more, or_error, continue.
  destruct srv; always_tac.
Qed.

Lemma quiet_do_write : always quiet (statem_do_write (W := W)).
Proof. unfold statem_do_write. always_tac. Qed.

Lemma quiet_grow size : always quiet (grow_init_buf (W := W) size).
Proof. unfold grow_init_buf. always_tac. Qed.

(** Constructing the Finished message only writes our Finished value. *)
Lemma calm_construct_finished : always calm (tls_construct_finished_ntls (W := W)).
Proof.
  assert (Hq : forall A (m : M W A), always quiet m -> always calm m)
    by (intros A m H s; apply H).
  assert (Hm : forall b, always calm (final_finish_mac (W := W) b))
    by (intros b; apply Hq, quiet_finish_mac).
  assert (Hc : forall f, always calm (call (W := W) f)) by (intros f; apply Hq, quiet_call).
  assert (Hf : forall A al (a : A), always calm (fail (W := W) al a))
    by (intros A al a; apply Hq, quiet_fail).
  unfold tls_construct_finished_ntls. always_tac.
Qed.

(** The preparation of a client certificate may give the certificate up, but
    does not forget that it was requested. *)
Lemma prepare_keeps wst : always prepared (tls_prepare_client_certificate_ntls (W := W) wst).
Proof.
  assert (Hq : forall A (m : M W A), always quiet m -> always prepared m)
    by (intros A m H s; apply quiet_prepared, H).
  assert (Hb : always prepared (ssl_do_client_cert_cb_ntls (W := W)))
    by (apply Hq, quiet_client_cert_cb).
  assert (Hcb : forall cb, cert_cb (W := W) = Some cb -> always prepared cb)
    by (intros cb H; apply Hq; intros s; by apply cert_cb_quiet).
  assert (Hc : forall f, always prepared (call (W := W) f))
    by (intros f; apply Hq, quiet_call).
  assert (Hf : forall A al (a : A), always prepared (fail (W := W) al a))
    by (intros A al a; apply Hq, quiet_fail).
  unfold tls_prepare_client_certificate_ntls, prepare_more_b, prepare_done. always_tac.
  by apply Hcb.
Qed.

End Frame.

(** ** The order *)

(** ** Words *)

Record params := mk_params {
  p_hit : bool;      (** the session is resumed *)
  p_anon : bool;     (** no certificate authenticates the server *)
  p_req : bool;      (** a client certificate has been requested *)
  p_peer : bool }.   (** the client's certificate needs a CertificateVerify *)

Definition word := list event.

Definition one (w : word) : list word := [w].
Definition opt (w : word) : list word := [[]; w].
Definition cond (b : bool) (l : list word) : list word := if b then l else one [].
Fixpoint sequence (l : list (list word)) : list word :=
  match l with
  | [] => [[]]
  | x :: l => flat_map (fun w => map (app w) (sequence l)) x
  end.

(** The events of a handshake, named from the point of view of the client. *)
Record names := mk_names { toS : Z -> event; toC : Z -> event }.
Definition names_of (srv : bool) : names :=
  if srv then mk_names Rd Wr else mk_names Wr Rd.

(** A TLCP handshake: the flights of the full one (with the certificates of
    the server unless it is anonymous, and the client certificate if it was
    requested) and of the abbreviated one.  [cv] is the set of possible
    CertificateVerify messages. *)
Definition handshake (n : names) (p : params) (cv : list word) : list word :=
  let S := toS n in
  let C := toC n in
  if p_hit p then
    sequence
      [one [S SSL3_MT_CLIENT_HELLO; C SSL3_MT_SERVER_HELLO];
       opt [C SSL3_MT_NEWSESSION_TICKET];
       one [C SSL3_MT_CHANGE_CIPHER_SPEC; C SSL3_MT_FINISHED];
       one [S SSL3_MT_CHANGE_CIPHER_SPEC];
       opt [S SSL3_MT_NEXT_PROTO];
       one [S SSL3_MT_FINISHED]]
  else
    sequence
      [one [S SSL3_MT_CLIENT_HELLO; C SSL3_MT_SERVER_HELLO];
       cond (negb (p_anon p))
         (sequence [one [C SSL3_MT_CERTIFICATE]; opt [C SSL3_MT_CERTIFICATE_STATUS]]);
       one [C SSL3_MT_SERVER_KEY_EXCHANGE];
       cond (p_req p) (one [C SSL3_MT_CERTIFICATE_REQUEST]);
       one [C SSL3_MT_SERVER_DONE];
       cond (p_req p) (one [S SSL3_MT_CERTIFICATE]);
       one [S SSL3_MT_CLIENT_KEY_EXCHANGE];
       cv;
       one [S SSL3_MT_CHANGE_CIPHER_SPEC];
       opt [S SSL3_MT_NEXT_PROTO];
       one [S SSL3_MT_FINISHED];
       opt [C SSL3_MT_NEWSESSION_TICKET];
       one [C SSL3_MT_CHANGE_CIPHER_SPEC; C SSL3_MT_FINISHED]].

(** The client may have nothing to sign with; the server insists exactly when
    it has accepted a certificate. *)
Definition handshake_words (srv : bool) (p : params) : list word :=
  handshake (names_of srv) p
    (if srv then cond (p_peer p) (one [Rd SSL3_MT_CERTIFICATE_VERIFY])
     else cond (p_req p) (opt [Wr SSL3_MT_CERTIFICATE_VERIFY])).

(** ** Histories *)

(** The handshake state in which a message is read or written. *)
Definition client_state (e : event) : option OSSL_HANDSHAKE_STATE :=
  match e with
  | Wr mt =>
      if mt =? SSL3_MT_CLIENT_HELLO then Some TLS_ST_CW_CLNT_HELLO
      else if mt =? SSL3_MT_CERTIFICATE then Some TLS_ST_CW_CERT
      else if mt =? SSL3_MT_CLIENT_KEY_EXCHANGE then Some TLS_ST_CW_KEY_EXCH
      else if mt =? SSL3_MT_CERTIFICATE_VERIFY then Some TLS_ST_CW_CERT_VRFY
      else if mt =? SSL3_MT_CHANGE_CIPHER_SPEC then Some TLS_ST_CW_CHANGE
      else if mt =? SSL3_MT_NEXT_PROTO then Some TLS_ST_CW_NEXT_PROTO
      else if mt =? SSL3_MT_FINISHED then Some TLS_ST_CW_FINISHED
      else None
  | Rd mt =>
      if mt =? SSL3_MT_SERVER_HELLO then Some TLS_ST_CR_SRVR_HELLO
      else if mt =? SSL3_MT_CERTIFICATE then Some TLS_ST_CR_CERT
      else if mt =? SSL3_MT_CERTIFICATE_STATUS then Some TLS_ST_CR_CERT_STATUS
      else if mt =? SSL3_MT_SERVER_KEY_EXCHANGE then Some TLS_ST_CR_KEY_EXCH
      else if mt =? SSL3_MT_CERTIFICATE_REQUEST then Some TLS_ST_CR_CERT_REQ
      else if mt =? SSL3_MT_SERVER_DONE then Some TLS_ST_CR_SRVR_DONE
      else if mt =? SSL3_MT_NEWSESSION_TICKET then Some TLS_ST_CR_SESSION_TICKET
      else if mt =? SSL3_MT_CHANGE_CIPHER_SPEC then Some TLS_ST_CR_CHANGE
      else if mt =? SSL3_MT_FINISHED then Some TLS_ST_CR_FINISHED
      else None
  end.

Definition server_state (e : event) : option OSSL_HANDSHAKE_STATE :=
  match e with
  | Rd mt =>
      if mt =? SSL3_MT_CLIENT_HELLO then Some TLS_ST_SR_CLNT_HELLO
      else if mt =? SSL3_MT_CERTIFICATE then Some TLS_ST_SR_CERT
      else if mt =? SSL3_MT_CLIENT_KEY_EXCHANGE then Some TLS_ST_SR_KEY_EXCH
      else if mt =? SSL3_MT_CERTIFICATE_VERIFY then Some TLS_ST_SR_CERT_VRFY
      else if mt =? SSL3_MT_CHANGE_CIPHER_SPEC then Some TLS_ST_SR_CHANGE
      else if mt =? SSL3_MT_NEXT_PROTO then Some TLS_ST_SR_NEXT_PROTO
      else if mt =? SSL3_MT_FINISHED then Some TLS_ST_SR_FINISHED
      else None
  | Wr mt =>
      if mt =? SSL3_MT_SERVER_HELLO then Some TLS_ST_SW_SRVR_HELLO
      else if mt =? SSL3_MT_CERTIFICATE then Some TLS_ST_SW_CERT
      else if mt =? SSL3_MT_CERTIFICATE_STATUS then Some TLS_ST_SW_CERT_STATUS
      else if mt =? SSL3_MT_SERVER_KEY_EXCHANGE then Some TLS_ST_SW_KEY_EXCH
      else if mt =? SSL3_MT_CERTIFICATE_REQUEST then Some TLS_ST_SW_CERT_REQ
      else if mt =? SSL3_MT_SERVER_DONE then Some TLS_ST_SW_SRVR_DONE
      else if mt =? SSL3_MT_NEWSESSION_TICKET then Some TLS_ST_SW_SESSION_TICKET
      else if mt =? SSL3_MT_CHANGE_CIPHER_SPEC then Some TLS_ST_SW_CHANGE
      else if mt =? SSL3_MT_FINISHED then Some TLS_ST_SW_FINISHED
      else None
  end.

Definition event_state (srv : bool) : event -> option OSSL_HANDSHAKE_STATE :=
  if srv then server_state else client_state.

Definition event_eqb (e e' : event) : bool :=
  match e, e' with
  | Rd m, Rd m' | Wr m, Wr m' => m =? m'
  | _, _ => false
  end.

Fixpoint is_prefix (w w' : word) : bool :=
  match w, w' with
  | [], _ => true
  | e :: w, e' :: w' => event_eqb e e' && is_prefix w w'
  | _ :: _, [] => false
  end.

(** A certificate can only count as requested after the request. *)
Definition requested (srv : bool) (p : params) (w : word) : bool :=
  implb (p_req p) (existsb (event_eqb (toC (names_of srv) SSL3_MT_CERTIFICATE_REQUEST)) w).

(** [w] is a history of a connection with parameters [p]. *)
Definition viable (srv : bool) (p : params) (w : word) : bool :=
  requested srv p w && existsb (is_prefix w) (handshake_words srv p).

(** [w] is a complete handshake. *)
Definition complete (srv : bool) (p : params) (w : word) : bool :=
  existsb (fun x => is_prefix w x && is_prefix x w) (handshake_words srv p).

(** [w] is a history of a connection in handshake state [h]. *)
Definition reached (srv : bool) (p : params) (h : OSSL_HANDSHAKE_STATE) (w : word) : bool :=
  match h with
  | TLS_ST_BEFORE => is_prefix w []
  | TLS_ST_OK => complete srv p w
  | _ => match event_state srv (List.last w (Rd (-1))) with
         | Some h' => bool_decide (h' = h)
         | None => false
         end
  end && viable srv p w.

Lemma event_eqb_eq e e' : event_eqb e e' = true <-> e = e'.
Proof. destruct e, e'; cbn; rewrite ?Z.eqb_eq; split; congruence. Qed.

Fixpoint prefixes (w : word) : list word :=
  match w with
  | [] => [[]]
  | e :: w => [] :: map (cons e) (prefixes w)
  end.

Lemma is_prefix_In w w' : is_prefix w w' = true -> In w (prefixes w').
Proof.
  revert w'. induction w as [| e w IH]; intros [| e' w']; cbn; auto; [discriminate |].
  rewrite andb_true_iff, event_eqb_eq. intros [-> H]. right. by apply in_map, IH.
Qed.

Lemma is_prefix_antisym w w' : is_prefix w w' = true -> is_prefix w' w = true -> w = w'.
Proof.
  revert w'. induction w as [| e w IH]; intros [| e' w']; cbn; auto; try discriminate.
  rewrite !andb_true_iff, !event_eqb_eq. intros [-> H] [_ H']. f_equal. by apply IH.
Qed.

(** The histories. *)
Definition candidates (srv : bool) (p : params) : list word :=
  flat_map prefixes (handshake_words srv p).

Lemma reached_candidate srv p h w : reached srv p h w = true -> In w (candidates srv p).
Proof.
  unfold reached, viable, candidates. rewrite !andb_true_iff, existsb_exists, in_flat_map.
  intros [_ [_ (x & Hx & H%is_prefix_In)]]. by exists x.
Qed.

Lemma complete_In srv p w : complete srv p w = true -> In w (handshake_words srv p).
Proof.
  unfold complete. rewrite existsb_exists. setoid_rewrite andb_true_iff.
  intros (x & Hx & H & H'). by rewrite (is_prefix_antisym w x).
Qed.

(** Two finite checks: a message extends every history of a state, and a
    change of parameters keeps every history of a state. *)
Definition extends_ok srv p h e p' h' : bool :=
  forallb (fun w => implb (reached srv p h w) (reached srv p' h' (w ++ [e])))
    (candidates srv p).
Definition keeps_ok srv p h p' h' : bool :=
  forallb (fun w => implb (reached srv p h w) (reached srv p' h' w)) (candidates srv p).

Lemma reached_extend srv p h e p' h' w :
  extends_ok srv p h e p' h' = true -> reached srv p h w = true ->
  reached srv p' h' (w ++ [e]) = true.
Proof.
  unfold extends_ok. rewrite forallb_forall. intros H Hw.
  specialize (H w (reached_candidate _ _ _ _ Hw)). rewrite Hw in H. exact H.
Qed.

Lemma reached_keep srv p h p' h' w :
  keeps_ok srv p h p' h' = true -> reached srv p h w = true -> reached srv p' h' w = true.
Proof.
  unfold keeps_ok. rewrite forallb_forall. intros H Hw.
  specialize (H w (reached_candidate _ _ _ _ Hw)). rewrite Hw in H. exact H.
Qed.

(** No history ends in the state. *)
Definition none_ok srv p h : bool :=
  forallb (fun w => negb (reached srv p h w)) (candidates srv p).

Lemma reached_none srv p h w : none_ok srv p h = true -> reached srv p h w = true -> False.
Proof.
  unfold none_ok. rewrite forallb_forall. intros H Hw.
  specialize (H w (reached_candidate _ _ _ _ Hw)). rewrite Hw in H. discriminate.
Qed.
