(* ===== verification/NtlsInvariant.v ===== *)
(** * NTLS handshake: the invariant of the state machines

    The history of a connection stays a prefix of a TLCP handshake while the
    sub-state machines run, whatever the environment does within its laws and
    wherever non-blocking I/O interrupts them. *)

From S2P Require Import Prelude NtlsTypes NtlsEnv NtlsLib NtlsClient NtlsServer NtlsStatem NtlsOrder.

Section Invariant.
Context {W : Type} {E : Env W} {L : EnvLaws W}.
Variable srv : bool.
Implicit Types s : SSL W.

(** The parameters a connection has negotiated. *)
Definition params_of s : params :=
  mk_params (hit s) (no_auth s)
    (if srv then tmp_cert_request s else negb (tmp_cert_req s =? 0))
    (session_peer s && negb (no_cert_verify (statem s))).

(** A request in progress: accepted but not yet parsed, or about to be built. *)
Definition set_req (b : bool) (p : params) : params :=
  if b then mk_params (p_hit p) (p_anon p) true (p_peer p) else p.
Definition reading_request s : bool :=
  negb srv && bool_decide (hand_state (statem s) = TLS_ST_CR_CERT_REQ).
Definition writing_request s : bool :=
  srv && bool_decide (hand_state (statem s) = TLS_ST_SW_CERT_REQ).

(** What holds of the connection at every point of a first handshake. *)
Definition base s : Prop :=
  ntls_mode s /\ server s = srv
  /\ (srv = true ->
      hand_state (statem s) = TLS_ST_BEFORE \/ hand_state (statem s) = TLS_ST_SR_CLNT_HELLO ->
      tmp_finish_md s = []).

Definition at_state s : Prop :=
  hand_state (statem s) <> TLS_ST_OK
  /\ reached srv (params_of s) (hand_state (statem s)) (trace s) = true.

(** Whose turn it is after our Finished message: a client of a full handshake
    and a server of an abbreviated one wait for the peer's. *)
Definition turn s : Prop :=
  match hand_state (statem s) with
  | TLS_ST_CW_FINISHED => hit s = false
  | TLS_ST_SW_FINISHED => hit s = true
  | _ => True
  end.

Definition Ibody s : Prop :=
  base s /\ turn s /\ hand_state (statem s) <> TLS_ST_OK
  /\ reached srv (set_req (reading_request s) (params_of s)) (hand_state (statem s)) (trace s)
     = true.

Definition Iread s : Prop :=
  match read_state (statem s) with
  | READ_STATE_BODY => Ibody s
  | _ => base s /\ turn s /\ at_state s
  end.

(** The message of the state is still to be sent. *)
Definition to_send s : word := trace s ++ [Wr (sent_type srv s)].

(** The states in which nothing is written. *)
Definition written s : Prop :=
  hand_state (statem s) <> TLS_ST_BEFORE /\ hand_state (statem s) <> TLS_ST_SR_CLNT_HELLO
  /\ hand_state (statem s) <> TLS_ST_CR_SRVR_HELLO.

Definition Iwrite s : Prop :=
  base s /\
  match write_state (statem s) with
  | WRITE_STATE_TRANSITION => at_state s /\ hand_state (statem s) <> TLS_ST_CR_SRVR_HELLO
  | WRITE_STATE_POST_WORK => written s /\ at_state s
  | WRITE_STATE_PRE_WORK =>
      written s /\
      if bool_decide (hand_state (statem s) = TLS_ST_OK)
      then reached srv (params_of s) TLS_ST_OK (trace s) = true
      else reached srv (set_req (writing_request s) (params_of s)) (hand_state (statem s)) (to_send s)
           = true
  | WRITE_STATE_SEND =>
      written s /\ hand_state (statem s) <> TLS_ST_OK
      /\ reached srv (params_of s) (hand_state (statem s)) (to_send s) = true
  end.

Definition failed s : Prop := state (statem s) = MSG_FLOW_ERROR.

End Invariant.

(** Decide a membership of histories by running the two finite checks. *)
Ltac words :=
  match goal with
  | H : reached ?r ?p ?h ?w = true |- reached ?r ?p' ?h' (?w ++ [_]) = true =>
      refine (reached_extend r p h _ p' h' w _ H); vm_compute; reflexivity
  | H : reached ?r ?p ?h ?w = true |- reached ?r ?p' ?h' ?w = true =>
      refine (reached_keep r p h p' h' w _ H); vm_compute; reflexivity
  | H : reached ?r ?p ?h ?w = true |- False =>
      refine (reached_none r p h w _ H); vm_compute; reflexivity
  end.

(** Follow the tests of a transition function in a hypothesis. *)
Ltac run_ifs H :=
  repeat match type of H with
  | (if ?b then _ else _) = _ => destruct b eqn:?
  | (if ?b then _ else _) _ = _ => destruct b eqn:?
  end.

Section Transitions.
Context {W : Type} {E : Env W} {L : EnvLaws W}.
Implicit Types s : SSL W.

Lemma fail_fst {A} al (a : A) s : (fail al a s).1 = a.
Proof. unfold fail, bind. by destruct (SSLfatal_ntls al s). Qed.

(** A transition moves the handshake state, and may set [hit]. *)
Definition moved s s' : Prop :=
  trace s' = trace s /\ server s' = server s /\ (ntls_mode s -> ntls_mode s')
  /\ tmp_finish_md s' = tmp_finish_md s /\ read_state (statem s') = read_state (statem s).

Ltac read_case s HT :=
  unfold move_to in HT; apply (f_equal snd) in HT; cbn [snd] in HT; subst;
  split; [unfold moved, ntls_mode; cbn; auto | split; [cbn; discriminate | split; [exact I |]]];
  repeat match goal with H : (_ =? _) = true |- _ => apply Z.eqb_eq in H; subst end;
  repeat match goal with H : andb _ _ = true |- _ => apply andb_true_iff in H as [? H] end;
  repeat match goal with H : (_ =? _) = true |- _ => apply Z.eqb_eq in H; subst end;
  unfold params_of, set_req, reading_request in *; cbn in *;
  change (no_auth (_ <|st hand_state := _|>)) with (no_auth s) in *;
  change (no_auth (_ <|hit := _|> <|st hand_state := _|>)) with (no_auth s) in *.

Lemma client_read_reached mt s s' :
  hand_state (statem s) <> TLS_ST_OK -> turn s ->
  reached false (params_of false s) (hand_state (statem s)) (trace s) = true ->
  ossl_statem_client_read_transition_ntls mt s = (true, s') ->
  moved s s' /\ hand_state (statem s') <> TLS_ST_OK /\ turn s'
  /\ reached false (set_req (reading_request false s') (params_of false s'))
       (hand_state (statem s')) (trace s ++ [Rd mt]) = true.
Proof.
  unfold ossl_statem_client_read_transition_ntls, read_after_cert_status, read_after_key_exch,
    read_after_cert_req, key_exchange_expected, unexpected_message.
  unfold turn at 1. intros HOK HU HR HT.
  assert (HF : forall al, fail al false s = (true, s') -> False).
  { intros al HF. pose proof (fail_fst al false s). rewrite HF in H. discriminate. }
  destruct (hand_state (statem s)) eqn:Hh; try contradiction; cbn [orb andb] in HT;
    run_ifs HT; try (exfalso; eapply HF; eassumption); clear HF; read_case s HT;
    destruct (hit s), (no_auth s), (tmp_cert_req s =? 0); try discriminate; words.
Qed.

Lemma server_read_reached mt s s' :
  hand_state (statem s) <> TLS_ST_OK -> turn s -> ntls_mode s ->
  reached true (params_of true s) (hand_state (statem s)) (trace s) = true ->
  ossl_statem_server_read_transition_ntls mt s = (true, s') ->
  moved s s' /\ hand_state (statem s') <> TLS_ST_OK /\ turn s'
  /\ hand_state (statem s') <> TLS_ST_BEFORE
  /\ reached true (set_req (reading_request true s') (params_of true s'))
       (hand_state (statem s')) (trace s ++ [Rd mt]) = true.
Proof.
  unfold ossl_statem_server_read_transition_ntls, unexpected_message.
  unfold turn at 1. intros HOK HU HM HR HT.
  assert (HF : forall al, fail al false s = (true, s') -> False).
  { intros al HF. pose proof (fail_fst al false s). rewrite HF in H. discriminate. }
  assert (HV : (version s =? SSL3_VERSION) = false) by (destruct HM as [-> _]; reflexivity).
  rewrite HV in HT.
  destruct (hand_state (statem s)) eqn:Hh; try contradiction; cbn [orb andb] in HT;
    run_ifs HT; try (exfalso; eapply HF; eassumption); clear HF; read_case s HT;
    (split; [discriminate |]);
    destruct (hit s), (no_auth s), (tmp_cert_request s), (session_peer s),
      (no_cert_verify (statem s)); try discriminate; words.
Qed.

(** What a write transition establishes. *)
Definition write_post (srv : bool) (t : WRITE_TRAN) s s' : Prop :=
  match t with
  | WRITE_TRAN_CONTINUE =>
      moved s s' /\ written s'
      /\ if bool_decide (hand_state (statem s') = TLS_ST_OK)
         then reached srv (params_of srv s') TLS_ST_OK (trace s) = true
         else reached srv (set_req (writing_request srv s') (params_of srv s'))
                (hand_state (statem s')) (trace s ++ [Wr (sent_type srv s')]) = true
  | WRITE_TRAN_FINISHED => s' = s /\ turn s
  | WRITE_TRAN_ERROR => True
  end.

Ltac write_case s t s' HT :=
  unfold write_to in HT;
  first
    [ pose proof (f_equal fst HT) as Ht; rewrite fail_fst in Ht; cbn [fst] in Ht; subst t; exact I
    | pose proof (f_equal fst HT) as Ht; cbn [fst] in Ht; subst t;
      apply (f_equal snd) in HT; cbn [snd] in HT; subst s'; unfold write_post;
      try (split; [unfold moved, ntls_mode; cbn; auto | split; [split_and!; discriminate |]]);
      unfold params_of, set_req, writing_request, turn in *; cbn in *;
      change (no_auth (_ <|st hand_state := _|>)) with (no_auth s) in *;
      try (rewrite bool_decide_eq_false_2 by discriminate);
      try (rewrite bool_decide_eq_true_2 by reflexivity) ].

Lemma client_write_reached s t s' :
  ntls_mode s -> hand_state (statem s) <> TLS_ST_OK ->
  hand_state (statem s) <> TLS_ST_CR_SRVR_HELLO ->
  reached false (params_of false s) (hand_state (statem s)) (trace s) = true ->
  ossl_statem_client_write_transition_ntls s = (t, s') ->
  write_post false t s s'.
Proof.
  intros HM HOK HSH HR HT. unfold ossl_statem_client_write_transition_ntls in HT.
  destruct HM as (HV & HH & HE & HP). rewrite HH, HE in HT.
  destruct (hand_state (statem s)) eqn:Hh; try contradiction; cbn in HT;
    try (exfalso; unfold params_of in HR; destruct (hit s), (no_auth s), (tmp_cert_req s =? 0);
         words);
    run_ifs HT; write_case s t s' HT; try (split; [reflexivity | rewrite Hh; assumption || exact I]);
    destruct (hit s), (no_auth s), (tmp_cert_req s =? 0) eqn:?;
    try discriminate; try (exfalso; lia); words.
Qed.

Lemma server_write_reached s t s' :
  ntls_mode s -> hand_state (statem s) <> TLS_ST_OK ->
  (hand_state (statem s) = TLS_ST_SR_CLNT_HELLO -> tmp_finish_md s = []) ->
  reached true (params_of true s) (hand_state (statem s)) (trace s) = true ->
  ossl_statem_server_write_transition_ntls s = (t, s') ->
  write_post true t s s'.
Proof.
  intros HM HOK HF HR HT.
  unfold ossl_statem_server_write_transition_ntls, write_after_cert_status,
    write_after_key_exch, send_server_key_exchange in HT.
  destruct (hand_state (statem s)) eqn:Hh; try contradiction;
    try (exfalso; unfold params_of in HR;
         destruct (hit s), (no_auth s), (tmp_cert_request s), (session_peer s),
           (no_cert_verify (statem s)); words).
  all: try (unfold SSL_IS_FIRST_HANDSHAKE in HT; rewrite HF in HT by reflexivity;
            cbn in HT; rewrite andb_false_r in HT).
  all: run_ifs HT; write_case s t s' HT; try (split; [reflexivity | rewrite Hh; assumption || exact I]);
    destruct (hit s) eqn:?, (no_auth s), (tmp_cert_request s), (session_peer s),
      (no_cert_verify (statem s));
    try discriminate; words.
Qed.

End Transitions.
