(* ===== verification/NtlsMessageOrder.v ===== *)
(** * NTLS handshake: the state machines keep the order of the messages

    One round of the reading and of the writing sub-state machine preserves
    the invariant; so do the loops, the message flow state machine, and any
    sequence of interrupted calls. *)

From S2P Require Import Prelude NtlsTypes NtlsEnv NtlsLib NtlsClient NtlsServer NtlsStatem NtlsOrder NtlsInvariant.

Section Steps.
Context {W : Type} {E : Env W} {L : EnvLaws W}.
Variable srv : bool.
Implicit Types s : SSL W.

Lemma frame_fields s s' :
  frame s s' ->
  hand_state (statem s') = hand_state (statem s) /\ write_state (statem s') = write_state (statem s)
  /\ write_state_work (statem s') = write_state_work (statem s)
  /\ read_state (statem s') = read_state (statem s)
  /\ read_state_work (statem s') = read_state_work (statem s)
  /\ in_handshake (statem s') = in_handshake (statem s)
  /\ server s' = server s /\ trace s' = trace s.
Proof. intros (H & _ & _). unfold core in H. by simplify_eq. Qed.

Lemma frame_failed s s' : frame s s' -> failed s -> failed s'.
Proof. intros (_ & [H | H] & _) H'; unfold failed in *; congruence. Qed.

Lemma send_fatal_failed al s : failed (ossl_statem_send_fatal_ntls al s).2.
Proof.
  unfold ossl_statem_send_fatal_ntls.
  destruct (in_init (statem s) && bool_decide _) eqn:H.
  - apply andb_true_iff in H as [_ H%bool_decide_eq_true]. exact H.
  - destruct (negb _ && _); [| reflexivity].
    pose proof (quiet_ext (ssl3_send_alert SSL3_AL_FATAL al)
                  (s <|st in_init := true|> <|st state := MSG_FLOW_ERROR|>)) as Hq.
    unfold bind. destruct (ext _ _) as [r s1].
    exact (frame_failed _ _ (quiet_frame _ _ Hq) eq_refl).
Qed.

Lemma fail_failed {A} al (a : A) s : failed (fail al a s).2.
Proof.
  unfold fail, bind, SSLfatal_ntls. pose proof (send_fatal_failed al s) as H.
  by destruct (ossl_statem_send_fatal_ntls al s).
Qed.

Lemma check_fatal_failed s : failed (check_fatal s).2.
Proof.
  unfold check_fatal, SSLfatal_ntls. destruct (in_init (statem s) && bool_decide _) eqn:H.
  - apply andb_true_iff in H as [_ H%bool_decide_eq_true]. exact H.
  - apply send_fatal_failed.
Qed.

Lemma params_calm s s' : calm s s' -> params_of srv s' = params_of srv s.
Proof.
  intros (_ & [C1 C2] & [R1 R2] & [P1 P2]). unfold params_of, no_auth, cipher_auth.
  by rewrite C1, C2, R1, R2, P1, P2.
Qed.

Lemma base_frame s s' :
  base srv s -> frame s s' -> same_fin s s' -> base srv s'.
Proof.
  intros (HM & HS & HF) HR HN. pose proof (frame_fields _ _ HR) as (Hh & _ & _ & _ & _ & _ & Hs & _).
  split; [by apply HR |]. split; [congruence |]. rewrite Hh, HN. exact HF.
Qed.

Lemma base_quiet s s' : base srv s -> quiet s s' -> base srv s'.
Proof. intros H Q. eapply base_frame; [exact H | by apply quiet_frame | apply Q]. Qed.

Lemma turn_quiet s s' : turn s -> quiet s s' -> turn s'.
Proof.
  intros H Q. pose proof (frame_fields _ _ (quiet_frame _ _ Q)) as (Hh & _).
  destruct Q as [(_ & [Hi _] & _) _]. unfold turn. by rewrite Hh, Hi.
Qed.

Lemma at_state_quiet s s' : at_state srv s -> quiet s s' -> at_state srv s'.
Proof.
  intros [H1 H2] Q. pose proof (frame_fields _ _ (quiet_frame _ _ Q)) as (Hh & _ & _ & _ & _ & _ & _ & Ht).
  unfold at_state. rewrite Hh, Ht, (params_calm s s') by apply Q. auto.
Qed.

Lemma Ibody_quiet s s' : Ibody srv s -> quiet s s' -> Ibody srv s'.
Proof.
  intros (HB & HT & H1 & H2) Q.
  pose proof (frame_fields _ _ (quiet_frame _ _ Q)) as (Hh & _ & _ & _ & _ & _ & _ & Ht).
  split; [eapply base_quiet; eassumption |]. split; [eapply turn_quiet; eassumption |].
  unfold reading_request. rewrite Hh, Ht, (params_calm s s') by apply Q. auto.
Qed.

Lemma Iread_quiet s s' : Iread srv s -> quiet s s' -> Iread srv s'.
Proof.
  intros H Q. pose proof (frame_fields _ _ (quiet_frame _ _ Q)) as (_ & _ & _ & Hr & _).
  unfold Iread in *. rewrite Hr.
  destruct (read_state (statem s)); try (by eapply Ibody_quiet).
  all: destruct H as (HB & HT & HA).
  all: split; [by eapply base_quiet |]; split; [by eapply turn_quiet | by eapply at_state_quiet].
Qed.

(** ** Processing a message *)

Definition processed (r : MSG_PROCESS_RETURN) s : Prop :=
  r = MSG_PROCESS_ERROR
  \/ base srv s /\ turn s /\ at_state srv s
     /\ (r = MSG_PROCESS_FINISHED_READING -> hand_state (statem s) <> TLS_ST_CR_SRVR_HELLO).

(** A handler that does not negotiate. *)
Lemma quiet_processed p (f : list Z -> M W MSG_PROCESS_RETURN) s :
  always quiet (f p) -> Ibody srv s -> reading_request srv s = false ->
  hand_state (statem s) <> TLS_ST_CR_SRVR_HELLO ->
  frame s (f p s).2 /\ processed (f p s).1 (f p s).2.
Proof.
  intros Q HI HR HH. specialize (Q s). split; [by apply quiet_frame |]. right.
  destruct HI as (HB & HT & H1 & H2). rewrite HR in H2.
  split; [by eapply base_quiet |]. split; [by eapply turn_quiet |].
  split; [eapply at_state_quiet; [split; eassumption | exact Q] |].
  intros _. by rewrite (proj1 (frame_fields _ _ (quiet_frame _ _ Q))).
Qed.

Lemma quiet_process f p : sets_cipher f = false -> sets_req f = false -> sets_peer f = false ->
  always quiet (process (W := W) f p).
Proof.
  intros H1 H2 H3 s.
  split; [split; [apply process_frame | split; [by apply process_cipher |]] | apply process_fin].
  split; [by apply process_req | by apply process_peer].
Qed.

(** A message that negotiates: the frame, and the new parameters. *)
Lemma process_negotiates f p s :
  Ibody srv s ->
  reached srv (params_of srv (process f p s).2) (hand_state (statem s)) (trace s) = true ->
  (forall b, turn (s <|hit := b|>)) ->
  ((process f p s).1 = MSG_PROCESS_FINISHED_READING ->
   hand_state (statem s) <> TLS_ST_CR_SRVR_HELLO) ->
  frame s (process f p s).2 /\ processed (process f p s).1 (process f p s).2.
Proof.
  intros (HB & _ & HO & _) HR HT HH. pose proof (process_frame f p s) as HF.
  pose proof (frame_fields _ _ HF) as (Hh & _ & _ & _ & _ & _ & _ & Ht).
  split; [exact HF |]. right. split; [eapply base_frame; [exact HB | exact HF | apply process_fin] |].
  split; [specialize (HT (hit (process f p s).2)); unfold turn in *; by rewrite Hh |].
  split; [split; rewrite ?Hh, ?Ht; auto | by rewrite Hh].
Qed.



End Steps.

Section Process.
Context {W : Type} {E : Env W} {L : EnvLaws W}.
Implicit Types s : SSL W.

Ltac quiet_case := intros; apply quiet_processed;
  [ first [ by apply quiet_process | apply quiet_server_done | apply quiet_process_ccs
          | apply quiet_process_finished | apply quiet_hello_req ]
  | assumption
  | unfold reading_request; match goal with H : hand_state _ = _ |- _ => rewrite H end; reflexivity
  | congruence ].

Lemma client_process p s :
  Ibody false s ->
  frame s (ossl_statem_client_process_message_ntls p s).2
  /\ processed false (ossl_statem_client_process_message_ntls p s).1
       (ossl_statem_client_process_message_ntls p s).2.
Proof.
  intros HI. unfold ossl_statem_client_process_message_ntls.
  destruct (hand_state (statem s)) eqn:Hh; try quiet_case;
    try (split; [apply quiet_frame, quiet_fail | left; apply fail_fst]).
  - (* ServerHello *)
    apply process_negotiates; [exact HI | | |].
    + destruct HI as (HB & _ & _ & HR). rewrite Hh in *.
      pose proof (process_req tls_process_server_hello_ntls p s eq_refl) as [Hreq _].
      unfold params_of, set_req, reading_request in *. rewrite Hh in HR. cbn in HR. rewrite Hreq.
      destruct (hit s), (no_auth s), (tmp_cert_req s =? 0), (hit _), (no_auth _); words.
    + intros b. unfold turn. cbn. by rewrite Hh.
    + intros HF. exfalso. eapply server_hello_continues; [apply HI | exact HF].
  - (* CertificateRequest *)
    pose proof (process_cert_req p s) as Hne.
    destruct (decide ((process tls_process_certificate_request_ntls p s).1 = MSG_PROCESS_ERROR))
      as [Hr | Hr]; [split; [apply process_frame | by left] |].
    specialize (Hne Hr).
    apply process_negotiates; [exact HI | | |].
    + destruct HI as (HB & _ & _ & HR). rewrite Hh in *.
      pose proof (process_cipher tls_process_certificate_request_ntls p s eq_refl) as [Hhit Hc].
      unfold params_of, set_req, reading_request in *. rewrite Hh in HR. cbn in HR.
      apply Z.eqb_neq in Hne. unfold no_auth, cipher_auth in *. rewrite Hhit, Hc, Hne. cbn.
      destruct (hit s), (flag _ _); words.
    + intros b. unfold turn. cbn. by rewrite Hh.
    + congruence.
Qed.

Lemma server_process p s :
  Ibody true s ->
  frame s (ossl_statem_server_process_message_ntls p s).2
  /\ processed true (ossl_statem_server_process_message_ntls p s).1
       (ossl_statem_server_process_message_ntls p s).2.
Proof.
  intros HI. unfold ossl_statem_server_process_message_ntls.
  destruct (hand_state (statem s)) eqn:Hh; try quiet_case;
    try (split; [apply quiet_frame, quiet_fail | left; apply fail_fst]).
  - (* ClientHello *)
    apply process_negotiates; [exact HI | | |].
    + destruct HI as (HB & _ & _ & HR). rewrite Hh in *.
      pose proof (process_req tls_process_client_hello_ntls p s eq_refl) as [_ Hreq].
      unfold params_of, set_req, reading_request in *. cbn in HR. rewrite Hreq.
      destruct (hit s), (no_auth s), (tmp_cert_request s), (session_peer s && _), (hit _),
        (no_auth _), (session_peer _ && _); words.
    + intros b. unfold turn. cbn. by rewrite Hh.
    + congruence.
  - (* Certificate *)
    apply process_negotiates; [exact HI | | |].
    + destruct HI as (HB & _ & _ & HR). rewrite Hh in *.
      pose proof (process_req tls_process_client_certificate_ntls p s eq_refl) as [_ Hreq].
      pose proof (process_cipher tls_process_client_certificate_ntls p s eq_refl) as [Hhit Hc].
      unfold params_of, set_req, reading_request, no_auth, cipher_auth in *. cbn in HR.
      rewrite Hreq, Hhit, Hc.
      destruct (hit s), (flag _ _), (tmp_cert_request s), (session_peer s && _),
        (session_peer _ && _); words.
    + intros b. unfold turn. cbn. by rewrite Hh.
    + congruence.
Qed.

(** ** Post-processing a message *)

Definition worked (srv : bool) (w : WORK_STATE) s : Prop :=
  w = WORK_ERROR
  \/ base srv s /\ turn s /\ at_state srv s
     /\ (w = WORK_FINISHED_STOP -> hand_state (statem s) <> TLS_ST_CR_SRVR_HELLO).

(** The post-processing steps keep the frame, and their states are not ones
    the turn depends on. *)
Lemma frame_worked srv w s s' :
  frame s s' -> same_fin s s' -> base srv s -> hand_state (statem s) <> TLS_ST_OK ->
  (forall b, turn (s <|hit := b|>)) -> hand_state (statem s) <> TLS_ST_CR_SRVR_HELLO ->
  reached srv (params_of srv s') (hand_state (statem s)) (trace s) = true ->
  worked srv w s'.
Proof.
  intros HF HN HB HO HT HH HR.
  pose proof (frame_fields _ _ HF) as (Hh & _ & _ & _ & _ & _ & _ & Ht).
  right. split; [by eapply base_frame |].
  split; [specialize (HT (hit s')); unfold turn in *; by rewrite Hh |].
  split; [split; rewrite ?Hh, ?Ht; auto | by rewrite Hh].
Qed.

Lemma post_process_worked srv wst s :
  base srv s -> turn s -> at_state srv s ->
  let r := post_process_message srv wst s in frame s r.2 /\ worked srv r.1 r.2.
Proof.
  intros HB HT [HO HR]. unfold post_process_message.
  destruct srv; [unfold ossl_statem_server_post_process_message_ntls
                |unfold ossl_statem_client_post_process_message_ntls];
    destruct (hand_state (statem s)) eqn:Hh;
    try (split; [apply quiet_frame, quiet_fail | left; apply fail_fst]).
  - (* ClientHello *)
    split; [apply work_frame |].
    eapply frame_worked; try eassumption; try congruence;
      [apply work_frame | apply work_fin | intros b; unfold turn; cbn; by rewrite Hh |].
    pose proof (work_client_hello wst s) as [_ Hreq]. rewrite Hh. unfold params_of in *.
    rewrite Hreq.
    destruct (hit s), (no_auth s), (tmp_cert_request s), (session_peer s && _), (hit _),
      (no_auth _), (session_peer _ && _); words.
  - (* ClientKeyExchange *)
    pose proof (quiet_post_cke s) as Q. split; [by apply quiet_frame |].
    eapply frame_worked; try eassumption; try congruence;
      [by apply quiet_frame | apply Q | intros b; unfold turn; cbn; by rewrite Hh |].
    rewrite (params_calm true s), Hh; [exact HR | apply Q].
  - (* Certificate *)
    split; [apply work_frame |].
    eapply frame_worked; try eassumption; try congruence;
      [apply work_frame | apply work_fin | intros b; unfold turn; cbn; by rewrite Hh |].
    pose proof (work_server_certificate wst s) as [[Hhit Hc] [Hreq _]]. rewrite Hh.
    unfold params_of, no_auth, cipher_auth in *. rewrite Hreq, Hhit, Hc.
    destruct (hit s), (flag _ _), (tmp_cert_req s =? 0); words.
  - (* CertificateRequest *)
    pose proof (prepare_keeps wst s) as (HF & [Hhit Hc] & _ & HN & _ & Hreq).
    split; [exact HF |].
    eapply frame_worked; try eassumption; try congruence;
      [intros b; unfold turn; cbn; by rewrite Hh |].
    rewrite Hh. unfold params_of, no_auth, cipher_auth in *. rewrite Hhit, Hc.
    destruct (tmp_cert_req s =? 0) eqn:Hr.
    + exfalso. destruct (hit s), (flag _ _); words.
    + apply Z.eqb_neq, Hreq, Z.eqb_neq in Hr. rewrite Hr.
      destruct (hit s), (flag _ _); words.
Qed.

Lemma process_processed srv p s :
  Ibody srv s ->
  let r := process_message srv p s in frame s r.2 /\ processed srv r.1 r.2.
Proof. destruct srv; [apply server_process | apply client_process]. Qed.

Lemma read_transition_reached srv mt s s' :
  base srv s -> turn s -> at_state srv s -> read_transition srv mt s = (true, s') ->
  moved s s' /\ base srv s' /\ turn s' /\ hand_state (statem s') <> TLS_ST_OK
  /\ reached srv (set_req (reading_request srv s') (params_of srv s'))
       (hand_state (statem s')) (trace s ++ [Rd mt]) = true.
Proof.
  intros (HM & HS & HF) HT [HO HR] Hr. destruct srv.
  - destruct (server_read_reached mt s s' HO HT HM HR Hr) as (Hm & HO' & HT' & HB' & HR').
    pose proof Hm as (_ & Hs & Hmode & Hfin & _).
    split; [exact Hm |]. split; [| auto]. split; [auto |]. split; [congruence |].
    intros _ [HB | HB]; [contradiction |]. rewrite Hfin. apply HF; [reflexivity |].
    left. (* only from the initial state *)
    revert Hr HB. unfold read_transition, ossl_statem_server_read_transition_ntls, unexpected_message.
    pose proof (fun al => fail_fst (A := bool) al false s) as Hf.
    destruct (hand_state (statem s)); try contradiction; intros Hr; run_ifs Hr;
      try (exfalso; pose proof (f_equal fst Hr) as Hr1; rewrite Hf in Hr1; discriminate);
      unfold move_to in Hr; apply (f_equal snd) in Hr; cbn [snd] in Hr; subst s'; cbn; congruence.
  - destruct (client_read_reached mt s s' HO HT HR Hr) as (Hm & HO' & HT' & HR').
    pose proof Hm as (_ & Hs & Hmode & Hfin & _).
    split; [exact Hm |]. split; [| auto]. split; [auto |]. split; [congruence | discriminate].
Qed.

End Process.
