(* ===== verification/NtlsHandshake.v ===== *)
(** * NTLS handshake: runs of the state machines

    The invariant of the sub-state machines round by round, along their loops
    and along the interrupted calls of the message flow state machine; the
    order of the messages of a successful handshake. *)

From S2P Require Import Prelude NtlsTypes NtlsEnv NtlsLib NtlsClient NtlsServer NtlsStatem NtlsOrder NtlsInvariant NtlsMessageOrder.

Section Rounds.
Context {W : Type} {E : Env W} {L : EnvLaws W}.
Variable srv : bool.
Implicit Types s : SSL W.

Definition ready s : Prop := base srv s /\ turn s /\ at_state srv s.

Lemma ready_quiet s s' : ready s -> quiet s s' -> ready s'.
Proof.
  intros (HB & HT & HA) Q.
  split; [by eapply base_quiet | split; [by eapply turn_quiet | by eapply at_state_quiet]].
Qed.

(** Assigning a sub-state does not matter to [ready]. *)
Lemma ready_read_state s r : ready s -> ready (s <|st read_state := r|>).
Proof. intros H. exact H. Qed.
Lemma ready_read_work s w : ready s -> ready (s <|st read_state_work := w|>).
Proof. intros H. exact H. Qed.

Lemma check_fatal_stop s : exists s', check_fatal s = (tt, s') /\ failed s'.
Proof.
  pose proof (check_fatal_failed s) as H. destruct (check_fatal s) as [[] s']. by exists s'.
Qed.

(** ** Reading *)

Definition read_post (r : option SUB_STATE_RETURN) s : Prop :=
  match r with
  | None => Iread srv s
  | Some SUB_STATE_FINISHED =>
      base srv s /\ at_state srv s /\ hand_state (statem s) <> TLS_ST_CR_SRVR_HELLO
  | Some SUB_STATE_ERROR => failed s \/ Iread srv s
  | Some SUB_STATE_END_HANDSHAKE => False
  end.

Lemma read_body_post s :
  Ibody srv s -> read_state (statem s) = READ_STATE_BODY ->
  read_post (read_body srv s).1 (read_body srv s).2.
Proof.
  intros HI Hr. unfold read_body, bind, modify.
  pose proof (quiet_body s) as Q. destruct (tls_get_message_body_ntls s) as [[pkt |] s1].
  2: { right. eapply Iread_quiet; [| exact Q]. unfold Iread. by rewrite Hr. }
  cbn [snd] in Q. pose proof (Ibody_quiet srv _ _ HI Q) as HI1.
  assert (Q2 : quiet s1 (s1 <|first_packet := false|>)) by assign_tac.
  pose proof (process_processed srv pkt _ (Ibody_quiet srv _ _ HI1 Q2)) as HP.
  destruct (process_message srv pkt (s1 <|first_packet := false|>)) as [r s2].
  destruct HP as [HF HP]. cbn [fst snd] in *.
  assert (Q3 : quiet s2 (s2 <|init_num := 0|>)) by assign_tac.
  destruct HP as [-> | (HB & HT & HA & HH)].
  - destruct (check_fatal_stop (s2 <|init_num := 0|>)) as (s' & -> & H). by left.
  - assert (HR : ready (s2 <|init_num := 0|>)) by (eapply ready_quiet; [| exact Q3]; repeat split; assumption || apply HB || apply HA).
    destruct r; cbn.
    + destruct (check_fatal_stop (s2 <|init_num := 0|>)) as (s' & -> & H). by left.
    + split; [apply HR | split; [apply HR | apply HH; reflexivity]].
    + exact HR.
    + exact HR.
Qed.

(** A refused message is a fatal error, and changes nothing else. *)
Lemma read_transition_fails mt s :
  (read_transition srv mt s).1 = false ->
  exists al, read_transition srv mt s = fail al false s.
Proof.
  unfold read_transition, ossl_statem_server_read_transition_ntls,
    ossl_statem_client_read_transition_ntls, read_after_cert_status, read_after_key_exch,
    read_after_cert_req, key_exchange_expected, unexpected_message.
  destruct srv; destruct (hand_state (statem s)); cbn [orb];
    repeat match goal with
    | |- context [if ?b then _ else _] => destruct b
    end; try discriminate; intros _; eexists; reflexivity.
Qed.

Lemma read_transition_false mt s :
  (read_transition srv mt s).1 = false -> failed (read_transition srv mt s).2.
Proof. intros [al ->]%read_transition_fails. apply fail_failed. Qed.

Lemma read_transition_refused mt s :
  (read_transition srv mt s).1 = false -> quiet s (read_transition srv mt s).2.
Proof. intros [al ->]%read_transition_fails. apply quiet_fail. Qed.

Lemma read_header_post s :
  ready s -> read_state (statem s) = READ_STATE_HEADER ->
  read_post (read_header srv s).1 (read_header srv s).2.
Proof.
  intros HI Hr. unfold read_header, bind, record, modify, get.
  pose proof (quiet_header s) as Q. destruct (tls_get_message_header_ntls s) as [[mt |] s1];
    cbn [snd] in Q; pose proof (ready_quiet _ _ HI Q) as (HB & HT & HA).
  2: { right. unfold Iread. cbn [snd stop ret].
       rewrite (proj1 (proj2 (proj2 (proj2 (frame_fields _ _ (quiet_frame _ _ Q)))))), Hr.
       split; [exact HB | split; assumption]. }
  pose proof (read_transition_false mt s1) as Hfalse.
  pose proof (read_transition_reached srv mt s1 (read_transition srv mt s1).2 HB HT HA) as Htrue.
  destruct (read_transition srv mt s1) as [[|] s2]; cbn [fst snd] in *;
    [| left; by apply Hfalse].
  destruct (Htrue eq_refl) as ((Ht & _) & HB2 & HT2 & HO2 & HR2). clear Hfalse Htrue.
  cbn [negb]. set (s3 := s2 <|trace := trace s2 ++ [Rd mt]|>).
  assert (HI3 : Ibody srv s3).
  { split; [exact HB2 | split; [exact HT2 | split; [exact HO2 |]]]. cbn. rewrite Ht. exact HR2. }
  clearbody s3. clear -HI3 L.
  destruct (max_message_size srv s3 <? tmp_message_size s3).
  { pose proof (fail_failed SSL_AD_ILLEGAL_PARAMETER (Some SUB_STATE_ERROR) s3) as Hf.
    pose proof (fail_fst SSL_AD_ILLEGAL_PARAMETER (Some SUB_STATE_ERROR) s3) as Hr.
    rewrite Hr. left. exact Hf. }
  assert (Hg : always quiet (if 0 <? tmp_message_size s3
                             then grow_init_buf (tmp_message_size s3 + SSL3_HM_HEADER_LENGTH)
                             else ret true)).
  { apply always_if; [apply quiet_grow | apply always_ret; typeclasses eauto]. }
  specialize (Hg s3). revert Hg.
  generalize ((if 0 <? tmp_message_size s3
               then grow_init_buf (tmp_message_size s3 + SSL3_HM_HEADER_LENGTH)
               else ret true) s3).
  intros [[|] s4] Hg; cbn [snd negb] in *.
  - apply read_body_post; [| reflexivity]. exact (Ibody_quiet srv _ _ HI3 Hg).
  - pose proof (fail_failed SSL_AD_INTERNAL_ERROR (Some SUB_STATE_ERROR) s4) as Hf.
    rewrite fail_fst. left. exact Hf.
Qed.

(** The common end of the work steps: an error is fatal, a wait keeps the
    state. *)
Lemma read_post_process_post s :
  ready s -> read_state (statem s) = READ_STATE_POST_PROCESS ->
  read_post (read_post_process srv s).1 (read_post_process srv s).2.
Proof.
  intros (HB & HT & HA) Hr. unfold read_post_process, bind, modify.
  pose proof (post_process_worked srv (read_state_work (statem s)) s HB HT HA) as HW.
  destruct (post_process_message srv _ s) as [w s1]. destruct HW as [HF HW]. cbn [fst snd] in *.
  pose proof (frame_fields _ _ HF) as (_ & _ & _ & Hrs & _). rewrite Hr in Hrs.
  destruct HW as [-> | (HB' & HT' & HA' & HH)].
  - destruct (check_fatal_stop (s1 <|st read_state_work := WORK_ERROR|>)) as (s' & -> & H). by left.
  - destruct w; cbn.
    + destruct (check_fatal_stop (s1 <|st read_state_work := WORK_ERROR|>)) as (s' & -> & H). by left.
    + split; [exact HB' | split; [exact HA' | by apply HH]].
    + split; [exact HB' | split; assumption].
    + right. unfold Iread. cbn. rewrite Hrs. split; [exact HB' | split; assumption].
    + right. unfold Iread. cbn. rewrite Hrs. split; [exact HB' | split; assumption].
    + right. unfold Iread. cbn. rewrite Hrs. split; [exact HB' | split; assumption].
Qed.

Lemma read_step_post s : Iread srv s -> read_post (read_step srv s).1 (read_step srv s).2.
Proof.
  unfold Iread, read_step. destruct (read_state (statem s)) eqn:Hr; intros H.
  - by apply read_header_post.
  - by apply read_body_post.
  - by apply read_post_process_post.
Qed.

(** ** Writing *)

Definition write_round (r : option SUB_STATE_RETURN) s : Prop :=
  match r with
  | None => Iwrite srv s
  | Some SUB_STATE_FINISHED => ready s
  | Some SUB_STATE_END_HANDSHAKE =>
      ntls_mode s /\ hand_state (statem s) = TLS_ST_OK
      /\ reached srv (params_of srv s) TLS_ST_OK (trace s) = true
  | Some SUB_STATE_ERROR => failed s \/ Iwrite srv s
  end.

Lemma base_written s s' : base srv s -> frame s s' -> written s -> base srv s'.
Proof.
  intros (HM & HS & _) HF (H1 & H2 & _).
  pose proof (frame_fields _ _ HF) as (Hh & _ & _ & _ & _ & _ & Hs & _).
  split; [by apply HF |]. split; [congruence |]. rewrite Hh. intros _ [H | H]; contradiction.
Qed.

Lemma sent_type_hand s s' :
  hand_state (statem s') = hand_state (statem s) -> sent_type srv s' = sent_type srv s.
Proof.
  intros H. unfold sent_type, get_construct_message, ossl_statem_server_construct_message_ntls,
    ossl_statem_client_construct_message_ntls.
  by destruct srv; rewrite H.
Qed.

Lemma Iwrite_quiet s s' : Iwrite srv s -> quiet s s' -> Iwrite srv s'.
Proof.
  intros [HB H] Q. pose proof (frame_fields _ _ (quiet_frame _ _ Q)) as (Hh & Hw & _ & _ & _ & _ & _ & Ht).
  split; [by eapply base_quiet |]. unfold written, to_send, writing_request, at_state in *.
  rewrite Hw, Hh, Ht, (sent_type_hand s s' Hh), (params_calm srv s s') by apply Q.
  exact H.
Qed.

Lemma write_transition_post s t s' :
  base srv s -> at_state srv s -> hand_state (statem s) <> TLS_ST_CR_SRVR_HELLO ->
  write_transition srv s = (t, s') -> write_post srv t s s'.
Proof.
  intros (HM & HS & HF) [HO HR] HH HT. destruct srv.
  - apply server_write_reached; auto.
  - apply client_write_reached; auto.
Qed.

Lemma write_tran_post s :
  Iwrite srv s -> write_state (statem s) = WRITE_STATE_TRANSITION ->
  write_round (write_tran srv s).1 (write_tran srv s).2.
Proof.
  intros [HB HI] Hw. rewrite Hw in HI. destruct HI as [HA HH].
  unfold write_tran, bind, modify.
  pose proof (write_transition_post s (write_transition srv s).1 (write_transition srv s).2 HB HA HH
                (surjective_pairing _)) as HP.
  destruct (write_transition srv s) as [t s1]. cbn [fst snd] in HP. destruct t; cbn.
  - destruct (check_fatal_stop s1) as (s' & -> & H). by left.
  - destruct HP as ((Ht & Hs & Hm & _ & _) & HW & HP).
    destruct HB as (HM & HS & HF). split; [| split; [exact HW |]].
    + split; [by apply Hm |]. split; [cbn; congruence |].
      intros _ [H | H]; exfalso; [apply (proj1 HW) | apply (proj1 (proj2 HW))]; exact H.
    + unfold to_send. rewrite (sent_type_hand s1) by reflexivity. cbn. rewrite Ht. exact HP.
  - destruct HP as [-> HT]. split; [exact HB | split; [exact HT | exact HA]].
Qed.

Lemma post_work_not_stop w s : (post_work srv w s).1 <> WORK_FINISHED_STOP.
Proof.
  unfold post_work, ossl_statem_server_post_work_ntls, ossl_statem_client_post_work_ntls,
    or_more, or_error, continue, bind, modify, ret.
  destruct srv; destruct (hand_state _); cbn;
    repeat match goal with
    | |- context [if ?b then _ else _] => destruct b
    | |- context [let '(_, _) := ?x in _] => destruct x as [[|] ?]; cbn
    end; discriminate.
Qed.

Lemma write_post_work_post s :
  Iwrite srv s -> write_state (statem s) = WRITE_STATE_POST_WORK ->
  write_round (write_post_work srv s).1 (write_post_work srv s).2.
Proof.
  intros HI Hw. unfold write_post_work, bind, modify.
  pose proof (quiet_post_work srv (write_state_work (statem s)) s) as Q.
  pose proof (post_work_not_stop (write_state_work (statem s)) s) as HS.
  destruct (post_work srv _ s) as [w s1]. cbn [fst snd] in *.
  pose proof (Iwrite_quiet _ _ HI Q) as [HB HI1].
  pose proof (frame_fields _ _ (quiet_frame _ _ Q)) as (_ & Hw1 & _). rewrite Hw in Hw1.
  rewrite Hw1 in HI1. destruct HI1 as [HW HA].
  destruct w; cbn.
  - destruct (check_fatal_stop (s1 <|st write_state_work := WORK_ERROR|>)) as (s' & -> & H). by left.
  - contradiction.
  - split; [exact HB | split; [exact HA | apply HW]].
  - right. split; [exact HB |]. cbn. rewrite Hw1. split; assumption.
  - right. split; [exact HB |]. cbn. rewrite Hw1. split; assumption.
  - right. split; [exact HB |]. cbn. rewrite Hw1. split; assumption.
Qed.

Lemma write_send_post s :
  Iwrite srv s -> write_state (statem s) = WRITE_STATE_SEND ->
  write_round (write_send srv s).1 (write_send srv s).2.
Proof.
  intros HI Hw. unfold write_send, bind, record, to_post_work, modify.
  pose proof (quiet_do_write s) as Q. destruct (statem_do_write s) as [r s1]. cbn [snd] in Q.
  pose proof (Iwrite_quiet _ _ HI Q) as HI1.
  pose proof (frame_fields _ _ (quiet_frame _ _ Q)) as (Hh & Hw1 & _). rewrite Hw in Hw1.
  destruct (r <=? 0); [right; exact HI1 |].
  apply write_post_work_post; [| reflexivity].
  destruct HI1 as [HB HI1]. rewrite Hw1 in HI1. destruct HI1 as (HW & HO & HR).
  split; [exact HB | split; [exact HW | split; [exact HO |]]].
  unfold to_send in HR. rewrite (sent_type_hand s s1 Hh) in HR. exact HR.
Qed.

(** A constructor that succeeds leaves the parameters of the message it has
    built. *)
Lemma confunc_post s f mt :
  ntls_mode s -> get_construct_message srv s = Some (f, mt) ->
  frame s (run_confunc f s).2
  /\ ((run_confunc f s).1 = true ->
      params_of srv (run_confunc f s).2 = set_req (writing_request srv s) (params_of srv s)).
Proof.
  intros HM HC.
  assert (Hcalm : calm s (run_confunc f s).2 -> writing_request srv s = false ->
          frame s (run_confunc f s).2
          /\ ((run_confunc f s).1 = true ->
              params_of srv (run_confunc f s).2 = set_req (writing_request srv s) (params_of srv s))).
  { intros Hc ->. split; [apply Hc |]. intros _. by apply params_calm. }
  assert (Hcon : forall g, g <> tls_construct_certificate_request_ntls -> calm s (construct g s).2).
  { intros g Hg. split; [apply construct_frame |]. split; [by apply construct_cipher |].
    split; [by apply construct_req | by apply construct_peer]. }
  revert HC. unfold get_construct_message, ossl_statem_server_construct_message_ntls,
    ossl_statem_client_construct_message_ntls, writing_request in *.
  destruct srv; destruct (hand_state (statem s)) eqn:Hh; intros [= <- <-]; cbn [run_confunc] in *;
    try (apply Hcalm; [ first [ by apply Hcon | apply quiet_construct_ccs
                              | apply calm_construct_finished | reflexivity ]
                      | reflexivity ]).
  (* the CertificateRequest *)
  split; [apply construct_frame |]. intros Hok.
  pose proof (construct_cipher tls_construct_certificate_request_ntls s HM) as [Hc1 Hc2].
  pose proof (construct_peer tls_construct_certificate_request_ntls s HM) as [Hp1 Hp2].
  unfold params_of, set_req, no_auth, cipher_auth. rewrite Hc1, Hc2, Hp1, Hp2.
  by rewrite (construct_cert_request s Hok).
Qed.

Lemma fail_stop al s :
  exists s', fail al (Some SUB_STATE_ERROR) s = (Some SUB_STATE_ERROR, s') /\ failed s'.
Proof.
  pose proof (fail_failed al (Some SUB_STATE_ERROR) s) as H1.
  pose proof (fail_fst al (Some SUB_STATE_ERROR) s) as H2.
  destruct (fail al _ s) as [r s']. cbn in *. subst. by exists s'.
Qed.

(** Two calls that must both succeed. *)
Lemma quiet_both f g :
  always quiet (let* ok := call (W := W) f in if ok then call g else ret false).
Proof.
  apply always_bind; [typeclasses eauto | apply quiet_call |]. intros [|].
  - apply quiet_call.
  - apply always_ret; typeclasses eauto.
Qed.

(** About to send: the message is built, or is being built. *)
Definition sending s : Prop :=
  base srv s /\ write_state (statem s) = WRITE_STATE_SEND /\ written s
  /\ hand_state (statem s) <> TLS_ST_OK
  /\ reached srv (set_req (writing_request srv s) (params_of srv s)) (hand_state (statem s))
       (to_send srv s) = true.

Lemma sending_quiet s s' : sending s -> quiet s s' -> sending s'.
Proof.
  intros (HB & Hw & HW & HO & HR) Q.
  pose proof (frame_fields _ _ (quiet_frame _ _ Q)) as (Hh & Hw' & _ & _ & _ & _ & _ & Ht).
  split; [by eapply base_quiet |]. unfold written, to_send, writing_request in *.
  rewrite Hw', Hh, Ht, (sent_type_hand s s' Hh), (params_calm srv s s') by apply Q. auto.
Qed.

Lemma write_construct_post s f mt :
  sending s -> get_construct_message srv s = Some (f, mt) ->
  write_round (write_construct srv f mt s).1 (write_construct srv f mt s).2.
Proof.
  intros HI HC.
  assert (HCq : forall s', quiet s s' -> get_construct_message srv s' = Some (f, mt)).
  { intros s' Q. pose proof (frame_fields _ _ (quiet_frame _ _ Q)) as (Hh & _).
    revert HC. unfold get_construct_message, ossl_statem_server_construct_message_ntls,
      ossl_statem_client_construct_message_ntls. destruct srv; by rewrite Hh. }
  pose proof (quiet_both WPACKET_init (ssl_set_handshake_header mt) s) as Q1.
  unfold write_construct, bind in *. destruct (call WPACKET_init s) as [ok s0].
  destruct ((if ok then call (ssl_set_handshake_header mt) else ret false) s0) as [ok1 s1].
  cbn [snd] in Q1.
  destruct ok1; cbn [negb].
  2: { destruct (fail_stop SSL_AD_INTERNAL_ERROR s1) as (s' & -> & H). by left. }
  pose proof (sending_quiet _ _ HI Q1) as HI1. specialize (HCq s1 Q1).
  pose proof (confunc_post s1 f mt (proj1 (proj1 HI1)) HCq) as [HF HP].
  destruct (run_confunc f s1) as [[|] s2]; cbn [fst snd negb] in *.
  2: { destruct (check_fatal_stop s2) as (s' & -> & H). by left. }
  specialize (HP eq_refl).
  pose proof (frame_fields _ _ HF) as (Hh & Hw & _ & _ & _ & _ & _ & Ht).
  destruct HI1 as (HB & Hw1 & HW & HO & HR).
  assert (HI2 : Iwrite srv s2).
  { split; [by eapply base_written |]. rewrite Hw, Hw1.
    split; [unfold written; rewrite Hh; exact HW |]. rewrite Hh. split; [exact HO |].
    unfold to_send in *. by rewrite Ht, (sent_type_hand s1 s2 Hh), HP. }
  pose proof (quiet_both (ssl_close_construct_packet mt) WPACKET_finish s2) as Q3.
  unfold bind in Q3. destruct (call (ssl_close_construct_packet mt) s2) as [ok' s3].
  destruct ((if ok' then call WPACKET_finish else ret false) s3) as [ok4 s4]. cbn [snd] in Q3.
  destruct ok4; cbn [negb].
  2: { destruct (fail_stop SSL_AD_INTERNAL_ERROR s4) as (s' & -> & H). by left. }
  apply write_send_post; [by eapply Iwrite_quiet |].
  pose proof (frame_fields _ _ (quiet_frame _ _ Q3)) as (_ & Hw4 & _). congruence.
Qed.

(** The handshake ends in [TLS_ST_OK], and nothing is written there. *)
Lemma finish_not_continue b s :
  (tls_finish_handshake_ntls b true s).1 <> WORK_FINISHED_CONTINUE.
Proof.
  unfold tls_finish_handshake_ntls, bind, modify.
  destruct ((if b then _ else ret true) s) as [[|] s1]; cbn; [| discriminate].
  destruct (cleanuphand (statem s)); discriminate.
Qed.

Lemma pre_work_ok w s :
  hand_state (statem s) = TLS_ST_OK -> (pre_work srv w s).1 <> WORK_FINISHED_CONTINUE.
Proof.
  intros H. unfold pre_work, ossl_statem_server_pre_work_ntls, ossl_statem_client_pre_work_ntls.
  destruct srv; rewrite H; apply finish_not_continue.
Qed.

Lemma pre_work_stop w s :
  (pre_work srv w s).1 = WORK_FINISHED_STOP ->
  hand_state (statem s) = TLS_ST_OK \/ hand_state (statem s) = TLS_ST_EARLY_DATA
  \/ hand_state (statem s) = TLS_ST_PENDING_EARLY_DATA_END.
Proof.
  unfold pre_work, ossl_statem_server_pre_work_ntls, ossl_statem_client_pre_work_ntls,
    or_error, continue, bind, ret.
  destruct srv; destruct (hand_state (statem s)); auto; cbn;
    repeat match goal with
    | |- context [match ?x with Some _ => _ | None => _ end] => destruct x
    | |- context [if ?b then _ else _] => destruct b
    | |- context [let '(_, _) := ?x in _] => destruct x as [[|] ?]; cbn
    end; rewrite ?fail_fst; try discriminate.
Qed.

Lemma params_eta p : p = mk_params (p_hit p) (p_anon p) (p_req p) (p_peer p).
Proof. by destruct p. Qed.

(** Early data never happens. *)
Lemma no_early_data p h w :
  reached srv p h w = true -> h <> TLS_ST_EARLY_DATA /\ h <> TLS_ST_PENDING_EARLY_DATA_END.
Proof.
  rewrite (params_eta p). intros H.
  split; intros ->; destruct srv, (p_hit p), (p_anon p), (p_req p), (p_peer p); words.
Qed.

Lemma construct_not_dummy s f mt :
  hand_state (statem s) <> TLS_ST_EARLY_DATA ->
  hand_state (statem s) <> TLS_ST_PENDING_EARLY_DATA_END ->
  get_construct_message srv s = Some (f, mt) -> (mt =? SSL3_MT_DUMMY) = false.
Proof.
  unfold get_construct_message, ossl_statem_server_construct_message_ntls,
    ossl_statem_client_construct_message_ntls.
  destruct srv; destruct (hand_state (statem s)); intros H1 H2 HC; try congruence;
    apply (f_equal (option_map snd)) in HC; cbn in HC; injection HC as <-; reflexivity.
Qed.

(** The states of messages to send. *)
Lemma pre_work_states s :
  Iwrite srv s -> write_state (statem s) = WRITE_STATE_PRE_WORK ->
  hand_state (statem s) <> TLS_ST_EARLY_DATA
  /\ hand_state (statem s) <> TLS_ST_PENDING_EARLY_DATA_END.
Proof.
  intros [_ HI] Hw. rewrite Hw in HI. destruct HI as [_ HI]. case_bool_decide as HO.
  - rewrite HO. split; discriminate.
  - by eapply no_early_data.
Qed.

Lemma write_pre_work_post s :
  Iwrite srv s -> write_state (statem s) = WRITE_STATE_PRE_WORK ->
  write_round (write_pre_work srv s).1 (write_pre_work srv s).2.
Proof.
  intros HI Hw. unfold write_pre_work, bind, modify, get.
  pose proof (quiet_pre_work srv (write_state_work (statem s)) s) as Q.
  pose proof (pre_work_ok (write_state_work (statem s)) s) as HK.
  pose proof (pre_work_stop (write_state_work (statem s)) s) as HS.
  destruct (pre_work srv _ s) as [w s1]. cbn [fst snd] in *.
  pose proof (frame_fields _ _ (quiet_frame _ _ Q)) as (Hh & Hw1 & _). rewrite Hw in Hw1.
  pose proof (Iwrite_quiet _ _ HI Q) as HI1. pose proof HI1 as [HB HI2]. rewrite Hw1 in HI2.
  rewrite <- Hh in *. clear HI Q Hw Hh s. destruct HI2 as [HW HR].
  pose proof (pre_work_states s1 HI1 Hw1) as Hno.
  destruct w; cbn [write_round stop ret fst snd].
  - destruct (check_fatal_stop (s1 <|st write_state_work := WORK_ERROR|>)) as (s' & -> & H).
    by left.
  - case_bool_decide as HO; [split; [apply HB | split; [exact HO | exact HR]] |].
    exfalso. destruct Hno, (HS eq_refl) as [| []]; contradiction.
  - set (s2 := s1 <|st write_state_work := WORK_FINISHED_CONTINUE|>
                  <|st write_state := WRITE_STATE_SEND|>).
    assert (HO : hand_state (statem s1) <> TLS_ST_OK) by (intros H; by apply (HK H)).
    rewrite bool_decide_eq_false_2 in HR by exact HO.
    assert (HS2 : sending s2).
    { split; [exact HB | split; [reflexivity | split; [exact HW | split; [exact HO |]]]].
      unfold to_send in *. rewrite (sent_type_hand s1) by reflexivity. exact HR. }
    destruct (get_construct_message srv s2) as [[f mt] |] eqn:HC.
    2: { destruct (fail_stop SSL_AD_INTERNAL_ERROR s2) as (s' & -> & H). by left. }
    rewrite (construct_not_dummy s2 f mt) by (apply Hno || exact HC).
    by apply write_construct_post.
  - right. split; [exact HB |]. cbn. rewrite Hw1. split; [exact HW |].
    unfold to_send in *. by rewrite (sent_type_hand s1) by reflexivity.
  - right. split; [exact HB |]. cbn. rewrite Hw1. split; [exact HW |].
    unfold to_send in *. by rewrite (sent_type_hand s1) by reflexivity.
  - right. split; [exact HB |]. cbn. rewrite Hw1. split; [exact HW |].
    unfold to_send in *. by rewrite (sent_type_hand s1) by reflexivity.
Qed.

Lemma write_step_post s : Iwrite srv s -> write_round (write_step srv s).1 (write_step srv s).2.
Proof.
  intros H. unfold write_step. destruct (write_state (statem s)) eqn:Hw.
  - by apply write_tran_post.
  - by apply write_pre_work_post.
  - by apply write_send_post.
  - by apply write_post_work_post.
Qed.

End Rounds.
