(* ===== verification/NtlsRuns.v ===== *)
(** * NTLS handshake: interrupted calls

    A handshake is a sequence of calls of the message flow state machine, each
    of which may return early to wait for the peer or for the application.
    The invariant carries over from call to call, so that the messages of a
    handshake that succeeds in the end are those of a TLCP handshake; no error
    state is ever left; and the nesting counter is restored. *)

From S2P Require Import Prelude NtlsTypes NtlsEnv NtlsLib NtlsClient NtlsServer NtlsStatem NtlsOrder NtlsInvariant NtlsMessageOrder NtlsHandshake.

(** The fields a sub-state machine does not write, an error apart, and the
    history, which it makes longer. *)
Definition flow_kept {W} (s s' : SSL W) : Prop :=
  (state (statem s') = state (statem s) \/ state (statem s') = MSG_FLOW_ERROR)
  /\ in_handshake (statem s') = in_handshake (statem s) /\ server s' = server s
  /\ (length (trace s) <= length (trace s'))%nat.

#[export] Instance flow_kept_preorder {W} : PreOrder (@flow_kept W).
Proof.
  split.
  - intros s. split; auto.
  - intros s s' s'' (H1 & H2 & H3 & H4) (H1' & H2' & H3' & H4').
    split; [| split; [congruence | split; [congruence | lia]]].
    destruct H1, H1'; (left; congruence) || (right; congruence).
Qed.

Lemma frame_flow {W} (s s' : SSL W) : frame s s' -> flow_kept s s'.
Proof.
  intros HF. pose proof (frame_fields _ _ HF) as (_ & _ & _ & _ & _ & Hi & Hs & Ht).
  split; [apply HF | rewrite Ht; auto].
Qed.

Ltac flow_tac :=
  repeat first [ solve [auto 1 with ntls nocore] | always_step ];
  try (unfold flow_kept; cbn; split_and?;
       first [ reflexivity | left; reflexivity | right; reflexivity
             | rewrite length_app; cbn; lia ]).

Section Kept.
Context {W : Type} {E : Env W} {L : EnvLaws W}.

Lemma quiet_flow {A} (m : M W A) : always quiet m -> always flow_kept m.
Proof. intros H s. apply frame_flow, quiet_frame, H. Qed.

Lemma flow_call f : always flow_kept (call (W := W) f).
Proof. apply quiet_flow, quiet_call. Qed.
Lemma flow_fail {A} al (a : A) : always flow_kept (fail (W := W) al a).
Proof. apply quiet_flow, quiet_fail. Qed.
Lemma flow_check_fatal : always flow_kept (check_fatal (W := W)).
Proof. apply quiet_flow, quiet_check_fatal. Qed.
Lemma flow_process f p : always flow_kept (process (W := W) f p).
Proof. intros s. apply frame_flow, process_frame. Qed.
Lemma flow_work f w : always flow_kept (work (W := W) f w).
Proof. intros s. apply frame_flow, work_frame. Qed.
Lemma flow_construct f : always flow_kept (construct (W := W) f).
Proof. intros s. apply frame_flow, construct_frame. Qed.
#[local] Hint Resolve flow_call flow_fail flow_check_fatal flow_process flow_work flow_construct
  : ntls.

Lemma flow_process_message srv p : always flow_kept (process_message (W := W) srv p).
Proof.
  pose proof (fun p => quiet_flow _ (quiet_server_done p)).
  pose proof (fun p => quiet_flow _ (quiet_process_ccs p)).
  pose proof (fun p => quiet_flow _ (quiet_process_finished p)).
  pose proof (fun p => quiet_flow _ (quiet_hello_req p)).
  unfold process_message, ossl_statem_server_process_message_ntls,
    ossl_statem_client_process_message_ntls. destruct srv; flow_tac.
Qed.

Lemma flow_post_process srv w : always flow_kept (post_process_message (W := W) srv w).
Proof.
  pose proof (quiet_flow _ quiet_post_cke).
  assert (forall w, always flow_kept (tls_prepare_client_certificate_ntls (W := W) w))
    by (intros w' s; apply frame_flow, prepare_keeps).
  unfold post_process_message, ossl_statem_server_post_process_message_ntls,
    ossl_statem_client_post_process_message_ntls. destruct srv; flow_tac.
Qed.

Lemma flow_read_transition srv mt : always flow_kept (read_transition (W := W) srv mt).
Proof.
  unfold read_transition, ossl_statem_server_read_transition_ntls,
    ossl_statem_client_read_transition_ntls, read_after_cert_status, read_after_key_exch,
    read_after_cert_req, unexpected_message, move_to.
  destruct srv; flow_tac.
Qed.

Lemma flow_setup : always flow_kept (tls_setup_handshake_ntls (W := W)).
Proof. unfold tls_setup_handshake_ntls. flow_tac. Qed.
#[local] Hint Resolve flow_setup : ntls.

Lemma flow_write_transition srv : always flow_kept (write_transition (W := W) srv).
Proof.
  pose proof (quiet_flow _ quiet_renegotiate_check).
  unfold write_transition, ossl_statem_server_write_transition_ntls,
    ossl_statem_client_write_transition_ntls, write_after_cert_status, write_after_key_exch, write_to.
  destruct srv; flow_tac.
Qed.

Lemma flow_confunc f : always flow_kept (run_confunc (W := W) f).
Proof.
  pose proof (quiet_flow _ quiet_construct_ccs).
  assert (always flow_kept (tls_construct_finished_ntls (W := W)))
    by (intros s; apply frame_flow, calm_construct_finished).
  unfold run_confunc. flow_tac.
Qed.
#[local] Hint Resolve flow_process_message flow_post_process flow_read_transition
  flow_write_transition flow_confunc : ntls.

Lemma flow_read_step srv : always flow_kept (read_step (W := W) srv).
Proof.
  pose proof (quiet_flow _ quiet_header). pose proof (quiet_flow _ quiet_body).
  pose proof (fun n => quiet_flow _ (quiet_grow n)).
  unfold read_step, read_header, read_body, read_post_process, record, stop, again. flow_tac.
Qed.

Lemma flow_write_step srv : always flow_kept (write_step (W := W) srv).
Proof.
  pose proof (fun w => quiet_flow _ (quiet_pre_work srv w)).
  pose proof (fun w => quiet_flow _ (quiet_post_work srv w)).
  pose proof (quiet_flow _ quiet_do_write).
  unfold write_step, write_tran, write_pre_work, write_construct, write_send, write_post_work,
    to_post_work, record, stop, again.
  flow_tac.
Qed.

End Kept.

(** Invariants of a loop. *)
Lemma loop_inv {S R : Type} (P : S -> Prop) (Q : R -> S -> Prop)
    (step : S -> option (option R * S)) :
  (forall s, P s -> match step s with
                    | None => True
                    | Some (None, s') => P s'
                    | Some (Some r, s') => Q r s'
                    end) ->
  forall fuel s r s', P s -> loop fuel step s = Some (r, s') -> Q r s'.
Proof.
  intros Hstep fuel. induction fuel as [| fuel IH]; intros s r s' HP; cbn; [discriminate |].
  specialize (Hstep s HP). destruct (step s) as [[[r1 |] s1] |]; [| | discriminate].
  - intros H. by simplify_eq.
  - by apply IH.
Qed.

Section Runs.
Context {W : Type} {E : Env W} {L : EnvLaws W}.
Variable srv : bool.
Implicit Types s : SSL W.

(** A connection that has not begun: what [SSL_new] and [SSL_clear] leave. *)
Definition fresh s : Prop :=
  state (statem s) = MSG_FLOW_UNINITED /\ tmp_finish_md s = [] /\ tmp_cert_request s = false
  /\ tmp_cert_req s = 0.

(** The handshake has succeeded. *)
Definition established s : Prop :=
  hand_state (statem s) = TLS_ST_OK
  /\ In (trace s) (handshake_words srv (params_of srv s)).

(** The invariant between the calls of a first handshake. *)
Definition Iconn s : Prop :=
  failed s
  \/ ntls_mode s
     /\ (fresh s \/ state (statem s) = MSG_FLOW_READING /\ Iread srv s
         \/ state (statem s) = MSG_FLOW_WRITING /\ Iwrite srv s).

Lemma read_machine_post fuel s r s' :
  Iread srv s -> server s = srv -> read_state_machine_ntls fuel s = Some (r, s') ->
  flow_kept s s' /\ read_post srv (Some r) s'.
Proof.
  intros HI HS. unfold read_state_machine_ntls. rewrite HS.
  set (s0 := if read_state_first_init (statem s) then _ else s).
  assert (Q : quiet s s0) by (unfold s0; destruct (read_state_first_init _); [assign_tac | reflexivity]).
  pose proof (Iread_quiet srv _ _ HI Q) as HI0. pose proof (frame_flow _ _ (quiet_frame _ _ Q)) as HK.
  clearbody s0. intros H. revert H.
  apply (loop_inv (fun x => flow_kept s x /\ Iread srv x)
           (fun r x => flow_kept s x /\ read_post srv (Some r) x)); [| auto].
  intros x [HKx Hx]. pose proof (read_step_post srv x Hx) as HP.
  pose proof (flow_read_step srv x) as HF. destruct (read_step srv x) as [[r1 |] x1];
    (split; [etrans; eassumption | exact HP]).
Qed.

Lemma write_machine_post fuel s r s' :
  Iwrite srv s -> server s = srv -> write_state_machine_ntls fuel s = Some (r, s') ->
  flow_kept s s' /\ write_round srv (Some r) s'.
Proof.
  intros HI HS. unfold write_state_machine_ntls. rewrite HS. intros H. revert H.
  apply (loop_inv (fun x => flow_kept s x /\ Iwrite srv x)
           (fun r x => flow_kept s x /\ write_round srv (Some r) x)); [| by split].
  intros x [HKx Hx]. pose proof (write_step_post srv x Hx) as HP.
  pose proof (flow_write_step srv x) as HF. destruct (write_step srv x) as [[r1 |] x1];
    (split; [etrans; eassumption | exact HP]).
Qed.

(** The invariant of the main loop, and what it returns. *)
Definition Iflow s : Prop :=
  match state (statem s) with
  | MSG_FLOW_READING => Iread srv s
  | MSG_FLOW_WRITING => Iwrite srv s
  | MSG_FLOW_FINISHED => established s
  | _ => True
  end.

Definition flow_result (r : Z) s : Prop :=
  (r = 1 /\ state (statem s) = MSG_FLOW_FINISHED /\ established s) \/ (r = -1 /\ Iconn s).

Lemma Iread_base s : Iread srv s -> ntls_mode s /\ server s = srv.
Proof. unfold Iread. destruct (read_state (statem s)); intros [(? & ? & _) _]; auto. Qed.
Lemma Iwrite_base s : Iwrite srv s -> ntls_mode s /\ server s = srv.
Proof. intros [(? & ? & _) _]. auto. Qed.

Lemma flow_step_post fuel s :
  Iflow s -> match flow_step fuel s with
             | None => True
             | Some (None, s') => Iflow s'
             | Some (Some r, s') => flow_result r s'
             end.
Proof.
  unfold Iflow, flow_step. destruct (state (statem s)) eqn:Hs; intros HI.
  - destruct (check_fatal_stop s) as (s' & -> & H). right. by split; [| left].
  - destruct (check_fatal_stop s) as (s' & -> & H). right. by split; [| left].
  - destruct (Iread_base s HI) as [HM HV].
    destruct (read_state_machine_ntls fuel s) as [[r s1] |] eqn:Hr; [| exact I].
    destruct (read_machine_post fuel s r s1 HI HV Hr) as [(HK & _) HP]. rewrite Hs in HK.
    destruct r; cbn in HP |- *.
    + right. split; [reflexivity |]. destruct HP as [HP | HP]; [by left |].
      destruct HK as [HK | HK]; [| by left]. right. split; [by apply Iread_base | auto].
    + destruct HP as (HB & HA & HH). split; [exact HB | split; [exact HA | exact HH]].
    + contradiction.
  - destruct (Iwrite_base s HI) as [HM HV].
    destruct (write_state_machine_ntls fuel s) as [[r s1] |] eqn:Hr; [| exact I].
    destruct (write_machine_post fuel s r s1 HI HV Hr) as [(HK & _) HP]. rewrite Hs in HK.
    destruct r; cbn in HP |- *.
    + right. split; [reflexivity |]. destruct HP as [HP | HP]; [by left |].
      destruct HK as [HK | HK]; [| by left]. right. split; [by apply Iwrite_base | auto].
    + exact HP.
    + destruct HP as (_ & HO & HR). split; [exact HO |].
      unfold reached in HR. apply andb_true_iff in HR as [HR _]. by apply complete_In.
  - left. auto.
Qed.

(** ** Entering the state machine *)

(** A connection being initialised. *)
Definition starting s : Prop :=
  (state (statem s) = MSG_FLOW_UNINITED \/ failed s)
  /\ hand_state (statem s) = TLS_ST_BEFORE /\ server s = srv /\ ntls_mode s
  /\ tmp_finish_md s = [] /\ tmp_cert_request s = false /\ (tmp_cert_req s =? 0) = true.

Lemma starting_quiet s s' : starting s -> quiet s s' -> starting s'.
Proof.
  intros (HS & HH & HV & HM & HF & HR & HQ) Q.
  pose proof (frame_fields _ _ (quiet_frame _ _ Q)) as (Hh & _ & _ & _ & _ & _ & Hv & _).
  destruct Q as [(Hfr & _ & [Hr1 Hr2] & _) Hf]. unfold starting, failed, same_fin in *.
  rewrite Hh, Hv, Hf, Hr1, Hr2. split_and!; auto; [| by apply Hfr].
  destruct Hfr as (_ & [-> | ->] & _); auto.
Qed.

(** What the initialisation leaves. *)
Definition init_post (ok : bool) s : Prop :=
  if ok then state (statem s) = MSG_FLOW_WRITING /\ Iwrite srv s else starting s.

Lemma or_fatal_post (m k : M W bool) s :
  always quiet m -> starting s ->
  (forall s', starting s' -> init_post (k s').1 (k s').2) ->
  init_post (or_fatal m k s).1 (or_fatal m k s).2.
Proof.
  intros Hm Hs Hk. unfold or_fatal, bind. specialize (Hm s). destruct (m s) as [[|] s1];
    cbn [negb snd] in *; pose proof (starting_quiet _ _ Hs Hm) as H1.
  - by apply Hk.
  - rewrite fail_fst. eapply starting_quiet; [exact H1 | apply quiet_fail].
Qed.

Lemma setup_starting s : starting s -> starting (tls_setup_handshake_ntls s).2.
Proof.
  intros HS. unfold tls_setup_handshake_ntls, bind.
  pose proof (quiet_call ssl3_init_finished_mac s) as Q.
  destruct (call ssl3_init_finished_mac s) as [[|] s1]; cbn [negb snd] in *;
    pose proof (starting_quiet _ _ HS Q) as H1; [| exact H1].
  assert (Hf : forall al, starting (fail al false s1).2)
    by (intros al; eapply starting_quiet; [exact H1 | apply quiet_fail]).
  destruct (ssl_get_max_version s1); [| apply Hf].
  destruct (server s1); [destruct (existsb _ _); [| apply Hf] |].
  - cbn. destruct (SSL_IS_FIRST_HANDSHAKE s1); [exact H1 |].
    destruct H1 as (? & ? & ? & ? & ? & ? & ?). by repeat (split; [assumption |]).
  - destruct H1 as (? & ? & ? & ? & ? & ? & ?). by repeat (split; [assumption |]).
Qed.

Lemma setup_if_fresh_starting s : starting s -> starting (setup_if_fresh s).2.
Proof.
  intros Hs. unfold setup_if_fresh, bind. destruct (_ || _); [| exact Hs].
  pose proof (setup_starting s Hs) as H.
  destruct (tls_setup_handshake_ntls s) as [[|] s1]; cbn in *; [| exact H].
  destruct (SSL_IS_FIRST_HANDSHAKE s1); exact H.
Qed.

Lemma bind_modify {A} (f : SSL W -> SSL W) (k : unit -> M W A) s :
  bind (modify f) k s = k tt (f s).
Proof. reflexivity. Qed.

Lemma init_starting s : fresh s -> ntls_mode s ->
  init_post (state_machine_init srv s).1 (state_machine_init srv s).2.
Proof.
  intros (Hst & Hfin & Hreq & Hcr) HM. unfold state_machine_init. rewrite bind_modify.
  rewrite bool_decide_eq_true_2 by exact Hst.
  match goal with |- context [or_fatal (get ssl_security) _ ?x] => set (s0 := x) end.
  assert (H0 : starting s0).
  { unfold s0. split_and!; try reflexivity; auto. cbn. by rewrite Hcr. }
  clearbody s0. clear Hst Hfin Hreq Hcr HM s.
  apply or_fatal_post; [apply always_get; typeclasses eauto | exact H0 |]. clear s0 H0. intros s Hs.
  apply or_fatal_post; [| exact Hs |].
  { pose proof quiet_call. always_tac. }
  clear s Hs. intros s Hs.
  apply or_fatal_post; [apply quiet_call | exact Hs |]. clear s Hs. intros s Hs.
  rewrite bind_modify.
  assert (H1 : starting (s <|init_num := 0|> <|s3_change_cipher_spec := false|>))
    by (eapply starting_quiet; [exact Hs | assign_tac]).
  apply or_fatal_post; [apply quiet_call | exact H1 |]. clear s Hs H1. intros s Hs.
  pose proof (setup_if_fresh_starting s Hs) as Hm. unfold bind, modify.
  destruct (setup_if_fresh s) as [[|] s1]; cbn [negb snd fst] in *; [| exact Hm].
  destruct Hm as (_ & HH & HV & HM & HF & HR & HQ).
  split; [reflexivity |]. split; [split_and!; auto |]. cbn.
  assert (Hp : p_req (params_of srv s1) = false).
  { cbn. destruct srv; [exact HR | by rewrite HQ]. }
  split; [split; cbn; rewrite HH; [discriminate |] | by rewrite HH].
  change (reached srv (params_of srv s1) TLS_ST_BEFORE [] = true).
  rewrite (params_eta (params_of srv s1)), Hp.
  destruct srv, (p_hit _), (p_anon _), (p_peer _); vm_compute; reflexivity.
Qed.

(** The nesting counter does not matter to the invariant. *)
Lemma Iwrite_counter n s : Iwrite srv s -> Iwrite srv (s <|st in_handshake := n|>).
Proof. destruct srv; exact id. Qed.

Lemma flow_result_counter r n s :
  flow_result r s -> flow_result r (s <|st in_handshake := n|>).
Proof. unfold flow_result, established, Iconn. destruct srv; exact id. Qed.

(** The call to [SSL_clear] at the entry does not fail. *)
Definition clears s : Prop :=
  (SSL_clear (s <|st in_handshake := in_handshake (statem s) + 1|>)).1 = true.

(** A connection in a handshake, not in error. *)
Definition live s : Prop :=
  fresh s \/ state (statem s) = MSG_FLOW_READING /\ Iread srv s
  \/ state (statem s) = MSG_FLOW_WRITING /\ Iwrite srv s.

Lemma entry_cases s :
  ntls_mode s -> live s -> clears s ->
  (entry_clear s).1 = true /\ ntls_mode (entry_clear s).2 /\ live (entry_clear s).2.
Proof.
  intros HM HC Hcl. unfold clears, entry_clear in *.
  set (s1 := s <|st in_handshake := in_handshake (statem s) + 1|>) in *.
  assert (H1 : ntls_mode s1 /\ live s1) by
    (split; [exact HM | destruct HC as [HC | [HC | [HC HI]]]; [by left | by right; left |];
     right; right; split; [exact HC | by apply Iwrite_counter]]).
  clearbody s1. destruct (_ && _); [| by split]. split; [exact Hcl |].
  destruct (clear_ok s1 Hcl) as (? & ? & ? & ? & ? & ? & Hm). split; [apply Hm, H1 |].
  left. by split_and!.
Qed.

Lemma state_machine_post fuel s r s' :
  Iconn s -> clears s -> state_machine_ntls fuel srv s = Some (r, s') -> flow_result r s'.
Proof.
  intros HC Hcl. unfold state_machine_ntls. case_bool_decide as Hfail.
  { intros [= <- <-]. right. by split; [| left]. }
  destruct HC as [HC | [HM HC]]; [contradiction |].
  destruct (entry_cases s HM HC Hcl) as (H1 & HM2 & HC2).
  destruct (entry_clear s) as [ok s2]. cbn [fst snd] in *. subst ok. cbn [negb].
  assert (Hrun : forall x, Iflow x -> match loop fuel (flow_step fuel) x with
                                     | None => None
                                     | Some (r, s) => Some (r, leave s)
                                     end = Some (r, s') -> flow_result r s').
  { intros x Hx. destruct (loop fuel (flow_step fuel) x) as [[r1 x1] |] eqn:Hl; [| discriminate].
    intros [= <- <-].
    apply flow_result_counter.
    exact (loop_inv Iflow flow_result (flow_step fuel) (flow_step_post fuel) fuel x _ _ Hx Hl). }
  destruct HC2 as [HF | [[HS HI] | [HS HI]]].
  - rewrite bool_decide_eq_true_2 by apply HF. cbn [orb].
    pose proof (init_starting s2 HF HM2) as HP.
    destruct (state_machine_init srv s2) as [[|] s3]; cbn [fst snd negb] in *.
    + apply Hrun. destruct HP as [Hs HI]. unfold Iflow. by rewrite Hs.
    + intros [= <- <-]. right. split; [reflexivity |].
      destruct HP as ([HS | HS] & _ & _ & HM' & Hf & Hr & Hq); [| by left].
      right. split; [exact HM' | left]. split_and!; auto. by apply Z.eqb_eq.
  - rewrite !bool_decide_eq_false_2 by congruence. cbn [orb negb].
    apply Hrun. unfold Iflow. by rewrite HS.
  - rewrite !bool_decide_eq_false_2 by congruence. cbn [orb negb].
    apply Hrun. unfold Iflow. by rewrite HS.
Qed.

(** ** Sequences of calls *)

(** The states a connection can be in during its first handshake: calls that
    return to wait, with anything the laws allow done in between. *)
Inductive attempts (fuel : nat) (s0 : SSL W) : SSL W -> Prop :=
| attempts_start : attempts fuel s0 s0
| attempts_call s s' :
    attempts fuel s0 s -> clears s -> state_machine_ntls fuel srv s = Some (-1, s') ->
    attempts fuel s0 s'
| attempts_between s s' : attempts fuel s0 s -> quiet s s' -> attempts fuel s0 s'.

Lemma Iconn_quiet s s' : Iconn s -> quiet s s' -> Iconn s'.
Proof.
  intros HC Q. pose proof (quiet_frame _ _ Q) as (_ & HS & Hm).
  destruct HC as [HC | [HM HC]]; [left; eapply frame_failed; [by apply quiet_frame | exact HC] |].
  destruct HS as [HS | HS]; [| by left]. right. split; [by apply Hm |].
  destruct HC as [(H1 & H2 & H3 & H4) | [[H1 H2] | [H1 H2]]].
  - left. destruct Q as [(_ & _ & [R1 R2] & _) Hf]. unfold fresh, same_fin in *.
    rewrite HS, Hf, R2. split_and!; auto. rewrite H4 in R1. by apply Z.eqb_eq in R1.
  - right. left. split; [congruence | by eapply Iread_quiet].
  - right. right. split; [congruence | by eapply Iwrite_quiet].
Qed.

Lemma attempts_Iconn fuel s0 s : fresh s0 -> ntls_mode s0 -> attempts fuel s0 s -> Iconn s.
Proof.
  intros HF HM HA. induction HA as [| s s' HA IH Hcl Hrun | s s' HA IH Q].
  - right. auto.
  - destruct (state_machine_post _ _ _ _ IH Hcl Hrun) as [[? _] | [_ ?]]; [discriminate | auto].
  - by eapply Iconn_quiet.
Qed.

(** C1: The order of the handshake messages.  Take a fresh NTLS connection, in
    either role, and call the message flow state machine on it any number of
    times, with non-blocking I/O or callbacks interrupting it anywhere and any
    environment within the laws (in particular any messages from the peer).
    When a call succeeds, the handshake state is [TLS_ST_OK] and the messages
    accepted and sent are exactly one of the sequences of a TLCP handshake with
    the negotiated parameters: no message is skipped, repeated or out of order,
    the certificate of the server is there unless the cipher is anonymous, the
    server has read a Certificate exactly when it asked for one and a
    CertificateVerify exactly when it holds a certificate to verify, and both
    ChangeCipherSpec and Finished messages are there. *)
Theorem handshake_order fuel s0 s s' :
  fresh s0 -> ntls_mode s0 -> attempts fuel s0 s -> clears s ->
  state_machine_ntls fuel srv s = Some (1, s') ->
  hand_state (statem s') = TLS_ST_OK
  /\ In (trace s') (handshake_words srv (params_of srv s')).
Proof.
  intros HF HM HA Hcl Hrun.
  destruct (state_machine_post _ _ _ _ (attempts_Iconn _ _ _ HF HM HA) Hcl Hrun)
    as [(_ & _ & HE) | [? _]]; [exact HE | discriminate].
Qed.

End Runs.
