(* ===== verification/NtlsTotal.v ===== *)
(** * NTLS handshake: the state machines return

    Every message that is read or written makes the history of the handshake
    longer, and a history has at most [max_history] messages; so the loops of
    the sub-state machines and of the message flow state machine end, for any
    environment within the laws, and a small fuel is enough. *)

From S2P Require Import Prelude NtlsTypes NtlsEnv NtlsLib NtlsClient NtlsServer NtlsStatem NtlsOrder NtlsInvariant NtlsMessageOrder NtlsHandshake NtlsRuns.

Definition max_history : nat := 16.

Lemma history_bound srv p h w : reached srv p h w = true -> (length w <= max_history)%nat.
Proof.
  intros H. apply reached_candidate in H.
  assert (Hall : forallb (fun w => (length w <=? max_history)%nat) (candidates srv p) = true).
  { rewrite (params_eta p). destruct srv, (p_hit p), (p_anon p), (p_req p), (p_peer p);
      vm_compute; reflexivity. }
  rewrite forallb_forall in Hall. by apply Nat.leb_le, Hall.
Qed.

(** A loop whose rounds decrease a measure returns. *)
Lemma loop_total {S R : Type} (P : S -> Prop) (mu : S -> nat)
    (step : S -> option (option R * S)) :
  (forall s, P s -> exists r s', step s = Some (r, s')
                                 /\ (r = None -> P s' /\ (mu s' < mu s)%nat)) ->
  forall fuel s, P s -> (mu s < fuel)%nat -> exists r s', loop fuel step s = Some (r, s').
Proof.
  intros Hstep fuel. induction fuel as [| fuel IH]; intros s HP Hmu; [lia |].
  destruct (Hstep s HP) as ([r |] & s' & Heq & Hnone); cbn; rewrite Heq; [by exists r, s' |].
  destruct (Hnone eq_refl) as [HP' Hlt]. apply IH; [exact HP' | lia].
Qed.

Section Total.
Context {W : Type} {E : Env W} {L : EnvLaws W}.
Variable srv : bool.
Implicit Types s : SSL W.

Definition len s : nat := length (trace s).

Lemma Iread_len s : Iread srv s -> (len s <= max_history)%nat.
Proof.
  unfold Iread, len. destruct (read_state (statem s)).
  - intros (_ & _ & _ & H). by eapply history_bound.
  - intros (_ & _ & _ & H). by eapply history_bound.
  - intros (_ & _ & _ & H). by eapply history_bound.
Qed.

Lemma Iwrite_len s : Iwrite srv s -> (len s <= max_history)%nat.
Proof.
  assert (Hsend : forall p h, reached srv p h (to_send srv s) = true -> (len s <= max_history)%nat).
  { intros p h H%history_bound. unfold to_send in H. rewrite length_app in H. unfold len. cbn in H. lia. }
  intros [_ H]. destruct (write_state (statem s)).
  - destruct H as [[_ H] _]. by eapply history_bound.
  - destruct H as [_ H]. case_bool_decide; [by eapply history_bound | by eapply Hsend].
  - destruct H as (_ & _ & H). by eapply Hsend.
  - destruct H as (_ & _ & H). by eapply history_bound.
Qed.

(** ** Progress of a round *)

Definition mu_read s : nat :=
  3 * (max_history - len s)
  + match read_state (statem s) with
    | READ_STATE_HEADER => 0
    | READ_STATE_POST_PROCESS => 1
    | READ_STATE_BODY => 2
    end.

Lemma read_body_progress s s' :
  Ibody srv s -> read_body srv s = (None, s') ->
  trace s' = trace s /\ read_state (statem s') <> READ_STATE_BODY.
Proof.
  intros HI. unfold read_body, bind, modify.
  pose proof (quiet_body s) as Q. destruct (tls_get_message_body_ntls s) as [[pkt |] s1];
    [| discriminate].
  assert (Q2 : quiet s1 (s1 <|first_packet := false|>)) by assign_tac.
  cbn [snd] in Q. pose proof (quiet_preorder.(PreOrder_Transitive) _ _ _ Q Q2) as Q3.
  pose proof (process_processed srv pkt _ (Ibody_quiet srv _ _ HI Q3)) as [HF _].
  destruct (process_message srv pkt (s1 <|first_packet := false|>)) as [r s2]. cbn [snd] in HF.
  pose proof (frame_fields _ _ HF) as (_ & _ & _ & _ & _ & _ & _ & Ht).
  pose proof (frame_fields _ _ (quiet_frame _ _ Q)) as (_ & _ & _ & _ & _ & _ & _ & Ht1).
  destruct r; [destruct (check_fatal_stop (s2 <|init_num := 0|>)) as (x & -> & _) | | |];
    intros H; try discriminate; apply (f_equal snd) in H; cbn in H; subst s'; cbn in *;
    (split; [congruence | discriminate]).
Qed.

Lemma read_header_progress s s' :
  ready srv s -> read_header srv s = (None, s') ->
  len s' = S (len s) /\ read_state (statem s') <> READ_STATE_BODY.
Proof.
  intros HI. unfold read_header, bind, record, modify, get.
  pose proof (quiet_header s) as Q. destruct (tls_get_message_header_ntls s) as [[mt |] s1];
    [| discriminate]. cbn [snd] in Q.
  pose proof (ready_quiet srv _ _ HI Q) as (HB & HT & HA).
  pose proof (frame_fields _ _ (quiet_frame _ _ Q)) as (_ & _ & _ & _ & _ & _ & _ & Ht1).
  pose proof (read_transition_reached srv mt s1 (read_transition srv mt s1).2 HB HT HA) as Htrue.
  destruct (read_transition srv mt s1) as [[|] s2]; [| discriminate]. cbn [fst snd] in *.
  destruct (Htrue eq_refl) as ((Ht & _) & HB2 & HT2 & HO2 & HR2). clear Htrue. cbn [negb].
  set (s3 := s2 <|trace := trace s2 ++ [Rd mt]|>).
  assert (HI3 : Ibody srv s3).
  { split; [exact HB2 | split; [exact HT2 | split; [exact HO2 |]]]. cbn. rewrite Ht. exact HR2. }
  assert (H3 : len s3 = S (len s)).
  { unfold len, s3. cbn. rewrite length_app, Ht, Ht1. cbn. lia. }
  clearbody s3. clear -HI3 H3 L.
  destruct (max_message_size srv s3 <? tmp_message_size s3).
  { destruct (fail_stop SSL_AD_ILLEGAL_PARAMETER s3) as (x & -> & _). discriminate. }
  assert (Hg : always quiet (if 0 <? tmp_message_size s3
                             then grow_init_buf (tmp_message_size s3 + SSL3_HM_HEADER_LENGTH)
                             else ret true)).
  { apply always_if; [apply quiet_grow | apply always_ret; typeclasses eauto]. }
  specialize (Hg s3). revert Hg.
  generalize ((if 0 <? tmp_message_size s3
               then grow_init_buf (tmp_message_size s3 + SSL3_HM_HEADER_LENGTH)
               else ret true) s3).
  intros [[|] s4] Hg; cbn [snd negb] in *.
  2: { destruct (fail_stop SSL_AD_INTERNAL_ERROR s4) as (x & -> & _). discriminate. }
  intros H. apply read_body_progress in H as [H ?]; [| exact (Ibody_quiet srv _ _ HI3 Hg)].
  pose proof (frame_fields _ _ (quiet_frame _ _ Hg)) as (_ & _ & _ & _ & _ & _ & _ & Ht4).
  split; [| assumption]. unfold len in *. rewrite H. cbn. by rewrite Ht4.
Qed.

Lemma read_post_process_progress s s' :
  ready srv s -> read_post_process srv s = (None, s') ->
  trace s' = trace s /\ read_state (statem s') = READ_STATE_HEADER.
Proof.
  intros (HB & HT & HA). unfold read_post_process, bind, modify.
  pose proof (post_process_worked srv (read_state_work (statem s)) s HB HT HA) as [HF _].
  destruct (post_process_message srv _ s) as [w s1]. cbn [snd] in HF.
  pose proof (frame_fields _ _ HF) as (_ & _ & _ & _ & _ & _ & _ & Ht).
  destruct w; [destruct (check_fatal_stop (s1 <|st read_state_work := WORK_ERROR|>)) as (x & -> & _)
              | | | | |];
    intros H; try discriminate; apply (f_equal snd) in H; cbn in H; subst s'; cbn; auto.
Qed.

Lemma read_step_progress s s' :
  Iread srv s -> read_step srv s = (None, s') -> (mu_read s' < mu_read s)%nat.
Proof.
  intros HI Hstep. pose proof (read_step_post srv s HI) as HP. rewrite Hstep in HP.
  apply Iread_len in HP. cbn [snd] in HP. pose proof (Iread_len s HI) as Hl.
  unfold read_step, Iread, mu_read in *. destruct (read_state (statem s)).
  - apply read_header_progress in Hstep as [H1 H2]; [| exact HI].
    destruct (read_state (statem s')); try congruence; lia.
  - apply read_body_progress in Hstep as [H1 H2]; [| exact HI].
    assert (len s' = len s) by (unfold len; by rewrite H1).
    destruct (read_state (statem s')); try congruence; lia.
  - apply read_post_process_progress in Hstep as [H1 H2]; [| exact HI].
    assert (len s' = len s) by (unfold len; by rewrite H1). rewrite H2. lia.
Qed.

Definition mu_write s : nat :=
  4 * (max_history - len s)
  + match write_state (statem s) with
    | WRITE_STATE_SEND => 1
    | WRITE_STATE_PRE_WORK => 2
    | WRITE_STATE_TRANSITION => 3
    | WRITE_STATE_POST_WORK => 4
    end.

(** A message is being sent: one more in the history, and the next transition. *)
Definition sent s s' : Prop :=
  len s' = S (len s) /\ write_state (statem s') = WRITE_STATE_TRANSITION.

Lemma write_post_work_progress s s' :
  write_post_work srv s = (None, s') ->
  trace s' = trace s /\ write_state (statem s') = WRITE_STATE_TRANSITION.
Proof.
  unfold write_post_work, bind, modify.
  pose proof (quiet_post_work srv (write_state_work (statem s)) s) as Q.
  destruct (post_work srv _ s) as [w s1]. cbn [snd] in Q.
  pose proof (frame_fields _ _ (quiet_frame _ _ Q)) as (_ & _ & _ & _ & _ & _ & _ & Ht).
  destruct w; [destruct (check_fatal_stop (s1 <|st write_state_work := WORK_ERROR|>)) as (x & -> & _)
              | | | | |];
    intros H; try discriminate; apply (f_equal snd) in H; cbn in H; subst s'; cbn; auto.
Qed.

Lemma write_send_progress s s' : write_send srv s = (None, s') -> sent s s'.
Proof.
  unfold write_send, bind, record, to_post_work, modify.
  pose proof (quiet_do_write s) as Q. destruct (statem_do_write s) as [r s1]. cbn [snd] in Q.
  pose proof (frame_fields _ _ (quiet_frame _ _ Q)) as (_ & _ & _ & _ & _ & _ & _ & Ht).
  destruct (r <=? 0); [discriminate |]. intros [H Hw]%write_post_work_progress.
  split; [| exact Hw]. unfold len. rewrite H. cbn. rewrite length_app, Ht. cbn. lia.
Qed.

Lemma write_construct_progress s f mt s' :
  ntls_mode s -> get_construct_message srv s = Some (f, mt) ->
  write_construct srv f mt s = (None, s') -> sent s s'.
Proof.
  intros HM HC.
  pose proof (quiet_both WPACKET_init (ssl_set_handshake_header mt) s) as Q1.
  unfold write_construct, bind in *. destruct (call WPACKET_init s) as [ok s0].
  destruct ((if ok then call (ssl_set_handshake_header mt) else ret false) s0) as [ok1 s1].
  cbn [snd] in Q1. destruct ok1; cbn [negb].
  2: { destruct (fail_stop SSL_AD_INTERNAL_ERROR s1) as (x & -> & _). discriminate. }
  assert (HF : frame s1 (run_confunc f s1).2).
  { destruct f as [[f | |] |]; cbn [run_confunc];
      [apply construct_frame | apply quiet_frame, quiet_construct_ccs
      | apply calm_construct_finished | reflexivity]. }
  destruct (run_confunc f s1) as [[|] s2]; cbn [snd negb] in *.
  2: { destruct (check_fatal_stop s2) as (x & -> & _). discriminate. }
  pose proof (quiet_both (ssl_close_construct_packet mt) WPACKET_finish s2) as Q3.
  unfold bind in Q3. destruct (call (ssl_close_construct_packet mt) s2) as [ok' s3].
  destruct ((if ok' then call WPACKET_finish else ret false) s3) as [ok4 s4]. cbn [snd] in Q3.
  destruct ok4; cbn [negb].
  2: { destruct (fail_stop SSL_AD_INTERNAL_ERROR s4) as (x & -> & _). discriminate. }
  intros [H Hw]%write_send_progress. split; [| exact Hw].
  pose proof (frame_fields _ _ (quiet_frame _ _ Q1)) as (_ & _ & _ & _ & _ & _ & _ & Ht1).
  pose proof (frame_fields _ _ HF) as (_ & _ & _ & _ & _ & _ & _ & Ht2).
  pose proof (frame_fields _ _ (quiet_frame _ _ Q3)) as (_ & _ & _ & _ & _ & _ & _ & Ht3).
  unfold len in *. congruence.
Qed.

Lemma write_pre_work_progress s s' :
  Iwrite srv s -> write_state (statem s) = WRITE_STATE_PRE_WORK ->
  write_pre_work srv s = (None, s') -> sent s s'.
Proof.
  intros HI Hw. pose proof (pre_work_states srv s HI Hw) as [Hn1 Hn2].
  pose proof (proj1 (proj1 HI)) as HM. unfold write_pre_work, bind, modify, get.
  pose proof (quiet_pre_work srv (write_state_work (statem s)) s) as Q.
  destruct (pre_work srv _ s) as [w s1]. cbn [snd] in Q.
  pose proof (frame_fields _ _ (quiet_frame _ _ Q)) as (Hh & _ & _ & _ & _ & _ & _ & Ht).
  destruct w; try discriminate.
  - destruct (check_fatal_stop (s1 <|st write_state_work := WORK_ERROR|>)) as (x & -> & _).
    discriminate.
  - set (s2 := s1 <|st write_state_work := _|> <|st write_state := _|>).
    destruct (get_construct_message srv s2) as [[f mt] |] eqn:HC.
    2: { destruct (fail_stop SSL_AD_INTERNAL_ERROR s2) as (x & -> & _). discriminate. }
    rewrite (construct_not_dummy srv s2 f mt) by (cbn; congruence || exact HC).
    intros [H Hw']%(write_construct_progress s2); [| by apply Q | exact HC].
    split; [| exact Hw']. unfold len in *. rewrite H. cbn. by rewrite Ht.
Qed.

Lemma write_tran_progress s s' :
  base srv s -> at_state srv s -> hand_state (statem s) <> TLS_ST_CR_SRVR_HELLO ->
  write_tran srv s = (None, s') ->
  trace s' = trace s /\ write_state (statem s') = WRITE_STATE_PRE_WORK.
Proof.
  intros HB HA HH. unfold write_tran, bind, modify.
  pose proof (write_transition_post srv s (write_transition srv s).1 (write_transition srv s).2
                HB HA HH (surjective_pairing _)) as HP.
  destruct (write_transition srv s) as [t s1]. destruct t; cbn in HP |- *.
  - destruct (check_fatal_stop s1) as (x & -> & _). discriminate.
  - intros H. apply (f_equal snd) in H. cbn in H. subst s'. cbn. split; [apply HP | reflexivity].
  - discriminate.
Qed.

Lemma write_step_progress s s' :
  Iwrite srv s -> write_step srv s = (None, s') -> (mu_write s' < mu_write s)%nat.
Proof.
  intros HI Hstep. pose proof (write_step_post srv s HI) as HP. rewrite Hstep in HP.
  cbn in HP. pose proof HP as [_ HP2]. apply Iwrite_len in HP. pose proof (Iwrite_len s HI) as Hl.
  pose proof HI as [HB HI'].
  unfold write_step, mu_write in *. destruct (write_state (statem s)) eqn:Hw.
  - apply write_tran_progress in Hstep as [H1 H2]; [| exact HB | apply HI' | apply HI'].
    assert (len s' = len s) by (unfold len; by rewrite H1). rewrite H2. lia.
  - apply write_pre_work_progress in Hstep as [H1 H2]; [| exact HI | exact Hw]. rewrite H2. lia.
  - apply write_send_progress in Hstep as [H1 H2]. rewrite H2. lia.
  - apply write_post_work_progress in Hstep as [H1 H2].
    assert (len s' = len s) by (unfold len; by rewrite H1). rewrite H2. lia.
Qed.

(** ** The loops *)

(** Enough rounds for every loop. *)
Definition enough : nat := 80.

Lemma read_machine_total fuel s :
  Iread srv s -> server s = srv -> (enough <= fuel)%nat ->
  exists r s', read_state_machine_ntls fuel s = Some (r, s').
Proof.
  intros HI HS Hf. unfold read_state_machine_ntls. rewrite HS.
  set (s0 := if read_state_first_init (statem s) then _ else s).
  assert (Q : quiet s s0) by (unfold s0; destruct (read_state_first_init _); [assign_tac | reflexivity]).
  pose proof (Iread_quiet srv _ _ HI Q) as HI0. clearbody s0.
  apply (loop_total (Iread srv) mu_read); [| exact HI0 |].
  - intros x Hx. destruct (read_step srv x) as [r x'] eqn:Hstep. exists r, x'. split; [reflexivity |].
    intros ->. split; [| by eapply read_step_progress].
    pose proof (read_step_post srv x Hx) as HP. by rewrite Hstep in HP.
  - unfold mu_read, enough, max_history in *. destruct (read_state (statem s0)); lia.
Qed.

Lemma write_machine_total fuel s :
  Iwrite srv s -> server s = srv -> (enough <= fuel)%nat ->
  exists r s', write_state_machine_ntls fuel s = Some (r, s').
Proof.
  intros HI HS Hf. unfold write_state_machine_ntls. rewrite HS.
  apply (loop_total (Iwrite srv) mu_write); [| exact HI |].
  - intros x Hx. destruct (write_step srv x) as [r x'] eqn:Hstep. exists r, x'. split; [reflexivity |].
    intros ->. split; [| by eapply write_step_progress].
    pose proof (write_step_post srv x Hx) as HP. by rewrite Hstep in HP.
  - unfold mu_write, enough, max_history in *. destruct (write_state (statem s)); lia.
Qed.

(** Reading from a message header to the end of a flight reads a message. *)
Lemma read_header_longer s r s' :
  read_header srv s = (r, s') -> r <> Some SUB_STATE_ERROR -> (len s < len s')%nat.
Proof.
  intros H Hr. unfold read_header, bind at 1 in H.
  pose proof (quiet_header s) as Q. destruct (tls_get_message_header_ntls s) as [[mt |] s1];
    [| unfold stop, ret in H; congruence].
  pose proof (frame_fields _ _ (quiet_frame _ _ Q)) as (_ & _ & _ & _ & _ & _ & _ & Ht).
  cbn [snd] in Ht. unfold bind at 1 in H.
  pose proof (flow_read_transition srv mt s1) as (_ & _ & _ & Hl).
  destruct (read_transition srv mt s1) as [[|] s2]; [| cbn in H; unfold stop, ret in H; congruence].
  cbn [negb snd] in *. unfold record in H. rewrite bind_modify in H.
  match type of H with ?m ?x = _ => assert (Hk : always flow_kept m) end.
  { pose proof (quiet_flow _ quiet_body). pose proof (fun n => quiet_flow _ (quiet_grow n)).
    pose proof (flow_process_message srv). pose proof flow_check_fatal.
    pose proof (fun A al (a : A) => flow_fail (W := W) al a).
    unfold read_body, stop, again. flow_tac. }
  specialize (Hk (s2 <|trace := trace s2 ++ [Rd mt]|>)). rewrite H in Hk.
  destruct Hk as (_ & _ & _ & Hk). cbn in Hk. rewrite length_app in Hk. unfold len.
  rewrite Ht in Hl. cbn in Hk. lia.
Qed.

Lemma read_machine_longer fuel s r s' :
  Iread srv s -> server s = srv -> read_state (statem s) = READ_STATE_HEADER ->
  read_state_machine_ntls fuel s = Some (r, s') -> r <> SUB_STATE_ERROR -> (len s < len s')%nat.
Proof.
  intros HI HS Hh. unfold read_state_machine_ntls. rewrite HS.
  set (s0 := if read_state_first_init (statem s) then _ else s).
  assert (H0 : len s0 = len s /\ read_state (statem s0) = READ_STATE_HEADER)
    by (unfold s0; destruct (read_state_first_init _); auto).
  clearbody s0. destruct H0 as [<- Hh0]. intros H. revert H.
  apply (loop_inv (fun x => x = s0 \/ (len s0 < len x)%nat)
           (fun r x => r <> SUB_STATE_ERROR -> (len s0 < len x)%nat)); [| by left].
  intros x [-> | Hx].
  - unfold read_step. rewrite Hh0. pose proof (read_header_longer s0) as Hl.
    destruct (read_header srv s0) as [[r1 |] x1]; specialize (Hl _ _ eq_refl).
    + intros Hr. apply Hl. congruence.
    + right. by apply Hl.
  - pose proof (flow_read_step srv x) as (_ & _ & _ & Hl). unfold len in *.
    destruct (read_step srv x) as [[r1 |] x1]; cbn [snd] in *; [intros _ | right]; lia.
Qed.

Definition mu_flow s : nat :=
  3 * (max_history - len s)
  + match state (statem s) with
    | MSG_FLOW_READING =>
        match read_state (statem s) with READ_STATE_HEADER => 1 | _ => 3 end
    | MSG_FLOW_WRITING => 2
    | _ => 0
    end.

Lemma flow_step_total fuel s :
  Iflow srv s -> (enough <= fuel)%nat ->
  exists r s', flow_step fuel s = Some (r, s') /\ (r = None -> Iflow srv s' /\ (mu_flow s' < mu_flow s)%nat).
Proof.
  intros HI Hf. pose proof (flow_step_post srv fuel s HI) as HP.
  assert (Hlen : forall x, Iflow srv x -> state (statem x) = MSG_FLOW_READING \/ state (statem x) = MSG_FLOW_WRITING -> (len x <= max_history)%nat).
  { intros x Hx [Hs | Hs]; unfold Iflow in Hx; rewrite Hs in Hx; [by apply (Iread_len) | by apply Iwrite_len]. }
  revert HP. unfold flow_step, Iflow in HI |- *. destruct (state (statem s)) eqn:Hs.
  - intros _. destruct (check_fatal_stop s) as (s' & -> & _). eexists _, _. by split.
  - intros _. destruct (check_fatal_stop s) as (s' & -> & _). eexists _, _. by split.
  - destruct (Iread_base srv s HI) as [_ HV]. pose proof (Iread_len s HI) as Hl.
    destruct (read_machine_total fuel s HI HV Hf) as (r & s1 & Hr). rewrite Hr.
    destruct (read_machine_post srv fuel s r s1 HI HV Hr) as [(_ & _ & _ & HK) _].
    pose proof (read_machine_longer fuel s r s1 HI HV) as HH. specialize (fun e => HH e Hr).
    destruct r; intros HP; eexists _, _; (split; [reflexivity |]); try discriminate.
    intros _. split; [exact HP |].
    pose proof (Hlen (init_write_state_machine_ntls (s1 <|st state := MSG_FLOW_WRITING|>))
                  HP (or_intror eq_refl)) as Hl1. unfold mu_flow. rewrite Hs.
    change (len (init_write_state_machine_ntls (s1 <|st state := MSG_FLOW_WRITING|>))) with (len s1) in *.
    unfold len, max_history in *. cbn.
    destruct (read_state (statem s)); [specialize (HH eq_refl ltac:(discriminate)) | |]; lia.
  - destruct (Iwrite_base srv s HI) as [_ HV]. pose proof (Iwrite_len s HI) as Hl.
    destruct (write_machine_total fuel s HI HV Hf) as (r & s1 & Hr). rewrite Hr.
    destruct (write_machine_post srv fuel s r s1 HI HV Hr) as [(_ & _ & _ & HK) _].
    destruct r; intros HP; eexists _, _; (split; [reflexivity |]); try discriminate;
      intros _; (split; [exact HP |]); unfold mu_flow; rewrite Hs; unfold len, max_history in *; cbn; lia.
  - intros _. eexists _, _. by split.
Qed.

Lemma state_machine_total fuel s :
  Iconn srv s -> clears s -> (enough <= fuel)%nat ->
  exists r s', state_machine_ntls fuel srv s = Some (r, s').
Proof.
  intros HC Hcl Hf. unfold state_machine_ntls. case_bool_decide as Hfail; [by eexists _, _ |].
  destruct HC as [HC | [HM HC]]; [contradiction |].
  destruct (entry_cases srv s HM HC Hcl) as (H1 & HM2 & HC2).
  destruct (entry_clear s) as [ok s2]. cbn [fst snd] in *. subst ok. cbn [negb].
  assert (Hrun : forall x, Iflow srv x -> exists r s',
             match loop fuel (flow_step fuel) x with
             | None => None
             | Some (r, s) => Some (r, leave s)
             end = Some (r, s')).
  { intros x Hx.
    destruct (loop_total (Iflow srv) mu_flow (flow_step fuel)
                (fun y Hy => flow_step_total fuel y Hy Hf) fuel x Hx) as (r & s' & ->).
    - unfold mu_flow, enough, max_history in *.
      destruct (state (statem x)); [| | destruct (read_state (statem x)) | |]; lia.
    - by eexists _, _. }
  destruct HC2 as [HF | [[HS HI] | [HS HI]]].
  - rewrite bool_decide_eq_true_2 by apply HF. cbn [orb].
    pose proof (init_starting srv s2 HF HM2) as HP.
    destruct (state_machine_init srv s2) as [[|] s3]; cbn [fst snd negb] in *; [| by eexists _, _].
    apply Hrun. destruct HP as [Hs HI]. unfold Iflow. by rewrite Hs.
  - rewrite !bool_decide_eq_false_2 by congruence. cbn [orb negb].
    apply Hrun. unfold Iflow. by rewrite HS.
  - rewrite !bool_decide_eq_false_2 by congruence. cbn [orb negb].
    apply Hrun. unfold Iflow. by rewrite HS.
Qed.

(** C13: Termination.  A call of the message flow state machine on a connection
    in the course of its first handshake always returns, whatever messages the
    peer sends and whatever the environment does within the laws: eighty rounds
    are enough for each of the three nested loops. *)
Theorem state_machine_returns fuel s0 s :
  fresh s0 -> ntls_mode s0 -> attempts srv fuel s0 s -> clears s -> (enough <= fuel)%nat ->
  exists r s', state_machine_ntls fuel srv s = Some (r, s').
Proof.
  intros HF HM HA Hcl Hf. apply state_machine_total; auto. by eapply attempts_Iconn.
Qed.

End Total.
