(* ===== verification/NtlsNet.v ===== *)
(** * NTLS handshake: an environment

    An environment of the state machines that satisfies the laws of [NtlsEnv]:
    messages are queues of types with the Finished value as their only content,
    parsers succeed and negotiate what a configuration says.  It stands for no
    code; it only shows that the hypotheses of the theorems can hold, in the
    witnesses here and in [NtlsSafety]. *)

From S2P Require Import Prelude NtlsTypes NtlsEnv NtlsLib NtlsClient NtlsServer NtlsStatem NtlsOrder NtlsInvariant NtlsMessageOrder NtlsHandshake NtlsRuns NtlsTotal.

(** What a peer of this environment negotiates. *)
Record config := mk_config {
  c_hit : bool;      (** resume a session *)
  c_anon : bool;     (** anonymous cipher *)
  c_request : bool;  (** the server wants a client certificate *)
  c_cert : bool;     (** the client has one *)
  c_status : bool;   (** the server sends a CertificateStatus *)
  c_ticket : bool;   (** the server sends a session ticket *)
  c_npn : bool }.    (** next protocol negotiation *)

Record net := mk_net {
  inbox : list (Z * list Z);
  outbox : list (Z * list Z);
  net_config : config }.

Definition peer := SSL net.

Definition net_cipher (c : config) : SSL_CIPHER :=
  mk_cipher 0xe053 0 (if c_anon c then SSL_aNULL else SSL_aSM2) NTLS_VERSION NTLS_VERSION.

(** The Finished value of the server and of the client. *)
Definition net_mac (server_label : bool) : list Z := if server_label then [1; 1] else [2; 2].

Definition net_negotiate (s : peer) : peer :=
  let c := net_config (world s) in
  s <|hit := c_hit c|> <|tmp_new_cipher := Some (net_cipher c)|>
    <|session_cipher := if c_hit c then Some (net_cipher c) else session_cipher s|>
    <|ext_ticket_expected := c_ticket c|> <|ext_status_expected := c_status c|>
    <|s3_npn_seen := c_npn c|>.

Definition net_header (s : peer) : option Z * peer :=
  match inbox (world s) with
  | [] => (None, s)
  | (mt, body) :: _ => (Some mt, s <|tmp_message_size := zlen body|>)
  end.

Definition net_body (s : peer) : option (list Z) * peer :=
  match inbox (world s) with
  | [] => (None, s)
  | (mt, body) :: rest =>
      (Some body,
       (if mt =? SSL3_MT_FINISHED
        then s <|tmp_peer_finish_md := net_mac (negb (server s))|> else s)
         <|world := mk_net rest (outbox (world s)) (net_config (world s))|>)
  end.

Definition net_write (s : peer) : Z * peer :=
  let mt := sent_type (server s) s in
  (1, s <|world := mk_net (inbox (world s))
            (outbox (world s) ++ [(mt, if mt =? SSL3_MT_FINISHED then tmp_finish_md s else [])])
            (net_config (world s))|>).

Definition net_ext (f : ext_fn) (s : peer) : Z * peer :=
  match f with
  | ssl_do_write | ssl3_do_write_ccs => net_write s
  | ssl3_check_client_certificate_ntls => (if c_cert (net_config (world s)) then 1 else 0, s)
  | _ => (1, s)
  end.

Definition net_process (f : process_fn) (pkt : list Z) (s : peer) : MSG_PROCESS_RETURN * peer :=
  match f with
  | tls_process_server_hello_ntls => (MSG_PROCESS_CONTINUE_READING, net_negotiate s)
  | tls_process_server_certificate_ntls | tls_process_client_hello_ntls
  | tls_process_client_key_exchange_ntls => (MSG_PROCESS_CONTINUE_PROCESSING, s)
  | tls_process_certificate_request_ntls =>
      (MSG_PROCESS_CONTINUE_PROCESSING, s <|tmp_cert_req := 1|>)
  | tls_process_client_certificate_ntls =>
      (MSG_PROCESS_CONTINUE_READING, s <|session_peer := c_cert (net_config (world s))|>)
  | tls_process_end_of_early_data_ntls => (MSG_PROCESS_ERROR, s)
  | _ => (MSG_PROCESS_CONTINUE_READING, s)
  end.

Definition net_work (f : work_fn) (wst : WORK_STATE) (s : peer) : WORK_STATE * peer :=
  match f with
  | tls_post_process_server_certificate_ntls => (WORK_FINISHED_CONTINUE, s)
  | tls_post_process_client_hello_ntls =>
      (WORK_FINISHED_STOP,
       (net_negotiate s)
         <|verify_mode := if c_request (net_config (world s)) then SSL_VERIFY_PEER else 0|>)
  end.

Definition net_construct (f : construct_fn) (s : peer) : bool * peer :=
  match f with
  | tls_construct_certificate_request_ntls =>
      (true, s <|certreqs_sent := certreqs_sent s + 1|> <|tmp_cert_request := true|>)
  | _ => (true, s)
  end.

Definition net_clear (s : peer) : bool * peer :=
  (true, ossl_statem_clear_ntls s <|hit := false|> <|hello_retry_request := SSL_HRR_NONE|>
           <|init_buf := false|> <|tmp_finish_md := []|> <|tmp_peer_finish_md := []|>
           <|tmp_cert_request := false|> <|tmp_cert_req := 0|> <|tmp_new_cipher := None|>).

#[export] Instance net_env : Env net := {
  ext := net_ext;
  tls_get_message_header_ntls := net_header;
  tls_get_message_body_ntls := net_body;
  process := net_process;
  work := net_work;
  construct := net_construct;
  final_finish_mac b s := (net_mac b, s);
  cert_cb := None;
  ssl_do_client_cert_cb_ntls s := ((0, false), s);
  SSL_clear := net_clear;
  ssl_security _ := true;
  ssl_get_max_version _ := Some NTLS_VERSION;
  SSL_get_ciphers s := [net_cipher (net_config (world s))];
  session_has_master_key _ := true;
  RECORD_LAYER_read_pending _ := false;
  RECORD_LAYER_write_pending _ := false }.

#[export] Instance net_laws : EnvLaws net.
Proof.
  split; cbn; intros; try discriminate; try reflexivity.
  - destruct f; cbn; try reflexivity; assign_tac.
  - unfold net_header. destruct (inbox (world s)) as [| [mt body] rest]; [reflexivity | cbn; assign_tac].
  - unfold net_body. destruct (inbox (world s)) as [| [mt body] rest]; [reflexivity |].
    destruct (mt =? SSL3_MT_FINISHED); cbn; assign_tac.
  - destruct f; cbn; try reflexivity; assign_tac.
  - destruct f; split; reflexivity.
  - destruct f; split; reflexivity.
  - destruct f; try contradiction; split; reflexivity.
  - destruct f; cbn; try reflexivity; assign_tac.
  - destruct f; try discriminate; split; reflexivity.
  - destruct f; try discriminate; split; reflexivity.
  - destruct f; try discriminate; split; reflexivity.
  - destruct f; cbn; try reflexivity; assign_tac.
  - by split; split.
  - by split.
  - destruct f; reflexivity.
  - destruct f; reflexivity.
  - by split.
  - split_and!; try reflexivity. intros (? & ? & ? & ?). by split_and!.
Qed.

(** ** New connections *)

Definition new_statem : OSSL_STATEM :=
  mk_statem MSG_FLOW_UNINITED WRITE_STATE_TRANSITION WORK_ERROR READ_STATE_HEADER WORK_ERROR
    TLS_ST_BEFORE TLS_ST_BEFORE true false 0 false false ENC_WRITE_STATE_VALID
    ENC_READ_STATE_VALID.

(** A new connection of either role. *)
Definition new_peer (srv : bool) (c : config) (msgs : list (Z * list Z)) : peer :=
  {| statem := new_statem; server := srv; version := NTLS_VERSION; hit := false;
     renegotiate := false; new_session := false; options := 0;
     early_data_state := SSL_EARLY_DATA_NONE; max_early_data := 0;
     hello_retry_request := SSL_HRR_NONE; post_handshake_auth := SSL_PHA_NONE;
     shutdown := 0; rwstate := SSL_NOTHING; first_packet := false; init_buf := false;
     init_num := 0; init_msg := 4; verify_mode := 0; certreqs_sent := 0;
     max_cert_list := 102400; session_cipher := None; session_peer := false;
     session_tick := false; ext_session_secret_cb := false; ext_ticket_expected := false;
     ext_status_expected := false; ext_early_data := 0; s3_flags := 0;
     s3_renegotiate := false; s3_change_cipher_spec := false; s3_npn_seen := false;
     s3_in_read_app_data := false; s3_num_renegotiations := 0; s3_total_renegotiations := 0;
     s3_key_block := false; s3_handshake_buffer := true; s3_previous_client_finished := [];
     s3_previous_server_finished := []; tmp_new_cipher := None; tmp_cert_req := 0;
     tmp_cert_request := false; tmp_message_size := 0; tmp_finish_md := [];
     tmp_peer_finish_md := []; trace := []; world := mk_net msgs [] c |}.

(** ** The hypotheses of the theorems on the state machines can hold *)

(** The messages of a server, for a client to read in one call. *)
Definition full_flights : list (Z * list Z) :=
  [(SSL3_MT_SERVER_HELLO, []); (SSL3_MT_CERTIFICATE, []); (SSL3_MT_SERVER_KEY_EXCHANGE, []);
   (SSL3_MT_SERVER_DONE, []); (SSL3_MT_CHANGE_CIPHER_SPEC, []);
   (SSL3_MT_FINISHED, net_mac true)].

Definition plain_config : config := mk_config false false false false false false false.
Definition demo_client : peer := new_peer false plain_config full_flights.

Definition demo_result : peer :=
  match state_machine_ntls enough false demo_client with
  | Some (_, s) => s
  | None => demo_client
  end.

Lemma handshake_order_witness :
  hand_state (statem demo_result) = TLS_ST_OK
  /\ In (trace demo_result) (handshake_words false (params_of false demo_result)).
Proof.
  apply (handshake_order false enough demo_client demo_client).
  - repeat split.
  - repeat split.
  - apply attempts_start.
  - reflexivity.
  - vm_compute. reflexivity.
Defined.

Lemma state_machine_returns_witness :
  exists r s', state_machine_ntls 80 true (new_peer true plain_config []) = Some (r, s').
Proof.
  apply (state_machine_returns true 80 (new_peer true plain_config []) (new_peer true plain_config [])).
  - repeat split.
  - repeat split.
  - apply attempts_start.
  - reflexivity.
  - apply le_n.
Defined.
