(* ===== verification/NtlsSafety.v ===== *)
(** * NTLS handshake: single messages and errors

    A message out of order ends the connection for good, one in order is
    accepted by the transition functions, and every call of
    the message flow state machine restores the nesting counter
    [in_handshake], but for the early return after a failed [SSL_clear]. *)

From S2P Require Import Prelude NtlsTypes NtlsEnv NtlsLib NtlsClient NtlsServer NtlsStatem NtlsOrder NtlsInvariant NtlsMessageOrder NtlsHandshake NtlsRuns NtlsTotal NtlsNet.

(** ** The nesting counter *)

Section Counter.
Context {W : Type} {E : Env W} {L : EnvLaws W}.
Implicit Types s : SSL W.

(** The value of the counter. *)
Definition depth s : Z := in_handshake (statem s).

Lemma flow_kept_depth {A} (m : M W A) s : always flow_kept m -> depth (m s).2 = depth s.
Proof. intros H. apply H. Qed.

Lemma loop_depth {R} (step : SSL W -> option (option R * SSL W)) :
  (forall s r s', step s = Some (r, s') -> depth s' = depth s) ->
  forall fuel s r s', loop fuel step s = Some (r, s') -> depth s' = depth s.
Proof.
  intros H fuel s r s' Hl.
  refine (loop_inv (fun x => depth x = depth s) (fun _ x => depth x = depth s) step
            _ fuel s r s' eq_refl Hl).
  intros x Hx. specialize (H x). destruct (step x) as [[[r1 |] x1] |]; [| | exact I];
    (etrans; [eapply H; reflexivity | exact Hx]).
Qed.

Lemma read_machine_depth fuel s r s' :
  read_state_machine_ntls fuel s = Some (r, s') -> depth s' = depth s.
Proof.
  unfold read_state_machine_ntls. intros H. apply loop_depth in H.
  - rewrite H. by destruct (read_state_first_init (statem s)).
  - intros x r1 x1 Hx. pose proof (flow_kept_depth _ x (flow_read_step (server s))) as Hd.
    destruct (read_step (server s) x). by simplify_eq.
Qed.

Lemma write_machine_depth fuel s r s' :
  write_state_machine_ntls fuel s = Some (r, s') -> depth s' = depth s.
Proof.
  unfold write_state_machine_ntls. apply loop_depth.
  intros x r1 x1 Hx. pose proof (flow_kept_depth _ x (flow_write_step (server s))) as Hd.
  destruct (write_step (server s) x). by simplify_eq.
Qed.

Lemma flow_step_depth fuel s r s' : flow_step fuel s = Some (r, s') -> depth s' = depth s.
Proof.
  pose proof (flow_kept_depth _ s flow_check_fatal) as Hc.
  unfold flow_step. destruct (state (statem s)).
  - destruct (check_fatal s). intros. by simplify_eq.
  - destruct (check_fatal s). intros. by simplify_eq.
  - destruct (read_state_machine_ntls fuel s) as [[[] s1] |] eqn:Hr; intros; simplify_eq;
      exact (read_machine_depth _ _ _ _ Hr).
  - destruct (write_state_machine_ntls fuel s) as [[[] s1] |] eqn:Hr; intros; simplify_eq;
      exact (write_machine_depth _ _ _ _ Hr).
  - intros. by simplify_eq.
Qed.

(** The relation on states that keeps the counter, to run [always] with. *)
Definition level s s' : Prop := depth s' = depth s.
#[local] Instance level_preorder : PreOrder level.
Proof. split; [intros s; reflexivity | intros s s' s''; unfold level; congruence]. Qed.

Lemma init_depth srv s : depth (state_machine_init srv s).2 = depth s.
Proof.
  assert (Hc : forall f, always level (call (W := W) f)) by (intros f s0; apply flow_call).
  assert (Hf : forall A al (a : A), always level (fail (W := W) al a))
    by (intros A al a s0; apply flow_fail).
  assert (Ht : always level (tls_setup_handshake_ntls (W := W)))
    by (intros s0; apply flow_setup).
  assert (H : always level (state_machine_init (W := W) srv)); [| exact (H s)].
  unfold state_machine_init, or_fatal, setup_if_fresh.
  repeat first [ solve [auto 1] | always_step ];
    unfold level, depth; cbn; repeat case_match; reflexivity.
Qed.

(** The early return: [SSL_clear] is called and fails. *)
Definition clear_fails s : bool :=
  negb (bool_decide (state (statem s) = MSG_FLOW_ERROR)) && negb (entry_clear s).1.

Lemma entry_depth s : depth (entry_clear s).2 = depth s + 1.
Proof.
  unfold entry_clear. destruct (_ && _); [| reflexivity].
  exact (proj1 (clear_core _)).
Qed.

(** C32: The nesting counter.  Every call of the message flow state machine that
    returns, with success, to wait or with an error, leaves [in_handshake] as it
    found it, with one exception: when [SSL_clear] fails at the entry, the
    call returns -1 without undoing its increment. *)
Theorem in_handshake_balanced fuel srv s r s' :
  state_machine_ntls fuel srv s = Some (r, s') ->
  in_handshake (statem s') = in_handshake (statem s) + (if clear_fails s then 1 else 0)
  /\ (clear_fails s = true -> r = -1).
Proof.
  unfold state_machine_ntls, clear_fails.
  pose proof (entry_depth s) as He. unfold depth in He.
  case_bool_decide; [intros; simplify_eq; split; [cbn; lia | reflexivity] |].
  destruct (entry_clear s) as [[|] s1]; cbn [fst snd negb andb] in *;
    [| intros; simplify_eq; by split].
  set (m := if bool_decide (state (statem s1) = MSG_FLOW_UNINITED) || _
            then state_machine_init srv s1 else (true, s1)).
  assert (Hm : depth m.2 = depth s1) by (unfold m; destruct (_ || _); [apply init_depth | reflexivity]).
  destruct m as [[|] s2]; cbn [snd negb] in *; unfold depth in Hm.
  - destruct (loop fuel (flow_step fuel) s2) as [[r1 s3] |] eqn:Hl; [| discriminate].
    apply (loop_depth _ (flow_step_depth fuel)) in Hl. unfold depth in Hl.
    intros; simplify_eq. split; [cbn; lia | discriminate].
  - intros; simplify_eq. split; [cbn; lia | discriminate].
Qed.

End Counter.

(** ** Messages out of order *)

Section Unexpected.
Context {W : Type} {E : Env W} {L : EnvLaws W}.
Variable srv : bool.
Implicit Types s : SSL W.

(** A connection that waits for a message of the peer. *)
Definition awaiting s : Prop :=
  state (statem s) = MSG_FLOW_READING /\ read_state (statem s) = READ_STATE_HEADER
  /\ in_init (statem s) = true.

(** The connection as the header of the next message is read. *)
Definition entered s : SSL W := s <|st in_handshake := in_handshake (statem s) + 1|>.
Definition at_header s : SSL W :=
  if read_state_first_init (statem s)
  then entered s <|first_packet := true|> <|st read_state_first_init := false|> else entered s.

(** The message goes on with no handshake, whatever the parameters. *)
Definition out_of_order s (mt : Z) : Prop :=
  forall p, viable srv p (trace s ++ [Rd mt]) = false.

Lemma at_header_quiet s : quiet (entered s) (at_header s).
Proof. unfold at_header. destruct (read_state_first_init (statem s)); [assign_tac | reflexivity]. Qed.

Lemma awaiting_live fuel s0 s :
  fresh s0 -> ntls_mode s0 -> attempts srv fuel s0 s -> awaiting s ->
  base srv s /\ turn s /\ at_state srv s.
Proof.
  intros HF HM HA (HS & HR & _).
  destruct (attempts_Iconn _ _ _ _ HF HM HA) as [H | [_ [H | [[_ H] | [H _]]]]];
    [unfold failed in H; congruence | destruct H; congruence | | congruence].
  unfold Iread in H. by rewrite HR in H.
Qed.

(** The reader refuses the message. *)
Lemma out_of_order_refused s mt s1 :
  base srv s -> turn s -> at_state srv s -> quiet (at_header s) s1 -> out_of_order s mt ->
  (read_transition srv mt s1).1 = false.
Proof.
  intros HB HT HA Q HO.
  assert (Q1 : quiet (entered s) s1)
    by (etrans; [apply at_header_quiet | exact Q]).
  destruct (read_transition srv mt s1) as [[|] s2] eqn:Ht; [| reflexivity].
  apply (read_transition_reached srv mt) in Ht as (_ & _ & _ & _ & HR).
  - unfold reached in HR. apply andb_true_iff in HR as [_ HR].
    pose proof (frame_fields _ _ (quiet_frame _ _ Q1)) as (_ & _ & _ & _ & _ & _ & _ & Htr).
    rewrite Htr in HR. cbn in HR. by rewrite HO in HR.
  - refine (base_quiet srv (entered s) _ _ Q1). exact HB.
  - refine (turn_quiet (entered s) _ _ Q1). exact HT.
  - refine (at_state_quiet srv (entered s) _ _ Q1). clear -HA. destruct srv; exact HA.
Qed.

Lemma awaiting_entry s :
  awaiting s -> entry_clear s = (true, entered s).
Proof.
  intros (HS & _ & HI). unfold entry_clear, SSL_in_init_ntls, SSL_in_before_ntls. cbn.
  rewrite HI, HS. cbn. by rewrite andb_false_r.
Qed.

(** The call returns what the refused header leaves. *)
Lemma refused_call fuel s mt s1 :
  awaiting s -> server s = srv -> (0 < fuel)%nat ->
  tls_get_message_header_ntls (at_header s) = (Some mt, s1) ->
  (read_transition srv mt s1).1 = false ->
  state_machine_ntls fuel srv s = Some (-1, leave (read_transition srv mt s1).2).
Proof.
  intros HA HV Hf Hh Ht. destruct fuel as [| fuel]; [lia |].
  pose proof (awaiting_entry s HA) as He. destruct HA as (HS & HR & HI).
  unfold state_machine_ntls. rewrite bool_decide_eq_false_2 by congruence. rewrite He. cbn [negb].
  rewrite !bool_decide_eq_false_2 by (cbn; congruence). cbn [orb negb].
  cbn [loop]. unfold flow_step at 1.
  change (state (statem (entered s)))
    with (state (statem s)). rewrite HS.
  unfold read_state_machine_ntls.
  change (server (entered s)) with (server s).
  rewrite HV. fold (at_header s).
  assert (Hst : read_step srv (at_header s)
                = (Some SUB_STATE_ERROR, (read_transition srv mt s1).2)).
  { unfold read_step. replace (read_state (statem (at_header s))) with READ_STATE_HEADER
      by (unfold at_header; cbn; destruct (read_state_first_init (statem s)); symmetry; exact HR).
    unfold read_header, bind. rewrite Hh. destruct (read_transition srv mt s1) as [[|] s2];
      [discriminate | reflexivity]. }
  change (if read_state_first_init _ then _ else _) with (at_header s).
  cbn [loop]. rewrite Hst. reflexivity.
Qed.

(** A failed connection stays as it is. *)
Lemma failed_call fuel srv' s : failed s -> state_machine_ntls fuel srv' s = Some (-1, s).
Proof. intros H. unfold state_machine_ntls. by rewrite bool_decide_eq_true_2 by exact H. Qed.

(** C12: A message out of order is fatal.  Let a connection in the course of its
    first handshake, after any number of interrupted calls, wait for a message,
    and let the next one be of a type that no TLCP handshake has after the
    messages exchanged so far.  Then the call returns -1 and leaves the
    connection in the error state, with the handshake state and the history
    as they were; and every later call, in either role, returns -1 and changes
    nothing. *)
Theorem out_of_order_fatal fuel s0 s mt s1 :
  fresh s0 -> ntls_mode s0 -> attempts srv fuel s0 s -> (0 < fuel)%nat ->
  awaiting s -> tls_get_message_header_ntls (at_header s) = (Some mt, s1) ->
  out_of_order s mt ->
  exists s',
    state_machine_ntls fuel srv s = Some (-1, s')
    /\ state (statem s') = MSG_FLOW_ERROR
    /\ hand_state (statem s') = hand_state (statem s) /\ trace s' = trace s
    /\ forall fuel' srv', state_machine_ntls fuel' srv' s' = Some (-1, s').
Proof.
  intros HF HM HA Hf HW Hh HO. destruct (awaiting_live _ _ _ HF HM HA HW) as (HB & HT & HS).
  assert (Q : quiet (at_header s) s1)
    by (pose proof (quiet_header (at_header s)) as Q; by rewrite Hh in Q).
  pose proof (out_of_order_refused s mt s1 HB HT HS Q HO) as Hr.
  pose proof (read_transition_false srv mt s1 Hr) as Hfail.
  exists (leave (read_transition srv mt s1).2). split; [apply refused_call; auto; apply HB |].
  split; [exact Hfail |].
  pose proof (read_transition_refused srv mt s1 Hr) as Q2.
  assert (Q3 : quiet (entered s)
                 (read_transition srv mt s1).2)
    by (etrans; [apply at_header_quiet | etrans; eassumption]).
  pose proof (frame_fields _ _ (quiet_frame _ _ Q3)) as (H1 & _ & _ & _ & _ & _ & _ & H2).
  split; [exact H1 |]. split; [exact H2 |]. intros. apply failed_call. exact Hfail.
Qed.

End Unexpected.

(** ** Messages in order *)

Section Accepted.
Context {W : Type} {E : Env W} {L : EnvLaws W}.
Variable srv : bool.
Implicit Types s : SSL W.

(** The last message of a history *)
Definition last_event (w : word) : event := List.last w (Rd (-1)).

(** The session ticket and the next protocol come exactly when the hellos have
    announced them, the certificate status only then, and a client certificate is only asked for by a server that has one. *)
Record announced s (mt : Z) : Prop := {
  ann_ticket : mt = SSL3_MT_NEWSESSION_TICKET -> ext_ticket_expected s = true;
  ann_no_ticket : srv = false -> mt = SSL3_MT_CHANGE_CIPHER_SPEC ->
    last_event (trace s) <> Rd SSL3_MT_NEWSESSION_TICKET -> ext_ticket_expected s = false;
  ann_status : mt = SSL3_MT_CERTIFICATE_STATUS -> ext_status_expected s = true;
  ann_request : mt = SSL3_MT_CERTIFICATE_REQUEST -> no_auth s = false;
  ann_next_proto : mt = SSL3_MT_NEXT_PROTO -> s3_npn_seen s = true;
  ann_no_next_proto : srv = true -> mt = SSL3_MT_FINISHED ->
    last_event (trace s) = Rd SSL3_MT_CHANGE_CIPHER_SPEC -> s3_npn_seen s = false }.

(** The message goes on with a TLCP handshake that has the parameters negotiated
    so far; a server may still ask for a client certificate. *)
Definition in_order s (mt : Z) : Prop :=
  (exists req, viable srv (set_req req (params_of srv s)) (trace s ++ [Rd mt]) = true) /\ announced s mt.

(** The messages that come next after a history of the state [h]. *)
Definition nexts (p p' : params) (h : OSSL_HANDSHAKE_STATE) : list Z :=
  omap (fun w => match List.last w (Wr 0) with
                 | Rd mt => if reached srv p h (removelast w) then Some mt else None
                 | Wr _ => None
                 end) (candidates srv p').

Lemma nexts_spec p p' h w mt :
  reached srv p h w = true -> viable srv p' (w ++ [Rd mt]) = true -> In mt (nexts p p' h).
Proof.
  intros HR HV. apply list_elem_of_In, list_elem_of_omap. exists (w ++ [Rd mt]). split.
  - unfold viable in HV. rewrite andb_true_iff, existsb_exists in HV. destruct HV as [_ (x & Hx & H%is_prefix_In)].
    apply list_elem_of_In. unfold candidates. rewrite in_flat_map. eauto.
  - rewrite last_last, removelast_last, HR. reflexivity.
Qed.

Lemma flag_lor_false x a b : flag x (Z.lor a b) = false -> flag x a = false /\ flag x b = false.
Proof.
  unfold flag. rewrite !negb_false_iff, !Z.eqb_eq, Z.land_lor_distr_r, Z.lor_eq_0_iff. auto.
Qed.

Lemma request_allowed s : no_auth s = false -> cert_req_allowed s = true.
Proof.
  unfold no_auth, cert_req_allowed. intros [-> ->]%flag_lor_false. by rewrite andb_false_r.
Qed.

(** The state of a message that is read. *)
Definition arrives s (mt : Z) (h : OSSL_HANDSHAKE_STATE) : Prop :=
  read_transition srv mt s = (true, s <|st hand_state := h|>) /\ event_state srv (Rd mt) = Some h.

(** The last message of the history is the one of the state. *)
Lemma reached_last p h w e h' :
  reached srv p h w = true -> h <> TLS_ST_BEFORE -> h <> TLS_ST_OK -> event_state srv e = Some h' ->
  (last_event w = e -> h' = h).
Proof.
  unfold reached, last_event. intros HR H1 H2 He Hl. apply andb_true_iff in HR as [HR _].
  destruct h; try contradiction; rewrite Hl, He in HR; by apply bool_decide_eq_true in HR.
Qed.

End Accepted.

(** Try the messages that come next, with the settings that matter. *)
Ltac next_messages H :=
  match type of H with In _ ?l => let v := eval vm_compute in l in change l with v in H end;
  cbn [In] in H; repeat match type of H with _ \/ _ => destruct H as [H | H] end; try contradiction H; subst.

(** What the hellos have announced about the message at hand *)
Ltac settings HA :=
  try rewrite (ann_ticket _ _ _ HA eq_refl); try rewrite (ann_status _ _ _ HA eq_refl);
  try rewrite (ann_next_proto _ _ _ HA eq_refl);
  try rewrite (request_allowed _ (ann_request _ _ _ HA eq_refl)).

Lemma client_in_order {W} {E : Env W} {L : EnvLaws W} (s : SSL W) mt :
  turn s -> at_state false s -> in_order false s mt -> exists h, arrives false s mt h.
Proof.
  intros HT [HOK HR] ([req HV] & HA). unfold arrives, read_transition, turn in *.
  pose proof (nexts_spec false _ _ _ _ _ HR HV) as HN.
  assert (Hl : hand_state (statem s) = TLS_ST_CW_FINISHED \/ hand_state (statem s) = TLS_ST_CR_SRVR_HELLO ->
     last_event (trace s) <> Rd SSL3_MT_NEWSESSION_TICKET).
  { intros Hh He. assert (TLS_ST_CR_SESSION_TICKET = hand_state (statem s)); [| destruct Hh; congruence].
    refine (reached_last false _ _ _ (Rd SSL3_MT_NEWSESSION_TICKET) _ HR _ _ eq_refl He); destruct Hh; congruence. }
  unfold ossl_statem_client_read_transition_ntls, read_after_cert_status, read_after_key_exch,
    read_after_cert_req, key_exchange_expected.
  unfold params_of in HN. clear HV.
  destruct (hand_state (statem s)) eqn:Hh; try contradiction;
  destruct (hit s) eqn:Hit, (no_auth s) eqn:Hna, (tmp_cert_req s =? 0), (session_peer s && negb (no_cert_verify (statem s))), req; try discriminate HT;
    next_messages HN.
  all: eexists; (split; [| reflexivity]); settings HA;
    try rewrite (ann_no_ticket _ _ _ HA eq_refl eq_refl) by auto;
    cbn [Z.eqb Pos.eqb andb orb negb flag]; rewrite ?andb_false_r; reflexivity.
Qed.

Lemma server_change_event e : server_state e = Some TLS_ST_SR_CHANGE -> e = Rd SSL3_MT_CHANGE_CIPHER_SPEC.
Proof.
  destruct e as [mt | mt]; unfold server_state; intros H;
    repeat match type of H with (if ?b then _ else _) = _ => destruct b eqn:?; [try discriminate H |] end;
    try discriminate H; by match goal with H : (_ =? SSL3_MT_CHANGE_CIPHER_SPEC) = true |- _ => apply Z.eqb_eq in H as -> end.
Qed.

Lemma server_in_order {W} {E : Env W} {L : EnvLaws W} (s : SSL W) mt :
  ntls_mode s -> turn s -> at_state true s -> in_order true s mt -> exists h, arrives true s mt h.
Proof.
  intros [HVer _] HT [HOK HR] ([req HV] & HA). unfold arrives, read_transition, turn in *.
  pose proof (nexts_spec true _ _ _ _ _ HR HV) as HN.
  assert (Hl : hand_state (statem s) = TLS_ST_SR_CHANGE -> last_event (trace s) = Rd SSL3_MT_CHANGE_CIPHER_SPEC).
  { intros Hh. rewrite Hh in HR. unfold reached in HR. apply andb_true_iff in HR as [HR _]. cbn [event_state] in HR.
    destruct (server_state _) as [h' |] eqn:He in HR; [| discriminate].
    apply bool_decide_eq_true in HR as ->. by apply server_change_event. }
  unfold ossl_statem_server_read_transition_ntls. unfold params_of in HN. clear HV.
  destruct (hand_state (statem s)) eqn:Hh; try contradiction;
  destruct (hit s) eqn:Hit, (no_auth s) eqn:Hna, (tmp_cert_request s), (session_peer s), (no_cert_verify (statem s)), req;
    try discriminate HT; next_messages HN.
  all: eexists; (split; [| reflexivity]); settings HA;
    try rewrite (ann_no_next_proto _ _ _ HA eq_refl eq_refl) by auto;
    cbn [Z.eqb Pos.eqb andb orb negb flag]; rewrite ?andb_false_r; reflexivity.
Qed.

Section InOrder.
Context {W : Type} {E : Env W} {L : EnvLaws W}.
Variable srv : bool.
Implicit Types s : SSL W.

(** C14: A message in order is accepted.  Let a connection in the course of its
    first handshake, after any number of interrupted calls, wait for a message, and
    let the next one be of a type that a TLCP handshake with the parameters
    negotiated so far has after the messages exchanged so far - the session
    ticket and next protocol if and only if the hellos have announced them, the
    certificate status only if they have, the request for a client certificate only from a server that is
    itself authenticated.  Then the transition function of the role accepts the
    message: it moves the handshake to the state of that message, raises no alert and
    changes nothing else. *)
Theorem in_order_accepted fuel s0 s mt s1 :
  fresh s0 -> ntls_mode s0 -> attempts srv fuel s0 s ->
  awaiting s -> tls_get_message_header_ntls (at_header s) = (Some mt, s1) ->
  in_order srv s1 mt ->
  exists h, read_transition srv mt s1 = (true, s1 <|st hand_state := h|>)
            /\ event_state srv (Rd mt) = Some h.
Proof.
  intros HF HM HA HW Hh HO. destruct (awaiting_live _ _ _ _ HF HM HA HW) as (HB & HT & HS).
  assert (Q : quiet (entered s) s1).
  { etrans; [apply at_header_quiet |]. pose proof (quiet_header (at_header s)) as Q. by rewrite Hh in Q. }
  assert (HB1 : base srv s1) by (refine (base_quiet srv (entered s) _ _ Q); exact HB).
  assert (HT1 : turn s1) by (refine (turn_quiet (entered s) _ _ Q); exact HT).
  assert (HS1 : at_state srv s1) by (refine (at_state_quiet srv (entered s) _ _ Q); clear -HS; by destruct srv).
  clear HF HM HA. destruct srv; [apply server_in_order | apply client_in_order]; auto. apply HB1.
Qed.

End InOrder.

(** ** Concrete runs *)

(** A network peer whose [SSL_clear] fails. *)
#[local] Instance stuck_env : Env net := {
  ext := net_ext;
  tls_get_message_header_ntls := net_header;
  tls_get_message_body_ntls := net_body;
  process := net_process;
  work := net_work;
  construct := net_construct;
  final_finish_mac b s := (net_mac b, s);
  cert_cb := None;
  ssl_do_client_cert_cb_ntls s := ((0, false), s);
  SSL_clear s := (false, s);
  ssl_security _ := true;
  ssl_get_max_version _ := Some NTLS_VERSION;
  SSL_get_ciphers s := [net_cipher (net_config (world s))];
  session_has_master_key _ := true;
  RECORD_LAYER_read_pending _ := false;
  RECORD_LAYER_write_pending _ := false }.

#[local] Instance stuck_laws : EnvLaws net.
Proof.
  destruct net_laws. split; try assumption; cbn; discriminate.
Qed.

(** Two failed calls leave the counter of a new connection at 2. *)
Lemma in_handshake_balanced_witness :
  let s := new_peer false plain_config [] in
  let s1 := s <|st in_handshake := 1|> in
  in_handshake (statem (s <|st in_handshake := 1|> <|st in_handshake := 2|>))
  = in_handshake (statem s1) + (if clear_fails (E := stuck_env) s1 then 1 else 0)
  /\ (clear_fails (E := stuck_env) s1 = true -> -1 = -1).
Proof.
  intros s s1.
  apply (in_handshake_balanced (E := stuck_env) (L := stuck_laws) enough false s1 (-1)).
  reflexivity.
Defined.

(** A client that has sent its ClientHello, and is sent a Finished message. *)
Definition waiting_client : peer :=
  match state_machine_ntls (E := net_env) enough false (new_peer false plain_config []) with
  | Some (_, s) => s
  | None => new_peer false plain_config []
  end.
Definition misled_client : peer :=
  waiting_client <|world := mk_net [(SSL3_MT_FINISHED, net_mac true)] [] plain_config|>.

Lemma out_of_order_fatal_witness :
  exists s',
    state_machine_ntls (E := net_env) enough false misled_client = Some (-1, s')
    /\ state (statem s') = MSG_FLOW_ERROR
    /\ hand_state (statem s') = hand_state (statem misled_client)
    /\ trace s' = trace misled_client
    /\ forall fuel' srv', state_machine_ntls (E := net_env) fuel' srv' s' = Some (-1, s').
Proof.
  apply (out_of_order_fatal (E := net_env) (L := net_laws) false enough
           (new_peer false plain_config []) misled_client SSL3_MT_FINISHED
           (at_header misled_client <|tmp_message_size := 2|>)).
  - repeat split.
  - repeat split.
  - apply attempts_between with (s := waiting_client).
    + apply attempts_call with (s := new_peer false plain_config []);
        [apply attempts_start | reflexivity | vm_compute; reflexivity].
    + unfold misled_client. assign_tac.
  - vm_compute. lia.
  - vm_compute. auto.
  - vm_compute. reflexivity.
  - intros [[] [] [] []]; vm_compute; reflexivity.
Defined.

(** The same client is sent a ServerHello. *)
Definition answered_client : peer :=
  waiting_client <|world := mk_net [(SSL3_MT_SERVER_HELLO, [])] [] plain_config|>.

Lemma in_order_accepted_witness :
  exists h, read_transition (E := net_env) false SSL3_MT_SERVER_HELLO (at_header answered_client <|tmp_message_size := 0|>)
            = (true, at_header answered_client <|tmp_message_size := 0|> <|st hand_state := h|>)
            /\ event_state false (Rd SSL3_MT_SERVER_HELLO) = Some h.
Proof.
  apply (in_order_accepted (E := net_env) (L := net_laws) false enough
           (new_peer false plain_config []) answered_client SSL3_MT_SERVER_HELLO
           (at_header answered_client <|tmp_message_size := 0|>)).
  - repeat split.
  - repeat split.
  - apply attempts_between with (s := waiting_client).
    + apply attempts_call with (s := new_peer false plain_config []);
        [apply attempts_start | reflexivity | vm_compute; reflexivity].
    + unfold answered_client. assign_tac.
  - vm_compute. auto.
  - vm_compute. reflexivity.
  - split; [exists false; vm_compute; reflexivity |]. split; try discriminate.
Defined.
