(* ===== verification/Buffers.v ===== *)
(** * Buffers and words

    Writes at an offset of a C buffer that stay within it, and integers in
    network byte order; and bitwise operations on [uint32_t] as the SM3, SM4 and
    ZUC code uses them: which bits a conversion, a shift and a rotation have, their
    ranges, and big-endian loads and stores. *)

From S2P Require Import Prelude.

(** [memcpy(p + n, src, len)] *)
Definition copy_at (n : nat) (src p : list Z) : list Z :=
  take n p ++ src ++ drop (n + length src) p.

Lemma copy_at_length n src p :
  (n + length src <= length p)%nat -> length (copy_at n src p) = length p.
Proof. intros. unfold copy_at. rewrite !length_app, length_take, length_drop. lia. Qed.

Lemma copy_at_take n src p :
  (n + length src <= length p)%nat -> take (n + length src) (copy_at n src p) = take n p ++ src.
Proof.
  intros. unfold copy_at. rewrite app_assoc.
  apply take_app_length'. rewrite length_app, length_take. lia.
Qed.

Lemma copy_at_end n src p :
  (n + length src = length p)%nat -> copy_at n src p = take n p ++ src.
Proof. intros. unfold copy_at. rewrite drop_ge by lia. now rewrite app_nil_r. Qed.

Lemma copy_at_whole src p : length src = length p -> copy_at 0 src p = src.
Proof. intros H. unfold copy_at. cbn [take app Nat.add]. rewrite drop_ge by lia. apply app_nil_r. Qed.

(** ** Big-endian integers *)

Fixpoint be_bytes (n : nat) (x : Z) : list Z :=
  match n with O => [] | S n => be_bytes n (x / 256) ++ [x mod 256] end.
Definition be_value (b : list Z) : Z := foldl (fun x y => 256 * x + y) 0 b.

Lemma be_bytes_length n x : length (be_bytes n x) = n.
Proof.
  revert x. induction n as [| n IH]; intros x; [reflexivity |].
  cbn [be_bytes]. rewrite length_app, IH. cbn. lia.
Qed.

Lemma be_bytes_bytes n x : bytes (be_bytes n x).
Proof.
  revert x. induction n as [| n IH]; intros x; [constructor |].
  cbn [be_bytes]. apply Forall_app_2; [apply IH |]. repeat constructor; apply Z.mod_pos_bound; lia.
Qed.

Lemma be_roundtrip n x : 0 <= x < 256 ^ Z.of_nat n -> be_value (be_bytes n x) = x.
Proof.
  unfold be_value. revert x. induction n as [| n IH]; intros x Hx; [cbn in *; lia |].
  rewrite Nat2Z.inj_succ, Z.pow_succ_r in Hx by lia.
  cbn [be_bytes]. rewrite foldl_app, IH; [cbn; zdm; lia |].
  split; [apply Z.div_pos; lia | apply Z.div_lt_upper_bound; lia].
Qed.

Lemma be_value_range b : bytes b -> 0 <= be_value b < 256 ^ Z.of_nat (length b).
Proof.
  unfold be_value. induction b as [| x b IH] using rev_ind; intros Hb; [cbn; lia |].
  apply Forall_app in Hb as [Hb Hx]. apply Forall_inv in Hx. unfold is_byte in Hx.
  rewrite foldl_app, length_app, Nat.add_1_r, Nat2Z.inj_succ, Z.pow_succ_r by lia.
  cbn. specialize (IH Hb). lia.
Qed.

(** ** 32-bit words *)

Definition is_u32 (x : Z) : Prop := 0 <= x < 2 ^ 32.

Create HintDb words discriminated.

(** The bits of a value that fits [n] bits. *)
Lemma testbit_high x n i : 0 <= n <= i -> 0 <= x < 2 ^ n -> Z.testbit x i = false.
Proof.
  intros Hn Hx. rewrite <- (Z.mod_small x (2 ^ n)) by lia. apply Z.mod_pow2_bits_high. lia.
Qed.

Lemma bits_range x n : 0 <= n -> (forall i, n <= i -> Z.testbit x i = false) -> 0 <= x < 2 ^ n.
Proof.
  intros Hn H. replace x with (x mod 2 ^ n); [apply Z.mod_pos_bound; lia |].
  apply Z.bits_inj'. intros i Hi. destruct (Z.lt_ge_cases i n).
  - now rewrite Z.mod_pow2_bits_low.
  - rewrite Z.mod_pow2_bits_high by lia. now rewrite H.
Qed.

Lemma u32_testbit x i : 0 <= i -> Z.testbit (u32 x) i = (i <? 32) && Z.testbit x i.
Proof.
  intros Hi. unfold u32. destruct (Z.ltb_spec i 32); cbn [andb].
  - now apply Z.mod_pow2_bits_low.
  - apply Z.mod_pow2_bits_high. lia.
Qed.

Lemma u8_testbit x i : 0 <= i -> Z.testbit (u8 x) i = (i <? 8) && Z.testbit x i.
Proof.
  intros Hi. unfold u8. destruct (Z.ltb_spec i 8); cbn [andb].
  - now apply Z.mod_pow2_bits_low.
  - apply Z.mod_pow2_bits_high. lia.
Qed.

Lemma u32_lxor a b : u32 (Z.lxor a b) = Z.lxor (u32 a) (u32 b).
Proof.
  apply Z.bits_inj'. intros i Hi. rewrite Z.lxor_spec, !u32_testbit, Z.lxor_spec by easy.
  now destruct (i <? 32).
Qed.

(** Operations that stay within a word. *)
Lemma lxor_range n a b : 0 <= n -> 0 <= a < 2 ^ n -> 0 <= b < 2 ^ n -> 0 <= Z.lxor a b < 2 ^ n.
Proof.
  intros Hn Ha Hb. apply bits_range; [easy |]. intros i Hi.
  rewrite Z.lxor_spec, !(testbit_high _ n) by lia. reflexivity.
Qed.

Lemma lor_range n a b : 0 <= n -> 0 <= a < 2 ^ n -> 0 <= b < 2 ^ n -> 0 <= Z.lor a b < 2 ^ n.
Proof.
  intros Hn Ha Hb. apply bits_range; [easy |]. intros i Hi.
  rewrite Z.lor_spec, !(testbit_high _ n) by lia. reflexivity.
Qed.

Lemma land_range_l n a b : 0 <= n -> 0 <= a < 2 ^ n -> 0 <= Z.land a b < 2 ^ n.
Proof.
  intros Hn Ha. apply bits_range; [easy |]. intros i Hi.
  rewrite Z.land_spec, (testbit_high a n) by lia. reflexivity.
Qed.

Lemma shiftr_range n k a : 0 <= k -> 0 <= a < 2 ^ n -> 0 <= Z.shiftr a k < 2 ^ n.
Proof.
  intros Hk Ha. rewrite Z.shiftr_div_pow2 by easy. pose proof (Z.pow_pos_nonneg 2 k).
  split; [apply Z.div_pos; lia |]. apply Z.div_lt_upper_bound; nia.
Qed.

Lemma is_u32_lxor a b : is_u32 a -> is_u32 b -> is_u32 (Z.lxor a b).
Proof. apply lxor_range. easy. Qed.
Lemma is_u32_lor a b : is_u32 a -> is_u32 b -> is_u32 (Z.lor a b).
Proof. apply lor_range. easy. Qed.
Lemma is_u32_land a b : is_u32 a -> is_u32 (Z.land a b).
Proof. apply land_range_l. easy. Qed.
Lemma is_u32_shiftr a k : 0 <= k -> is_u32 a -> is_u32 (Z.shiftr a k).
Proof. apply shiftr_range. Qed.
Lemma is_u32_u32 x : is_u32 (u32 x).
Proof. apply u32_range. Qed.
#[export] Hint Resolve is_u32_lxor is_u32_lor is_u32_land is_u32_u32 : words.
#[export] Hint Extern 1 (is_u32 (Z.shiftr _ _)) => apply is_u32_shiftr; [lia |] : words.

(** ** Rotation *)

(** [(a << n) | (a >> (32 - n))] *)
Definition rotl (a n : Z) : Z := Z.lor (u32 (Z.shiftl a n)) (Z.shiftr a (32 - n)).

Lemma is_u32_rotl a n : 0 <= n <= 32 -> is_u32 a -> is_u32 (rotl a n).
Proof. intros Hn Ha. unfold rotl. auto with words. Qed.
#[export] Hint Extern 1 (is_u32 (rotl _ _)) => apply is_u32_rotl; [lia |] : words.

Lemma rotl_lxor a b n : 0 < n < 32 -> is_u32 a -> is_u32 b ->
  rotl (Z.lxor a b) n = Z.lxor (rotl a n) (rotl b n).
Proof.
  intros Hn Ha Hb. unfold rotl. apply Z.bits_inj'. intros i Hi.
  rewrite !Z.lor_spec, Z.lxor_spec, !Z.lor_spec, !u32_testbit, !Z.shiftr_spec by easy.
  rewrite !Z.shiftl_spec, !Z.lxor_spec by easy.
  destruct (Z.ltb_spec i 32); cbn [andb orb].
  - destruct (Z.lt_ge_cases i n).
    + rewrite !(Z.testbit_neg_r _ (i - n)) by lia. reflexivity.
    + rewrite !(testbit_high _ 32 (i + (32 - n))) by (unfold is_u32 in *; lia).
      now rewrite !orb_false_r.
  - rewrite !(testbit_high _ 32 (i + (32 - n))) by (unfold is_u32 in *; lia). reflexivity.
Qed.

(** ** Big-endian words *)

Definition load_u32_be (b : list Z) (n : nat) : Z :=
  Z.lor (Z.lor (Z.lor (u32 (Z.shiftl (get b (4 * n)) 24))
                      (u32 (Z.shiftl (get b (4 * n + 1)) 16)))
               (u32 (Z.shiftl (get b (4 * n + 2)) 8)))
        (get b (4 * n + 3)).

(** [b[0..3]] *)
Definition store_u32_be (v : Z) : list Z :=
  [u8 (Z.shiftr v 24); u8 (Z.shiftr v 16); u8 (Z.shiftr v 8); u8 v].

(** Four bytes as a word: disjoint fields, so that [or] is [xor] and [+]. *)
Definition word_of (b3 b2 b1 b0 : Z) : Z :=
  Z.lor (Z.lor (Z.lor (Z.shiftl b3 24) (Z.shiftl b2 16)) (Z.shiftl b1 8)) b0.

Lemma word_of_add b3 b2 b1 b0 :
  is_byte b3 -> is_byte b2 -> is_byte b1 -> is_byte b0 ->
  word_of b3 b2 b1 b0 = b0 + 2 ^ 8 * b1 + 2 ^ 16 * b2 + 2 ^ 24 * b3.
Proof.
  unfold is_byte, word_of. intros.
  replace (Z.lor (Z.lor (Z.lor (Z.shiftl b3 24) (Z.shiftl b2 16)) (Z.shiftl b1 8)) b0)
    with (Z.lor b0 (Z.shiftl (Z.lor b1 (Z.shiftl (Z.lor b2 (Z.shiftl b3 8)) 8)) 8)).
  - rewrite !lor_shiftl_add by (pow2; lia). pow2. lia.
  - rewrite !Z.shiftl_lor, !Z.shiftl_shiftl by easy. cbn [Z.add Pos.add Pos.succ].
    rewrite (Z.lor_comm b0). f_equal. rewrite (Z.lor_comm (Z.shiftl b1 8)). f_equal.
    apply Z.lor_comm.
Qed.

Lemma u32_byte_shift b k : is_byte b -> 0 <= k <= 24 -> u32 (Z.shiftl b k) = Z.shiftl b k.
Proof.
  intros Hb Hk. apply u32_small. rewrite Z.shiftl_mul_pow2 by lia.
  assert (2 ^ k <= 2 ^ 24) by (apply Z.pow_le_mono_r; lia).
  pose proof (Z.pow_pos_nonneg 2 k). unfold is_byte in Hb. pow2. nia.
Qed.

Lemma load_u32_be_word b n :
  bytes b -> (4 * n + 3 < length b)%nat ->
  load_u32_be b n = word_of (get b (4 * n)) (get b (4 * n + 1)) (get b (4 * n + 2)) (get b (4 * n + 3)).
Proof.
  intros Hb Hn. unfold load_u32_be, word_of.
  rewrite !u32_byte_shift by (lia || (apply get_Forall; [easy | lia])). reflexivity.
Qed.

Lemma is_u32_word_of b3 b2 b1 b0 :
  is_byte b3 -> is_byte b2 -> is_byte b1 -> is_byte b0 -> is_u32 (word_of b3 b2 b1 b0).
Proof. intros. rewrite word_of_add by easy. unfold is_u32, is_byte in *. pow2. lia. Qed.

Lemma is_u32_load b n : bytes b -> (4 * n + 3 < length b)%nat -> is_u32 (load_u32_be b n).
Proof.
  intros. rewrite load_u32_be_word by easy. apply is_u32_word_of; apply get_Forall; (easy || lia).
Qed.

Lemma store_word_of b3 b2 b1 b0 :
  is_byte b3 -> is_byte b2 -> is_byte b1 -> is_byte b0 ->
  store_u32_be (word_of b3 b2 b1 b0) = [b3; b2; b1; b0].
Proof.
  intros. rewrite word_of_add by easy. unfold store_u32_be, u8, is_byte in *.
  rewrite !Z.shiftr_div_pow2 by easy. repeat f_equal; zdm; pow2; lia.
Qed.

Lemma word_of_store v :
  is_u32 v ->
  word_of (u8 (Z.shiftr v 24)) (u8 (Z.shiftr v 16)) (u8 (Z.shiftr v 8)) (u8 v) = v.
Proof.
  intros Hv. rewrite word_of_add by apply u8_range. unfold u8, is_u32 in *.
  rewrite !Z.shiftr_div_pow2 by easy. zdm; pow2; lia.
Qed.

Lemma store_u32_be_bytes v : bytes (store_u32_be v).
Proof. repeat constructor; apply u8_range. Qed.
