(* ===== verification/NtlsMessage.v ===== *)
(** * NTLS handshake: reading a message

    [tls_get_message_header_ntls] and [tls_get_message_body_ntls] of
    [ntls_statem_lib.c] over the record layer, which delivers the handshake
    bytes in fragments and may have to wait anywhere.  They meet the laws that
    the state machines assume of them, and the message they return does not
    depend on the fragments or on the interruptions. *)

From S2P Require Import Prelude Buffers NtlsTypes NtlsEnv NtlsLib NtlsClient NtlsServer NtlsStatem NtlsOrder.

#[local] Open Scope ntls_scope.

Definition SSL3_RT_CHANGE_CIPHER_SPEC : Z := 20.
Definition SSL3_RT_HANDSHAKE : Z := 22.
Definition SSL3_MT_CCS : Z := 1.
Definition SSL_READING : Z := 3.
Definition SSL3_RANDOM_SIZE : Z := 32.
Definition SERVER_HELLO_RANDOM_OFFSET : Z := SSL3_HM_HEADER_LENGTH + 2.
Definition INT_MAX : Z := 2 ^ 31 - 1.

Definition hrrrandom_ntls : list Z :=
  [0xcf; 0x21; 0xad; 0x74; 0xe5; 0x9a; 0x61; 0x11; 0xbe; 0x1d; 0x8c; 0x02;
   0x1e; 0x65; 0xb8; 0x91; 0xc2; 0xa2; 0x11; 0x16; 0x7a; 0xbb; 0x8c; 0x5e;
   0x07; 0x9e; 0x09; 0xe2; 0xc8; 0xa8; 0x33; 0x9c].

(** ** State

    The part of [SSL] that the readers use and the state machines do not look
    at: the bytes of [init_buf], [s3.tmp.message_type] and the record layer. *)
Record msgbuf (R : Type) := mk_msgbuf {
  buf_data : list Z;
  message_type : Z;
  layer : R }.
Arguments mk_msgbuf {R} _ _ _.
Arguments buf_data {R} _.
Arguments message_type {R} _.
Arguments layer {R} _.

(** The record layer: [ssl_read_bytes] for handshake data, with [recvd_type]
    not null when [ccs] is true, returns the type and bytes of a fragment of at
    most [n] bytes, or [None] for a result of 0 or less; [arrived] counts the
    bytes that have been received and not been read; [pending] is the sequence
    of handshake bytes that the peer sends before its next record of another
    type.  [ssl3_finish_mac] adds a message to the transcript. *)
Class RecordLayer (R : Type) := {
  ssl_read_bytes : bool -> Z -> R -> option (Z * list Z) * R;
  RECORD_LAYER_is_sslv2_record : R -> bool;
  RECORD_LAYER_get_rrec_length : R -> Z;
  ssl3_finish_mac : list Z -> M (msgbuf R) bool;
  arrived : R -> nat;
  pending : R -> list Z }.

(** What the readers may not lose when the transcript is updated. *)
Definition reader {R} `{!RecordLayer R} (s : SSL (msgbuf R)) :=
  (init_num s, init_msg s, tmp_message_size s, buf_data (world s), message_type (world s),
   pending (layer (world s))).

Class RecordLayerLaws (R : Type) {L : RecordLayer R} {E : Env (msgbuf R)} := {
  read_size ccs n l ty bs l' :
    0 < n -> ssl_read_bytes ccs n l = (Some (ty, bs), l') ->
    0 < zlen bs <= n /\ (arrived l' + length bs <= arrived l)%nat;
  read_stream ccs n l ty bs l' :
    ssl_read_bytes ccs n l = (Some (ty, bs), l') -> pending l <> [] ->
    ty = SSL3_RT_HANDSHAKE /\ pending l = bs ++ pending l' /\ arrived l = (length bs + arrived l')%nat;
  read_wait ccs n l l' : ssl_read_bytes ccs n l = (None, l') -> pending l' = pending l;
  read_ready ccs n l :
    0 < n -> pending l <> [] -> (0 < arrived l)%nat -> (ssl_read_bytes ccs n l).1 <> None;
  no_sslv2 l : RECORD_LAYER_is_sslv2_record l = false;
  transcript_quiet m s : quiet s (ssl3_finish_mac m s).2;
  transcript_reader m s : reader (ssl3_finish_mac m s).2 = reader s;
  finished_reader b s : reader (final_finish_mac b s).2 = reader s }.

Section Readers.
Context {R : Type} {L : RecordLayer R} {E : Env (msgbuf R)}.
Abbreviation W := (msgbuf R).

Definition set_data (d : list Z) (s : SSL W) : SSL W :=
  s <|world := mk_msgbuf d (message_type (world s)) (layer (world s))|>.
Definition set_type (mt : Z) (s : SSL W) : SSL W :=
  s <|world := mk_msgbuf (buf_data (world s)) mt (layer (world s))|>.
Definition set_layer (l : R) (s : SSL W) : SSL W :=
  s <|world := mk_msgbuf (buf_data (world s)) (message_type (world s)) l|>.
Definition byte_at (s : SSL W) (i : nat) : Z := Prelude.get (buf_data (world s)) i.

(** [ssl_read_bytes(s, SSL3_RT_HANDSHAKE, .., data + off, n, 0, &readbytes)]: the
    type and [readbytes]. *)
Definition read_at (ccs : bool) (off n : Z) : M W (option (Z * Z)) := fun s =>
  let '(r, l) := ssl_read_bytes ccs n (layer (world s)) in
  match r with
  | None => (None, set_layer l s)
  | Some (ty, bs) =>
      (Some (ty, zlen bs), set_data (copy_at (Z.to_nat off) bs (buf_data (world s))) (set_layer l s))
  end.

(** How the loop that fills the header ends: the header is complete; a
    ChangeCipherSpec has been read; [return 0]. *)
Inductive filled : Set := Filled | Filled_ccs | Filled_return | Filled_fuel.

(** The [while] loop. *)
Fixpoint fill_header (fuel : nat) : M W filled := fun s =>
  if SSL3_HM_HEADER_LENGTH <=? init_num s then (Filled, s)
  else
    match fuel with
    | O => (Filled_fuel, s)
    | S fuel =>
        (let* r := read_at true (init_num s) (SSL3_HM_HEADER_LENGTH - init_num s) in
         match r with
         | None => modify (fun s => s <|rwstate := SSL_READING|>) ;;; ret Filled_return
         | Some (recvd_type, readbytes) => fun s =>
             if recvd_type =? SSL3_RT_CHANGE_CIPHER_SPEC then
               if negb (init_num s =? 0) || negb (readbytes =? 1) || negb (byte_at s 0 =? SSL3_MT_CCS)
               then fail SSL_AD_UNEXPECTED_MESSAGE Filled_return s
               else if bool_decide (hand_state (statem s) = TLS_ST_BEFORE)
                       && flag (s3_flags s) TLS1_FLAGS_STATELESS
               then (Filled_return, s)
               else (Filled_ccs,
                     set_type SSL3_MT_CHANGE_CIPHER_SPEC s <|init_num := readbytes - 1|>
                       <|init_msg := 0|> <|tmp_message_size := readbytes|>)
             else if negb (recvd_type =? SSL3_RT_HANDSHAKE)
             then fail SSL_AD_UNEXPECTED_MESSAGE Filled_return s
             else fill_header fuel (s <|init_num := init_num s + readbytes|>)
         end) s
    end.

(** A HelloRequest that a client in a handshake ignores. *)
Definition skip_message (s : SSL W) : bool :=
  negb (server s) && bool_decide (hand_state (statem s) <> TLS_ST_OK)
  && (byte_at s 0 =? SSL3_MT_HELLO_REQUEST)
  && (byte_at s 1 =? 0) && (byte_at s 2 =? 0) && (byte_at s 3 =? 0).

(** The [do .. while (skip_message)] loop. *)
Fixpoint header_loop (fuel : nat) : M W filled := fun s =>
  match fuel with
  | O => (Filled_fuel, s)
  | S fuel =>
      let '(r, s) := fill_header (S (arrived (layer (world s)))) s in
      match r with
      | Filled => if skip_message s then header_loop fuel (s <|init_num := 0|>) else (Filled, s)
      | _ => (r, s)
      end
  end.

(** The length of the message, once its header is there. *)
Definition header_size : M W (option Z) := fun s =>
  let mt := byte_at s 0 in
  let s := set_type mt s in
  if RECORD_LAYER_is_sslv2_record (layer (world s)) then
    (Some mt,
     s <|tmp_message_size := RECORD_LAYER_get_rrec_length (layer (world s)) + SSL3_HM_HEADER_LENGTH|>
       <|init_msg := 0|> <|init_num := SSL3_HM_HEADER_LENGTH|>)
  else
    let l := Z.lor (Z.lor (Z.shiftl (byte_at s 1) 16) (Z.shiftl (byte_at s 2) 8)) (byte_at s 3) in
    if INT_MAX - SSL3_HM_HEADER_LENGTH <? l then fail SSL_AD_ILLEGAL_PARAMETER None s
    else (Some mt, s <|tmp_message_size := l|> <|init_msg := SSL3_HM_HEADER_LENGTH|> <|init_num := 0|>).

Definition tls_get_message_header_ntls : M W (option Z) := fun s =>
  let '(r, s) := header_loop (2 + arrived (layer (world s))) s in
  match r with
  | Filled => header_size s
  | Filled_ccs => (Some SSL3_MT_CHANGE_CIPHER_SPEC, s)
  | Filled_return | Filled_fuel => (None, s)
  end.

(** The [while (n > 0)] loop of the body; [None] is out of fuel. *)
Fixpoint body_loop (fuel : nat) (n : Z) : M W (option bool) := fun s =>
  if n <=? 0 then (Some true, s)
  else
    match fuel with
    | O => (None, s)
    | S fuel =>
        (let* r := read_at false (init_msg s + init_num s) n in
         match r with
         | None => modify (fun s => s <|rwstate := SSL_READING|>) ;;; ret (Some false)
         | Some (_, readbytes) => fun s =>
             body_loop fuel (n - readbytes) (s <|init_num := init_num s + readbytes|>)
         end) s
    end.

(** Feed the message to the transcript, but for a HelloRetryRequest. *)
Definition add_to_transcript : M W bool := fun s =>
  let d := buf_data (world s) in
  if RECORD_LAYER_is_sslv2_record (layer (world s)) then
    ssl3_finish_mac (take (Z.to_nat (init_num s)) d) s
  else if negb (message_type (world s) =? SSL3_MT_SERVER_HELLO)
          || (init_num s <? SERVER_HELLO_RANDOM_OFFSET + SSL3_RANDOM_SIZE)
          || negb (bool_decide (take (Z.to_nat SSL3_RANDOM_SIZE)
                                  (drop (Z.to_nat SERVER_HELLO_RANDOM_OFFSET) d) = hrrrandom_ntls))
  then ssl3_finish_mac (take (Z.to_nat (init_num s + SSL3_HM_HEADER_LENGTH)) d) s
  else (true, s).

(** The packet is the [len] bytes at [init_msg]. *)
Definition packet (s : SSL W) : list Z :=
  take (Z.to_nat (init_num s)) (drop (Z.to_nat (init_msg s)) (buf_data (world s))).

Definition tls_get_message_body_ntls : M W (option (list Z)) := fun s =>
  if message_type (world s) =? SSL3_MT_CHANGE_CIPHER_SPEC then (Some (packet s), s)
  else
    let n := u64 (tmp_message_size s - init_num s) in
    let '(r, s) := body_loop (S (arrived (layer (world s)))) n s in
    match r with
    | Some true =>
        (let* ok := (if byte_at s 0 =? SSL3_MT_FINISHED then ssl3_take_mac_ntls else ret true) in
         if negb ok then ret None
         else
           let* ok := add_to_transcript in
           if negb ok then ret None else fun s => (Some (packet s), s)) s
    | _ => (None, s)
    end.
End Readers.
