(* ===== verification/NtlsMessageSpec.v ===== *)
(** * NTLS handshake: what the message readers guarantee

    The readers terminate on what has arrived, leave the control state of the
    connection alone, so that they are an implementation of the environment that
    the handshake theorems assume, and return each message of the stream whole,
    whatever its fragments and however often a call has to wait. *)

From S2P Require Import Prelude Buffers NtlsTypes NtlsEnv NtlsLib NtlsClient NtlsServer NtlsStatem NtlsOrder NtlsInvariant NtlsMessageOrder NtlsMessage.

#[local] Open Scope ntls_scope.

(** A write at the end of what has been read so far. *)
Lemma copy_at_append n src (p : list Z) :
  (n <= length p)%nat -> take (n + length src) (copy_at n src p) = take n p ++ src.
Proof.
  intros. unfold copy_at. rewrite app_assoc. apply take_app_length'.
  rewrite length_app, length_take. lia.
Qed.

Lemma copy_at_length_ge n src (p : list Z) :
  (n <= length p)%nat -> (n + length src <= length (copy_at n src p))%nat.
Proof. intros. unfold copy_at. rewrite !length_app, length_take, length_drop. lia. Qed.

(** ** Messages on the wire *)

(** Type, three bytes of length, body. *)
Definition be24 (n : Z) : list Z := [n / 2 ^ 16; (n / 2 ^ 8) mod 2 ^ 8; n mod 2 ^ 8].
Definition wire (mt : Z) (body : list Z) : list Z := mt :: be24 (zlen body) ++ body.

(** [k] HelloRequests. *)
Definition hellos (k : nat) : list Z := concat (repeat [0; 0; 0; 0] k).

Lemma hellos_length k : length (hellos k) = (4 * k)%nat.
Proof. induction k as [| k IH]; [reflexivity |]. unfold hellos in *. cbn. rewrite IH. lia. Qed.

Lemma wire_length mt body : length (wire mt body) = (4 + length body)%nat.
Proof. reflexivity. Qed.

Lemma be24_value n :
  0 <= n < 2 ^ 24 ->
  Z.lor (Z.lor (Z.shiftl (n / 2 ^ 16) 16) (Z.shiftl ((n / 2 ^ 8) mod 2 ^ 8) 8)) (n mod 2 ^ 8) = n.
Proof.
  intros Hn. change 16 with (8 + 8) at 2. rewrite <- Z.shiftl_shiftl, <- Z.shiftl_lor by easy.
  rewrite (Z.lor_comm _ (n mod 2 ^ 8)), lor_shiftl_add by (easy || apply Z.mod_pos_bound; easy).
  rewrite (Z.lor_comm _ ((n / 2 ^ 8) mod 2 ^ 8)), lor_shiftl_add
    by (easy || apply Z.mod_pos_bound; easy). zdm; pow2; lia.
Qed.

(** Two splittings of one list at the same place. *)
Lemma split_at (n : nat) (d p a b : list Z) :
  (n <= length d)%nat -> length a = n -> take n d ++ p = a ++ b -> take n d = a /\ p = b.
Proof. intros Hn Ha H. apply app_inj_1 in H; [easy |]. rewrite length_take. lia. Qed.

Section ReaderLaws.
Context {R : Type} {L : RecordLayer R} {E : Env (msgbuf R)}.
Context {EL : EnvLaws (msgbuf R)} {RL : RecordLayerLaws R}.
Abbreviation W := (msgbuf R).
Abbreviation arr s := (arrived (layer (world s))).
Abbreviation pend s := (pending (layer (world s))).

(** ** Control state *)

#[local] Hint Extern 1 (always quiet (fail _ _)) => apply quiet_fail : ntls.
#[local] Hint Extern 1 (always quiet (final_finish_mac _)) => apply quiet_finish_mac : ntls.

Lemma quiet_read_at ccs off n : always quiet (read_at (R := R) ccs off n).
Proof.
  intros s. unfold read_at. destruct (ssl_read_bytes ccs n (layer (world s))) as [[[ty bs] |] l];
    cbn [snd]; unfold set_data, set_layer; assign_tac.
Qed.
#[local] Hint Resolve quiet_read_at : ntls.

Lemma quiet_fill_header fuel : always quiet (fill_header (R := R) fuel).
Proof.
  induction fuel as [| fuel IH]; cbn [fill_header]; unfold set_type; always_tac.
Qed.
#[local] Hint Resolve quiet_fill_header : ntls.

Lemma quiet_header_loop fuel : always quiet (header_loop (R := R) fuel).
Proof.
  induction fuel as [| fuel IH]; intros s; cbn [header_loop]; [reflexivity |].
  pose proof (quiet_fill_header (S (arr s)) s) as Q.
  destruct (fill_header (S (arr s)) s) as [[] s1]; cbn [snd] in *; auto.
  destruct (skip_message s1); [| exact Q]. etrans; [exact Q |]. etrans; [| apply IH]. assign_tac.
Qed.

Lemma quiet_header_size : always quiet (header_size (R := R)).
Proof. intros s. unfold header_size, set_type. always_tac. Qed.

Lemma quiet_get_header : always quiet (tls_get_message_header_ntls (R := R)).
Proof.
  intros s. unfold tls_get_message_header_ntls.
  pose proof (quiet_header_loop (2 + arr s) s) as Q.
  destruct (header_loop (2 + arr s) s) as [[] s1]; cbn [snd] in *; auto.
  etrans; [exact Q | apply quiet_header_size].
Qed.

Lemma quiet_body_loop fuel : forall n, always quiet (body_loop (R := R) fuel n).
Proof. induction fuel as [| fuel IH]; intros n; cbn [body_loop]; always_tac. Qed.

Lemma quiet_transcript : always quiet (add_to_transcript (R := R)).
Proof.
  intros s. unfold add_to_transcript.
  destruct (RECORD_LAYER_is_sslv2_record (layer (world s))); [apply transcript_quiet |].
  match goal with |- context [if ?b then _ else _] => destruct b end;
    [apply transcript_quiet | reflexivity].
Qed.
#[local] Hint Resolve quiet_transcript : ntls.

Lemma quiet_take_mac : always quiet (ssl3_take_mac_ntls (W := W)).
Proof. unfold ssl3_take_mac_ntls. always_tac. Qed.
#[local] Hint Resolve quiet_take_mac : ntls.

Lemma quiet_get_body : always quiet (tls_get_message_body_ntls (R := R)).
Proof.
  intros s. unfold tls_get_message_body_ntls. destruct (message_type (world s) =? _); [reflexivity |].
  cbv zeta. set (n := u64 _). pose proof (quiet_body_loop (S (arr s)) n s) as Q.
  destruct (body_loop (S (arr s)) n s) as [[[] |] s1]; cbn [snd] in *; auto.
  etrans; [exact Q |]. clear Q. always_tac.
Qed.

(** The environment whose readers are the ones of the code. *)
Definition reader_env : Env W := {|
  ext := ext;
  NtlsEnv.tls_get_message_header_ntls := tls_get_message_header_ntls;
  NtlsEnv.tls_get_message_body_ntls := tls_get_message_body_ntls;
  process := process;
  work := work;
  construct := construct;
  final_finish_mac := final_finish_mac;
  cert_cb := cert_cb;
  ssl_do_client_cert_cb_ntls := ssl_do_client_cert_cb_ntls;
  SSL_clear := SSL_clear;
  ssl_security := ssl_security;
  ssl_get_max_version := ssl_get_max_version;
  SSL_get_ciphers := SSL_get_ciphers;
  session_has_master_key := session_has_master_key;
  RECORD_LAYER_read_pending := RECORD_LAYER_read_pending;
  RECORD_LAYER_write_pending := RECORD_LAYER_write_pending |}.

(** The handshake theorems hold with these readers. *)
Lemma reader_env_laws : @EnvLaws W reader_env.
Proof.
  destruct EL. constructor; cbn; auto; [exact quiet_get_header | exact quiet_get_body].
Qed.

(** ** Termination *)

Lemma read_at_cases ccs off n s :
  (exists l, ssl_read_bytes ccs n (layer (world s)) = (None, l)
             /\ read_at ccs off n s = (None, set_layer l s))
  \/ (exists ty bs l, ssl_read_bytes ccs n (layer (world s)) = (Some (ty, bs), l)
        /\ read_at ccs off n s = (Some (ty, zlen bs),
             set_data (copy_at (Z.to_nat off) bs (buf_data (world s))) (set_layer l s))).
Proof.
  unfold read_at. destruct (ssl_read_bytes ccs n (layer (world s))) as [[[ty bs] |] l]; eauto 10.
Qed.

(** One round of the loop that fills the header. *)
Lemma fill_header_S fuel s :
  fill_header (S fuel) s =
    if SSL3_HM_HEADER_LENGTH <=? init_num s then (Filled, s)
    else
      let '(r, s1) := read_at true (init_num s) (SSL3_HM_HEADER_LENGTH - init_num s) s in
      match r with
      | None => (Filled_return, s1 <|rwstate := SSL_READING|>)
      | Some (ty, k) =>
          if ty =? SSL3_RT_CHANGE_CIPHER_SPEC then
            if negb (init_num s1 =? 0) || negb (k =? 1) || negb (byte_at s1 0 =? SSL3_MT_CCS)
            then fail SSL_AD_UNEXPECTED_MESSAGE Filled_return s1
            else if bool_decide (hand_state (statem s1) = TLS_ST_BEFORE)
                    && flag (s3_flags s1) TLS1_FLAGS_STATELESS
            then (Filled_return, s1)
            else (Filled_ccs,
                  set_type SSL3_MT_CHANGE_CIPHER_SPEC s1 <|init_num := k - 1|>
                    <|init_msg := 0|> <|tmp_message_size := k|>)
          else if negb (ty =? SSL3_RT_HANDSHAKE)
          then fail SSL_AD_UNEXPECTED_MESSAGE Filled_return s1
          else fill_header fuel (s1 <|init_num := init_num s1 + k|>)
      end.
Proof.
  cbn [fill_header]. destruct (SSL3_HM_HEADER_LENGTH <=? init_num s); [reflexivity |].
  unfold bind. destruct (read_at true _ _ s) as [[[ty k] |] s1]; reflexivity.
Qed.

(** Every round but the last reads a byte. *)
Lemma fill_header_total fuel : forall s,
  (arr s < fuel)%nat ->
  (fill_header fuel s).1 <> Filled_fuel
  /\ ((fill_header fuel s).1 = Filled ->
      (arr (fill_header fuel s).2 + (if (init_num s <? SSL3_HM_HEADER_LENGTH)%Z then 1 else 0) <= arr s)%nat).
Proof.
  induction fuel as [| fuel IH]; intros s Hf; [lia |].
  rewrite fill_header_S, Z.ltb_antisym. destruct (SSL3_HM_HEADER_LENGTH <=? init_num s) eqn:Hn.
  { cbn. split; [discriminate | lia]. }
  apply Z.leb_gt in Hn. cbn [negb].
  destruct (read_at_cases true (init_num s) (SSL3_HM_HEADER_LENGTH - init_num s) s)
    as [(l & _ & ->) | (ty & bs & l & Hr & ->)]; [split; discriminate |].
  destruct (read_size true (SSL3_HM_HEADER_LENGTH - init_num s) _ _ _ _ ltac:(lia) Hr) as [Hb Ha].
  unfold zlen in Hb. set (s1 := set_data _ _). destruct (ty =? SSL3_RT_CHANGE_CIPHER_SPEC).
  { destruct (_ || _); [rewrite fail_fst; split; discriminate |].
    destruct (_ && _); split; discriminate. }
  destruct (ty =? SSL3_RT_HANDSHAKE); cbn [negb]; [| rewrite fail_fst; split; discriminate].
  set (s2 := s1 <|init_num := init_num s1 + zlen bs|>).
  assert (Ea : arr s2 = arrived l) by reflexivity.
  destruct (IH s2 ltac:(lia)) as [H1 H2]. split; [exact H1 |]. intros H. specialize (H2 H). lia.
Qed.

Lemma header_loop_total fuel : forall s,
  (arr s + (if (init_num s <? SSL3_HM_HEADER_LENGTH)%Z then 0 else 1) < fuel)%nat ->
  (header_loop fuel s).1 <> Filled_fuel.
Proof.
  induction fuel as [| fuel IH]; intros s Hf; [lia |]. cbn [header_loop].
  destruct (fill_header_total (S (arr s)) s ltac:(lia)) as [H1 H2].
  destruct (fill_header (S (arr s)) s) as [[] s1]; cbn [fst snd] in *; try discriminate; [| contradiction].
  specialize (H2 eq_refl). destruct (skip_message s1); [| discriminate].
  apply IH. change (init_num (s1 <|init_num := 0|>) <? SSL3_HM_HEADER_LENGTH) with true.
  change (arr (s1 <|init_num := 0|>)) with (arr s1).
  destruct (init_num s <? SSL3_HM_HEADER_LENGTH); lia.
Qed.

Lemma body_loop_S fuel n s :
  body_loop (S fuel) n s =
    if n <=? 0 then (Some true, s)
    else
      let '(r, s1) := read_at false (init_msg s + init_num s) n s in
      match r with
      | None => (Some false, s1 <|rwstate := SSL_READING|>)
      | Some (_, k) => body_loop fuel (n - k) (s1 <|init_num := init_num s1 + k|>)
      end.
Proof.
  cbn [body_loop]. destruct (n <=? 0); [reflexivity |].
  unfold bind. destruct (read_at false _ _ s) as [[[ty k] |] s1]; reflexivity.
Qed.

Lemma body_loop_total fuel : forall n s, (arr s < fuel)%nat -> (body_loop fuel n s).1 <> None.
Proof.
  induction fuel as [| fuel IH]; intros n s Hf; [lia |]. rewrite body_loop_S.
  destruct (Z.leb_spec n 0); [discriminate |].
  destruct (read_at_cases false (init_msg s + init_num s) n s)
    as [(l & _ & ->) | (ty & bs & l & Hr & ->)]; [discriminate |].
  destruct (read_size false n _ _ _ _ ltac:(lia) Hr) as [Hb Ha]. unfold zlen in Hb.
  set (s2 := _ <|init_num := _|>). assert (Ea : arr s2 = arrived l) by reflexivity.
  apply IH. lia.
Qed.

(** ** Reading the header *)

Definition client_busy (s : SSL W) : Prop := server s = false /\ hand_state (statem s) <> TLS_ST_OK.

Lemma quiet_role (s s' : SSL W) : quiet s s' ->
  server s' = server s /\ hand_state (statem s') = hand_state (statem s).
Proof. intros [[[Hc _] _] _]. unfold core in Hc. split; congruence. Qed.

Section Message.
Variables (mt : Z) (body rest : list Z).
Hypothesis Hlen : zlen body < 2 ^ 24.

(** [k] HelloRequests are to be skipped before the message; the bytes read so
    far are in the buffer. *)
Definition in_header (k : nat) (s : SSL W) : Prop :=
  0 <= init_num s <= 4 /\ (Z.to_nat (init_num s) <= length (buf_data (world s)))%nat
  /\ (k = 0%nat \/ client_busy s)
  /\ take (Z.to_nat (init_num s)) (buf_data (world s)) ++ pend s = hellos k ++ wire mt body ++ rest.

Definition in_body (s : SSL W) : Prop :=
  message_type (world s) = mt /\ tmp_message_size s = zlen body /\ init_msg s = 4
  /\ 0 <= init_num s <= zlen body
  /\ (Z.to_nat (4 + init_num s) <= length (buf_data (world s)))%nat
  /\ take (Z.to_nat (4 + init_num s)) (buf_data (world s)) ++ pend s = wire mt body ++ rest.

(** A client in a handshake would ignore an empty HelloRequest. *)
Definition not_ignored (s : SSL W) : Prop := client_busy s -> mt <> SSL3_MT_HELLO_REQUEST \/ body <> [].

(** More of the stream is to come while the bytes read are fewer than [n]. *)
Lemma more_pending (n m : nat) (d p l : list Z) :
  take n d ++ p = l -> (n < m)%nat -> (m <= length l)%nat -> p <> [].
Proof. intros H Hn Hl ->. apply (f_equal length) in H. rewrite app_nil_r, length_take in H. lia. Qed.

(** A fragment appended to the bytes read so far. *)
Lemma append_fragment (n : nat) (d bs p p' l : list Z) :
  (n <= length d)%nat -> take n d ++ p = l -> p = bs ++ p' ->
  take (n + length bs) (copy_at n bs d) ++ p' = l.
Proof. intros Hn H ->. rewrite copy_at_append by easy. now rewrite <- app_assoc. Qed.

Lemma fill_header_reads fuel : forall k s,
  in_header k s -> (arr s < fuel)%nat ->
  in_header k (fill_header fuel s).2 /\
  ((fill_header fuel s).1 = Filled /\ init_num (fill_header fuel s).2 = 4
     /\ init_num (fill_header fuel s).2 + Z.of_nat (arr (fill_header fuel s).2) = init_num s + Z.of_nat (arr s)
   \/ (fill_header fuel s).1 = Filled_return /\ init_num s + Z.of_nat (arr s) < 4).
Proof.
  induction fuel as [| fuel IH]; intros k s Hi Hf; [lia |].
  rewrite fill_header_S. change SSL3_HM_HEADER_LENGTH with 4 in *.
  pose proof Hi as (Hn & Hd & Hk & Hs). destruct (Z.leb_spec 4 (init_num s)) as [H4 | H4].
  { cbn [fst snd]. split; [exact Hi | left; split; [easy | lia]]. }
  assert (Hp : pend s <> []).
  { apply (more_pending _ 4 _ _ _ Hs); [lia |]. rewrite !length_app, wire_length. lia. }
  destruct (read_at_cases true (init_num s) (4 - init_num s) s)
    as [(l & Hr & ->) | (ty & bs & l & Hr & ->)]; cbn [fst snd].
  - split; [split; [exact Hn | split; [exact Hd | split; [exact Hk |]]] |].
    + cbn. now rewrite (read_wait _ _ _ _ Hr).
    + right. split; [easy |]. destruct (Nat.eq_dec (arr s) 0%nat) as [-> | Ha]; [lia |].
      exfalso. refine (read_ready true (4 - init_num s) _ ltac:(lia) Hp ltac:(lia) _). now rewrite Hr.
  - destruct (read_size true (4 - init_num s) _ _ _ _ ltac:(lia) Hr) as [Hb _]. unfold zlen in Hb.
    destruct (read_stream _ _ _ _ _ _ Hr Hp) as (-> & Hps & Ha).
    change (SSL3_RT_HANDSHAKE =? SSL3_RT_CHANGE_CIPHER_SPEC) with false.
    change (SSL3_RT_HANDSHAKE =? SSL3_RT_HANDSHAKE) with true. cbn [negb].
    set (s2 := _ <|init_num := _|>).
    assert (E2 : init_num s2 = init_num s + Z.of_nat (length bs)) by reflexivity.
    assert (Ea : arr s2 = arrived l) by reflexivity.
    assert (Ed : buf_data (world s2) = copy_at (Z.to_nat (init_num s)) bs (buf_data (world s))) by reflexivity.
    assert (Hi2 : in_header k s2).
    { split; [lia |]. rewrite E2, Ed. rewrite Z2Nat.inj_add, Nat2Z.id by lia.
      split; [now apply copy_at_length_ge |]. split; [exact Hk |].
      now apply (append_fragment _ _ _ (pend s)). }
    destruct (IH k s2 Hi2 ltac:(lia)) as [H1 [(H2 & H3 & H5) | [H2 H3]]]; (split; [exact H1 |]);
      [left; split; [exact H2 | lia] | right; split; [exact H2 | lia]].
Qed.

(** The four bytes of a complete header. *)
Lemma header_bytes (a : list Z) (s : SSL W) :
  length a = 4%nat -> take 4 (buf_data (world s)) = a ->
  byte_at s 0 = Prelude.get a 0 /\ byte_at s 1 = Prelude.get a 1
  /\ byte_at s 2 = Prelude.get a 2 /\ byte_at s 3 = Prelude.get a 3.
Proof.
  intros La H. assert (G : forall i, (i < 4)%nat -> byte_at s i = Prelude.get a i).
  { intros i Hi. unfold byte_at, Prelude.get. rewrite <- H, !nth_lookup, lookup_take_lt by lia.
    reflexivity. }
  repeat split; apply G; lia.
Qed.

Lemma zlen_nonneg (l : list Z) : 0 <= zlen l.
Proof. unfold zlen. lia. Qed.

Lemma header_skips k s :
  in_header k s -> init_num s = 4 -> not_ignored s ->
  if skip_message s then exists k', k = S k' /\ in_header k' (s <|init_num := 0|>)
  else k = 0%nat.
Proof using Hlen.
  intros (_ & Hd & Hk & Hs) H4 Hni. rewrite H4 in *. change (Z.to_nat 4) with 4%nat in *.
  pose proof (zlen_nonneg body). destruct k as [| k].
  - destruct (split_at 4 _ _ (mt :: be24 (zlen body)) (body ++ rest) Hd eq_refl Hs) as [Ht _].
    destruct (header_bytes (mt :: be24 (zlen body)) s eq_refl Ht) as (B0 & B1 & B2 & B3).
    destruct (skip_message s) eqn:Hskip; [exfalso | reflexivity]. unfold skip_message in Hskip.
    rewrite B0, B1, B2, B3 in Hskip. cbn in Hskip. rewrite !andb_true_iff in Hskip.
    destruct Hskip as (((((Hsv & Hh) & H0) & Hz1) & Hz2) & Hz3).
    apply negb_true_iff in Hsv. apply bool_decide_eq_true in Hh.
    destruct (Hni (conj Hsv Hh)) as [Hm | Hb]; [apply Z.eqb_eq in H0; contradiction |].
    assert (Hz : zlen body = 0).
    { rewrite <- (be24_value (zlen body)) by lia.
      apply Z.eqb_eq in Hz1, Hz2, Hz3. cbn in Hz1, Hz2, Hz3. pow2. rewrite Hz1, Hz2, Hz3. reflexivity. }
    destruct body; [contradiction |]. unfold zlen in Hz. cbn in Hz. lia.
  - destruct Hk as [? | [Hsv Hh]]; [discriminate |].
    destruct (split_at 4 _ _ [0; 0; 0; 0] (hellos k ++ wire mt body ++ rest) Hd eq_refl Hs) as [Ht Hp].
    destruct (header_bytes [0; 0; 0; 0] s eq_refl Ht) as (B0 & B1 & B2 & B3).
    unfold skip_message. rewrite B0, B1, B2, B3, Hsv, (bool_decide_eq_true_2 _ Hh). cbn.
    exists k. split; [easy |]. split; [cbn; lia |]. split; [cbn; lia |]. split; [right; now split |].
    exact Hp.
Qed.

Lemma not_ignored_quiet s s' : quiet s s' -> not_ignored s -> not_ignored s'.
Proof.
  intros Q H [Hs Hh]. destruct (quiet_role _ _ Q) as [E1 E2]. apply H. split; congruence.
Qed.

Lemma header_loop_reads fuel : forall k s,
  in_header k s -> not_ignored s ->
  (arr s + (if (init_num s <? SSL3_HM_HEADER_LENGTH)%Z then 0 else 1) < fuel)%nat ->
  ((header_loop fuel s).1 = Filled /\ in_header 0 (header_loop fuel s).2
     /\ init_num (header_loop fuel s).2 = 4
     /\ Z.of_nat (arr (header_loop fuel s).2) + 4 * (Z.of_nat k + 1) = init_num s + Z.of_nat (arr s))
  \/ ((header_loop fuel s).1 = Filled_return
      /\ (exists k', in_header k' (header_loop fuel s).2)
      /\ init_num s + Z.of_nat (arr s) < 4 * (Z.of_nat k + 1)).
Proof using Hlen EL RL.
  induction fuel as [| fuel IH]; intros k s Hi Hni Hf; [lia |]. cbn [header_loop].
  destruct (fill_header_reads (S (arr s)) k s Hi ltac:(lia)) as [H1 H2].
  destruct (fill_header_total (S (arr s)) s ltac:(lia)) as [_ H3].
  pose proof (quiet_fill_header (S (arr s)) s) as Q.
  destruct (fill_header (S (arr s)) s) as [r s1]. cbn [fst snd] in *.
  destruct H2 as [(-> & Hn & Hsum) | [-> Hlt]]; [| right; split; [easy | split; [eauto | lia]]].
  specialize (H3 eq_refl). apply (not_ignored_quiet _ _ Q) in Hni.
  pose proof (header_skips k s1 H1 Hn Hni) as Hsk. destruct (skip_message s1).
  - destruct Hsk as (k' & -> & Hi'). set (s2 := s1 <|init_num := 0|>) in *.
    assert (E2 : init_num s2 = 0) by reflexivity. assert (Ea : arr s2 = arr s1) by reflexivity.
    assert (Hf2 : (arr s2 + (if (init_num s2 <? SSL3_HM_HEADER_LENGTH)%Z then 0 else 1) < fuel)%nat).
    { rewrite E2, Ea. change (0 <? SSL3_HM_HEADER_LENGTH) with true.
      destruct (init_num s <? SSL3_HM_HEADER_LENGTH); lia. }
    destruct (IH k' s2 Hi' Hni Hf2) as [(G1 & G2 & G3 & G4) | (G1 & G2 & G3)];
      [left; split; [exact G1 | split; [exact G2 | split; [exact G3 | lia]]]
      | right; split; [exact G1 | split; [exact G2 | lia]]].
  - subst k. left. cbn [fst snd]. split; [easy |]. split; [exact H1 |]. split; [exact Hn | lia].
Qed.

Lemma header_size_reads s :
  in_header 0 s -> init_num s = 4 ->
  (header_size s).1 = Some mt /\ in_body (header_size s).2 /\ init_num (header_size s).2 = 0
  /\ layer (world (header_size s).2) = layer (world s).
Proof using Hlen RL.
  intros (_ & Hd & _ & Hs) H4. rewrite H4 in *. change (Z.to_nat 4) with 4%nat in *.
  destruct (split_at 4 _ _ (mt :: be24 (zlen body)) (body ++ rest) Hd eq_refl Hs) as [Ht Hp].
  destruct (header_bytes (mt :: be24 (zlen body)) s eq_refl Ht) as (B0 & B1 & B2 & B3).
  pose proof (zlen_nonneg body). unfold header_size. cbv zeta.
  change (RECORD_LAYER_is_sslv2_record (layer (world (set_type (byte_at s 0) s))))
    with (RECORD_LAYER_is_sslv2_record (layer (world s))). rewrite no_sslv2.
  change (byte_at (set_type (byte_at s 0) s)) with (byte_at s). rewrite B0, B1, B2, B3.
  change (Prelude.get (mt :: be24 (zlen body)) 0) with mt.
  change (Prelude.get (mt :: be24 (zlen body)) 1) with (zlen body / 2 ^ 16).
  change (Prelude.get (mt :: be24 (zlen body)) 2) with ((zlen body / 2 ^ 8) mod 2 ^ 8).
  change (Prelude.get (mt :: be24 (zlen body)) 3) with (zlen body mod 2 ^ 8).
  rewrite be24_value by lia. destruct (Z.ltb_spec (INT_MAX - SSL3_HM_HEADER_LENGTH) (zlen body)) as [Hl | _].
  { unfold INT_MAX, SSL3_HM_HEADER_LENGTH in Hl. pow2. lia. }
  cbn [fst snd]. split; [easy |]. split; [| easy]. unfold in_body. cbn. split_and!; easy.
Qed.

Lemma get_header_reads k s :
  in_header k s -> not_ignored s ->
  ((tls_get_message_header_ntls s).1 = Some mt /\ in_body (tls_get_message_header_ntls s).2
     /\ init_num (tls_get_message_header_ntls s).2 = 0
     /\ Z.of_nat (arr (tls_get_message_header_ntls s).2) + 4 * (Z.of_nat k + 1) = init_num s + Z.of_nat (arr s))
  \/ ((tls_get_message_header_ntls s).1 = None
      /\ (exists k', in_header k' (tls_get_message_header_ntls s).2)
      /\ init_num s + Z.of_nat (arr s) < 4 * (Z.of_nat k + 1)).
Proof using Hlen EL RL.
  intros Hi Hni. unfold tls_get_message_header_ntls.
  assert (Hf : (arr s + (if (init_num s <? SSL3_HM_HEADER_LENGTH)%Z then 0 else 1) < 2 + arr s)%nat)
    by (destruct (_ <? _); lia).
  destruct (header_loop_reads (2 + arr s) k s Hi Hni Hf) as [(H1 & H2 & H3 & H4) | (H1 & H2 & H3)];
    destruct (header_loop (2 + arr s) s) as [r s1]; cbn [fst snd] in *; subst r; [left | right; auto].
  destruct (header_size_reads s1 H2 H3) as (G1 & G2 & G3 & G4). rewrite G4. auto.
Qed.

(** ** Reading the body *)

Lemma in_body_reader s s' : reader s' = reader s -> in_body s -> in_body s'.
Proof.
  unfold reader, in_body. intros H. injection H as -> -> -> -> -> ->. easy.
Qed.

Lemma body_loop_reads fuel : forall n s,
  in_body s -> n = zlen body - init_num s -> (arr s < fuel)%nat ->
  in_body (body_loop fuel n s).2 /\
  ((body_loop fuel n s).1 = Some true /\ init_num (body_loop fuel n s).2 = zlen body
   \/ (body_loop fuel n s).1 = Some false /\ init_num s + Z.of_nat (arr s) < zlen body).
Proof using RL.
  induction fuel as [| fuel IH]; intros n s Hi Hn Hf; [lia |]. rewrite body_loop_S.
  pose proof Hi as (Ht & Hz & Hm & Hr & Hd & Hs). destruct (Z.leb_spec n 0) as [H0 | H0].
  { cbn [fst snd]. split; [exact Hi | left; split; [easy | lia]]. }
  assert (Hp : pend s <> []).
  { apply (more_pending _ (4 + length body) _ _ _ Hs); [unfold zlen in *; lia |].
    rewrite length_app, wire_length. lia. }
  rewrite Hm. destruct (read_at_cases false (4 + init_num s) n s)
    as [(l & Hl & ->) | (ty & bs & l & Hl & ->)]; cbn [fst snd].
  - split.
    + unfold in_body. cbn. rewrite (read_wait _ _ _ _ Hl). exact Hi.
    + right. split; [easy |]. destruct (Nat.eq_dec (arr s) 0%nat) as [-> | Ha]; [lia |].
      exfalso. refine (read_ready false n _ ltac:(lia) Hp ltac:(lia) _). now rewrite Hl.
  - destruct (read_size false n _ _ _ _ ltac:(lia) Hl) as [Hb _]. unfold zlen in Hb.
    destruct (read_stream _ _ _ _ _ _ Hl Hp) as (_ & Hps & Ha).
    set (s2 := _ <|init_num := _|>).
    assert (E2 : init_num s2 = init_num s + Z.of_nat (length bs)) by reflexivity.
    assert (Ea : arr s2 = arrived l) by reflexivity.
    assert (Hi2 : in_body s2).
    { unfold in_body. rewrite E2.
      change (buf_data (world s2)) with (copy_at (Z.to_nat (4 + init_num s)) bs (buf_data (world s))).
      change (pend s2) with (pending l).
      split; [exact Ht | split; [exact Hz | split; [exact Hm | split; [lia |]]]].
      rewrite Z.add_assoc, (Z2Nat.inj_add (4 + init_num s)), Nat2Z.id by lia.
      split; [now apply copy_at_length_ge | now apply (append_fragment _ _ _ (pend s))]. }
    destruct (IH (n - zlen bs) s2 Hi2) as [H1 H2]; [rewrite E2; unfold zlen in *; lia | lia |].
    split; [exact H1 |]. destruct H2 as [H2 | [H2 H3]]; [now left | right; split; [exact H2 | lia]].
Qed.

(** The whole message is in the buffer. *)
Lemma in_body_done s : in_body s -> init_num s = zlen body -> packet s = body /\ pend s = rest.
Proof.
  intros (_ & _ & Hm & _ & Hd & Hs) Hn. unfold packet. rewrite Hm, Hn in *.
  assert (Ew : Z.to_nat (4 + zlen body) = length (wire mt body)) by (rewrite wire_length; unfold zlen; lia).
  destruct (split_at _ _ _ (wire mt body) rest Hd (eq_sym Ew) Hs) as [Ht Hp]. split; [| exact Hp].
  replace (Z.to_nat (4 + zlen body)) with (4 + length body)%nat in Ht by (unfold zlen; lia).
  replace (Z.to_nat (zlen body)) with (length body) by (unfold zlen; lia).
  change (Z.to_nat 4) with 4%nat. rewrite take_drop_commute, Ht. reflexivity.
Qed.

Lemma transcript_keeps s : reader (add_to_transcript s).2 = reader s.
Proof using RL.
  unfold add_to_transcript. repeat match goal with
  | |- context [if ?b then _ else _] => destruct b
  end; apply transcript_reader || reflexivity.
Qed.

Lemma take_mac_keeps s : reader (ssl3_take_mac_ntls s).2 = reader s.
Proof using RL.
  unfold ssl3_take_mac_ntls, bind. pose proof (finished_reader (negb (server s)) s) as H.
  destruct (final_finish_mac (negb (server s)) s) as [md s1]. exact H.
Qed.

(** The MAC computations of the library succeed. *)
Definition macs_work : Prop :=
  (forall m (s : SSL W), (ssl3_finish_mac m s).1 = true) /\
  (forall b (s : SSL W), (final_finish_mac b s).1 <> []).

Lemma get_body_reads s :
  is_byte mt -> in_body s ->
  ((tls_get_message_body_ntls s).1 = Some body /\ pend (tls_get_message_body_ntls s).2 = rest)
  \/ ((tls_get_message_body_ntls s).1 = None /\ in_body (tls_get_message_body_ntls s).2
      /\ (macs_work -> init_num s + Z.of_nat (arr s) < zlen body)).
Proof using Hlen RL.
  intros Hmt Hi. pose proof Hi as (Ht & Hz & _ & Hr & _). unfold tls_get_message_body_ntls.
  rewrite Ht. destruct (Z.eqb_spec mt SSL3_MT_CHANGE_CIPHER_SPEC) as [Hc | _].
  { unfold is_byte, SSL3_MT_CHANGE_CIPHER_SPEC in *. lia. }
  cbv zeta. rewrite Hz, u64_small by (pow2; lia).
  destruct (body_loop_reads (S (arr s)) _ s Hi eq_refl ltac:(lia)) as [H1 H2].
  destruct (body_loop (S (arr s)) (zlen body - init_num s) s) as [r s1]. cbn [fst snd] in *.
  destruct H2 as [[-> Hn] | [-> Hlt]]; [| right; auto].
  unfold bind. set (m := if _ =? SSL3_MT_FINISHED then _ else _).
  assert (Hm : reader (m s1).2 = reader s1)
    by (unfold m; destruct (_ =? _); [apply take_mac_keeps | reflexivity]).
  assert (Hok : macs_work -> (m s1).1 = true).
  { intros [_ Hw]. unfold m. destruct (_ =? _); [| reflexivity].
    unfold ssl3_take_mac_ntls, bind. pose proof (Hw (negb (server s1)) s1) as Hne.
    destruct (final_finish_mac (negb (server s1)) s1) as [md s2]. destruct md; [contradiction | reflexivity]. }
  clearbody m. destruct (m s1) as [[|] s2]; cbn [fst snd negb] in *.
  2: { right. split; [easy |]. split; [now apply (in_body_reader s1) | intros Hw; now apply Hok in Hw]. }
  pose proof (transcript_keeps s2) as Ha.
  assert (Hok2 : macs_work -> (add_to_transcript s2).1 = true).
  { intros [Hw _]. unfold add_to_transcript. repeat match goal with
    | |- context [if ?b then _ else _] => destruct b
    end; apply Hw || reflexivity. }
  destruct (add_to_transcript s2) as [[|] s3]; cbn [fst snd negb] in *; rewrite Hm in Ha.
  2: { right. split; [easy |]. split; [now apply (in_body_reader s1) | intros Hw; now apply Hok2 in Hw]. }
  left. destruct (in_body_done s3) as [Hp Hq]; [now apply (in_body_reader s1) | | now rewrite Hp].
  unfold reader in Ha. injection Ha as -> _ _ _ _ _. exact Hn.
Qed.
End Message.

(** ** Interrupted reads *)

(** The caller comes back with the readers' state as they left it; more bytes
    may have arrived. *)
Definition resumes (s s' : SSL W) : Prop :=
  reader s' = reader s /\ server s' = server s /\ hand_state (statem s') = hand_state (statem s).

(** Calls of a reader until it returns a value. *)
Inductive reads {A : Type} (m : M W (option A)) : SSL W -> A -> SSL W -> Prop :=
| reads_now s a s' : m s = (Some a, s') -> reads m s a s'
| reads_later s s1 s2 a s' : m s = (None, s1) -> resumes s1 s2 -> reads m s2 a s' -> reads m s a s'.

Lemma in_header_resumes mt body rest k s s' :
  resumes s s' -> in_header mt body rest k s -> in_header mt body rest k s'.
Proof.
  intros (Hr & Hs & Hh). unfold reader, in_header, client_busy in *.
  injection Hr as -> _ _ -> _ ->. now rewrite Hs, Hh.
Qed.

Lemma not_ignored_resumes mt body s s' : resumes s s' -> not_ignored mt body s -> not_ignored mt body s'.
Proof. intros (_ & Hs & Hh). unfold not_ignored, client_busy. now rewrite Hs, Hh. Qed.

Lemma header_runs mt body rest k s mt' s' :
  zlen body < 2 ^ 24 -> in_header mt body rest k s -> not_ignored mt body s ->
  reads tls_get_message_header_ntls s mt' s' -> mt' = mt /\ in_body mt body rest s'.
Proof.
  intros Hl Hi Hni Hrun. revert k Hi Hni. induction Hrun as [s a s' H | s s1 s2 a s' H Hres Hrun IH];
    intros k Hi Hni; pose proof (quiet_get_header s) as Q;
    destruct (get_header_reads mt body rest Hl k s Hi Hni) as [(H1 & H2 & _) | (H1 & (k' & H2) & _)];
    rewrite H in *; cbn [fst snd] in *; try discriminate.
  - injection H1 as ->. auto.
  - apply (IH k'); [now apply (in_header_resumes mt body rest k' s1) |].
    apply (not_ignored_resumes _ _ _ _ Hres). now apply (not_ignored_quiet _ _ _ _ Q).
Qed.

Lemma body_runs mt body rest s pkt s' :
  is_byte mt -> zlen body < 2 ^ 24 -> in_body mt body rest s ->
  reads tls_get_message_body_ntls s pkt s' -> pkt = body /\ pend s' = rest.
Proof.
  intros Hmt Hl Hi Hrun. induction Hrun as [s a s' H | s s1 s2 a s' H Hres Hrun IH];
    destruct (get_body_reads mt body rest Hl s Hmt Hi) as [[H1 H2] | (H1 & H2 & _)];
    rewrite H in *; cbn [fst snd] in *; try discriminate.
  - injection H1 as ->. auto.
  - apply IH. now apply (in_body_reader mt body rest s1); [apply Hres |].
Qed.

(** C22: a handshake message is read whole.  Let the peer send, after [k] empty
    HelloRequests if this side is a client in a handshake, a message of type
    [mt] with body [body], in any fragments, in records not of the SSLv2
    format.  Whenever calls of [tls_get_message_header_ntls] that may have to wait anywhere return a type,
    it is [mt], and when further calls of [tls_get_message_body_ntls] return a
    packet, it is [body], with the stream left right behind the message; and
    when the bytes have all arrived and the MAC computations work, one call of
    each does return. *)
Theorem message_reassembled mt body rest k s :
  is_byte mt -> zlen body < 2 ^ 24 -> init_num s = 0 ->
  k = 0%nat \/ client_busy s -> not_ignored mt body s ->
  pend s = hellos k ++ wire mt body ++ rest ->
  (forall mt' s1 s2 pkt s3,
     reads tls_get_message_header_ntls s mt' s1 -> resumes s1 s2 ->
     reads tls_get_message_body_ntls s2 pkt s3 ->
     mt' = mt /\ tmp_message_size s1 = zlen body /\ pkt = body /\ pend s3 = rest)
  /\ ((length (hellos k ++ wire mt body) <= arr s)%nat -> macs_work ->
      exists s1 s2, tls_get_message_header_ntls s = (Some mt, s1)
        /\ tls_get_message_body_ntls s1 = (Some body, s2) /\ pend s2 = rest).
Proof.
  intros Hmt Hl Hn Hk Hni Hp. assert (Hi : in_header mt body rest k s).
  { unfold in_header. rewrite Hn, Hp. split; [lia |]. split; [cbn; lia |]. now split. }
  split.
  - intros mt' s1 s2 pkt s3 H1 Hres H2. destruct (header_runs _ _ _ _ _ _ _ Hl Hi Hni H1) as [-> Hb].
    destruct (body_runs mt body rest s2 pkt s3) as [-> Hr]; auto.
    + apply (in_body_reader mt body rest s1); [apply Hres | exact Hb].
    + split; [easy |]. split; [apply Hb | now split].
  - intros Ha Hw. rewrite length_app, hellos_length, wire_length in Ha.
    destruct (get_header_reads mt body rest Hl k s Hi Hni) as [(H1 & H2 & H3 & H4) | (_ & _ & H4)]; [| lia].
    destruct (tls_get_message_header_ntls s) as [r s1]. cbn [fst snd] in *. subst r.
    destruct (get_body_reads mt body rest Hl s1 Hmt H2) as [[G1 G2] | (_ & _ & G)].
    + destruct (tls_get_message_body_ntls s1) as [r s2] eqn:Eb. cbn [fst snd] in *. subst r. eauto.
    + specialize (G Hw). unfold zlen in G. lia.
Qed.

(** ** ChangeCipherSpec *)

Definition stateless_start (s : SSL W) : bool :=
  bool_decide (hand_state (statem s) = TLS_ST_BEFORE) && flag (s3_flags s) TLS1_FLAGS_STATELESS.

Definition good_ccs (s : SSL W) (bs : list Z) : bool :=
  (init_num s =? 0) && bool_decide (bs = [SSL3_MT_CCS]).

(** The first round of the header loop reads a ChangeCipherSpec record. *)
Lemma ccs_round s bs l :
  init_num s < 4 ->
  ssl_read_bytes true (4 - init_num s) (layer (world s)) = (Some (SSL3_RT_CHANGE_CIPHER_SPEC, bs), l) ->
  let s1 := set_data (copy_at (Z.to_nat (init_num s)) bs (buf_data (world s))) (set_layer l s) in
  header_loop (2 + arr s) s =
    if good_ccs s bs then
      if stateless_start s then (Filled_return, s1)
      else (Filled_ccs, set_type SSL3_MT_CHANGE_CIPHER_SPEC s1 <|init_num := 0|>
                          <|init_msg := 0|> <|tmp_message_size := 1|>)
    else fail SSL_AD_UNEXPECTED_MESSAGE Filled_return s1.
Proof.
  intros Hn Hr s1. change (2 + arr s)%nat with (S (1 + arr s)). cbn [header_loop].
  rewrite fill_header_S. change SSL3_HM_HEADER_LENGTH with 4.
  destruct (Z.leb_spec 4 (init_num s)) as [? | _]; [lia |].
  destruct (read_at_cases true (init_num s) (4 - init_num s) s)
    as [(l' & Hr' & _) | (ty & bs' & l' & Hr' & ->)]; rewrite Hr in Hr'; simplify_eq.
  fold s1. change (SSL3_RT_CHANGE_CIPHER_SPEC =? SSL3_RT_CHANGE_CIPHER_SPEC) with true. cbv iota.
  change (init_num s1) with (init_num s). change (hand_state (statem s1)) with (hand_state (statem s)).
  change (s3_flags s1) with (s3_flags s). unfold good_ccs, stateless_start.
  assert (Hg : negb (init_num s =? 0) || negb (zlen bs' =? 1) || negb (byte_at s1 0 =? SSL3_MT_CCS)
               = negb ((init_num s =? 0) && bool_decide (bs' = [SSL3_MT_CCS]))).
  { destruct (Z.eqb_spec (init_num s) 0) as [H0 | _]; [| reflexivity]. cbn [negb orb andb].
    unfold byte_at, s1. cbn [world set_data set_layer]. rewrite H0.
    destruct bs' as [| b [| b' bs']]; [reflexivity | |].
    2: { rewrite bool_decide_eq_false_2 by easy.
         replace (zlen (b :: b' :: bs') =? 1) with false; [reflexivity |].
         symmetry. apply Z.eqb_neq. unfold zlen. cbn [length]. lia. }
    transitivity (negb (b =? 1)); [reflexivity |].
    destruct (Z.eqb_spec b 1) as [-> | Hb]; [reflexivity |].
    rewrite bool_decide_eq_false_2; [reflexivity | intros [= H]; exact (Hb H)]. }
  rewrite Hg. destruct ((init_num s =? 0) && bool_decide (bs' = [SSL3_MT_CCS])) eqn:Eg; cbn [negb].
  - apply andb_true_iff in Eg as [_ Eb]. apply bool_decide_eq_true in Eb as ->.
    destruct (bool_decide _ && flag _ _); reflexivity.
  - pose proof (fail_fst SSL_AD_UNEXPECTED_MESSAGE Filled_return s1) as Hf.
    destruct (fail SSL_AD_UNEXPECTED_MESSAGE Filled_return s1) as [r s2]. cbn [fst] in Hf. now subst r.
Qed.

(** C40: a ChangeCipherSpec is accepted only between messages.  When the first
    record that the record layer delivers to a call of the header reader is a
    ChangeCipherSpec, and the reader waits for a header, it returns its type, with an empty packet to follow, if no
    byte of a message has been read and the record is the single byte 1; it
    returns 0 without an error on a stateless server that has not begun a
    handshake; and in every other case it fails the connection. *)
Theorem ccs_only_between_messages s bs l :
  init_num s < 4 ->
  ssl_read_bytes true (4 - init_num s) (layer (world s)) = (Some (SSL3_RT_CHANGE_CIPHER_SPEC, bs), l) ->
  let r := tls_get_message_header_ntls s in
  if good_ccs s bs then
    if stateless_start s then r.1 = None /\ state (statem r.2) = state (statem s)
    else r.1 = Some SSL3_MT_CHANGE_CIPHER_SPEC /\ tmp_message_size r.2 = 1
         /\ tls_get_message_body_ntls r.2 = (Some [], r.2)
  else r.1 = None /\ failed r.2.
Proof.
  intros Hn Hr. pose proof (ccs_round s bs l Hn Hr) as Hl. cbv zeta in Hl |- *.
  unfold tls_get_message_header_ntls. rewrite Hl. destruct (good_ccs s bs).
  - destruct (stateless_start s); cbn [fst snd]; [now split |].
    split; [easy | split; [easy |]]. reflexivity.
  - set (s1 := set_data _ _). pose proof (fail_failed SSL_AD_UNEXPECTED_MESSAGE Filled_return s1) as Hf.
    pose proof (fail_fst SSL_AD_UNEXPECTED_MESSAGE Filled_return s1) as Hf'.
    destruct (fail SSL_AD_UNEXPECTED_MESSAGE Filled_return s1) as [r s2]. cbn [fst snd] in *. now subst r.
Qed.
End ReaderLaws.

(** ** A record layer of fragments *)

(** Each fragment is a type and at least one byte. *)
Definition fragments := list (Z * (Z * list Z)).

Definition frag_bytes (f : Z * (Z * list Z)) : list Z := f.2.1 :: f.2.2.

Fixpoint frag_pending (l : fragments) : list Z :=
  match l with
  | [] => []
  | f :: l => if f.1 =? SSL3_RT_HANDSHAKE then frag_bytes f ++ frag_pending l else []
  end.

(** The rest of a fragment that has been read in part. *)
Definition put_back (ty : Z) (bs : list Z) (l : fragments) : fragments :=
  match bs with [] => l | b :: bs => (ty, (b, bs)) :: l end.

Definition frag_read (ccs : bool) (n : Z) (l : fragments) : option (Z * list Z) * fragments :=
  match l with
  | [] => (None, [])
  | (ty, (b, bs)) :: l' =>
      if negb ccs && negb (ty =? SSL3_RT_HANDSHAKE) then (None, l)
      else
        let m := Z.to_nat (n - 1) in
        (Some (ty, b :: take m bs), put_back ty (drop m bs) l')
  end.

Definition frag_arrived (l : fragments) : nat := sum_list_with (fun f => length (frag_bytes f)) l.

#[export] Instance frag_layer : RecordLayer fragments := {
  ssl_read_bytes := frag_read;
  RECORD_LAYER_is_sslv2_record _ := false;
  RECORD_LAYER_get_rrec_length _ := 0;
  ssl3_finish_mac _ s := (true, s);
  arrived := frag_arrived;
  pending := frag_pending }.

(** Everything else fails or does nothing. *)
#[export] Instance idle_env : Env (msgbuf fragments) := {
  ext _ s := (1, s);
  NtlsEnv.tls_get_message_header_ntls s := (None, s);
  NtlsEnv.tls_get_message_body_ntls s := (None, s);
  process _ _ s := (MSG_PROCESS_ERROR, s);
  work _ _ s := (WORK_ERROR, s);
  construct _ s := (false, s);
  final_finish_mac _ s := ([1], s);
  cert_cb := None;
  ssl_do_client_cert_cb_ntls s := ((0, false), s);
  SSL_clear s := (false, s);
  ssl_security _ := true;
  ssl_get_max_version _ := None;
  SSL_get_ciphers _ := [];
  session_has_master_key _ := false;
  RECORD_LAYER_read_pending _ := false;
  RECORD_LAYER_write_pending _ := false }.

#[export] Instance idle_laws : EnvLaws (msgbuf fragments).
Proof.
  constructor; cbn; intros; try discriminate; try reflexivity; try contradiction;
    unfold same_cipher, same_req, same_peer, same_fin; auto.
Qed.

Lemma put_back_spec ty (bs : list Z) (l : fragments) :
  frag_arrived (put_back ty bs l) = (length bs + frag_arrived l)%nat
  /\ (ty = SSL3_RT_HANDSHAKE -> frag_pending (put_back ty bs l) = bs ++ frag_pending l).
Proof. destruct bs as [| b bs]; [easy |]. split; [reflexivity | intros ->; reflexivity]. Qed.

#[export] Instance frag_laws : RecordLayerLaws fragments.
Proof.
  constructor; cbn [ssl_read_bytes arrived pending frag_layer]; try easy.
  - intros ccs n [| [ty [b bs]] l] ty' bs' l' Hn; cbn [frag_read]; [discriminate |].
    destruct (_ && _); [discriminate |]. intros H. injection H as <- <- <-.
    pose proof (put_back_spec ty (drop (Z.to_nat (n - 1)) bs) l) as [-> _]. unfold zlen. cbn [length].
    change (frag_arrived ((ty, (b, bs)) :: l)) with (S (length bs) + frag_arrived l)%nat.
    rewrite length_take, length_drop. lia.
  - intros ccs n [| [ty [b bs]] l] ty' bs' l'; cbn [frag_read]; [discriminate |].
    destruct (_ && _); [discriminate |]. intros H. injection H as <- <- <-. cbn [frag_pending fst].
    destruct (Z.eqb_spec ty SSL3_RT_HANDSHAKE) as [-> |]; [intros _ | contradiction].
    pose proof (put_back_spec SSL3_RT_HANDSHAKE (drop (Z.to_nat (n - 1)) bs) l) as [-> Hp].
    split; [easy |]. rewrite Hp by easy. unfold frag_bytes. cbn [fst snd app].
    change (frag_arrived ((SSL3_RT_HANDSHAKE, (b, bs)) :: l)) with (S (length bs) + frag_arrived l)%nat.
    split; [now rewrite app_assoc, take_drop |]. cbn [length]. rewrite length_take, length_drop. lia.
  - intros ccs n [| [ty [b bs]] l] l'; cbn [frag_read]; [congruence |].
    destruct (_ && _); [congruence | discriminate].
  - intros ccs n [| [ty [b bs]] l] Hn Hp _; cbn [frag_read]; [contradiction |].
    cbn [frag_pending fst] in Hp. destruct (ty =? SSL3_RT_HANDSHAKE); [| contradiction].
    rewrite andb_false_r. discriminate.
Qed.

(** A client that has sent its ClientHello, [n] bytes of a header in its buffer. *)
Definition reading_client (n : Z) (d : list Z) (l : fragments) : SSL (msgbuf fragments) :=
  {| statem := mk_statem MSG_FLOW_READING WRITE_STATE_TRANSITION WORK_ERROR READ_STATE_HEADER WORK_ERROR
       TLS_ST_CW_CLNT_HELLO TLS_ST_BEFORE true false 0 false false ENC_WRITE_STATE_VALID
       ENC_READ_STATE_VALID;
     server := false; version := NTLS_VERSION; hit := false;
     renegotiate := false; new_session := false; options := 0;
     early_data_state := SSL_EARLY_DATA_NONE; max_early_data := 0;
     hello_retry_request := SSL_HRR_NONE; post_handshake_auth := SSL_PHA_NONE;
     shutdown := 0; rwstate := SSL_NOTHING; first_packet := false; init_buf := true;
     init_num := n; init_msg := 0; verify_mode := 0; certreqs_sent := 0;
     max_cert_list := 102400; session_cipher := None; session_peer := false;
     session_tick := false; ext_session_secret_cb := false; ext_ticket_expected := false;
     ext_status_expected := false; ext_early_data := 0; s3_flags := 0;
     s3_renegotiate := false; s3_change_cipher_spec := false; s3_npn_seen := false;
     s3_in_read_app_data := false; s3_num_renegotiations := 0; s3_total_renegotiations := 0;
     s3_key_block := false; s3_handshake_buffer := true; s3_previous_client_finished := [];
     s3_previous_server_finished := []; tmp_new_cipher := None; tmp_cert_req := 0;
     tmp_cert_request := false; tmp_message_size := 0; tmp_finish_md := [];
     tmp_peer_finish_md := []; trace := []; world := mk_msgbuf d 0 l |}.

(** A HelloRequest and a message of type 14 with two bytes, in fragments. *)
Lemma message_reassembled_witness :
  let s := reading_client 0 [] [(22, (0, [0])); (22, (0, [0; 14; 0])); (22, (0, [2; 7])); (22, (8, [9]))] in
  exists s1 s2, tls_get_message_header_ntls s = (Some 14, s1)
    /\ tls_get_message_body_ntls s1 = (Some [7; 8], s2) /\ pending (layer (world s2)) = [9].
Proof.
  intros s. apply (message_reassembled 14 [7; 8] [9] 1 s).
  - unfold is_byte. lia.
  - reflexivity.
  - reflexivity.
  - right. split; [reflexivity | discriminate].
  - intros _. left. discriminate.
  - reflexivity.
  - cbn. lia.
  - split; [reflexivity | intros; discriminate].
Defined.

(** A ChangeCipherSpec after two bytes of a header. *)
Lemma ccs_only_between_messages_witness :
  let s := reading_client 2 [2; 0] [(20, (1, []))] in
  (tls_get_message_header_ntls s).1 = None /\ failed (tls_get_message_header_ntls s).2.
Proof.
  intros s. exact (ccs_only_between_messages s [1] [] eq_refl eq_refl).
Defined.
