(* ===== verification/Sm4Spec.v ===== *)
(** * SM4 against the standard

    GB/T 32907 in its own terms: the nonlinear and linear transformations, the
    round function on four words, the key expansion with its constants.  The
    code computes them: the word tables are the composition of the two
    transformations, the in-place rounds are the shift register of the
    standard, and decryption inverts encryption. *)

From Stdlib Require Import Btauto.
From S2P Require Import Prelude Buffers Sm4.

(** ** The standard *)

(** The S-box on each byte, and the two linear transformations. *)
Definition tau (X : Z) : Z :=
  word_of (at_byte SM4_S X 24) (at_byte SM4_S X 16) (at_byte SM4_S X 8) (at_byte SM4_S X 0).
Definition lin (B : Z) : Z :=
  Z.lxor (Z.lxor (Z.lxor (Z.lxor B (rotl B 2)) (rotl B 10)) (rotl B 18)) (rotl B 24).
Definition lin' (B : Z) : Z := Z.lxor (Z.lxor B (rotl B 13)) (rotl B 23).

(** One round of the register, and its 32 rounds. *)
Definition sm4_round (T : Z -> Z) (X : block) (rk : Z) : block :=
  let '(X0, X1, X2, X3) := X in
  (X1, X2, X3, Z.lxor X0 (T (Z.lxor (Z.lxor (Z.lxor X1 X2) X3) rk))).
Definition sm4_rounds (T : Z -> Z) (X : block) (rks : list Z) : block :=
  foldl (sm4_round T) X rks.

Definition reverse (X : block) : block :=
  let '(X0, X1, X2, X3) := X in (X3, X2, X1, X0).
Definition block_bytes (X : block) : list Z :=
  let '(X0, X1, X2, X3) := X in
  store_u32_be X0 ++ store_u32_be X1 ++ store_u32_be X2 ++ store_u32_be X3.

(** Encryption; decryption takes the round keys in reverse order. *)
Definition sm4_cipher (rks inp : list Z) : list Z :=
  block_bytes (reverse (sm4_rounds (fun X => lin (tau X)) (load_block inp) rks)).

(** Key expansion: [ck_{i,j} = (4i + j) * 7 mod 256], [rk_i] is the word that
    enters the register in round [i]. *)
Definition ck (i : nat) : Z :=
  let c j := (4 * Z.of_nat i + j) * 7 mod 256 in word_of (c 0) (c 1) (c 2) (c 3).
Definition xor_block (X Y : block) : block :=
  let '(X0, X1, X2, X3) := X in
  let '(Y0, Y1, Y2, Y3) := Y in (Z.lxor X0 Y0, Z.lxor X1 Y1, Z.lxor X2 Y2, Z.lxor X3 Y3).
Fixpoint sm4_expand (K : block) (cks : list Z) : list Z :=
  match cks with
  | [] => []
  | c :: cks =>
      let K := sm4_round (fun X => lin' (tau X)) K c in
      let '(_, _, _, rk) := K in rk :: sm4_expand K cks
  end.
Definition sm4_key_schedule (key : list Z) : list Z :=
  sm4_expand (xor_block (load_block key) (0xa3b1bac6, 0x56aa3350, 0x677d9197, 0xb27022dc))
    (map ck (seq 0 32)).

(** ** The transformations *)

Lemma SM4_S_bytes : bytes SM4_S.
Proof.
  apply List.Forall_forall. intros x Hx. unfold is_byte.
  assert (H : forallb (fun x => (0 <=? x) && (x <? 256)) SM4_S = true) by (vm_compute; reflexivity).
  rewrite forallb_forall in H. specialize (H x Hx). lia.
Qed.

Lemma at_byte_index X k : (Z.to_nat (u8 (Z.shiftr X k)) < 256)%nat.
Proof. pose proof (u8_range (Z.shiftr X k)) as H. pow2. lia. Qed.

Lemma at_byte_S X k : is_byte (at_byte SM4_S X k).
Proof. unfold at_byte. apply (get_Forall is_byte); [apply SM4_S_bytes | apply at_byte_index]. Qed.
#[local] Hint Resolve at_byte_S : words.

Lemma SM4_sub_tau X : SM4_sub X = tau X.
Proof.
  unfold SM4_sub, tau, word_of. rewrite !u32_byte_shift by (lia || apply at_byte_S).
  now rewrite Z.lor_0_l.
Qed.

Lemma is_u32_tau X : is_u32 (tau X).
Proof. unfold tau. apply is_u32_word_of; apply at_byte_S. Qed.

(** [word_of] as a sum in which the linear transformation distributes. *)
Lemma word_of_lxor b3 b2 b1 b0 :
  is_byte b3 -> is_byte b2 -> is_byte b1 -> is_byte b0 ->
  word_of b3 b2 b1 b0
  = Z.lxor (Z.lxor (Z.lxor (Z.shiftl b3 24) (Z.shiftl b2 16)) (Z.shiftl b1 8)) b0.
Proof.
  intros H3 H2 H1 H0. unfold word_of, is_byte in *.
  assert (D : forall a b n m, 0 <= n -> 0 <= m -> n + 8 <= m -> 0 <= a < 256 ->
             Z.land (Z.shiftl b m) (Z.shiftl a n) = 0).
  { intros a b n m Hn Hm Hnm Ha. replace m with ((m - n - 8) + 8 + n) by lia.
    rewrite <- !Z.shiftl_shiftl by lia. rewrite <- Z.shiftl_land, Z.land_comm.
    rewrite land_shiftl_small by (pow2; lia). now apply Z.shiftl_0_l. }
  pose proof (D b2 b3 16 24 ltac:(lia) ltac:(lia) ltac:(lia) H2) as D1.
  pose proof (D b1 b3 8 24 ltac:(lia) ltac:(lia) ltac:(lia) H1) as D2.
  pose proof (D b1 b2 8 16 ltac:(lia) ltac:(lia) ltac:(lia) H1) as D3.
  pose proof (D b0 b3 0 24 ltac:(lia) ltac:(lia) ltac:(lia) H0) as D4.
  pose proof (D b0 b2 0 16 ltac:(lia) ltac:(lia) ltac:(lia) H0) as D5.
  pose proof (D b0 b1 0 8 ltac:(lia) ltac:(lia) ltac:(lia) H0) as D6.
  rewrite Z.shiftl_0_r in *.
  rewrite <- !Z.lxor_lor; rewrite ?Z.land_lor_distr_l, ?D1, ?D2, ?D3, ?D4, ?D5, ?D6; try reflexivity.
Qed.

Lemma lin_lxor a b : is_u32 a -> is_u32 b -> lin (Z.lxor a b) = Z.lxor (lin a) (lin b).
Proof.
  intros Ha Hb. unfold lin. rewrite !rotl_lxor by (easy || lia).
  generalize (rotl a 2) (rotl b 2) (rotl a 10) (rotl b 10) (rotl a 18) (rotl b 18)
    (rotl a 24) (rotl b 24). intros.
  apply Z.bits_inj'. intros i _. rewrite !Z.lxor_spec. btauto.
Qed.

(** The tables hold the linear transformation of each S-box output. *)
Definition table_ok (T : list Z) (k : Z) : bool :=
  forallb (fun i => get T i =? lin (Z.shiftl (get SM4_S i) k)) (seq 0 256).

Lemma tables_ok :
  table_ok SM4_SBOX_T0 24 && table_ok SM4_SBOX_T1 16 && table_ok SM4_SBOX_T2 8
  && table_ok SM4_SBOX_T3 0 = true.
Proof. vm_compute. reflexivity. Qed.

Lemma table_at T k X j :
  table_ok T k = true -> at_byte T X j = lin (Z.shiftl (at_byte SM4_S X j) k).
Proof.
  intros H. unfold table_ok in H. rewrite forallb_forall in H. unfold at_byte.
  apply Z.eqb_eq, H, in_seq. pose proof (at_byte_index X j). lia.
Qed.

Lemma SM4_T_slow_spec X : SM4_T_slow X = lin (tau X).
Proof. unfold SM4_T_slow. now rewrite SM4_sub_tau. Qed.

Lemma SM4_T_spec X : SM4_T X = lin (tau X).
Proof.
  pose proof tables_ok as H. rewrite !andb_true_iff in H. destruct H as [[[H0 H1] H2] H3].
  unfold SM4_T, tau. rewrite (table_at _ _ _ _ H0), (table_at _ _ _ _ H1),
    (table_at _ _ _ _ H2), (table_at _ _ _ _ H3), Z.shiftl_0_r.
  rewrite word_of_lxor by auto with words.
  assert (B : forall j k, 0 <= k <= 24 -> is_u32 (Z.shiftl (at_byte SM4_S X j) k)).
  { intros j k Hk. rewrite <- u32_byte_shift by (lia || apply at_byte_S). apply is_u32_u32. }
  pose proof (B 24 24 ltac:(lia)). pose proof (B 16 16 ltac:(lia)).
  pose proof (B 8 8 ltac:(lia)). pose proof (B 0 0 ltac:(lia)) as B0.
  rewrite Z.shiftl_0_r in B0.
  now rewrite !lin_lxor by auto with words.
Qed.

(** ** The rounds *)

Lemma SM4_RNDS_spec rk k0 k1 k2 k3 F B :
  SM4_RNDS rk k0 k1 k2 k3 F B
  = sm4_rounds F B [get rk k0; get rk k1; get rk k2; get rk k3].
Proof.
  destruct B as [[[B0 B1] B2] B3]. unfold SM4_RNDS, sm4_rounds, sm4_round. cbn [foldl].
  assert (X : forall a b c, Z.lxor (Z.lxor a b) c = Z.lxor (Z.lxor b c) a).
  { intros. apply Z.bits_inj'. intros i _. rewrite !Z.lxor_spec. btauto. }
  set (Y0 := Z.lxor B0 _). rewrite (X Y0 B2 B3). set (Y1 := Z.lxor B1 _).
  replace (Z.lxor (Z.lxor Y0 Y1) B3) with (Z.lxor (Z.lxor B3 Y0) Y1)
    by (apply Z.bits_inj'; intros i _; rewrite !Z.lxor_spec; btauto).
  set (Y2 := Z.lxor B2 _). reflexivity.
Qed.

Lemma sm4_rounds_ext F G X rks : (forall x, F x = G x) -> sm4_rounds F X rks = sm4_rounds G X rks.
Proof.
  intros H. revert X. induction rks as [| rk rks IH]; intros X; [reflexivity |].
  unfold sm4_rounds in *. cbn [foldl]. rewrite IH. f_equal.
  destruct X as [[[X0 X1] X2] X3]. cbn. now rewrite H.
Qed.

Lemma sm4_rounds_app F X l k : sm4_rounds F X (l ++ k) = sm4_rounds F (sm4_rounds F X l) k.
Proof. apply foldl_app. Qed.

Lemma store_block_spec B : store_block B = block_bytes (reverse B).
Proof. now destruct B as [[[B0 B1] B2] B3]. Qed.

Lemma rk_eta rk : length rk = 32%nat -> rk = map (get rk) (seq 0 32).
Proof.
  intros H. apply list_eq_get; [now rewrite length_map, length_seq |].
  intros i Hi. now rewrite get_map_seq by lia.
Qed.

Ltac group_rounds :=
  rewrite !SM4_RNDS_spec, !(sm4_rounds_ext SM4_T _ _ _ SM4_T_spec),
    !(sm4_rounds_ext SM4_T_slow _ _ _ SM4_T_slow_spec), <- !sm4_rounds_app.

Lemma encrypt_spec inp rk :
  length rk = 32%nat -> ossl_sm4_encrypt inp rk = sm4_cipher rk inp.
Proof.
  intros H. unfold ossl_sm4_encrypt, sm4_cipher. rewrite store_block_spec. group_rounds.
  do 3 f_equal. symmetry. exact (rk_eta rk H).
Qed.

Lemma decrypt_spec inp rk :
  length rk = 32%nat -> ossl_sm4_decrypt inp rk = sm4_cipher (rev rk) inp.
Proof.
  intros H. unfold ossl_sm4_decrypt, sm4_cipher. rewrite store_block_spec. group_rounds.
  do 3 f_equal. symmetry. rewrite (rk_eta rk H). reflexivity.
Qed.

(** ** The key schedule *)

(** The register of the standard, read off the circular array of the code. *)
Definition window (i : nat) (K : list Z) : block :=
  (get K (i mod 4), get K ((i + 1) mod 4), get K ((i + 2) mod 4), get K ((i + 3) mod 4)).

Definition newest (K : block) : Z := let '(_, _, _, rk) := K in rk.

Lemma key_round_spec K rk i :
  length K = 4%nat ->
  let K' := sm4_round (fun X => lin' (tau X)) (window i K) (get CK i) in
  exists L, sm4_key_round (K, rk) i = (L, <[i := newest K']> rk)
            /\ window (S i) L = K' /\ length L = 4%nat.
Proof.
  intros HK. destruct K as [| k0 [| k1 [| k2 [| k3 [| ]]]]]; try discriminate.
  unfold sm4_key_round, window, sm4_round, newest, lin'. rewrite SM4_sub_tau.
  replace (S i) with (i + 1)%nat by lia. rewrite <- !Nat.add_assoc. cbn [Nat.add].
  rewrite <- !(Nat.Div0.add_mod_idemp_l i). pose proof (Nat.mod_upper_bound i 4 ltac:(easy)) as Hi.
  destruct (i mod 4)%nat as [| [| [| [| r]]]]; [| | | | lia];
    cbn -[Z.lxor rotl tau CK]; eexists; split; try reflexivity; split; reflexivity.
Qed.

Lemma set_key_loop n : forall i K rk,
  length K = 4%nat -> (i + n <= length rk)%nat ->
  snd (foldl sm4_key_round (K, rk) (seq i n))
  = take i rk ++ sm4_expand (window i K) (map (get CK) (seq i n)) ++ drop (i + n) rk.
Proof.
  induction n as [| n IH]; intros i K rk HK Hn.
  - cbn. rewrite Nat.add_0_r. symmetry. apply take_drop.
  - cbn [seq foldl map sm4_expand].
    destruct (key_round_spec K rk i HK) as (L & -> & HW & HL).
    rewrite IH; [| exact HL | rewrite length_insert; lia]. rewrite HW.
    destruct (sm4_round _ _ _) as [[[x0 x1] x2] x3]. cbn [newest].
    rewrite drop_insert_lt by lia. rewrite (take_S_r _ i x3) by (apply list_lookup_insert_eq; lia).
    rewrite take_insert_ge by lia. rewrite <- app_assoc. cbn [app].
    now replace (S i + n)%nat with (i + S n)%nat by lia.
Qed.

Lemma set_key_spec key rk :
  length rk = 32%nat -> ossl_sm4_set_key key rk = sm4_key_schedule key.
Proof.
  intros H. unfold ossl_sm4_set_key. rewrite set_key_loop by (unfold SM4_KEY_SCHEDULE; cbn; lia).
  rewrite (drop_ge rk) by (unfold SM4_KEY_SCHEDULE; lia). rewrite app_nil_r.
  unfold sm4_key_schedule. f_equal.
Qed.

Lemma sm4_expand_length K cks : length (sm4_expand K cks) = length cks.
Proof.
  revert K. induction cks as [| c cks IH]; intros K; [reflexivity |]. cbn [sm4_expand].
  destruct (sm4_round _ K c) as [[[x0 x1] x2] x3]. cbn. now rewrite IH.
Qed.

(** ** Inversion *)

Definition block_ok (X : block) : Prop :=
  let '(X0, X1, X2, X3) := X in is_u32 X0 /\ is_u32 X1 /\ is_u32 X2 /\ is_u32 X3.

Lemma is_u32_lin B : is_u32 B -> is_u32 (lin B).
Proof. intros. unfold lin. auto 10 with words. Qed.

Lemma rounds_ok rks X : block_ok X -> block_ok (sm4_rounds (fun X => lin (tau X)) X rks).
Proof.
  revert X. induction rks as [| rk rks IH]; intros X HX; [exact HX |].
  apply IH. destruct X as [[[X0 X1] X2] X3]. destruct HX as (? & ? & ? & ?). cbn [sm4_round].
  split_and!; auto using is_u32_lin, is_u32_tau with words.
Qed.

(** A round undoes itself on the reversed register. *)
Lemma round_involutive T X rk : sm4_round T (reverse (sm4_round T X rk)) rk = reverse X.
Proof.
  destruct X as [[[X0 X1] X2] X3]. cbn [sm4_round reverse]. repeat f_equal.
  replace (Z.lxor (Z.lxor X3 X2) X1) with (Z.lxor (Z.lxor X1 X2) X3)
    by (apply Z.bits_inj'; intros i _; rewrite !Z.lxor_spec; btauto).
  rewrite Z.lxor_assoc, Z.lxor_nilpotent. apply Z.lxor_0_r.
Qed.

Lemma rounds_inverse T rks X :
  sm4_rounds T (reverse (sm4_rounds T X rks)) (rev rks) = reverse X.
Proof.
  revert X. induction rks as [| rk rks IH]; intros X; [reflexivity |].
  cbn [rev]. rewrite sm4_rounds_app. unfold sm4_rounds at 3. cbn [foldl].
  fold (sm4_rounds T (sm4_round T X rk) rks). rewrite IH. apply round_involutive.
Qed.

Lemma load_block_bytes X : block_ok X -> load_block (block_bytes X) = X.
Proof.
  destruct X as [[[X0 X1] X2] X3]. intros (H0 & H1 & H2 & H3).
  assert (L : forall n l, bytes l -> length l = 16%nat -> (n < 4)%nat ->
    load_u32_be l n = word_of (get l (4 * n)) (get l (4 * n + 1)) (get l (4 * n + 2)) (get l (4 * n + 3)))
    by (intros; apply load_u32_be_word; [easy | lia]).
  unfold load_block. rewrite !L;
    try lia; try reflexivity; try (repeat apply Forall_app_2; apply store_u32_be_bytes).
  cbn -[word_of u8 Z.shiftr]. now rewrite !word_of_store.
Qed.

Lemma block_bytes_load b :
  bytes b -> length b = 16%nat -> block_bytes (load_block b) = b /\ block_ok (load_block b).
Proof.
  intros Hb Hl.
  split; [| split_and!; apply is_u32_load; (easy || lia)].
  unfold load_block, block_bytes. rewrite !load_u32_be_word by (easy || lia).
  rewrite !store_word_of by (apply (get_Forall is_byte); [easy | lia]).
  do 16 (destruct b as [| ? b]; [discriminate |]). destruct b; [reflexivity | discriminate].
Qed.

Lemma reverse_involutive X : reverse (reverse X) = X.
Proof. now destruct X as [[[X0 X1] X2] X3]. Qed.

Lemma reverse_ok X : block_ok X -> block_ok (reverse X).
Proof. destruct X as [[[X0 X1] X2] X3]. cbn. tauto. Qed.

Lemma cipher_inverse rks b :
  bytes b -> length b = 16%nat -> sm4_cipher (rev rks) (sm4_cipher rks b) = b.
Proof.
  intros Hb Hl. destruct (block_bytes_load b Hb Hl) as [HB HO]. unfold sm4_cipher.
  rewrite load_block_bytes by (apply reverse_ok, rounds_ok, HO).
  now rewrite rounds_inverse, reverse_involutive.
Qed.

(** C26: SM4 as the standard defines it.  On any 16-byte key and block, the code,
    with its word tables, its S-box lookups in the outer rounds and its
    in-place rounds, computes the cipher of GB/T 32907: the key schedule is the
    key expansion with the constants the standard derives, encryption is the 32
    rounds with the round keys in order, decryption with the round keys in
    reverse order. *)
Theorem sm4_correct key inp rk0 :
  length rk0 = 32%nat ->
  let rk := ossl_sm4_set_key key rk0 in
  rk = sm4_key_schedule key
  /\ ossl_sm4_encrypt inp rk = sm4_cipher (sm4_key_schedule key) inp
  /\ ossl_sm4_decrypt inp rk = sm4_cipher (rev (sm4_key_schedule key)) inp.
Proof.
  intros H rk. unfold rk. rewrite set_key_spec by easy.
  assert (length (sm4_key_schedule key) = 32%nat) by apply sm4_expand_length.
  split_and!; [reflexivity | now apply encrypt_spec | now apply decrypt_spec].
Qed.

(** The example of the standard: key and plaintext 0123...3210. *)
Definition sm4_example : list Z :=
  [0x01; 0x23; 0x45; 0x67; 0x89; 0xab; 0xcd; 0xef; 0xfe; 0xdc; 0xba; 0x98; 0x76; 0x54; 0x32; 0x10].

Lemma sm4_correct_witness :
  sm4_cipher (sm4_key_schedule sm4_example) sm4_example
  = [0x68; 0x1e; 0xdf; 0x34; 0xd2; 0x06; 0x96; 0x5e; 0x86; 0xb3; 0xe9; 0x4f; 0x53; 0x6e; 0x42; 0x46].
Proof.
  destruct (sm4_correct sm4_example sm4_example (repeat 0 32) eq_refl) as (_ & <- & _).
  vm_compute. reflexivity.
Defined.

(** SM4 decrypts what it encrypts.  With any round keys, decrypting the
    encryption of a 16-byte block gives the block back, and encrypting the
    decryption as well. *)
Theorem sm4_roundtrip rk b :
  length rk = 32%nat -> bytes b -> length b = 16%nat ->
  ossl_sm4_decrypt (ossl_sm4_encrypt b rk) rk = b
  /\ ossl_sm4_encrypt (ossl_sm4_decrypt b rk) rk = b.
Proof.
  intros Hr Hb Hl. rewrite !encrypt_spec, !decrypt_spec by easy. split.
  - now apply cipher_inverse.
  - pose proof (cipher_inverse (rev rk) b Hb Hl) as H. now rewrite rev_involutive in H.
Qed.

Lemma sm4_roundtrip_witness :
  ossl_sm4_decrypt (ossl_sm4_encrypt sm4_example (repeat 7 32)) (repeat 7 32) = sm4_example
  /\ ossl_sm4_encrypt (ossl_sm4_decrypt sm4_example (repeat 7 32)) (repeat 7 32) = sm4_example.
Proof.
  apply sm4_roundtrip; [reflexivity | | reflexivity].
  repeat constructor; unfold is_byte; lia.
Defined.
