(* ===== verification/Sm3.v ===== *)
(** * SM3

    [crypto/sm3/sm3.c], [sm3_local.h] and the digest interface that
    [md32_common.h] builds around the block function: the unrolled compression
    function, [SM3_Init], [SM3_Update] and [SM3_Final]. *)

From S2P Require Import Prelude Buffers.

(** ** The macros *)

(** [#define ROTATE(a,n) (((a)<<(n))|(((a)&0xffffffff)>>(32-(n))))] *)
Definition ROTATE (a n : Z) : Z :=
  Z.lor (u32 (Z.shiftl a n)) (Z.shiftr (Z.land a 0xffffffff) (32 - n)).

Definition P0 (X : Z) : Z := Z.lxor (Z.lxor X (ROTATE X 9)) (ROTATE X 17).
Definition P1 (X : Z) : Z := Z.lxor (Z.lxor X (ROTATE X 15)) (ROTATE X 23).

Definition FF0 (x y z : Z) : Z := Z.lxor (Z.lxor x y) z.
Definition GG0 (x y z : Z) : Z := Z.lxor (Z.lxor x y) z.
Definition FF1 (x y z : Z) : Z := Z.lor (Z.land x y) (Z.land (Z.lor x y) z).
Definition GG1 (x y z : Z) : Z := Z.lxor z (Z.land x (Z.lxor y z)).

Definition EXPAND (W0 W7 W13 W3 W10 : Z) : Z :=
  Z.lxor (Z.lxor (P1 (Z.lxor (Z.lxor W0 W7) (ROTATE W13 15))) (ROTATE W3 7)) W10.

(** The macro assigns [B], [D], [F] and [H] for the statements [k] that
    follow it. *)
Definition RND {R : Type} (FF GG : Z -> Z -> Z -> Z) (A B C D E F G H TJ Wi Wj : Z)
    (k : Z -> Z -> Z -> Z -> R) : R :=
  let A12 := ROTATE A 12 in
  let A12_SM := u32 (A12 + E + TJ) in
  let SS1 := ROTATE A12_SM 7 in
  let TT1 := u32 (FF A B C + D + Z.lxor SS1 A12 + Wj) in
  let TT2 := u32 (GG E F G + H + SS1 + Wi) in
  k (ROTATE B 9) TT1 (ROTATE F 19) (P0 TT2).

Abbreviation R1 := (RND FF0 GG0).
Abbreviation R2 := (RND FF1 GG1).

(** An assignment, for the statements [k] that follow it. *)
Definition assignment {R : Type} (v : Z) (k : Z -> R) : R := k v.
Notation "'assign' w := v 'in' k" := (assignment v (fun w => k))
  (at level 10, w name, v at level 9, k at level 200).
Notation "'assign' b d f h := m 'in' k" := (m (fun b d f h => k))
  (at level 10, b name, d name, f name, h name, m at level 9, k at level 200).

(** ** The block function *)

(** The registers [A] to [H]. *)
Definition regs : Type := Z * Z * Z * Z * Z * Z * Z * Z.

Definition sm3_rounds (r : regs)
    (W00 W01 W02 W03 W04 W05 W06 W07 W08 W09 W10 W11 W12 W13 W14 W15 : Z) : regs :=
  let '(A, B, C, D, E, F, G, H) := r in
  assign B D F H := (R1 A B C D E F G H 0x79CC4519 W00 (Z.lxor W00 W04)) in
  assign W00 := (EXPAND W00 W07 W13 W03 W10) in
  assign A C E G := (R1 D A B C H E F G 0xF3988A32 W01 (Z.lxor W01 W05)) in
  assign W01 := (EXPAND W01 W08 W14 W04 W11) in
  assign D B H F := (R1 C D A B G H E F 0xE7311465 W02 (Z.lxor W02 W06)) in
  assign W02 := (EXPAND W02 W09 W15 W05 W12) in
  assign C A G E := (R1 B C D A F G H E 0xCE6228CB W03 (Z.lxor W03 W07)) in
  assign W03 := (EXPAND W03 W10 W00 W06 W13) in
  assign B D F H := (R1 A B C D E F G H 0x9CC45197 W04 (Z.lxor W04 W08)) in
  assign W04 := (EXPAND W04 W11 W01 W07 W14) in
  assign A C E G := (R1 D A B C H E F G 0x3988A32F W05 (Z.lxor W05 W09)) in
  assign W05 := (EXPAND W05 W12 W02 W08 W15) in
  assign D B H F := (R1 C D A B G H E F 0x7311465E W06 (Z.lxor W06 W10)) in
  assign W06 := (EXPAND W06 W13 W03 W09 W00) in
  assign C A G E := (R1 B C D A F G H E 0xE6228CBC W07 (Z.lxor W07 W11)) in
  assign W07 := (EXPAND W07 W14 W04 W10 W01) in
  assign B D F H := (R1 A B C D E F G H 0xCC451979 W08 (Z.lxor W08 W12)) in
  assign W08 := (EXPAND W08 W15 W05 W11 W02) in
  assign A C E G := (R1 D A B C H E F G 0x988A32F3 W09 (Z.lxor W09 W13)) in
  assign W09 := (EXPAND W09 W00 W06 W12 W03) in
  assign D B H F := (R1 C D A B G H E F 0x311465E7 W10 (Z.lxor W10 W14)) in
  assign W10 := (EXPAND W10 W01 W07 W13 W04) in
  assign C A G E := (R1 B C D A F G H E 0x6228CBCE W11 (Z.lxor W11 W15)) in
  assign W11 := (EXPAND W11 W02 W08 W14 W05) in
  assign B D F H := (R1 A B C D E F G H 0xC451979C W12 (Z.lxor W12 W00)) in
  assign W12 := (EXPAND W12 W03 W09 W15 W06) in
  assign A C E G := (R1 D A B C H E F G 0x88A32F39 W13 (Z.lxor W13 W01)) in
  assign W13 := (EXPAND W13 W04 W10 W00 W07) in
  assign D B H F := (R1 C D A B G H E F 0x11465E73 W14 (Z.lxor W14 W02)) in
  assign W14 := (EXPAND W14 W05 W11 W01 W08) in
  assign C A G E := (R1 B C D A F G H E 0x228CBCE6 W15 (Z.lxor W15 W03)) in
  assign W15 := (EXPAND W15 W06 W12 W02 W09) in
  assign B D F H := (R2 A B C D E F G H 0x9D8A7A87 W00 (Z.lxor W00 W04)) in
  assign W00 := (EXPAND W00 W07 W13 W03 W10) in
  assign A C E G := (R2 D A B C H E F G 0x3B14F50F W01 (Z.lxor W01 W05)) in
  assign W01 := (EXPAND W01 W08 W14 W04 W11) in
  assign D B H F := (R2 C D A B G H E F 0x7629EA1E W02 (Z.lxor W02 W06)) in
  assign W02 := (EXPAND W02 W09 W15 W05 W12) in
  assign C A G E := (R2 B C D A F G H E 0xEC53D43C W03 (Z.lxor W03 W07)) in
  assign W03 := (EXPAND W03 W10 W00 W06 W13) in
  assign B D F H := (R2 A B C D E F G H 0xD8A7A879 W04 (Z.lxor W04 W08)) in
  assign W04 := (EXPAND W04 W11 W01 W07 W14) in
  assign A C E G := (R2 D A B C H E F G 0xB14F50F3 W05 (Z.lxor W05 W09)) in
  assign W05 := (EXPAND W05 W12 W02 W08 W15) in
  assign D B H F := (R2 C D A B G H E F 0x629EA1E7 W06 (Z.lxor W06 W10)) in
  assign W06 := (EXPAND W06 W13 W03 W09 W00) in
  assign C A G E := (R2 B C D A F G H E 0xC53D43CE W07 (Z.lxor W07 W11)) in
  assign W07 := (EXPAND W07 W14 W04 W10 W01) in
  assign B D F H := (R2 A B C D E F G H 0x8A7A879D W08 (Z.lxor W08 W12)) in
  assign W08 := (EXPAND W08 W15 W05 W11 W02) in
  assign A C E G := (R2 D A B C H E F G 0x14F50F3B W09 (Z.lxor W09 W13)) in
  assign W09 := (EXPAND W09 W00 W06 W12 W03) in
  assign D B H F := (R2 C D A B G H E F 0x29EA1E76 W10 (Z.lxor W10 W14)) in
  assign W10 := (EXPAND W10 W01 W07 W13 W04) in
  assign C A G E := (R2 B C D A F G H E 0x53D43CEC W11 (Z.lxor W11 W15)) in
  assign W11 := (EXPAND W11 W02 W08 W14 W05) in
  assign B D F H := (R2 A B C D E F G H 0xA7A879D8 W12 (Z.lxor W12 W00)) in
  assign W12 := (EXPAND W12 W03 W09 W15 W06) in
  assign A C E G := (R2 D A B C H E F G 0x4F50F3B1 W13 (Z.lxor W13 W01)) in
  assign W13 := (EXPAND W13 W04 W10 W00 W07) in
  assign D B H F := (R2 C D A B G H E F 0x9EA1E762 W14 (Z.lxor W14 W02)) in
  assign W14 := (EXPAND W14 W05 W11 W01 W08) in
  assign C A G E := (R2 B C D A F G H E 0x3D43CEC5 W15 (Z.lxor W15 W03)) in
  assign W15 := (EXPAND W15 W06 W12 W02 W09) in
  assign B D F H := (R2 A B C D E F G H 0x7A879D8A W00 (Z.lxor W00 W04)) in
  assign W00 := (EXPAND W00 W07 W13 W03 W10) in
  assign A C E G := (R2 D A B C H E F G 0xF50F3B14 W01 (Z.lxor W01 W05)) in
  assign W01 := (EXPAND W01 W08 W14 W04 W11) in
  assign D B H F := (R2 C D A B G H E F 0xEA1E7629 W02 (Z.lxor W02 W06)) in
  assign W02 := (EXPAND W02 W09 W15 W05 W12) in
  assign C A G E := (R2 B C D A F G H E 0xD43CEC53 W03 (Z.lxor W03 W07)) in
  assign W03 := (EXPAND W03 W10 W00 W06 W13) in
  assign B D F H := (R2 A B C D E F G H 0xA879D8A7 W04 (Z.lxor W04 W08)) in
  assign W04 := (EXPAND W04 W11 W01 W07 W14) in
  assign A C E G := (R2 D A B C H E F G 0x50F3B14F W05 (Z.lxor W05 W09)) in
  assign W05 := (EXPAND W05 W12 W02 W08 W15) in
  assign D B H F := (R2 C D A B G H E F 0xA1E7629E W06 (Z.lxor W06 W10)) in
  assign W06 := (EXPAND W06 W13 W03 W09 W00) in
  assign C A G E := (R2 B C D A F G H E 0x43CEC53D W07 (Z.lxor W07 W11)) in
  assign W07 := (EXPAND W07 W14 W04 W10 W01) in
  assign B D F H := (R2 A B C D E F G H 0x879D8A7A W08 (Z.lxor W08 W12)) in
  assign W08 := (EXPAND W08 W15 W05 W11 W02) in
  assign A C E G := (R2 D A B C H E F G 0x0F3B14F5 W09 (Z.lxor W09 W13)) in
  assign W09 := (EXPAND W09 W00 W06 W12 W03) in
  assign D B H F := (R2 C D A B G H E F 0x1E7629EA W10 (Z.lxor W10 W14)) in
  assign W10 := (EXPAND W10 W01 W07 W13 W04) in
  assign C A G E := (R2 B C D A F G H E 0x3CEC53D4 W11 (Z.lxor W11 W15)) in
  assign W11 := (EXPAND W11 W02 W08 W14 W05) in
  assign B D F H := (R2 A B C D E F G H 0x79D8A7A8 W12 (Z.lxor W12 W00)) in
  assign W12 := (EXPAND W12 W03 W09 W15 W06) in
  assign A C E G := (R2 D A B C H E F G 0xF3B14F50 W13 (Z.lxor W13 W01)) in
  assign W13 := (EXPAND W13 W04 W10 W00 W07) in
  assign D B H F := (R2 C D A B G H E F 0xE7629EA1 W14 (Z.lxor W14 W02)) in
  assign W14 := (EXPAND W14 W05 W11 W01 W08) in
  assign C A G E := (R2 B C D A F G H E 0xCEC53D43 W15 (Z.lxor W15 W03)) in
  assign W15 := (EXPAND W15 W06 W12 W02 W09) in
  assign B D F H := (R2 A B C D E F G H 0x9D8A7A87 W00 (Z.lxor W00 W04)) in
  assign W00 := (EXPAND W00 W07 W13 W03 W10) in
  assign A C E G := (R2 D A B C H E F G 0x3B14F50F W01 (Z.lxor W01 W05)) in
  assign W01 := (EXPAND W01 W08 W14 W04 W11) in
  assign D B H F := (R2 C D A B G H E F 0x7629EA1E W02 (Z.lxor W02 W06)) in
  assign W02 := (EXPAND W02 W09 W15 W05 W12) in
  assign C A G E := (R2 B C D A F G H E 0xEC53D43C W03 (Z.lxor W03 W07)) in
  assign W03 := (EXPAND W03 W10 W00 W06 W13) in
  assign B D F H := (R2 A B C D E F G H 0xD8A7A879 W04 (Z.lxor W04 W08)) in
  assign A C E G := (R2 D A B C H E F G 0xB14F50F3 W05 (Z.lxor W05 W09)) in
  assign D B H F := (R2 C D A B G H E F 0x629EA1E7 W06 (Z.lxor W06 W10)) in
  assign C A G E := (R2 B C D A F G H E 0xC53D43CE W07 (Z.lxor W07 W11)) in
  assign B D F H := (R2 A B C D E F G H 0x8A7A879D W08 (Z.lxor W08 W12)) in
  assign A C E G := (R2 D A B C H E F G 0x14F50F3B W09 (Z.lxor W09 W13)) in
  assign D B H F := (R2 C D A B G H E F 0x29EA1E76 W10 (Z.lxor W10 W14)) in
  assign C A G E := (R2 B C D A F G H E 0x53D43CEC W11 (Z.lxor W11 W15)) in
  assign B D F H := (R2 A B C D E F G H 0xA7A879D8 W12 (Z.lxor W12 W00)) in
  assign A C E G := (R2 D A B C H E F G 0x4F50F3B1 W13 (Z.lxor W13 W01)) in
  assign D B H F := (R2 C D A B G H E F 0x9EA1E762 W14 (Z.lxor W14 W02)) in
  assign C A G E := (R2 B C D A F G H E 0x3D43CEC5 W15 (Z.lxor W15 W03)) in
  (A, B, C, D, E, F, G, H).

(** [HOST_c2l] at word [i] of the data, assigned to an [unsigned int]. *)
Definition HOST_c2l (data : list Z) (i : nat) : Z :=
  u32 (word_of (get data (4 * i)) (get data (4 * i + 1)) (get data (4 * i + 2))
         (get data (4 * i + 3))).

Definition xor_regs (r r' : regs) : regs :=
  let '(A, B, C, D, E, F, G, H) := r in
  let '(A', B', C', D', E', F', G', H') := r' in
  (Z.lxor A A', Z.lxor B B', Z.lxor C C', Z.lxor D D',
   Z.lxor E E', Z.lxor F F', Z.lxor G G', Z.lxor H H').

(** One pass of the loop of [ossl_sm3_block_data_order]. *)
Definition sm3_block (ctx : regs) (data : list Z) : regs :=
  xor_regs ctx
    (sm3_rounds ctx
       (HOST_c2l data 0) (HOST_c2l data 1) (HOST_c2l data 2) (HOST_c2l data 3)
       (HOST_c2l data 4) (HOST_c2l data 5) (HOST_c2l data 6) (HOST_c2l data 7)
       (HOST_c2l data 8) (HOST_c2l data 9) (HOST_c2l data 10) (HOST_c2l data 11)
       (HOST_c2l data 12) (HOST_c2l data 13) (HOST_c2l data 14) (HOST_c2l data 15)).

Definition SM3_CBLOCK : nat := 64.

Fixpoint ossl_sm3_block_data_order (ctx : regs) (data : list Z) (num : nat) : regs :=
  match num with
  | O => ctx
  | S num => ossl_sm3_block_data_order (sm3_block ctx data) (drop SM3_CBLOCK data) num
  end.

(** ** The digest *)

Record SM3_CTX := mk_sm3_ctx {
  sm3_h : regs;
  Nl : Z;
  Nh : Z;
  sm3_data : list Z;   (** the 64 bytes of [data] *)
  sm3_num : nat }.

Definition SM3_Init : SM3_CTX :=
  mk_sm3_ctx (0x7380166f, 0x4914b2b9, 0x172442d7, 0xda8a0600,
              0xa96f30bc, 0x163138aa, 0xe38dee4d, 0xb0fb0e4e) 0 0 (repeat 0 SM3_CBLOCK) 0.

(** The whole blocks of [data], then its tail. *)
Definition sm3_update_tail (c : SM3_CTX) (data : list Z) : SM3_CTX :=
  let n := (length data / SM3_CBLOCK)%nat in
  let h := if (0 <? n)%nat then ossl_sm3_block_data_order (sm3_h c) data n else sm3_h c in
  let data := drop (n * SM3_CBLOCK) data in
  if (length data =? 0)%nat then mk_sm3_ctx h (Nl c) (Nh c) (sm3_data c) (sm3_num c)
  else mk_sm3_ctx h (Nl c) (Nh c) (copy_at 0 data (sm3_data c)) (length data).

Definition SM3_Update (c : SM3_CTX) (data : list Z) : SM3_CTX :=
  let len := Z.of_nat (length data) in
  if len =? 0 then c
  else
    let l := Z.land (u32 (Nl c + u32 (Z.shiftl (u32 len) 3))) 0xffffffff in
    let nh := if l <? Nl c then u32 (Nh c + 1) else Nh c in
    let nh := u32 (nh + u32 (Z.shiftr len 29)) in
    let n := sm3_num c in
    if (n =? 0)%nat then sm3_update_tail (mk_sm3_ctx (sm3_h c) l nh (sm3_data c) n) data
    else if (SM3_CBLOCK <=? length data)%nat || (SM3_CBLOCK <=? length data + n)%nat then
      let p := copy_at n (take (SM3_CBLOCK - n) data) (sm3_data c) in
      let h := ossl_sm3_block_data_order (sm3_h c) p 1 in
      sm3_update_tail (mk_sm3_ctx h l nh (repeat 0 SM3_CBLOCK) 0)
        (drop (SM3_CBLOCK - n) data)
    else mk_sm3_ctx (sm3_h c) l nh (copy_at n data (sm3_data c)) (n + length data).

(** [HASH_TRANSFORM] *)
Definition SM3_Transform (c : SM3_CTX) (data : list Z) : SM3_CTX :=
  mk_sm3_ctx (ossl_sm3_block_data_order (sm3_h c) data 1) (Nl c) (Nh c) (sm3_data c) (sm3_num c).

(** [HOST_l2c] *)
Definition HOST_l2c (l : Z) : list Z :=
  [u8 (Z.land (Z.shiftr l 24) 0xff); u8 (Z.land (Z.shiftr l 16) 0xff);
   u8 (Z.land (Z.shiftr l 8) 0xff); u8 (Z.land l 0xff)].

Definition HASH_MAKE_STRING (r : regs) : list Z :=
  let '(A, B, C, D, E, F, G, H) := r in
  HOST_l2c A ++ HOST_l2c B ++ HOST_l2c C ++ HOST_l2c D
  ++ HOST_l2c E ++ HOST_l2c F ++ HOST_l2c G ++ HOST_l2c H.

(** The digest and the context left behind, its data cleansed. *)
Definition SM3_Final (c : SM3_CTX) : list Z * SM3_CTX :=
  let p := <[sm3_num c := 0x80]> (sm3_data c) in
  let n := S (sm3_num c) in
  let '(p, n, h) :=
    if (SM3_CBLOCK - 8 <? n)%nat then
      let p := copy_at n (repeat 0 (SM3_CBLOCK - n)) p in
      (p, 0%nat, ossl_sm3_block_data_order (sm3_h c) p 1)
    else (p, n, sm3_h c) in
  let p := copy_at n (repeat 0 (SM3_CBLOCK - 8 - n)) p in
  let p := copy_at (SM3_CBLOCK - 8) (HOST_l2c (Nh c) ++ HOST_l2c (Nl c)) p in
  let h := ossl_sm3_block_data_order h p 1 in
  (HASH_MAKE_STRING h, mk_sm3_ctx h (Nl c) (Nh c) (repeat 0 SM3_CBLOCK) 0).
