(* ===== verification/Sm3Spec.v ===== *)
(** * SM3 against the standard

    GB/T 32905 in its own terms: message expansion to 68 words, 64 rounds of
    the compression function, padding and iteration.  The unrolled block
    function is the compression function, and the digest interface computes
    the hash of the concatenated input however it is cut. *)

From Stdlib Require Import Btauto.
From S2P Require Import Prelude Buffers Sm3.

(** ** The standard *)

(** Rotation to the left, as arithmetic. *)
Definition rol (x n : Z) : Z :=
  let x := x mod 2 ^ 32 in (x * 2 ^ n) mod 2 ^ 32 + x / 2 ^ (32 - n).

Definition tj (j : nat) : Z :=
  rol (if (j <? 16)%nat then 0x79cc4519 else 0x7a879d8a) (Z.of_nat j mod 32).
Definition ff (j : nat) (x y z : Z) : Z :=
  if (j <? 16)%nat then Z.lxor (Z.lxor x y) z
  else Z.lor (Z.lor (Z.land x y) (Z.land x z)) (Z.land y z).
Definition gg (j : nat) (x y z : Z) : Z :=
  if (j <? 16)%nat then Z.lxor (Z.lxor x y) z
  else Z.lor (Z.land x y) (Z.land (Z.lnot x) z).
Definition p0 (x : Z) : Z := Z.lxor (Z.lxor x (rol x 9)) (rol x 17).
Definition p1 (x : Z) : Z := Z.lxor (Z.lxor x (rol x 15)) (rol x 23).

(** The word that follows [w]. *)
Definition next_word (w : list Z) (j : nat) : Z :=
  Z.lxor (Z.lxor (p1 (Z.lxor (Z.lxor (get w (j - 16)) (get w (j - 9))) (rol (get w (j - 3)) 15)))
                 (rol (get w (j - 13)) 7)) (get w (j - 6)).
Fixpoint grow (n : nat) (w : list Z) : list Z :=
  match n with O => w | S n => grow n (w ++ [next_word w (length w)]) end.

Definition sm3_step (j : nat) (wj wj' : Z) (r : regs) : regs :=
  let '(A, B, C, D, E, F, G, H) := r in
  let SS1 := rol ((rol A 12 + E + tj j) mod 2 ^ 32) 7 in
  let SS2 := Z.lxor SS1 (rol A 12) in
  let TT1 := (ff j A B C + D + SS2 + wj') mod 2 ^ 32 in
  let TT2 := (gg j E F G + H + SS1 + wj) mod 2 ^ 32 in
  (TT1, A, rol B 9, C, p0 TT2, E, rol F 19, G).

(** The words of a block, the compression function and the iteration. *)
Definition block_words (b : list Z) : list Z := map (HOST_c2l b) (seq 0 16).
Definition sm3_cf (V : regs) (b : list Z) : regs :=
  let W := grow 52 (block_words b) in
  xor_regs V
    (foldl (fun r j => sm3_step j (get W j) (Z.lxor (get W j) (get W (j + 4))) r) V (seq 0 64)).

Fixpoint sm3_iterate (n : nat) (V : regs) (m : list Z) : regs :=
  match n with O => V | S n => sm3_iterate n (sm3_cf V (take 64 m)) (drop 64 m) end.

(** Padding: a bit 1, zeros, and the length in bits on 64 bits. *)
Definition be64 (x : Z) : list Z := store_u32_be (x / 2 ^ 32) ++ store_u32_be x.
Definition sm3_pad (m : list Z) : list Z :=
  m ++ [0x80] ++ repeat 0 ((119 - length m mod 64) mod 64)
    ++ be64 ((8 * Z.of_nat (length m)) mod 2 ^ 64).

Definition sm3_iv : regs :=
  (0x7380166f, 0x4914b2b9, 0x172442d7, 0xda8a0600, 0xa96f30bc, 0x163138aa, 0xe38dee4d, 0xb0fb0e4e).
Definition regs_bytes (r : regs) : list Z :=
  let '(A, B, C, D, E, F, G, H) := r in
  store_u32_be A ++ store_u32_be B ++ store_u32_be C ++ store_u32_be D
  ++ store_u32_be E ++ store_u32_be F ++ store_u32_be G ++ store_u32_be H.
Definition sm3_hash (m : list Z) : list Z :=
  let p := sm3_pad m in regs_bytes (sm3_iterate (length p / 64) sm3_iv p).

(** ** The macros *)

Lemma ROTATE_rol a n : 0 < n < 32 -> ROTATE a n = rol a n.
Proof.
  intros Hn. unfold ROTATE, rol. change 0xffffffff with (Z.ones 32).
  rewrite Z.land_ones by easy. pose proof (Z.mod_pos_bound a (2 ^ 32) ltac:(easy)) as Ha.
  replace (u32 (Z.shiftl a n)) with (Z.shiftl ((a mod 2 ^ 32) mod 2 ^ (32 - n)) n).
  - rewrite Z.shiftr_div_pow2, Z.lor_comm by lia.
    assert (Hp : 2 ^ 32 = 2 ^ n * 2 ^ (32 - n)) by (rewrite <- Z.pow_add_r by lia; f_equal; lia).
    assert (0 < 2 ^ n) by (apply Z.pow_pos_nonneg; lia).
    assert (0 < 2 ^ (32 - n)) by (apply Z.pow_pos_nonneg; lia).
    rewrite lor_shiftl_add by first
      [ lia | split; [apply Z.div_pos; lia | apply Z.div_lt_upper_bound; nia] ].
    set (x := a mod 2 ^ 32) in *. rewrite (Z.mul_comm x (2 ^ n)), Hp, Z.mul_mod_distr_l by lia. lia.
  - unfold u32. apply Z.bits_inj'. intros i Hi. rewrite Z.shiftl_spec by easy.
    destruct (Z.lt_ge_cases i 32).
    + rewrite (Z.mod_pow2_bits_low _ 32), Z.shiftl_spec by easy.
      destruct (Z.lt_ge_cases i n); [now rewrite !Z.testbit_neg_r by lia |].
      now rewrite !Z.mod_pow2_bits_low by lia.
    + rewrite (Z.mod_pow2_bits_high _ 32) by lia. apply Z.mod_pow2_bits_high. lia.
Qed.

Lemma P0_spec x : P0 x = p0 x.
Proof. unfold P0, p0. now rewrite !ROTATE_rol. Qed.
Lemma P1_spec x : P1 x = p1 x.
Proof. unfold P1, p1. now rewrite !ROTATE_rol. Qed.

Lemma FF1_spec x y z :
  FF1 x y z = Z.lor (Z.lor (Z.land x y) (Z.land x z)) (Z.land y z).
Proof.
  unfold FF1. apply Z.bits_inj'. intros i Hi.
  rewrite !Z.lor_spec, !Z.land_spec, !Z.lor_spec. btauto.
Qed.

Lemma GG1_spec x y z : GG1 x y z = Z.lor (Z.land x y) (Z.land (Z.lnot x) z).
Proof.
  unfold GG1. apply Z.bits_inj'. intros i Hi.
  rewrite Z.lxor_spec, Z.lor_spec, !Z.land_spec, Z.lxor_spec, Z.lnot_spec by easy. btauto.
Qed.

(** ** The unrolled rounds *)

(** The rounds of the standard on a window of 16 words. *)
Fixpoint sm3_loop (n j : nat) (w : list Z) (r : regs) : regs :=
  match n with
  | O => r
  | S n =>
      sm3_loop n (S j)
        (drop 1 w ++ [EXPAND (get w 0) (get w 7) (get w 13) (get w 3) (get w 10)])
        (sm3_step j (get w 0) (Z.lxor (get w 0) (get w 4)) r)
  end.

Lemma RND_step {R} FF GG j t A B C D E F G H w w' (k : Z -> Z -> Z -> Z -> R) (K : regs -> R) :
  tj j = t -> (forall x y z, FF x y z = ff j x y z) -> (forall x y z, GG x y z = gg j x y z) ->
  (forall b d f h, k b d f h = K (d, A, b, C, h, E, f, G)) ->
  RND FF GG A B C D E F G H t w w' k = K (sm3_step j w w' (A, B, C, D, E, F, G, H)).
Proof.
  intros <- HF HG Hk. unfold RND, sm3_step, u32. now rewrite Hk, HF, HG, P0_spec, !ROTATE_rol.
Qed.

(** One round of the code, with or without the word it prepares. *)
Lemma round_expand FF GG n j t w0 w1 w2 w3 w4 w5 w6 w7 w8 w9 w10 w11 w12 w13 w14 w15
    A B C D E F G H (k : Z -> Z -> Z -> Z -> Z -> regs) :
  tj j = t -> (forall x y z, FF x y z = ff j x y z) -> (forall x y z, GG x y z = gg j x y z) ->
  (forall b d f h w,
     k b d f h w
     = sm3_loop n (S j) [w1; w2; w3; w4; w5; w6; w7; w8; w9; w10; w11; w12; w13; w14; w15; w]
         (d, A, b, C, h, E, f, G)) ->
  RND FF GG A B C D E F G H t w0 (Z.lxor w0 w4)
    (fun b d f h => assign w := (EXPAND w0 w7 w13 w3 w10) in k b d f h w)
  = sm3_loop (S n) j [w0; w1; w2; w3; w4; w5; w6; w7; w8; w9; w10; w11; w12; w13; w14; w15]
      (A, B, C, D, E, F, G, H).
Proof.
  intros Ht HF HG Hk. cbn [sm3_loop].
  apply (RND_step _ _ _ _ _ _ _ _ _ _ _ _ _ _ _
           (sm3_loop n (S j) (drop 1 _ ++ [EXPAND w0 w7 w13 w3 w10])) Ht HF HG).
  intros. apply Hk.
Qed.

Lemma round_last FF GG n j t w0 w1 w2 w3 w4 w5 w6 w7 w8 w9 w10 w11 w12 w13 w14 w15
    A B C D E F G H (k : Z -> Z -> Z -> Z -> regs) :
  tj j = t -> (forall x y z, FF x y z = ff j x y z) -> (forall x y z, GG x y z = gg j x y z) ->
  (forall b d f h w,
     k b d f h
     = sm3_loop n (S j) [w1; w2; w3; w4; w5; w6; w7; w8; w9; w10; w11; w12; w13; w14; w15; w]
         (d, A, b, C, h, E, f, G)) ->
  RND FF GG A B C D E F G H t w0 (Z.lxor w0 w4) k
  = sm3_loop (S n) j [w0; w1; w2; w3; w4; w5; w6; w7; w8; w9; w10; w11; w12; w13; w14; w15]
      (A, B, C, D, E, F, G, H).
Proof.
  intros Ht HF HG Hk.
  apply (round_expand FF GG n j t w0 w1 w2 w3 w4 w5 w6 w7 w8 w9 w10 w11 w12 w13 w14 w15
           A B C D E F G H (fun b d f h _ => k b d f h)); auto.
Qed.

(** Follow the two computations round by round. *)
Ltac round_step :=
  lazymatch goal with
  | |- RND _ _ _ _ _ _ _ _ _ _ _ _ _ (fun _ _ _ _ => assignment _ _) = _ => apply round_expand
  | _ => apply round_last
  end;
  [ reflexivity
  | intros; lazymatch goal with |- FF0 _ _ _ = _ => reflexivity | _ => apply FF1_spec end
  | intros; lazymatch goal with |- GG0 _ _ _ = _ => reflexivity | _ => apply GG1_spec end
  | intros ? ? ? ? ? ].

Lemma sm3_rounds_loop r w0 w1 w2 w3 w4 w5 w6 w7 w8 w9 w10 w11 w12 w13 w14 w15 :
  sm3_rounds r w0 w1 w2 w3 w4 w5 w6 w7 w8 w9 w10 w11 w12 w13 w14 w15
  = sm3_loop 64 0 [w0; w1; w2; w3; w4; w5; w6; w7; w8; w9; w10; w11; w12; w13; w14; w15] r.
Proof.
  destruct r as [[[[[[[A B] C] D] E] F] G] H]. unfold sm3_rounds.
  do 64 round_step. reflexivity.
Qed.

(** ** The window and the expanded message *)

Lemma EXPAND_next w j :
  EXPAND (get w (j - 16)) (get w (j - 9)) (get w (j - 3)) (get w (j - 13)) (get w (j - 6))
  = next_word w j.
Proof. unfold EXPAND, next_word. now rewrite P1_spec, !ROTATE_rol. Qed.

Lemma grow_length n w : length (grow n w) = (length w + n)%nat.
Proof.
  revert w. induction n as [| n IH]; intros w; cbn [grow]; [lia |].
  rewrite IH, length_app. cbn. lia.
Qed.

Lemma grow_old n w i : (i < length w)%nat -> get (grow n w) i = get w i.
Proof.
  revert w. induction n as [| n IH]; intros w Hi; [reflexivity |].
  cbn [grow]. rewrite IH by (rewrite length_app; cbn; lia). now apply get_app_l.
Qed.

Lemma grow_add n m w : grow (n + m) w = grow m (grow n w).
Proof. revert w. induction n as [| n IH]; intros w; [reflexivity |]. apply IH. Qed.

Lemma next_word_ext w w' j :
  (16 <= j)%nat -> (forall i, (i < j)%nat -> get w i = get w' i) -> next_word w j = next_word w' j.
Proof. intros Hj H. unfold next_word. now rewrite !H by lia. Qed.

(** The recurrence holds throughout the expanded message. *)
Lemma grow_next n w j :
  (16 <= length w)%nat -> (length w <= j < length w + n)%nat ->
  get (grow n w) j = next_word (grow n w) j.
Proof.
  intros Hw Hj. replace n with ((j - length w) + S (n - (j - length w) - 1))%nat by lia.
  rewrite grow_add. set (v := grow (j - length w) w).
  assert (Hv : length v = j) by (unfold v; rewrite grow_length; lia).
  cbn [grow]. rewrite grow_old by (rewrite length_app; cbn; lia).
  rewrite <- Hv at 1. rewrite get_middle, Hv. apply next_word_ext; [lia |].
  intros i Hi. rewrite grow_old by (rewrite length_app; lia). symmetry. apply get_app_l. lia.
Qed.

Definition win (w : list Z) (j : nat) : list Z := map (get w) (seq j 16).

Lemma get_win w j i : (i < 16)%nat -> get (win w j) i = get w (j + i).
Proof.
  intros Hi. unfold win, get at 1. rewrite nth_indep with (d' := get w 0)
    by now rewrite length_map, length_seq.
  now rewrite map_nth, seq_nth.
Qed.

Lemma win_next w j :
  get w (j + 16) = next_word w (j + 16) ->
  drop 1 (win w j)
  ++ [EXPAND (get (win w j) 0) (get (win w j) 7) (get (win w j) 13) (get (win w j) 3)
        (get (win w j) 10)]
  = win w (S j).
Proof.
  intros H. rewrite !get_win by lia. unfold win at 2. rewrite (seq_S 15 (S j)), map_app. cbn [map].
  f_equal. replace (S j + 15)%nat with (j + 16)%nat by lia. rewrite H, <- EXPAND_next.
  now replace (j + 16 - 16)%nat with (j + 0)%nat by lia; replace (j + 16 - 9)%nat with (j + 7)%nat by lia;
    replace (j + 16 - 3)%nat with (j + 13)%nat by lia; replace (j + 16 - 13)%nat with (j + 3)%nat by lia;
    replace (j + 16 - 6)%nat with (j + 10)%nat by lia.
Qed.

Lemma loop_spec w n : forall j r,
  (forall i, (j + 16 <= i < j + n + 16)%nat -> get w i = next_word w i) ->
  sm3_loop n j (win w j) r
  = foldl (fun r j => sm3_step j (get w j) (Z.lxor (get w j) (get w (j + 4))) r) r (seq j n).
Proof.
  induction n as [| n IH]; intros j r H; [reflexivity |].
  cbn [sm3_loop seq foldl]. rewrite win_next by (apply H; lia). rewrite IH by (intros; apply H; lia).
  now rewrite !get_win, Nat.add_0_r by lia.
Qed.

Lemma HOST_c2l_take b i : (i < 16)%nat -> HOST_c2l (take 64 b) i = HOST_c2l b i.
Proof.
  intros Hi. assert (G : forall k, (k < 64)%nat -> get (take 64 b) k = get b k).
  { intros k Hk. unfold get. now rewrite !nth_lookup, lookup_take_lt. }
  unfold HOST_c2l. now rewrite !G by lia.
Qed.

Lemma sm3_block_spec V b : sm3_block V b = sm3_cf V (take 64 b).
Proof.
  unfold sm3_block, sm3_cf. f_equal. rewrite sm3_rounds_loop.
  replace (block_words (take 64 b)) with (block_words b)
    by (apply map_ext_in; intros i Hi%in_seq; symmetry; apply HOST_c2l_take; lia).
  set (w := block_words b). set (W := grow 64 w).
  assert (Hw : length w = 16%nat) by reflexivity.
  assert (HW : win W 0 = w).
  { unfold win, W. transitivity (map (get w) (seq 0 16)); [| reflexivity].
    apply map_ext_in. intros i Hi%in_seq. apply grow_old. cbn. lia. }
  change [_; _; _; _; _; _; _; _; _; _; _; _; _; _; _; _] with w. rewrite <- HW at 1.
  rewrite loop_spec by (intros i Hi; apply grow_next; cbn; lia).
  assert (HG : forall i, (i < 68)%nat -> get W i = get (grow 52 w) i).
  { intros i Hi. unfold W. replace 64%nat with (52 + 12)%nat by reflexivity.
    rewrite (grow_add 52 12). apply grow_old. rewrite grow_length, Hw. lia. }
  clearbody W. apply foldl_ext_in. intros r j Hj%in_seq. rewrite !HG by lia. reflexivity.
Qed.

Lemma block_data_order_spec n : forall V m,
  ossl_sm3_block_data_order V m n = sm3_iterate n V m.
Proof.
  induction n as [| n IH]; intros V m; [reflexivity |]. cbn. now rewrite sm3_block_spec, IH.
Qed.

Lemma iterate_app n k V m m' :
  length m = (64 * n)%nat ->
  sm3_iterate (n + k) V (m ++ m') = sm3_iterate k (sm3_iterate n V m) m'.
Proof.
  revert V m. induction n as [| n IH]; intros V m Hm.
  - destruct m; [reflexivity | discriminate].
  - cbn [Nat.add sm3_iterate]. rewrite take_app_le, drop_app_le by lia.
    apply IH. rewrite length_drop. lia.
Qed.

Lemma iterate_take n V m m' :
  (64 * n <= length m)%nat -> sm3_iterate n V (m ++ m') = sm3_iterate n V m.
Proof.
  revert V m. induction n as [| n IH]; intros V m Hm; [reflexivity |].
  cbn [sm3_iterate]. rewrite take_app_le, drop_app_le by lia.
  apply IH. rewrite length_drop. lia.
Qed.

(** ** The digest interface *)

(** The context holds the message [m]: whole blocks in the registers, the rest
    in the buffer. *)
Definition holds (c : SM3_CTX) (m : list Z) : Prop :=
  exists q full tail,
    m = full ++ tail /\ length full = (64 * q)%nat /\ (length tail < 64)%nat
    /\ sm3_h c = sm3_iterate q sm3_iv full /\ sm3_num c = length tail
    /\ length (sm3_data c) = 64%nat /\ take (sm3_num c) (sm3_data c) = tail.

(** The bit count on two words. *)
Definition counts (c : SM3_CTX) (m : list Z) : Prop :=
  is_u32 (Nl c) /\ is_u32 (Nh c)
  /\ Nh c * 2 ^ 32 + Nl c = (8 * Z.of_nat (length m)) mod 2 ^ 64.

Lemma update_tail_holds c m data :
  holds c m -> sm3_num c = 0%nat -> holds (sm3_update_tail c data) (m ++ data).
Proof.
  intros (q & full & tail & -> & Hf & Ht & Hh & Hn & Hl & Hd) H0.
  rewrite H0 in Hn. destruct tail; [| discriminate]. clear Ht Hn Hd. rewrite app_nil_r.
  unfold sm3_update_tail. set (n := (length data / SM3_CBLOCK)%nat).
  assert (Hr : (n * SM3_CBLOCK <= length data < n * SM3_CBLOCK + 64)%nat).
  { unfold n, SM3_CBLOCK. pose proof (Nat.div_mod_eq (length data) 64).
    pose proof (Nat.mod_upper_bound (length data) 64 ltac:(easy)). lia. }
  set (h := if (0 <? n)%nat then _ else _).
  assert (HH : h = sm3_iterate (q + n) sm3_iv (full ++ take (n * SM3_CBLOCK) data)).
  { rewrite iterate_app by easy. rewrite <- Hh. unfold h.
    transitivity (sm3_iterate n (sm3_h c) data).
    - destruct n; [reflexivity | apply block_data_order_spec].
    - rewrite <- (take_drop (n * SM3_CBLOCK) data) at 1. apply iterate_take.
      rewrite length_take. unfold SM3_CBLOCK in *. lia. }
  set (rest := drop (n * SM3_CBLOCK) data).
  assert (HR : (length rest < 64)%nat) by (unfold rest; rewrite length_drop; lia).
  exists (q + n)%nat, (full ++ take (n * SM3_CBLOCK) data), rest.
  split; [unfold rest; now rewrite <- app_assoc, take_drop |].
  split; [rewrite length_app, length_take; unfold SM3_CBLOCK in *; lia |]. split; [exact HR |].
  clearbody rest. destruct (Nat.eqb_spec (length rest) 0) as [E | E]; cbn [sm3_h sm3_num sm3_data].
  - apply nil_length_inv in E. rewrite H0, E. split_and!; auto.
  - split_and!; [exact HH | reflexivity | now rewrite copy_at_length by lia |].
    exact (copy_at_take 0 rest (sm3_data c) ltac:(lia)).
Qed.

Lemma counts_update c m data :
  counts c m ->
  let len := Z.of_nat (length data) in
  let l := Z.land (u32 (Nl c + u32 (Z.shiftl (u32 len) 3))) 0xffffffff in
  let nh := if l <? Nl c then u32 (Nh c + 1) else Nh c in
  forall h d n, counts (mk_sm3_ctx h l (u32 (nh + u32 (Z.shiftr len 29))) d n) (m ++ data).
Proof.
  intros (Hl & Hh & HN) len l nh h d n. unfold counts. cbn [Nl Nh].
  assert (El : l = (Nl c + 8 * len) mod 2 ^ 32).
  { unfold l, u32. change 0xffffffff with (Z.ones 32). rewrite Z.land_ones by easy.
    rewrite Z.shiftl_mul_pow2 by easy. rewrite Zmod_mod, Zplus_mod_idemp_r.
    replace (8 * len) with (len * 2 ^ 3) by (pow2; lia).
    rewrite <- (Zplus_mod_idemp_r (len mod 2 ^ 32 * 2 ^ 3)), <- (Zplus_mod_idemp_r (len * 2 ^ 3)).
    now rewrite Zmult_mod_idemp_l. }
  assert (En : u32 (nh + u32 (Z.shiftr len 29)) = (Nh c + (Nl c + 8 * len) / 2 ^ 32) mod 2 ^ 32).
  { unfold nh. rewrite Z.shiftr_div_pow2 by easy. rewrite El. clearbody len.
    unfold is_u32, u32 in *. destruct (Z.ltb_spec ((Nl c + 8 * len) mod 2 ^ 32) (Nl c));
      rewrite ?Zplus_mod_idemp_r, ?Zplus_mod_idemp_l; f_equal; zdm; pow2; lia. }
  rewrite En, length_app, Nat2Z.inj_add. fold len.
  split; [rewrite El; apply Z.mod_pos_bound; easy |].
  split; [apply Z.mod_pos_bound; easy |].
  rewrite Z.mul_add_distr_l, <- (Zplus_mod_idemp_l (8 * Z.of_nat (length m))), <- HN, El.
  clearbody len. clear -Hl Hh.
  unfold is_u32 in *. zdm; pow2; lia.
Qed.

Lemma update_holds c m data :
  holds c m -> counts c m -> holds (SM3_Update c data) (m ++ data).
Proof.
  intros H Hc. unfold SM3_Update. destruct (Z.eqb_spec (Z.of_nat (length data)) 0) as [E | E].
  { destruct data; [| discriminate]. now rewrite app_nil_r. }
  set (l := Z.land _ _). set (nh := u32 (_ + _)). clearbody l nh.
  destruct (Nat.eqb_spec (sm3_num c) 0) as [E0 | E0].
  { now apply update_tail_holds. }
  pose proof H as (q & full & tail & -> & Hf & Ht & Hh & Hn & Hl & Hd).
  unfold SM3_CBLOCK. destruct (_ || _) eqn:Eb.
  - set (n := sm3_num c) in *. set (d1 := take (64 - n) data). set (d2 := drop (64 - n) data).
    assert (L1 : length d1 = (64 - n)%nat).
    { unfold d1. rewrite length_take. apply orb_true_iff in Eb.
      rewrite !Nat.leb_le in Eb. lia. }
    replace ((full ++ tail) ++ data) with ((full ++ tail ++ d1) ++ d2)
      by (unfold d1, d2; rewrite <- !app_assoc, take_drop; reflexivity).
    apply update_tail_holds; [| reflexivity].
    exists (q + 1)%nat, (full ++ tail ++ d1), []. cbn [sm3_h sm3_num sm3_data].
    split; [now rewrite app_nil_r |]. split; [rewrite !length_app; lia |]. split; [cbn; lia |].
    split; [| split; [reflexivity | split; reflexivity]].
    rewrite iterate_app, <- Hh by easy. rewrite block_data_order_spec. f_equal.
    rewrite copy_at_end by lia. now rewrite Hd.
  - apply orb_false_iff in Eb as [_ Eb%Nat.leb_gt].
    exists q, full, (tail ++ data). cbn [sm3_h sm3_num sm3_data].
    rewrite <- app_assoc, length_app. split_and!; auto; try lia.
    + now rewrite copy_at_length by lia.
    + rewrite copy_at_take by lia. now rewrite Hd.
Qed.

Lemma update_counts c m data : counts c m -> counts (SM3_Update c data) (m ++ data).
Proof.
  intros Hc. pose proof (counts_update c m data Hc) as HU. cbv zeta in HU. unfold SM3_Update.
  destruct (Z.eqb_spec (Z.of_nat (length data)) 0) as [E | E].
  { destruct data; [| discriminate]. now rewrite app_nil_r. }
  assert (HT : forall h l nh d n x, counts (mk_sm3_ctx h l nh d n) (m ++ data) ->
                 counts (sm3_update_tail (mk_sm3_ctx h l nh d n) x) (m ++ data)).
  { intros h l nh d n x H. unfold sm3_update_tail. destruct (_ =? 0)%nat; exact H. }
  cbv zeta. destruct (sm3_num c =? 0)%nat; [apply HT, HU |].
  destruct (_ || _); [apply HT, HU | apply HU].
Qed.

Lemma HOST_l2c_spec x : HOST_l2c x = store_u32_be x.
Proof.
  unfold HOST_l2c, store_u32_be, u8. change 0xff with (Z.ones 8). rewrite !Z.land_ones by easy.
  now rewrite !Zmod_mod.
Qed.

Lemma HASH_MAKE_STRING_spec r : HASH_MAKE_STRING r = regs_bytes r.
Proof.
  destruct r as [[[[[[[A B] C] D] E] F] G] H]. unfold HASH_MAKE_STRING. now rewrite !HOST_l2c_spec.
Qed.

Lemma store_u32_mod x : store_u32_be (u32 x) = store_u32_be x.
Proof.
  assert (H : forall k, 0 <= k <= 24 -> u8 (Z.shiftr (u32 x) k) = u8 (Z.shiftr x k)).
  { intros k Hk. apply Z.bits_inj'. intros i Hi. rewrite !u8_testbit by easy.
    destruct (Z.ltb_spec i 8); [| reflexivity]. rewrite !Z.shiftr_spec, u32_testbit by lia.
    now destruct (Z.ltb_spec (i + k) 32); [| lia]. }
  pose proof (H 0 ltac:(lia)) as H0. rewrite !Z.shiftr_0_r in H0.
  unfold store_u32_be. now rewrite H0, !H by lia.
Qed.

Lemma counts_be64 c m :
  counts c m ->
  HOST_l2c (Nh c) ++ HOST_l2c (Nl c) = be64 ((8 * Z.of_nat (length m)) mod 2 ^ 64).
Proof.
  intros (Hl & Hh & <-). rewrite !HOST_l2c_spec. unfold be64, is_u32 in *. f_equal.
  - f_equal. zdm; pow2; lia.
  - rewrite <- (store_u32_mod (_ + _)). f_equal. unfold u32. zdm; pow2; lia.
Qed.

Lemma be64_length x : length (be64 x) = 8%nat.
Proof. reflexivity. Qed.

(** The buffer after the marker, and after the zeros and the bit count. *)
Lemma take_marker (d : list Z) n x :
  (n < length d)%nat -> take (S n) (<[n := x]> d) = take n d ++ [x].
Proof.
  intros H. rewrite (take_S_r _ n x) by now apply list_lookup_insert_eq.
  now rewrite take_insert_ge by lia.
Qed.

Lemma last_block n p len :
  length p = 64%nat -> (n <= 56)%nat -> length len = 8%nat ->
  copy_at 56 len (copy_at n (repeat 0 (56 - n)) p) = take n p ++ repeat 0 (56 - n) ++ len.
Proof.
  intros Hp Hn Hl. pose proof (repeat_length 0 (56 - n)) as HR.
  set (z := repeat 0 (56 - n)) in *. clearbody z. rewrite app_assoc.
  rewrite copy_at_end by (rewrite copy_at_length; lia). f_equal.
  rewrite <- (copy_at_take n z p) by lia. f_equal. lia.
Qed.

Lemma iterate_step q V full b rest k :
  length full = (64 * q)%nat -> length b = 64%nat ->
  sm3_iterate (q + S k) V (full ++ b ++ rest)
  = sm3_iterate k (sm3_iterate 1 (sm3_iterate q V full) b) rest.
Proof.
  intros Hf Hb. rewrite iterate_app by easy. exact (iterate_app 1 k _ b rest Hb).
Qed.

Lemma pad_zeros (full tail : list Z) q :
  length full = (64 * q)%nat -> (length tail < 64)%nat ->
  ((119 - length (full ++ tail) mod 64) mod 64
   = if (56 <? S (length tail))%nat then 63 - length tail + 56 else 56 - S (length tail))%nat.
Proof.
  intros Hf Ht. rewrite length_app, Hf.
  replace ((64 * q + length tail) mod 64)%nat with (length tail)
    by now rewrite nat_mod_cell.
  destruct (Nat.ltb_spec 56 (S (length tail))).
  - rewrite Nat.mod_small by lia. lia.
  - replace (119 - length tail)%nat with (64 * 1 + (55 - length tail))%nat by lia.
    rewrite nat_mod_cell by lia. lia.
Qed.

Lemma final_spec c m : holds c m -> counts c m -> (SM3_Final c).1 = sm3_hash m.
Proof.
  intros (q & full & tail & -> & Hf & Ht & Hh & Hn & Hl & Hd) Hc.
  pose proof (counts_be64 _ _ Hc) as HB. unfold SM3_Final, sm3_hash, sm3_pad.
  rewrite (pad_zeros full tail q Hf Ht). rewrite HB. clear HB Hc.
  set (len := be64 _). assert (HL : length len = 8%nat) by apply be64_length. clearbody len.
  rewrite Hn in *. set (p := <[length tail := 0x80]> (sm3_data c)).
  assert (Hp : length p = 64%nat) by (unfold p; now rewrite length_insert).
  assert (HT : take (S (length tail)) p = tail ++ [0x80])
    by (unfold p; rewrite take_marker by lia; now rewrite Hd).
  clearbody p. change (SM3_CBLOCK - 8)%nat with 56%nat. unfold SM3_CBLOCK.
  destruct (56 <? S (length tail))%nat eqn:Eb; [apply Nat.ltb_lt in Eb | apply Nat.ltb_ge in Eb];
    cbn [fst]; rewrite HASH_MAKE_STRING_spec, !block_data_order_spec; f_equal.
  - set (z1 := repeat 0 (64 - S (length tail))).
    assert (Hz : length z1 = (64 - S (length tail))%nat) by apply repeat_length.
    rewrite last_block by (rewrite ?copy_at_length; lia). rewrite (copy_at_end _ z1) by lia.
    rewrite HT, take_0, Hh. change (56 - 0)%nat with 56%nat. cbn [app].
    replace (63 - length tail + 56)%nat with ((64 - S (length tail)) + 56)%nat by lia.
    rewrite repeat_app. fold z1. clearbody z1.
    match goal with |- _ = sm3_iterate (?k / 64) _ ?m =>
      replace (k / 64)%nat with (q + 2)%nat;
      [replace m with (full ++ (tail ++ 0x80 :: z1) ++ (repeat 0 56 ++ len)) by lapp |] end.
    + rewrite iterate_step by (rewrite ?length_app; cbn [length]; lia). now rewrite <- app_assoc.
    + rewrite !length_app. cbn [length]. rewrite !length_app, repeat_length, Hf, Hz, HL.
      apply Nat.div_unique with 0%nat; lia.
  - rewrite last_block by lia. rewrite HT, Hh.
    match goal with |- _ = sm3_iterate (?k / 64) _ ?m =>
      replace (k / 64)%nat with (q + 1)%nat;
      [replace m with (full ++ (tail ++ [0x80] ++ repeat 0 (56 - S (length tail)) ++ len) ++ [])
         by (rewrite app_nil_r; lapp) |] end.
    + rewrite iterate_step by (rewrite ?length_app, ?repeat_length; cbn [length]; lia).
      now rewrite <- app_assoc.
    + rewrite !length_app. cbn [length]. rewrite ?length_app, repeat_length, Hf, HL.
      apply Nat.div_unique with 0%nat; lia.
Qed.

(** C25: The SM3 digest.  Whatever the pieces in which the input is given to
    [SM3_Update], empty ones and a total length beyond 2^61 bytes included,
    [SM3_Final] returns the hash of GB/T 32905 of the whole input: message
    expansion, the unrolled rounds, buffering across calls, the 64-bit length
    kept on two words and the padding agree with the standard. *)
Theorem sm3_digest_correct (pieces : list (list Z)) :
  (SM3_Final (foldl SM3_Update SM3_Init pieces)).1 = sm3_hash (concat pieces).
Proof.
  assert (H : forall l c m, holds c m -> counts c m ->
    holds (foldl SM3_Update c l) (m ++ concat l) /\ counts (foldl SM3_Update c l) (m ++ concat l)).
  { induction l as [| d l IH]; intros c m Hh Hc; cbn [foldl concat].
    - now rewrite app_nil_r.
    - rewrite app_assoc. apply IH; [now apply update_holds | now apply update_counts]. }
  destruct (H pieces SM3_Init []) as [Hh Hc].
  - exists 0%nat, [], []. split_and!; try reflexivity. cbn. lia.
  - repeat split; cbn; lia.
  - now apply final_spec.
Qed.

(** The example of the standard: the hash of [abc]. *)
Lemma sm3_abc :
  (SM3_Final (SM3_Update SM3_Init [0x61; 0x62; 0x63])).1
  = [0x66; 0xc7; 0xf0; 0xf4; 0x62; 0xee; 0xed; 0xd9; 0xd1; 0xf2; 0xd4; 0x6b; 0xdc; 0x10; 0xe4; 0xe2;
     0x41; 0x67; 0xc4; 0x87; 0x5c; 0xf2; 0xf7; 0xa2; 0x29; 0x7d; 0xa0; 0x2b; 0x8f; 0x4b; 0xa8; 0xe0].
Proof. vm_compute. reflexivity. Qed.
