(* ===== verification/HybridKem.v ===== *)
(** * Hybrid key encapsulation

    [crypto/sm2dh-mlkem768-hybrid/sm2dh_mlkem768_hybrid_kem.c]: an ephemeral
    Diffie-Hellman exchange on the SM2 curve next to Kyber-768, and
    [crypto/ecc-kyber-hybrid/ecc_kyber_hybrid_kem.c]: the key of a certificate
    next to Kyber-768.  Every call into the elliptic-curve library can fail, and
    so can the calls of Kyber; a call that fails may have written to its output
    buffer.  The library's objects are reached through references: a call that
    returns one takes it, a call that frees one gives it back, and what the code
    leaves in its output buffers and which references it still holds when it
    returns is part of the result. *)

From stdpp Require Import gmap.
From S2P Require Import Prelude Buffers KyberReduce KyberSymmetric KyberPoly KyberPolyvec KyberIndcpa KyberKem.

(** ** Sizes *)

Definition SM2_DH_SK_SIZE : nat := 32.
Definition SM2_DH_SS_SIZE : nat := 32.
Definition SM2_DH_PK_SIZE : nat := 65.
Definition MLKEM_768_SS_SIZE : nat := 32.
Definition MLKEM_768_PK_SIZE : nat := 1184.
Definition MLKEM_768_SK_SIZE : nat := 2400.
Definition MLKEM_768_CT_SIZE : nat := 1088.
Definition SM2_DH_MLKEM_768_HYBRID_SS_SIZE : nat := SM2_DH_SS_SIZE + MLKEM_768_SS_SIZE.
Definition SM2_DH_MLKEM_768_HYBRID_CT_SIZE : nat := SM2_DH_PK_SIZE + MLKEM_768_CT_SIZE.
Definition SM2_DH_MLKEM_768_HYBRID_SK_SIZE : nat := SM2_DH_SK_SIZE + MLKEM_768_SK_SIZE.
Definition SM2_DH_MLKEM_768_HYBRID_PK_SIZE : nat := SM2_DH_PK_SIZE + MLKEM_768_PK_SIZE.

Definition ECC_SK_SIZE : nat := 32.
Definition ECC_PK_SIZE : nat := 65.
Definition KYBER_768_SS_SIZE : nat := 32.
Definition KYBER_768_PK_SIZE : nat := 1184.
Definition KYBER_768_SK_SIZE : nat := 2400.
Definition KYBER_768_CT_SIZE : nat := 1088.
Definition SSL_MAX_MASTER_KEY_LENGTH : nat := 48.
Definition ECC_KYBER_HYBRID_SS_SIZE : nat := SSL_MAX_MASTER_KEY_LENGTH + KYBER_768_SS_SIZE.
Definition ECC_KYBER_HYBRID_CT_SIZE : nat := KYBER_768_CT_SIZE.
Definition ECC_KYBER_HYBRID_SK_SIZE : nat := ECC_SK_SIZE + KYBER_768_SK_SIZE.
Definition ECC_KYBER_HYBRID_PK_SIZE : nat := ECC_PK_SIZE + KYBER_768_PK_SIZE.

(** ** The elliptic-curve library *)

(** The calls that can fail; each function makes each of them at most once. *)
Inductive ec_call : Set :=
| EC_KEY_new_by_curve_name_ex | EC_KEY_generate_key | EC_KEY_get0_group
| EC_KEY_get0_private_key | EC_KEY_get0_public_key | EC_KEY_set_private_key
| EC_POINT_new | EC_POINT_point2oct | BN_bin2bn_call | ECDH_compute_key
| EVP_PKEY_get1_EC_KEY.

(** What the calls compute when they succeed. *)
Class Curve := {
  point : Type;
  public_of : Z -> point;              (** the public key of a private key *)
  point2oct : point -> list Z;         (** uncompressed encoding *)
  oct2point : list Z -> option point;  (** its parser *)
  ecdh : point -> Z -> list Z }.       (** the x coordinate of the product *)

Class CurveLaws {C : Curve} : Prop := {
  point2oct_length p : length (point2oct p) = SM2_DH_PK_SIZE;
  oct2point_point2oct k : oct2point (point2oct (public_of k)) = Some (public_of k);
  ecdh_length p k : length (ecdh p k) = SM2_DH_SS_SIZE;
  ecdh_comm a b : ecdh (public_of a) b = ecdh (public_of b) a }.

(** [BN_bn2binpad]: the big-endian bytes, or -1 when they do not fit. *)
Definition BN_bn2binpad (x : Z) (n : nat) : Z * list Z :=
  if x <? 256 ^ Z.of_nat n then (Z.of_nat n, be_bytes n x) else (-1, []).
Definition BN_bin2bn (b : list Z) : Z := foldl (fun x y => 256 * x + y) 0 b.

(** ** References to objects of the library *)

Inductive ec_obj : Set := Obj_EC_KEY | Obj_EC_POINT | Obj_BIGNUM.
#[export] Instance ec_obj_eq_dec : EqDecision ec_obj.
Proof. solve_decision. Defined.

(** The references a function has been given and has not released, by address,
    and the addresses it released without holding a reference of that kind
    there. *)
Record refs := mk_refs { live : gmap nat ec_obj; bad_frees : list nat }.
Definition no_refs : refs := mk_refs ∅ [].

(** A call that returns a new object or one more reference to an object: a null
    pointer when it fails, an unused address otherwise. *)
Definition obj_new (succeeds : bool) (o : ec_obj) (h : refs) : option nat * refs :=
  if succeeds
  then let a := fresh (dom (live h)) in (Some a, mk_refs (<[a := o]> (live h)) (bad_frees h))
  else (None, h).

(** Releasing a reference; a null pointer is ignored. *)
Definition obj_free (o : ec_obj) (p : option nat) (h : refs) : refs :=
  match p with
  | None => h
  | Some a => if decide (live h !! a = Some o) then mk_refs (delete a (live h)) (bad_frees h)
              else mk_refs (live h) (a :: bad_frees h)
  end.
Definition EC_KEY_free : option nat -> refs -> refs := obj_free Obj_EC_KEY.
Definition EC_POINT_free : option nat -> refs -> refs := obj_free Obj_EC_POINT.
Definition BN_free : option nat -> refs -> refs := obj_free Obj_BIGNUM.

(** Not a null pointer. *)
Definition is_Some_b (p : option nat) : bool := match p with Some _ => true | None => false end.

(** ** Results *)

(** The state in which a call returns: its value, the two output buffers
    ([None] is a null pointer) and the references it still holds. *)
Record call_result := mk_result {
  ret : Z;
  out1 : option (list Z);
  out2 : option (list Z);
  held : refs }.

(** [memset(p, 0, len)], and [OPENSSL_cleanse]. *)
Definition zeroed (b : list Z) : list Z := repeat 0 (length b).

(** ** Kyber-768 as the hybrids see it *)

(** Each call returns 0 or an error code, and in both cases may have written
    its output buffers; [None] while the sampler has not finished. *)
Class Kyber768 := {
  kyber768_keypair (fuel : nat) (coins : list Z) : option (Z * list Z * list Z);
  kyber768_enc (fuel : nat) (pk coins : list Z) : option (Z * list Z * list Z);
  kyber768_dec (fuel : nat) (ct sk : list Z) : option (Z * list Z) }.

(** The writes stay within the buffers. *)
Class Kyber768Laws (K : Kyber768) : Prop := {
  kyber768_enc_sizes fuel pk coins r ct ss : kyber768_enc fuel pk coins = Some (r, ct, ss) ->
    length ct = MLKEM_768_CT_SIZE /\ length ss = MLKEM_768_SS_SIZE;
  kyber768_dec_size fuel ct sk r ss : kyber768_dec fuel ct sk = Some (r, ss) ->
    length ss = MLKEM_768_SS_SIZE }.

(** The functions of [crypto/kyber/kyber_kem.c], which always return 0. *)
Section Ref.
Context {S : Symmetric}.
Definition pqcrystals_kyber768_ref_keypair (fuel : nat) (coins : list Z) :
  option (Z * list Z * list Z) :=
  '(pk, sk) ← crypto_kem_keypair_derand fuel coins; Some (0, pk, sk).
Definition pqcrystals_kyber768_ref_enc (fuel : nat) (pk coins : list Z) :
  option (Z * list Z * list Z) :=
  '(ct, ss) ← crypto_kem_enc_derand fuel pk coins; Some (0, ct, ss).
Definition pqcrystals_kyber768_ref_dec (fuel : nat) (ct sk : list Z) : option (Z * list Z) :=
  ss ← crypto_kem_dec fuel ct sk; Some (0, ss).
#[export] Instance ref_kyber768 : Kyber768 := {
  kyber768_keypair := pqcrystals_kyber768_ref_keypair;
  kyber768_enc := pqcrystals_kyber768_ref_enc;
  kyber768_dec := pqcrystals_kyber768_ref_dec }.
End Ref.

Section Hybrid.
Context {K : Kyber768} {C : Curve}.
(** Which library calls succeed, and what a failing call has left at the start
    of the buffer it was to fill. *)
Variable ok : ec_call -> bool.
Variable partial : ec_call -> list Z.
Definition spilled (c : ec_call) (n : nat) (b : list Z) : list Z := copy_at 0 (take n (partial c)) b.

(** ** SM2 Diffie-Hellman and ML-KEM-768 *)

Section Sm2dh.
(** The private key the generator draws. *)
Variable priv : Z.
Variable fuel : nat.

Definition sm2dh_mlkem768_hybrid_keygen (coins : list Z) (pk sk : option (list Z)) :
  option call_result :=
  match pk, sk with
  | Some pk, Some sk =>
      if (length pk <? SM2_DH_MLKEM_768_HYBRID_PK_SIZE)%nat
         || (length sk <? SM2_DH_MLKEM_768_HYBRID_SK_SIZE)%nat
      then Some (mk_result 0 (Some pk) (Some sk) no_refs)
      else
        let '(ec_key, h) := obj_new (ok EC_KEY_new_by_curve_name_ex) Obj_EC_KEY no_refs in
        if negb (is_Some_b ec_key) then Some (mk_result 0 (Some pk) (Some sk) h)
        else
          let err ret pk sk := Some (mk_result ret (Some pk) (Some sk) (EC_KEY_free ec_key h)) in
          if negb (ok EC_KEY_generate_key) then err 0 pk sk
          else if negb (ok EC_KEY_get0_private_key) then err 0 pk sk
          else
            let '(r, b) := BN_bn2binpad priv SM2_DH_SK_SIZE in
            let sk := copy_at 0 b sk in
            if r =? 0 then err 0 pk sk
            else if negb (ok EC_KEY_get0_public_key) then err 0 pk sk
            else if negb (ok EC_POINT_point2oct)
            then err 0 (spilled EC_POINT_point2oct SM2_DH_PK_SIZE pk) sk
            else
              let pk := copy_at 0 (point2oct (public_of priv)) pk in
              '(r, kpk, ksk) ← kyber768_keypair fuel coins;
              let pk := copy_at SM2_DH_PK_SIZE kpk pk in
              let sk := copy_at SM2_DH_SK_SIZE ksk sk in
              if negb (r =? 0) then err 0 pk sk else err 1 pk sk
  | _, _ => Some (mk_result 0 pk sk no_refs)
  end.

(** The outputs are [ss] and [ct].  [err] releases the peer's point, null until
    it is allocated, and the local key. *)
Definition sm2dh_mlkem768_hybrid_encaps (coins : list Z) (ss ct pk : option (list Z)) :
  option call_result :=
  match ss, ct, pk with
  | Some ss, Some ct, Some pk =>
      if negb (length pk =? SM2_DH_MLKEM_768_HYBRID_PK_SIZE)%nat
         || (length ss <? SM2_DH_MLKEM_768_HYBRID_SS_SIZE)%nat
         || (length ct <? SM2_DH_MLKEM_768_HYBRID_CT_SIZE)%nat
      then Some (mk_result 0 (Some ss) (Some ct) no_refs)
      else
        let '(ec_key_local, h) := obj_new (ok EC_KEY_new_by_curve_name_ex) Obj_EC_KEY no_refs in
        let err ret peer_pk h ss ct :=
          Some (mk_result ret (Some ss) (Some ct) (EC_KEY_free ec_key_local (EC_POINT_free peer_pk h))) in
        if negb (is_Some_b ec_key_local) then err 0 None h ss ct
        else if negb (ok EC_KEY_generate_key) then err 0 None h ss ct
        else if negb (ok EC_KEY_get0_group) then err 0 None h ss ct
        else
          let '(peer_pk, h) := obj_new (ok EC_POINT_new) Obj_EC_POINT h in
          if negb (is_Some_b peer_pk) then err 0 peer_pk h ss ct
          else
            match oct2point (take SM2_DH_PK_SIZE pk) with
            | None => err 0 peer_pk h ss ct
            | Some peer =>
                if negb (ok EC_KEY_get0_public_key) then err 0 peer_pk h ss ct
                else if negb (ok EC_POINT_point2oct)
                then err 0 peer_pk h ss (spilled EC_POINT_point2oct SM2_DH_PK_SIZE ct)
                else
                  let ct := copy_at 0 (point2oct (public_of priv)) ct in
                  let ss := zeroed ss in
                  if negb (ok ECDH_compute_key)
                  then err 0 peer_pk h (zeroed (spilled ECDH_compute_key SM2_DH_SS_SIZE ss)) ct
                  else
                    let ss := copy_at 0 (ecdh peer priv) ss in
                    '(r, kct, kss) ← kyber768_enc fuel (drop SM2_DH_PK_SIZE pk) coins;
                    let ct := copy_at SM2_DH_PK_SIZE kct ct in
                    let ss := copy_at SM2_DH_SS_SIZE kss ss in
                    if negb (r =? 0) then err 0 peer_pk h (zeroed ss) ct
                    else err 1 peer_pk h ss ct
            end
  | _, _, _ => Some (mk_result 0 ss ct no_refs)
  end.

(** The output is [ss].  The return after [EC_KEY_set_private_key] skips the
    [err] label, and the failure of [ECDH_compute_key] clears nothing. *)
Definition sm2dh_mlkem768_hybrid_decaps (ss ct sk : option (list Z)) : option call_result :=
  match ss, ct, sk with
  | Some ss, Some ct, Some sk =>
      if (length ss <? SM2_DH_MLKEM_768_HYBRID_SS_SIZE)%nat
         || negb (length ct =? SM2_DH_MLKEM_768_HYBRID_CT_SIZE)%nat
         || negb (length sk =? SM2_DH_MLKEM_768_HYBRID_SK_SIZE)%nat
      then Some (mk_result 0 (Some ss) None no_refs)
      else
        let '(ec_key_local, h) := obj_new (ok EC_KEY_new_by_curve_name_ex) Obj_EC_KEY no_refs in
        let err ret local_sk peer_pk h ss :=
          Some (mk_result ret (Some ss) None
                  (BN_free local_sk (EC_POINT_free peer_pk (EC_KEY_free ec_key_local h)))) in
        if negb (is_Some_b ec_key_local) then err 0 None None h ss
        else
          let '(local_sk, h) := obj_new (ok BN_bin2bn_call) Obj_BIGNUM h in
          if negb (is_Some_b local_sk) then err 0 local_sk None h ss
          else
            let scalar := BN_bin2bn (take SM2_DH_SK_SIZE sk) in
            if negb (ok EC_KEY_set_private_key) then Some (mk_result 0 (Some ss) None h)
            else if negb (ok EC_KEY_get0_group) then err 0 local_sk None h ss
            else
              let '(peer_pk, h) := obj_new (ok EC_POINT_new) Obj_EC_POINT h in
              if negb (is_Some_b peer_pk) then err 0 local_sk peer_pk h ss
              else
                match oct2point (take SM2_DH_PK_SIZE ct) with
                | None => err 0 local_sk peer_pk h ss
                | Some peer =>
                    let ss := zeroed ss in
                    if negb (ok ECDH_compute_key)
                    then err 0 local_sk peer_pk h (spilled ECDH_compute_key SM2_DH_SS_SIZE ss)
                    else
                      let ss := copy_at 0 (ecdh peer scalar) ss in
                      '(r, kss) ← kyber768_dec fuel (drop SM2_DH_PK_SIZE ct) (drop SM2_DH_SK_SIZE sk);
                      let ss := copy_at SM2_DH_SS_SIZE kss ss in
                      if negb (r =? 0) then err 0 local_sk peer_pk h (zeroed ss)
                      else err 1 local_sk peer_pk h ss
                end
  | _, _, _ => Some (mk_result 0 ss None no_refs)
  end.
End Sm2dh.

(** ** The certificate's key and Kyber-768 *)

Section Ecc.
Variable fuel : nat.

(** [ecc_pkey] is the private key of the certificate. *)
Definition ecc_kyber_hybrid_keygen (ecc_pkey : option Z) (coins : list Z)
    (pk sk : option (list Z)) : option call_result :=
  match pk, sk, ecc_pkey with
  | Some pk, Some sk, Some priv =>
      if (length pk <? ECC_KYBER_HYBRID_PK_SIZE)%nat
         || (length sk <? ECC_KYBER_HYBRID_SK_SIZE)%nat
      then Some (mk_result 0 (Some pk) (Some sk) no_refs)
      else
        let '(ec_key, h) := obj_new (ok EVP_PKEY_get1_EC_KEY) Obj_EC_KEY no_refs in
        let err ret pk sk :=
          Some (mk_result ret (Some pk) (Some sk)
                  (if is_Some_b ec_key then EC_KEY_free ec_key h else h)) in
        if negb (is_Some_b ec_key) then err 0 pk sk
        else if negb (ok EC_KEY_get0_group) then err 0 pk sk
        else if negb (ok EC_KEY_get0_private_key) then err 0 pk sk
        else
          let '(r, b) := BN_bn2binpad priv ECC_SK_SIZE in
          let sk := copy_at 0 b sk in
          if r =? 0 then err 0 pk sk
          else if negb (ok EC_KEY_get0_public_key) then err 0 pk sk
          else if negb (ok EC_POINT_point2oct)
          then err 0 (spilled EC_POINT_point2oct ECC_PK_SIZE pk) sk
          else
            let pk := copy_at 0 (point2oct (public_of priv)) pk in
            '(r, kpk, ksk) ← kyber768_keypair fuel coins;
            let pk := copy_at ECC_PK_SIZE kpk pk in
            let sk := copy_at ECC_SK_SIZE ksk sk in
            if negb (r =? 0) then err 0 pk sk else err 1 pk sk
  | _, _, _ => Some (mk_result 0 pk sk no_refs)
  end.

Definition ecc_kyber_hybrid_encaps (coins : list Z) (ss ct pk : option (list Z)) :
  option call_result :=
  match ss, ct, pk with
  | Some ss, Some ct, Some pk =>
      if negb (length pk =? ECC_KYBER_HYBRID_PK_SIZE)%nat
         || (length ss <? KYBER_768_SS_SIZE)%nat
         || (length ct <? ECC_KYBER_HYBRID_CT_SIZE)%nat
      then Some (mk_result 0 (Some ss) (Some ct) no_refs)
      else
        '(r, kct, kss) ← kyber768_enc fuel (drop ECC_PK_SIZE pk) coins;
        let ct := copy_at 0 kct ct in
        let ss := copy_at 0 kss ss in
        if negb (r =? 0) then Some (mk_result 0 (Some (zeroed ss)) (Some ct) no_refs)
        else Some (mk_result 1 (Some ss) (Some ct) no_refs)
  | _, _, _ => Some (mk_result 0 ss ct no_refs)
  end.

Definition ecc_kyber_hybrid_decaps (ss ct sk : option (list Z)) : option call_result :=
  match ss, ct, sk with
  | Some ss, Some ct, Some sk =>
      if (length ss <? KYBER_768_SS_SIZE)%nat
         || negb (length ct =? ECC_KYBER_HYBRID_CT_SIZE)%nat
         || negb (length sk =? ECC_KYBER_HYBRID_SK_SIZE)%nat
      then Some (mk_result 0 (Some ss) None no_refs)
      else
        '(r, kss) ← kyber768_dec fuel ct (drop ECC_SK_SIZE sk);
        let ss := copy_at 0 kss ss in
        if negb (r =? 0) then Some (mk_result 0 (Some (zeroed ss)) None no_refs)
        else Some (mk_result 1 (Some ss) None no_refs)
  | _, _, _ => Some (mk_result 0 ss None no_refs)
  end.
End Ecc.
End Hybrid.

(** ** Key objects *)

(** A run ends with a value, or in a dereference of a null pointer. *)
Inductive outcome (A : Type) : Type := Returns (a : A) | NullDeref.
Arguments Returns {A} a.
Arguments NullDeref {A}.

Record hybrid_key := mk_hybrid_key {
  has_kem_sk : bool;
  key_pk : option (list Z);
  key_sk : option (list Z);
  key_ct : option (list Z);
  key_ss : option (list Z) }.

(** The buffers allocated before the first failure: [m] tells which of the
    five allocations succeed, in the order of the code. *)
Definition alloc_buffers (m : nat -> bool) (pk sk ct ss : nat) : hybrid_key :=
  let b i n := if m i then Some (repeat 0 n) else None in
  let k := mk_hybrid_key false (b 1%nat pk) None None None in
  match key_pk k with
  | None => k
  | Some _ =>
      let k := mk_hybrid_key false (key_pk k) (b 2%nat sk) None None in
      match key_sk k with
      | None => k
      | Some _ =>
          let k := mk_hybrid_key false (key_pk k) (key_sk k) (b 3%nat ct) None in
          match key_ct k with
          | None => k
          | Some _ => mk_hybrid_key false (key_pk k) (key_sk k) (key_ct k) (b 4%nat ss)
          end
      end
  end.

(** All four buffers, or nothing: the [err] label frees the rest. *)
Definition key_of (k : hybrid_key) : option hybrid_key :=
  match key_ss k with Some _ => Some k | None => None end.

(** The [err] label reads [hybrid_key->pk], also when [hybrid_key] is null. *)
Definition sm2dh_mlkem768_hybrid_key_new (m : nat -> bool) : outcome (option hybrid_key) :=
  if negb (m 0%nat) then NullDeref
  else Returns (key_of (alloc_buffers m SM2_DH_MLKEM_768_HYBRID_PK_SIZE
         SM2_DH_MLKEM_768_HYBRID_SK_SIZE SM2_DH_MLKEM_768_HYBRID_CT_SIZE
         SM2_DH_MLKEM_768_HYBRID_SS_SIZE)).

Definition ecc_kyber_hybrid_key_new (m : nat -> bool) : outcome (option hybrid_key) :=
  if negb (m 0%nat) then Returns None
  else Returns (key_of (alloc_buffers m ECC_KYBER_HYBRID_PK_SIZE
         ECC_KYBER_HYBRID_SK_SIZE ECC_KYBER_HYBRID_CT_SIZE ECC_KYBER_HYBRID_SS_SIZE)).

(** Freeing: the contents of each buffer when it is given back to the
    allocator; a null pointer in the structure is skipped. *)
Definition free_buffer (n : nat) (b : option (list Z)) : list (list Z) :=
  match b with Some b => [copy_at 0 (repeat 0 n) b] | None => [] end.
Definition free_buffers (pk sk ct ss : nat) (k : hybrid_key) : list (list Z) :=
  free_buffer pk (key_pk k) ++ free_buffer sk (key_sk k)
  ++ free_buffer ct (key_ct k) ++ free_buffer ss (key_ss k).

Definition sm2dh_mlkem768_hybrid_key_free (k : option hybrid_key) : outcome (list (list Z)) :=
  match k with
  | None => NullDeref
  | Some k => Returns (free_buffers SM2_DH_MLKEM_768_HYBRID_PK_SIZE SM2_DH_MLKEM_768_HYBRID_SK_SIZE
                         SM2_DH_MLKEM_768_HYBRID_CT_SIZE SM2_DH_MLKEM_768_HYBRID_SS_SIZE k)
  end.

Definition ecc_kyber_hybrid_key_free (k : option hybrid_key) : outcome (list (list Z)) :=
  match k with
  | None => Returns []
  | Some k => Returns (free_buffers ECC_KYBER_HYBRID_PK_SIZE ECC_KYBER_HYBRID_SK_SIZE
                         ECC_KYBER_HYBRID_CT_SIZE ECC_KYBER_HYBRID_SS_SIZE k)
  end.
