(* ===== verification/HybridSpec.v ===== *)
(** * Hybrid key encapsulation: agreement and failures

    The two sides of each hybrid mechanism compute the same secret, made of
    the secrets of its parts; what a call that fails leaves in the secret's
    buffer, and which references it does not release, is settled for every
    pattern of failures, whatever the failing calls have written. *)

From stdpp Require Import gmap.
From S2P Require Import Prelude Buffers KyberReduce KyberSymmetric KyberPoly KyberPolyvec KyberIndcpa KyberIndcpaSpec KyberKem KyberKemSpec HybridKem.

(** ** Bytes of an integer *)

Lemma BN_roundtrip n x : 0 <= x < 256 ^ Z.of_nat n -> BN_bin2bn (be_bytes n x) = x.
Proof. apply be_roundtrip. Qed.

Lemma BN_bn2binpad_fits x n : x < 256 ^ Z.of_nat n -> BN_bn2binpad x n = (Z.of_nat n, be_bytes n x).
Proof. intros H. unfold BN_bn2binpad. now rewrite (proj2 (Z.ltb_lt _ _) H). Qed.

(** Two writes, one after the other. *)
Lemma copy_first a p : copy_at 0 a p = a ++ drop (length a) p.
Proof. reflexivity. Qed.

Lemma copy_second n a b p :
  length a = n -> copy_at n b (copy_at 0 a p) = a ++ b ++ drop (n + length b) p.
Proof.
  intros <-. rewrite copy_first. unfold copy_at.
  rewrite take_app_length. f_equal. f_equal.
  rewrite drop_app_ge by lia. rewrite drop_drop. f_equal. lia.
Qed.

Lemma drop_zeros n m : drop n (repeat 0 m) = repeat 0 (m - n).
Proof.
  revert m. induction n as [| n IH]; intros [| m]; cbn; auto.
Qed.

(** ** References *)

(** The references that the functions hold between their calls. *)
Definition key_held : refs := mk_refs {[0%nat := Obj_EC_KEY]} [].
Definition key_point_held : refs := mk_refs {[0%nat := Obj_EC_KEY; 1%nat := Obj_EC_POINT]} [].
Definition key_bn_held : refs := mk_refs {[0%nat := Obj_EC_KEY; 1%nat := Obj_BIGNUM]} [].
Definition key_bn_point_held : refs :=
  mk_refs {[0%nat := Obj_EC_KEY; 1%nat := Obj_BIGNUM; 2%nat := Obj_EC_POINT]} [].

(** Taking them, and what [err] leaves of them. *)
Lemma new_fails o h : obj_new false o h = (None, h).
Proof. reflexivity. Qed.
Lemma new_key : obj_new true Obj_EC_KEY no_refs = (Some 0%nat, key_held).
Proof. vm_compute. reflexivity. Qed.
Lemma new_point : obj_new true Obj_EC_POINT key_held = (Some 1%nat, key_point_held).
Proof. vm_compute. reflexivity. Qed.
Lemma new_bn : obj_new true Obj_BIGNUM key_held = (Some 1%nat, key_bn_held).
Proof. vm_compute. reflexivity. Qed.
Lemma new_bn_point : obj_new true Obj_EC_POINT key_bn_held = (Some 2%nat, key_bn_point_held).
Proof. vm_compute. reflexivity. Qed.
Lemma free_key_null h : EC_KEY_free None h = h.
Proof. reflexivity. Qed.
Lemma free_point_null h : EC_POINT_free None h = h.
Proof. reflexivity. Qed.
Lemma free_bn_null h : BN_free None h = h.
Proof. reflexivity. Qed.
Lemma free_key : EC_KEY_free (Some 0%nat) key_held = no_refs.
Proof. vm_compute. reflexivity. Qed.
Lemma free_point : EC_KEY_free (Some 0%nat) (EC_POINT_free (Some 1%nat) key_point_held) = no_refs.
Proof. vm_compute. reflexivity. Qed.
Lemma free_bn : BN_free (Some 1%nat) (EC_KEY_free (Some 0%nat) key_bn_held) = no_refs.
Proof. vm_compute. reflexivity. Qed.
Lemma free_bn_point :
  BN_free (Some 1%nat) (EC_POINT_free (Some 2%nat) (EC_KEY_free (Some 0%nat) key_bn_point_held)) = no_refs.
Proof. vm_compute. reflexivity. Qed.

Create Rewrite HintDb refs.
#[local] Hint Rewrite new_fails new_key new_point new_bn new_bn_point free_key_null free_point_null
  free_bn_null free_key free_point free_bn free_bn_point : refs.

(** ** The functions of [kyber_kem.c] write within their buffers *)

Lemma cmov_length r x n b : length (cmov r x n b) = length r.
Proof.
  unfold cmov. generalize (seq 0 n) as l. intros l. revert r.
  induction l as [| i l IH]; intros r; cbn [foldl]; [reflexivity |]. now rewrite IH, length_insert.
Qed.

Lemma kem_enc_sizes {S : Symmetric} {SL : SymmetricLaws S} fuel pk coins ct ss :
  crypto_kem_enc_derand fuel pk coins = Some (ct, ss) ->
  length ct = MLKEM_768_CT_SIZE /\ length ss = MLKEM_768_SS_SIZE.
Proof.
  intros (c & E & H)%bind_Some. apply indcpa_enc_out in E as [E _].
  apply (inj Some), pair_eq in H as [<- <-]. split; [exact E |].
  now rewrite length_take, hash_g_length.
Qed.

Lemma kem_dec_size {S : Symmetric} {SL : SymmetricLaws S} fuel ct sk ss :
  crypto_kem_dec fuel ct sk = Some ss -> length ss = MLKEM_768_SS_SIZE.
Proof.
  intros (c & _ & H)%bind_Some. apply (inj Some) in H as <-. rewrite cmov_length. apply rkprf_length.
Qed.

#[export] Instance ref_kyber768_laws {S : Symmetric} {SL : SymmetricLaws S} : Kyber768Laws ref_kyber768.
Proof.
  split.
  - intros fuel pk coins r ct ss ([c s] & E & H)%bind_Some. apply kem_enc_sizes in E as [E1 E2].
    apply (inj Some), pair_eq in H as [H <-]. apply pair_eq in H as [_ <-]. auto.
  - intros fuel ct sk r ss (s & E & H)%bind_Some. apply kem_dec_size in E.
    apply (inj Some), pair_eq in H as [_ <-]. exact E.
Qed.

Section Hybrid.
Context {S : Symmetric} {SL : SymmetricLaws S} {C : Curve} {CL : CurveLaws}.

(** The run of a key generation in which nothing fails. *)
Ltac keygen_tac Hok Ha Hk Lp Ls Lkp Lks :=
  rewrite Lp, Ls, !Nat.ltb_irrefl, !Hok; cbn [orb negb]; autorewrite with refs; cbn [is_Some_b negb];
  rewrite BN_bn2binpad_fits by apply Ha; cbn [Z.eqb Z.of_nat];
  cbn [kyber768_keypair ref_kyber768]; unfold pqcrystals_kyber768_ref_keypair; rewrite Hk; cbn [mbind option_bind Z.eqb negb];
  rewrite !copy_second by (apply point2oct_length || apply be_bytes_length);
  rewrite !drop_ge by (rewrite ?Lp, ?Ls, ?Lkp, ?Lks; cbn; lia);
  rewrite !app_nil_r; autorewrite with refs; reflexivity.

(** A key pair whose halves fill the two buffers. *)
Lemma sm2dh_keygen_ok ok left a fuel coins pk sk kpk ksk :
  (forall c, ok c = true) -> 0 <= a < 256 ^ 32 ->
  crypto_kem_keypair_derand fuel coins = Some (kpk, ksk) ->
  length kpk = MLKEM_768_PK_SIZE -> length ksk = MLKEM_768_SK_SIZE ->
  length pk = SM2_DH_MLKEM_768_HYBRID_PK_SIZE -> length sk = SM2_DH_MLKEM_768_HYBRID_SK_SIZE ->
  sm2dh_mlkem768_hybrid_keygen ok left a fuel coins (Some pk) (Some sk)
  = Some (mk_result 1 (Some (point2oct (public_of a) ++ kpk))
            (Some (be_bytes SM2_DH_SK_SIZE a ++ ksk)) no_refs).
Proof.
  intros Hok Ha Hk Lkp Lks Lp Ls. unfold sm2dh_mlkem768_hybrid_keygen. keygen_tac Hok Ha Hk Lp Ls Lkp Lks.
Qed.

Lemma ecc_keygen_ok ok left priv fuel coins pk sk kpk ksk :
  (forall c, ok c = true) -> 0 <= priv < 256 ^ 32 ->
  crypto_kem_keypair_derand fuel coins = Some (kpk, ksk) ->
  length kpk = KYBER_768_PK_SIZE -> length ksk = KYBER_768_SK_SIZE ->
  length pk = ECC_KYBER_HYBRID_PK_SIZE -> length sk = ECC_KYBER_HYBRID_SK_SIZE ->
  ecc_kyber_hybrid_keygen ok left fuel (Some priv) coins (Some pk) (Some sk)
  = Some (mk_result 1 (Some (point2oct (public_of priv) ++ kpk))
            (Some (be_bytes ECC_SK_SIZE priv ++ ksk)) no_refs).
Proof.
  intros Hok Ha Hk Lkp Lks Lp Ls. unfold ecc_kyber_hybrid_keygen. keygen_tac Hok Ha Hk Lp Ls Lkp Lks.
Qed.

Lemma sm2dh_encaps_ok ok left b fuel m ss ct pk peer kpk kct kss :
  (forall c, ok c = true) -> oct2point pk = Some peer -> length pk = SM2_DH_PK_SIZE ->
  crypto_kem_enc_derand fuel kpk m = Some (kct, kss) ->
  length kpk = MLKEM_768_PK_SIZE -> length kct = MLKEM_768_CT_SIZE ->
  length kss = MLKEM_768_SS_SIZE ->
  (SM2_DH_MLKEM_768_HYBRID_SS_SIZE <= length ss)%nat ->
  length ct = SM2_DH_MLKEM_768_HYBRID_CT_SIZE ->
  sm2dh_mlkem768_hybrid_encaps ok left b fuel m (Some ss) (Some ct) (Some (pk ++ kpk))
  = Some (mk_result 1
            (Some ((ecdh peer b ++ kss)
                   ++ repeat 0 (length ss - SM2_DH_MLKEM_768_HYBRID_SS_SIZE)))
            (Some (point2oct (public_of b) ++ kct)) no_refs).
Proof.
  intros Hok Ho Lp Hk Lkp Lkc Lks Ls Lc. unfold sm2dh_mlkem768_hybrid_encaps.
  rewrite length_app, Lp, Lkp, Lc, Nat.ltb_irrefl. cbn [orb negb Nat.add Nat.eqb].
  replace (_ <? _)%nat with false by (symmetry; apply Nat.ltb_ge; exact Ls).
  rewrite !Hok. cbn [orb negb]. autorewrite with refs. cbn [is_Some_b negb]. autorewrite with refs.
  cbn [is_Some_b negb]. rewrite take_app_length' by easy. rewrite Ho, drop_app_length' by easy.
  cbn [kyber768_enc ref_kyber768]. unfold pqcrystals_kyber768_ref_enc. rewrite Hk. cbn [mbind option_bind Z.eqb negb].
  rewrite !copy_second by (apply point2oct_length || apply ecdh_length).
  rewrite (drop_ge ct) by (rewrite Lc, Lkc; cbn; lia).
  unfold zeroed. rewrite drop_zeros, Lks, app_nil_r. autorewrite with refs. now rewrite <- app_assoc.
Qed.

Lemma sm2dh_decaps_ok ok left fuel ss pk kct a ksk kss peer :
  (forall c, ok c = true) -> 0 <= a < 256 ^ 32 ->
  oct2point pk = Some peer -> length pk = SM2_DH_PK_SIZE ->
  crypto_kem_dec fuel kct ksk = Some kss ->
  length kct = MLKEM_768_CT_SIZE -> length ksk = MLKEM_768_SK_SIZE ->
  length kss = MLKEM_768_SS_SIZE ->
  (SM2_DH_MLKEM_768_HYBRID_SS_SIZE <= length ss)%nat ->
  sm2dh_mlkem768_hybrid_decaps ok left fuel (Some ss) (Some (pk ++ kct))
    (Some (be_bytes SM2_DH_SK_SIZE a ++ ksk))
  = Some (mk_result 1
            (Some ((ecdh peer a ++ kss)
                   ++ repeat 0 (length ss - SM2_DH_MLKEM_768_HYBRID_SS_SIZE))) None no_refs).
Proof.
  intros Hok Ha Ho Lp Hk Lkc Lks Lkss Ls. unfold sm2dh_mlkem768_hybrid_decaps.
  rewrite !length_app, be_bytes_length, Lp, Lkc, Lks.
  replace (_ <? _)%nat with false by (symmetry; apply Nat.ltb_ge; exact Ls).
  cbn [orb negb Nat.add Nat.eqb SM2_DH_SK_SIZE]. rewrite !Hok.
  do 3 (cbn [is_Some_b negb]; autorewrite with refs). cbn [is_Some_b negb].
  rewrite take_app_length' by easy. rewrite Ho.
  rewrite take_app_length' by now rewrite be_bytes_length. rewrite BN_roundtrip by exact Ha.
  rewrite !drop_app_length' by (easy || now rewrite be_bytes_length).
  cbn [kyber768_dec ref_kyber768]. unfold pqcrystals_kyber768_ref_dec. rewrite Hk. cbn [mbind option_bind Z.eqb negb].
  rewrite copy_second by apply ecdh_length.
  unfold zeroed. rewrite drop_zeros, Lkss. autorewrite with refs. now rewrite <- app_assoc.
Qed.

(** C23: The SM2-DH and ML-KEM-768 hybrid agrees.  When no call of the
    elliptic-curve library fails and the Kyber run stays in its decoding window,
    key generation, encapsulation and decapsulation all return 1, and the two
    sides hold the same 64 bytes: the Diffie-Hellman secret of the two SM2 keys
    followed by the Kyber secret; the rest of a longer buffer is zero. *)
Theorem sm2dh_hybrid_agreement ok left a b fuel coins m pk sk ct ss1 ss2 :
  (forall c, ok c = true) -> 0 <= a < 256 ^ 32 ->
  length coins = 64%nat -> length m = 32%nat -> bytes m -> kem_noise_ok fuel coins m = true ->
  length pk = SM2_DH_MLKEM_768_HYBRID_PK_SIZE -> length sk = SM2_DH_MLKEM_768_HYBRID_SK_SIZE ->
  length ct = SM2_DH_MLKEM_768_HYBRID_CT_SIZE ->
  (SM2_DH_MLKEM_768_HYBRID_SS_SIZE <= length ss1)%nat ->
  (SM2_DH_MLKEM_768_HYBRID_SS_SIZE <= length ss2)%nat ->
  exists pk' sk' ct' kss,
    sm2dh_mlkem768_hybrid_keygen ok left a fuel coins (Some pk) (Some sk)
    = Some (mk_result 1 (Some pk') (Some sk') no_refs)
    /\ sm2dh_mlkem768_hybrid_encaps ok left b fuel m (Some ss1) (Some ct) (Some pk')
       = Some (mk_result 1 (Some ((ecdh (public_of a) b ++ kss) ++ repeat 0 (length ss1 - 64)))
                 (Some ct') no_refs)
    /\ sm2dh_mlkem768_hybrid_decaps ok left fuel (Some ss2) (Some ct') (Some sk')
       = Some (mk_result 1 (Some ((ecdh (public_of a) b ++ kss) ++ repeat 0 (length ss2 - 64)))
                 None no_refs)
    /\ length kss = 32%nat.
Proof.
  intros Hok Ha Lco Lm Bm Hn Lp Ls Lc L1 L2.
  destruct (kem_agreement fuel coins m Lm Bm Hn)
    as (kpk & ksk & kct & kss & Hk & He & Hd & Lkp & Lkc & Lks & Lsk). specialize (Lsk Lco).
  exists (point2oct (public_of a) ++ kpk), (be_bytes SM2_DH_SK_SIZE a ++ ksk),
    (point2oct (public_of b) ++ kct), kss.
  split; [now apply sm2dh_keygen_ok |].
  split; [apply sm2dh_encaps_ok; auto using oct2point_point2oct, point2oct_length |].
  split; [rewrite ecdh_comm | exact Lks].
  apply sm2dh_decaps_ok; auto using oct2point_point2oct, point2oct_length.
Qed.

(** The certificate and Kyber-768 hybrid agrees.  Its encapsulation and
    decapsulation leave the certificate's key out: both sides hold the Kyber
    secret of 32 bytes at the start of their buffers, whose other bytes are
    untouched. *)
Theorem ecc_kyber_hybrid_agreement ok left priv fuel coins m pk sk ct ss1 ss2 :
  (forall c, ok c = true) -> 0 <= priv < 256 ^ 32 ->
  length coins = 64%nat -> length m = 32%nat -> bytes m -> kem_noise_ok fuel coins m = true ->
  length pk = ECC_KYBER_HYBRID_PK_SIZE -> length sk = ECC_KYBER_HYBRID_SK_SIZE ->
  length ct = ECC_KYBER_HYBRID_CT_SIZE -> (32 <= length ss1)%nat -> (32 <= length ss2)%nat ->
  exists kpk ksk ct' kss,
    ecc_kyber_hybrid_keygen ok left fuel (Some priv) coins (Some pk) (Some sk)
    = Some (mk_result 1 (Some (point2oct (public_of priv) ++ kpk))
              (Some (be_bytes ECC_SK_SIZE priv ++ ksk)) no_refs)
    /\ ecc_kyber_hybrid_encaps fuel m (Some ss1) (Some ct)
         (Some (point2oct (public_of priv) ++ kpk))
       = Some (mk_result 1 (Some (kss ++ drop 32 ss1)) (Some ct') no_refs)
    /\ ecc_kyber_hybrid_decaps fuel (Some ss2) (Some ct')
         (Some (be_bytes ECC_SK_SIZE priv ++ ksk))
       = Some (mk_result 1 (Some (kss ++ drop 32 ss2)) None no_refs)
    /\ length kss = 32%nat.
Proof.
  intros Hok Ha Lco Lm Bm Hn Lp Ls Lc L1 L2.
  destruct (kem_agreement fuel coins m Lm Bm Hn)
    as (kpk & ksk & kct & kss & Hk & He & Hd & Lkp & Lkc & Lks & Lsk). specialize (Lsk Lco).
  exists kpk, ksk, kct, kss. split; [now apply ecc_keygen_ok |].
  unfold ecc_kyber_hybrid_encaps, ecc_kyber_hybrid_decaps.
  cbn [kyber768_enc kyber768_dec ref_kyber768].
  unfold pqcrystals_kyber768_ref_enc, pqcrystals_kyber768_ref_dec.
  rewrite !length_app, point2oct_length, be_bytes_length, Lkp, Lkc, Lsk, Lc.
  cbn [orb negb Nat.add Nat.eqb]. rewrite ?Nat.ltb_irrefl, !(proj2 (Nat.ltb_ge _ _)) by assumption.
  cbn [orb negb Nat.add Nat.eqb].
  rewrite !drop_app_length' by (now rewrite point2oct_length || now rewrite be_bytes_length).
  rewrite He, Hd. cbn [mbind option_bind Z.eqb negb]. rewrite !copy_first, Lks, Lkc.
  rewrite (drop_ge ct) by (rewrite Lc; apply Nat.leb_le; reflexivity).
  rewrite app_nil_r. auto.
Qed.
End Hybrid.

(** ** Failures *)

Section Failures.
Context {K : Kyber768} {KL : Kyber768Laws K} {C : Curve} {CL : CurveLaws}.

Lemma zeroed_eq a b : length a = length b -> zeroed a = zeroed b.
Proof. unfold zeroed. now intros ->. Qed.

Lemma zeroed_length b : length (zeroed b) = length b.
Proof. apply repeat_length. Qed.

Lemma spilled_length left c n b :
  (n <= length b)%nat -> length (spilled left c n b) = length b.
Proof. intros H. apply copy_at_length. rewrite length_take. lia. Qed.

(** What a caller finds in the buffer of the secret when a call fails: what it
    was, or zeros. *)
Definition nothing_revealed (ss : list Z) (r : call_result) : Prop :=
  out1 r = Some ss \/ out1 r = Some (zeroed ss).

(** Run through the branches of a function whose result is known. *)
Ltac branches H :=
  cbv zeta in H;
  repeat (match type of H with
  | match obj_new (?f ?c) _ _ with _ => _ end = Some _ =>
      destruct (f c) eqn:?; autorewrite with refs in H; cbn [is_Some_b negb] in H
  | (if ?b then _ else _) = Some _ => destruct b eqn:?
  | match BN_bn2binpad ?x ?n with _ => _ end = Some _ => destruct (BN_bn2binpad x n) eqn:?
  | match ?x with Some _ => _ | None => _ end = Some _ => destruct x eqn:?
  | mbind _ ?x = Some _ =>
      let E := fresh "Ek" in
      destruct x as [[[? ?] ?] |] eqn:E || destruct x as [[? ?] |] eqn:E;
      cbn [mbind option_bind] in H
  | None = Some _ => discriminate H
  end; try (apply (inj Some) in H; subst)).

(** The length tests that a function has passed. *)
Ltac sizes :=
  repeat match goal with
  | E : _ || _ = false |- _ => apply orb_false_iff in E as [? ?]
  | E : negb _ = false |- _ => apply negb_false_iff in E
  | E : (_ <? _)%nat = false |- _ => apply Nat.ltb_ge in E
  | E : (_ =? _)%nat = true |- _ => apply Nat.eqb_eq in E
  end.

(** A cleared buffer has the length of the caller's. *)
Ltac cleared :=
  right; f_equal; apply zeroed_eq; sizes;
  unfold SM2_DH_MLKEM_768_HYBRID_SS_SIZE, SM2_DH_SS_SIZE, KYBER_768_SS_SIZE, MLKEM_768_SS_SIZE in *;
  rewrite ?spilled_length, ?copy_at_length; rewrite ?copy_at_length;
  rewrite ?zeroed_length, ?ecdh_length; try reflexivity;
  unfold SM2_DH_SS_SIZE in *; lia.

Lemma sm2dh_encaps_failure ok left priv fuel coins ss ct pk r :
  sm2dh_mlkem768_hybrid_encaps ok left priv fuel coins (Some ss) ct pk = Some r ->
  ret r = 1 \/ ret r = 0 /\ nothing_revealed ss r.
Proof.
  unfold sm2dh_mlkem768_hybrid_encaps, nothing_revealed. intros H.
  destruct ct as [ct |], pk as [pk |]; try (simplify_eq; auto).
  branches H; cbn [ret out1]; auto; right; split; auto.
  - cleared.
  - apply kyber768_enc_sizes in Ek as [_ L]. cleared.
Qed.

Lemma sm2dh_decaps_failure ok left fuel ss ct sk r :
  sm2dh_mlkem768_hybrid_decaps ok left fuel (Some ss) ct sk = Some r ->
  ret r = 1 \/ ret r = 0 /\ (nothing_revealed ss r
    \/ ok ECDH_compute_key = false
       /\ out1 r = Some (spilled left ECDH_compute_key SM2_DH_SS_SIZE (zeroed ss))).
Proof.
  unfold sm2dh_mlkem768_hybrid_decaps, nothing_revealed. intros H.
  destruct ct as [ct |], sk as [sk |]; try (simplify_eq; auto).
  branches H; cbn [ret out1]; auto; right; (split; [reflexivity |]); auto.
  - right. split; [now apply negb_true_iff | reflexivity].
  - left. apply kyber768_dec_size in Ek as L. cleared.
Qed.

Lemma ecc_encaps_failure fuel coins ss ct pk r :
  ecc_kyber_hybrid_encaps fuel coins (Some ss) ct pk = Some r ->
  ret r = 1 \/ ret r = 0 /\ nothing_revealed ss r.
Proof.
  unfold ecc_kyber_hybrid_encaps, nothing_revealed. intros H.
  destruct ct as [ct |], pk as [pk |]; try (simplify_eq; auto).
  branches H; cbn [ret out1]; auto; right; split; auto.
  apply kyber768_enc_sizes in Ek as [_ L]. cleared.
Qed.

Lemma ecc_decaps_failure fuel ss ct sk r :
  ecc_kyber_hybrid_decaps fuel (Some ss) ct sk = Some r ->
  ret r = 1 \/ ret r = 0 /\ nothing_revealed ss r.
Proof.
  unfold ecc_kyber_hybrid_decaps, nothing_revealed. intros H.
  destruct ct as [ct |], sk as [sk |]; try (simplify_eq; auto).
  branches H; cbn [ret out1]; auto; right; split; auto.
  apply kyber768_dec_size in Ek as L. cleared.
Qed.

(** C24: A hybrid call that fails gives no secret away.  For every pattern of
    failing library calls, whatever bytes a failing call has written at the start
    of its output, for Kyber calls that may return an error after writing any bytes
    within their buffers, and for all inputs: encapsulation of both mechanisms and
    decapsulation of the certificate's return 1, or return 0 with the secret buffer
    untouched or zero over its whole length.  So does decapsulation of SM2-DH, with
    one exception: when [ECDH_compute_key] fails nothing is cleared after it, and
    the buffer is zero but for what that call itself has written. *)
Theorem hybrid_failure_no_secret ok left priv fuel coins ss ct pk sk r :
  (sm2dh_mlkem768_hybrid_encaps ok left priv fuel coins (Some ss) ct pk = Some r
   \/ ecc_kyber_hybrid_encaps fuel coins (Some ss) ct pk = Some r
   \/ ecc_kyber_hybrid_decaps fuel (Some ss) ct sk = Some r ->
   ret r = 1 \/ ret r = 0 /\ (out1 r = Some ss \/ out1 r = Some (repeat 0 (length ss))))
  /\ (sm2dh_mlkem768_hybrid_decaps ok left fuel (Some ss) ct sk = Some r ->
      ret r = 1
      \/ ret r = 0 /\ (out1 r = Some ss \/ out1 r = Some (repeat 0 (length ss)))
      \/ ret r = 0 /\ ok ECDH_compute_key = false
         /\ out1 r = Some (copy_at 0 (take 32 (left ECDH_compute_key)) (repeat 0 (length ss)))).
Proof.
  split.
  - intros [H | [H | H]].
    + exact (sm2dh_encaps_failure _ _ _ _ _ _ _ _ _ H).
    + exact (ecc_encaps_failure _ _ _ _ _ _ H).
    + exact (ecc_decaps_failure _ _ _ _ _ H).
  - intros H. apply sm2dh_decaps_failure in H as [H | [H [H' | H']]]; auto.
Qed.

(** The sizes [sm2dh_mlkem768_hybrid_decaps] accepts. *)
Definition decaps_sizes (ss ct sk : list Z) : Prop :=
  (SM2_DH_MLKEM_768_HYBRID_SS_SIZE <= length ss)%nat
  /\ length ct = SM2_DH_MLKEM_768_HYBRID_CT_SIZE /\ length sk = SM2_DH_MLKEM_768_HYBRID_SK_SIZE.

(** [sm2dh_mlkem768_hybrid_decaps] gets as far as [EC_KEY_set_private_key],
    which fails. *)
Definition private_key_refused (ok : ec_call -> bool) (ss ct sk : list Z) : Prop :=
  decaps_sizes ss ct sk /\ ok EC_KEY_new_by_curve_name_ex = true /\ ok BN_bin2bn_call = true
  /\ ok EC_KEY_set_private_key = false.

Lemma keygen_released ok left priv fuel coins pk sk r :
  sm2dh_mlkem768_hybrid_keygen ok left priv fuel coins pk sk = Some r -> held r = no_refs.
Proof.
  unfold sm2dh_mlkem768_hybrid_keygen. intros H.
  destruct pk as [pk |], sk as [sk |]; try (simplify_eq; reflexivity).
  branches H; cbn [held]; autorewrite with refs; reflexivity.
Qed.

Lemma ecc_keygen_released ok left fuel pkey coins pk sk r :
  ecc_kyber_hybrid_keygen ok left fuel pkey coins pk sk = Some r -> held r = no_refs.
Proof.
  unfold ecc_kyber_hybrid_keygen. intros H.
  destruct pk as [pk |], sk as [sk |], pkey as [pkey |]; try (simplify_eq; reflexivity).
  branches H; cbn [held]; autorewrite with refs; reflexivity.
Qed.

Lemma encaps_released ok left priv fuel coins ss ct pk r :
  sm2dh_mlkem768_hybrid_encaps ok left priv fuel coins ss ct pk = Some r -> held r = no_refs.
Proof.
  unfold sm2dh_mlkem768_hybrid_encaps. intros H.
  destruct ss as [ss |], ct as [ct |], pk as [pk |]; try (simplify_eq; reflexivity).
  branches H; cbn [held]; autorewrite with refs; reflexivity.
Qed.

Lemma decaps_released ok left fuel ss ct sk r :
  sm2dh_mlkem768_hybrid_decaps ok left fuel (Some ss) (Some ct) (Some sk) = Some r ->
  held r = key_bn_held /\ ret r = 0 /\ private_key_refused ok ss ct sk
  \/ held r = no_refs /\ ~ private_key_refused ok ss ct sk.
Proof.
  unfold sm2dh_mlkem768_hybrid_decaps, private_key_refused, decaps_sizes. intros H.
  destruct (_ || _ || _) eqn:Hsz in H.
  { right. simplify_eq. split; [reflexivity |]. intros ((? & ? & ?) & _).
    rewrite !orb_true_iff, !negb_true_iff, Nat.ltb_lt, !Nat.eqb_neq in Hsz. lia. }
  sizes. destruct (ok EC_KEY_set_private_key) eqn:Es; cbn [negb] in H;
    branches H; cbn [held ret]; autorewrite with refs;
    first [right; split; [reflexivity | intros (_ & ? & ? & ?); discriminate] | left].
  split_and!; (reflexivity || assumption).
Qed.

(** C39: References given back.  For every pattern of failing calls, the key
    generations of both hybrids and the encapsulation of SM2-DH release each
    reference to an object of the elliptic-curve library exactly once before they
    return: no object is left and none is released that is not held (the
    encapsulation and decapsulation of the certificate's hybrid take none).
    [sm2dh_mlkem768_hybrid_decaps] does so too, except exactly when
    [EC_KEY_set_private_key] fails, where it returns without its [err] label and
    still holds the key and the private scalar. *)
Theorem hybrid_objects_freed ok left priv fuel pkey coins ss ct pk sk r :
  (sm2dh_mlkem768_hybrid_keygen ok left priv fuel coins pk sk = Some r
   \/ ecc_kyber_hybrid_keygen ok left fuel pkey coins pk sk = Some r
   \/ sm2dh_mlkem768_hybrid_encaps ok left priv fuel coins ss ct pk = Some r ->
   live (held r) = ∅ /\ bad_frees (held r) = [])
  /\ (forall ss ct sk,
        sm2dh_mlkem768_hybrid_decaps ok left fuel (Some ss) (Some ct) (Some sk) = Some r ->
        bad_frees (held r) = []
        /\ (live (held r) = {[0%nat := Obj_EC_KEY; 1%nat := Obj_BIGNUM]} /\ ret r = 0
              /\ private_key_refused ok ss ct sk
            \/ live (held r) = ∅ /\ ~ private_key_refused ok ss ct sk)).
Proof.
  split.
  - intros [H | [H | H]].
    + now rewrite (keygen_released _ _ _ _ _ _ _ _ H).
    + now rewrite (ecc_keygen_released _ _ _ _ _ _ _ _ H).
    + now rewrite (encaps_released _ _ _ _ _ _ _ _ _ H).
  - intros ss' ct' sk' H.
    destruct (decaps_released _ _ _ _ _ _ _ H) as [(-> & Hr & P) | [-> P]]; auto.
Qed.
End Failures.

(** Allocating a key object.  [ecc_kyber_hybrid_key_new] always returns: a
    key with four zeroed buffers of the documented sizes when the five
    allocations succeed, a null pointer otherwise.  So does
    [sm2dh_mlkem768_hybrid_key_new], unless the first allocation fails: then its
    error path dereferences the null pointer. *)
Theorem hybrid_key_new_outcome m :
  let all := m 0%nat && m 1%nat && m 2%nat && m 3%nat && m 4%nat in
  ecc_kyber_hybrid_key_new m
  = Returns (if all then Some (mk_hybrid_key false (Some (repeat 0 1249)) (Some (repeat 0 2432))
                                 (Some (repeat 0 1088)) (Some (repeat 0 80)))
             else None)
  /\ sm2dh_mlkem768_hybrid_key_new m
     = if m 0%nat
       then Returns (if all then Some (mk_hybrid_key false (Some (repeat 0 1249))
                                         (Some (repeat 0 2432)) (Some (repeat 0 1153))
                                         (Some (repeat 0 64)))
                     else None)
       else NullDeref.
Proof.
  unfold ecc_kyber_hybrid_key_new, sm2dh_mlkem768_hybrid_key_new, alloc_buffers, key_of.
  destruct (m 0%nat), (m 1%nat), (m 2%nat), (m 3%nat), (m 4%nat); split; reflexivity.
Qed.

(** ** Freeing a key object *)

Definition fits (n : nat) (b : option (list Z)) : Prop :=
  match b with Some b => length b = n | None => True end.
Definition key_fits (pk sk ct ss : nat) (k : hybrid_key) : Prop :=
  fits pk (key_pk k) /\ fits sk (key_sk k) /\ fits ct (key_ct k) /\ fits ss (key_ss k).
(** The buffers that the key object owns. *)
Definition owned (k : hybrid_key) : list (list Z) :=
  omap id [key_pk k; key_sk k; key_ct k; key_ss k].

Lemma free_buffer_zeroed n b : fits n b -> free_buffer n b = map zeroed (omap id [b]).
Proof.
  destruct b as [b |]; cbn; [intros H | easy]. f_equal. unfold zeroed. rewrite H.
  rewrite copy_at_end by (now rewrite repeat_length). reflexivity.
Qed.

Lemma free_buffers_zeroed pk sk ct ss k :
  key_fits pk sk ct ss k -> free_buffers pk sk ct ss k = map zeroed (owned k).
Proof.
  intros (H1 & H2 & H3 & H4). unfold free_buffers, owned. rewrite !free_buffer_zeroed by easy.
  rewrite <- !map_app. f_equal.
  destruct (key_pk k), (key_sk k), (key_ct k), (key_ss k); reflexivity.
Qed.

(** freeing a key object gives each buffer it owns back once and in the
    order public key, secret key, ciphertext, shared secret, overwritten with
    zeros over its whole length, when the buffers have the sizes they were
    allocated with; a null key object is ignored by [ecc_kyber_hybrid_key_free]
    and dereferenced by [sm2dh_mlkem768_hybrid_key_free]. *)
Theorem hybrid_key_free_clears k :
  (key_fits SM2_DH_MLKEM_768_HYBRID_PK_SIZE SM2_DH_MLKEM_768_HYBRID_SK_SIZE
     SM2_DH_MLKEM_768_HYBRID_CT_SIZE SM2_DH_MLKEM_768_HYBRID_SS_SIZE k ->
   sm2dh_mlkem768_hybrid_key_free (Some k) = Returns (map zeroed (owned k))) /\
  (key_fits ECC_KYBER_HYBRID_PK_SIZE ECC_KYBER_HYBRID_SK_SIZE
     ECC_KYBER_HYBRID_CT_SIZE ECC_KYBER_HYBRID_SS_SIZE k ->
   ecc_kyber_hybrid_key_free (Some k) = Returns (map zeroed (owned k))) /\
  sm2dh_mlkem768_hybrid_key_free None = NullDeref /\ ecc_kyber_hybrid_key_free None = Returns [].
Proof.
  unfold sm2dh_mlkem768_hybrid_key_free, ecc_kyber_hybrid_key_free.
  repeat split; intros H; now rewrite free_buffers_zeroed.
Qed.

(** ** Concrete runs *)

(** Multiplication modulo 256 as a stand-in for the curve. *)
#[local] Instance toy_curve : Curve := {
  point := Z;
  public_of k := k mod 256;
  point2oct p := 4 :: repeat 0 63 ++ [p];
  oct2point b := Some (get b 64);
  ecdh p k := be_bytes 32 (p * (k mod 256)) }.

#[local] Instance toy_laws : CurveLaws.
Proof.
  split; cbn -[be_bytes]; intros; try reflexivity; try apply be_bytes_length.
  f_equal. apply Z.mul_comm.
Qed.

Definition zeros (n : nat) : list Z := repeat 0 n.
Definition all_ok : ec_call -> bool := fun _ => true.
Definition none_left : ec_call -> list Z := fun _ => [].

Lemma sm2dh_hybrid_agreement_witness :
  exists pk' sk' ct' kss,
    @sm2dh_mlkem768_hybrid_keygen (@ref_kyber768 zero_symmetric) _ all_ok none_left 5 0 (replicate 64 0)
      (Some (zeros 1249)) (Some (zeros 2432)) = Some (mk_result 1 (Some pk') (Some sk') no_refs)
    /\ @sm2dh_mlkem768_hybrid_encaps (@ref_kyber768 zero_symmetric) _ all_ok none_left 7 0 (replicate 32 0)
         (Some (zeros 64)) (Some (zeros 1153)) (Some pk')
       = Some (mk_result 1 (Some ((ecdh (public_of 5) 7 ++ kss) ++ repeat 0 (64 - 64)))
                 (Some ct') no_refs)
    /\ @sm2dh_mlkem768_hybrid_decaps (@ref_kyber768 zero_symmetric) _ all_ok none_left 0 (Some (zeros 80)) (Some ct') (Some sk')
       = Some (mk_result 1 (Some ((ecdh (public_of 5) 7 ++ kss) ++ repeat 0 (80 - 64))) None no_refs)
    /\ length kss = 32%nat.
Proof.
  apply (@sm2dh_hybrid_agreement zero_symmetric zero_laws _ _ all_ok none_left 5 7 0 (replicate 64 0)
           (replicate 32 0) (zeros 1249) (zeros 2432) (zeros 1153) (zeros 64) (zeros 80)
           (fun _ => eq_refl) ltac:(lia) (length_replicate 64 0) (length_replicate 32 0)
           (zeros_bytes 32) zero_kem_noise_ok eq_refl eq_refl eq_refl);
    apply Nat.leb_le; reflexivity.
Defined.

Lemma ecc_kyber_hybrid_agreement_witness :
  exists kpk ksk ct' kss,
    @ecc_kyber_hybrid_keygen (@ref_kyber768 zero_symmetric) _ all_ok none_left 0 (Some 9) (replicate 64 0)
      (Some (zeros 1249)) (Some (zeros 2432))
    = Some (mk_result 1 (Some (point2oct (public_of 9) ++ kpk))
              (Some (be_bytes ECC_SK_SIZE 9 ++ ksk)) no_refs)
    /\ @ecc_kyber_hybrid_encaps (@ref_kyber768 zero_symmetric) 0 (replicate 32 0) (Some (zeros 80))
         (Some (zeros 1088)) (Some (point2oct (public_of 9) ++ kpk))
       = Some (mk_result 1 (Some (kss ++ drop 32 (zeros 80))) (Some ct') no_refs)
    /\ @ecc_kyber_hybrid_decaps (@ref_kyber768 zero_symmetric) 0 (Some (zeros 80)) (Some ct')
         (Some (be_bytes ECC_SK_SIZE 9 ++ ksk))
       = Some (mk_result 1 (Some (kss ++ drop 32 (zeros 80))) None no_refs)
    /\ length kss = 32%nat.
Proof.
  apply (@ecc_kyber_hybrid_agreement zero_symmetric zero_laws _ _ all_ok none_left 9 0 (replicate 64 0)
           (replicate 32 0) (zeros 1249) (zeros 2432) (zeros 1088) (zeros 80) (zeros 80)
           (fun _ => eq_refl) ltac:(lia) (length_replicate 64 0) (length_replicate 32 0)
           (zeros_bytes 32) zero_kem_noise_ok eq_refl eq_refl eq_refl);
    apply Nat.leb_le; reflexivity.
Defined.

(** A Kyber whose calls report an error after writing their buffers. *)
#[local] Instance failing_kyber768 : Kyber768 := {
  kyber768_keypair _ _ := Some (-1, repeat 8 1184, repeat 8 2400);
  kyber768_enc _ _ _ := Some (-1, repeat 8 1088, repeat 8 32);
  kyber768_dec _ _ _ := Some (-1, repeat 8 32) }.

#[local] Instance failing_laws : Kyber768Laws failing_kyber768.
Proof.
  split; cbn -[repeat]; intros; simplify_eq; rewrite ?repeat_length; auto.
Qed.

(** Encapsulation when Kyber fails, and when the Diffie-Hellman computation
    does after writing three bytes; decapsulation keeps those three. *)
Definition ecdh_fails : ec_call -> bool := fun c => match c with ECDH_compute_key => false | _ => true end.
Definition three_left : ec_call -> list Z := fun c => match c with ECDH_compute_key => [1; 2; 3] | _ => [] end.

Lemma hybrid_failure_no_secret_witness :
  (exists r, @sm2dh_mlkem768_hybrid_encaps failing_kyber768 _ all_ok none_left 7 0 []
               (Some (repeat 7 64)) (Some (zeros 1153)) (Some (zeros 1249)) = Some r
     /\ out1 r = Some (repeat 0 64)
     /\ (ret r = 1 \/ ret r = 0 /\ (out1 r = Some (repeat 7 64) \/ out1 r = Some (repeat 0 64))))
  /\ (exists r, @sm2dh_mlkem768_hybrid_decaps failing_kyber768 _ ecdh_fails three_left 0
                  (Some (repeat 7 64)) (Some (zeros 1153)) (Some (zeros 2432)) = Some r
     /\ out1 r = Some ([1; 2; 3] ++ repeat 0 61)
     /\ (ret r = 1
         \/ ret r = 0 /\ (out1 r = Some (repeat 7 64) \/ out1 r = Some (repeat 0 64))
         \/ ret r = 0 /\ ecdh_fails ECDH_compute_key = false
            /\ out1 r = Some (copy_at 0 (take 32 (three_left ECDH_compute_key)) (repeat 0 64)))).
Proof.
  split; eexists; (split; [vm_compute; reflexivity |]); (split; [reflexivity |]).
  - apply (proj1 (@hybrid_failure_no_secret failing_kyber768 _ toy_curve _ all_ok none_left 7 0 []
             (repeat 7 64) (Some (zeros 1153)) (Some (zeros 1249)) None _)).
    left. vm_compute. reflexivity.
  - apply (proj2 (@hybrid_failure_no_secret failing_kyber768 _ toy_curve _ ecdh_fails three_left 7 0 []
             (repeat 7 64) (Some (zeros 1153)) None (Some (zeros 2432)) _)).
    vm_compute. reflexivity.
Defined.

(** Decapsulation with a private key the library refuses. *)
Definition key_refused : ec_call -> bool :=
  fun c => match c with EC_KEY_set_private_key => false | _ => true end.

Lemma hybrid_objects_freed_witness :
  let r := mk_result 0 (Some (zeros 64)) None key_bn_held in
  bad_frees (held r) = []
  /\ (live (held r) = {[0%nat := Obj_EC_KEY; 1%nat := Obj_BIGNUM]} /\ ret r = 0
       /\ private_key_refused key_refused (zeros 64) (zeros 1153) (zeros 2432)
     \/ live (held r) = ∅ /\ ~ private_key_refused key_refused (zeros 64) (zeros 1153) (zeros 2432)).
Proof.
  intros r.
  apply (proj2 (@hybrid_objects_freed failing_kyber768 toy_curve key_refused none_left 7 0 None []
                  None None None None r)).
  vm_compute. reflexivity.
Defined.

Lemma hybrid_key_free_clears_witness :
  sm2dh_mlkem768_hybrid_key_free (Some (mk_hybrid_key true (Some (repeat 1 1249)) (Some (repeat 2 2432)) None None))
  = Returns [repeat 0 1249; repeat 0 2432].
Proof.
  apply (proj1 (hybrid_key_free_clears
    (mk_hybrid_key true (Some (repeat 1 1249)) (Some (repeat 2 2432)) None None))).
  repeat split; vm_compute; reflexivity.
Defined.
