(* ===== verification/Zuc.v ===== *)
(** * ZUC, 128-EIA3 and 128-EEA3

    [crypto/zuc/zuc.c]: the shift register, bit reorganisation, nonlinear
    function and the eight-byte keystream buffer with the four bytes that
    straddle two fillings; [crypto/eia3/eia3.c]: the incremental MAC;
    [providers/implementations/ciphers/cipher_zuc_eea3_hw.c]: setting key and
    vector of the cipher, and enciphering a piece of the stream. *)

From S2P Require Import Prelude Buffers.

Definition S0 : list Z :=
  [0x3E; 0x72; 0x5B; 0x47; 0xCA; 0xE0; 0x00; 0x33; 0x04; 0xD1; 0x54; 0x98; 0x09; 0xB9; 0x6D; 0xCB;
   0x7B; 0x1B; 0xF9; 0x32; 0xAF; 0x9D; 0x6A; 0xA5; 0xB8; 0x2D; 0xFC; 0x1D; 0x08; 0x53; 0x03; 0x90;
   0x4D; 0x4E; 0x84; 0x99; 0xE4; 0xCE; 0xD9; 0x91; 0xDD; 0xB6; 0x85; 0x48; 0x8B; 0x29; 0x6E; 0xAC;
   0xCD; 0xC1; 0xF8; 0x1E; 0x73; 0x43; 0x69; 0xC6; 0xB5; 0xBD; 0xFD; 0x39; 0x63; 0x20; 0xD4; 0x38;
   0x76; 0x7D; 0xB2; 0xA7; 0xCF; 0xED; 0x57; 0xC5; 0xF3; 0x2C; 0xBB; 0x14; 0x21; 0x06; 0x55; 0x9B;
   0xE3; 0xEF; 0x5E; 0x31; 0x4F; 0x7F; 0x5A; 0xA4; 0x0D; 0x82; 0x51; 0x49; 0x5F; 0xBA; 0x58; 0x1C;
   0x4A; 0x16; 0xD5; 0x17; 0xA8; 0x92; 0x24; 0x1F; 0x8C; 0xFF; 0xD8; 0xAE; 0x2E; 0x01; 0xD3; 0xAD;
   0x3B; 0x4B; 0xDA; 0x46; 0xEB; 0xC9; 0xDE; 0x9A; 0x8F; 0x87; 0xD7; 0x3A; 0x80; 0x6F; 0x2F; 0xC8;
   0xB1; 0xB4; 0x37; 0xF7; 0x0A; 0x22; 0x13; 0x28; 0x7C; 0xCC; 0x3C; 0x89; 0xC7; 0xC3; 0x96; 0x56;
   0x07; 0xBF; 0x7E; 0xF0; 0x0B; 0x2B; 0x97; 0x52; 0x35; 0x41; 0x79; 0x61; 0xA6; 0x4C; 0x10; 0xFE;
   0xBC; 0x26; 0x95; 0x88; 0x8A; 0xB0; 0xA3; 0xFB; 0xC0; 0x18; 0x94; 0xF2; 0xE1; 0xE5; 0xE9; 0x5D;
   0xD0; 0xDC; 0x11; 0x66; 0x64; 0x5C; 0xEC; 0x59; 0x42; 0x75; 0x12; 0xF5; 0x74; 0x9C; 0xAA; 0x23;
   0x0E; 0x86; 0xAB; 0xBE; 0x2A; 0x02; 0xE7; 0x67; 0xE6; 0x44; 0xA2; 0x6C; 0xC2; 0x93; 0x9F; 0xF1;
   0xF6; 0xFA; 0x36; 0xD2; 0x50; 0x68; 0x9E; 0x62; 0x71; 0x15; 0x3D; 0xD6; 0x40; 0xC4; 0xE2; 0x0F;
   0x8E; 0x83; 0x77; 0x6B; 0x25; 0x05; 0x3F; 0x0C; 0x30; 0xEA; 0x70; 0xB7; 0xA1; 0xE8; 0xA9; 0x65;
   0x8D; 0x27; 0x1A; 0xDB; 0x81; 0xB3; 0xA0; 0xF4; 0x45; 0x7A; 0x19; 0xDF; 0xEE; 0x78; 0x34; 0x60].

Definition S1 : list Z :=
  [0x55; 0xC2; 0x63; 0x71; 0x3B; 0xC8; 0x47; 0x86; 0x9F; 0x3C; 0xDA; 0x5B; 0x29; 0xAA; 0xFD; 0x77;
   0x8C; 0xC5; 0x94; 0x0C; 0xA6; 0x1A; 0x13; 0x00; 0xE3; 0xA8; 0x16; 0x72; 0x40; 0xF9; 0xF8; 0x42;
   0x44; 0x26; 0x68; 0x96; 0x81; 0xD9; 0x45; 0x3E; 0x10; 0x76; 0xC6; 0xA7; 0x8B; 0x39; 0x43; 0xE1;
   0x3A; 0xB5; 0x56; 0x2A; 0xC0; 0x6D; 0xB3; 0x05; 0x22; 0x66; 0xBF; 0xDC; 0x0B; 0xFA; 0x62; 0x48;
   0xDD; 0x20; 0x11; 0x06; 0x36; 0xC9; 0xC1; 0xCF; 0xF6; 0x27; 0x52; 0xBB; 0x69; 0xF5; 0xD4; 0x87;
   0x7F; 0x84; 0x4C; 0xD2; 0x9C; 0x57; 0xA4; 0xBC; 0x4F; 0x9A; 0xDF; 0xFE; 0xD6; 0x8D; 0x7A; 0xEB;
   0x2B; 0x53; 0xD8; 0x5C; 0xA1; 0x14; 0x17; 0xFB; 0x23; 0xD5; 0x7D; 0x30; 0x67; 0x73; 0x08; 0x09;
   0xEE; 0xB7; 0x70; 0x3F; 0x61; 0xB2; 0x19; 0x8E; 0x4E; 0xE5; 0x4B; 0x93; 0x8F; 0x5D; 0xDB; 0xA9;
   0xAD; 0xF1; 0xAE; 0x2E; 0xCB; 0x0D; 0xFC; 0xF4; 0x2D; 0x46; 0x6E; 0x1D; 0x97; 0xE8; 0xD1; 0xE9;
   0x4D; 0x37; 0xA5; 0x75; 0x5E; 0x83; 0x9E; 0xAB; 0x82; 0x9D; 0xB9; 0x1C; 0xE0; 0xCD; 0x49; 0x89;
   0x01; 0xB6; 0xBD; 0x58; 0x24; 0xA2; 0x5F; 0x38; 0x78; 0x99; 0x15; 0x90; 0x50; 0xB8; 0x95; 0xE4;
   0xD0; 0x91; 0xC7; 0xCE; 0xED; 0x0F; 0xB4; 0x6F; 0xA0; 0xCC; 0xF0; 0x02; 0x4A; 0x79; 0xC3; 0xDE;
   0xA3; 0xEF; 0xEA; 0x51; 0xE6; 0x6B; 0x18; 0xEC; 0x1B; 0x2C; 0x80; 0xF7; 0x74; 0xE7; 0xFF; 0x21;
   0x5A; 0x6A; 0x54; 0x1E; 0x41; 0x31; 0x92; 0x35; 0xC4; 0x33; 0x07; 0x0A; 0xBA; 0x7E; 0x0E; 0x34;
   0x88; 0xB1; 0x98; 0x7C; 0xF3; 0x3D; 0x60; 0x6C; 0x7B; 0xCA; 0xD3; 0x1F; 0x32; 0x65; 0x04; 0x28;
   0x64; 0xBE; 0x85; 0x9B; 0x2F; 0x59; 0x8A; 0xD7; 0xB0; 0x25; 0xAC; 0xAF; 0x12; 0x03; 0xE2; 0xF2].

Definition D : list Z :=
  [0x44D7; 0x26BC; 0x626B; 0x135E; 0x5789; 0x35E2; 0x7135; 0x09AF;
   0x4D78; 0x2F13; 0x6BC4; 0x1AF1; 0x5E26; 0x3C4D; 0x789A; 0x47AC].

(** ** The shift register *)

Definition modular_add (a b : Z) : Z :=
  let c := u32 (a + b) in u32 (Z.land c 0x7FFFFFFF + Z.shiftr c 31).

Definition mulp2 (a b : Z) : Z :=
  Z.land (Z.lor (u32 (Z.shiftl a b)) (Z.shiftr a (31 - b))) 0x7FFFFFFF.

(** [ZUC_KEY]: the cells [s0] to [s15] are a list. *)
Record ZUC_KEY := mk_zuc {
  zs : list Z;
  X0 : Z; X1 : Z; X2 : Z; X3 : Z;
  ZR1 : Z; ZR2 : Z;
  zk_k : list Z;
  zk_iv : list Z;
  keystream : list Z;        (** 8 bytes *)
  keystream_tail : list Z;   (** 8 bytes *)
  keystream_len : Z;
  zk_L : Z;
  inited : bool }.

Definition set_cells (s : list Z) (zk : ZUC_KEY) : ZUC_KEY :=
  mk_zuc s (X0 zk) (X1 zk) (X2 zk) (X3 zk) (ZR1 zk) (ZR2 zk) (zk_k zk) (zk_iv zk)
    (keystream zk) (keystream_tail zk) (keystream_len zk) (zk_L zk) (inited zk).

(** The sixteen assignments [s0 = s1; ...; s15 = s16]. *)
Definition shift_in (s : list Z) (s16 : Z) : list Z := drop 1 s ++ [s16].

Definition zuc_lfsr_init_mode (zk : ZUC_KEY) (u : Z) : ZUC_KEY :=
  let s i := get (zs zk) i in
  let v := mulp2 (s 15%nat) 15 in
  let tmp := mulp2 (s 13%nat) 17 in
  let v := modular_add tmp v in
  let tmp := mulp2 (s 10%nat) 21 in
  let v := modular_add tmp v in
  let tmp := mulp2 (s 4%nat) 20 in
  let v := modular_add tmp v in
  let tmp := mulp2 (s 0%nat) 8 in
  let v := modular_add tmp v in
  let v := modular_add (s 0%nat) v in
  let s16 := modular_add v u in
  set_cells (shift_in (zs zk) s16) zk.

Definition zuc_lfsr_work_mode (zk : ZUC_KEY) : ZUC_KEY :=
  let s i := get (zs zk) i in
  let s16 := s 0%nat in
  let tmp := mulp2 (s 0%nat) 8 in
  let s16 := modular_add s16 tmp in
  let tmp := mulp2 (s 4%nat) 20 in
  let s16 := modular_add s16 tmp in
  let tmp := mulp2 (s 10%nat) 21 in
  let s16 := modular_add s16 tmp in
  let tmp := mulp2 (s 13%nat) 17 in
  let s16 := modular_add s16 tmp in
  let tmp := mulp2 (s 15%nat) 15 in
  let s16 := modular_add s16 tmp in
  set_cells (shift_in (zs zk) s16) zk.

(** ** Bit reorganisation and the nonlinear function *)

Definition zuc_br (zk : ZUC_KEY) : ZUC_KEY :=
  let s i := get (zs zk) i in
  let half a b := Z.lor (u32 (Z.shiftl (Z.land a 0xFFFF) 16)) (Z.shiftr b 15) in
  mk_zuc (zs zk)
    (Z.lor (u32 (Z.shiftl (Z.land (s 15%nat) 0x7FFF8000) 1)) (Z.land (s 14%nat) 0xFFFF))
    (half (s 11%nat) (s 9%nat)) (half (s 7%nat) (s 5%nat)) (half (s 2%nat) (s 0%nat))
    (ZR1 zk) (ZR2 zk) (zk_k zk) (zk_iv zk) (keystream zk) (keystream_tail zk)
    (keystream_len zk) (zk_L zk) (inited zk).

Definition L1 (X : Z) : Z :=
  Z.lxor (Z.lxor (Z.lxor (Z.lxor X (rotl X 2)) (rotl X 10)) (rotl X 18)) (rotl X 24).
Definition L2 (X : Z) : Z :=
  Z.lxor (Z.lxor (Z.lxor (Z.lxor X (rotl X 8)) (rotl X 14)) (rotl X 22)) (rotl X 30).

Definition MAKEU32 (a b c d : Z) : Z :=
  Z.lor (Z.lor (Z.lor (u32 (Z.shiftl a 24)) (u32 (Z.shiftl b 16))) (u32 (Z.shiftl c 8))) d.

(** The S-boxes on the four bytes of a word. *)
Definition zuc_sub (u : Z) : Z :=
  MAKEU32 (get S0 (Z.to_nat (Z.shiftr u 24))) (get S1 (Z.to_nat (Z.land (Z.shiftr u 16) 0xFF)))
    (get S0 (Z.to_nat (Z.land (Z.shiftr u 8) 0xFF))) (get S1 (Z.to_nat (Z.land u 0xFF))).

Definition zuc_f_function (zk : ZUC_KEY) : Z * ZUC_KEY :=
  let W := u32 (Z.lxor (X0 zk) (ZR1 zk) + ZR2 zk) in
  let W1 := u32 (ZR1 zk + X1 zk) in
  let W2 := Z.lxor (ZR2 zk) (X2 zk) in
  let u := L1 (Z.lor (u32 (Z.shiftl W1 16)) (Z.shiftr W2 16)) in
  let v := L2 (Z.lor (u32 (Z.shiftl W2 16)) (Z.shiftr W1 16)) in
  (W, mk_zuc (zs zk) (X0 zk) (X1 zk) (X2 zk) (X3 zk) (zuc_sub u) (zuc_sub v) (zk_k zk) (zk_iv zk)
        (keystream zk) (keystream_tail zk) (keystream_len zk) (zk_L zk) (inited zk)).

(** ** Initialisation and keystream *)

Definition MAKEU31 (a b c : Z) : Z := Z.lor (Z.lor (u32 (Z.shiftl a 23)) (u32 (Z.shiftl b 8))) c.

Fixpoint zuc_init_rounds (count : nat) (zk : ZUC_KEY) : ZUC_KEY :=
  match count with
  | O => zk
  | S count =>
      let zk := zuc_br zk in
      let '(w, zk) := zuc_f_function zk in
      zuc_init_rounds count (zuc_lfsr_init_mode zk (Z.shiftr w 1))
  end.

Definition ZUC_init (zk : ZUC_KEY) : ZUC_KEY :=
  if inited zk then zk
  else
    let cells := map (fun i => MAKEU31 (get (zk_k zk) i) (get D i) (get (zk_iv zk) i)) (seq 0 16) in
    let zk := mk_zuc cells (X0 zk) (X1 zk) (X2 zk) (X3 zk) 0 0 (zk_k zk) (zk_iv zk)
                (keystream zk) (keystream_tail zk) (keystream_len zk) (zk_L zk) false in
    let zk := zuc_init_rounds 32 zk in
    let zk := zuc_br zk in
    let '(_, zk) := zuc_f_function zk in
    let zk := zuc_lfsr_work_mode zk in
    mk_zuc (zs zk) (X0 zk) (X1 zk) (X2 zk) (X3 zk) (ZR1 zk) (ZR2 zk) (zk_k zk) (zk_iv zk)
      (keystream zk) (keystream_tail zk) (keystream_len zk) (zk_L zk) true.

(** One word of keystream: the body of the loop up to its stores. *)
Definition zuc_next_word (zk : ZUC_KEY) : Z * ZUC_KEY :=
  let zk := zuc_br zk in
  let '(w, zk) := zuc_f_function zk in
  (Z.lxor w (X3 zk), zuc_lfsr_work_mode zk).

Definition word_bytes (w : Z) : list Z :=
  [Z.land (Z.shiftr w 24) 0xFF; Z.land (Z.shiftr w 16) 0xFF; Z.land (Z.shiftr w 8) 0xFF;
   Z.land w 0xFF].

(** [L] words; the stores fill the eight bytes of [keystream] in order. *)
Fixpoint zuc_words (n : nat) (zk : ZUC_KEY) : list Z * ZUC_KEY :=
  match n with
  | O => ([], zk)
  | S n =>
      let '(w, zk) := zuc_next_word zk in
      let '(b, zk) := zuc_words n zk in (word_bytes w ++ b, zk)
  end.

(** [sizeof(zk->keystream)] is 8, so that [L] is 2. *)
Definition ZUC_generate_keystream (zk : ZUC_KEY) : bool * ZUC_KEY :=
  if negb (inited zk) then (false, zk)
  else
    let L := (8 * 8 + 31) / 32 in
    let len := L * 4 in
    let old := drop (Z.to_nat (len - 4)) (keystream zk) in
    let '(ks, zk) := zuc_words (Z.to_nat L) zk in
    (true, mk_zuc (zs zk) (X0 zk) (X1 zk) (X2 zk) (X3 zk) (ZR1 zk) (ZR2 zk) (zk_k zk) (zk_iv zk)
             ks (take 4 old ++ take 4 ks) (u32 (keystream_len zk + len)) L (inited zk)).

(** The keystream word at bit [i], [0 <= i < 2^31] (the parameter is an [int]);
    the result is an [int] that every caller converts back to [uint32_t]. *)
Definition ZUC_keystream_get_word (zk : ZUC_KEY) (i : Z) : Z :=
  let j := i / 8 in
  let len := zk_L zk * 4 in
  let k := j mod len in
  let '(data, j) := if len <=? k + 4 then (keystream_tail zk, k + 4 - len) else (keystream zk, k) in
  let d n := get data (Z.to_nat (j + n)) in
  let ti := i mod 8 in
  if ti =? 0 then
    Z.lor (Z.lor (Z.lor (u32 (Z.shiftl (d 0) 24)) (u32 (Z.shiftl (d 1) 16)))
                 (u32 (Z.shiftl (d 2) 8))) (d 3)
  else
    let b n := Z.lor (u8 (Z.shiftl (d n) ti)) (u8 (Z.shiftr (d (n + 1)) (8 - ti))) in
    let word := u32 (Z.shiftl (b 0) 24) in
    let word := Z.lor word (u32 (Z.shiftl (b 1) 16)) in
    let word := Z.lor word (u32 (Z.shiftl (b 2) 8)) in
    Z.lor word (Z.lor (Z.shiftl (d 3) ti) (Z.shiftr (d 4) (8 - ti))).

Definition ZUC_keystream_get_byte (zk : ZUC_KEY) (i : Z) : Z :=
  get (keystream zk) (Z.to_nat (i mod (zk_L zk * 4))).

(** ** 128-EIA3 *)

Record EIA3_CTX := mk_eia3 {
  eia3_zk : ZUC_KEY;
  eia3_num : Z;
  eia3_length : Z;
  eia3_T : Z }.

Definition GET_BIT (data : list Z) (i : Z) : bool :=
  negb (Z.land (get data (Z.to_nat (i / 8))) (Z.shiftl 1 (7 - i mod 8)) =? 0).

(** The counter, bearer and direction of the five-byte [iv], spread over the
    sixteen bytes of ZUC's. *)
Definition eia3_iv (iv : option (list Z)) : list Z :=
  let count := match iv with
               | Some iv => u32 (Z.lor (Z.lor (Z.lor (Z.shiftl (get iv 0) 24) (Z.shiftl (get iv 1) 16))
                                              (Z.shiftl (get iv 2) 8)) (get iv 3))
               | None => 0
               end in
  let bearer := match iv with Some iv => Z.shiftr (Z.land (get iv 4) 0xF8) 3 | None => 0 end in
  let direction := match iv with Some iv => Z.shiftr (Z.land (get iv 4) 0x4) 2 | None => 0 end in
  let c0 := Z.land (Z.shiftr count 24) 0xFF in
  let c1 := Z.land (Z.shiftr count 16) 0xFF in
  let c2 := Z.land (Z.shiftr count 8) 0xFF in
  let c3 := Z.land count 0xFF in
  let b := Z.land (Z.shiftl bearer 3) 0xF8 in
  let d := u32 (Z.shiftl (Z.land direction 1) 7) in
  [c0; c1; c2; c3; b; 0; 0; 0; Z.lxor c0 d; c1; c2; c3; b; 0; Z.lxor 0 d; 0].

Definition EIA3_Init (key : list Z) (iv : option (list Z)) : EIA3_CTX :=
  mk_eia3 (ZUC_init (mk_zuc (repeat 0 16) 0 0 0 0 0 0 key (eia3_iv iv) (repeat 0 8) (repeat 0 8)
                       0 0 false)) 0 0 0.

(** [if (need) if (!ZUC_generate_keystream(zk)) return 0;] *)
Definition ensure (need : bool) (zk : ZUC_KEY) : bool * ZUC_KEY :=
  if need then ZUC_generate_keystream zk else (true, zk).

(** [n] passes of the loop of [EIA3_Update], from [i]; [num] is [ctx->num]. *)
Fixpoint eia3_bits (n : nat) (i num : Z) (inp : list Z) (T : Z) (zk : ZUC_KEY) :
  bool * Z * ZUC_KEY :=
  match n with
  | O => (true, T, zk)
  | S n =>
      let '(ok, zk) := ensure (keystream_len zk <=? num + i / 8 + 4) zk in
      if negb ok then (false, T, zk)
      else
        let T := if GET_BIT inp i then Z.lxor T (ZUC_keystream_get_word zk i) else T in
        eia3_bits n (i + 1) num inp T zk
  end.

Definition EIA3_Update (ctx : EIA3_CTX) (inp : list Z) : bool * EIA3_CTX :=
  let len := Z.of_nat (length inp) in
  let '(ok, T, zk) := eia3_bits (Z.to_nat (8 * len)) 0 (eia3_num ctx) inp (eia3_T ctx) (eia3_zk ctx) in
  if ok then (true, mk_eia3 zk (eia3_num ctx + len) (eia3_length ctx + 8 * len) T)
  else (false, mk_eia3 zk (eia3_num ctx) (eia3_length ctx) T).

(** [None] when the function returns without writing [out]. *)
Definition EIA3_Final (ctx : EIA3_CTX) : option (list Z) :=
  let L := (eia3_length ctx + 64 + 31) / 32 in
  let '(ok, zk) := ensure (keystream_len (eia3_zk ctx) <=? eia3_length ctx / 8 + 4) (eia3_zk ctx) in
  if negb ok then None
  else
    let T := Z.lxor (eia3_T ctx) (ZUC_keystream_get_word zk (eia3_length ctx)) in
    let last := (L - 1) * 32 in
    let '(ok, zk) := ensure (keystream_len zk <=? last / 8 + 4) zk in
    if negb ok then None
    else Some (store_u32_be (Z.lxor T (ZUC_keystream_get_word zk ((L - 1) * 32)))).

(** ** The 128-EEA3 cipher of the provider *)

(** The fields of [PROV_ZUC_EEA3_CTX] that the code uses: [iv_set], [oiv] and
    [num] of its base, the key pointer [zk->k] ([None] for [NULL]) and the rest
    of the [ZUC_KEY]. *)
Record PROV_ZUC_EEA3_CTX := mk_eea3 {
  eea3_iv_set : bool;
  eea3_oiv : list Z;
  eea3_num : Z;
  eea3_k : option (list Z);
  eea3_ks : ZUC_KEY }.

Definition eea3_iv (iv : list Z) : list Z :=
  let count := u32 (Z.lor (Z.lor (Z.lor (Z.shiftl (get iv 0) 24) (Z.shiftl (get iv 1) 16))
                                 (Z.shiftl (get iv 2) 8)) (get iv 3)) in
  let bearer := Z.shiftr (Z.land (get iv 4) 0xF8) 3 in
  let direction := Z.shiftr (Z.land (get iv 4) 0x4) 2 in
  let c0 := Z.land (Z.shiftr count 24) 0xFF in
  let c1 := Z.land (Z.shiftr count 16) 0xFF in
  let c2 := Z.land (Z.shiftr count 8) 0xFF in
  let c3 := Z.land count 0xFF in
  let b := Z.land (Z.lor (u32 (Z.shiftl bearer 3)) (u32 (Z.shiftl (Z.land direction 1) 2))) 0xFC in
  [c0; c1; c2; c3; b; 0; 0; 0; c0; c1; c2; c3; b; 0; 0; 0].

Definition zuc_128_eea3_initiv (ctx : PROV_ZUC_EEA3_CTX) : bool * PROV_ZUC_EEA3_CTX :=
  match eea3_iv_set ctx, eea3_k ctx with
  | true, Some k =>
      let zk := eea3_ks ctx in
      let zk := mk_zuc (zs zk) (X0 zk) (X1 zk) (X2 zk) (X3 zk) (ZR1 zk) (ZR2 zk) k
                  (eea3_iv (eea3_oiv ctx)) (keystream zk) (keystream_tail zk) 0 (zk_L zk) false in
      (true, mk_eea3 true (eea3_oiv ctx) (eea3_num ctx) (Some k) (ZUC_init zk))
  | _, _ => (false, ctx)
  end.

(** The result of [zuc_128_eea3_initiv] is ignored. *)
Definition zuc_128_eea3_initkey (ctx : PROV_ZUC_EEA3_CTX) (key : option (list Z)) :
  bool * PROV_ZUC_EEA3_CTX :=
  let ctx := mk_eea3 (eea3_iv_set ctx) (eea3_oiv ctx) (eea3_num ctx) key (eea3_ks ctx) in
  (true, snd (zuc_128_eea3_initiv ctx)).

(** The loop, from index [i] of [in]: the bytes written and the key. *)
Fixpoint eea3_loop (inp : list Z) (i num n : Z) (zk : ZUC_KEY) : bool * list Z * ZUC_KEY :=
  match inp with
  | [] => (true, [], zk)
  | b :: inp =>
      let k := u32 (num + i) in
      let '(ok, zk) := ensure (keystream_len zk <=? k) zk in
      if negb ok then (false, [], zk)
      else
        let o := Z.lxor b (get (keystream zk) (Z.to_nat (k mod n))) in
        let '(ok, out, zk) := eea3_loop inp (i + 1) num n zk in (ok, o :: out, zk)
  end.

Definition zuc_128_eea3_cipher (ctx : PROV_ZUC_EEA3_CTX) (inp : list Z) :
  bool * list Z * PROV_ZUC_EEA3_CTX :=
  let set zk num := mk_eea3 (eea3_iv_set ctx) (eea3_oiv ctx) num (eea3_k ctx) zk in
  let num := eea3_num ctx in
  let '(ok, zk) := ensure (keystream_len (eea3_ks ctx) <=? num) (eea3_ks ctx) in
  if negb ok then (false, [], set zk num)
  else
    let n := zk_L zk * 4 in
    let '(ok, out, zk) := eea3_loop inp 0 num n zk in
    if ok then (true, out, set zk (u32 (num + Z.of_nat (length inp)))) else (false, out, set zk num).
