(* ===== verification/ZucSpec.v ===== *)
(** * ZUC against its specification

    The register of ZUC works modulo 2^31 - 1 with representatives from 1 to
    2^31 - 1, and the keystream buffer delivers the 32 keystream bits at any
    position of its window. *)

From S2P Require Import Prelude Buffers Zuc.

(** ** Arithmetic modulo [2^31 - 1] *)

Definition zp : Z := 2 ^ 31 - 1.

(** A cell of the register: the representative of 0 is [zp]. *)
Definition is_cell (x : Z) : Prop := 1 <= x <= zp.
Definition rep (v : Z) : Z := if v mod zp =? 0 then zp else v mod zp.

Lemma rep_cell v : is_cell (rep v).
Proof.
  unfold rep, is_cell, zp. pose proof (Z.mod_pos_bound v (2 ^ 31 - 1) ltac:(easy)).
  destruct (Z.eqb_spec (v mod (2 ^ 31 - 1)) 0); pow2; lia.
Qed.

Lemma rep_unique x v : is_cell x -> x ≡ v [mod zp] -> x = rep v.
Proof.
  unfold is_cell, rep, cong. intros Hx <-. destruct (Z.eqb_spec (x mod zp) 0) as [E | E].
  - apply Z.mod_divide in E as [k Hk]; [| easy]. unfold zp in *. pow2. nia.
  - rewrite Z.mod_small; [reflexivity |]. split; [lia |].
    destruct (Z.eq_dec x zp) as [-> | ]; [now rewrite Z_mod_same_full in E | lia].
Qed.

Lemma land_31 x : Z.land x 0x7FFFFFFF = x mod 2 ^ 31.
Proof. change 0x7FFFFFFF with (Z.ones 31). now apply Z.land_ones. Qed.

Lemma modular_add_spec a b :
  0 <= a <= zp -> 0 <= b <= zp -> 1 <= a + b ->
  is_cell (modular_add a b) /\ modular_add a b ≡ a + b [mod zp].
Proof.
  intros Ha Hb Hab. unfold modular_add, is_cell.
  assert (Hc : u32 (a + b) = a + b) by (apply u32_small; unfold zp in *; pow2; lia).
  rewrite Hc, land_31, Z.shiftr_div_pow2 by easy.
  assert (Hs : 1 <= (a + b) mod 2 ^ 31 + (a + b) / 2 ^ 31 <= zp) by (unfold zp in *; zdm; pow2; lia).
  rewrite u32_small by (unfold zp in *; pow2; lia). split; [exact Hs |].
  apply cong_exists with (- ((a + b) / 2 ^ 31)). unfold zp. zdm; pow2; lia.
Qed.

(** [mulp2] rotates 31 bits. *)
Lemma mulp2_value a b :
  0 <= a < 2 ^ 31 -> 0 < b < 31 ->
  mulp2 a b = (a mod 2 ^ (31 - b)) * 2 ^ b + a / 2 ^ (31 - b).
Proof.
  intros Ha Hb. unfold mulp2. rewrite land_31.
  assert (Hp : 2 ^ 31 = 2 ^ (31 - b) * 2 ^ b) by (rewrite <- Z.pow_add_r by lia; f_equal; lia).
  assert (0 < 2 ^ b) by (apply Z.pow_pos_nonneg; lia).
  assert (0 < 2 ^ (31 - b)) by (apply Z.pow_pos_nonneg; lia).
  assert (Hq : 0 <= a / 2 ^ (31 - b) < 2 ^ b)
    by (split; [apply Z.div_pos; lia | apply Z.div_lt_upper_bound; lia]).
  pose proof (Z.mod_pos_bound a (2 ^ (31 - b)) ltac:(lia)) as Hr.
  rewrite <- (Z.mod_small (_ + _) (2 ^ 31)) by nia.
  rewrite (Z.add_comm (_ * _)), (Z.mul_comm (_ mod _)), <- lor_shiftl_add by lia.
  apply Z.bits_inj'. intros i Hi. destruct (Z.lt_ge_cases i 31) as [Hl | Hl].
  - rewrite !(Z.mod_pow2_bits_low _ 31), !Z.lor_spec by lia. rewrite Z.shiftr_div_pow2 by lia.
    rewrite orb_comm. f_equal. rewrite u32_testbit by easy.
    replace (i <? 32) with true by (symmetry; apply Z.ltb_lt; lia). cbn [andb].
    rewrite !Z.shiftl_spec by easy. destruct (Z.lt_ge_cases i b).
    + now rewrite !Z.testbit_neg_r by lia.
    + now rewrite Z.mod_pow2_bits_low by lia.
  - now rewrite !Z.mod_pow2_bits_high by lia.
Qed.

Lemma mulp2_spec a b :
  is_cell a -> 0 < b < 31 -> is_cell (mulp2 a b) /\ mulp2 a b ≡ a * 2 ^ b [mod zp].
Proof.
  intros Ha Hb. unfold is_cell, zp in *. rewrite mulp2_value by (pow2; lia).
  assert (Hp : 2 ^ 31 = 2 ^ (31 - b) * 2 ^ b) by (rewrite <- Z.pow_add_r by lia; f_equal; lia).
  assert (0 < 2 ^ b) by (apply Z.pow_pos_nonneg; lia).
  assert (0 < 2 ^ (31 - b)) by (apply Z.pow_pos_nonneg; lia).
  pose proof (Z.mod_pos_bound a (2 ^ (31 - b)) ltac:(lia)) as Hr.
  pose proof (Z.div_mod a (2 ^ (31 - b)) ltac:(lia)) as Hd.
  assert (Hq : 0 <= a / 2 ^ (31 - b) < 2 ^ b)
    by (split; [apply Z.div_pos; lia | apply Z.div_lt_upper_bound; lia]).
  set (q := a / 2 ^ (31 - b)) in *. set (r := a mod 2 ^ (31 - b)) in *. clearbody q r.
  split; [| apply cong_exists with (- q); rewrite Hd; rewrite Hp in *; nia].
  split; [nia |].
  (* not all 31 bits and more *)
  assert (r * 2 ^ b + q <= (2 ^ (31 - b) - 1) * 2 ^ b + (2 ^ b - 1)) by nia. nia.
Qed.

(** ** The register *)

Definition cells_ok (s : list Z) : Prop := length s = 16%nat /\ Forall is_cell s.

(** The feedback of the specification. *)
Definition feedback (s : list Z) (u : Z) : Z :=
  rep (2 ^ 15 * get s 15 + 2 ^ 17 * get s 13 + 2 ^ 21 * get s 10 + 2 ^ 20 * get s 4
       + (1 + 2 ^ 8) * get s 0 + u).

Lemma cell_at s i : cells_ok s -> (i < 16)%nat -> is_cell (get s i).
Proof. intros [Hl HF] Hi. apply (get_Forall is_cell); [exact HF | lia]. Qed.

Lemma shift_in_ok s v : cells_ok s -> is_cell v -> cells_ok (shift_in s v).
Proof.
  intros [Hl HF] Hv. unfold shift_in. split; [rewrite length_app, length_drop; cbn; lia |].
  apply Forall_app. split; [now apply Forall_drop | now constructor].
Qed.

(** Add a cell to a sum that is already a cell. *)
Lemma add_cells a b va vb :
  is_cell a /\ a ≡ va [mod zp] -> is_cell b /\ b ≡ vb [mod zp] ->
  is_cell (modular_add a b) /\ modular_add a b ≡ va + vb [mod zp].
Proof.
  intros [Ha Ea] [Hb Eb]. unfold is_cell in Ha, Hb.
  destruct (modular_add_spec a b ltac:(lia) ltac:(lia) ltac:(lia)) as [H1 H2].
  split; [exact H1 |]. now rewrite H2, Ea, Eb.
Qed.

Lemma add_input a u va :
  is_cell a /\ a ≡ va [mod zp] -> 0 <= u <= zp ->
  is_cell (modular_add a u) /\ modular_add a u ≡ va + u [mod zp].
Proof.
  intros [Ha Ea] Hu. unfold is_cell in Ha.
  destruct (modular_add_spec a u ltac:(lia) Hu ltac:(lia)) as [H1 H2].
  split; [exact H1 |]. now rewrite H2, Ea.
Qed.

Lemma work_mode_spec zk :
  cells_ok (zs zk) ->
  zuc_lfsr_work_mode zk = set_cells (shift_in (zs zk) (feedback (zs zk) 0)) zk.
Proof.
  intros H. unfold zuc_lfsr_work_mode. do 2 f_equal. unfold feedback.
  assert (M : forall i b, (i < 16)%nat -> 0 < b < 31 ->
    is_cell (mulp2 (get (zs zk) i) b) /\ mulp2 (get (zs zk) i) b ≡ get (zs zk) i * 2 ^ b [mod zp])
    by (intros; apply mulp2_spec; [now apply cell_at | easy]).
  assert (M0 : is_cell (get (zs zk) 0) /\ get (zs zk) 0 ≡ get (zs zk) 0 [mod zp])
    by (split; [apply cell_at; [easy | lia] | reflexivity]).
  pose proof (add_cells _ _ _ _ M0 (M 0%nat 8 ltac:(lia) ltac:(lia))) as A1.
  pose proof (add_cells _ _ _ _ A1 (M 4%nat 20 ltac:(lia) ltac:(lia))) as A2.
  pose proof (add_cells _ _ _ _ A2 (M 10%nat 21 ltac:(lia) ltac:(lia))) as A3.
  pose proof (add_cells _ _ _ _ A3 (M 13%nat 17 ltac:(lia) ltac:(lia))) as A4.
  pose proof (add_cells _ _ _ _ A4 (M 15%nat 15 ltac:(lia) ltac:(lia))) as [A5 E5].
  apply rep_unique; [exact A5 |]. rewrite E5. apply cong_of_eq. ring.
Qed.

Lemma init_mode_spec zk u :
  cells_ok (zs zk) -> 0 <= u <= zp ->
  zuc_lfsr_init_mode zk u = set_cells (shift_in (zs zk) (feedback (zs zk) u)) zk.
Proof.
  intros H Hu. unfold zuc_lfsr_init_mode. do 2 f_equal. unfold feedback.
  assert (M : forall i b, (i < 16)%nat -> 0 < b < 31 ->
    is_cell (mulp2 (get (zs zk) i) b) /\ mulp2 (get (zs zk) i) b ≡ get (zs zk) i * 2 ^ b [mod zp])
    by (intros; apply mulp2_spec; [now apply cell_at | easy]).
  assert (M0 : is_cell (get (zs zk) 0) /\ get (zs zk) 0 ≡ get (zs zk) 0 [mod zp])
    by (split; [apply cell_at; [easy | lia] | reflexivity]).
  pose proof (add_cells _ _ _ _ (M 13%nat 17 ltac:(lia) ltac:(lia)) (M 15%nat 15 ltac:(lia) ltac:(lia))) as A1.
  pose proof (add_cells _ _ _ _ (M 10%nat 21 ltac:(lia) ltac:(lia)) A1) as A2.
  pose proof (add_cells _ _ _ _ (M 4%nat 20 ltac:(lia) ltac:(lia)) A2) as A3.
  pose proof (add_cells _ _ _ _ (M 0%nat 8 ltac:(lia) ltac:(lia)) A3) as A4.
  pose proof (add_cells _ _ _ _ M0 A4) as A5. pose proof (add_input _ u _ A5 Hu) as [A6 E6].
  apply rep_unique; [exact A6 |]. rewrite E6. apply cong_of_eq. ring.
Qed.

(** ** The generator of the specification

    The state is the register and the two cells of the nonlinear function. *)

Record zstate := mk_zstate { cells : list Z; r1 : Z; r2 : Z }.

Definition hi (x : Z) : Z := x / 2 ^ 15.
Definition lo (x : Z) : Z := x mod 2 ^ 16.
Definition bx0 (s : list Z) : Z := 2 ^ 16 * hi (get s 15) + lo (get s 14).
Definition bx1 (s : list Z) : Z := 2 ^ 16 * lo (get s 11) + hi (get s 9).
Definition bx2 (s : list Z) : Z := 2 ^ 16 * lo (get s 7) + hi (get s 5).
Definition bx3 (s : list Z) : Z := 2 ^ 16 * lo (get s 2) + hi (get s 0).

(** The output [W] and the next cells of the nonlinear function: [W1] and [W2]
    are cut in halves and crossed. *)
Definition fw (st : zstate) : Z := (Z.lxor (bx0 (cells st)) (r1 st) + r2 st) mod 2 ^ 32.
Definition fr (st : zstate) : Z * Z :=
  let w1 := (r1 st + bx1 (cells st)) mod 2 ^ 32 in
  let w2 := Z.lxor (r2 st) (bx2 (cells st)) in
  (zuc_sub (L1 (2 ^ 16 * (w1 mod 2 ^ 16) + w2 / 2 ^ 16)),
   zuc_sub (L2 (2 ^ 16 * (w2 mod 2 ^ 16) + w1 / 2 ^ 16))).

Definition clock (u : Z) (st : zstate) : zstate :=
  mk_zstate (shift_in (cells st) (feedback (cells st) u)) (fst (fr st)) (snd (fr st)).
Definition init_round (st : zstate) : zstate := clock (fw st / 2) st.
Definition work_round (st : zstate) : zstate := clock 0 st.

Definition load_state (key iv : list Z) : zstate :=
  mk_zstate (map (fun i => 2 ^ 23 * get key i + 2 ^ 8 * get D i + get iv i) (seq 0 16)) 0 0.

Definition zuc_start (key iv : list Z) : zstate :=
  work_round (Nat.iter 32 init_round (load_state key iv)).

(** Word [n] of the keystream. *)
Definition zword (st : zstate) (n : nat) : Z :=
  let st := Nat.iter n work_round st in Z.lxor (fw st) (bx3 (cells st)).

(** ** The code follows the specification *)

Definition zabs (zk : ZUC_KEY) : zstate := mk_zstate (zs zk) (ZR1 zk) (ZR2 zk).
Definition zstate_ok (st : zstate) : Prop := cells_ok (cells st) /\ is_u32 (r1 st) /\ is_u32 (r2 st).

Lemma half_value a b : is_cell a -> is_cell b ->
  Z.lor (u32 (Z.shiftl (Z.land a 0xFFFF) 16)) (Z.shiftr b 15) = 2 ^ 16 * lo a + hi b.
Proof.
  unfold is_cell, zp, lo, hi. intros Ha Hb. change 0xFFFF with (Z.ones 16).
  rewrite Z.land_ones, Z.shiftr_div_pow2 by easy.
  pose proof (Z.mod_pos_bound a (2 ^ 16) ltac:(easy)).
  rewrite u32_small by (rewrite Z.shiftl_mul_pow2 by easy; pow2; lia).
  rewrite Z.lor_comm, lor_shiftl_add; [lia | easy |]. zdm; pow2; lia.
Qed.

Lemma top_value a b : is_cell a ->
  Z.lor (u32 (Z.shiftl (Z.land a 0x7FFF8000) 1)) (Z.land b 0xFFFF) = 2 ^ 16 * hi a + lo b.
Proof.
  unfold is_cell, zp, lo, hi. intros Ha.
  replace (Z.land a 0x7FFF8000) with (Z.shiftl (a / 2 ^ 15) 15).
  - change 0xFFFF with (Z.ones 16). rewrite Z.land_ones by easy.
    rewrite Z.shiftl_shiftl by easy. cbn [Z.add Pos.add Pos.succ].
    rewrite u32_small by (rewrite Z.shiftl_mul_pow2 by easy; zdm; pow2; lia).
    rewrite Z.lor_comm, lor_shiftl_add; [lia | easy |]. apply Z.mod_pos_bound. easy.
  - change 0x7FFF8000 with (Z.shiftl (Z.ones 16) 15). apply Z.bits_inj'. intros i Hi.
    rewrite Z.land_spec, !Z.shiftl_spec by easy. rewrite <- Z.shiftr_div_pow2 by easy.
    destruct (Z.lt_ge_cases i 15) as [H | H].
    + rewrite !(Z.testbit_neg_r _ (i - 15)) by lia. now rewrite andb_false_r.
    + rewrite Z.shiftr_spec by lia. replace (i - 15 + 15) with i by lia.
      destruct (Z.lt_ge_cases i 31).
      * rewrite Z.ones_spec_low by lia. now rewrite andb_true_r.
      * rewrite (testbit_high a 31) by (pow2; lia). reflexivity.
Qed.

Lemma zuc_br_spec zk :
  cells_ok (zs zk) ->
  zuc_br zk = mk_zuc (zs zk) (bx0 (zs zk)) (bx1 (zs zk)) (bx2 (zs zk)) (bx3 (zs zk))
    (ZR1 zk) (ZR2 zk) (zk_k zk) (zk_iv zk) (keystream zk) (keystream_tail zk)
    (keystream_len zk) (zk_L zk) (inited zk).
Proof.
  intros H. unfold zuc_br.
  rewrite top_value by (apply cell_at; [easy | lia]).
  rewrite !half_value by (apply cell_at; [easy | lia]). reflexivity.
Qed.

Lemma bx_range s : cells_ok s ->
  is_u32 (bx0 s) /\ is_u32 (bx1 s) /\ is_u32 (bx2 s) /\ is_u32 (bx3 s).
Proof.
  intros H. assert (B : forall i, (i < 16)%nat -> 0 <= hi (get s i) < 2 ^ 16 /\ 0 <= lo (get s i) < 2 ^ 16).
  { intros i Hi. pose proof (cell_at s i H Hi). unfold is_cell, zp, hi, lo in *. zdm; pow2; lia. }
  unfold bx0, bx1, bx2, bx3, is_u32.
  pose proof (B 15%nat ltac:(lia)). pose proof (B 14%nat ltac:(lia)). pose proof (B 11%nat ltac:(lia)).
  pose proof (B 9%nat ltac:(lia)). pose proof (B 7%nat ltac:(lia)). pose proof (B 5%nat ltac:(lia)).
  pose proof (B 2%nat ltac:(lia)). pose proof (B 0%nat ltac:(lia)). pow2. lia.
Qed.

Lemma cross_value a b : is_u32 a -> is_u32 b ->
  Z.lor (u32 (Z.shiftl a 16)) (Z.shiftr b 16) = 2 ^ 16 * (a mod 2 ^ 16) + b / 2 ^ 16.
Proof.
  unfold is_u32. intros Ha Hb.
  replace (u32 (Z.shiftl a 16)) with (Z.shiftl (a mod 2 ^ 16) 16)
    by (unfold u32; rewrite !Z.shiftl_mul_pow2 by easy; zdm; pow2; lia).
  rewrite Z.shiftr_div_pow2, Z.lor_comm, lor_shiftl_add; [lia | easy | | easy]. zdm; pow2; lia.
Qed.

(** [zuc_br] followed by [zuc_f_function]. *)
Lemma zuc_f_spec zk :
  zstate_ok (zabs zk) ->
  zuc_f_function (zuc_br zk) =
    (fw (zabs zk),
     mk_zuc (zs zk) (bx0 (zs zk)) (bx1 (zs zk)) (bx2 (zs zk)) (bx3 (zs zk))
       (fst (fr (zabs zk))) (snd (fr (zabs zk))) (zk_k zk) (zk_iv zk) (keystream zk)
       (keystream_tail zk) (keystream_len zk) (zk_L zk) (inited zk)).
Proof.
  intros (Hc & H1 & H2). cbn [zabs cells r1 r2] in *. pose proof (bx_range _ Hc) as (B0 & B1 & B2 & _).
  rewrite zuc_br_spec by easy. unfold zuc_f_function. cbn [X0 X1 X2 X3 ZR1 ZR2 zs zk_k zk_iv
    keystream keystream_tail keystream_len zk_L inited].
  rewrite !cross_value by auto with words. unfold fw, fr, u32. cbn [fst snd zabs cells r1 r2].
  reflexivity.
Qed.

Lemma zuc_sub_range u : is_u32 (zuc_sub u).
Proof.
  assert (B : forall T i, bytes T -> is_byte (get T i)).
  { intros T i HT. destruct (Nat.lt_ge_cases i (length T)); [now apply get_Forall |].
    unfold get. rewrite nth_overflow by easy. easy. }
  assert (B0 : bytes S0) by (apply (bool_decide_unpack _); vm_compute; exact I).
  assert (B1 : bytes S1) by (apply (bool_decide_unpack _); vm_compute; exact I).
  unfold zuc_sub, MAKEU32. apply is_u32_lor; [auto with words |].
  pose proof (B S1 (Z.to_nat (Z.land u 0xFF)) B1). unfold is_u32, is_byte in *. pow2. lia.
Qed.

Lemma clock_ok u st : zstate_ok st -> zstate_ok (clock u st).
Proof.
  intros (Hc & H1 & H2). unfold clock. repeat split; cbn [cells r1 r2]; try apply zuc_sub_range.
  - apply shift_in_ok; [easy | apply rep_cell].
  - apply shift_in_ok; [easy | apply rep_cell].
Qed.

Lemma iter_work_ok n st : zstate_ok st -> zstate_ok (Nat.iter n work_round st).
Proof. intros H. induction n; cbn; [easy | now apply clock_ok]. Qed.

(** The initialisation loop changes nothing but the register, the cells and
    the words of the bit reorganisation. *)
Definition same_buffers (zk zk' : ZUC_KEY) : Prop :=
  keystream zk' = keystream zk /\ keystream_tail zk' = keystream_tail zk /\
  keystream_len zk' = keystream_len zk /\ zk_L zk' = zk_L zk /\ inited zk' = inited zk.

Lemma zuc_init_rounds_spec n zk :
  zstate_ok (zabs zk) ->
  zabs (zuc_init_rounds n zk) = Nat.iter n init_round (zabs zk) /\
  zstate_ok (zabs (zuc_init_rounds n zk)) /\ same_buffers zk (zuc_init_rounds n zk).
Proof.
  revert zk. induction n as [| n IH]; intros zk H.
  { split; [easy |]. split; [exact H |]. now repeat split. }
  cbn [zuc_init_rounds]. rewrite zuc_f_spec by easy.
  assert (Hw : 0 <= Z.shiftr (fw (zabs zk)) 1 <= zp).
  { unfold fw, zp. rewrite Z.shiftr_div_pow2 by easy. zdm; pow2; lia. }
  rewrite init_mode_spec by (apply H || exact Hw). cbn [zs].
  rewrite Z.shiftr_div_pow2 in * by easy. change (2 ^ 1) with 2 in *.
  specialize (IH (set_cells (shift_in (zs zk) (feedback (zs zk) (fw (zabs zk) / 2)))
     (mk_zuc (zs zk) (bx0 (zs zk)) (bx1 (zs zk)) (bx2 (zs zk)) (bx3 (zs zk))
       (fst (fr (zabs zk))) (snd (fr (zabs zk))) (zk_k zk) (zk_iv zk) (keystream zk)
       (keystream_tail zk) (keystream_len zk) (zk_L zk) (inited zk)))).
  destruct IH as (E & Hok & Hb); [exact (clock_ok _ _ H) |].
  split; [| now split]. rewrite E, Nat.iter_succ_r. reflexivity.
Qed.

Lemma zuc_next_word_spec zk :
  zstate_ok (zabs zk) ->
  fst (zuc_next_word zk) = zword (zabs zk) 0 /\
  zabs (snd (zuc_next_word zk)) = work_round (zabs zk) /\
  same_buffers zk (snd (zuc_next_word zk)).
Proof.
  intros H. unfold zuc_next_word. rewrite zuc_f_spec by easy. cbn [fst snd].
  rewrite work_mode_spec by apply H. now repeat split.
Qed.

(** The initial register: three disjoint fields. *)
Lemma MAKEU31_value a b c :
  is_byte a -> 0 <= b < 2 ^ 15 -> is_byte c -> MAKEU31 a b c = 2 ^ 23 * a + 2 ^ 8 * b + c.
Proof.
  unfold is_byte, MAKEU31. intros Ha Hb Hc.
  rewrite !u32_small by (rewrite Z.shiftl_mul_pow2 by easy; pow2; lia).
  change 23 with (15 + 8) at 1. rewrite <- (Z.shiftl_shiftl a 15 8) by easy.
  rewrite <- Z.shiftl_lor, (Z.lor_comm _ b), Z.lor_comm, lor_shiftl_add by (easy || (pow2; lia)).
  rewrite lor_shiftl_add by easy. pow2. lia.
Qed.

Lemma D_range i : (i < 16)%nat -> 1 <= get D i < 2 ^ 15.
Proof.
  intros Hi. apply (get_Forall (fun x => 1 <= x < 2 ^ 15)); [| easy].
  apply (bool_decide_unpack _). vm_compute. exact I.
Qed.

Definition block16 (l : list Z) : Prop := length l = 16%nat /\ bytes l.

Lemma load_state_ok key iv : block16 key -> block16 iv -> zstate_ok (load_state key iv).
Proof.
  intros [Lk Hk] [Li Hi]. repeat split; try easy. apply Forall_map, List.Forall_forall.
  intros i Hin. apply in_seq in Hin. pose proof (D_range i ltac:(lia)).
  assert (is_byte (get key i)) by (apply get_Forall; [easy | lia]).
  assert (is_byte (get iv i)) by (apply get_Forall; [easy | lia]).
  unfold is_cell, zp, is_byte in *. cbn [compose]. pow2. lia.
Qed.

#[local] Strategy opaque [zuc_init_rounds Nat.iter].

Lemma ZUC_init_spec zk :
  inited zk = false -> block16 (zk_k zk) -> block16 (zk_iv zk) ->
  zabs (ZUC_init zk) = zuc_start (zk_k zk) (zk_iv zk) /\ zstate_ok (zabs (ZUC_init zk)) /\
  same_buffers zk (mk_zuc [] 0 0 0 0 0 0 [] [] (keystream (ZUC_init zk))
    (keystream_tail (ZUC_init zk)) (keystream_len (ZUC_init zk)) (zk_L (ZUC_init zk)) false) /\
  inited (ZUC_init zk) = true.
Proof.
  intros Hin Hk Hi. unfold ZUC_init. rewrite Hin.
  set (zk0 := mk_zuc (map _ (seq 0 16)) _ _ _ _ _ _ _ _ _ _ _ _ _).
  assert (E0 : zabs zk0 = load_state (zk_k zk) (zk_iv zk)).
  { unfold zabs, zk0, load_state. cbn [zs ZR1 ZR2]. f_equal. apply map_ext_in. intros i Hi'.
    apply in_seq in Hi'. pose proof (D_range i ltac:(lia)).
    apply MAKEU31_value; [| lia |]; (apply get_Forall; [apply Hk || apply Hi |]);
      (rewrite (proj1 Hk) || rewrite (proj1 Hi)); lia. }
  destruct (zuc_init_rounds_spec 32 zk0) as (E1 & Hok & B).
  { rewrite E0. now apply load_state_ok. }
  set (zk1 := zuc_init_rounds 32 zk0) in *. clearbody zk1.
  rewrite zuc_f_spec by easy. rewrite work_mode_spec by apply Hok.
  rewrite E0 in E1. unfold zuc_start. rewrite <- E1.
  split; [reflexivity |]. split; [exact (clock_ok 0 _ Hok) |].
  split; [| reflexivity]. unfold same_buffers in *. cbn [keystream keystream_tail keystream_len zk_L
    inited set_cells] in *. intuition congruence.
Qed.

(** ** The keystream buffer

    Byte [n] of the keystream, and the contents of the buffer after [g] calls
    of [ZUC_generate_keystream]: the last eight bytes, and the four bytes before
    them with their first half. *)

Definition zbyte (st : zstate) (n : nat) : Z := get (store_u32_be (zword st (n / 4))) (n mod 4).

Record buffered (st : zstate) (g : nat) (zk : ZUC_KEY) : Prop := {
  buf_state : zabs zk = Nat.iter (2 * g) work_round st;
  buf_inited : inited zk = true;
  buf_len : keystream_len zk = 8 * Z.of_nat g;
  buf_size : length (keystream zk) = 8%nat;
  buf_L : (0 < g)%nat -> zk_L zk = 2;
  buf_bytes : (0 < g)%nat -> forall k, (k < 8)%nat ->
    get (keystream zk) k = zbyte st (8 * (g - 1) + k);
  buf_tail : (1 < g)%nat -> forall k, (k < 8)%nat ->
    get (keystream_tail zk) k = zbyte st (8 * (g - 1) - 4 + k) }.

Lemma zbyte_word st n k : (k < 4)%nat -> zbyte st (4 * n + k) = get (store_u32_be (zword st n)) k.
Proof. intros Hk. unfold zbyte. now rewrite nat_div_cell, nat_mod_cell. Qed.

Lemma zbyte_byte st n : is_byte (zbyte st n).
Proof.
  unfold zbyte. apply get_Forall; [apply store_u32_be_bytes |].
  pose proof (Nat.mod_upper_bound n 4 ltac:(easy)). cbn. lia.
Qed.

Lemma word_bytes_store w : word_bytes w = store_u32_be w.
Proof.
  unfold word_bytes, store_u32_be, u8. change 0xFF with (Z.ones 8).
  now rewrite !Z.land_ones by easy.
Qed.

Lemma zuc_words_2 zk st n :
  zstate_ok st -> zabs zk = Nat.iter n work_round st ->
  fst (zuc_words 2 zk) = store_u32_be (zword st n) ++ store_u32_be (zword st (n + 1)) /\
  zabs (snd (zuc_words 2 zk)) = Nat.iter (n + 2) work_round st /\
  same_buffers zk (snd (zuc_words 2 zk)).
Proof.
  intros Hst E. assert (H : zstate_ok (zabs zk)) by (rewrite E; now apply iter_work_ok).
  cbn [zuc_words]. destruct (zuc_next_word_spec zk H) as (Ew & Es & B).
  destruct (zuc_next_word zk) as [w zk1]. cbn [fst snd] in *.
  assert (H1 : zstate_ok (zabs zk1)) by (rewrite Es; now apply clock_ok).
  destruct (zuc_next_word_spec zk1 H1) as (Ew1 & Es1 & B1).
  destruct (zuc_next_word zk1) as [w1 zk2]. cbn [fst snd] in *.
  rewrite !word_bytes_store, app_nil_r, Ew, Ew1, Es1, Es, E.
  replace (n + 1)%nat with (S n) by lia. replace (n + 2)%nat with (S (S n)) by lia.
  repeat split; unfold same_buffers in *; intuition congruence.
Qed.

Lemma generate_spec st g zk :
  zstate_ok st -> buffered st g zk -> 8 * (Z.of_nat g + 1) < 2 ^ 32 ->
  fst (ZUC_generate_keystream zk) = true /\ buffered st (g + 1) (snd (ZUC_generate_keystream zk)).
Proof.
  intros Hst [Bs Bi Bl Bz BL Bk Bt] Hg. unfold ZUC_generate_keystream. rewrite Bi. cbn [negb].
  change ((8 * 8 + 31) / 32) with 2. change (2 * 4) with 8.
  change (Z.to_nat (8 - 4)) with 4%nat. change (Z.to_nat 2) with 2%nat.
  destruct (zuc_words_2 zk st (2 * g) Hst Bs) as (Ew & Es & Eb).
  destruct (zuc_words 2 zk) as [ks zk1]. cbn [fst snd] in *. split; [reflexivity |].
  assert (Ek : forall k, (k < 8)%nat -> get ks k = zbyte st (8 * g + k)).
  { intros k Hk. rewrite Ew. destruct (Nat.lt_ge_cases k 4).
    - rewrite get_app_l by (cbn; lia). rewrite <- zbyte_word by easy. f_equal. lia.
    - rewrite get_app_r by (cbn; lia). cbn [length store_u32_be].
      rewrite <- zbyte_word by lia. f_equal. lia. }
  assert (Lk : length ks = 8%nat) by now rewrite Ew.
  destruct Eb as (_ & _ & El & _ & Ei).
  split; cbn [zabs keystream keystream_tail keystream_len zk_L inited].
  - replace (2 * (g + 1))%nat with (2 * g + 2)%nat by lia. rewrite <- Es. reflexivity.
  - now rewrite Ei.
  - rewrite El, Bl, u32_small; lia.
  - exact Lk.
  - reflexivity.
  - intros _ k Hk. rewrite Ek by easy. f_equal. lia.
  - intros Hg1 k Hk. destruct (Nat.lt_ge_cases k 4).
    + rewrite get_app_l by (rewrite length_take, length_drop; lia).
      unfold get. rewrite nth_lookup, lookup_take_lt, lookup_drop, <- nth_lookup by lia.
      change (get (keystream zk) (4 + k) = zbyte st (8 * (g + 1 - 1) - 4 + k)).
      rewrite Bk by lia. f_equal. lia.
    + rewrite get_app_r by (rewrite length_take, length_drop; lia).
      rewrite length_take, length_drop, Bz. cbn [Nat.min Nat.sub].
      unfold get. rewrite nth_lookup, lookup_take_lt, <- nth_lookup by lia.
      change (get ks (k - 4) = zbyte st (8 * (g + 1 - 1) - 4 + k)).
      rewrite Ek by lia. f_equal. lia.
Qed.

(** ** Words at any bit

    Bit [i] of the keystream counts from the most significant bit of its first
    word; the word at [i] is made of the bits [i] to [i + 31]. *)

Definition zbit (st : zstate) (i : nat) : bool := Z.testbit (zword st (i / 32)) (31 - Z.of_nat (i mod 32)).

Definition bits_value (l : list bool) : Z := fold_left (fun a b => 2 * a + Z.b2z b) l 0.

Definition zword_at (st : zstate) (i : nat) : Z := bits_value (map (fun j => zbit st (i + j)) (seq 0 32)).

Lemma bits_value_snoc l b : bits_value (l ++ [b]) = 2 * bits_value l + Z.b2z b.
Proof. unfold bits_value. now rewrite fold_left_app. Qed.

Lemma bits_value_testbit l t :
  0 <= t -> Z.testbit (bits_value l) t
    = nth (length l - 1 - Z.to_nat t) l false && (t <? Z.of_nat (length l)).
Proof.
  revert t. induction l as [| b l IH] using rev_ind; intros t Ht.
  - change (bits_value []) with 0. rewrite Z.bits_0. symmetry. apply andb_false_iff. right.
    apply Z.ltb_ge. cbn. lia.
  - rewrite bits_value_snoc, length_app. cbn [length]. destruct (Z.eq_dec t 0) as [-> | Hn].
    + rewrite Z.testbit_0_r, app_nth2 by lia.
      replace (_ - _)%nat with 0%nat by lia. cbn [nth]. symmetry.
      replace (0 <? Z.of_nat (length l + 1)) with true by (symmetry; apply Z.ltb_lt; lia).
      apply andb_true_r.
    + replace t with (Z.succ (t - 1)) at 1 by lia. rewrite Z.testbit_succ_r, IH by lia.
      replace (t <? Z.of_nat (length l + 1)) with (t - 1 <? Z.of_nat (length l))
        by (destruct (Z.ltb_spec (t - 1) (Z.of_nat (length l)));
            destruct (Z.ltb_spec t (Z.of_nat (length l + 1))); lia).
      destruct (Z.ltb_spec (t - 1) (Z.of_nat (length l))); [| now rewrite !andb_false_r].
      f_equal. rewrite app_nth1 by lia. f_equal. lia.
Qed.

Lemma zword_at_testbit st i t :
  0 <= t -> Z.testbit (zword_at st i) t = zbit st (i + (31 - Z.to_nat t)) && (t <? 32).
Proof.
  intros Ht. unfold zword_at. rewrite bits_value_testbit, length_map, length_seq by easy.
  change (Z.of_nat 32) with 32. destruct (Z.ltb_spec t 32); [| now rewrite !andb_false_r].
  rewrite !andb_true_r. replace (32 - 1 - Z.to_nat t)%nat with (31 - Z.to_nat t)%nat by lia.
  rewrite nth_indep with (d' := zbit st (i + 0)) by (rewrite length_map, length_seq; lia).
  rewrite (map_nth (fun j => zbit st (i + j))), seq_nth by lia. f_equal.
Qed.

(** The same bit through the bytes. *)
Lemma zbit_byte st i : zbit st i = Z.testbit (zbyte st (i / 8)) (7 - Z.of_nat (i mod 8)).
Proof.
  unfold zbit, zbyte.
  assert (E : (i / 8 / 4 = i / 32)%nat) by (rewrite Nat.Div0.div_div; reflexivity).
  rewrite E. set (w := zword st (i / 32)).
  assert (Hr : (i mod 32 = 8 * (i / 8 mod 4) + i mod 8)%nat)
    by (change 32%nat with (8 * 4)%nat; rewrite Nat.Div0.mod_mul_r; lia).
  pose proof (Nat.mod_upper_bound (i / 8) 4 ltac:(easy)) as Hk.
  pose proof (Nat.mod_upper_bound i 8 ltac:(easy)) as Hb.
  rewrite Hr. set (k := (i / 8 mod 4)%nat) in *. set (b := (i mod 8)%nat) in *. clearbody k b w.
  assert (Hlt : (7 - Z.of_nat b <? 8) = true) by (apply Z.ltb_lt; lia).
  destruct k as [| [| [| [| ?]]]]; cbn [get nth store_u32_be]; [| | | | lia];
    rewrite u8_testbit, ?Z.shiftr_spec, Hlt by lia; cbn [andb]; f_equal; lia.
Qed.

(** Byte [n] of the window of the code that starts [ti] bits into [d 0]. *)
Lemma window_byte (d : Z -> Z) ti n k :
  is_byte (d n) -> is_byte (d (n + 1)) -> 0 < ti < 8 -> 0 <= k ->
  Z.testbit (Z.lor (u8 (Z.shiftl (d n) ti)) (u8 (Z.shiftr (d (n + 1)) (8 - ti)))) k
  = (k <? 8) && (if k <? ti then Z.testbit (d (n + 1)) (k + 8 - ti) else Z.testbit (d n) (k - ti)).
Proof.
  unfold is_byte. intros H0 H1 Ht Hk. rewrite Z.lor_spec, !u8_testbit by easy.
  rewrite Z.shiftl_spec, Z.shiftr_spec by easy. destruct (Z.ltb_spec k 8); [cbn [andb] | reflexivity].
  destruct (Z.ltb_spec k ti).
  - rewrite Z.testbit_neg_r by lia. cbn [orb]. f_equal. lia.
  - rewrite (testbit_high (d (n + 1)) 8) by (pow2; lia). apply orb_false_r.
Qed.

(** Drop the bits of a byte below 0 and from 8 on. *)
Ltac dead_bits :=
  repeat match goal with
  | |- context [Z.testbit ?x ?i] => rewrite (Z.testbit_neg_r x i) by lia
  | |- context [Z.testbit ?x ?i] => rewrite (testbit_high x 8 i) by (unfold is_byte in *; lia)
  end; rewrite ?orb_false_r; cbn [orb].

Lemma word_of_testbit (b : Z -> Z) t :
  (forall n, 0 <= n <= 3 -> is_byte (b n)) -> 0 <= t < 32 ->
  Z.testbit (word_of (b 0) (b 1) (b 2) (b 3)) t = Z.testbit (b (3 - t / 8)) (t mod 8).
Proof.
  intros Hb Ht.
  pose proof (Hb 0 ltac:(lia)). pose proof (Hb 1 ltac:(lia)).
  pose proof (Hb 2 ltac:(lia)). pose proof (Hb 3 ltac:(lia)).
  unfold word_of. rewrite !Z.lor_spec, !Z.shiftl_spec by lia.
  pose proof (Z.div_mod t 8 ltac:(lia)). pose proof (Z.mod_pos_bound t 8 ltac:(lia)).
  assert (Hq : t / 8 = 0 \/ t / 8 = 1 \/ t / 8 = 2 \/ t / 8 = 3) by lia.
  destruct Hq as [E | [E | [E | E]]]; rewrite E in *; cbn [Z.sub Z.add Z.opp Z.pos_sub Pos.pred_double Pos.sub];
    dead_bits; f_equal; lia.
Qed.

(** The bytes of the window and the excess bits of its last byte, which the
    code does not convert to [uint8_t]: they repeat bits of the byte before. *)
Lemma window_word (d : Z -> Z) ti t :
  (forall n, 0 <= n <= 4 -> is_byte (d n)) -> 0 < ti < 8 -> 0 <= t < 32 ->
  let b n := Z.lor (u8 (Z.shiftl (d n) ti)) (u8 (Z.shiftr (d (n + 1)) (8 - ti))) in
  Z.testbit (Z.lor (Z.lor (Z.lor (u32 (Z.shiftl (b 0) 24)) (u32 (Z.shiftl (b 1) 16)))
                          (u32 (Z.shiftl (b 2) 8)))
                   (Z.lor (Z.shiftl (d 3) ti) (Z.shiftr (d 4) (8 - ti)))) t
  = Z.testbit (d ((ti + 31 - t) / 8)) (7 - (ti + 31 - t) mod 8).
Proof.
  intros Hd Hti Ht b.
  assert (Hb : forall n, is_byte (b n))
    by (intros n; apply (lor_range 8); [easy | apply u8_range | apply u8_range]).
  assert (Eb : forall n k, 0 <= n <= 3 -> 0 <= k < 8 ->
    Z.testbit (b n) k = if k <? ti then Z.testbit (d (n + 1)) (k + 8 - ti) else Z.testbit (d n) (k - ti)).
  { intros n k Hn Hk. unfold b. rewrite window_byte by (lia || (apply Hd; lia)).
    replace (k <? 8) with true by (symmetry; apply Z.ltb_lt; lia). reflexivity. }
  rewrite !u32_byte_shift by (easy || apply Hb).
  (* the last byte *)
  assert (El : Z.testbit (Z.lor (Z.shiftl (d 3) ti) (Z.shiftr (d 4) (8 - ti))) t
               = Z.testbit (d 3) (t - ti) || Z.testbit (d 4) (t + 8 - ti)).
  { rewrite Z.lor_spec, Z.shiftl_spec, Z.shiftr_spec by lia. do 2 f_equal. lia. }
  rewrite Z.lor_spec, El, !Z.lor_spec, !Z.shiftl_spec by lia. clear El.
  pose proof (Hb 0). pose proof (Hb 1). pose proof (Hb 2).
  pose proof (Hd 3 ltac:(lia)). pose proof (Hd 4 ltac:(lia)).
  pose proof (Z.div_mod t 8 ltac:(lia)). pose proof (Z.mod_pos_bound t 8 ltac:(lia)).
  assert (Hp : exists e, (e = 0 \/ e = 1) /\ (ti + 31 - t) / 8 = 3 - t / 8 + e
                /\ (ti + 31 - t) mod 8 = ti + 7 - t mod 8 - 8 * e /\ e = Z.b2z (t mod 8 <? ti)).
  { exists (Z.b2z (t mod 8 <? ti)). destruct (Z.ltb_spec (t mod 8) ti); cbn [Z.b2z].
    - split; [lia |]. assert ((ti + 31 - t) / 8 = 3 - t / 8 + 1)
        by (symmetry; apply Z.div_unique with (ti + 7 - t mod 8 - 8); lia).
      split; [easy |]. split; [rewrite Z.mod_eq by lia; lia | easy].
    - split; [lia |]. assert ((ti + 31 - t) / 8 = 3 - t / 8 + 0)
        by (symmetry; apply Z.div_unique with (ti + 7 - t mod 8); lia).
      split; [easy |]. split; [rewrite Z.mod_eq by lia; lia | easy]. }
  destruct Hp as (e & _ & -> & -> & ->).
  assert (Hq : t / 8 = 0 \/ t / 8 = 1 \/ t / 8 = 2 \/ t / 8 = 3) by lia.
  destruct Hq as [E | [E | [E | E]]]; rewrite E in *;
    destruct (Z.ltb_spec (t mod 8) ti) as [Hl | Hl]; cbn [Z.b2z]; dead_bits;
    try match goal with |- context [Z.testbit (b ?n) ?i] => rewrite (Eb n i) by lia end;
    clearbody b; repeat btest; try lia;
    repeat match goal with
    | |- context [d ?e] => let v := eval vm_compute in e in progress change e with v
    end; dead_bits;
    try (replace (t - 8 + 8 - ti) with (t - ti) by lia; rewrite orb_diag); f_equal; lia.
Qed.

(** The word that the code reads [ti] bits into [d 0]. *)
Definition read_word (d : Z -> Z) (ti : Z) : Z :=
  if ti =? 0 then
    Z.lor (Z.lor (Z.lor (u32 (Z.shiftl (d 0) 24)) (u32 (Z.shiftl (d 1) 16)))
                 (u32 (Z.shiftl (d 2) 8))) (d 3)
  else
    let b n := Z.lor (u8 (Z.shiftl (d n) ti)) (u8 (Z.shiftr (d (n + 1)) (8 - ti))) in
    Z.lor (Z.lor (Z.lor (u32 (Z.shiftl (b 0) 24)) (u32 (Z.shiftl (b 1) 16)))
                        (u32 (Z.shiftl (b 2) 8)))
                 (Z.lor (Z.shiftl (d 3) ti) (Z.shiftr (d 4) (8 - ti))).

(** The bytes that [ZUC_keystream_get_word] reads are the five from byte [B]
    on (of which it needs four when the position is a multiple of eight). *)
Lemma get_word_bytes st g zk B i :
  buffered st g zk -> 8 * Z.of_nat g - 12 <= Z.of_nat B < 8 * Z.of_nat g - 4 -> 0 <= i ->
  (i / 8) mod 8 = Z.of_nat B mod 8 ->
  exists d, (forall n, 0 <= n <= 4 -> d n = zbyte st (B + Z.to_nat n)) /\
    ZUC_keystream_get_word zk i = read_word d (i mod 8).
Proof.
  intros Hbuf HB Hi Hm. unfold ZUC_keystream_get_word.
  rewrite (buf_L _ _ _ Hbuf) by lia. change (2 * 4) with 8. rewrite Hm.
  pose proof (Z.mod_pos_bound (Z.of_nat B) 8 ltac:(lia)) as Hk.
  set (k := Z.of_nat B mod 8) in *.
  assert (Hbk : Z.of_nat B = 8 * (Z.of_nat B / 8) + k) by (apply Z.div_mod; lia). clearbody k.
  destruct (Z.leb_spec 8 (k + 4)).
  - exists (fun n => get (keystream_tail zk) (Z.to_nat (k + 4 - 8 + n))). split; [| reflexivity].
    intros n Hn. rewrite (buf_tail _ _ _ Hbuf) by lia. f_equal. lia.
  - exists (fun n => get (keystream zk) (Z.to_nat (k + n))). split; [| reflexivity].
    intros n Hn. rewrite (buf_bytes _ _ _ Hbuf) by lia. f_equal. lia.
Qed.

Lemma get_word_spec st g zk B i :
  buffered st g zk -> 8 * Z.of_nat g - 12 <= Z.of_nat B < 8 * Z.of_nat g - 4 -> 0 <= i ->
  (i / 8) mod 8 = Z.of_nat B mod 8 ->
  ZUC_keystream_get_word zk i = zword_at st (8 * B + Z.to_nat (i mod 8)).
Proof.
  intros Hbuf HB Hi Hm. destruct (get_word_bytes st g zk B i Hbuf HB Hi Hm) as (d & Hd & ->).
  assert (Bd : forall n, 0 <= n <= 4 -> is_byte (d n)) by (intros; rewrite Hd by easy; apply zbyte_byte).
  pose proof (Z.mod_pos_bound i 8 ltac:(lia)) as Hr. set (ti := i mod 8) in *. clearbody ti.
  assert (Hbit : forall t, 0 <= t < 32 ->
    zbit st (8 * B + Z.to_nat ti + (31 - Z.to_nat t)) = Z.testbit (d ((ti + 31 - t) / 8)) (7 - (ti + 31 - t) mod 8)).
  { intros t Ht. rewrite zbit_byte, Hd by (zdm; lia).
    set (m := (Z.to_nat ti + (31 - Z.to_nat t))%nat).
    assert (Em : ti + 31 - t = Z.of_nat m) by lia. rewrite Em.
    replace (8 * B + Z.to_nat ti + (31 - Z.to_nat t))%nat with (m + B * 8)%nat by lia.
    rewrite Nat.div_add, Nat.Div0.mod_add by easy.
    change 8 with (Z.of_nat 8). rewrite <- Nat2Z.inj_div, <- Nat2Z.inj_mod, Nat2Z.id.
    f_equal. f_equal. lia. }
  apply Z.bits_inj'. intros t Ht. rewrite zword_at_testbit by easy.
  destruct (Z.ltb_spec t 32) as [Hlt | Hge].
  - rewrite andb_true_r, Hbit by easy. unfold read_word. destruct (Z.eqb_spec ti 0) as [-> | Hne].
    + rewrite !u32_byte_shift by (easy || (apply Bd; lia)).
      change (Z.testbit (word_of (d 0) (d 1) (d 2) (d 3)) t = Z.testbit (d ((0 + 31 - t) / 8)) (7 - (0 + 31 - t) mod 8)).
      rewrite word_of_testbit by (easy || (intros; apply Bd; lia)).
      f_equal; [f_equal |]; zdm; lia.
    + apply window_word; [exact Bd | lia | lia].
  - rewrite andb_false_r. apply (testbit_high _ 32); [lia |].
    pose proof (Bd 3 ltac:(lia)) as B3. pose proof (Bd 4 ltac:(lia)) as B4. unfold is_byte in B3, B4.
    change (is_u32 (read_word d ti)). unfold read_word.
    assert (0 < 2 ^ ti <= 2 ^ 7) by (split; [apply Z.pow_pos_nonneg | apply Z.pow_le_mono_r]; lia).
    destruct (ti =? 0); cbv zeta; repeat apply is_u32_lor; auto with words; unfold is_u32.
    + pow2; lia.
    + rewrite Z.shiftl_mul_pow2 by lia. pow2. nia.
    + apply shiftr_range; [lia | pow2; lia].
Qed.

(** ** Initialisation and [g] fillings *)

Lemma init_buffered zk :
  inited zk = false -> block16 (zk_k zk) -> block16 (zk_iv zk) ->
  length (keystream zk) = 8%nat -> keystream_len zk = 0 ->
  zstate_ok (zuc_start (zk_k zk) (zk_iv zk)) /\ buffered (zuc_start (zk_k zk) (zk_iv zk)) 0 (ZUC_init zk).
Proof.
  intros Hin Hk Hi Hl H0. destruct (ZUC_init_spec zk Hin Hk Hi) as (E & Hok & B & I).
  unfold same_buffers in B. cbn [keystream keystream_tail keystream_len zk_L inited] in B.
  destruct B as (B1 & _ & B3 & _). rewrite E in Hok. split; [exact Hok |].
  split; try (intros; lia); [exact E | exact I | congruence].
Qed.

Definition generate (zk : ZUC_KEY) : ZUC_KEY := snd (ZUC_generate_keystream zk).

Lemma generate_iter st zk g :
  zstate_ok st -> buffered st 0 zk -> 8 * Z.of_nat g < 2 ^ 32 -> buffered st g (Nat.iter g generate zk).
Proof.
  intros Hst H0. induction g as [| g IH]; intros Hg; [exact H0 |].
  replace (S g) with (g + 1)%nat at 1 by lia.
  apply (generate_spec st g (Nat.iter g generate zk)); [easy | apply IH; lia | lia].
Qed.

(** C38: [ZUC_init] and [g] calls of [ZUC_generate_keystream] leave in the key
    structure the state of the ZUC generator of the standard (register modulo
    2^31 - 1 with cells from 1 to 2^31 - 1, bit reorganisation and nonlinear
    function by arithmetic on halves): the eight buffered bytes are bytes
    [8(g-1)] to [8g-1] of the keystream, every cell is still in range, and
    [ZUC_keystream_get_word] returns the 32 keystream bits at every position
    whose first byte lies from [8g-12] to [8g-5], across the border of two
    fillings. *)
Theorem zuc_keystream_correct zk g :
  inited zk = false -> block16 (zk_k zk) -> block16 (zk_iv zk) ->
  length (keystream zk) = 8%nat -> keystream_len zk = 0 ->
  (0 < g)%nat -> 8 * Z.of_nat g < 2 ^ 31 ->
  let st := zuc_start (zk_k zk) (zk_iv zk) in
  let zk' := Nat.iter g generate (ZUC_init zk) in
  keystream zk' = map (zbyte st) (seq (8 * (g - 1)) 8) /\ keystream_len zk' = 8 * Z.of_nat g /\
  cells_ok (zs zk') /\
  (forall i, 0 <= i -> 8 * Z.of_nat g - 12 <= i / 8 < 8 * Z.of_nat g - 4 ->
     ZUC_keystream_get_word zk' i = zword_at st (Z.to_nat i)).
Proof.
  intros Hin Hk Hi Hl H0 Hg Hg' st zk'.
  destruct (init_buffered zk Hin Hk Hi Hl H0) as [Hst HB].
  apply (generate_iter _ _ g) in HB; [| exact Hst | lia]. fold st in HB, Hst. fold zk' in HB.
  clearbody st zk'. split; [| split; [apply HB | split]].
  - apply list_eq_get; [now rewrite (buf_size _ _ _ HB), length_map, length_seq |].
    rewrite (buf_size _ _ _ HB). intros k Hk'. rewrite (buf_bytes _ _ _ HB) by easy.
    unfold get. rewrite nth_indep with (d' := zbyte st 0) by now rewrite length_map, length_seq.
    now rewrite map_nth, seq_nth.
  - change (cells_ok (cells (zabs zk'))). rewrite (buf_state _ _ _ HB). now apply iter_work_ok.
  - intros i Hi0 HI. assert (0 <= i / 8) by (apply Z.div_pos; lia).
    rewrite (get_word_spec st g zk' (Z.to_nat (i / 8)) i)
      by (easy || (rewrite Z2Nat.id by easy; easy)).
    f_equal. zdm; lia.
Qed.

(** The first test vector of the ZUC specification: the zero key and vector
    give [27bede74 018082da]; the second filling continues with
    [87d4e5b6 9f18bf66]. *)
Definition zero_key : ZUC_KEY :=
  mk_zuc (repeat 0 16) 0 0 0 0 0 0 (repeat 0 16) (repeat 0 16) (repeat 0 8) (repeat 0 8) 0 0 false.

Lemma zuc_keystream_correct_witness :
  keystream (Nat.iter 1 generate (ZUC_init zero_key)) = [0x27; 0xbe; 0xde; 0x74; 0x01; 0x80; 0x82; 0xda] /\
  keystream (Nat.iter 2 generate (ZUC_init zero_key))
    = map (zbyte (zuc_start (repeat 0 16) (repeat 0 16))) (seq 8 8) /\
  ZUC_keystream_get_word (Nat.iter 2 generate (ZUC_init zero_key)) 44 = 0x082da87d.
Proof.
  split; [vm_compute; reflexivity |].
  destruct (zuc_keystream_correct zero_key 2) as (E & _ & _ & W); try (vm_compute; reflexivity).
  1, 2: split; [reflexivity | apply (bool_decide_unpack (Forall (fun x => 0 <= x < 256) (repeat 0 16))); exact I].
  1: lia.
  split; [exact E |]. rewrite W by (vm_compute; intuition discriminate).
  vm_compute. reflexivity.
Defined.

(** ** Counter, bearer and direction

    EEA3 and EIA3 take them packed in five bytes: four of the counter, then five
    bits, one bit and two spare bits. *)

Lemma low_byte x : Z.land x 0xFF = x mod 2 ^ 8.
Proof. change 0xFF with (Z.ones 8). now apply Z.land_ones. Qed.

Lemma count_bytes c0 c1 c2 c3 :
  is_byte c0 -> is_byte c1 -> is_byte c2 -> is_byte c3 ->
  let count := u32 (word_of c0 c1 c2 c3) in
  Z.land (Z.shiftr count 24) 0xFF = c0 /\ Z.land (Z.shiftr count 16) 0xFF = c1 /\
  Z.land (Z.shiftr count 8) 0xFF = c2 /\ Z.land count 0xFF = c3.
Proof.
  intros H0 H1 H2 H3 count. unfold count. rewrite word_of_add by easy. unfold is_byte in *.
  rewrite u32_small by (pow2; lia). rewrite !low_byte, !Z.shiftr_div_pow2 by easy.
  repeat split; zdm; pow2; lia.
Qed.

Section Packed.
Variables bearer direction spare : Z.
Hypotheses (Hb : 0 <= bearer < 32) (Hd : 0 <= direction < 2) (Hs : 0 <= spare < 4).

Lemma packed_bearer : Z.shiftr (Z.land (8 * bearer + 4 * direction + spare) 0xF8) 3 = bearer.
Proof using Hb Hd Hs.
  rewrite Z.shiftr_land. change (Z.shiftr 0xF8 3) with (Z.ones 5). rewrite Z.land_ones by easy.
  rewrite Z.shiftr_div_pow2 by easy. zdm; pow2; lia.
Qed.

Lemma packed_direction : Z.shiftr (Z.land (8 * bearer + 4 * direction + spare) 0x4) 2 = direction.
Proof using Hb Hd Hs.
  rewrite Z.shiftr_land. change (Z.shiftr 0x4 2) with (Z.ones 1). rewrite Z.land_ones by easy.
  rewrite Z.shiftr_div_pow2 by easy. zdm; pow2; lia.
Qed.

Lemma bearer_byte : Z.land (Z.shiftl bearer 3) 0xF8 = 8 * bearer.
Proof using Hb.
  clear - Hb.
  change 0xF8 with (Z.shiftl (Z.ones 5) 3). rewrite <- Z.shiftl_land, Z.land_ones by easy.
  rewrite Z.shiftl_mul_pow2, Z.mod_small by (easy || (pow2; lia)). pow2. lia.
Qed.

Lemma direction_bit k :
  0 <= k <= 7 -> u32 (Z.shiftl (Z.land direction 1) k) = 2 ^ k * direction.
Proof using Hd.
  clear - Hd. intros Hk. change 1 with (Z.ones 1). rewrite Z.land_ones, Z.shiftl_mul_pow2 by lia.
  rewrite Z.mod_small by (pow2; lia). assert (0 < 2 ^ k <= 2 ^ 7)
    by (split; [apply Z.pow_pos_nonneg | apply Z.pow_le_mono_r]; lia).
  rewrite u32_small by (pow2; nia). lia.
Qed.
End Packed.
