(* ===== verification/Eia3Spec.v ===== *)
(** * 128-EIA3 against its specification

    The MAC of 3GPP TS 35.221 is computed from the bits of the whole message
    and the keystream words at each of them.  [EIA3_Update] computes it when
    every piece of the input but the last has a multiple of eight bytes, and in
    general not otherwise: the position of the keystream word is counted from
    the start of the piece. *)

From S2P Require Import Prelude Buffers Zuc ZucSpec.

(** ** The specification *)

Definition byte_bits (b : Z) : list bool := map (fun k => Z.testbit b (7 - Z.of_nat k)) (seq 0 8).
Definition message_bits (m : list Z) : list bool := flat_map byte_bits m.

(** The keystream words at the bits of the message that are set, from bit [pos]. *)
Fixpoint eia3_sum (st : zstate) (pos : nat) (bits : list bool) (T : Z) : Z :=
  match bits with
  | [] => T
  | b :: bits => eia3_sum st (S pos) bits (if b then Z.lxor T (zword_at st pos) else T)
  end.

(** The initial vector of a counter, bearer and direction. *)
Definition eia3_vector (c0 c1 c2 c3 bearer direction : Z) : list Z :=
  [c0; c1; c2; c3; 8 * bearer; 0; 0; 0;
   Z.lxor c0 (128 * direction); c1; c2; c3; 8 * bearer; 0; 128 * direction; 0].

(** [L] keystream words are used: all that a message of [LENGTH] bits can
    touch, one for the length and one to close. *)
Definition eia3_mac (key vector m : list Z) : list Z :=
  let st := zuc_start key vector in
  let LENGTH := (8 * length m)%nat in
  let L := ((LENGTH + 31) / 32 + 2)%nat in
  store_u32_be (Z.lxor (Z.lxor (eia3_sum st 0 (message_bits m) 0) (zword_at st LENGTH))
                       (zword st (L - 1))).

(** ** Bits of the message *)

Lemma message_bits_length m : length (message_bits m) = (8 * length m)%nat.
Proof. induction m as [| b m IH]; [easy |]. cbn [message_bits flat_map]. rewrite length_app.
  change (flat_map byte_bits m) with (message_bits m). rewrite IH. cbn [length byte_bits map seq]. lia.
Qed.

Lemma message_bits_app a b : message_bits (a ++ b) = message_bits a ++ message_bits b.
Proof. apply flat_map_app. Qed.

Lemma eia3_sum_app st pos a b T :
  eia3_sum st pos (a ++ b) T = eia3_sum st (pos + length a) b (eia3_sum st pos a T).
Proof.
  revert pos T. induction a as [| x a IH]; intros pos T; cbn [app length eia3_sum].
  - now rewrite Nat.add_0_r.
  - rewrite IH. f_equal. lia.
Qed.

Lemma message_bit m i :
  (i < 8 * length m)%nat ->
  nth i (message_bits m) false = Z.testbit (get m (i / 8)) (7 - Z.of_nat (i mod 8)).
Proof.
  revert i. induction m as [| b m IH]; intros i Hi; [cbn in Hi; lia |].
  cbn [message_bits flat_map]. change (flat_map byte_bits m) with (message_bits m).
  assert (Lb : length (byte_bits b) = 8%nat) by reflexivity.
  destruct (Nat.lt_ge_cases i 8) as [H8 | H8].
  - rewrite app_nth1 by lia. rewrite Nat.div_small, Nat.mod_small by easy. unfold byte_bits.
    rewrite nth_indep with (d' := Z.testbit b (7 - Z.of_nat 0)) by (rewrite length_map, length_seq; lia).
    rewrite (map_nth (fun k => Z.testbit b (7 - Z.of_nat k))), seq_nth by easy. reflexivity.
  - rewrite app_nth2 by lia. rewrite Lb, IH by (cbn [length] in Hi; lia).
    replace i with (i - 8 + 1 * 8)%nat at 3 4 by lia.
    rewrite Nat.div_add, Nat.Div0.mod_add by easy. rewrite Nat.add_1_r. reflexivity.
Qed.

Lemma GET_BIT_spec m i :
  (i < 8 * length m)%nat -> GET_BIT m (Z.of_nat i) = nth i (message_bits m) false.
Proof.
  intros Hi. rewrite message_bit by easy. unfold GET_BIT.
  change 8 with (Z.of_nat 8). rewrite <- Nat2Z.inj_div, <- Nat2Z.inj_mod, Nat2Z.id.
  set (b := get m (i / 8)). pose proof (Nat.mod_upper_bound i 8 ltac:(easy)).
  set (k := 7 - Z.of_nat (i mod 8)). assert (0 <= k) by lia. clearbody b k.
  rewrite Z.shiftl_1_l. destruct (Z.testbit b k) eqn:E.
  - apply negb_true_iff, Z.eqb_neq. intros Hz.
    assert (Hb : Z.testbit (Z.land b (2 ^ k)) k = true)
      by (rewrite Z.land_spec, E, Z.pow2_bits_true by easy; reflexivity).
    rewrite Hz, Z.bits_0 in Hb. discriminate.
  - apply negb_false_iff, Z.eqb_eq. apply Z.bits_inj'. intros j Hj.
    rewrite Z.land_spec, Z.bits_0. destruct (Z.eq_dec j k) as [-> | Hn].
    + now rewrite E.
    + rewrite Z.pow2_bits_false by lia. apply andb_false_r.
Qed.

(** ** The keystream window

    [reach st B zk]: the buffer is at most one filling away from byte [B];
    [covers st B zk]: byte [B] and the four after it can be read. *)

Definition covers (st : zstate) (B : nat) (zk : ZUC_KEY) : Prop :=
  exists g, buffered st g zk /\ 8 * Z.of_nat g - 12 <= Z.of_nat B < 8 * Z.of_nat g - 4.
Definition reach (st : zstate) (B : nat) (zk : ZUC_KEY) : Prop :=
  exists g, buffered st g zk /\ 8 * Z.of_nat g - 12 <= Z.of_nat B < 8 * Z.of_nat g + 4.

Lemma ensure_spec st B zk :
  zstate_ok st -> reach st B zk -> Z.of_nat B < 2 ^ 29 ->
  exists zk', ensure (keystream_len zk <=? Z.of_nat B + 4) zk = (true, zk') /\ covers st B zk'.
Proof.
  intros Hst (g & Hb & Hw) HB. unfold ensure. rewrite (buf_len _ _ _ Hb).
  destruct (Z.leb_spec (8 * Z.of_nat g) (Z.of_nat B + 4)).
  - destruct (generate_spec st g zk Hst Hb) as [Hf Hb']; [pow2; lia |].
    destruct (ZUC_generate_keystream zk) as [ok zk']. cbn [fst snd] in *. subst ok.
    exists zk'. split; [easy |]. exists (g + 1)%nat. split; [easy | lia].
  - exists zk. split; [easy |]. exists g. split; [easy | lia].
Qed.

(** A window that covers byte [B] reaches the bytes of the next eight. *)
Lemma covers_reach st B B' zk :
  covers st B zk -> (B <= B' <= B + 8)%nat -> reach st B' zk.
Proof. intros (g & Hb & Hw) HB. exists g. split; [easy | lia]. Qed.

Lemma covers_word st B zk i :
  covers st B zk -> ((i / 8) mod 8 = B mod 8)%nat ->
  ZUC_keystream_get_word zk (Z.of_nat i) = zword_at st (8 * B + i mod 8).
Proof.
  intros (g & Hb & Hw) Hm. rewrite (get_word_spec st g zk B) by
    (easy || lia || (change 8 with (Z.of_nat 8); rewrite <- Nat2Z.inj_div, <- !Nat2Z.inj_mod; congruence)).
  change 8 with (Z.of_nat 8). now rewrite <- Nat2Z.inj_mod, Nat2Z.id.
Qed.

(** ** One piece *)

Lemma eia3_bits_spec st num inp n i T zk :
  zstate_ok st -> (num mod 8 = 0)%nat -> (i + n = 8 * length inp)%nat ->
  Z.of_nat (num + length inp) < 2 ^ 29 -> reach st (num + i / 8) zk ->
  exists zk', eia3_bits n (Z.of_nat i) (Z.of_nat num) inp T zk
      = (true, eia3_sum st (8 * num + i) (drop i (message_bits inp)) T, zk') /\
    reach st (num + length inp) zk'.
Proof.
  intros Hst Hnum. revert i T zk. induction n as [| n IH]; intros i T zk Hin HL HR.
  - exists zk. rewrite drop_ge by (rewrite message_bits_length; lia). split; [reflexivity |].
    replace (length inp) with (i / 8)%nat; [easy |].
    replace i with (length inp * 8)%nat by lia. now apply Nat.div_mul.
  - assert (Hi8 : (i / 8 < length inp)%nat) by (apply Nat.Div0.div_lt_upper_bound; lia).
    cbn [eia3_bits].
    replace (Z.of_nat num + Z.of_nat i / 8 + 4) with (Z.of_nat (num + i / 8) + 4)
      by (rewrite Nat2Z.inj_add, Nat2Z.inj_div; reflexivity).
    destruct (ensure_spec st (num + i / 8) zk Hst HR ltac:(lia)) as (zk1 & -> & HC). cbn [negb].
    rewrite (covers_word st (num + i / 8)); [| easy |].
    2: { rewrite Nat.Div0.add_mod, Hnum, Nat.add_0_l, Nat.Div0.mod_mod. reflexivity. }
    replace (8 * (num + i / 8) + i mod 8)%nat with (8 * num + i)%nat
      by (pose proof (Nat.div_mod_eq i 8); lia).
    rewrite GET_BIT_spec by lia. replace (Z.of_nat i + 1) with (Z.of_nat (S i)) by lia.
    destruct (IH (S i) (if nth i (message_bits inp) false
       then Z.lxor T (zword_at st (8 * num + i)) else T) zk1) as (zk' & E & HR'); [lia | easy | |].
    { apply (covers_reach _ _ _ _ HC). pose proof (Nat.div_mod_eq i 8).
      pose proof (Nat.div_mod_eq (S i) 8). pose proof (Nat.mod_upper_bound i 8 ltac:(easy)).
      pose proof (Nat.mod_upper_bound (S i) 8 ltac:(easy)). lia. }
    exists zk'. split; [| exact HR']. rewrite E.
    destruct (nth_lookup_or_length (message_bits inp) i false) as [El | El];
      [| rewrite message_bits_length in El; lia].
    rewrite (drop_S _ _ _ El). cbn [eia3_sum]. now rewrite Nat.add_succ_r.
Qed.

(** The context after a message [m]. *)
Definition hashed (st : zstate) (m : list Z) (ctx : EIA3_CTX) : Prop :=
  reach st (length m) (eia3_zk ctx) /\ eia3_num ctx = Z.of_nat (length m) /\
  eia3_length ctx = Z.of_nat (8 * length m) /\ eia3_T ctx = eia3_sum st 0 (message_bits m) 0.

Lemma EIA3_Update_spec st ctx inp m :
  zstate_ok st -> (length m mod 8 = 0)%nat -> Z.of_nat (length m + length inp) < 2 ^ 29 ->
  hashed st m ctx ->
  fst (EIA3_Update ctx inp) = true /\ hashed st (m ++ inp) (snd (EIA3_Update ctx inp)).
Proof.
  intros Hst Hm HL (HR & En & El & ET). unfold EIA3_Update. rewrite En, El, ET.
  replace (Z.to_nat (8 * Z.of_nat (length inp))) with (8 * length inp)%nat by lia.
  destruct (eia3_bits_spec st (length m) inp (8 * length inp) 0
              (eia3_sum st 0 (message_bits m) 0) (eia3_zk ctx)) as (zk' & E & HR');
    [easy | easy | lia | easy | now rewrite Nat.add_0_r |].
  change (Z.of_nat 0) with 0 in E. rewrite E. cbn [fst snd]. split; [easy |]. unfold hashed. cbn [eia3_zk eia3_num eia3_length eia3_T].
  rewrite drop_0, Nat.add_0_r, message_bits_app, eia3_sum_app, length_app, message_bits_length.
  split; [easy | split; [lia | split; [lia | easy]]].
Qed.

(** ** Several pieces, and the result *)

(** Calls of [EIA3_Update], each checked by the caller. *)
Fixpoint eia3_updates (ctx : EIA3_CTX) (pieces : list (list Z)) : bool * EIA3_CTX :=
  match pieces with
  | [] => (true, ctx)
  | p :: pieces =>
      let '(ok, ctx) := EIA3_Update ctx p in if ok then eia3_updates ctx pieces else (false, ctx)
  end.

Fixpoint aligned (pieces : list (list Z)) : bool :=
  match pieces with
  | [] | [_] => true
  | p :: pieces => (length p mod 8 =? 0)%nat && aligned pieces
  end.

Lemma eia3_updates_spec st pieces : forall m ctx,
  zstate_ok st -> (length m mod 8 = 0)%nat -> aligned pieces = true ->
  Z.of_nat (length m + length (concat pieces)) < 2 ^ 29 -> hashed st m ctx ->
  fst (eia3_updates ctx pieces) = true /\
  hashed st (m ++ concat pieces) (snd (eia3_updates ctx pieces)).
Proof.
  induction pieces as [| p pieces IH]; intros m ctx Hst Hm Ha HL HH; cbn [eia3_updates concat].
  { now rewrite app_nil_r. }
  cbn [concat] in HL. rewrite length_app in HL.
  destruct (EIA3_Update_spec st ctx p m Hst Hm ltac:(lia) HH) as [Hf Hu].
  destruct (EIA3_Update ctx p) as [ok ctx1]. cbn [fst snd] in *. subst ok.
  destruct pieces as [| p' pieces].
  { cbn [eia3_updates concat]. now rewrite app_nil_r. }
  cbn [aligned] in Ha. apply andb_true_iff in Ha as [Ha1 Ha2]. apply Nat.eqb_eq in Ha1.
  rewrite app_assoc. apply IH; [easy | | exact Ha2 | rewrite length_app; lia | easy].
  rewrite length_app, Nat.Div0.add_mod, Hm, Ha1. reflexivity.
Qed.

Lemma zword_range st n : zstate_ok st -> is_u32 (zword st n).
Proof.
  intros H. apply (iter_work_ok n) in H. unfold zword, fw.
  pose proof (bx_range _ (proj1 H)) as (_ & _ & _ & B3).
  apply is_u32_lxor; [apply is_u32_u32 | exact B3].
Qed.

Lemma zword_at_word st n : zstate_ok st -> zword_at st (32 * n) = zword st n.
Proof.
  intros Hst. apply Z.bits_inj'. intros t Ht. rewrite zword_at_testbit by easy.
  destruct (Z.ltb_spec t 32) as [H | H].
  - rewrite andb_true_r. unfold zbit. rewrite nat_div_cell, nat_mod_cell by lia. f_equal. lia.
  - rewrite andb_false_r. symmetry. apply (testbit_high _ 32); [lia | now apply zword_range].
Qed.

Lemma EIA3_Final_spec st m ctx :
  zstate_ok st -> Z.of_nat (length m) < 2 ^ 28 -> hashed st m ctx ->
  EIA3_Final ctx = Some (store_u32_be
    (Z.lxor (Z.lxor (eia3_sum st 0 (message_bits m) 0) (zword_at st (8 * length m)))
            (zword st ((8 * length m + 31) / 32 + 1)))).
Proof.
  intros Hst HL (HR & _ & El & ET). unfold EIA3_Final. rewrite El, ET.
  set (n := length m) in *. set (L := ((8 * n + 31) / 32 + 1)%nat).
  assert (EL : (Z.of_nat (8 * n) + 64 + 31) / 32 - 1 = Z.of_nat L).
  { replace (Z.of_nat (8 * n) + 64 + 31) with (Z.of_nat (8 * n + 31) + 2 * 32) by lia.
    rewrite Z.div_add by easy. unfold L. rewrite (Nat2Z.inj_add (_ / 32)), Nat2Z.inj_div.
    change (Z.of_nat 32) with 32. lia. }
  assert (HLn : (n + 4 <= 4 * L <= n + 8)%nat).
  { unfold L. pose proof (Nat.div_mod_eq (8 * n + 31) 32).
    pose proof (Nat.mod_upper_bound (8 * n + 31) 32 ltac:(easy)). lia. }
  replace (Z.of_nat (8 * n) / 8) with (Z.of_nat n) by (zdm; lia).
  destruct (ensure_spec st n (eia3_zk ctx) Hst HR ltac:(pow2; lia)) as (zk1 & -> & HC). cbn [negb].
  rewrite (covers_word st n zk1 (8 * n)) by (easy || (now rewrite (Nat.mul_comm 8), Nat.div_mul)).
  rewrite EL. replace (Z.of_nat L * 32 / 8) with (Z.of_nat (4 * L)) by (zdm; lia).
  destruct (ensure_spec st (4 * L) zk1 Hst) as (zk2 & -> & HC2);
    [apply (covers_reach _ _ _ _ HC); lia | pow2; lia |]. cbn [negb].
  replace (Z.of_nat L * 32) with (Z.of_nat (32 * L)) by lia.
  assert (D8 : (32 * L / 8 = 4 * L)%nat)
    by (replace (32 * L)%nat with (4 * L * 8)%nat by lia; now apply Nat.div_mul).
  assert (M8 : forall k, (8 * k mod 8 = 0)%nat) by (intros; rewrite Nat.mul_comm; apply Nat.Div0.mod_mul).
  rewrite (covers_word st (4 * L) zk2 (32 * L)) by (easy || now rewrite D8).
  assert (M32 : (32 * L mod 8 = 0)%nat) by (replace (32 * L)%nat with (8 * (4 * L))%nat by lia; apply M8).
  rewrite M32, !M8, !Nat.add_0_r. replace (8 * (4 * L))%nat with (32 * L)%nat by lia.
  now rewrite zword_at_word.
Qed.

(** ** The initial context *)

Lemma eia3_iv_vector c0 c1 c2 c3 bearer direction spare :
  is_byte c0 -> is_byte c1 -> is_byte c2 -> is_byte c3 ->
  0 <= bearer < 32 -> 0 <= direction < 2 -> 0 <= spare < 4 ->
  eia3_iv (Some [c0; c1; c2; c3; 8 * bearer + 4 * direction + spare])
    = eia3_vector c0 c1 c2 c3 bearer direction.
Proof.
  intros H0 H1 H2 H3 Hb Hd Hs. unfold eia3_iv. cells.
  rewrite packed_bearer, packed_direction, bearer_byte by easy.
  fold (word_of c0 c1 c2 c3). destruct (count_bytes c0 c1 c2 c3) as (E0 & E1 & E2 & E3); try easy.
  rewrite E0, E1, E2, E3, Z.lxor_0_l, (direction_bit direction Hd) by lia. reflexivity.
Qed.

Lemma eia3_vector_block c0 c1 c2 c3 bearer direction :
  is_byte c0 -> is_byte c1 -> is_byte c2 -> is_byte c3 ->
  0 <= bearer < 32 -> 0 <= direction < 2 -> block16 (eia3_vector c0 c1 c2 c3 bearer direction).
Proof.
  intros. split; [reflexivity |]. unfold eia3_vector, is_byte in *.
  repeat apply Forall_cons; try apply Forall_nil; try (unfold is_byte; lia); auto.
  apply (lxor_range 8); pow2; lia.
Qed.

Lemma EIA3_Init_spec key iv :
  block16 key -> block16 (eia3_iv iv) ->
  zstate_ok (zuc_start key (eia3_iv iv)) /\
  hashed (zuc_start key (eia3_iv iv)) [] (EIA3_Init key iv).
Proof.
  intros Hk Hi. unfold EIA3_Init.
  set (zk := mk_zuc _ _ _ _ _ _ _ _ _ _ _ _ _ _).
  destruct (init_buffered zk eq_refl Hk Hi eq_refl eq_refl) as [Hst HB]. split; [exact Hst |].
  repeat split. exists 0%nat. split; [exact HB |]. cbn [length]. lia.
Qed.

(** C36: 128-EIA3 is computed as specified: for a 16-byte key, a counter, bearer
    and direction packed in five bytes, and a message under 2^28 bytes given in
    pieces that all, the last one apart, have a multiple of eight bytes, every
    [EIA3_Update] succeeds and [EIA3_Final] writes the MAC of the whole message,
    whatever the split. *)
Theorem eia3_correct key c0 c1 c2 c3 bearer direction spare pieces :
  block16 key -> is_byte c0 -> is_byte c1 -> is_byte c2 -> is_byte c3 ->
  0 <= bearer < 32 -> 0 <= direction < 2 -> 0 <= spare < 4 ->
  aligned pieces = true -> Z.of_nat (length (concat pieces)) < 2 ^ 28 ->
  let iv := [c0; c1; c2; c3; 8 * bearer + 4 * direction + spare] in
  let run := eia3_updates (EIA3_Init key (Some iv)) pieces in
  fst run = true /\
  EIA3_Final (snd run)
    = Some (eia3_mac key (eia3_vector c0 c1 c2 c3 bearer direction) (concat pieces)).
Proof.
  intros Hk H0 H1 H2 H3 Hb Hd Hs Ha HL iv run.
  pose proof (eia3_iv_vector c0 c1 c2 c3 bearer direction spare H0 H1 H2 H3 Hb Hd Hs) as Ei.
  pose proof (eia3_vector_block c0 c1 c2 c3 bearer direction H0 H1 H2 H3 Hb Hd) as Hv.
  fold iv in Ei. rewrite <- Ei in *. clear Ei.
  destruct (EIA3_Init_spec key (Some iv) Hk Hv) as [Hst HH].
  destruct (eia3_updates_spec _ pieces [] _ Hst eq_refl Ha ltac:(cbn [length]; lia) HH) as [Hf Hu].
  fold run in Hf, Hu. split; [exact Hf |].
  rewrite (EIA3_Final_spec _ _ _ Hst HL Hu). unfold eia3_mac.
  do 4 f_equal. lia.
Qed.

(** A test vector of the specification: 90 bits of zeros there, twelve bytes
    here, in pieces of eight and four bytes. *)
Lemma eia3_correct_witness :
  let key := [0x47; 0x05; 0x41; 0x25; 0x56; 0x1e; 0xb2; 0xdd; 0xa9; 0x40; 0x59; 0xda; 0x05; 0x09; 0x78; 0x50] in
  let run := eia3_updates (EIA3_Init key (Some [0x56; 0x1e; 0xb2; 0xdd; 0xa0])) [repeat 0 8; repeat 0 4] in
  EIA3_Final (snd run) = Some (eia3_mac key (eia3_vector 0x56 0x1e 0xb2 0xdd 0x14 0) (repeat 0 12)).
Proof.
  intros key run.
  refine (proj2 (eia3_correct key 0x56 0x1e 0xb2 0xdd 0x14 0 0 [repeat 0 8; repeat 0 4] _ _ _ _ _ _ _ _ _ _));
    try (unfold is_byte; lia); try reflexivity.
  split; [reflexivity |].
  apply (bool_decide_unpack (Forall (fun x => 0 <= x < 256) key)). vm_compute. exact I.
Defined.

(** the MAC depends on how the caller splits the message: with the key of
    sixteen bytes 1 and a zero vector, the message of the bytes 1 to 11 given as
    three and eight bytes does not get the MAC that the specification assigns to
    it, although every call succeeds; given as eight and three it does.
    [EIA3_Update] asks for the keystream word at the position within the piece,
    and not within the message. *)
Theorem eia3_split_dependent :
  let ctx := EIA3_Init (repeat 1 16) (Some (repeat 0 5)) in
  let mac := eia3_mac (repeat 1 16) (eia3_vector 0 0 0 0 0 0) [1; 2; 3; 4; 5; 6; 7; 8; 9; 10; 11] in
  let bad := eia3_updates ctx [[1; 2; 3]; [4; 5; 6; 7; 8; 9; 10; 11]] in
  let good := eia3_updates ctx [[1; 2; 3; 4; 5; 6; 7; 8]; [9; 10; 11]] in
  fst bad = true /\ fst good = true /\
  EIA3_Final (snd good) = Some mac /\ EIA3_Final (snd bad) <> Some mac.
Proof. vm_compute. intuition discriminate. Qed.

(** Test vectors of the specification. *)
Example eia3_vector_1 :
  EIA3_Final (snd (EIA3_Update (EIA3_Init (repeat 0 16) (Some (repeat 0 5))) [0]))
  = Some [0x39; 0x0a; 0x91; 0xb7].
Proof. vm_compute. reflexivity. Qed.
