(* ===== verification/Eea3Spec.v ===== *)
(** * 128-EEA3 against its specification

    Enciphering is the exclusive or with the keystream bytes, however the caller
    splits the stream, so that deciphering inverts it. *)

From S2P Require Import Prelude Buffers Zuc ZucSpec.

(** The initial vector of a counter, bearer and direction. *)
Definition eea3_vector (c0 c1 c2 c3 bearer direction : Z) : list Z :=
  let b := 8 * bearer + 4 * direction in
  [c0; c1; c2; c3; b; 0; 0; 0; c0; c1; c2; c3; b; 0; 0; 0].

(** The stream from byte [pos] on. *)
Definition keyed (st : zstate) (pos : nat) (m : list Z) : list Z :=
  zip_with Z.lxor m (map (zbyte st) (seq pos (length m))).

Lemma keyed_cons st pos b m : keyed st pos (b :: m) = Z.lxor b (zbyte st pos) :: keyed st (S pos) m.
Proof. reflexivity. Qed.

Lemma keyed_app st pos a b : keyed st pos (a ++ b) = keyed st pos a ++ keyed st (pos + length a) b.
Proof.
  revert pos. induction a as [| x a IH]; intros pos; cbn [app length].
  - now rewrite Nat.add_0_r.
  - rewrite !keyed_cons, IH. cbn [app]. now rewrite Nat.add_succ_r.
Qed.

Lemma keyed_length st pos m : length (keyed st pos m) = length m.
Proof. unfold keyed. rewrite length_zip_with, length_map, length_seq. lia. Qed.

Lemma keyed_inv st pos m : keyed st pos (keyed st pos m) = m.
Proof.
  revert pos. induction m as [| b m IH]; intros pos; [reflexivity |].
  rewrite !keyed_cons, IH. now rewrite Z.lxor_assoc, Z.lxor_nilpotent, Z.lxor_0_r.
Qed.

(** ** The buffer *)

(** Byte [k] is in the buffer, or the first of the next filling. *)
Definition near_byte (st : zstate) (k : nat) (zk : ZUC_KEY) : Prop :=
  exists g, buffered st g zk /\ 8 * Z.of_nat g - 8 <= Z.of_nat k <= 8 * Z.of_nat g.
Definition holds_byte (st : zstate) (k : nat) (zk : ZUC_KEY) : Prop :=
  exists g, buffered st g zk /\ 8 * Z.of_nat g - 8 <= Z.of_nat k < 8 * Z.of_nat g.

Lemma holds_at st k zk : holds_byte st k zk -> near_byte st k zk.
Proof. intros (g & Hb & Hw). exists g. split; [easy | lia]. Qed.

Lemma holds_next st k zk : holds_byte st k zk -> near_byte st (S k) zk.
Proof. intros (g & Hb & Hw). exists g. split; [easy | lia]. Qed.

Lemma refill st k zk :
  zstate_ok st -> near_byte st k zk -> Z.of_nat k + 8 < 2 ^ 32 ->
  exists zk', ensure (keystream_len zk <=? Z.of_nat k) zk = (true, zk') /\ holds_byte st k zk'.
Proof.
  intros Hst (g & Hb & Hw) Hk. unfold ensure. rewrite (buf_len _ _ _ Hb).
  destruct (Z.leb_spec (8 * Z.of_nat g) (Z.of_nat k)).
  - destruct (generate_spec st g zk Hst Hb) as [Hf Hb']; [lia |].
    destruct (ZUC_generate_keystream zk) as [ok zk']. cbn [fst snd] in *. subst ok.
    exists zk'. split; [easy |]. exists (g + 1)%nat. split; [easy | lia].
  - exists zk. split; [easy |]. exists g. split; [easy | lia].
Qed.

Lemma holds_byte_value st k zk :
  holds_byte st k zk -> get (keystream zk) (Z.to_nat (Z.of_nat k mod 8)) = zbyte st k.
Proof.
  intros (g & Hb & Hw). rewrite (buf_bytes _ _ _ Hb) by (zdm; lia). f_equal. zdm; lia.
Qed.

(** ** One piece *)

Lemma eea3_loop_spec st num inp : forall i zk,
  zstate_ok st -> near_byte st (num + i) zk -> Z.of_nat (num + i + length inp) + 8 < 2 ^ 32 ->
  exists zk', eea3_loop inp (Z.of_nat i) (Z.of_nat num) 8 zk = (true, keyed st (num + i) inp, zk') /\
    near_byte st (num + i + length inp) zk'.
Proof.
  induction inp as [| b inp IH]; intros i zk Hst Ha HL; cbn [eea3_loop length] in *.
  { exists zk. now rewrite Nat.add_0_r. }
  rewrite u32_small by lia. rewrite <- Nat2Z.inj_add.
  destruct (refill st (num + i) zk Hst Ha ltac:(lia)) as (zk1 & -> & Hh). cbn [negb].
  rewrite (holds_byte_value _ _ _ Hh). replace (Z.of_nat i + 1) with (Z.of_nat (S i)) by lia.
  apply holds_next in Hh. rewrite <- Nat.add_succ_r in Hh.
  destruct (IH (S i) zk1 Hst Hh ltac:(lia)) as (zk2 & -> & Ha').
  exists zk2. rewrite keyed_cons, Nat.add_succ_r in *. split; [reflexivity |].
  now replace (num + i + S (length inp))%nat with (S (num + i) + length inp)%nat by lia.
Qed.

(** The context after [pos] bytes. *)
Definition streaming (st : zstate) (pos : nat) (ctx : PROV_ZUC_EEA3_CTX) : Prop :=
  near_byte st pos (eea3_ks ctx) /\ eea3_num ctx = Z.of_nat pos.

Lemma cipher_spec st pos ctx inp :
  zstate_ok st -> streaming st pos ctx -> Z.of_nat (pos + length inp) + 8 < 2 ^ 32 ->
  exists ctx', zuc_128_eea3_cipher ctx inp = (true, keyed st pos inp, ctx') /\
    streaming st (pos + length inp) ctx'.
Proof.
  intros Hst [Ha En] HL. unfold zuc_128_eea3_cipher. rewrite En.
  destruct (refill st pos (eea3_ks ctx) Hst Ha ltac:(lia)) as (zk1 & -> & Hh). cbn [negb].
  assert (EL : zk_L zk1 * 4 = 8).
  { destruct Hh as (g & Hb & Hw). rewrite (buf_L _ _ _ Hb) by lia. reflexivity. }
  rewrite EL. apply holds_at in Hh.
  destruct (eea3_loop_spec st pos inp 0 zk1 Hst) as (zk2 & E & Ha'); [now rewrite Nat.add_0_r | lia |].
  rewrite Nat.add_0_r in *. change (Z.of_nat 0) with 0 in E. rewrite E. eexists. split; [reflexivity |].
  split; [exact Ha' |]. cbn [eea3_num]. rewrite u32_small; lia.
Qed.

(** ** A stream in pieces *)

Fixpoint eea3_stream (ctx : PROV_ZUC_EEA3_CTX) (pieces : list (list Z)) :
  bool * list Z * PROV_ZUC_EEA3_CTX :=
  match pieces with
  | [] => (true, [], ctx)
  | p :: pieces =>
      let '(ok, out, ctx) := zuc_128_eea3_cipher ctx p in
      if ok then let '(ok, out', ctx) := eea3_stream ctx pieces in (ok, out ++ out', ctx)
      else (false, out, ctx)
  end.

Lemma eea3_stream_spec st pieces : forall pos ctx,
  zstate_ok st -> streaming st pos ctx -> Z.of_nat (pos + length (concat pieces)) + 8 < 2 ^ 32 ->
  fst (eea3_stream ctx pieces) = (true, keyed st pos (concat pieces)).
Proof.
  induction pieces as [| p pieces IH]; intros pos ctx Hst Hs HL; [reflexivity |].
  cbn [eea3_stream concat] in *. rewrite length_app in HL.
  destruct (cipher_spec st pos ctx p Hst Hs ltac:(lia)) as (ctx1 & -> & Hs1).
  specialize (IH _ ctx1 Hst Hs1 ltac:(lia)). rewrite keyed_app.
  destruct (eea3_stream ctx1 pieces) as [[ok out] ctx2]. cbn [fst] in *. now simplify_eq.
Qed.

(** ** Key and vector *)

(** A context whose vector is set, before its key: the state after
    [ossl_cipher_generic_einit] has stored the vector. *)
Definition with_vector (iv : list Z) (ctx : PROV_ZUC_EEA3_CTX) : Prop :=
  eea3_iv_set ctx = true /\ eea3_oiv ctx = iv /\ eea3_num ctx = 0 /\
  length (keystream (eea3_ks ctx)) = 8%nat.

Lemma initkey_spec key ctx iv :
  block16 key -> block16 (eea3_iv iv) -> with_vector iv ctx ->
  zstate_ok (zuc_start key (eea3_iv iv)) /\
  streaming (zuc_start key (eea3_iv iv)) 0 (snd (zuc_128_eea3_initkey ctx (Some key))).
Proof.
  intros Hk Hi (Hs & Ho & Hn & Hl). unfold zuc_128_eea3_initkey, zuc_128_eea3_initiv.
  cbn [eea3_iv_set eea3_k eea3_ks eea3_oiv eea3_num]. rewrite Hs, Ho, Hn. cbn [snd].
  set (zk := mk_zuc _ _ _ _ _ _ _ _ _ _ _ _ _ _).
  destruct (init_buffered zk eq_refl Hk Hi Hl eq_refl) as [Hst HB]. split; [exact Hst |].
  split; [| reflexivity]. exists 0%nat. split; [exact HB | lia].
Qed.

Lemma eea3_iv_vector c0 c1 c2 c3 bearer direction spare :
  is_byte c0 -> is_byte c1 -> is_byte c2 -> is_byte c3 ->
  0 <= bearer < 32 -> 0 <= direction < 2 -> 0 <= spare < 4 ->
  eea3_iv [c0; c1; c2; c3; 8 * bearer + 4 * direction + spare]
    = eea3_vector c0 c1 c2 c3 bearer direction.
Proof.
  intros H0 H1 H2 H3 Hb Hd Hs. unfold eea3_iv. cells.
  rewrite packed_bearer, packed_direction by easy.
  fold (word_of c0 c1 c2 c3). destruct (count_bytes c0 c1 c2 c3) as (E0 & E1 & E2 & E3); try easy.
  assert (E8 : Z.land (Z.lor (u32 (Z.shiftl bearer 3)) (u32 (Z.shiftl (Z.land direction 1) 2))) 0xFC
               = 8 * bearer + 4 * direction).
  { rewrite (direction_bit direction Hd) by lia.
    rewrite u32_small by (rewrite Z.shiftl_mul_pow2 by easy; pow2; lia).
    rewrite Z.lor_comm, lor_shiftl_add by (easy || (pow2; lia)).
    change 0xFC with (Z.shiftl (Z.ones 6) 2).
    replace (2 ^ 2 * direction + 2 ^ 3 * bearer) with (Z.shiftl (2 * bearer + direction) 2)
      by (rewrite Z.shiftl_mul_pow2 by easy; pow2; lia).
    rewrite <- Z.shiftl_land, Z.land_ones, Z.mod_small by (easy || (pow2; lia)).
    rewrite Z.shiftl_mul_pow2 by easy. pow2; lia. }
  rewrite E0, E1, E2, E3, E8. reflexivity.
Qed.

Lemma eea3_vector_block c0 c1 c2 c3 bearer direction :
  is_byte c0 -> is_byte c1 -> is_byte c2 -> is_byte c3 ->
  0 <= bearer < 32 -> 0 <= direction < 2 -> block16 (eea3_vector c0 c1 c2 c3 bearer direction).
Proof.
  intros. split; [reflexivity |]. unfold eea3_vector, is_byte in *.
  repeat apply Forall_cons; try apply Forall_nil; auto; unfold is_byte; lia.
Qed.

(** The stream of a freshly keyed context. *)
Lemma keyed_stream key c0 c1 c2 c3 bearer direction spare ctx pieces :
  block16 key -> is_byte c0 -> is_byte c1 -> is_byte c2 -> is_byte c3 ->
  0 <= bearer < 32 -> 0 <= direction < 2 -> 0 <= spare < 4 ->
  with_vector [c0; c1; c2; c3; 8 * bearer + 4 * direction + spare] ctx ->
  Z.of_nat (length (concat pieces)) + 8 < 2 ^ 32 ->
  fst (eea3_stream (snd (zuc_128_eea3_initkey ctx (Some key))) pieces)
    = (true, keyed (zuc_start key (eea3_vector c0 c1 c2 c3 bearer direction)) 0 (concat pieces)).
Proof.
  intros Hk H0 H1 H2 H3 Hb Hd Hs Hw HL.
  pose proof (eea3_iv_vector c0 c1 c2 c3 bearer direction spare H0 H1 H2 H3 Hb Hd Hs) as Ei.
  pose proof (eea3_vector_block c0 c1 c2 c3 bearer direction H0 H1 H2 H3 Hb Hd) as Hv.
  rewrite <- Ei in *. destruct (initkey_spec key ctx _ Hk Hv Hw) as [Hst Hs0].
  now apply eea3_stream_spec.
Qed.

(** C37: 128-EEA3 enciphers as specified, however the stream is split: after key
    and vector are set, calls of [zuc_128_eea3_cipher] on any pieces (empty ones
    included) all succeed and write the exclusive or of the input with the ZUC
    keystream of that key, counter, bearer and direction from its first byte
    on, for streams that the 32-bit position can count. *)
Theorem eea3_correct key c0 c1 c2 c3 bearer direction spare ctx pieces :
  block16 key -> is_byte c0 -> is_byte c1 -> is_byte c2 -> is_byte c3 ->
  0 <= bearer < 32 -> 0 <= direction < 2 -> 0 <= spare < 4 ->
  with_vector [c0; c1; c2; c3; 8 * bearer + 4 * direction + spare] ctx ->
  Z.of_nat (length (concat pieces)) + 8 < 2 ^ 32 ->
  let m := concat pieces in
  let st := zuc_start key (eea3_vector c0 c1 c2 c3 bearer direction) in
  fst (eea3_stream (snd (zuc_128_eea3_initkey ctx (Some key))) pieces)
    = (true, zip_with Z.lxor m (map (zbyte st) (seq 0 (length m)))).
Proof. intros. now apply keyed_stream with spare. Qed.

(** deciphering returns the message: two contexts set with the same key and
    vector, one of which enciphers a message in some pieces and the other the
    resulting stream in other pieces, give back the message. *)
Theorem eea3_roundtrip key c0 c1 c2 c3 bearer direction spare ctx ctx' pieces pieces' :
  block16 key -> is_byte c0 -> is_byte c1 -> is_byte c2 -> is_byte c3 ->
  0 <= bearer < 32 -> 0 <= direction < 2 -> 0 <= spare < 4 ->
  with_vector [c0; c1; c2; c3; 8 * bearer + 4 * direction + spare] ctx ->
  with_vector [c0; c1; c2; c3; 8 * bearer + 4 * direction + spare] ctx' ->
  Z.of_nat (length (concat pieces)) + 8 < 2 ^ 32 ->
  concat pieces' = snd (fst (eea3_stream (snd (zuc_128_eea3_initkey ctx (Some key))) pieces)) ->
  fst (eea3_stream (snd (zuc_128_eea3_initkey ctx' (Some key))) pieces') = (true, concat pieces).
Proof.
  intros Hk H0 H1 H2 H3 Hb Hd Hs Hw Hw' HL E.
  rewrite (keyed_stream key c0 c1 c2 c3 bearer direction spare) in E by easy. cbn [snd] in E.
  rewrite (keyed_stream key c0 c1 c2 c3 bearer direction spare)
    by (try easy; rewrite E, keyed_length; easy).
  now rewrite E, keyed_inv.
Qed.

(** Test set 1 of the EEA3 specification, 24 of its 25 bytes; the plaintext in
    two orders of pieces. *)
Definition eea3_key : list Z :=
  [0x17; 0x3d; 0x14; 0xba; 0x50; 0x03; 0x73; 0x1d; 0x7a; 0x60; 0x04; 0x94; 0x70; 0xf0; 0x0a; 0x29].
Definition eea3_ctx : PROV_ZUC_EEA3_CTX :=
  mk_eea3 true [0x66; 0x03; 0x54; 0x92; 0x78] 0 None
    (mk_zuc (repeat 0 16) 0 0 0 0 0 0 (repeat 0 16) (repeat 0 16) (repeat 0 8) (repeat 0 8) 0 0 false).
Definition eea3_pieces : list (list Z) :=
  [[0x6c; 0xf6; 0x53]; []; [0x40; 0x73; 0x55; 0x52; 0xab; 0x0c; 0x97; 0x52]; [0xfa; 0x6f; 0x90; 0x25; 0xfe]].

Lemma eea3_key_block : block16 eea3_key.
Proof.
  split; [reflexivity |].
  apply (bool_decide_unpack (Forall (fun x => 0 <= x < 256) eea3_key)). vm_compute. exact I.
Qed.

Lemma eea3_correct_witness :
  fst (eea3_stream (snd (zuc_128_eea3_initkey eea3_ctx (Some eea3_key))) eea3_pieces)
  = (true, [0xa6; 0xc8; 0x5f; 0xc6; 0x6a; 0xfb; 0x85; 0x33; 0xaa; 0xfc; 0x25; 0x18; 0xdf; 0xe7; 0x84; 0x94]).
Proof.
  etransitivity.
  - refine (eea3_correct eea3_key 0x66 0x03 0x54 0x92 0xf 0 0 eea3_ctx eea3_pieces
      eea3_key_block _ _ _ _ _ _ _ _ _); unfold is_byte; try lia; [now repeat split | reflexivity].
  - vm_compute. reflexivity.
Defined.

Lemma eea3_roundtrip_witness :
  fst (eea3_stream (snd (zuc_128_eea3_initkey eea3_ctx (Some eea3_key)))
    [[0xa6; 0xc8; 0x5f; 0xc6; 0x6a; 0xfb; 0x85; 0x33; 0xaa]; [0xfc; 0x25; 0x18; 0xdf; 0xe7; 0x84; 0x94]])
  = (true, concat eea3_pieces).
Proof.
  refine (eea3_roundtrip eea3_key 0x66 0x03 0x54 0x92 0xf 0 0 eea3_ctx eea3_ctx eea3_pieces _
    eea3_key_block _ _ _ _ _ _ _ _ _ _ _); unfold is_byte; try lia;
    [now repeat split | now repeat split | reflexivity | vm_compute; reflexivity].
Defined.
