(* ===== verification/CMem.v ===== *)
(** * C memory

    Blocks allocated with [OPENSSL_malloc] and given back with [OPENSSL_free]
    or [OPENSSL_clear_free] ([crypto/mem.c]), and the computations over them.  An access that C
    does not define ends the computation with a [fault]: an access through a
    null, freed or uninitialised pointer, past the end of a block, or a second
    [free]. *)

From stdpp Require Export gmap.
From S2P Require Import Prelude Buffers.

#[global] Open Scope Z_scope.

Inductive fault : Set :=
| NullAccess      (** access through a null pointer *)
| DeadAccess      (** access to a freed block *)
| OutOfBounds     (** access past the end of a block *)
| DeadFree        (** free of a block that is not live *)
| WildPointer     (** use of a pointer that was never initialised *)
| Unfinished.     (** a rejection sampler needs more fuel: no fault of the code *)

#[export] Instance fault_eq_dec : EqDecision fault.
Proof. solve_decision. Defined.

Inductive res (A : Type) : Type := Val (a : A) | Stuck (f : fault).
Arguments Val {A} a.
Arguments Stuck {A} f.

#[export] Instance res_ret : MRet res := fun _ a => Val a.
#[export] Instance res_bind : MBind res :=
  fun _ _ k r => match r with Val a => k a | Stuck f => Stuck f end.

(** ** Memory *)

(** A pointer to the start of a block; an uninitialised variable is [Wild]. *)
Inductive ptr : Set := NULL | Ptr (a : Z) | Wild.

#[export] Instance ptr_eq_dec : EqDecision ptr.
Proof. solve_decision. Defined.

(** The live blocks, and the number of calls of the allocator so far, which
    also names the next block. *)
Record memory := mk_memory { heap : gmap Z (list Z); next : Z }.

(** Which calls of the allocator succeed, and what a fresh block holds. *)
Class Alloc := { alloc_ok : Z -> bool; junk : Z -> nat -> Z }.

Section Memory.
Context {A : Alloc}.

Definition fresh_block (a : Z) (n : nat) : list Z := map (junk a) (seq 0 n).

(** [CRYPTO_malloc] returns a null pointer for no bytes. *)
Definition mem_malloc (n : nat) (m : memory) : ptr * memory :=
  if (n =? 0)%nat || negb (alloc_ok (next m)) then (NULL, mk_memory (heap m) (next m + 1))
  else (Ptr (next m), mk_memory (<[next m := fresh_block (next m) n]> (heap m)) (next m + 1)).

(** [CRYPTO_free]: a null pointer is skipped. *)
Definition mem_free (p : ptr) (m : memory) : res memory :=
  match p with
  | NULL => Val m
  | Wild => Stuck WildPointer
  | Ptr a => match heap m !! a with
             | Some _ => Val (mk_memory (delete a (heap m)) (next m))
             | None => Stuck DeadFree
             end
  end.

(** The block behind a pointer. *)
Definition mem_block (p : ptr) (m : memory) : res (Z * list Z) :=
  match p with
  | NULL => Stuck NullAccess
  | Wild => Stuck WildPointer
  | Ptr a => match heap m !! a with Some b => Val (a, b) | None => Stuck DeadAccess end
  end.

(** [n] bytes at [p + off] *)
Definition mem_load (p : ptr) (off n : nat) (m : memory) : res (list Z) :=
  '(_, b) ← mem_block p m;
  if (off + n <=? length b)%nat then Val (take n (drop off b)) else Stuck OutOfBounds.

(** Writes [bs] at [p + off]. *)
Definition mem_store (p : ptr) (off : nat) (bs : list Z) (m : memory) : res memory :=
  '(a, b) ← mem_block p m;
  if (off + length bs <=? length b)%nat
  then Val (mk_memory (<[a := copy_at off bs b]> (heap m)) (next m))
  else Stuck OutOfBounds.

(** [CRYPTO_clear_free]: the bytes are overwritten before the block is freed. *)
Definition mem_clear_free (p : ptr) (n : nat) (m : memory) : res memory :=
  match p with
  | NULL => Val m
  | _ => m ← (if (n =? 0)%nat then Val m else mem_store p 0 (repeat 0 n) m); mem_free p m
  end.

End Memory.

(** ** Computations over a state that has a memory *)

Class HasMemory (S : Type) := {
  mem_of : S -> memory;
  with_mem : memory -> S -> S;
  mem_of_with m s : mem_of (with_mem m s) = m;
  with_with m m' s : with_mem m (with_mem m' s) = with_mem m s;
  with_mem_of s : with_mem (mem_of s) s = s }.

#[export] Instance memory_has_memory : HasMemory memory.
Proof. refine {| mem_of m := m; with_mem m _ := m |}; reflexivity. Defined.

Definition prog (S A : Type) : Type := S -> res (A * S).

#[export] Instance prog_ret {S} : MRet (prog S) := fun _ a s => Val (a, s).
#[export] Instance prog_bind {S} : MBind (prog S) :=
  fun _ _ k c s => match c s with Val (a, s) => k a s | Stuck f => Stuck f end.

Section Prog.
Context {S : Type} {H : HasMemory S} {L : Alloc}.

(** A computation on the memory, on a part of the state, and a fault. *)
Definition on_mem (f : memory -> res memory) : prog S unit :=
  fun s => match f (mem_of s) with Val m => Val (tt, with_mem m s) | Stuck x => Stuck x end.
Definition gets {B} (f : S -> B) : prog S B := fun s => Val (f s, s).
Definition modify (f : S -> S) : prog S unit := fun s => Val (tt, f s).
Definition stuck {B} (x : fault) : prog S B := fun _ => Stuck x.

Definition OPENSSL_malloc (n : nat) : prog S ptr :=
  fun s => let '(p, m) := mem_malloc n (mem_of s) in Val (p, with_mem m s).
Definition OPENSSL_free (p : ptr) : prog S unit := on_mem (mem_free p).
Definition OPENSSL_clear_free (p : ptr) (n : nat) : prog S unit := on_mem (mem_clear_free p n).
Definition load (p : ptr) (off n : nat) : prog S (list Z) :=
  fun s => match mem_load p off n (mem_of s) with Val b => Val (b, s) | Stuck x => Stuck x end.
Definition store (p : ptr) (off : nat) (bs : list Z) : prog S unit := on_mem (mem_store p off bs).

(** [memcpy(p + off, q + qoff, n)] *)
Definition memcpy (p : ptr) (off : nat) (q : ptr) (qoff n : nat) : prog S unit :=
  b ← load q qoff n; store p off b.

End Prog.

Definition is_null (p : ptr) : bool := match p with NULL => true | _ => false end.

(** ** Laws *)

(** Blocks are numbered upwards. *)
Definition mem_wf (m : memory) : Prop := forall a, next m <= a -> heap m !! a = None.

Section Laws.
Context {A : Alloc}.

Lemma fresh_block_length a n : length (fresh_block a n) = n.
Proof. unfold fresh_block. now rewrite length_map, length_seq. Qed.

Lemma malloc_wf n m p m' : mem_wf m -> mem_malloc n m = (p, m') -> mem_wf m'.
Proof.
  unfold mem_malloc, mem_wf. intros W E a Ha.
  destruct (_ || _); injection E as <- <-; cbn [next heap] in *; [apply W; lia |].
  rewrite lookup_insert_ne by lia. apply W; lia.
Qed.

Lemma free_wf p m m' : mem_wf m -> mem_free p m = Val m' -> mem_wf m'.
Proof.
  unfold mem_free, mem_wf. intros W E x Hx. destruct p as [| a |]; [simplify_eq; auto | | easy].
  destruct (heap m !! a); [| easy]. injection E as <-. cbn [next heap] in *.
  rewrite lookup_delete_None. auto.
Qed.

Lemma store_wf p off bs m m' : mem_wf m -> mem_store p off bs m = Val m' -> mem_wf m'.
Proof.
  unfold mem_store, mem_block, mem_wf. intros W E x Hx. destruct p as [| a |]; [easy | | easy].
  destruct (heap m !! a) eqn:Ea; [| easy]. cbn in E.
  destruct (_ <=? _)%nat; [| easy]. injection E as <-. cbn [next heap] in *.
  rewrite lookup_insert_ne; [auto |]. intros ->. rewrite W in Ea by lia. easy.
Qed.

(** A block of the exact size is overwritten whole. *)
Lemma store_whole a b bs m :
  heap m !! a = Some b -> length bs = length b ->
  mem_store (Ptr a) 0 bs m = Val (mk_memory (<[a := bs]> (heap m)) (next m)).
Proof.
  intros Ea E. unfold mem_store, mem_block. rewrite Ea. cbn.
  rewrite (proj2 (Nat.leb_le _ _)) by lia.
  unfold copy_at. cbn [take app Nat.add]. rewrite drop_ge by lia. now rewrite app_nil_r.
Qed.

Lemma clear_free_live a b n m :
  heap m !! a = Some b -> (n <= length b)%nat ->
  mem_clear_free (Ptr a) n m = Val (mk_memory (delete a (heap m)) (next m)).
Proof.
  intros Ea Hn. unfold mem_clear_free, mem_store, mem_block, mem_free. rewrite Ea. cbn.
  destruct n as [| n]; cbn [Nat.eqb mbind res_bind]; [now rewrite Ea |].
  rewrite repeat_length, (proj2 (Nat.leb_le _ _)) by lia. cbn [mbind res_bind].
  cbn [heap]. rewrite lookup_insert_eq. cbn [next]. now rewrite delete_insert_eq.
Qed.

Lemma clear_free_dead a n m :
  heap m !! a = None -> exists x, mem_clear_free (Ptr a) n m = Stuck x /\ (x = DeadAccess \/ x = DeadFree).
Proof.
  intros Ea. unfold mem_clear_free, mem_store, mem_block, mem_free. rewrite Ea. cbn.
  destruct n; cbn [Nat.eqb mbind res_bind]; rewrite ?Ea; eauto.
Qed.

Lemma load_whole a b n m :
  heap m !! a = Some b -> n = length b -> mem_load (Ptr a) 0 n m = Val b.
Proof.
  intros Ea ->. unfold mem_load, mem_block. rewrite Ea. cbn.
  rewrite Nat.leb_refl, drop_0, take_ge by lia. reflexivity.
Qed.

End Laws.

(** ** Reasoning about runs

    [wp c Q s] says that [c], run in the state [s], does not fault and that [Q]
    holds of its result and of the state it leaves. *)

(** The result of a computation that does not look at the state *)
Definition reads {S B} (r : res B) : prog S B :=
  fun s => match r with Val b => Val (b, s) | Stuck f => Stuck f end.

Section Wp.
Context {S : Type}.

Definition wp {B} (c : prog S B) (Q : B -> S -> Prop) (s : S) : Prop :=
  match c s with Val (b, s') => Q b s' | Stuck _ => False end.

Lemma wp_mono {B} (c : prog S B) (Q Q' : B -> S -> Prop) s :
  wp c Q s -> (forall b s', Q b s' -> Q' b s') -> wp c Q' s.
Proof. unfold wp. destruct (c s) as [[] |]; auto. Qed.

Lemma wp_run {B} (c : prog S B) Q s : wp c Q s -> exists b s', c s = Val (b, s') /\ Q b s'.
Proof. unfold wp. destruct (c s) as [[b s'] |]; [eauto | easy]. Qed.

Lemma wp_bind {B B'} (c : prog S B) (k : B -> prog S B') Q s :
  wp c (fun b => wp (k b) Q) s -> wp (c ≫= k) Q s.
Proof. unfold wp, mbind, prog_bind. now destruct (c s) as [[] |]. Qed.

Lemma wp_ret {B} (b : B) Q s : Q b s -> wp (mret b) Q s.
Proof. auto. Qed.

Lemma wp_gets {B} (f : S -> B) Q s : Q (f s) s -> wp (gets f) Q s.
Proof. auto. Qed.

Lemma wp_modify f Q s : Q tt (f s) -> wp (modify f) Q s.
Proof. auto. Qed.

Lemma wp_reads {B} (r : res B) b Q s : r = Val b -> Q b s -> wp (reads r) Q s.
Proof. unfold wp, reads. now intros ->. Qed.

(** A property of the result of a run, also of a fault: its first steps are
    followed with [wp]. *)
Definition ends {B} (P : res (B * S) -> Prop) (c : prog S B) (s : S) : Prop := P (c s).

Lemma ends_bind {B B'} (c : prog S B) (k : B -> prog S B') P s :
  wp c (fun b => ends P (k b)) s -> ends P (c ≫= k) s.
Proof. unfold ends, wp, mbind, prog_bind. now destruct (c s) as [[] |]. Qed.

Definition returning {B} (Q : B -> S -> Prop) (r : res (B * S)) : Prop :=
  match r with Val (b, s') => Q b s' | Stuck _ => False end.

Lemma wp_ends {B} (c : prog S B) Q s : ends (returning Q) c s -> wp c Q s.
Proof. auto. Qed.
Lemma ends_wp {B} (c : prog S B) Q s : wp c Q s -> ends (returning Q) c s.
Proof. auto. Qed.

Lemma ends_fault {B B'} (c : prog S B) (k : B -> prog S B') f s :
  ends (eq (Stuck f)) c s -> ends (eq (Stuck f)) (c ≫= k) s.
Proof. unfold ends, mbind, prog_bind. now intros <-. Qed.

End Wp.
