(* ===== verification/Packet.v ===== *)
(** * Reading packets

    The [PACKET] of [include/internal/packet.h]: a view of [remaining] bytes
    at the position [curr] of a buffer that it does not own.  Every read is
    checked against the buffer, so that a result [Stuck] would be a read that
    C does not define. *)

From S2P Require Import Prelude Buffers CMem.

Definition SIZE_MAX : Z := 2 ^ 64 - 1.

(** [curr] is an offset into the buffer [base]. *)
Record PACKET := mk_packet { base : list Z; curr : Z; remaining : Z }.

(** [*(pkt->curr + i)], and [n] bytes at a position of the buffer *)
Definition deref (pkt : PACKET) (i : Z) : res Z :=
  if 0 <=? curr pkt + i
  then match base pkt !! Z.to_nat (curr pkt + i) with Some b => Val b | None => Stuck OutOfBounds end
  else Stuck OutOfBounds.
Definition bytes_at (b : list Z) (p n : Z) : res (list Z) :=
  if (0 <=? p) && (p + n <=? Z.of_nat (length b))
  then Val (take (Z.to_nat n) (drop (Z.to_nat p) b)) else Stuck OutOfBounds.

(** Pointers are 64 bits wide. *)
Definition packet_forward (pkt : PACKET) (len : Z) : PACKET :=
  mk_packet (base pkt) (u64 (curr pkt + len)) (u64 (remaining pkt - len)).

Definition PACKET_remaining (pkt : PACKET) : Z := remaining pkt.
Definition PACKET_end (pkt : PACKET) : Z := u64 (curr pkt + remaining pkt).
Definition PACKET_data (pkt : PACKET) : Z := curr pkt.

(** A function that can fail returns [None] for 0; the packet is then as
    before.  [buf] is a buffer and a position in it. *)
Definition PACKET_buf_init (buf : list Z) (p len : Z) : option PACKET :=
  if SIZE_MAX / 2 <? len then None else Some (mk_packet buf p len).
Definition PACKET_null_init : PACKET := mk_packet [] 0 0.

(** [CRYPTO_memcmp(..) == 0] *)
Definition PACKET_equal (pkt : PACKET) (ptr : list Z) (num : Z) : res bool :=
  if negb (PACKET_remaining pkt =? num) then Val false
  else
    a ← bytes_at (base pkt) (curr pkt) num;
    b ← bytes_at ptr 0 num;
    Val (bool_decide (a = b)).

Definition PACKET_peek_sub_packet (pkt : PACKET) (len : Z) : option PACKET :=
  if PACKET_remaining pkt <? len then None else PACKET_buf_init (base pkt) (curr pkt) len.
Definition PACKET_get_sub_packet (pkt : PACKET) (len : Z) : option (PACKET * PACKET) :=
  match PACKET_peek_sub_packet pkt len with
  | None => None
  | Some subpkt => Some (subpkt, packet_forward pkt len)
  end.

Definition PACKET_peek_net_2 (pkt : PACKET) : res (option Z) :=
  if PACKET_remaining pkt <? 2 then Val None
  else
    b0 ← deref pkt 0; b1 ← deref pkt 1;
    Val (Some (Z.lor (u32 (Z.shiftl b0 8)) b1)).
Definition PACKET_peek_net_3 (pkt : PACKET) : res (option Z) :=
  if PACKET_remaining pkt <? 3 then Val None
  else
    b0 ← deref pkt 0; b1 ← deref pkt 1; b2 ← deref pkt 2;
    Val (Some (Z.lor (Z.lor (u64 (Z.shiftl b0 16)) (u64 (Z.shiftl b1 8))) b2)).
Definition PACKET_peek_net_4 (pkt : PACKET) : res (option Z) :=
  if PACKET_remaining pkt <? 4 then Val None
  else
    b0 ← deref pkt 0; b1 ← deref pkt 1; b2 ← deref pkt 2; b3 ← deref pkt 3;
    Val (Some (Z.lor (Z.lor (Z.lor (u64 (Z.shiftl b0 24)) (u64 (Z.shiftl b1 16)))
                 (u64 (Z.shiftl b2 8))) b3)).
Definition PACKET_peek_net_8 (pkt : PACKET) : res (option Z) :=
  if PACKET_remaining pkt <? 8 then Val None
  else
    b0 ← deref pkt 0; b1 ← deref pkt 1; b2 ← deref pkt 2; b3 ← deref pkt 3;
    b4 ← deref pkt 4; b5 ← deref pkt 5; b6 ← deref pkt 6; b7 ← deref pkt 7;
    Val (Some (Z.lor (Z.lor (Z.lor (Z.lor (Z.lor (Z.lor (Z.lor (u64 (Z.shiftl b0 56))
      (u64 (Z.shiftl b1 48))) (u64 (Z.shiftl b2 40))) (u64 (Z.shiftl b3 32)))
      (u64 (Z.shiftl b4 24))) (u64 (Z.shiftl b5 16))) (u64 (Z.shiftl b6 8))) b7)).
Definition PACKET_peek_1 (pkt : PACKET) : res (option Z) :=
  if PACKET_remaining pkt =? 0 then Val None else b ← deref pkt 0; Val (Some b).
(** reverse network order *)
Definition PACKET_peek_4 (pkt : PACKET) : res (option Z) :=
  if PACKET_remaining pkt <? 4 then Val None
  else
    b0 ← deref pkt 0; b1 ← deref pkt 1; b2 ← deref pkt 2; b3 ← deref pkt 3;
    Val (Some (Z.lor (Z.lor (Z.lor b0 (u64 (Z.shiftl b1 8))) (u64 (Z.shiftl b2 16)))
                 (u64 (Z.shiftl b3 24)))).

(** The body that the [PACKET_get_*] functions share: peek, then move on. *)
Definition get_after {A} (peek : res (option A)) (pkt : PACKET) (len : Z) : res (option (A * PACKET)) :=
  r ← peek; Val (match r with None => None | Some v => Some (v, packet_forward pkt len) end).

Definition PACKET_get_net_2 (pkt : PACKET) := get_after (PACKET_peek_net_2 pkt) pkt 2.
Definition PACKET_get_net_3 (pkt : PACKET) := get_after (PACKET_peek_net_3 pkt) pkt 3.
Definition PACKET_get_net_4 (pkt : PACKET) := get_after (PACKET_peek_net_4 pkt) pkt 4.
Definition PACKET_get_net_8 (pkt : PACKET) := get_after (PACKET_peek_net_8 pkt) pkt 8.
Definition PACKET_get_1 (pkt : PACKET) := get_after (PACKET_peek_1 pkt) pkt 1.
Definition PACKET_get_4 (pkt : PACKET) := get_after (PACKET_peek_4 pkt) pkt 4.

(** The readers into a [size_t], which no value of four bytes overflows *)
Definition PACKET_get_1_len (pkt : PACKET) := PACKET_get_1 pkt.
Definition PACKET_get_net_2_len (pkt : PACKET) := PACKET_get_net_2 pkt.
Definition PACKET_get_net_3_len (pkt : PACKET) := PACKET_get_net_3 pkt.
Definition PACKET_get_net_4_len (pkt : PACKET) := PACKET_get_net_4 pkt.

(** [*data] is a position of the buffer. *)
Definition PACKET_peek_bytes (pkt : PACKET) (len : Z) : option Z :=
  if PACKET_remaining pkt <? len then None else Some (curr pkt).
Definition PACKET_get_bytes (pkt : PACKET) (len : Z) : option (Z * PACKET) :=
  match PACKET_peek_bytes pkt len with
  | None => None
  | Some data => Some (data, packet_forward pkt len)
  end.

(** [data] is the destination. *)
Definition PACKET_peek_copy_bytes (pkt : PACKET) (data : list Z) (len : Z) : res (option (list Z)) :=
  if PACKET_remaining pkt <? len then Val None
  else
    bs ← bytes_at (base pkt) (curr pkt) len;
    if len <=? Z.of_nat (length data) then Val (Some (copy_at 0 bs data)) else Stuck OutOfBounds.
Definition PACKET_copy_bytes (pkt : PACKET) (data : list Z) (len : Z) :=
  get_after (PACKET_peek_copy_bytes pkt data len) pkt len.

(** The return value, [dest] and [*len]. *)
Definition PACKET_copy_all (pkt : PACKET) (dest : list Z) (dest_len : Z) : res (bool * list Z * Z) :=
  if dest_len <? PACKET_remaining pkt then Val (false, dest, 0)
  else
    bs ← bytes_at (base pkt) (curr pkt) (remaining pkt);
    if remaining pkt <=? Z.of_nat (length dest)
    then Val (true, copy_at 0 bs dest, remaining pkt) else Stuck OutOfBounds.

Definition INT_MAX : Z := 2 ^ 31 - 1.

(** [*data] is freed first.  The results are the return value, [*data] and
    [*len]; [CRYPTO_memdup] refuses [INT_MAX] bytes and more. *)
Definition PACKET_memdup {A : Alloc} (pkt : PACKET) (data : ptr) : prog memory (bool * ptr * Z) :=
  OPENSSL_free data;;
  let length := PACKET_remaining pkt in
  if length =? 0 then mret (true, NULL, 0)
  else if INT_MAX <=? length then mret (false, NULL, 0)
  else
    p ← OPENSSL_malloc (Z.to_nat length);
    if is_null p then mret (false, NULL, 0)
    else
      match bytes_at (base pkt) (curr pkt) length with
      | Stuck f => stuck f
      | Val bs => store p 0 bs;; mret (true, p, length)
      end.

(** [OPENSSL_strnlen], of the bytes that it may look at *)
Fixpoint strnlen (bs : list Z) : nat :=
  match bs with
  | [] => 0
  | b :: bs => if b =? 0 then 0 else S (strnlen bs)
  end.

(** [CRYPTO_strndup] copies up to the first zero byte, and appends one.  The
    results are the return value and [*data]. *)
Definition PACKET_strndup {A : Alloc} (pkt : PACKET) (data : ptr) : prog memory (bool * ptr) :=
  OPENSSL_free data;;
  match bytes_at (base pkt) (curr pkt) (PACKET_remaining pkt) with
  | Stuck f => stuck f
  | Val bs =>
      let maxlen := strnlen bs in
      p ← OPENSSL_malloc (maxlen + 1);
      if is_null p then mret (false, NULL)
      else store p 0 (take maxlen bs);; store p maxlen [0];; mret (true, p)
  end.

Definition PACKET_contains_zero_byte (pkt : PACKET) : res bool :=
  bs ← bytes_at (base pkt) (curr pkt) (remaining pkt);
  Val (existsb (Z.eqb 0) bs).

Definition PACKET_forward (pkt : PACKET) (len : Z) : option PACKET :=
  if PACKET_remaining pkt <? len then None else Some (packet_forward pkt len).

(** A length that [get] reads, then that many bytes.  The code works on the
    copy [tmp], so that a failure leaves [pkt] as it is.  [last] is the test
    of [PACKET_remaining(&tmp) != 0] of the [PACKET_as_*] functions.  The
    results are [subpkt] and [pkt]. *)
Definition length_prefixed (get : PACKET -> res (option (Z * PACKET))) (last : bool) (pkt : PACKET) :
  res (option (PACKET * PACKET)) :=
  r ← get pkt;
  Val (match r with
       | None => None
       | Some (length, tmp) =>
           match PACKET_get_bytes tmp length with
           | None => None
           | Some (data, tmp) =>
               if last && negb (PACKET_remaining tmp =? 0) then None
               else Some (mk_packet (base pkt) data length, tmp)
           end
       end).

Definition PACKET_get_length_prefixed_1 := length_prefixed PACKET_get_1 false.
Definition PACKET_as_length_prefixed_1 := length_prefixed PACKET_get_1 true.
Definition PACKET_get_length_prefixed_2 := length_prefixed PACKET_get_net_2 false.
Definition PACKET_as_length_prefixed_2 := length_prefixed PACKET_get_net_2 true.
Definition PACKET_get_length_prefixed_3 := length_prefixed PACKET_get_net_3 false.
