(* ===== verification/PacketSpec.v ===== *)
(** * Reading packets: refinement

    A [PACKET] that lies in its buffer behaves as the list of the bytes it
    shows: no reader leaves the buffer, and each gives what a reader of byte
    lists gives. *)

From S2P Require Import Prelude Buffers CMem Packet.
(** ** The bytes of a packet *)

Definition view (pkt : PACKET) : list Z :=
  take (Z.to_nat (remaining pkt)) (drop (Z.to_nat (curr pkt)) (base pkt)).

(** The type of a packet: it lies in its buffer and shows bytes. *)
Definition packet_wf (pkt : PACKET) : Prop :=
  0 <= curr pkt /\ 0 <= remaining pkt <= SIZE_MAX / 2
  /\ curr pkt + remaining pkt <= Z.min (Z.of_nat (length (base pkt))) SIZE_MAX
  /\ bytes (view pkt).

Lemma view_length pkt : packet_wf pkt -> Z.of_nat (length (view pkt)) = remaining pkt.
Proof.
  intros (Hc & Hr & Hb & _). unfold view. rewrite length_take, length_drop. lia.
Qed.

Lemma view_bytes pkt : packet_wf pkt -> bytes (view pkt).
Proof. now intros (_ & _ & _ & B). Qed.

Lemma deref_view pkt i :
  packet_wf pkt -> (Z.of_nat i < remaining pkt) -> deref pkt (Z.of_nat i) = Val (get (view pkt) i).
Proof.
  intros W Hi. pose proof (view_length pkt W) as L. destruct W as (Hc & Hr & Hb & _). unfold deref.
  rewrite (proj2 (Z.leb_le _ _)) by lia.
  assert (E : view pkt !! i = base pkt !! Z.to_nat (curr pkt + Z.of_nat i)).
  { unfold view. rewrite lookup_take_lt by lia. rewrite lookup_drop. f_equal. lia. }
  rewrite get_lookup in E by lia. now rewrite <- E.
Qed.

Lemma bytes_at_view pkt n :
  packet_wf pkt -> 0 <= n <= remaining pkt ->
  bytes_at (base pkt) (curr pkt) n = Val (take (Z.to_nat n) (view pkt)).
Proof.
  intros (Hc & Hr & Hb & _) Hn. unfold bytes_at, view.
  rewrite (proj2 (Z.leb_le 0 _)), (proj2 (Z.leb_le _ (Z.of_nat _))) by lia. cbn [andb].
  rewrite take_take. do 2 f_equal. lia.
Qed.

Lemma forward_wf pkt len :
  packet_wf pkt -> 0 <= len <= remaining pkt ->
  packet_wf (packet_forward pkt len) /\ view (packet_forward pkt len) = drop (Z.to_nat len) (view pkt).
Proof.
  intros (Hc & Hr & Hb & B) Hn. unfold SIZE_MAX in *.
  assert (E : view (packet_forward pkt len) = drop (Z.to_nat len) (view pkt)).
  { unfold packet_forward, view. cbn [base curr remaining].
    rewrite !u64_small by (revert Hr; zdm; lia).
    rewrite skipn_firstn_comm, drop_drop. f_equal; [lia |]. f_equal. lia. }
  split; [| exact E]. unfold packet_wf. rewrite E. unfold packet_forward, SIZE_MAX.
  cbn [base curr remaining]. rewrite !u64_small by (revert Hr; zdm; lia).
  repeat split; try lia. now apply Forall_drop.
Qed.

(** ** The readers of a byte list *)

Definition read_bytes (n : nat) (l : list Z) : option (list Z * list Z) :=
  if (n <=? length l)%nat then Some (take n l, drop n l) else None.
Definition read_be (n : nat) (l : list Z) : option (Z * list Z) :=
  '(b, l) ← read_bytes n l; Some (be_value b, l).
(** A vector with a length of [n] bytes; with [last], nothing may follow. *)
Definition read_vec (n : nat) (last : bool) (l : list Z) : option (list Z * list Z) :=
  '(k, l) ← read_be n l; '(v, l) ← read_bytes (Z.to_nat k) l;
  if last && negb (length l =? 0)%nat then None else Some (v, l).

(** A reader of packets behaves as one of byte lists: it does not read
    outside the buffer, fails when the other fails, and else gives a related
    value and moves to the same rest of the same buffer. *)
Definition simulates {A B} (R : A -> B -> Prop) (pkt : PACKET)
    (r : res (option (A * PACKET))) (spec : option (B * list Z)) : Prop :=
  match r, spec with
  | Val None, None => True
  | Val (Some (a, p)), Some (b, l) => R a b /\ packet_wf p /\ base p = base pkt /\ view p = l
  | _, _ => False
  end.

(** ** Integers *)

Lemma lor_step a b m n :
  m = n + 8 -> 0 <= n -> is_byte b -> Z.lor (a * 2 ^ m) (b * 2 ^ n) = (256 * a + b) * 2 ^ n.
Proof.
  unfold is_byte. intros -> Hn Hb. rewrite Z.pow_add_r, Z.lor_comm by lia.
  replace (a * (2 ^ n * 2 ^ 8)) with (Z.shiftl (Z.shiftl a 8) n)
    by (rewrite !Z.shiftl_mul_pow2 by lia; ring).
  rewrite <- (Z.shiftl_mul_pow2 b), <- Z.shiftl_lor, lor_shiftl_add by lia.
  rewrite Z.shiftl_mul_pow2 by easy. change (2 ^ 8) with 256. ring.
Qed.

Lemma lor_last a b : is_byte b -> Z.lor (a * 2 ^ 8) b = 256 * a + b.
Proof.
  intros Hb. rewrite <- (Z.mul_1_r b) at 1. change 1 with (2 ^ 0).
  rewrite lor_step by easy. cbn. lia.
Qed.

Lemma shift_byte w b k :
  is_byte b -> 0 <= k -> k + 8 <= w -> Z.shiftl b k mod 2 ^ w = b * 2 ^ k.
Proof.
  unfold is_byte. intros Hb Hk Hw. rewrite Z.shiftl_mul_pow2 by easy.
  apply Z.mod_small. split; [nia |]. apply Z.lt_le_trans with (2 ^ (k + 8)).
  - rewrite Z.pow_add_r by lia. nia.
  - apply Z.pow_le_mono_r; lia.
Qed.

(** The value that [len] bytes peeked at the start of a packet should have. *)
Definition peeks (len : nat) (pkt : PACKET) (r : res (option Z)) : Prop :=
  r = Val (if (len <=? length (view pkt))%nat then Some (be_value (take len (view pkt))) else None).

Lemma take_S_get l n : (n < length l)%nat -> take (S n) l = take n l ++ [get l n].
Proof. intros H. apply take_S_r. now apply get_lookup. Qed.

Lemma be_value_snoc l x : be_value (l ++ [x]) = 256 * be_value l + x.
Proof. unfold be_value. now rewrite foldl_app. Qed.

Ltac deref_all pkt W :=
  repeat match goal with
  | |- context [deref pkt ?i] =>
      let k := eval vm_compute in (Z.to_nat i) in
      change (deref pkt i) with (deref pkt (Z.of_nat k));
      rewrite (deref_view pkt k W) by lia; cbn [mbind res_bind]
  end.

Ltac peek_tac :=
  match goal with
  | |- peeks ?n ?pkt _ =>
      intros; match goal with W : packet_wf pkt |- _ =>
        pose proof (view_length pkt W); pose proof (view_bytes pkt W) as B;
        unfold peeks, PACKET_remaining;
        destruct (Nat.leb_spec n (length (view pkt)));
        [ match goal with |- context [if ?c then _ else _] => replace c with false by (symmetry; lia) end;
          deref_all pkt W; do 2 f_equal;
          assert (forall i, (i < length (view pkt))%nat -> is_byte (get (view pkt) i)) as G
            by (intros; now apply get_Forall);
          rewrite !take_S_get, take_0 by lia; rewrite !be_value_snoc; change (be_value []) with 0
        | match goal with |- context [if ?c then _ else _] => replace c with true by (symmetry; lia) end;
          reflexivity ]
      end
  end.

Lemma peek_1_ok pkt : packet_wf pkt -> peeks 1 pkt (PACKET_peek_1 pkt).
Proof. intros W. unfold PACKET_peek_1. peek_tac. lia. Qed.

Ltac byte_facts v :=
  repeat match goal with
  | G : forall i, (i < length v)%nat -> _ |- context [get v ?i] =>
      lazymatch goal with
      | _ : is_byte (get v i) |- _ => fail
      | |- _ => assert (is_byte (get v i)) by (apply G; lia)
      end
  end.

(** Shifted bytes are put together from the left. *)
Ltac lor_sum v :=
  byte_facts v; unfold u32, u64;
  rewrite ?shift_byte, ?lor_step, ?lor_last by (assumption || lia); lia.

Lemma peek_net_2_ok pkt : packet_wf pkt -> peeks 2 pkt (PACKET_peek_net_2 pkt).
Proof. intros W. unfold PACKET_peek_net_2. peek_tac. lor_sum (view pkt). Qed.

Lemma peek_net_3_ok pkt : packet_wf pkt -> peeks 3 pkt (PACKET_peek_net_3 pkt).
Proof. intros W. unfold PACKET_peek_net_3. peek_tac. lor_sum (view pkt). Qed.

Lemma peek_net_4_ok pkt : packet_wf pkt -> peeks 4 pkt (PACKET_peek_net_4 pkt).
Proof. intros W. unfold PACKET_peek_net_4. peek_tac. lor_sum (view pkt). Qed.

Lemma peek_net_8_ok pkt : packet_wf pkt -> peeks 8 pkt (PACKET_peek_net_8 pkt).
Proof. intros W. unfold PACKET_peek_net_8. peek_tac. lor_sum (view pkt). Qed.

Create HintDb packet discriminated.
#[export] Hint Resolve peek_1_ok peek_net_2_ok peek_net_3_ok peek_net_4_ok peek_net_8_ok : packet.

(** ** Simulation *)

Lemma get_after_ok n pkt r :
  packet_wf pkt -> peeks n pkt r ->
  simulates eq pkt (get_after r pkt (Z.of_nat n)) (read_be n (view pkt)).
Proof.
  intros W ->. pose proof (view_length pkt W). unfold get_after, read_be, read_bytes.
  destruct (Nat.leb_spec n (length (view pkt))); cbn; [| exact I].
  destruct (forward_wf pkt (Z.of_nat n)) as [Wf Vf]; [assumption | lia |].
  rewrite Nat2Z.id in Vf. auto.
Qed.

(** What a sub-packet is of the bytes it stands for. *)
Definition sub_view (pkt sub : PACKET) (v : list Z) : Prop :=
  packet_wf sub /\ base sub = base pkt /\ view sub = v.

Lemma get_bytes_ok pkt len :
  packet_wf pkt -> 0 <= len ->
  match PACKET_get_bytes pkt len, read_bytes (Z.to_nat len) (view pkt) with
  | None, None => True
  | Some (d, p), Some (v, l) =>
      sub_view pkt (mk_packet (base pkt) d len) v /\ packet_wf p /\ base p = base pkt /\ view p = l
  | _, _ => False
  end.
Proof.
  intros W Hlen. pose proof (view_length pkt W) as L.
  unfold PACKET_get_bytes, PACKET_peek_bytes, PACKET_remaining, read_bytes.
  destruct (Z.ltb_spec (remaining pkt) len), (Nat.leb_spec (Z.to_nat len) (length (view pkt)));
    try exact I; try lia.
  destruct (forward_wf pkt len) as [Wf Vf]; [assumption | lia |].
  split; [| auto]. destruct W as (Hc & Hr & Hb & B). set (sub := mk_packet _ _ _).
  assert (E : view sub = take (Z.to_nat len) (view pkt))
    by (unfold view, sub; cbn; rewrite take_take; f_equal; lia).
  unfold sub_view, packet_wf. rewrite E. cbn.
  repeat split; try lia. now apply Forall_take.
Qed.

Lemma length_prefixed_ok n last get pkt :
  (forall p, packet_wf p -> simulates eq p (get p) (read_be n (view p))) ->
  packet_wf pkt ->
  simulates (sub_view pkt) pkt (length_prefixed get last pkt) (read_vec n last (view pkt)).
Proof.
  intros Hget W. specialize (Hget pkt W). unfold length_prefixed, read_vec.
  destruct (get pkt) as [[[k p] |] |]; destruct (read_be n (view pkt)) as [[k' l] |] eqn:R;
    cbn in Hget |- *; try easy.
  destruct Hget as (-> & Wp & Ep & <-).
  assert (Hk : 0 <= k').
  { unfold read_be, read_bytes in R. destruct (_ <=? _)%nat; [| easy]. cbn in R. injection R as <- _.
    apply be_value_range. now apply Forall_take, view_bytes. }
  pose proof (get_bytes_ok p k' Wp Hk) as G.
  destruct (PACKET_get_bytes p k') as [[d p'] |]; destruct (read_bytes _ (view p)) as [[v l'] |];
    cbn in G |- *; try easy.
  destruct G as (Hs & Wp' & Ep' & <-). pose proof (view_length p' Wp').
  unfold PACKET_remaining.
  replace (remaining p' =? 0) with (length (view p') =? 0)%nat
    by (destruct (Nat.eqb_spec (length (view p')) 0), (Z.eqb_spec (remaining p') 0); lia).
  destruct (last && _); [exact I |]. cbn. unfold sub_view in *. rewrite Ep in *. tauto.
Qed.


(** ** Copies and comparisons *)

Lemma get_sub_packet_ok pkt len :
  packet_wf pkt -> 0 <= len ->
  simulates (sub_view pkt) pkt (Val (PACKET_get_sub_packet pkt len))
    (read_bytes (Z.to_nat len) (view pkt)).
Proof.
  intros W Hlen. pose proof (get_bytes_ok pkt len W Hlen) as G.
  pose proof W as (_ & Hr & _ & _).
  unfold PACKET_get_sub_packet, PACKET_peek_sub_packet, PACKET_buf_init, PACKET_get_bytes,
    PACKET_peek_bytes, PACKET_remaining in *.
  destruct (Z.ltb_spec (remaining pkt) len); [exact G |].
  rewrite (proj2 (Z.ltb_ge _ _)) by lia. cbn.
  destruct (read_bytes _ _) as [[v l] |]; [exact G | easy].
Qed.

Lemma copy_bytes_ok pkt data len :
  packet_wf pkt -> 0 <= len <= Z.of_nat (length data) ->
  simulates (fun d v => d = copy_at 0 v data) pkt (PACKET_copy_bytes pkt data len)
    (read_bytes (Z.to_nat len) (view pkt)).
Proof.
  intros W Hlen. pose proof (view_length pkt W) as L.
  unfold PACKET_copy_bytes, get_after, PACKET_peek_copy_bytes, PACKET_remaining, read_bytes.
  destruct (Z.ltb_spec (remaining pkt) len), (Nat.leb_spec (Z.to_nat len) (length (view pkt)));
    try exact I; try lia.
  rewrite bytes_at_view by (easy || lia). cbn [mbind res_bind].
  rewrite (proj2 (Z.leb_le len _)) by lia. cbn.
  destruct (forward_wf pkt len) as [Wf Vf]; [assumption | lia |]. auto.
Qed.

Lemma take_view pkt : packet_wf pkt -> take (Z.to_nat (remaining pkt)) (view pkt) = view pkt.
Proof. intros W. apply take_ge. pose proof (view_length pkt W). lia. Qed.

Lemma equal_ok pkt ptr :
  packet_wf pkt -> PACKET_equal pkt ptr (Z.of_nat (length ptr)) = Val (bool_decide (view pkt = ptr)).
Proof.
  intros W. pose proof (view_length pkt W) as L. unfold PACKET_equal, PACKET_remaining.
  destruct (Z.eqb_spec (remaining pkt) (Z.of_nat (length ptr))) as [E | E]; cbn [negb].
  - rewrite <- E, bytes_at_view by (easy || (destruct W as (_ & ? & _); lia)).
    rewrite take_view by easy.
    unfold bytes_at. rewrite E, Z.add_0_l, !Z.leb_refl.
    cbn [andb mbind res_bind]. rewrite Nat2Z.id, drop_0, take_ge by lia. reflexivity.
  - rewrite bool_decide_eq_false_2; [reflexivity |]. intros <-. lia.
Qed.

Lemma contains_zero_ok pkt :
  packet_wf pkt -> PACKET_contains_zero_byte pkt = Val (bool_decide (0 ∈ view pkt)).
Proof.
  intros W. unfold PACKET_contains_zero_byte.
  rewrite bytes_at_view by (easy || (destruct W as (_ & ? & _); lia)). cbn [mbind res_bind].
  rewrite take_view by easy. f_equal.
  apply eq_true_iff_eq. rewrite existsb_exists, bool_decide_eq_true. setoid_rewrite Z.eqb_eq.
  rewrite list_elem_of_In. split; [intros (x & H & <-); exact H | eauto].
Qed.

(** A duplicate of a packet: the old block is given back, and the new one, if
    any, holds the bytes. *)
Definition memdup_spec {A : Alloc} (bs : list Z) (data : ptr) (m : memory) : res (bool * ptr * Z * memory) :=
  m ← mem_free data m;
  if (length bs =? 0)%nat then Val (true, NULL, 0, m)
  else if INT_MAX <=? Z.of_nat (length bs) then Val (false, NULL, 0, m)
  else if alloc_ok (next m)
  then Val (true, Ptr (next m), Z.of_nat (length bs),
            mk_memory (<[next m := bs]> (heap m)) (next m + 1))
  else Val (false, NULL, 0, mk_memory (heap m) (next m + 1)).

Lemma memdup_ok {A : Alloc} pkt data m :
  packet_wf pkt -> PACKET_memdup pkt data m = memdup_spec (view pkt) data m.
Proof.
  intros W. pose proof (view_length pkt W) as L.
  unfold PACKET_memdup, memdup_spec, OPENSSL_free, on_mem, OPENSSL_malloc, PACKET_remaining.
  unfold mbind, prog_bind, res_bind. change (mem_of m) with m.
  destruct (mem_free data m) as [m' |]; [| reflexivity].
  change (with_mem m' m) with m'.
  destruct (Z.eqb_spec (remaining pkt) 0), (Nat.eqb_spec (length (view pkt)) 0); try lia; [reflexivity |].
  rewrite L. destruct (INT_MAX <=? remaining pkt); [reflexivity |].
  unfold mem_malloc. change (mem_of m') with m'.
  rewrite (proj2 (Nat.eqb_neq (Z.to_nat _) 0)) by lia.
  destruct (alloc_ok (next m')); cbn [orb negb is_null]; [| reflexivity].
  rewrite bytes_at_view, take_view by (easy || (destruct W as (_ & ? & _); lia)).
  unfold store, on_mem. cbn [mem_of with_mem memory_has_memory].
  erewrite store_whole; cbn [heap next].
  - now rewrite insert_insert_eq.
  - apply lookup_insert_eq.
  - rewrite fresh_block_length. lia.
Qed.

(** The C string at the start of [bs]: all bytes before the first zero byte *)
Definition is_c_string (bs s : list Z) : Prop := (0 ∉ s) /\ (bs = s \/ exists rest, bs = s ++ 0 :: rest).

Lemma strnlen_c_string bs : is_c_string bs (take (strnlen bs) bs) /\ (strnlen bs <= length bs)%nat.
Proof.
  unfold is_c_string. induction bs as [| b bs [[IH0 IH] Hl]]; cbn [strnlen length].
  - split; [split; [apply not_elem_of_nil | now left] | lia].
  - destruct (Z.eqb_spec b 0) as [-> | Hb]; cbn [take].
    + split; [split; [apply not_elem_of_nil | right; now exists bs] | lia].
    + split; [| lia]. split; [apply not_elem_of_cons; auto |].
      destruct IH as [IH | (rest & IH)]; [left | right; exists rest]; cbn [app]; congruence.
Qed.

(** A duplicate of the string [s], with its zero byte *)
Definition strndup_spec {A : Alloc} (s : list Z) (data : ptr) (m : memory) : res (bool * ptr * memory) :=
  m ← mem_free data m;
  if alloc_ok (next m)
  then Val (true, Ptr (next m), mk_memory (<[next m := s ++ [0]]> (heap m)) (next m + 1))
  else Val (false, NULL, mk_memory (heap m) (next m + 1)).

Lemma strndup_ok {A : Alloc} pkt data m :
  packet_wf pkt ->
  exists s, is_c_string (view pkt) s /\ PACKET_strndup pkt data m = strndup_spec s data m.
Proof.
  intros W. destruct (strnlen_c_string (view pkt)) as [Hs Hl]. eexists. split; [exact Hs |].
  unfold PACKET_strndup, strndup_spec, OPENSSL_free, on_mem, OPENSSL_malloc, PACKET_remaining.
  unfold mbind, prog_bind, res_bind. change (mem_of m) with m.
  destruct (mem_free data m) as [m' |]; [| reflexivity].
  change (with_mem m' m) with m'.
  rewrite bytes_at_view, take_view by (easy || (destruct W as (_ & ? & _); lia)).
  unfold mem_malloc. change (mem_of m') with m'. rewrite Nat.add_1_r. cbn [Nat.eqb orb].
  destruct (alloc_ok (next m')); cbn [negb is_null]; [| reflexivity].
  set (n := strnlen (view pkt)) in *.
  unfold store, on_mem. cbn [mem_of with_mem memory_has_memory]. unfold mem_store, mem_block. cbn [heap next].
  rewrite lookup_insert_eq. cbn [mbind res_bind]. rewrite length_take_le, fresh_block_length by lia.
  rewrite (proj2 (Nat.leb_le _ _)) by lia. cbn [heap next]. rewrite lookup_insert_eq. cbn [mbind res_bind].
  rewrite copy_at_length, fresh_block_length by (rewrite fresh_block_length, length_take_le; lia).
  rewrite (proj2 (Nat.leb_le _ _)) by (cbn [length]; lia). cbn [heap next]. rewrite !insert_insert_eq.
  unfold copy_at. cbn [length Nat.add]. rewrite take_0. cbn [app]. rewrite length_take_le by lia.
  rewrite take_app_length' by (rewrite length_take_le; lia). cbn [app]. rewrite (drop_ge _ (n + 1)); [reflexivity |].
  rewrite length_app, length_take_le, length_drop, fresh_block_length by lia. lia.
Qed.

(** The readers that copy.  A sub-packet and a copy hold the next bytes,
    the comparison and the search for a zero byte look at exactly the bytes of
    the packet, and a duplicate gives the old block back before it allocates
    one that holds the bytes, or for a C string those before the first zero
    byte, and a zero byte. *)
Theorem packet_copies_exact {A : Alloc} pkt data len out p m :
  packet_wf pkt -> 0 <= len <= Z.of_nat (length out) ->
  simulates (sub_view pkt) pkt (Val (PACKET_get_sub_packet pkt len))
    (read_bytes (Z.to_nat len) (view pkt))
  /\ simulates (fun d v => d = copy_at 0 v out) pkt (PACKET_copy_bytes pkt out len)
       (read_bytes (Z.to_nat len) (view pkt))
  /\ PACKET_equal pkt data (Z.of_nat (length data)) = Val (bool_decide (view pkt = data))
  /\ PACKET_contains_zero_byte pkt = Val (bool_decide (0 ∈ view pkt))
  /\ PACKET_memdup pkt p m = memdup_spec (view pkt) p m
  /\ (exists s, is_c_string (view pkt) s /\ PACKET_strndup pkt p m = strndup_spec s p m).
Proof.
  intros W Hlen. repeat split;
    eauto using get_sub_packet_ok, copy_bytes_ok, equal_ok, contains_zero_ok, memdup_ok, strndup_ok.
  apply get_sub_packet_ok; [assumption | lia].
Qed.

(** ** Witnesses *)

Definition hello_packet : PACKET := mk_packet [7; 0; 3; 1; 2; 3; 9] 1 6.

Lemma hello_packet_wf : packet_wf hello_packet.
Proof.
  repeat split; try (vm_compute; discriminate).
  repeat (apply Forall_cons_2; [unfold is_byte; lia |]). apply Forall_nil_2.
Qed.


Lemma packet_copies_exact_witness :
  let A := {| alloc_ok _ := true; junk _ _ := 0 |} in
  PACKET_copy_bytes hello_packet [5; 5; 5] 2
  = Val (Some ([0; 3; 5], mk_packet (base hello_packet) 3 4))
  /\ simulates (fun d v => d = copy_at 0 v [5; 5; 5]) hello_packet
       (PACKET_copy_bytes hello_packet [5; 5; 5] 2) (Some ([0; 3], [1; 2; 3; 9])).
Proof.
  intros A. split; [reflexivity |].
  destruct (packet_copies_exact hello_packet [] 2 [5; 5; 5] NULL (mk_memory ∅ 0) hello_packet_wf)
    as (_ & H & _); [cbn; lia |].
  exact H.
Defined.
