(* ===== verification/Wpacket.v ===== *)
(** * Writing packets

    The [WPACKET] of [crypto/packet.c] and [include/internal/packet.h]: nested
    sub-packets with length prefixes, written forwards into a growing [BUF_MEM]
    ([crypto/buffer/buffer.c]) or a fixed buffer, or backwards with DER lengths.
    A function returns its C result, which is a boolean, and the packet it
    leaves, also when it fails. *)

From S2P Require Import Prelude Buffers CMem Packet.

Definition DEFAULT_BUF_SIZE : Z := 256.
Definition LIMIT_BEFORE_EXPANSION : Z := 0x5ffffffc.
Definition WPACKET_FLAGS_NON_ZERO_LENGTH : Z := 1.
Definition WPACKET_FLAGS_ABANDON_ON_ZERO_LENGTH : Z := 2.

(** ** Growing buffers *)

(** [data] has [max] bytes, [length] of them in use; [block] is the address
    that the allocator gave it. *)
Record BUF_MEM := mk_buf_mem { buf_length : Z; buf_data : list Z; buf_block : Z }.
Definition buf_max (b : BUF_MEM) : Z := Z.of_nat (length (buf_data b)).

(** [memset(&data[from], 0, n)] *)
Definition zero_at (from n : Z) (data : list Z) : list Z :=
  copy_at (Z.to_nat from) (repeat 0 (Z.to_nat n)) data.

Section Writer.
Context {A : Alloc}.

(** [BUF_MEM_grow], for a buffer that is not in secure memory; [a] is the
    number of the next allocation, and the result that of the one after.
    [OPENSSL_realloc] keeps the old bytes. *)
Definition BUF_MEM_grow (str : BUF_MEM) (len a : Z) : Z * BUF_MEM * Z :=
  if len <=? buf_length str then (len, mk_buf_mem len (buf_data str) (buf_block str), a)
  else if len <=? buf_max str
  then (len, mk_buf_mem len (zero_at (buf_length str) (len - buf_length str) (buf_data str))
               (buf_block str), a)
  else if LIMIT_BEFORE_EXPANSION <? len then (0, str, a)
  else
    let n := (len + 3) / 3 * 4 in
    if negb (alloc_ok a) then (0, str, a + 1)
    else
      let data := buf_data str ++ map (junk a) (seq (length (buf_data str))
                                        (Z.to_nat n - length (buf_data str))) in
      (len, mk_buf_mem len (zero_at (buf_length str) (len - buf_length str) data) a, a + 1).

(** ** The packet *)

(** [packet_len] is the offset of the length. *)
Record WPACKET_SUB := mk_sub { packet_len : Z; lenbytes : Z; pwritten : Z; sub_flags : Z }.

(** [subs] has the innermost sub-packet first, and is empty when it is null in
    the code.  [nalloc] numbers the allocations. *)
Record WPACKET := mk_wpacket {
  wbuf : option BUF_MEM;
  staticbuf : option (list Z);
  wcurr : Z;
  written : Z;
  maxsize : Z;
  subs : list WPACKET_SUB;
  endfirst : bool;
  nalloc : Z }.

Definition set_buf (b : BUF_MEM) (p : WPACKET) : WPACKET :=
  mk_wpacket (Some b) (staticbuf p) (wcurr p) (written p) (maxsize p) (subs p) (endfirst p) (nalloc p).
Definition set_static (b : list Z) (p : WPACKET) : WPACKET :=
  mk_wpacket (wbuf p) (Some b) (wcurr p) (written p) (maxsize p) (subs p) (endfirst p) (nalloc p).
Definition set_subs (l : list WPACKET_SUB) (p : WPACKET) : WPACKET :=
  mk_wpacket (wbuf p) (staticbuf p) (wcurr p) (written p) (maxsize p) l (endfirst p) (nalloc p).
Definition set_written (c w : Z) (p : WPACKET) : WPACKET :=
  mk_wpacket (wbuf p) (staticbuf p) c w (maxsize p) (subs p) (endfirst p) (nalloc p).
Definition set_maxsize (x : Z) (p : WPACKET) : WPACKET :=
  mk_wpacket (wbuf p) (staticbuf p) (wcurr p) (written p) x (subs p) (endfirst p) (nalloc p).
Definition set_nalloc (x : Z) (p : WPACKET) : WPACKET :=
  mk_wpacket (wbuf p) (staticbuf p) (wcurr p) (written p) (maxsize p) (subs p) (endfirst p) x.

(** A pointer into the buffer: the address of the buffer (0 for the fixed one)
    and an offset; [None] is null. *)
Definition wptr : Type := option (Z * Z).

(** The bytes of [GETBUF], and a write through a pointer into it *)
Definition GETBUF (p : WPACKET) : option (Z * list Z) :=
  match staticbuf p with
  | Some b => Some (0, b)
  | None => match wbuf p with Some b => Some (buf_block b, buf_data b) | None => None end
  end.
Definition write_at (p : WPACKET) (off : Z) (bs : list Z) : res WPACKET :=
  match GETBUF p with
  | None => Stuck NullAccess
  | Some (_, data) =>
      if (0 <=? off) && (off + Z.of_nat (length bs) <=? Z.of_nat (length data))
      then
        let data := copy_at (Z.to_nat off) bs data in
        match staticbuf p, wbuf p with
        | Some _, _ => Val (set_static data p)
        | None, Some b => Val (set_buf (mk_buf_mem (buf_length b) data (buf_block b)) p)
        | None, None => Stuck NullAccess
        end
      else Stuck OutOfBounds
  end.

Definition WPACKET_get_curr (p : WPACKET) : wptr :=
  match GETBUF p with
  | None => None
  | Some (a, _) =>
      if endfirst p then Some (a, u64 (maxsize p - wcurr p)) else Some (a, wcurr p)
  end.

(** The result and [*allocbytes]. *)
Definition WPACKET_reserve_bytes (p : WPACKET) (len : Z) : bool * wptr * WPACKET :=
  if (length (subs p) =? 0)%nat || (len =? 0) then (false, None, p)
  else if u64 (maxsize p - written p) <? len then (false, None, p)
  else
    let '(ok, p) :=
      match wbuf p with
      | Some b =>
          if u64 (buf_length b - written p) <? len
          then
            let reflen := if buf_length b <? len then len else buf_length b in
            let newlen :=
              if SIZE_MAX / 2 <? reflen then SIZE_MAX
              else let n := u64 (reflen * 2) in if n <? DEFAULT_BUF_SIZE then DEFAULT_BUF_SIZE else n in
            let '(r, b, a) := BUF_MEM_grow b newlen (nalloc p) in
            (negb (r =? 0), set_nalloc a (set_buf b p))
          else (true, p)
      | None => (true, p)
      end in
    if negb ok then (false, None, p)
    else
      let c := WPACKET_get_curr p in
      (true, match c with
             | Some (a, off) => Some (a, if endfirst p then off - len else off)
             | None => None
             end, p).

Definition WPACKET_allocate_bytes (p : WPACKET) (len : Z) : bool * wptr * WPACKET :=
  let '(ok, c, p) := WPACKET_reserve_bytes p len in
  if negb ok then (false, None, p)
  else (true, c, set_written (u64 (wcurr p + len)) (u64 (written p + len)) p).

Definition WPACKET_sub_reserve_bytes__ (p : WPACKET) (len lenbytes : Z) : bool * wptr * WPACKET :=
  if endfirst p && (0 <? lenbytes) then (false, None, p)
  else
    let '(ok, c, p) := WPACKET_reserve_bytes p (u64 (lenbytes + len)) in
    if negb ok then (false, None, p)
    else (true, match c with Some (a, off) => Some (a, off + lenbytes) | None => None end, p).

Definition maxmaxsize (lenbytes : Z) : Z :=
  if (8 <=? lenbytes) || (lenbytes =? 0) then SIZE_MAX
  else u64 (u64 (Z.shiftl 1 (lenbytes * 8)) - 1 + lenbytes).

(** The loop of [put_value]: [n] bytes of [value] at an offset, the last first *)
Fixpoint put_loop (off : Z) (n : nat) (p : WPACKET) (value : Z) : res (Z * WPACKET) :=
  match n with
  | O => Val (value, p)
  | S n => p ← write_at p (off + Z.of_nat n) [u8 (Z.land value 0xff)];
           put_loop off n p (Z.shiftr value 8)
  end.

(** Whether the value fits.  A null pointer takes nothing. *)
Definition put_value (p : WPACKET) (data : wptr) (value len : Z) : res (bool * WPACKET) :=
  match data with
  | None => Val (true, p)
  | Some (_, off) =>
      '(value, p) ← put_loop off (Z.to_nat len) p (u64 value);
      Val (negb (0 <? value), p)
  end.

Definition WPACKET_put_bytes__ (p : WPACKET) (val size : Z) : res (bool * WPACKET) :=
  if 8 <? size then Val (false, p)
  else
    let '(ok, data, p) := WPACKET_allocate_bytes p size in
    if negb ok then Val (false, p) else put_value p data val size.

Definition WPACKET_memcpy (p : WPACKET) (src : list Z) : res (bool * WPACKET) :=
  if (length src =? 0)%nat then Val (true, p)
  else
    let '(ok, dest, p) := WPACKET_allocate_bytes p (Z.of_nat (length src)) in
    if negb ok then Val (false, p)
    else match dest with
         | None => Val (true, p)
         | Some (_, off) => p ← write_at p off src; Val (true, p)
         end.

Definition WPACKET_memset (p : WPACKET) (ch : Z) (len : nat) : res (bool * WPACKET) :=
  WPACKET_memcpy p (repeat (u8 ch) len).

(** ** Sub-packets *)

Definition WPACKET_start_sub_packet_len__ (p : WPACKET) (lenbytes : Z) : bool * WPACKET :=
  if (length (subs p) =? 0)%nat then (false, p)
  else if (0 <? lenbytes) && endfirst p then (false, p)
  else if negb (alloc_ok (nalloc p)) then (false, set_nalloc (nalloc p + 1) p)
  else
    let p := set_nalloc (nalloc p + 1) p in
    let sub len := mk_sub len lenbytes (u64 (written p + lenbytes)) 0 in
    if lenbytes =? 0 then (true, set_subs (sub 0 :: subs p) p)
    else
      let p := set_subs (sub (written p) :: subs p) p in
      let '(ok, _, p) := WPACKET_allocate_bytes p lenbytes in (ok, p).
Definition WPACKET_start_sub_packet (p : WPACKET) := WPACKET_start_sub_packet_len__ p 0.

(** [while ((tmplen = tmplen >> 8) > 0) numlenbytes++] for 64-bit lengths *)
Fixpoint der_len_bytes (fuel : nat) (tmplen : Z) : Z :=
  match fuel with
  | O => 1
  | S fuel => if 0 <? Z.shiftr tmplen 8 then 1 + der_len_bytes fuel (Z.shiftr tmplen 8) else 1
  end.

(** The sub-packet [sub] with the [parents] around it, the innermost of [p]
    when it is closed ([doclose]).  The result holds the fields of [sub] that
    the code updates in place. *)
Definition wpacket_intern_close (p : WPACKET) (sub : WPACKET_SUB) (parents : list WPACKET_SUB)
    (doclose : bool) : res (bool * WPACKET) :=
  let packlen := u64 (written p - pwritten sub) in
  if (packlen =? 0) && negb (Z.land (sub_flags sub) WPACKET_FLAGS_NON_ZERO_LENGTH =? 0)
  then Val (false, p)
  else if (packlen =? 0) && negb (Z.land (sub_flags sub) WPACKET_FLAGS_ABANDON_ON_ZERO_LENGTH =? 0)
          && negb doclose
  then Val (false, p)
  else
    let abandon := (packlen =? 0)
      && negb (Z.land (sub_flags sub) WPACKET_FLAGS_ABANDON_ON_ZERO_LENGTH =? 0) in
    let p := if abandon && (u64 (wcurr p - lenbytes sub) =? packet_len sub)
             then set_written (u64 (wcurr p - lenbytes sub)) (u64 (written p - lenbytes sub)) p
             else p in
    let sub := if abandon then mk_sub 0 0 (pwritten sub) (sub_flags sub) else sub in
    '(ok, p) ←
      (if 0 <? lenbytes sub
       then
         match GETBUF p with
         | None => Val (true, p)
         | Some (a, _) => put_value p (Some (a, packet_len sub)) packlen (lenbytes sub)
         end
       else if endfirst p && negb (length parents =? 0)%nat
               && (negb (packlen =? 0)
                   || (Z.land (sub_flags sub) WPACKET_FLAGS_ABANDON_ON_ZERO_LENGTH =? 0))
       then
         let numlenbytes := der_len_bytes 8 packlen in
         '(ok, p) ← WPACKET_put_bytes__ p packlen numlenbytes;
         if negb ok then Val (false, p)
         else if 0x7f <? packlen then WPACKET_put_bytes__ p (Z.lor numlenbytes 0x80) 1
         else Val (true, p)
       else Val (true, p));
    if negb ok then Val (false, p)
    else Val (true, if doclose then set_subs parents p else p).

Definition WPACKET_close (p : WPACKET) : res (bool * WPACKET) :=
  match subs p with
  | sub :: (_ :: _) as parents => wpacket_intern_close p sub (drop 1 (subs p)) true
  | _ => Val (false, p)
  end.

Definition WPACKET_finish (p : WPACKET) : res (bool * WPACKET) :=
  match subs p with
  | [sub] => wpacket_intern_close p sub [] true
  | _ => Val (false, p)
  end.

Fixpoint fill_lengths (l : list WPACKET_SUB) (p : WPACKET) : res (bool * WPACKET) :=
  match l with
  | [] => Val (true, p)
  | sub :: parents =>
      '(ok, p) ← wpacket_intern_close p sub parents false;
      if negb ok then Val (false, p) else fill_lengths parents p
  end.
Definition WPACKET_fill_lengths (p : WPACKET) : res (bool * WPACKET) :=
  match subs p with [] => Val (false, p) | l => fill_lengths l p end.

Definition WPACKET_sub_memcpy__ (p : WPACKET) (src : list Z) (lenbytes : Z) : res (bool * WPACKET) :=
  let '(ok, p) := WPACKET_start_sub_packet_len__ p lenbytes in
  if negb ok then Val (false, p)
  else
    '(ok, p) ← WPACKET_memcpy p src;
    if negb ok then Val (false, p) else WPACKET_close p.

Definition WPACKET_sub_allocate_bytes__ (p : WPACKET) (len lenbytes : Z) : res (bool * wptr * WPACKET) :=
  let '(ok, p) := WPACKET_start_sub_packet_len__ p lenbytes in
  if negb ok then Val (false, None, p)
  else
    let '(ok, c, p) := WPACKET_allocate_bytes p len in
    if negb ok then Val (false, None, p)
    else '(ok, p) ← WPACKET_close p; Val (ok, c, p).

(** ** Start and end *)

Definition wpacket_intern_init_len (p : WPACKET) (lenbytes : Z) : bool * WPACKET :=
  let p := set_written 0 0 p in
  let a := nalloc p in
  let p := set_nalloc (a + 1) p in
  if negb (alloc_ok a) then (false, set_subs [] p)
  else if lenbytes =? 0 then (true, set_subs [mk_sub 0 0 0 0] p)
  else
    let p := set_subs [mk_sub 0 lenbytes lenbytes 0] p in
    let '(ok, _, p) := WPACKET_allocate_bytes p lenbytes in
    if negb ok then (false, set_subs [] p) else (true, p).

(** The fields of a packet that an initialiser sets, before the length. *)
Definition fresh_packet (buf : option BUF_MEM) (static : option (list Z)) (max : Z) (ef : bool) (a : Z) :=
  mk_wpacket buf static 0 0 max [] ef a.

(** [len] is the size of the buffer. *)
Definition WPACKET_init_static_len (buf : list Z) (lenbytes a : Z) : bool * WPACKET :=
  let max := maxmaxsize lenbytes in
  let len := Z.of_nat (length buf) in
  if len =? 0 then (false, fresh_packet None None 0 false a)
  else wpacket_intern_init_len
         (fresh_packet None (Some buf) (if max <? len then max else len) false a) lenbytes.
Definition WPACKET_init_der (buf : list Z) (a : Z) : bool * WPACKET :=
  let len := Z.of_nat (length buf) in
  if len =? 0 then (false, fresh_packet None None 0 false a)
  else wpacket_intern_init_len (fresh_packet None (Some buf) len true a) 0.
Definition WPACKET_init_len (buf : BUF_MEM) (lenbytes a : Z) : bool * WPACKET :=
  wpacket_intern_init_len (fresh_packet (Some buf) None (maxmaxsize lenbytes) false a) lenbytes.
Definition WPACKET_init (buf : BUF_MEM) (a : Z) := WPACKET_init_len buf 0 a.
Definition WPACKET_init_null (lenbytes a : Z) : bool * WPACKET :=
  wpacket_intern_init_len (fresh_packet None None (maxmaxsize lenbytes) false a) 0.
Definition WPACKET_init_null_der (a : Z) : bool * WPACKET :=
  wpacket_intern_init_len (fresh_packet None None SIZE_MAX true a) 0.

Definition WPACKET_set_flags (p : WPACKET) (flags : Z) : bool * WPACKET :=
  match subs p with
  | [] => (false, p)
  | s :: l => (true, set_subs (mk_sub (packet_len s) (lenbytes s) (pwritten s) flags :: l) p)
  end.

(** The outermost sub-packet is the last of the list. *)
Definition WPACKET_set_max_size (p : WPACKET) (max : Z) : bool * WPACKET :=
  match last (subs p) with
  | None => (false, p)
  | Some sub =>
      let n := if lenbytes sub =? 0 then 8 else lenbytes sub in
      if (maxmaxsize n <? max) || (max <? written p) then (false, p) else (true, set_maxsize max p)
  end.

Definition WPACKET_get_total_written (p : WPACKET) : Z := written p.
Definition WPACKET_get_length (p : WPACKET) : option Z :=
  match subs p with [] => None | s :: _ => Some (u64 (written p - pwritten s)) end.
Definition WPACKET_is_null_buf (p : WPACKET) : bool :=
  match wbuf p, staticbuf p with None, None => true | _, _ => false end.
Definition WPACKET_cleanup (p : WPACKET) : WPACKET := set_subs [] p.

End Writer.
