(* ===== verification/WpacketSpec.v ===== *)
(** * Writing packets: refinement

    A [WPACKET] that writes forwards refines a stack of frames, each with the
    bytes written since a sub-packet was opened: closing a sub-packet puts its
    length before its bytes.  No write leaves the buffer, and what is written
    reads back through [PACKET]. *)

From S2P Require Import Prelude Buffers CMem Packet PacketSpec Wpacket.

(** ** Frames *)

Record frame := mk_frame { f_len : nat; f_flags : Z; f_body : list Z }.

Definition append (bs : list Z) (fs : list frame) : list frame :=
  match fs with
  | [] => []
  | f :: fs => mk_frame (f_len f) (f_flags f) (f_body f ++ bs) :: fs
  end.
Definition open_frame (n : nat) (fs : list frame) : list frame := mk_frame n 0 [] :: fs.

(** The bytes of a frame that is closed. *)
Definition sealed (f : frame) : list Z := be_bytes (f_len f) (Z.of_nat (length (f_body f))) ++ f_body f.

(** ** The buffer *)

Definition contents (p : WPACKET) : list Z := match GETBUF p with Some (_, d) => d | None => [] end.
Definition with_contents (d : list Z) (p : WPACKET) : WPACKET :=
  match staticbuf p, wbuf p with
  | Some _, _ => set_static d p
  | None, Some b => set_buf (mk_buf_mem (buf_length b) d (buf_block b)) p
  | None, None => p
  end.

(** A fixed buffer has the size of the packet at least; of a growing one, the
    bytes in use hold what is written. *)
Definition buffer_ok (p : WPACKET) : Prop :=
  match staticbuf p, wbuf p with
  | Some d, None => maxsize p <= Z.of_nat (length d)
  | None, Some b => written p <= buf_length b <= buf_max b /\ buf_max b < SIZE_MAX
  | _, _ => False
  end.

(** The bytes written, sub-packet by sub-packet: the place of the length holds
    anything before the sub-packet is closed. *)
Inductive layout : list Z -> list WPACKET_SUB -> list frame -> Prop :=
| layout_nil : layout [] [] []
| layout_cons pre hole ss s fs f :
    layout pre ss fs -> length hole = f_len f ->
    lenbytes s = Z.of_nat (f_len f) -> sub_flags s = f_flags f ->
    pwritten s = Z.of_nat (length pre + f_len f) ->
    packet_len s = (if (f_len f =? 0)%nat then 0 else Z.of_nat (length pre)) ->
    layout (pre ++ hole ++ f_body f) (s :: ss) (f :: fs).

Record rep (p : WPACKET) (fs : list frame) : Prop := {
  rep_fwd : endfirst p = false;
  rep_curr : wcurr p = written p;
  rep_max : 0 <= written p <= maxsize p /\ maxsize p <= SIZE_MAX;
  rep_buf : buffer_ok p;
  rep_layout : layout (take (Z.to_nat (written p)) (contents p)) (subs p) fs }.

(** ** Layouts *)

Lemma layout_append w ss fs bs : fs <> [] -> layout w ss fs -> layout (w ++ bs) ss (append bs fs).
Proof.
  intros Hne H. destruct H as [| pre hole ss s fs f L Lh E1 E2 E3 E4]; [easy |].
  rewrite <- !app_assoc. cbn [append].
  change (f_body f ++ bs) with (f_body (mk_frame (f_len f) (f_flags f) (f_body f ++ bs))).
  now constructor.
Qed.

Lemma layout_subs w ss fs : layout w ss fs -> length ss = length fs.
Proof. induction 1; cbn; auto. Qed.

(** ** Writes into the buffer *)

Lemma copy_at_app n a b p :
  (n + length a + length b <= length p)%nat ->
  copy_at n a (copy_at (n + length a) b p) = copy_at n (a ++ b) p.
Proof.
  intros H. unfold copy_at. rewrite length_app, <- app_assoc.
  rewrite take_app_le by (rewrite length_take; lia). rewrite take_take.
  replace (n `min` (n + length a))%nat with n by lia. f_equal. f_equal.
  rewrite drop_app_ge by (rewrite length_take; lia).
  rewrite length_take. replace (n + length a - _)%nat with 0%nat by lia.
  now rewrite drop_0, Nat.add_assoc.
Qed.

Lemma take_copy_at n off bs (d : list Z) :
  (off + length bs <= n)%nat -> (n <= length d)%nat ->
  take n (copy_at off bs d) = copy_at off bs (take n d).
Proof.
  intros H1 H2. unfold copy_at.
  rewrite take_app, length_take, !take_take.
  replace (n `min` off)%nat with off by lia. replace (off `min` n)%nat with off by lia. f_equal.
  rewrite take_app, (take_ge bs) by lia. f_equal.
  rewrite firstn_skipn_comm. do 2 f_equal. lia.
Qed.

Lemma write_at_ok p off bs :
  buffer_ok p -> 0 <= off -> off + Z.of_nat (length bs) <= Z.of_nat (length (contents p)) ->
  write_at p off bs = Val (with_contents (copy_at (Z.to_nat off) bs (contents p)) p).
Proof.
  unfold buffer_ok, write_at, contents, with_contents, GETBUF. intros B Ho Hl.
  destruct (staticbuf p), (wbuf p); try easy;
    rewrite (proj2 (Z.leb_le 0 _)), (proj2 (Z.leb_le _ (Z.of_nat _))) by assumption; reflexivity.
Qed.

Lemma contents_with d p : buffer_ok p -> contents (with_contents d p) = d.
Proof.
  unfold buffer_ok, contents, with_contents, GETBUF. intros B.
  destruct (staticbuf p) eqn:Es, (wbuf p) eqn:Eb; try easy; cbn; now rewrite ?Es, ?Eb.
Qed.

Lemma with_with_contents d d' p : with_contents d (with_contents d' p) = with_contents d p.
Proof.
  unfold with_contents. destruct (staticbuf p) eqn:Es, (wbuf p) eqn:Eb; cbn; rewrite ?Es, ?Eb; try easy.
Qed.

Lemma with_contents_id p : buffer_ok p -> with_contents (contents p) p = p.
Proof.
  unfold buffer_ok, with_contents, contents, GETBUF. destruct p as [[[]|] [] ? ? ? ? ? ?]; cbn; easy.
Qed.

(** Only the bytes differ. *)
Lemma with_contents_fields d p :
  let q := with_contents d p in
  wcurr q = wcurr p /\ written q = written p /\ maxsize q = maxsize p /\ subs q = subs p
  /\ endfirst q = endfirst p /\ nalloc q = nalloc p.
Proof. unfold with_contents. destruct (staticbuf p), (wbuf p); cbn; auto 10. Qed.

Lemma with_contents_ok d p :
  buffer_ok p -> length d = length (contents p) -> buffer_ok (with_contents d p).
Proof.
  unfold buffer_ok, with_contents, contents, GETBUF. intros B E.
  destruct (staticbuf p) eqn:Es, (wbuf p) eqn:Eb; try easy; cbn; rewrite ?Es, ?Eb, ?E; try easy.
  unfold buf_max in *. cbn in *. now rewrite E.
Qed.

Lemma contents_length p fs : rep p fs -> (Z.to_nat (written p) <= length (contents p))%nat.
Proof.
  intros R. pose proof (rep_buf _ _ R) as B. pose proof (rep_max _ _ R) as [Hw Hm].
  unfold buffer_ok, contents, GETBUF, buf_max in *. destruct (staticbuf p), (wbuf p); try easy; lia.
Qed.

(** ** Reserving bytes *)

(** What fits without growing, and room for [n] more bytes. *)
Definition cap (p : WPACKET) : Z :=
  match wbuf p with Some b => Z.min (maxsize p) (buf_length b) | None => maxsize p end.
Definition room (p : WPACKET) (n : Z) : Prop := written p + n <= cap p.

Lemma cap_with_contents d p : cap (with_contents d p) = cap p.
Proof.
  unfold cap, with_contents. destruct (staticbuf p), (wbuf p) eqn:E; cbn; now rewrite ?E.
Qed.

Lemma room_contents p n : buffer_ok p -> room p n -> written p + n <= Z.of_nat (length (contents p)).
Proof.
  unfold buffer_ok, room, cap, contents, GETBUF, buf_max. intros B H.
  destruct (staticbuf p), (wbuf p); try easy; lia.
Qed.

Section Refinement.
Context {A : Alloc}.

Lemma grow_ok b len a r b' a' :
  0 <= buf_length b <= buf_max b -> buf_max b < SIZE_MAX -> buf_length b < len <= SIZE_MAX ->
  BUF_MEM_grow b len a = (r, b', a') -> r <> 0 ->
  buf_length b' = len /\ len <= buf_max b' < SIZE_MAX
  /\ take (Z.to_nat (buf_length b)) (buf_data b') = take (Z.to_nat (buf_length b)) (buf_data b).
Proof.
  intros Hb Hmax Hlen. unfold BUF_MEM_grow, LIMIT_BEFORE_EXPANSION, zero_at.
  rewrite (proj2 (Z.leb_gt _ _)) by lia.
  assert (K : forall d, (Z.to_nat (buf_length b) <= length d)%nat ->
            take (Z.to_nat (buf_length b)) (copy_at (Z.to_nat (buf_length b))
              (repeat 0 (Z.to_nat (len - buf_length b))) d) = take (Z.to_nat (buf_length b)) d).
  { intros d Hd. unfold copy_at. apply take_app_length'. rewrite length_take. lia. }
  unfold buf_max in *. destruct (Z.leb_spec len (Z.of_nat (length (buf_data b)))).
  - intros [= <- <- <-] _. cbn [buf_length buf_data].
    rewrite K, copy_at_length by (rewrite ?repeat_length; lia). repeat split; lia.
  - destruct (Z.ltb_spec 1610612732 len); [intros [= <-]; easy |].
    destruct (alloc_ok a); cbn [negb]; [| intros [= <-]; easy].
    intros [= <- <- <-] _. cbn [buf_length buf_data]. unfold SIZE_MAX.
    assert (len <= (len + 3) / 3 * 4 < 2 ^ 32) by (change (2 ^ 32) with 4294967296; zdm; lia).
    change (2 ^ 32) with 4294967296 in *. change (2 ^ 64 - 1) with 18446744073709551615.
    generalize dependent ((len + 3) / 3 * 4). intros n Hn.
    rewrite copy_at_length, K by (rewrite ?repeat_length, length_app, length_map, length_seq; lia).
    rewrite length_app, length_map, length_seq. rewrite take_app_le by lia. repeat split; lia.
Qed.

(** What a successful reservation leaves. *)
Definition reserved (p : WPACKET) (fs : list frame) (len : Z) (c : wptr) (p' : WPACKET) : Prop :=
  rep p' fs /\ written p' = written p /\ maxsize p' = maxsize p /\ subs p' = subs p /\ room p' len
  /\ exists a, c = Some (a, written p).

Lemma get_curr_fwd p fs : rep p fs -> exists a, WPACKET_get_curr p = Some (a, written p).
Proof.
  intros R. unfold WPACKET_get_curr. rewrite (rep_fwd _ _ R), (rep_curr _ _ R).
  pose proof (rep_buf _ _ R) as B. unfold buffer_ok, GETBUF in *.
  destruct (staticbuf p), (wbuf p); try easy; eauto.
Qed.

Lemma reserve_same p fs len :
  rep p fs -> room p len -> exists c, reserved p fs len c p /\ c = WPACKET_get_curr p.
Proof.
  intros R Hr. destruct (get_curr_fwd p fs R) as [a E].
  exists (Some (a, written p)). split; [| now rewrite E].
  split; [assumption |]. do 3 (split; [reflexivity |]). eauto.
Qed.

(** The grown packet holds the same bytes. *)
Lemma rep_grown p fs b b' a :
  rep p fs -> staticbuf p = None -> wbuf p = Some b ->
  buf_length b <= buf_length b' <= buf_max b' -> buf_max b' < SIZE_MAX ->
  take (Z.to_nat (buf_length b)) (buf_data b') = take (Z.to_nat (buf_length b)) (buf_data b) ->
  rep (set_nalloc a (set_buf b' p)) fs.
Proof.
  intros R Es Eb H1 H2 H3. pose proof (rep_buf _ _ R) as B.
  destruct R as [Rf Rc Rm _ Rl]. unfold buffer_ok in B. rewrite Es, Eb in B.
  split; cbn; auto; [unfold buffer_ok; cbn; rewrite Es; lia |].
  unfold contents, GETBUF in *. cbn. rewrite Es, ?Eb in *.
  replace (take (Z.to_nat (written p)) (buf_data b')) with (take (Z.to_nat (written p)) (buf_data b));
    [assumption |].
  apply (f_equal (take (Z.to_nat (written p)))) in H3. rewrite !take_take in H3.
  now rewrite Nat.min_l in H3 by lia.
Qed.

Lemma reserve_ok p fs len :
  rep p fs -> fs <> [] -> 0 < len <= SIZE_MAX ->
  exists ok c p', WPACKET_reserve_bytes p len = (ok, c, p')
    /\ (ok = true -> reserved p fs len c p') /\ (room p len -> ok = true /\ p' = p /\ c = WPACKET_get_curr p).
Proof.
  intros R Hne Hlen. pose proof (layout_subs _ _ _ (rep_layout _ _ R)) as Ls.
  pose proof (rep_max _ _ R) as [Hw Hm]. pose proof (rep_buf _ _ R) as B.
  unfold WPACKET_reserve_bytes, SIZE_MAX in *.
  rewrite (proj2 (Nat.eqb_neq _ 0)) by (destruct fs; cbn in *; [easy | lia]).
  rewrite (proj2 (Z.eqb_neq len 0)), u64_small by lia. cbn [orb].
  destruct (Z.ltb_spec (maxsize p - written p) len).
  { exists false, None, p. split; [reflexivity |]. split; [easy |]. unfold room, cap. destruct (wbuf p); lia. }
  assert (Same : room p len -> exists ok c p',
    (true, match WPACKET_get_curr p with
           | Some (a, off) => Some (a, if endfirst p then off - len else off) | None => None end, p)
    = (ok, c, p') /\ (ok = true -> reserved p fs len c p') /\ (room p len -> ok = true /\ p' = p /\ c = WPACKET_get_curr p)).
  { intros Hr. destruct (reserve_same p fs len R Hr) as (c & Hc & E). rewrite (rep_fwd _ _ R).
    rewrite <- E. exists true, c, p. split; [| tauto]. destruct c as [[]|]; reflexivity. }
  destruct (wbuf p) as [b |] eqn:Eb.
  2:{ apply Same. unfold room, cap. rewrite Eb. lia. }
  unfold buffer_ok in B. rewrite Eb in B. destruct (staticbuf p) eqn:Es; [easy |].
  unfold SIZE_MAX in B. rewrite u64_small by lia.
  destruct (Z.ltb_spec (buf_length b - written p) len).
  2:{ apply Same. unfold room, cap. rewrite Eb. lia. }
  clear Same. set (reflen := if buf_length b <? len then len else buf_length b).
  assert (Hr : reflen = Z.max len (buf_length b)) by (unfold reflen; destruct (Z.ltb_spec (buf_length b) len); lia).
  set (newlen := if _ <? reflen then _ else _).
  assert (Hn : buf_length b + len <= newlen <= SIZE_MAX \/ newlen = SIZE_MAX).
  { unfold newlen, DEFAULT_BUF_SIZE, SIZE_MAX. destruct (Z.ltb_spec ((2 ^ 64 - 1) / 2) reflen) as [| Hle]; [auto |].
    left. assert (reflen * 2 <= 2 ^ 64 - 1) by (revert Hle; zdm; lia). rewrite u64_small by lia.
    destruct (Z.ltb_spec (reflen * 2) 256); lia. }
  destruct (BUF_MEM_grow b newlen (nalloc p)) as [[r b'] a'] eqn:G.
  assert (Hno : ~ room p len) by (unfold room, cap; rewrite Eb; lia).
  destruct (Z.eqb_spec r 0) as [-> | Hr0]; cbn [negb].
  { exists false, None, (set_nalloc a' (set_buf b' p)). split; [reflexivity |]. split; [easy | tauto]. }
  unfold SIZE_MAX in Hn.
  destruct (grow_ok b newlen (nalloc p) r b' a') as (G1 & G2 & G3); try assumption;
    try (unfold SIZE_MAX; lia).
  assert (Hs : buf_length b + len <= newlen) by (unfold SIZE_MAX in G2; unfold buf_max in *; lia).
  assert (R' : rep (set_nalloc a' (set_buf b' p)) fs) by (eapply rep_grown; eauto; lia).
  assert (Hr' : room (set_nalloc a' (set_buf b' p)) len) by (unfold room, cap; cbn; lia).
  destruct (reserve_same _ fs len R' Hr') as (c & Hc & E). rewrite <- E.
  exists true, c, (set_nalloc a' (set_buf b' p)).
  split; [cbn; rewrite (rep_fwd _ _ R); destruct c as [[]|]; reflexivity |].
  split; [intros _; exact Hc | tauto].
Qed.

(** ** Appending *)

(** The packet after [n] bytes more. *)
Definition advanced (p : WPACKET) (n : Z) (p' : WPACKET) : Prop :=
  written p' = written p + n /\ cap p' = cap p /\ nalloc p <= nalloc p'.

Lemma write_reserved p fs bs :
  rep p fs -> fs <> [] -> room p (Z.of_nat (length bs)) ->
  let n := Z.of_nat (length bs) in
  let q := set_written (u64 (wcurr p + n)) (u64 (written p + n)) p in
  exists p', write_at q (written p) bs = Val p' /\ rep p' (append bs fs) /\ advanced p n p'
    /\ buffer_ok q /\ p' = with_contents (copy_at (Z.to_nat (written p)) bs (contents q)) q
    /\ contents q = contents p.
Proof.
  intros R Hne Hr n q. pose proof (rep_buf _ _ R) as B. pose proof (rep_max _ _ R) as [Hw Hm].
  pose proof (room_contents p n B Hr) as Hc. pose proof (contents_length p fs R) as Hl.
  assert (Hn : written p + n <= maxsize p) by (unfold room, cap in Hr; destruct (wbuf p); lia).
  assert (Eq : q = set_written (written p + n) (written p + n) p)
    by (unfold q; rewrite (rep_curr _ _ R), u64_small; [reflexivity | unfold SIZE_MAX in *; lia]).
  clearbody q. subst q. set (q := set_written _ _ p).
  assert (Bq : buffer_ok q).
  { unfold buffer_ok, q, room, cap in *. cbn. destruct (staticbuf p), (wbuf p); try easy; lia. }
  assert (Cq : contents q = contents p) by reflexivity.
  rewrite write_at_ok by (easy || (rewrite Cq; lia)).
  eexists. split; [reflexivity |]. rewrite Cq.
  set (d := copy_at _ bs _).
  assert (Ld : length d = length (contents p)) by (apply copy_at_length; lia).
  destruct (with_contents_fields d q) as (F1 & F2 & F3 & F4 & F5 & F6).
  split; [| split; [| auto]].
  - split.
    + rewrite F5. exact (rep_fwd _ _ R).
    + now rewrite F1, F2.
    + rewrite F2, F3. cbn. lia.
    + now apply with_contents_ok.
    + rewrite F2, F4, contents_with by easy. cbn.
      replace (Z.to_nat (written p + n)) with (Z.to_nat (written p) + length bs)%nat by lia.
      unfold d. rewrite copy_at_take by lia. apply layout_append; [easy |]. exact (rep_layout _ _ R).
  - split; [rewrite F2; reflexivity |]. split; [| rewrite F6; reflexivity].
    rewrite cap_with_contents. reflexivity.
Qed.

(** The outcome of a writer: it does not fault; when it returns 1 it has
    written [bs]; and it does when there is room for [n] bytes. *)
Definition wrote (p : WPACKET) (fs : list frame) (n : Z) (r : res (bool * WPACKET)) : Prop :=
  exists ok p', r = Val (ok, p')
    /\ (ok = true -> rep p' fs) /\ (room p n -> ok = true /\ advanced p n p').

Lemma memcpy_ok p fs bs :
  rep p fs -> fs <> [] -> Z.of_nat (length bs) <= SIZE_MAX ->
  wrote p (append bs fs) (Z.of_nat (length bs)) (WPACKET_memcpy p bs).
Proof.
  intros R Hne Hb. unfold WPACKET_memcpy.
  destruct (Nat.eqb_spec (length bs) 0) as [E | E].
  { apply nil_length_inv in E as ->. exists true, p. split; [reflexivity |]. split.
    - intros _. destruct fs as [| f fs]; [easy |]. cbn. rewrite app_nil_r. now destruct f.
    - intros _. split; [reflexivity |]. repeat split; cbn; lia. }
  unfold WPACKET_allocate_bytes.
  destruct (reserve_ok p fs (Z.of_nat (length bs)) R Hne) as (ok & c & q & -> & H1 & H2); [lia |].
  destruct ok; cbn [negb].
  2:{ exists false, q. split; [reflexivity |]. split; [easy |]. intros Hr. now apply H2 in Hr. }
  destruct (H1 eq_refl) as (Rq & Ew & Em & Es & Hroom & a & ->).
  destruct (write_reserved q fs bs Rq Hne Hroom) as (p' & E1 & R' & Adv & _).
  rewrite <- Ew, E1. cbn [mbind res_bind].
  exists true, p'. split; [reflexivity |]. split; [auto |].
  intros Hr. destruct (H2 Hr) as [_ [-> _]]. auto.
Qed.

(** ** Integers *)

Lemma put_loop_ok off n p v :
  buffer_ok p -> 0 <= off -> off + Z.of_nat n <= Z.of_nat (length (contents p)) -> 0 <= v ->
  put_loop off n p v
  = Val (v / 256 ^ Z.of_nat n, with_contents (copy_at (Z.to_nat off) (be_bytes n v) (contents p)) p).
Proof.
  intros B Ho. revert p v B. induction n as [| n IH]; intros p v B Hn Hv.
  - cbn. unfold copy_at. cbn. rewrite Nat.add_0_r, take_drop, Z.div_1_r, with_contents_id by easy.
    reflexivity.
  - cbn [put_loop]. rewrite write_at_ok by (easy || (cbn [length]; lia)). cbn [mbind res_bind].
    set (q := with_contents _ p).
    assert (Cq : contents q = copy_at (Z.to_nat (off + Z.of_nat n)) [u8 (Z.land v 255)] (contents p))
      by now apply contents_with.
    rewrite IH.
    + unfold q. rewrite with_with_contents. fold q. rewrite Cq. f_equal. f_equal.
      * rewrite Z.shiftr_div_pow2 by lia. change (2 ^ 8) with 256.
        rewrite Nat2Z.inj_succ, Z.pow_succ_r, Z.div_div by lia. reflexivity.
      * f_equal. cbn [be_bytes]. rewrite Z.shiftr_div_pow2 by lia. change (2 ^ 8) with 256.
        replace (u8 (Z.land v 255)) with (v mod 256)
          by (change 255 with (Z.ones 8); rewrite Z.land_ones by lia; unfold u8; now rewrite Zmod_mod).
        rewrite <- copy_at_app by (rewrite be_bytes_length; cbn; lia).
        rewrite be_bytes_length. do 2 f_equal. lia.
    + apply with_contents_ok; [assumption |]. apply copy_at_length. cbn. lia.
    + rewrite Cq, copy_at_length by (cbn; lia). lia.
    + rewrite Z.shiftr_div_pow2 by lia. apply Z.div_pos; lia.
Qed.

Lemma fits_div v n : 0 <= v -> (0 <? v / 256 ^ Z.of_nat n) = (256 ^ Z.of_nat n <=? v).
Proof.
  intros Hv. assert (0 < 256 ^ Z.of_nat n) by (apply Z.pow_pos_nonneg; lia).
  destruct (Z.leb_spec (256 ^ Z.of_nat n) v) as [H1 | H1].
  - apply Z.ltb_lt, Z.div_str_pos. lia.
  - apply Z.ltb_ge. rewrite Z.div_small by lia. lia.
Qed.

(** A value that does not fit is an error. *)
Lemma put_bytes_ok p fs v n :
  rep p fs -> fs <> [] -> (1 <= n <= 8)%nat -> 0 <= v < 2 ^ 64 ->
  exists ok p', WPACKET_put_bytes__ p v (Z.of_nat n) = Val (ok, p')
    /\ (ok = true -> rep p' (append (be_bytes n v) fs) /\ v < 256 ^ Z.of_nat n)
    /\ (room p (Z.of_nat n) -> v < 256 ^ Z.of_nat n -> ok = true /\ advanced p (Z.of_nat n) p').
Proof.
  intros R Hne Hn Hv. unfold WPACKET_put_bytes__, WPACKET_allocate_bytes.
  rewrite (proj2 (Z.ltb_ge _ _)) by lia.
  destruct (reserve_ok p fs (Z.of_nat n) R Hne) as (ok & c & q & -> & H1 & H2); [unfold SIZE_MAX; lia |].
  destruct ok; cbn [negb].
  2:{ exists false, q. split; [reflexivity |]. split; [easy |]. intros Hr. now apply H2 in Hr. }
  destruct (H1 eq_refl) as (Rq & Ew & Em & Es & Hroom & a & ->).
  rewrite <- (be_bytes_length n v) in Hroom.
  destruct (write_reserved q fs (be_bytes n v) Rq Hne Hroom) as (p' & E1 & R' & Adv & Bq & Ep & Cq).
  rewrite be_bytes_length in *. pose proof (room_contents q _ (rep_buf _ _ Rq) Hroom) as Hc.
  unfold put_value. rewrite (u64_small v), Nat2Z.id, <- Ew by lia.
  pose proof (rep_max _ _ Rq) as [Hw _].
  rewrite put_loop_ok by (try easy; rewrite ?Cq; lia). cbn [mbind res_bind].
  rewrite fits_div by lia. rewrite <- Ep.
  exists (negb (256 ^ Z.of_nat n <=? v)), p'. split; [reflexivity |]. split.
  - intros Hok. split; [assumption |]. destruct (Z.leb_spec (256 ^ Z.of_nat n) v); [easy | lia].
  - intros Hr Hf. destruct (H2 Hr) as [_ [-> _]]. rewrite (proj2 (Z.leb_gt _ _)) by lia. auto.
Qed.

(** ** Opening a sub-packet *)

Lemma rep_nalloc p fs a : rep p fs -> rep (set_nalloc a p) fs.
Proof. intros []. now split. Qed.

Lemma reserve_subs p l len :
  l <> [] -> subs p <> [] ->
  WPACKET_reserve_bytes (set_subs l p) len
  = let '(ok, c, q) := WPACKET_reserve_bytes p len in (ok, c, set_subs l q).
Proof.
  intros H1 H2. unfold WPACKET_reserve_bytes. cbn [subs set_subs].
  rewrite !(proj2 (Nat.eqb_neq (length _) 0)) by (destruct l, (subs p); easy).
  cbn [orb maxsize written wbuf set_subs nalloc].
  destruct (len =? 0); [reflexivity |]. destruct (_ <? len); [reflexivity |].
  destruct (wbuf p) as [b |] eqn:Eb; [destruct (_ <? len) |].
  - destruct (BUF_MEM_grow _ _ _) as [[r b'] a]. destruct (negb _); reflexivity.
  - reflexivity.
  - reflexivity.
Qed.

(** The sub-packet that is opened at the end of a layout. *)
Lemma layout_open w ss fs hole n :
  layout w ss fs -> length hole = n ->
  layout (w ++ hole) (mk_sub (if (n =? 0)%nat then 0 else Z.of_nat (length w)) (Z.of_nat n)
                        (Z.of_nat (length w + n)) 0 :: ss) (open_frame n fs).
Proof.
  intros L E. unfold open_frame. rewrite <- (app_nil_r hole).
  change (@nil Z) with (f_body (mk_frame n 0 [])). now constructor.
Qed.

Lemma open_ok p fs n :
  rep p fs -> fs <> [] -> (n <= 8)%nat ->
  exists ok p', WPACKET_start_sub_packet_len__ p (Z.of_nat n) = (ok, p')
    /\ (ok = true -> rep p' (open_frame n fs))
    /\ (room p (Z.of_nat n) -> alloc_ok (nalloc p) = true -> ok = true /\ advanced p (Z.of_nat n) p').
Proof.
  intros R Hne Hn. unfold WPACKET_start_sub_packet_len__.
  pose proof (layout_subs _ _ _ (rep_layout _ _ R)) as Ls.
  assert (Hs : subs p <> []) by (destruct (subs p), fs; easy).
  rewrite (proj2 (Nat.eqb_neq (length _) 0)) by (destruct (subs p); easy).
  rewrite (rep_fwd _ _ R), andb_false_r. destruct (alloc_ok (nalloc p)); cbn [negb].
  2:{ eexists _, _. split; [reflexivity |]. easy. }
  assert (R1 := rep_nalloc p fs (nalloc p + 1) R). set (p1 := set_nalloc _ p) in *.
  pose proof (rep_max _ _ R1) as [Hw Hm]. pose proof (contents_length _ _ R1) as Hl.
  change (written p) with (written p1). change (subs p) with (subs p1).
  assert (Ad : nalloc p <= nalloc p1) by (cbn; lia).
  assert (Lw : length (take (Z.to_nat (written p1)) (contents p1)) = Z.to_nat (written p1))
    by (rewrite length_take; lia).
  destruct (Z.eqb_spec (Z.of_nat n) 0) as [E | E].
  { assert (n = 0%nat) as -> by lia. eexists _, _. split; [reflexivity |].
    rewrite Z.add_0_r, u64_small by (unfold SIZE_MAX in *; lia). split.
    - intros _. destruct R1 as [Rf Rc Rm Rb Rl]. split; cbn [endfirst wcurr written maxsize subs set_subs]; auto.
      apply (layout_open _ _ _ [] 0) in Rl; [| reflexivity]. rewrite app_nil_r in Rl.
      rewrite Lw, Nat.add_0_r, Z2Nat.id in Rl by lia. exact Rl.
    - intros _ _. split; [reflexivity |]. repeat split; cbn; lia. }
  unfold WPACKET_allocate_bytes. rewrite reserve_subs by easy.
  destruct (reserve_ok p1 fs (Z.of_nat n) R1 Hne) as (ok & c & q & -> & H1 & H2); [unfold SIZE_MAX; lia |].
  destruct ok; cbn [negb].
  2:{ eexists _, _. split; [reflexivity |]. split; [easy |]. intros Hr. now apply H2 in Hr. }
  destruct (H1 eq_refl) as (Rq & Ew & Em & Es & Hroom & a & _).
  eexists _, _. split; [reflexivity |].
  pose proof (rep_buf _ _ Rq) as Bq. pose proof (room_contents q _ Bq Hroom) as Hc.
  pose proof (rep_max _ _ Rq) as [Hwq Hmq].
  assert (Hmax : written q + Z.of_nat n <= maxsize q)
    by (unfold room, cap in Hroom; destruct (wbuf q); lia).
  assert (Esub : u64 (written p1 + Z.of_nat n) = written q + Z.of_nat n)
    by (rewrite Ew, u64_small; unfold SIZE_MAX in *; lia).
  assert (Ecw : u64 (wcurr q + Z.of_nat n) = written q + Z.of_nat n
                /\ u64 (written q + Z.of_nat n) = written q + Z.of_nat n)
    by (rewrite (rep_curr _ _ Rq), u64_small; unfold SIZE_MAX in *; lia).
  destruct Ecw as [Ec Ewr]. split.
  - intros _. split; cbn [endfirst wcurr written maxsize subs set_subs set_written].
    + exact (rep_fwd _ _ Rq).
    + now rewrite Ec, Ewr.
    + rewrite Ewr. lia.
    + unfold buffer_ok, room, cap in *. cbn. rewrite Ewr. destruct (staticbuf q), (wbuf q); try easy; lia.
    + change (contents (set_written _ _ (set_subs _ q))) with (contents q). rewrite Ewr, Esub, <- Ew.
      replace (Z.to_nat (written q + Z.of_nat n)) with (Z.to_nat (written q) + n)%nat by lia.
      rewrite <- (take_take_drop (contents q)).
      eassert (Hl' := layout_open _ _ _ (take n (drop (Z.to_nat (written q)) (contents q))) n (rep_layout _ _ Rq) _).
      rewrite length_take, Nat.min_l, (proj2 (Nat.eqb_neq n 0)) in Hl' by lia.
      rewrite Z2Nat.id in Hl' by lia.
      replace (Z.of_nat (Z.to_nat (written q) + n)) with (written q + Z.of_nat n) in Hl' by lia.
      rewrite <- Es. exact Hl'.
      Unshelve. rewrite length_take, length_drop. lia.
  - intros Hr _. destruct (H2 Hr) as [_ [-> _]]. split; [reflexivity |]. unfold advanced.
    cbn [written nalloc set_written set_subs]. rewrite Ewr. repeat split; cbn; lia.
Qed.

(** ** Closing a sub-packet *)

(** What a frame adds to the one around it; [None] when it cannot be closed. *)
Definition close_frame (f : frame) : option (list Z) :=
  let empty := (length (f_body f) =? 0)%nat in
  if empty && negb (Z.land (f_flags f) WPACKET_FLAGS_NON_ZERO_LENGTH =? 0) then None
  else if empty && negb (Z.land (f_flags f) WPACKET_FLAGS_ABANDON_ON_ZERO_LENGTH =? 0) then Some []
  else if negb (f_len f =? 0)%nat && (256 ^ Z.of_nat (f_len f) <=? Z.of_nat (length (f_body f)))
  then None
  else Some (sealed f).

(** The packet after a sub-packet that began after [pre] has become [bs]. *)
Definition closed_with (p : WPACKET) (pre bs : list Z) (ss : list WPACKET_SUB) (p' : WPACKET) : Prop :=
  subs p' = ss /\ take (Z.to_nat (written p')) (contents p') = pre ++ bs
  /\ written p' = Z.of_nat (length pre + length bs) /\ written p' <= written p
  /\ endfirst p' = false /\ wcurr p' = written p' /\ maxsize p' = maxsize p
  /\ buffer_ok p' /\ cap p' = cap p /\ nalloc p' = nalloc p.

(** The sub-packet [s] of the frame [f] begins after [pre]. *)
Record opened (p : WPACKET) (s : WPACKET_SUB) (f : frame) (pre hole : list Z) : Prop := {
  op_bytes : take (Z.to_nat (written p)) (contents p) = pre ++ hole ++ f_body f;
  op_hole : length hole = f_len f;
  op_lenbytes : lenbytes s = Z.of_nat (f_len f);
  op_flags : sub_flags s = f_flags f;
  op_pwritten : pwritten s = Z.of_nat (length pre + f_len f);
  op_packet_len : packet_len s = if (f_len f =? 0)%nat then 0 else Z.of_nat (length pre) }.

Lemma rep_opened p f fs :
  rep p (f :: fs) ->
  exists pre hole s ss, subs p = s :: ss /\ opened p s f pre hole /\ layout pre ss fs.
Proof.
  intros R. pose proof (rep_layout _ _ R) as L.
  inversion L as [| pre hole ss s fs' f' L1 Lh E1 E2 E3 E4 EW Es Ef]. subst fs' f'.
  exists pre, hole, s, ss. split; [easy |]. split; [now split | assumption].
Qed.

Lemma opened_written p s f fs pre hole :
  rep p (f :: fs) -> opened p s f pre hole ->
  written p = Z.of_nat (length pre + f_len f + length (f_body f)).
Proof.
  intros R O. pose proof (contents_length _ _ R). pose proof (rep_max _ _ R) as [Hw _].
  pose proof (f_equal length (op_bytes _ _ _ _ _ O)) as E. pose proof (op_hole _ _ _ _ _ O).
  rewrite length_take, !length_app in E. lia.
Qed.

Lemma buffer_ok_shrink c w p : buffer_ok p -> w <= written p -> buffer_ok (set_written c w p).
Proof. unfold buffer_ok. cbn. destruct (staticbuf p), (wbuf p); try easy; lia. Qed.

(** The bytes of an abandoned length are given back. *)
Lemma abandon_ok p s ss f fs pre hole q :
  rep p (f :: fs) -> opened p s f pre hole -> f_body f = [] ->
  q = (if u64 (wcurr p - lenbytes s) =? packet_len s
       then set_written (u64 (wcurr p - lenbytes s)) (u64 (written p - lenbytes s)) p else p) ->
  endfirst q = false /\ closed_with p pre [] ss (set_subs ss q).
Proof.
  intros R O Eb Eq. pose proof (opened_written _ _ _ _ _ _ R O) as Lw.
  pose proof (rep_max _ _ R) as [Hw Hm]. pose proof (contents_length _ _ R) as Hl.
  pose proof (op_bytes _ _ _ _ _ O) as Ew. pose proof (op_hole _ _ _ _ _ O) as Lh.
  rewrite Eb in *. cbn [length] in Lw. rewrite app_nil_r in Ew.
  rewrite (op_lenbytes _ _ _ _ _ O), (op_packet_len _ _ _ _ _ O), (rep_curr _ _ R) in Eq.
  rewrite u64_small in Eq by (unfold SIZE_MAX in *; lia).
  set (n := Z.of_nat (length pre)).
  assert (Eq' : q = set_written n n p \/ (q = p /\ f_len f = 0%nat)).
  { rewrite Eq. destruct (Nat.eqb_spec (f_len f) 0) as [E | E].
    - destruct (Z.eqb_spec (written p - Z.of_nat (f_len f)) 0); [left; f_equal; lia | auto].
    - rewrite (proj2 (Z.eqb_eq _ _)) by lia. left. f_equal; lia. }
  clear Eq. unfold closed_with. rewrite app_nil_r. destruct Eq' as [-> | [-> E]].
  - split; [exact (rep_fwd _ _ R) |].
    split; [reflexivity |]. split.
    { cbn [written set_subs set_written]. change (contents (set_subs ss (set_written n n p))) with (contents p).
      apply (f_equal (take (length pre))) in Ew.
      rewrite take_take, Nat.min_l, take_app_length in Ew by lia. unfold n. now rewrite Nat2Z.id. }
    split; [cbn; lia |]. split; [cbn; lia |]. split; [exact (rep_fwd _ _ R) |].
    do 2 (split; [reflexivity |]).
    split; [| split; reflexivity]. apply (buffer_ok_shrink n n p (rep_buf _ _ R)). lia.
  - split; [exact (rep_fwd _ _ R) |].
    split; [reflexivity |]. rewrite E in Lh. destruct hole; [| easy]. rewrite app_nil_r in Ew.
    split; [exact Ew |]. split; [cbn; lia |]. split; [cbn; lia |].
    split; [exact (rep_fwd _ _ R) |]. split; [exact (rep_curr _ _ R) |]. split; [reflexivity |].
    split; [exact (rep_buf _ _ R) | split; reflexivity].
Qed.

(** The length is written into its place. *)
Lemma seal_ok p s ss f fs pre hole :
  rep p (f :: fs) -> opened p s f pre hole ->
  closed_with p pre (sealed f) ss
    (set_subs ss (with_contents (copy_at (length pre)
       (be_bytes (f_len f) (Z.of_nat (length (f_body f)))) (contents p)) p)).
Proof.
  intros R O. pose proof (opened_written _ _ _ _ _ _ R O) as Lw. pose proof (contents_length _ _ R) as Hl.
  pose proof (op_hole _ _ _ _ _ O) as Lh. set (d := copy_at _ _ _).
  assert (Ld : length d = length (contents p))
    by (apply copy_at_length; rewrite be_bytes_length; lia).
  pose proof (rep_buf _ _ R) as B.
  destruct (with_contents_fields d p) as (F1 & F2 & F3 & F4 & F5 & F6).
  unfold closed_with. cbn [subs set_subs written endfirst wcurr maxsize nalloc].
  change (contents (set_subs ss (with_contents d p))) with (contents (with_contents d p)).
  rewrite F1, F2, F3, F5, F6, contents_with by easy. split; [reflexivity |]. split.
  { unfold d. rewrite take_copy_at, (op_bytes _ _ _ _ _ O) by (rewrite ?be_bytes_length; lia).
    unfold copy_at, sealed. rewrite be_bytes_length, take_app_length. f_equal. f_equal.
    rewrite drop_app_ge by lia. rewrite drop_app_ge by lia.
    replace (length pre + f_len f - length pre - length hole)%nat with 0%nat by lia. apply drop_0. }
  unfold sealed. rewrite length_app, be_bytes_length. do 2 (split; [lia |]).
  split; [exact (rep_fwd _ _ R) |]. split; [exact (rep_curr _ _ R) |]. split; [reflexivity |].
  split; [| split; [exact (cap_with_contents d p) | reflexivity]].
  now apply (with_contents_ok d p B).
Qed.

Lemma nat_Z_zero n : (Z.of_nat n =? 0) = (n =? 0)%nat.
Proof. destruct (Nat.eqb_spec n 0), (Z.eqb_spec (Z.of_nat n) 0); lia. Qed.

Lemma intern_close_ok p s ss f fs pre hole :
  rep p (f :: fs) -> opened p s f pre hole ->
  exists ok p', wpacket_intern_close p s ss true = Val (ok, p')
    /\ match close_frame f with
       | None => ok = false
       | Some bs => ok = true /\ closed_with p pre bs ss p'
       end.
Proof.
  intros R O. pose proof (opened_written _ _ _ _ _ _ R O) as Lw.
  pose proof (rep_max _ _ R) as [Hw Hm]. pose proof (rep_buf _ _ R) as B.
  pose proof (contents_length _ _ R) as Hl.
  unfold wpacket_intern_close, close_frame.
  rewrite (op_flags _ _ _ _ _ O), (op_pwritten _ _ _ _ _ O).
  rewrite (u64_small (written p - _)) by (unfold SIZE_MAX in *; lia).
  replace (written p - Z.of_nat (length pre + f_len f)) with (Z.of_nat (length (f_body f))) by lia.
  rewrite nat_Z_zero.
  destruct (_ && negb (Z.land _ WPACKET_FLAGS_NON_ZERO_LENGTH =? 0)); [eauto |].
  cbn [negb]. rewrite andb_false_r.
  destruct ((length (f_body f) =? 0)%nat && _) eqn:Eab; cbn [andb].
  - apply andb_true_iff in Eab as [Eb _]. apply Nat.eqb_eq, nil_length_inv in Eb.
    cbn [lenbytes]. change (0 <? 0) with false. set (q := if _ =? packet_len s then _ else p).
    destruct (abandon_ok p s ss f fs pre hole q R O Eb eq_refl) as [Ee C]. rewrite Ee.
    cbn [andb mbind res_bind negb]. eauto.
  - rewrite (op_lenbytes _ _ _ _ _ O), (rep_fwd _ _ R). cbn [andb].
    assert (S := seal_ok p s ss f fs pre hole R O).
    destruct (Nat.eqb_spec (f_len f) 0) as [E | E]; cbn [negb andb].
    + rewrite (proj2 (Z.ltb_ge 0 _)) by lia. cbn [mbind res_bind negb].
      eexists _, _. split; [reflexivity |]. split; [reflexivity |].
      rewrite E in S. cbn [be_bytes] in S. unfold copy_at in S. cbn [length] in S.
      rewrite Nat.add_0_r, app_nil_l, take_drop, with_contents_id in S by easy. exact S.
    + rewrite (proj2 (Z.ltb_lt 0 _)) by lia.
      assert (exists a, GETBUF p = Some (a, contents p)) as [a ->]
        by (unfold buffer_ok, contents, GETBUF in *; destruct (staticbuf p), (wbuf p); try easy; eauto).
      unfold put_value. rewrite (op_packet_len _ _ _ _ _ O), (proj2 (Nat.eqb_neq _ 0) E), Nat2Z.id.
      rewrite u64_small by (unfold SIZE_MAX in *; lia).
      rewrite put_loop_ok by (try easy; lia). cbn [mbind res_bind].
      rewrite fits_div, Nat2Z.id by lia. destruct (_ <=? _); cbn [negb]; eauto.
Qed.

Lemma closed_rep p f fs pre bs ss p' :
  rep p (f :: fs) -> closed_with p pre bs ss p' -> layout pre ss fs -> fs <> [] ->
  rep p' (append bs fs).
Proof.
  intros R (H1 & H2 & H3 & H4 & H5 & H6 & H7 & H8 & H9 & H10) L Hne.
  pose proof (rep_max _ _ R) as [Hw Hm]. split; auto; [lia |].
  rewrite H1, H2. now apply layout_append.
Qed.

Lemma close_ok p f g fs :
  rep p (f :: g :: fs) ->
  exists ok p', WPACKET_close p = Val (ok, p')
    /\ match close_frame f with
       | None => ok = false
       | Some bs => ok = true /\ rep p' (append bs (g :: fs)) /\ cap p' = cap p /\ nalloc p' = nalloc p
           /\ written p' = written p + Z.of_nat (length bs) - Z.of_nat (f_len f + length (f_body f))
       end.
Proof.
  intros R. destruct (rep_opened _ _ _ R) as (pre & hole & s & ss & Es & O & L).
  pose proof (opened_written _ _ _ _ _ _ R O) as Lw. unfold WPACKET_close. rewrite Es.
  assert (exists t ts, ss = t :: ts) as (t & ts & ->) by (inversion L; eauto).
  destruct (intern_close_ok p s (t :: ts) f (g :: fs) pre hole R O) as (ok & p' & E & H).
  exists ok, p'. split; [exact E |]. destruct (close_frame f) as [bs |]; [| assumption].
  destruct H as (-> & C). split; [reflexivity |]. split; [eapply closed_rep; eauto; easy |].
  destruct C as (_ & _ & H3 & _ & _ & _ & _ & _ & H9 & H10). repeat split; auto. lia.
Qed.

Lemma finish_ok p f :
  rep p [f] ->
  exists ok p', WPACKET_finish p = Val (ok, p')
    /\ match close_frame f with
       | None => ok = false
       | Some bs => ok = true /\ subs p' = [] /\ take (Z.to_nat (written p')) (contents p') = bs
           /\ written p' = Z.of_nat (length bs)
       end.
Proof.
  intros R. destruct (rep_opened _ _ _ R) as (pre & hole & s & ss & Es & O & L).
  unfold WPACKET_finish. rewrite Es. inversion L; subst.
  destruct (intern_close_ok p s [] f [] [] hole R O) as (ok & p' & E & H).
  exists ok, p'. split; [exact E |]. destruct (close_frame f) as [bs |]; [| assumption].
  destruct H as (-> & H1 & H2 & H3 & _). auto.
Qed.

(** ** Composite writers *)

Lemma close_frame_plain n body :
  (n = 0%nat \/ Z.of_nat (length body) < 256 ^ Z.of_nat n) ->
  close_frame (mk_frame n 0 body) = Some (sealed (mk_frame n 0 body)).
Proof.
  intros H. unfold close_frame. cbn [f_flags f_len f_body Z.land Z.eqb negb]. rewrite !andb_false_r.
  destruct (Nat.eqb_spec n 0) as [-> | E]; cbn [negb andb]; [reflexivity |].
  rewrite (proj2 (Z.leb_gt _ _)); [reflexivity |]. lia.
Qed.

Lemma append_append a b fs : append b (append a fs) = append (a ++ b) fs.
Proof. destruct fs; cbn; [reflexivity |]. now rewrite app_assoc. Qed.

Lemma append_ne bs fs : fs <> [] -> append bs fs <> [].
Proof. now destruct fs. Qed.

(** [WPACKET_sub_memcpy__]: a length and the bytes, or an error. *)
Lemma sub_memcpy_ok p fs src n :
  rep p fs -> fs <> [] -> (n <= 8)%nat -> Z.of_nat (length src) <= SIZE_MAX ->
  exists ok p', WPACKET_sub_memcpy__ p src (Z.of_nat n) = Val (ok, p')
    /\ (ok = true -> rep p' (append (be_bytes n (Z.of_nat (length src)) ++ src) fs)
         /\ (n = 0%nat \/ Z.of_nat (length src) < 256 ^ Z.of_nat n))
    /\ (room p (Z.of_nat n + Z.of_nat (length src)) -> alloc_ok (nalloc p) = true ->
        (n = 0%nat \/ Z.of_nat (length src) < 256 ^ Z.of_nat n) ->
        ok = true /\ advanced p (Z.of_nat n + Z.of_nat (length src)) p').
Proof.
  intros R Hne Hn Hs. unfold WPACKET_sub_memcpy__.
  destruct (open_ok p fs n R Hne Hn) as (ok1 & p1 & -> & O1 & O2).
  destruct ok1; cbn [negb].
  2:{ exists false, p1. split; [reflexivity |]. split; [easy |]. intros Hr Ha _.
      destruct O2 as [? _]; [unfold room in *; lia | assumption | easy]. }
  destruct (memcpy_ok p1 (open_frame n fs) src (O1 eq_refl)) as (ok2 & p2 & -> & M1 & M2); [easy | easy |].
  cbn [mbind res_bind]. destruct ok2; cbn [negb].
  2:{ exists false, p2. split; [reflexivity |]. split; [easy |]. intros Hr Ha _.
      destruct O2 as [_ (? & ? & ?)]; [unfold room in *; lia | assumption |].
      destruct M2 as [? _]; [unfold room in *; lia | easy]. }
  specialize (M1 eq_refl). cbn [open_frame append f_len f_flags f_body app] in M1.
  destruct fs as [| g fs]; [easy |].
  destruct (close_ok p2 _ g fs M1) as (ok3 & p3 & -> & C).
  assert (Hfit : close_frame (mk_frame n 0 src) = Some (sealed (mk_frame n 0 src)) \/
                 (close_frame (mk_frame n 0 src) = None
                  /\ ~ (n = 0%nat \/ Z.of_nat (length src) < 256 ^ Z.of_nat n))).
  { destruct (decide (n = 0%nat \/ Z.of_nat (length src) < 256 ^ Z.of_nat n)) as [H | H];
      [left; now apply close_frame_plain | right; split; [| assumption]].
    unfold close_frame. cbn [f_flags f_len f_body Z.land Z.eqb negb]. rewrite !andb_false_r.
    rewrite (proj2 (Nat.eqb_neq n 0)), (proj2 (Z.leb_le _ _)) by tauto || lia. reflexivity. }
  exists ok3, p3. split; [reflexivity |]. destruct Hfit as [E | [E Hno]]; rewrite E in C.
  - destruct C as (-> & R3 & Hcap & Hna & Hwr). unfold sealed in *. cbn [f_len f_body] in *.
    split; [intros _; split; [exact R3 |] |].
    + destruct (decide (n = 0%nat \/ Z.of_nat (length src) < 256 ^ Z.of_nat n)) as [H | H]; [assumption |].
      exfalso. unfold close_frame in E. cbn [f_flags f_len f_body Z.land Z.eqb negb] in E.
      rewrite !andb_false_r, (proj2 (Nat.eqb_neq n 0)), (proj2 (Z.leb_le _ _)) in E by tauto || lia. easy.
    + intros Hr Ha _. split; [reflexivity |].
      destruct O2 as [_ (? & ? & ?)]; [unfold room in *; lia | assumption |].
      destruct M2 as [_ (? & ? & ?)]; [unfold room in *; lia |].
      rewrite length_app, be_bytes_length in Hwr. repeat split; lia.
  - subst ok3. split; [easy | tauto].
Qed.

(** Without growing, a reservation changes nothing. *)
Lemma reserve_room p fs len :
  rep p fs -> fs <> [] -> 0 < len -> room p len ->
  WPACKET_reserve_bytes p len = (true, WPACKET_get_curr p, p).
Proof.
  intros R Hne Hl Hr. pose proof (rep_max _ _ R) as [Hw Hm].
  destruct (reserve_ok p fs len R Hne) as (ok & c & p' & E & H1 & H2).
  { unfold room, cap in Hr. destruct (wbuf p); lia. }
  destruct (H2 Hr) as (-> & -> & ->). exact E.
Qed.

(** Bytes that are counted as written are those in the buffer. *)
Lemma allocate_room p fs len :
  rep p fs -> fs <> [] -> 0 < Z.of_nat len -> room p (Z.of_nat len) ->
  exists p', WPACKET_allocate_bytes p (Z.of_nat len) = (true, WPACKET_get_curr p, p')
    /\ rep p' (append (take len (drop (Z.to_nat (written p)) (contents p))) fs)
    /\ advanced p (Z.of_nat len) p' /\ contents p' = contents p.
Proof.
  intros R Hne Hl Hr. unfold WPACKET_allocate_bytes. rewrite (reserve_room p fs _ R Hne Hl Hr).
  set (bs := take len (drop (Z.to_nat (written p)) (contents p))).
  pose proof (room_contents p _ (rep_buf _ _ R) Hr) as Hc. pose proof (rep_max _ _ R) as [Hw _].
  assert (Lb : length bs = len) by (unfold bs; rewrite length_take, length_drop; lia).
  rewrite <- Lb in Hr. destruct (write_reserved p fs bs R Hne Hr) as (p' & _ & R' & Ad & Bq & Ep & Cq).
  cbn [negb]. rewrite Lb in *. eexists. split; [reflexivity |].
  replace (copy_at (Z.to_nat (written p)) bs (contents _)) with (contents p) in Ep.
  - rewrite <- Cq in Ep. rewrite with_contents_id in Ep by assumption.
    rewrite <- Ep. split; [exact R' |]. split; [exact Ad |]. rewrite Ep. exact Cq.
  - rewrite Cq. unfold copy_at. rewrite Lb. unfold bs.
    rewrite <- (take_drop (Z.to_nat (written p)) (contents p)) at 1. f_equal.
    rewrite <- (take_drop len (drop _ _)) at 1. now rewrite drop_drop.
Qed.

Lemma get_curr_rep p fs :
  rep p fs ->
  WPACKET_get_curr p = match GETBUF p with Some (a, _) => Some (a, written p) | None => None end.
Proof.
  intros R. unfold WPACKET_get_curr. now rewrite (rep_fwd _ _ R), (rep_curr _ _ R).
Qed.

(** ** A value whose length is known after it is written *)

Lemma room_write p fs off bs :
  rep p fs -> written p <= off -> off + Z.of_nat (length bs) <= Z.of_nat (length (contents p)) ->
  exists q, write_at p off bs = Val q /\ rep q fs /\ written q = written p /\ cap q = cap p
    /\ nalloc q = nalloc p /\ contents q = copy_at (Z.to_nat off) bs (contents p)
    /\ WPACKET_get_curr q = WPACKET_get_curr p.
Proof.
  intros R Ho Hl. pose proof (rep_buf _ _ R) as B. pose proof (rep_max _ _ R) as [Hw Hm].
  rewrite write_at_ok by (easy || lia). set (d := copy_at _ _ _).
  assert (Ld : length d = length (contents p)) by (apply copy_at_length; lia).
  destruct (with_contents_fields d p) as (F1 & F2 & F3 & F4 & F5 & F6).
  exists (with_contents d p). split; [reflexivity |].
  split; [| split; [exact F2 |]; split; [apply cap_with_contents |]; split; [exact F6 |];
            split; [now apply contents_with |]].
  - split; rewrite ?F1, ?F2, ?F3, ?F4, ?F5; [apply R | apply R | lia | now apply with_contents_ok |].
    rewrite contents_with by easy. unfold d, copy_at.
    rewrite take_app_le, take_take, Nat.min_l by (rewrite ?length_take; lia). apply R.
  - unfold WPACKET_get_curr. rewrite F1, F3, F5. unfold GETBUF, with_contents, buffer_ok in *.
    destruct (staticbuf p) eqn:Es, (wbuf p) eqn:Eb; cbn; rewrite ?Es, ?Eb; easy.
Qed.

Lemma open_room p fs n :
  rep p fs -> fs <> [] -> (1 <= n <= 8)%nat -> room p (Z.of_nat n) -> alloc_ok (nalloc p) = true ->
  exists p', WPACKET_start_sub_packet_len__ p (Z.of_nat n) = (true, p')
    /\ rep p' (open_frame n fs) /\ advanced p (Z.of_nat n) p' /\ contents p' = contents p
    /\ GETBUF p' = GETBUF p.
Proof.
  intros R Hne Hn Hr Ha. destruct (open_ok p fs n R Hne) as (ok & p' & E & H1 & H2); [lia |].
  destruct (H2 Hr Ha) as [-> Ad]. exists p'. split; [exact E |]. split; [auto |]. split; [exact Ad |].
  assert (Hs : subs p <> [])
    by (pose proof (layout_subs _ _ _ (rep_layout _ _ R)); destruct (subs p), fs; easy).
  enough (GETBUF p' = GETBUF p) as Eg by (unfold contents; now rewrite Eg).
  unfold WPACKET_start_sub_packet_len__, WPACKET_allocate_bytes in E. rewrite Ha in E.
  rewrite (proj2 (Nat.eqb_neq (length _) 0)) in E by (destruct (subs p); easy).
  rewrite (rep_fwd _ _ R), andb_false_r in E. cbn [negb] in E.
  rewrite (proj2 (Z.eqb_neq _ 0)) in E by lia.
  rewrite reserve_subs in E by easy.
  rewrite (reserve_room _ fs) in E by (try apply rep_nalloc; easy || lia).
  cbn [negb] in E. injection E as <-. reflexivity.
Qed.

(** Reserve, write at the pointer, allocate: the pointers are the same, and
    the bytes follow their length. *)
Lemma sub_fill_ok p fs len bs :
  rep p fs -> fs <> [] -> room p (2 + len) -> alloc_ok (nalloc p) = true ->
  0 < Z.of_nat (length bs) <= len -> Z.of_nat (length bs) < 256 ^ 2 ->
  exists a q p', WPACKET_sub_reserve_bytes__ p len 2 = (true, Some (a, written p + 2), p)
    /\ write_at p (written p + 2) bs = Val q
    /\ WPACKET_sub_allocate_bytes__ q (Z.of_nat (length bs)) 2 = Val (true, Some (a, written p + 2), p')
    /\ rep p' (append (be_bytes 2 (Z.of_nat (length bs)) ++ bs) fs)
    /\ advanced p (2 + Z.of_nat (length bs)) p'.
Proof.
  intros R Hne Hr Ha Hlen Hfit. pose proof (rep_max _ _ R) as [Hw Hm].
  pose proof (room_contents p _ (rep_buf _ _ R) Hr) as Hc.
  assert (Hmax : written p + (2 + len) <= maxsize p) by (unfold room, cap in Hr; destruct (wbuf p); lia).
  destruct (get_curr_fwd p fs R) as [a Ea]. exists a.
  destruct (room_write p fs (written p + 2) bs R) as (q & Eq & Rq & Wq & Cq & Nq & Dq & Gq); [lia | lia |].
  unfold WPACKET_sub_reserve_bytes__, WPACKET_sub_allocate_bytes__.
  rewrite (rep_fwd _ _ R). cbn [andb]. rewrite u64_small by (unfold SIZE_MAX in *; lia).
  rewrite (reserve_room p fs) by (easy || lia). rewrite Ea. cbn [negb].
  exists q. change 2 with (Z.of_nat 2).
  destruct (open_room q fs 2 Rq Hne) as (r & -> & Rr & (Wr & Cr & Nr) & Dr & Gr);
    [lia | unfold room in *; lia | now rewrite Nq |].
  cbn [negb]. destruct (allocate_room r (open_frame 2 fs) (length bs) Rr) as (r' & Er & Rr' & (Wr' & Cr' & Nr') & _);
    [easy | lia | unfold room in *; lia |].
  rewrite Er. cbn [negb]. destruct fs as [| g fs]; [easy |].
  replace (take _ _) with bs in Rr'.
  2:{ rewrite Dr, Dq, Wr, Wq. unfold copy_at.
      replace (Z.to_nat (written p + Z.of_nat 2)) with (Z.to_nat (written p + 2)) by lia.
      rewrite drop_app_length' by (rewrite length_take; lia). now rewrite take_app_length. }
  cbn [open_frame append f_len f_flags f_body app] in Rr'.
  destruct (close_ok r' _ g fs Rr') as (ok & p' & -> & C).
  rewrite close_frame_plain in C by (right; lia).
  destruct C as (-> & R' & Cp & Np & Wp). exists p'.
  unfold sealed in *. cbn [f_len f_body] in *. rewrite length_app, be_bytes_length in Wp.
  split; [reflexivity |]. split; [exact Eq |]. cbn [mbind res_bind]. split.
  { rewrite (get_curr_rep _ _ Rr), Gr, Wr, Wq. rewrite <- Gq, (get_curr_rep _ _ Rq) in Ea.
    destruct (GETBUF q) as [[a' d] |]; [| easy]. injection Ea as -> _. reflexivity. }
  split; [exact R' |]. repeat split; lia.
Qed.

(** ** Bytes that are allocated first and written afterwards *)

(** The bytes at the end of the innermost sub-packet are overwritten. *)
Lemma overwrite_ok p fs pre junk bs :
  rep p (append (pre ++ junk) fs) -> fs <> [] -> length junk = length bs ->
  exists p', write_at p (written p - Z.of_nat (length bs)) bs = Val p' /\ rep p' (append (pre ++ bs) fs)
    /\ written p' = written p /\ cap p' = cap p /\ nalloc p' = nalloc p.
Proof.
  intros R Hne E. destruct fs as [| f fs]; [easy |]. cbn [append] in *.
  destruct (rep_opened _ _ _ R) as (pre0 & hole & s & ss & Es & O & Lo).
  pose proof (opened_written _ _ _ _ _ _ R O) as Lw. pose proof (contents_length _ _ R) as Lc.
  pose proof (rep_max _ _ R) as [Hw Hm]. pose proof (rep_buf _ _ R) as B.
  cbn [f_len f_body] in Lw. rewrite !length_app in Lw.
  rewrite write_at_ok by (assumption || lia). set (d := copy_at _ _ _).
  assert (Ld : length d = length (contents p)) by (apply copy_at_length; lia).
  destruct (with_contents_fields d p) as (F1 & F2 & F3 & F4 & F5 & F6).
  exists (with_contents d p). split; [reflexivity |].
  split; [| split; [exact F2 |]; split; [apply cap_with_contents | exact F6]].
  split; rewrite ?F1, ?F2, ?F3, ?F4, ?F5; [apply R | apply R | lia | now apply with_contents_ok |].
  rewrite contents_with by assumption. unfold d. rewrite take_copy_at by lia.
  rewrite (op_bytes _ _ _ _ _ O), Es. cbn [f_body].
  replace (copy_at _ bs _) with (pre0 ++ hole ++ f_body f ++ pre ++ bs).
  - change (f_body f ++ pre ++ bs) with (f_body (mk_frame (f_len f) (f_flags f) (f_body f ++ pre ++ bs))).
    constructor; [assumption | apply O ..].
  - pose proof (op_hole _ _ _ _ _ O) as Lh. cbn [f_len] in Lh.
    replace (pre0 ++ hole ++ f_body f ++ pre ++ junk) with ((pre0 ++ hole ++ f_body f ++ pre) ++ junk)
      by now rewrite <- !app_assoc.
    unfold copy_at. rewrite take_app_length', drop_ge, app_nil_r by (rewrite !length_app; lia).
    now rewrite <- !app_assoc.
Qed.

Lemma allocate_ok p fs n :
  rep p fs -> fs <> [] -> (0 < n)%nat -> Z.of_nat n <= SIZE_MAX ->
  exists ok c p', WPACKET_allocate_bytes p (Z.of_nat n) = (ok, c, p')
    /\ (ok = true -> exists a junk, c = Some (a, written p) /\ length junk = n /\ rep p' (append junk fs)
                     /\ written p' = written p + Z.of_nat n)
    /\ (room p (Z.of_nat n) -> ok = true /\ advanced p (Z.of_nat n) p').
Proof.
  intros R Hne Hn Hs. unfold WPACKET_allocate_bytes.
  destruct (reserve_ok p fs (Z.of_nat n) R Hne) as (ok & c & q & -> & H1 & H2); [lia |].
  destruct ok; cbn [negb].
  2:{ exists false, None, q. split; [reflexivity |]. split; [easy |]. intros Hr. now destruct (H2 Hr). }
  destruct (H1 eq_refl) as (Rq & Wq & _ & _ & Hr & a & Ec). eexists true, c, _. split; [reflexivity |].
  pose proof (rep_max _ _ Rq) as [Hw Hm]. pose proof (room_contents q _ (rep_buf _ _ Rq) Hr) as Hc.
  assert (Hq : written q + Z.of_nat n <= maxsize q) by (unfold room, cap in Hr; destruct (wbuf q); lia).
  set (junk := take n (drop (Z.to_nat (written q)) (contents q))).
  assert (Lj : length junk = n) by (unfold junk; rewrite length_take, length_drop; lia).
  rewrite <- Lj in Hr. destruct (write_reserved q fs junk Rq Hne Hr) as (q' & _ & R' & Ad & Bq & Eq & Cq).
  rewrite Lj in *.
  replace (copy_at (Z.to_nat (written q)) junk (contents _)) with (contents q) in Eq.
  2:{ rewrite Cq. unfold copy_at. rewrite Lj. unfold junk.
      rewrite <- (take_drop (Z.to_nat (written q)) (contents q)) at 1. f_equal.
      rewrite <- (take_drop n (drop _ _)) at 1. now rewrite drop_drop. }
  rewrite <- Cq in Eq. rewrite with_contents_id in Eq by assumption. rewrite <- Eq. split.
  - intros _. exists a, junk. split; [exact Ec |]. split; [exact Lj |]. split; [exact R' |]. destruct Ad. lia.
  - intros Hp. destruct (H2 Hp) as (_ & -> & _). split; [reflexivity | exact Ad].
Qed.

(** In a sub-packet of their own, with a length of [m] bytes *)
Lemma sub_allocate_fill_ok p fs bs m :
  rep p fs -> fs <> [] -> bs <> [] -> (1 <= m <= 8)%nat -> Z.of_nat (length bs) <= SIZE_MAX ->
  exists ok c p', WPACKET_sub_allocate_bytes__ p (Z.of_nat (length bs)) (Z.of_nat m) = Val (ok, c, p')
    /\ (ok = true -> Z.of_nat (length bs) < 256 ^ Z.of_nat m
          /\ exists a off q, c = Some (a, off) /\ write_at p' off bs = Val q
             /\ rep q (append (be_bytes m (Z.of_nat (length bs)) ++ bs) fs)
             /\ (room p (Z.of_nat m + Z.of_nat (length bs)) -> alloc_ok (nalloc p) = true ->
                 cap q = cap p /\ written q = written p + (Z.of_nat m + Z.of_nat (length bs))))
    /\ (room p (Z.of_nat m + Z.of_nat (length bs)) -> alloc_ok (nalloc p) = true ->
        Z.of_nat (length bs) < 256 ^ Z.of_nat m -> ok = true).
Proof.
  intros R Hne Hbs Hm Hs. unfold WPACKET_sub_allocate_bytes__.
  assert (Hl : (0 < length bs)%nat) by (destruct bs; [easy | cbn; lia]).
  destruct (open_ok p fs m R Hne) as (ok1 & p1 & -> & O1 & O2); [lia |]. destruct ok1; cbn [negb].
  2:{ exists false, None, p1. split; [reflexivity |]. split; [easy |]. intros Hr Ha _.
      destruct O2 as [? _]; [unfold room in *; lia | assumption | easy]. }
  destruct (allocate_ok p1 (open_frame m fs) (length bs) (O1 eq_refl)) as (ok2 & c & p2 & -> & A1 & A2);
    [easy | lia | lia |]. destruct ok2; cbn [negb].
  2:{ exists false, None, p2. split; [reflexivity |]. split; [easy |]. intros Hr Ha _.
      destruct O2 as [_ (? & ? & ?)]; [unfold room in *; lia | assumption |].
      destruct A2 as [? _]; [unfold room in *; lia | easy]. }
  destruct (A1 eq_refl) as (a & junk & -> & Lj & R2 & W2). cbn [open_frame append f_len f_flags f_body app] in R2.
  destruct fs as [| g fs]; [easy |]. destruct (close_ok p2 _ g fs R2) as (ok3 & p3 & -> & C).
  cbn [mbind res_bind].
  assert (Hcf : close_frame (mk_frame m 0 junk) = if Z.of_nat (length junk) <? 256 ^ Z.of_nat m
                  then Some (sealed (mk_frame m 0 junk)) else None).
  { destruct (Z.ltb_spec (Z.of_nat (length junk)) (256 ^ Z.of_nat m)); [now apply close_frame_plain; right |].
    unfold close_frame. cbn [f_flags f_len f_body Z.land Z.eqb negb]. rewrite !andb_false_r.
    rewrite (proj2 (Nat.eqb_neq m 0)), (proj2 (Z.leb_le _ _)) by lia. reflexivity. }
  rewrite Hcf, Lj in C. exists ok3, (Some (a, written p1)), p3. split; [reflexivity |].
  destruct (Z.ltb_spec (Z.of_nat (length bs)) (256 ^ Z.of_nat m)) as [Hfit | Hfit]; [| subst ok3; split; [easy | lia]].
  destruct C as (-> & R3 & Cap3 & N3 & W3). unfold sealed in R3, W3. cbn [f_len f_body] in R3, W3.
  rewrite length_app, be_bytes_length, Lj in W3. rewrite Lj in R3.
  destruct (overwrite_ok p3 (g :: fs) _ junk bs R3) as (q & Eq & Rq & Wq & Capq & Nq); [easy | assumption |].
  split; [| auto]. intros _. split; [assumption |]. exists a, (written p1), q. split; [reflexivity |].
  replace (written p3 - Z.of_nat (length bs)) with (written p1) in Eq by lia. split; [assumption |].
  split; [assumption |]. intros Hr Ha.
  destruct O2 as [_ (? & ? & ?)]; [unfold room in *; lia | assumption |].
  destruct A2 as [_ (? & ? & ?)]; [unfold room in *; lia |]. split; lia.
Qed.

(** ** Sequences of calls *)

Inductive wop : Type :=
| OpCopy (bs : list Z)            (** [WPACKET_memcpy] *)
| OpPut (n : nat) (v : Z)         (** [WPACKET_put_bytes__] *)
| OpOpen (n : nat)                (** [WPACKET_start_sub_packet_len__] *)
| OpFlags (x : Z)                 (** [WPACKET_set_flags] *)
| OpClose.                        (** [WPACKET_close] *)

Definition wstep (o : wop) (p : WPACKET) : res (bool * WPACKET) :=
  match o with
  | OpCopy bs => WPACKET_memcpy p bs
  | OpPut n v => WPACKET_put_bytes__ p v (Z.of_nat n)
  | OpOpen n => Val (WPACKET_start_sub_packet_len__ p (Z.of_nat n))
  | OpFlags x => Val (WPACKET_set_flags p x)
  | OpClose => WPACKET_close p
  end.

(** Calls one after the other, up to the first that fails. *)
Fixpoint wrun (os : list wop) (p : WPACKET) : res (bool * WPACKET) :=
  match os with
  | [] => Val (true, p)
  | o :: os => '(ok, p) ← wstep o p; if negb ok then Val (false, p) else wrun os p
  end.

(** The same on frames. *)
Definition fstep (o : wop) (fs : list frame) : option (list frame) :=
  match o, fs with
  | OpCopy bs, _ => Some (append bs fs)
  | OpPut n v, _ => if v <? 256 ^ Z.of_nat n then Some (append (be_bytes n v) fs) else None
  | OpOpen n, _ => Some (open_frame n fs)
  | OpFlags x, f :: fs => Some (mk_frame (f_len f) x (f_body f) :: fs)
  | OpClose, f :: g :: fs => bs ← close_frame f; Some (append bs (g :: fs))
  | _, _ => None
  end.
Fixpoint frun (os : list wop) (fs : list frame) : option (list frame) :=
  match os with [] => Some fs | o :: os => fs ← fstep o fs; frun os fs end.

(** The types of the arguments, and the bytes that a call takes. *)
Definition op_ok (o : wop) : Prop :=
  match o with
  | OpCopy bs => Z.of_nat (length bs) <= SIZE_MAX
  | OpPut n v => (1 <= n <= 8)%nat /\ 0 <= v < 2 ^ 64
  | OpOpen n => (n <= 8)%nat
  | _ => True
  end.
Definition cost (o : wop) : Z :=
  match o with OpCopy bs => Z.of_nat (length bs) | OpPut n _ | OpOpen n => Z.of_nat n | _ => 0 end.
Fixpoint costs (os : list wop) : Z := match os with [] => 0 | o :: os => cost o + costs os end.

Lemma cost_pos o : 0 <= cost o.
Proof. destruct o; cbn; lia. Qed.

Lemma costs_pos os : 0 <= costs os.
Proof. induction os as [| o os IH]; cbn [costs]; [lia |]. pose proof (cost_pos o). lia. Qed.

Lemma fstep_ne o fs fs' : fs <> [] -> fstep o fs = Some fs' -> fs' <> [].
Proof.
  destruct o, fs as [| f [| g fs]]; cbn; try easy; intros _ E; try (now injection E as <-).
  1, 2: destruct (v <? _); now inversion E.
  destruct (close_frame f); now inversion E.
Qed.

Lemma flags_ok p f fs x :
  rep p (f :: fs) ->
  exists p', WPACKET_set_flags p x = (true, p') /\ rep p' (mk_frame (f_len f) x (f_body f) :: fs)
    /\ advanced p 0 p'.
Proof.
  intros R. destruct (rep_opened _ _ _ R) as (pre & hole & s & ss & Es & O & L).
  unfold WPACKET_set_flags. rewrite Es. eexists. split; [reflexivity |]. split.
  - destruct R as [Rf Rc Rm Rb Rl]. split; auto.
    change (contents (set_subs _ p)) with (contents p). cbn [written set_subs subs].
    rewrite (op_bytes _ _ _ _ _ O).
    change (f_body f) with (f_body (mk_frame (f_len f) x (f_body f))) at 1.
    constructor; auto; cbn; apply O.
  - repeat split; cbn; lia.
Qed.

(** One call: it does not fault; a call that returns 1 does what it does on
    frames; and it returns 1 when that is possible and there is room. *)
Lemma wstep_ok o p fs :
  rep p fs -> fs <> [] -> op_ok o ->
  exists ok p', wstep o p = Val (ok, p')
    /\ (ok = true -> exists fs', fstep o fs = Some fs' /\ rep p' fs')
    /\ (room p (cost o) -> fstep o fs <> None -> alloc_ok (nalloc p) = true ->
        ok = true /\ cap p' = cap p /\ written p' <= written p + cost o).
Proof.
  intros R Hne Ho. destruct o as [bs | n v | n | x |]; cbn [wstep cost op_ok] in *.
  - destruct (memcpy_ok p fs bs R Hne Ho) as (ok & p' & E & H1 & H2).
    exists ok, p'. split; [exact E |]. split; [eauto |].
    intros Hr _ _. destruct (H2 Hr) as [? (? & ? & ?)]. repeat split; auto; lia.
  - destruct (put_bytes_ok p fs v n R Hne) as (ok & p' & E & H1 & H2); [tauto | tauto |].
    exists ok, p'. split; [exact E |]. cbn [fstep]. split.
    + intros Hok. destruct (H1 Hok) as [Hrep Hv]. rewrite (proj2 (Z.ltb_lt _ _) Hv). eauto.
    + destruct (Z.ltb_spec v (256 ^ Z.of_nat n)); [| easy]. intros Hr _ _.
      destruct (H2 Hr) as [? (? & ? & ?)]; [assumption |]. repeat split; auto; lia.
  - destruct (open_ok p fs n R Hne Ho) as (ok & p' & -> & H1 & H2).
    exists ok, p'. split; [reflexivity |]. split; [eauto |].
    intros Hr _ Ha. destruct (H2 Hr Ha) as [? (? & ? & ?)]. repeat split; auto; lia.
  - destruct fs as [| f fs]; [easy |]. destruct (flags_ok p f fs x R) as (p' & -> & Hrep & (? & ? & ?)).
    exists true, p'. split; [reflexivity |]. split; [cbn; eauto |]. repeat split; auto; lia.
  - destruct fs as [| f [| g fs]]; [easy | |].
    + exists false, p. split; [| easy]. unfold WPACKET_close.
      pose proof (layout_subs _ _ _ (rep_layout _ _ R)) as Ls.
      destruct (subs p) as [| s [| t ts]]; easy.
    + destruct (close_ok p f g fs R) as (ok & p' & E & H). exists ok, p'. split; [exact E |].
      cbn [fstep]. destruct (close_frame f) as [bs |] eqn:Ec; cbn [mbind option_bind]; [| subst ok; easy].
      destruct H as (-> & Hrep & Hc & Hn & Hwr). split; [eauto |]. intros _ _ _.
      split; [reflexivity |]. split; [assumption |]. unfold close_frame, sealed in Ec.
      repeat destruct (_ && _); simplify_eq; rewrite ?length_app, ?be_bytes_length in Hwr; cbn in Hwr; lia.
Qed.

(** C15: A [WPACKET] that writes forwards refines a stack of frames.  Any
    sequence of calls that copy bytes, put integers, open, mark and close
    sub-packets neither writes outside the buffer nor reads from it; when all
    calls return 1 the buffer holds what the same calls make of the frames,
    each closed sub-packet preceded by its length in network order; and they
    all return 1 whenever the frames allow it (lengths and values fit, no empty
    sub-packet is forbidden), the bytes fit in the capacity that is there and memory
    for the frames is available. *)
Theorem wpacket_refines_frames os p fs :
  rep p fs -> fs <> [] -> Forall op_ok os ->
  exists ok p', wrun os p = Val (ok, p')
    /\ (ok = true -> exists fs', frun os fs = Some fs' /\ rep p' fs')
    /\ (room p (costs os) -> frun os fs <> None -> (forall a, alloc_ok a = true) -> ok = true).
Proof.
  intros R Hne Hos. revert p fs R Hne. induction Hos as [| o os Ho Hos IH]; intros p fs R Hne.
  - exists true, p. cbn. eauto.
  - cbn [wrun frun costs]. destruct (wstep_ok o p fs R Hne Ho) as (ok & q & -> & H1 & H2).
    cbn [mbind res_bind]. pose proof (costs_pos os) as Hcp.
    destruct ok; cbn [negb].
    + destruct (H1 eq_refl) as (fs1 & E1 & Rq). rewrite E1. cbn [option_bind].
      destruct (IH q fs1 Rq (fstep_ne _ _ _ Hne E1)) as (ok & p' & E & I1 & I2).
      exists ok, p'. split; [exact E |]. split; [exact I1 |]. intros Hr Hf Ha.
      destruct H2 as (_ & Hc & Hwr); [unfold room in *; lia | now rewrite E1 | apply Ha |].
      apply I2; auto. unfold room in *. lia.
    + exists false, q. split; [reflexivity |]. split; [easy |]. intros Hr Hf Ha.
      destruct H2 as (? & _); [unfold room in *; lia | | apply Ha | easy].
      now destruct (fstep o fs).
Qed.

(** ** Starting a packet *)

Lemma maxmax_ge n : (n <= 8)%nat -> Z.of_nat n <= maxmaxsize (Z.of_nat n) <= SIZE_MAX.
Proof. intros H. do 9 (destruct n as [| n]; [vm_compute; split; discriminate |]). lia. Qed.

(** A packet whose outermost length takes [n] bytes. *)
Lemma intern_init_ok p n :
  buffer_ok (set_written 0 0 p) -> endfirst p = false -> maxsize p <= SIZE_MAX ->
  Z.of_nat n <= cap p -> (n <= 8)%nat -> alloc_ok (nalloc p) = true ->
  exists p', wpacket_intern_init_len p (Z.of_nat n) = (true, p')
    /\ rep p' [mk_frame n 0 []] /\ written p' = Z.of_nat n /\ cap p' = cap p.
Proof.
  intros B Hf Hm Hc Hn Ha. unfold wpacket_intern_init_len. cbn [nalloc set_written].
  rewrite Ha. cbn [negb]. set (p0 := set_nalloc _ (set_written 0 0 p)).
  assert (Hmax : 0 <= maxsize p) by (unfold cap in Hc; destruct (wbuf p); lia).
  assert (R0 : rep (set_subs [mk_sub 0 0 0 0] p0) [mk_frame 0 0 []]).
  { split; auto; [cbn; lia |]. cbn [written set_subs set_nalloc set_written p0].
    change (take (Z.to_nat 0) _) with ([] ++ [] ++ f_body (mk_frame 0 0 [])).
    constructor; try reflexivity. constructor. }
  destruct (Z.eqb_spec (Z.of_nat n) 0) as [E | E].
  { assert (n = 0%nat) as -> by lia. eexists. split; [reflexivity |]. auto. }
  unfold WPACKET_allocate_bytes.
  change (set_subs [mk_sub 0 (Z.of_nat n) (Z.of_nat n) 0] p0)
    with (set_subs [mk_sub 0 (Z.of_nat n) (Z.of_nat n) 0] (set_subs [mk_sub 0 0 0 0] p0)).
  assert (Hr : room (set_subs [mk_sub 0 0 0 0] p0) (Z.of_nat n)).
  { unfold room. change (cap (set_subs _ p0)) with (cap p). cbn. lia. }
  pose proof (room_contents _ _ (rep_buf _ _ R0) Hr) as Hlen. cbn [written set_subs p0 set_nalloc set_written] in Hlen.
  rewrite reserve_subs, (reserve_room _ [mk_frame 0 0 []]) by (easy || lia).
  cbn [negb wcurr written set_subs p0 set_nalloc set_written].
  rewrite Z.add_0_l, u64_small by lia. eexists. split; [reflexivity |].
  split; [| split; reflexivity]. split; auto.
  - cbn. unfold cap in Hc. destruct (wbuf p); lia.
  - unfold buffer_ok, cap in *. cbn in *. destruct (staticbuf p), (wbuf p); try easy; lia.
  - cbn [written set_written subs set_subs]. rewrite Nat2Z.id.
    rewrite <- (app_nil_r (take n _)). rewrite <- (app_nil_l (take n _ ++ [])).
    change (@nil Z) with (f_body (mk_frame n 0 [])) at 2.
    constructor; try reflexivity; cbn [f_len length Nat.add]; auto.
    + constructor.
    + rewrite length_take. apply Nat.min_l. apply Nat2Z.inj_le. rewrite Z.add_0_l in Hlen. exact Hlen.
    + now destruct (n =? 0)%nat.
Qed.

(** ** From the writer to the reader *)

(** The functions for lengths of one, two and three bytes. *)
Definition get_length_prefixed (n : nat) : PACKET -> res (option (PACKET * PACKET)) :=
  match n with
  | 1%nat => PACKET_get_length_prefixed_1
  | 2%nat => PACKET_get_length_prefixed_2
  | _ => PACKET_get_length_prefixed_3
  end.

Lemma get_length_prefixed_ok n pkt :
  (1 <= n <= 3)%nat -> packet_wf pkt ->
  simulates (sub_view pkt) pkt (get_length_prefixed n pkt) (read_vec n false (view pkt)).
Proof.
  intros Hn W. assert (n = 1 \/ n = 2 \/ n = 3)%nat as [-> | [-> | ->]] by lia;
    apply length_prefixed_ok; auto; intros q Wq;
    [apply (get_after_ok 1) | apply (get_after_ok 2) | apply (get_after_ok 3)]; auto with packet.
Qed.

Lemma read_sealed n body rest :
  (1 <= n)%nat -> Z.of_nat (length body) < 256 ^ Z.of_nat n ->
  read_vec n false ((be_bytes n (Z.of_nat (length body)) ++ body) ++ rest) = Some (body, rest).
Proof.
  intros Hn Hb. unfold read_vec, read_be, read_bytes. rewrite <- app_assoc.
  rewrite (proj2 (Nat.leb_le _ _)) by (rewrite length_app, be_bytes_length; lia).
  rewrite take_app_length', drop_app_length' by now rewrite be_bytes_length. cbn [mbind option_bind].
  rewrite be_roundtrip, Nat2Z.id by lia.
  rewrite (proj2 (Nat.leb_le _ _)) by (rewrite length_app; lia).
  cbn [mbind option_bind andb]. now rewrite take_app_length, drop_app_length.
Qed.

(** What is written reads back.  A vector written into a fixed buffer with
    a length of one to three bytes, whose size fits both the length and the
    buffer, is read by the matching [PACKET_get_length_prefixed] function as a
    sub-packet that shows the same bytes, with nothing left over. *)
Theorem wpacket_packet_roundtrip buf n a body :
  (1 <= n <= 3)%nat -> Z.of_nat (n + length body) <= Z.of_nat (length buf) <= SIZE_MAX ->
  Z.of_nat (length body) < 256 ^ Z.of_nat n -> bytes body -> alloc_ok a = true ->
  exists p0 p1 p2 pkt sub rest,
    WPACKET_init_static_len buf (Z.of_nat n) a = (true, p0)
    /\ WPACKET_memcpy p0 body = Val (true, p1)
    /\ WPACKET_finish p1 = Val (true, p2)
    /\ PACKET_buf_init (contents p2) 0 (WPACKET_get_total_written p2) = Some pkt
    /\ get_length_prefixed n pkt = Val (Some (sub, rest))
    /\ view sub = body /\ PACKET_remaining rest = 0.
Proof.
  intros Hn Hlen Hfit Hb Ha. pose proof (maxmax_ge n) as Hmm.
  assert (Hmax : Z.of_nat (n + length body) <= maxmaxsize (Z.of_nat n) <= SIZE_MAX).
  { split; [| apply Hmm; lia].
    assert (n = 1 \/ n = 2 \/ n = 3)%nat as Hc by lia.
    rewrite Nat2Z.inj_add. destruct Hc as [-> | [-> | ->]];
      [change (maxmaxsize (Z.of_nat 1)) with 256 | change (maxmaxsize (Z.of_nat 2)) with 65537
      | change (maxmaxsize (Z.of_nat 3)) with 16777218];
      [change (256 ^ Z.of_nat 1) with 256 in Hfit | change (256 ^ Z.of_nat 2) with 65536 in Hfit
      | change (256 ^ Z.of_nat 3) with 16777216 in Hfit]; lia. }
  unfold WPACKET_init_static_len. rewrite (proj2 (Z.eqb_neq _ 0)) by lia.
  set (max := if _ <? _ then _ else _).
  assert (Hcap : Z.of_nat (n + length body) <= max <= SIZE_MAX /\ max <= Z.of_nat (length buf))
    by (unfold max; destruct (Z.ltb_spec (maxmaxsize (Z.of_nat n)) (Z.of_nat (length buf))); lia).
  destruct (intern_init_ok (fresh_packet None (Some buf) max false a) n) as (p0 & E0 & R0 & W0 & C0);
    try (unfold buffer_ok, cap); cbn; auto; try lia.
  change (cap (fresh_packet None (Some buf) max false a)) with max in C0.
  destruct (memcpy_ok p0 _ body R0) as (ok & p1 & E1 & R1 & Adv); [easy | unfold SIZE_MAX in *; lia |].
  destruct Adv as [-> (W1 & C1 & _)]; [unfold room; lia |]. specialize (R1 eq_refl).
  cbn [append f_len f_flags f_body app] in R1.
  destruct (finish_ok p1 _ R1) as (ok & p2 & E2 & F).
  rewrite close_frame_plain in F by (right; lia). destruct F as (-> & _ & Et & W2).
  unfold sealed in *. cbn [f_len f_body] in *. rewrite length_app, be_bytes_length in W2.
  set (pkt := mk_packet (contents p2) 0 (written p2)).
  assert (V : view pkt = be_bytes n (Z.of_nat (length body)) ++ body)
    by (unfold view, pkt; cbn [base curr remaining]; rewrite drop_0; exact Et).
  assert (Hw2 : written p2 <= 2 ^ 32).
  { assert (256 ^ Z.of_nat n <= 256 ^ 3) by (apply Z.pow_le_mono_r; lia).
    change (256 ^ 3) with 16777216 in *. change (2 ^ 32) with 4294967296. lia. }
  assert (Wf : packet_wf pkt).
  { apply (f_equal length) in Et. rewrite length_take, length_app, be_bytes_length in Et.
    unfold packet_wf. rewrite V. cbn [base curr remaining pkt].
    assert (2 ^ 32 < SIZE_MAX / 2 /\ 2 ^ 32 < SIZE_MAX) by (vm_compute; auto).
    generalize dependent (2 ^ 32). intros.
    repeat split; try lia. apply Forall_app_2; [apply be_bytes_bytes | assumption]. }
  assert (S := get_length_prefixed_ok n pkt ltac:(lia) Wf).
  rewrite V, <- (app_nil_r (be_bytes _ _ ++ body)), read_sealed in S by lia.
  destruct (get_length_prefixed n pkt) as [[[sub rest] |] |] eqn:G; try easy.
  destruct S as ((_ & _ & Vs) & Wr & _ & Vr).
  exists p0, p1, p2, pkt, sub, rest. repeat (split; [assumption |]).
  split; [| split; [assumption |]; split; [assumption |]].
  - unfold PACKET_buf_init, WPACKET_get_total_written.
    destruct Wf as (_ & Hr & _). cbn [remaining pkt] in Hr. now rewrite (proj2 (Z.ltb_ge _ _)) by lia.
  - unfold PACKET_remaining. rewrite <- (view_length rest Wr), Vr. reflexivity.
Qed.

End Refinement.

(** ** Witnesses *)

#[local] Instance all_alloc : Alloc := {| alloc_ok _ := true; junk _ _ := 0 |}.

(** A packet over a fixed buffer of twelve bytes. *)
Definition small_packet : WPACKET := (WPACKET_init_static_len (repeat 0 12) 0 1).2.

Lemma small_packet_rep : rep small_packet [mk_frame 0 0 []].
Proof.
  destruct (intern_init_ok (fresh_packet None (Some (repeat 0 12)) 12 false 1) 0)
    as (p & E & R & _); [vm_compute; discriminate | reflexivity | vm_compute; discriminate
                        | vm_compute; discriminate | lia | reflexivity |].
  change small_packet with (wpacket_intern_init_len
    (fresh_packet None (Some (repeat 0 12)) 12 false 1) (Z.of_nat 0)).2.
  rewrite E. exact R.
Qed.

(** Two nested vectors, the inner one of three bytes. *)
Definition nested_ops : list wop := [OpPut 1 9; OpOpen 2; OpOpen 1; OpCopy [1; 2; 3]; OpClose; OpClose].

Lemma wpacket_refines_frames_witness :
  exists p', wrun nested_ops small_packet = Val (true, p')
    /\ rep p' [mk_frame 0 0 [9; 0; 4; 3; 1; 2; 3]].
Proof.
  destruct (wpacket_refines_frames nested_ops small_packet [mk_frame 0 0 []] small_packet_rep)
    as (ok & p' & E & H & Hok).
  - discriminate.
  - repeat constructor; vm_compute; discriminate.
  - assert (ok = true) as -> by (apply Hok; [vm_compute; discriminate .. | reflexivity]).
    destruct (H eq_refl) as (fs' & Ef & R). exists p'. split; [exact E |].
    injection Ef as <-. exact R.
Defined.

Lemma wpacket_packet_roundtrip_witness :
  exists p0 p1 p2 pkt sub rest,
    WPACKET_init_static_len (repeat 0 8) 2 0 = (true, p0)
    /\ WPACKET_memcpy p0 [5; 6; 7] = Val (true, p1)
    /\ WPACKET_finish p1 = Val (true, p2)
    /\ PACKET_buf_init (contents p2) 0 (WPACKET_get_total_written p2) = Some pkt
    /\ PACKET_get_length_prefixed_2 pkt = Val (Some (sub, rest))
    /\ view sub = [5; 6; 7] /\ PACKET_remaining rest = 0.
Proof.
  apply (wpacket_packet_roundtrip (repeat 0 8) 2 0 [5; 6; 7]);
    [lia | vm_compute; split; discriminate | reflexivity | | reflexivity].
  repeat (apply Forall_cons_2; [unfold is_byte; lia |]). apply Forall_nil_2.
Defined.
