(* ===== verification/PacketRules.v ===== *)
(** * Reading packets: rules for computations

    What the readers of [Packet] do inside a computation, for any state, by the
    theorems of [PacketSpec]. *)

From S2P Require Import Prelude Buffers CMem Packet PacketSpec Wpacket WpacketSpec.

Section Rules.
Context {S : Type}.
Implicit Types s : S.

(** ** When the bytes of a packet are known *)

Lemma wp_get_be n get pkt v rest (Q : _ -> S -> Prop) s :
  (forall p, packet_wf p -> simulates eq p (get p) (read_be n (view p))) ->
  packet_wf pkt -> view pkt = be_bytes n v ++ rest -> 0 <= v < 256 ^ Z.of_nat n ->
  (forall p, packet_wf p -> base p = base pkt -> view p = rest -> Q (Some (v, p)) s) ->
  wp (reads (get pkt)) Q s.
Proof.
  intros G W V Hv HQ. specialize (G pkt W). unfold read_be, read_bytes in G. rewrite V in G.
  rewrite (proj2 (Nat.leb_le _ _)) in G by (rewrite length_app, be_bytes_length; lia).
  rewrite take_app_length', drop_app_length' in G by now rewrite be_bytes_length.
  cbn [mbind option_bind] in G. rewrite be_roundtrip in G by assumption.
  destruct (get pkt) as [[[] |] |] eqn:E; try easy. destruct G as (<- & W' & B & V').
  eapply wp_reads; [reflexivity | auto].
Qed.

Lemma simulates_1 p : packet_wf p -> simulates eq p (PACKET_get_1 p) (read_be 1 (view p)).
Proof. intros. apply (get_after_ok 1); auto with packet. Qed.
Lemma simulates_2 p : packet_wf p -> simulates eq p (PACKET_get_net_2 p) (read_be 2 (view p)).
Proof. intros. apply (get_after_ok 2); auto with packet. Qed.

Lemma wp_get_1 pkt v rest Q s :
  packet_wf pkt -> view pkt = be_bytes 1 v ++ rest -> 0 <= v < 256 ->
  (forall p, packet_wf p -> base p = base pkt -> view p = rest -> Q (Some (v, p)) s) ->
  wp (reads (PACKET_get_1 pkt)) Q s.
Proof. intros W V Hv. now apply (wp_get_be 1 PACKET_get_1 _ v rest _ _ simulates_1). Qed.

Lemma wp_get_net_2 pkt v rest Q s :
  packet_wf pkt -> view pkt = be_bytes 2 v ++ rest -> 0 <= v < 65536 ->
  (forall p, packet_wf p -> base p = base pkt -> view p = rest -> Q (Some (v, p)) s) ->
  wp (reads (PACKET_get_net_2 pkt)) Q s.
Proof. intros W V Hv. now apply (wp_get_be 2 PACKET_get_net_2 _ v rest _ _ simulates_2). Qed.

Lemma get_bytes_view pkt b rest len :
  packet_wf pkt -> view pkt = b ++ rest -> len = Z.of_nat (length b) ->
  exists d p, PACKET_get_bytes pkt len = Some (d, p) /\ bytes_at (base pkt) d len = Val b
    /\ packet_wf p /\ base p = base pkt /\ view p = rest.
Proof.
  intros W V ->. pose proof (get_bytes_ok pkt (Z.of_nat (length b)) W) as G.
  unfold read_bytes in G. rewrite V, Nat2Z.id, length_app, (proj2 (Nat.leb_le _ _)) in G by lia.
  rewrite take_app_length, drop_app_length in G.
  destruct (PACKET_get_bytes _ _) as [[d p] |]; [| now specialize (G ltac:(lia))].
  destruct G as ((Ws & Bs & Vs) & Wp & Bp & Vp); [lia |]. exists d, p. split; [reflexivity |].
  split; [| auto]. change (base pkt) with (base (mk_packet (base pkt) d (Z.of_nat (length b)))) at 1.
  change d with (curr (mk_packet (base pkt) d (Z.of_nat (length b)))) at 2.
  rewrite (bytes_at_view _ _ Ws) by (cbn; lia). now rewrite Vs, Nat2Z.id, firstn_all.
Qed.

(** A vector, as a packet of its own *)
Lemma wp_get_vec n get pkt b rest Q s :
  (forall p, packet_wf p -> simulates eq p (get p) (read_be n (view p))) -> (1 <= n)%nat ->
  packet_wf pkt -> view pkt = (be_bytes n (Z.of_nat (length b)) ++ b) ++ rest ->
  Z.of_nat (length b) < 256 ^ Z.of_nat n ->
  (forall sub p, packet_wf sub -> view sub = b -> packet_wf p -> base p = base pkt -> view p = rest ->
     Q (Some (sub, p)) s) ->
  wp (reads (length_prefixed get false pkt)) Q s.
Proof.
  intros G Hn W V Hb HQ. pose proof (length_prefixed_ok n false get pkt G W) as L.
  rewrite V, read_sealed in L by lia.
  destruct (length_prefixed get false pkt) as [[[sub p] |] |] eqn:E; try easy.
  destruct L as ((Ws & _ & Vs) & Wp & Bp & Vp). eapply wp_reads; [reflexivity | auto].
Qed.

Lemma packet_bytes_view pkt :
  packet_wf pkt -> bytes_at (base pkt) (PACKET_data pkt) (PACKET_remaining pkt) = Val (view pkt).
Proof.
  intros W. unfold PACKET_data, PACKET_remaining. pose proof W as (_ & Hr & _).
  rewrite bytes_at_view by (assumption || lia). now rewrite take_view.
Qed.

Lemma remaining_nil pkt : packet_wf pkt -> view pkt = [] -> PACKET_remaining pkt = 0.
Proof. intros W E. unfold PACKET_remaining. rewrite <- (view_length pkt W), E. reflexivity. Qed.

Lemma remaining_ne pkt : packet_wf pkt -> view pkt <> [] -> (PACKET_remaining pkt =? 0) = false.
Proof.
  intros W E. unfold PACKET_remaining. rewrite <- (view_length pkt W). apply Z.eqb_neq.
  destruct (view pkt); [easy | cbn [length]; lia].
Qed.

(** ** On any packet *)

Lemma wp_read_any n get pkt Q s :
  (forall p, packet_wf p -> simulates eq p (get p) (read_be n (view p))) -> packet_wf pkt ->
  Q None s ->
  (forall v p, packet_wf p -> 0 <= v < 256 ^ Z.of_nat n -> Q (Some (v, p)) s) ->
  wp (reads (get pkt)) Q s.
Proof.
  intros G W Hn Hy. specialize (G pkt W). unfold read_be, read_bytes in G.
  destruct (get pkt) as [[[v p] |] |] eqn:E; destruct (Nat.leb_spec n (length (view pkt))); cbn in G; try easy.
  destruct G as (-> & Wp & _). eapply wp_reads; [reflexivity |]. apply Hy; [assumption |].
    pose proof (be_value_range (take n (view pkt))) as B. rewrite length_take_le in B by assumption.
    apply B. now apply Forall_take, view_bytes.
Qed.

Lemma wp_vec_any n get pkt Q s :
  (forall p, packet_wf p -> simulates eq p (get p) (read_be n (view p))) -> packet_wf pkt ->
  Q None s -> (forall sub p, packet_wf sub -> packet_wf p -> Q (Some (sub, p)) s) ->
  wp (reads (length_prefixed get false pkt)) Q s.
Proof.
  intros G W Hn Hy. pose proof (length_prefixed_ok n false get pkt G W) as L.
  destruct (length_prefixed get false pkt) as [[[sub p] |] |] eqn:E;
    destruct (read_vec n false (view pkt)) as [[] |]; cbn in L; try easy.
  destruct L as ((Ws & _) & Wp & _). eapply wp_reads; [reflexivity | auto].
Qed.

Lemma get_bytes_any pkt len :
  packet_wf pkt -> 0 <= len ->
  match PACKET_get_bytes pkt len with
  | None => True
  | Some (d, p) => packet_wf p
      /\ exists b, bytes_at (base p) d len = Val b /\ Z.of_nat (length b) = len
  end.
Proof.
  intros W Hl. pose proof (get_bytes_ok pkt len W Hl) as G.
  destruct (PACKET_get_bytes pkt len) as [[d p] |]; [| exact I].
  destruct (read_bytes _ _) as [[v l] |]; [| easy].
  destruct G as ((Ws & _ & Vs) & Wp & Bp & _). split; [assumption |]. exists v. rewrite Bp.
  pose proof (packet_bytes_view _ Ws) as E. rewrite Vs in E. split; [exact E |].
  rewrite <- Vs. exact (view_length _ Ws).
Qed.

(** ** What a read says of the bytes *)

Lemma be_bytes_value b : bytes b -> be_bytes (length b) (be_value b) = b.
Proof.
  induction b as [| x b IH] using rev_ind; intros B; [reflexivity |].
  apply Forall_app in B as [B Hx]. apply Forall_inv in Hx. unfold is_byte in Hx.
  rewrite length_app, Nat.add_1_r, be_value_snoc. cbn [be_bytes].
  replace ((256 * be_value b + x) / 256) with (be_value b) by (zdm; lia).
  replace ((256 * be_value b + x) mod 256) with x by (zdm; lia). now rewrite IH.
Qed.

Lemma wp_read_inv n get pkt Q s :
  (forall p, packet_wf p -> simulates eq p (get p) (read_be n (view p))) -> packet_wf pkt ->
  ((length (view pkt) < n)%nat -> Q None s) ->
  (forall v p, packet_wf p -> base p = base pkt -> 0 <= v < 256 ^ Z.of_nat n ->
     view pkt = be_bytes n v ++ view p -> Q (Some (v, p)) s) ->
  wp (reads (get pkt)) Q s.
Proof.
  intros G W Hn Hy. specialize (G pkt W). unfold read_be, read_bytes in G.
  destruct (get pkt) as [[[v p] |] |] eqn:E; destruct (Nat.leb_spec n (length (view pkt))); cbn in G; try easy.
  - destruct G as (-> & Wp & Bp & Vp). eapply wp_reads; [reflexivity |].
    assert (B : bytes (take n (view pkt))) by now apply Forall_take, view_bytes.
    assert (Ln : length (take n (view pkt)) = n) by (rewrite length_take; lia).
    apply Hy; [assumption | assumption | |].
    + pose proof (be_value_range _ B) as R. now rewrite Ln in R.
    + pose proof (be_bytes_value _ B) as R. rewrite Ln in R. now rewrite R, Vp, take_drop.
  - eapply wp_reads; [reflexivity | auto].
Qed.

Lemma wp_vec_inv n last get pkt Q s :
  (forall p, packet_wf p -> simulates eq p (get p) (read_be n (view p))) -> (1 <= n)%nat -> packet_wf pkt ->
  ((forall b rest, Z.of_nat (length b) < 256 ^ Z.of_nat n -> (last = true -> rest = []) ->
      view pkt <> (be_bytes n (Z.of_nat (length b)) ++ b) ++ rest) -> Q None s) ->
  (forall sub p, packet_wf sub -> packet_wf p -> base p = base pkt -> base sub = base pkt ->
     Z.of_nat (length (view sub)) < 256 ^ Z.of_nat n -> (last = true -> view p = []) ->
     view pkt = (be_bytes n (Z.of_nat (length (view sub))) ++ view sub) ++ view p -> Q (Some (sub, p)) s) ->
  wp (reads (length_prefixed get last pkt)) Q s.
Proof.
  intros G Hn W HN HY. pose proof (length_prefixed_ok n last get pkt G W) as LP.
  destruct (length_prefixed get last pkt) as [[[sub p] |] |] eqn:E;
    destruct (read_vec n last (view pkt)) as [[v l] |] eqn:R; cbn in LP; try easy.
  - destruct LP as ((Ws & Bs & Vs) & Wp & Bp & Vp). eapply wp_reads; [reflexivity |].
    unfold read_vec, read_be, read_bytes in R. destruct (Nat.leb_spec n (length (view pkt))); [| easy].
    cbn [mbind option_bind] in R.
    destruct (Nat.leb_spec (Z.to_nat (be_value (take n (view pkt)))) (length (drop n (view pkt)))); [| easy].
    cbn [mbind option_bind] in R.
    assert (B : bytes (take n (view pkt))) by now apply Forall_take, view_bytes.
    assert (Ln : length (take n (view pkt)) = n) by (rewrite length_take; lia).
    pose proof (be_value_range _ B) as Rg. pose proof (be_bytes_value _ B) as Bv. rewrite Ln in Rg, Bv.
    destruct (last && _) eqn:Lst in R; [easy |]. injection R as <- <-.
    assert (Lv : Z.of_nat (length (view sub)) = be_value (take n (view pkt)))
      by (rewrite Vs, length_take, Nat.min_l by lia; lia).
    apply HY; auto; [lia | |].
    + intros ->. rewrite Vp. cbn [andb] in Lst. apply negb_false_iff, Nat.eqb_eq in Lst.
      now apply nil_length_inv in Lst.
    + rewrite Lv, Bv, Vs, Vp, <- app_assoc, take_drop, take_drop. reflexivity.
  - eapply wp_reads; [reflexivity |]. apply HN. intros b rest Hb Hl Ev. rewrite Ev in R.
    unfold read_vec, read_be, read_bytes in R. rewrite <- app_assoc in R.
    rewrite (proj2 (Nat.leb_le _ _)) in R by (rewrite length_app, be_bytes_length; lia).
    rewrite take_app_length', drop_app_length' in R by now rewrite be_bytes_length.
    cbn [mbind option_bind] in R. rewrite be_roundtrip, Nat2Z.id in R by lia.
    rewrite (proj2 (Nat.leb_le _ _)) in R by (rewrite length_app; lia). cbn [mbind option_bind] in R.
    rewrite drop_app_length in R. destruct last; [rewrite Hl in R by reflexivity |]; easy.
Qed.

End Rules.
