(* ===== verification/KexTypes.v ===== *)
(** * Key exchange messages: state and environment

    The part of [SSL] that the ServerKeyExchange and ClientKeyExchange messages
    of NTLS use, the library calls they make, and what the two sides share:
    [ssl_generate_master_secret] (s3_lib.c), [ssl_derive_ntls],
    [x509_to_asn1_ntls] and [construct_key_exchange_tbs_ntls]
    (ntls_statem_lib.c).  Byte buffers live in the memory of [CMem], so that
    who frees what is part of the model; key and certificate objects of
    libcrypto are values. *)

From S2P Require Import Prelude Buffers CMem Packet Wpacket KyberSymmetric HybridKem.

Definition SSL_kRSA : Z := 0x1.
Definition SSL_kSM2 : Z := 0x400.
Definition SSL_kSM2DHE : Z := 0x800.
Definition SSL_kECCKyber : Z := 0x1000.
Definition SSL_kECDHEKyber : Z := 0x2000.
Definition SSL_kKyber : Z := 0x4000.
Definition SSL_kKyberAigisEnc : Z := 0x8000.

Definition SSL_AD_HANDSHAKE_FAILURE : Z := 40.
Definition SSL_AD_ILLEGAL_PARAMETER : Z := 47.
Definition SSL_AD_DECODE_ERROR : Z := 50.
Definition SSL_AD_DECRYPT_ERROR : Z := 51.
Definition SSL_AD_INTERNAL_ERROR : Z := 80.

Definition SSL3_RANDOM_SIZE : nat := 32.
Definition NAMED_CURVE_TYPE : Z := 3.
Definition OSSL_TLS_GROUP_ID_sm2 : Z := 0x29.

(** [alg_k & (..)] *)
Definition has (alg_k mask : Z) : bool := negb (Z.land alg_k mask =? 0).

(** ** Library calls *)

(** The calls that can fail, apart from allocations. *)
Inductive kcall : Set :=
| C_RAND_bytes | C_CTX_new | C_CTX_new_2 | C_encrypt_init | C_encrypt_size | C_encrypt
| C_rsa_padding | C_set_params | C_log_rsa
| C_decrypt_init | C_decrypt_size | C_decrypt
| C_get1_EC_KEY | C_get0_group | C_point2oct
| C_generate_key | C_get1_encoded | C_get1_encoded_2 | C_get1_encoded_3 | C_EVP_PKEY_new | C_copy_parameters
| C_alias_priv | C_alias_pub | C_derive_init | C_derive_set_peer | C_derive_size | C_derive
| C_encapsulate_init | C_encapsulate_size | C_encapsulate
| C_encapsulate_init_2 | C_encapsulate_size_2 | C_encapsulate_2
| C_decapsulate_init | C_decapsulate_size | C_decapsulate_init_2 | C_decapsulate_size_2
| C_aigis_keygen | C_aigis_public_size | C_aigis_public | C_fromdata_init
| C_generate_master_secret | C_i2d_X509
| C_set_peer_sigalg | C_lookup_md | C_MD_CTX_new | C_verify_init | C_set1_id | C_sign_init | C_sign.

(** What the calls compute.  [EVP_PKEY] and [X509] are the key and certificate
    objects; [ec_private] and [ec_public] are the key that
    [EVP_PKEY_get1_EC_KEY] finds in a key object. *)
Class Crypto {C : Curve} := {
  EVP_PKEY : Type;
  X509 : Type;
  X509_get0_pubkey : X509 -> option EVP_PKEY;
  i2d_X509 : X509 -> list Z;
  is_SM2 : EVP_PKEY -> bool;
  is_RSA : EVP_PKEY -> bool;
  is_ML_DSA : EVP_PKEY -> bool;
  ec_private : EVP_PKEY -> option Z;
  ec_public : EVP_PKEY -> point;
  encoded_public_key : EVP_PKEY -> list Z;
  set_encoded_public_key : EVP_PKEY -> list Z -> option EVP_PKEY;
  generate_param_group : Z -> option EVP_PKEY;
  generate_pkey_group : Z -> EVP_PKEY;
  generate_pkey : EVP_PKEY -> EVP_PKEY;
  pkey_encrypt_size : EVP_PKEY -> nat -> nat;
  pkey_encrypt : EVP_PKEY -> list Z -> list Z;
  pkey_decrypt_size : EVP_PKEY -> list Z -> nat;
  pkey_decrypt : EVP_PKEY -> list Z -> option (list Z);
  pkey_derive : EVP_PKEY -> EVP_PKEY -> list Z;
  sm2_exchange : bool -> EVP_PKEY -> EVP_PKEY -> EVP_PKEY -> EVP_PKEY -> list Z;
  kem_ct_size : EVP_PKEY -> nat;
  kem_ss_size : EVP_PKEY -> nat;
  kem_encapsulate : EVP_PKEY -> list Z * list Z;
  kem_decapsulate : EVP_PKEY -> list Z -> option (list Z);
  aigis_generate : EVP_PKEY;
  aigis_from_public : list Z -> option EVP_PKEY;
  sign_size : EVP_PKEY -> nat;
  sign : EVP_PKEY -> list Z -> list Z;
  verify : EVP_PKEY -> list Z -> list Z -> bool;
  master_secret : list Z -> list Z;          (** of the two randoms and a premaster secret *)
  premaster_random : list Z;                 (** the 46 bytes that [RAND_bytes_ex] draws *)
  keygen_coins : list Z;                     (** of [ecc_kyber_hybrid_keygen] *)
  encaps_coins : list Z;                     (** of [ecc_kyber_hybrid_encaps] *)
  sampler_fuel : nat;
  call_ok : kcall -> bool;
  ec_ok : ec_call -> bool;
  ec_partial : ec_call -> list Z             (** what a failing call of the library has written *) }.

(** The laws of these calls that the theorems use. *)
Class CryptoLaws {C : Curve} {K : Crypto} : Prop := {
  premaster_random_length : length premaster_random = 46%nat;
  encrypt_fits k m : (length (pkey_encrypt k m) <= pkey_encrypt_size k (length m))%nat;
  ec_public_encoded k : point2oct (ec_public k) = encoded_public_key k }.

(** ** State *)

(** What the messages do not change: the role, the cipher suite's
    [algorithm_mkey], the version and randoms of the hellos, the peer's
    certificates, our own certificates and keys, and the result of
    [tls1_shared_group]. *)
Record conn {C : Curve} {K : Crypto} := mk_conn {
  is_server : bool;
  algorithm_mkey : Z;
  client_version : Z;
  client_random : list Z;
  server_random : list Z;
  session_peer : option X509;
  peer_chain : option (list X509);
  rsa_sign_key : option EVP_PKEY;
  rsa_enc_x509 : option X509;
  rsa_enc_key : option EVP_PKEY;
  sm2_sign_key : option EVP_PKEY;
  sm2_enc_x509 : option X509;
  sm2_enc_key : option EVP_PKEY;
  sigalg_set : bool;
  sigalg_is_ml_dsa : bool;
  shared_group : Z }.

(** What they change: the memory, the message that is written, [s3.tmp.pms]
    and [pmslen], the keys of [s3], the session's group and master key, the
    first fatal alert, and the data that [print_hex_data] writes to stderr. *)
Record kex {C : Curve} {K : Crypto} := mk_kex {
  k_mem : memory;
  k_pkt : WPACKET;
  pms : ptr;
  pmslen : nat;
  peer_tmp : option EVP_PKEY;
  tmp_pkey : option EVP_PKEY;
  aigis_kem_pkey : option EVP_PKEY;
  kex_group : Z;
  master_key : option (list Z);
  fatal : option Z;
  printed : list (list Z) }.

Arguments mk_kex {C K}.
Arguments mk_conn {C K}.

Section State.
Context {C : Curve} {K : Crypto}.

Definition set_mem (m : memory) (s : kex) : kex :=
  mk_kex m (k_pkt s) (pms s) (pmslen s) (peer_tmp s) (tmp_pkey s) (aigis_kem_pkey s) (kex_group s)
    (master_key s) (fatal s) (printed s).
Definition set_pkt (p : WPACKET) (s : kex) : kex :=
  mk_kex (k_mem s) p (pms s) (pmslen s) (peer_tmp s) (tmp_pkey s) (aigis_kem_pkey s) (kex_group s)
    (master_key s) (fatal s) (printed s).
Definition set_pms (p : ptr) (n : nat) (s : kex) : kex :=
  mk_kex (k_mem s) (k_pkt s) p n (peer_tmp s) (tmp_pkey s) (aigis_kem_pkey s) (kex_group s)
    (master_key s) (fatal s) (printed s).
Definition set_peer_tmp (k : option EVP_PKEY) (s : kex) : kex :=
  mk_kex (k_mem s) (k_pkt s) (pms s) (pmslen s) k (tmp_pkey s) (aigis_kem_pkey s) (kex_group s)
    (master_key s) (fatal s) (printed s).
Definition set_tmp_pkey (k : option EVP_PKEY) (s : kex) : kex :=
  mk_kex (k_mem s) (k_pkt s) (pms s) (pmslen s) (peer_tmp s) k (aigis_kem_pkey s) (kex_group s)
    (master_key s) (fatal s) (printed s).
Definition set_aigis (k : option EVP_PKEY) (s : kex) : kex :=
  mk_kex (k_mem s) (k_pkt s) (pms s) (pmslen s) (peer_tmp s) (tmp_pkey s) k (kex_group s)
    (master_key s) (fatal s) (printed s).
Definition set_group (g : Z) (s : kex) : kex :=
  mk_kex (k_mem s) (k_pkt s) (pms s) (pmslen s) (peer_tmp s) (tmp_pkey s) (aigis_kem_pkey s) g
    (master_key s) (fatal s) (printed s).
Definition set_master (k : option (list Z)) (s : kex) : kex :=
  mk_kex (k_mem s) (k_pkt s) (pms s) (pmslen s) (peer_tmp s) (tmp_pkey s) (aigis_kem_pkey s) (kex_group s)
    k (fatal s) (printed s).
Definition set_fatal (al : Z) (s : kex) : kex :=
  mk_kex (k_mem s) (k_pkt s) (pms s) (pmslen s) (peer_tmp s) (tmp_pkey s) (aigis_kem_pkey s) (kex_group s)
    (master_key s) (match fatal s with Some a => Some a | None => Some al end) (printed s).
Definition add_printed (b : list Z) (s : kex) : kex :=
  mk_kex (k_mem s) (k_pkt s) (pms s) (pmslen s) (peer_tmp s) (tmp_pkey s) (aigis_kem_pkey s) (kex_group s)
    (master_key s) (fatal s) (printed s ++ [b]).

#[export] Instance kex_has_memory : HasMemory kex.
Proof.
  refine {| mem_of := k_mem; with_mem := set_mem |}; try reflexivity. intros []; reflexivity.
Defined.

(** ** Steps *)

Context {A : Alloc}.
Abbreviation M := (prog kex).

(** [SSLfatal_ntls]: the first alert stays. *)
Definition SSLfatal_ntls (al : Z) : M unit := modify (set_fatal al).

(** Calls of the packet writer *)
Definition writes (f : WPACKET -> res (bool * WPACKET)) : M bool :=
  fun s => match f (k_pkt s) with Val (ok, p) => Val (ok, set_pkt p s) | Stuck x => Stuck x end.
Definition put_u8 (v : Z) : M bool := writes (fun p => WPACKET_put_bytes__ p v 1).
Definition put_u16 (v : Z) : M bool := writes (fun p => WPACKET_put_bytes__ p v 2).
Definition put_mem (p : ptr) (off n : nat) : M bool :=
  b ← load p off n; writes (fun k => WPACKET_memcpy k b).
Definition put_vec_u8 (p : ptr) (n : nat) : M bool :=
  b ← load p 0 n; writes (fun k => WPACKET_sub_memcpy__ k b 1).

(** [a || b] for tests with effects: the second is made when the first holds. *)
Definition and_then (a b : M bool) : M bool := ok ← a; if ok : bool then b else mret false.

(** [print_hex_data] of a buffer *)
Definition print_hex_data (p : ptr) (off n : nat) : M unit :=
  if is_null p || (n =? 0)%nat then mret tt else b ← load p off n; modify (add_printed b).
Definition print_bytes (b : list Z) : M unit := modify (add_printed b).

(** [buf = EVP_PKEY_get1_encoded_public_key(..)]: a block of its own, and its
    size; none and 0 when the call fails. *)
Definition get1_encoded_public_key (call : kcall) (k : EVP_PKEY) : M (ptr * nat) :=
  if negb (call_ok call) then mret (NULL, 0%nat)
  else
    p ← OPENSSL_malloc (length (encoded_public_key k));
    if is_null p then mret (NULL, 0%nat)
    else store p 0 (encoded_public_key k);; mret (p, length (encoded_public_key k)).

(** [ecc_kyber_hybrid_keygen], [_encaps] and [_decaps] on blocks of the memory *)
Definition hybrid_keygen (S : Symmetric) (ecc : EVP_PKEY) (pk sk : ptr) : M Z :=
  b ← load pk 0 ECC_KYBER_HYBRID_PK_SIZE; d ← load sk 0 ECC_KYBER_HYBRID_SK_SIZE;
  match ecc_kyber_hybrid_keygen ec_ok ec_partial sampler_fuel (ec_private ecc) keygen_coins (Some b) (Some d) with
  | Some (mk_result r (Some b) (Some d) _) => store pk 0 b;; store sk 0 d;; mret r
  | _ => stuck Unfinished
  end.
Definition hybrid_encaps (S : Symmetric) (ss ct pk : ptr) (ctlen : nat) : M Z :=
  b ← load ss 0 KYBER_768_SS_SIZE; d ← load ct 0 ctlen;
  e ← load pk 0 ECC_KYBER_HYBRID_PK_SIZE;
  match ecc_kyber_hybrid_encaps sampler_fuel encaps_coins (Some b) (Some d) (Some e) with
  | Some (mk_result r (Some b) (Some d) _) => store ss 0 b;; store ct 0 d;; mret r
  | _ => stuck Unfinished
  end.
Definition hybrid_decaps (S : Symmetric) (ss : ptr) (ct : list Z) (sk : ptr) : M Z :=
  b ← load ss 0 KYBER_768_SS_SIZE; e ← load sk 0 ECC_KYBER_HYBRID_SK_SIZE;
  match ecc_kyber_hybrid_decaps sampler_fuel (Some b) (Some ct) (Some e) with
  | Some (mk_result r (Some b) _ _) => store ss 0 b;; mret r
  | _ => stuck Unfinished
  end.

(** ** Secrets *)

(** [ssl_generate_master_secret], for cipher suites without PSK: the secret is
    freed, or else cleared, whether or not the derivation succeeds, and the
    client forgets it. *)
Definition ssl_generate_master_secret (c : conn) (p : ptr) (n : nat) (free_pms : bool) : M bool :=
  b ← load p 0 n;
  let ret := call_ok C_generate_master_secret in
  (if ret
   then modify (set_master (Some (master_secret (client_random c ++ server_random c ++ b))))
   else SSLfatal_ntls SSL_AD_INTERNAL_ERROR);;
  (if is_null p then mret tt
   else if free_pms then OPENSSL_clear_free p n else store p 0 (repeat 0 n));;
  (if is_server c then mret tt else modify (set_pms NULL 0));;
  mret ret.

(** [ssl_gensecret], before TLS 1.3 *)
Definition ssl_gensecret (c : conn) (p : ptr) (n : nat) : M bool :=
  ssl_generate_master_secret c p n false.

(** [ssl_derive_ntls] with an ephemeral key.  What [s3.tmp.pms] pointed to
    before is not freed. *)
Definition derive_ecdhe (c : conn) (privkey pubkey : EVP_PKEY) (gensecret : bool) : M bool :=
  let kyber := has (algorithm_mkey c) SSL_kECDHEKyber in
  if (kyber && is_SM2 privkey && negb (call_ok C_alias_priv))
     || (kyber && is_SM2 pubkey && negb (call_ok C_alias_pub))
     || negb (call_ok C_CTX_new) || negb (call_ok C_derive_init)
     || negb (call_ok C_derive_set_peer) || negb (call_ok C_derive_size)
  then SSLfatal_ntls SSL_AD_INTERNAL_ERROR;; mret false
  else
    let secret := pkey_derive privkey pubkey in
    p ← OPENSSL_malloc (length secret);
    if is_null p then SSLfatal_ntls SSL_AD_INTERNAL_ERROR;; mret false
    else if negb (call_ok C_derive)
    then SSLfatal_ntls SSL_AD_INTERNAL_ERROR;; OPENSSL_clear_free p (length secret);; mret false
    else
      store p 0 secret;;
      if gensecret
      then rv ← ssl_gensecret c p (length secret); OPENSSL_clear_free p (length secret);; mret rv
      else modify (set_pms p (length secret));; mret true.

(** [ssl_derive_ntls] with the SM2 key exchange: the keys of the encryption
    certificates take part. *)
Definition derive_sm2 (c : conn) (privkey pubkey : EVP_PKEY) (gensecret : bool) : M bool :=
  let idx := if is_server c then 0%nat else 1%nat in
  match sm2_enc_key c, l ← peer_chain c; x ← l !! idx; X509_get0_pubkey x with
  | Some cert_priv, Some peer_cert_pub =>
      p ← OPENSSL_malloc SSL_MAX_MASTER_KEY_LENGTH;
      if is_null p then SSLfatal_ntls SSL_AD_INTERNAL_ERROR;; mret false
      else if negb (call_ok C_derive_init && call_ok C_derive_set_peer && call_ok C_derive)
      then SSLfatal_ntls SSL_AD_INTERNAL_ERROR;; OPENSSL_clear_free p SSL_MAX_MASTER_KEY_LENGTH;; mret false
      else
        let secret := sm2_exchange (is_server c) privkey cert_priv pubkey peer_cert_pub in
        store p 0 secret;;
        if gensecret
        then rv ← ssl_gensecret c p (length secret); OPENSSL_clear_free p (length secret);; mret rv
        else modify (set_pms p (length secret));; mret true
  | _, _ => SSLfatal_ntls SSL_AD_INTERNAL_ERROR;; mret false
  end.

Definition ssl_derive_ntls (c : conn) (privkey pubkey : option EVP_PKEY) (gensecret : bool) : M bool :=
  match privkey, pubkey with
  | Some privkey, Some pubkey =>
      if has (algorithm_mkey c) SSL_kECCKyber then
        p ← gets pms; n ← gets pmslen;
        if is_null p || (n =? 0)%nat then SSLfatal_ntls SSL_AD_INTERNAL_ERROR;; mret false
        else if gensecret then ssl_gensecret c p n else mret true
      else if has (algorithm_mkey c) (Z.lor SSL_kSM2DHE SSL_kECDHEKyber)
      then derive_ecdhe c privkey pubkey gensecret
      else derive_sm2 c privkey pubkey gensecret
  | _, _ => SSLfatal_ntls SSL_AD_INTERNAL_ERROR;; mret false
  end.

(** ** What is signed *)

(** [x509_to_asn1_ntls]: a length of three bytes and the certificate, for a
    certificate whose encoding does not change between the calls. *)
Definition x509_to_asn1_ntls (x : X509) : M (ptr * nat) :=
  if negb (call_ok C_i2d_X509) || (length (i2d_X509 x) =? 0)%nat then mret (NULL, 0%nat)
  else
    let n := length (i2d_X509 x) in
    buf ← OPENSSL_malloc (n + 3);
    if is_null buf then mret (NULL, 0%nat)
    else store buf 3 (i2d_X509 x);; store buf 0 (be_bytes 3 (Z.of_nat n));; mret (buf, (n + 3)%nat).

(** [construct_key_exchange_tbs_ntls]: the block and its size, 0 on failure *)
Definition construct_key_exchange_tbs_ntls (c : conn) (param : list Z) : M (ptr * nat) :=
  let tbslen := (2 * SSL3_RANDOM_SIZE + length param)%nat in
  tbs ← OPENSSL_malloc tbslen;
  if is_null tbs then SSLfatal_ntls SSL_AD_INTERNAL_ERROR;; mret (NULL, 0%nat)
  else
    store tbs 0 (client_random c);;
    store tbs SSL3_RANDOM_SIZE (server_random c);;
    store tbs (SSL3_RANDOM_SIZE * 2) param;;
    mret (tbs, tbslen).

(** The certificate of the peer's encryption key, [sk_X509_value(.., 1)] *)
Definition peer_enc_cert (c : conn) : option X509 :=
  match peer_chain c with Some l => l !! 1%nat | None => None end.

End State.
