(* ===== verification/KexClient.v ===== *)
(** * Key exchange messages: the client

    Processing of ServerKeyExchange and construction of ClientKeyExchange,
    [ssl/statem_ntls/ntls_statem_clnt.c], for all key exchanges of NTLS.  A
    [goto err] is a call of the function's [err] with the values that the local
    variables have there. *)

From S2P Require Import Prelude Buffers CMem Packet Wpacket KyberSymmetric HybridKem KexTypes.

Section Client.
Context {S : Symmetric} {C : Curve} {K : Crypto} {A : Alloc}.
Abbreviation M := (prog kex).

(** ** ServerKeyExchange

    A function that reads parameters returns the rest of the packet, or [None]
    for 0. *)

Definition tls_process_ske_ecckyber_ntls (c : conn) (pkt : PACKET) : M (option PACKET) :=
  let fail al := SSLfatal_ntls al;; mret None in
  r ← reads (PACKET_get_net_2 pkt);
  match r with
  | None => fail SSL_AD_DECODE_ERROR
  | Some (kyber_pk_len, pkt) =>
      if negb (kyber_pk_len =? Z.of_nat KYBER_768_PK_SIZE) then fail SSL_AD_DECODE_ERROR
      else match PACKET_get_bytes pkt kyber_pk_len with
      | None => fail SSL_AD_DECODE_ERROR
      | Some (kyber_pk_data, pkt) =>
          kyber_pk ← reads (bytes_at (base pkt) kyber_pk_data kyber_pk_len);
          print_bytes kyber_pk;;
          match peer_enc_cert c with
          | None => fail SSL_AD_INTERNAL_ERROR
          | Some enc_cert =>
              match X509_get0_pubkey enc_cert with
              | None => fail SSL_AD_INTERNAL_ERROR
              | Some ecc_pkey =>
                  if negb (call_ok C_get1_EC_KEY) then fail SSL_AD_INTERNAL_ERROR
                  else if negb (call_ok C_get0_group) then fail SSL_AD_INTERNAL_ERROR
                  else
                    ecc_pk ← OPENSSL_malloc ECC_PK_SIZE;
                    server_hybrid_pk ← OPENSSL_malloc ECC_KYBER_HYBRID_PK_SIZE;
                    if is_null ecc_pk || is_null server_hybrid_pk then
                      OPENSSL_free ecc_pk;; OPENSSL_free server_hybrid_pk;; fail SSL_AD_INTERNAL_ERROR
                    else if negb (call_ok C_point2oct
                                  && (length (point2oct (ec_public ecc_pkey)) =? ECC_PK_SIZE)%nat) then
                      OPENSSL_free ecc_pk;; OPENSSL_free server_hybrid_pk;; fail SSL_AD_INTERNAL_ERROR
                    else
                      store ecc_pk 0 (point2oct (ec_public ecc_pkey));;
                      print_hex_data ecc_pk 0 ECC_PK_SIZE;;
                      memcpy server_hybrid_pk 0 ecc_pk 0 ECC_PK_SIZE;;
                      store server_hybrid_pk ECC_PK_SIZE kyber_pk;;
                      print_hex_data server_hybrid_pk 0 ECC_KYBER_HYBRID_PK_SIZE;;
                      OPENSSL_free ecc_pk;;
                      old ← gets pms;
                      OPENSSL_free old;;
                      modify (set_pms server_hybrid_pk ECC_KYBER_HYBRID_PK_SIZE);;
                      modify (set_group 23);;
                      mret (Some pkt)
              end
          end
      end
  end.

(** The curve and the encoded point that begin the parameters with an
    ephemeral key.  [gid] is the group of which the key is made. *)
Definition read_ecdhe_params (gid : Z -> Z) (pkt : PACKET) : M (option PACKET) :=
  let fail al := SSLfatal_ntls al;; mret None in
  r ← reads (PACKET_get_1 pkt);
  match r with
  | None => fail SSL_AD_DECODE_ERROR
  | Some (_, pkt) =>
      r ← reads (PACKET_get_net_2 pkt);
      match r with
      | None => fail SSL_AD_DECODE_ERROR
      | Some (curve_id, pkt) =>
          modify (set_peer_tmp (generate_param_group (gid curve_id)));;
          match generate_param_group (gid curve_id) with
          | None => fail SSL_AD_INTERNAL_ERROR
          | Some params =>
              r ← reads (PACKET_get_length_prefixed_1 pkt);
              match r with
              | None => fail SSL_AD_DECODE_ERROR
              | Some (encoded_pt, pkt) =>
                  pt ← reads (bytes_at (base encoded_pt) (PACKET_data encoded_pt) (PACKET_remaining encoded_pt));
                  match set_encoded_public_key params pt with
                  | None => fail SSL_AD_ILLEGAL_PARAMETER
                  | Some k =>
                      modify (set_peer_tmp (Some k));; modify (set_group curve_id);; mret (Some pkt)
                  end
              end
          end
      end
  end.

Definition tls_process_ske_ecdhekyber_ntls (c : conn) (pkt : PACKET) : M (option PACKET) :=
  let fail al := SSLfatal_ntls al;; mret None in
  r ← read_ecdhe_params (fun curve_id => curve_id) pkt;
  match r with
  | None => mret None
  | Some pkt =>
      (* [err] frees [server_kyber_pk], which is null wherever the code goes there *)
      r ← reads (PACKET_get_net_2 pkt);
      match r with
      | None => fail SSL_AD_DECODE_ERROR
      | Some (kyber_pk_len, pkt) =>
          if negb (kyber_pk_len =? Z.of_nat KYBER_768_PK_SIZE) then fail SSL_AD_DECODE_ERROR
          else match PACKET_get_bytes pkt kyber_pk_len with
          | None => fail SSL_AD_DECODE_ERROR
          | Some (kyber_pk_data, pkt) =>
              kyber_pk ← reads (bytes_at (base pkt) kyber_pk_data kyber_pk_len);
              print_bytes kyber_pk;;
              server_kyber_pk ← OPENSSL_malloc KYBER_768_PK_SIZE;
              if is_null server_kyber_pk then fail SSL_AD_INTERNAL_ERROR
              else
                store server_kyber_pk 0 kyber_pk;;
                old ← gets pms;
                OPENSSL_free old;;
                modify (set_pms server_kyber_pk KYBER_768_PK_SIZE);;
                mret (Some pkt)
          end
      end
  end.

(** [print_kex_info_client_ske] for the key of [s3.peer_tmp] *)
Definition print_peer_tmp : M unit :=
  k ← gets peer_tmp;
  match k with
  | None => mret tt
  | Some k =>
      '(p, n) ← get1_encoded_public_key C_get1_encoded k;
      if is_null p || (n =? 0)%nat then mret tt else print_hex_data p 0 n;; OPENSSL_free p
  end.
Definition print_pms : M unit := p ← gets pms; n ← gets pmslen; print_hex_data p 0 n.
Definition print_kex_info_client_ske (alg_k : Z) : M unit :=
  if has alg_k SSL_kECCKyber then print_pms
  else if has alg_k SSL_kSM2DHE then print_peer_tmp
  else mret tt.

Definition tls_process_ske_sm2dhe_ntls (c : conn) (pkt : PACKET) : M (option PACKET) :=
  r ← read_ecdhe_params (fun _ => OSSL_TLS_GROUP_ID_sm2) pkt;
  match r with
  | None => mret None
  | Some pkt => print_kex_info_client_ske SSL_kSM2DHE;; mret (Some pkt)
  end.

(** The branch of [SSL_kKyberAigisEnc] *)
Definition process_ske_aigis (pkt : PACKET) : M (option PACKET) :=
  let fail al := SSLfatal_ntls al;; mret None in
  r ← reads (PACKET_get_net_2 pkt);
  match r with
  | None => fail SSL_AD_DECODE_ERROR
  | Some (aigis_pk_len, pkt) =>
      if PACKET_remaining pkt <? aigis_pk_len then fail SSL_AD_DECODE_ERROR
      else match PACKET_get_bytes pkt aigis_pk_len with
      | None => fail SSL_AD_DECODE_ERROR
      | Some (aigis_pk_data, pkt) =>
          b ← reads (bytes_at (base pkt) aigis_pk_data aigis_pk_len);
          mutable_pk ← OPENSSL_malloc (length b);
          (if is_null mutable_pk then mret tt else store mutable_pk 0 b);;
          if is_null mutable_pk || negb (call_ok C_CTX_new)
          then OPENSSL_free mutable_pk;; fail SSL_AD_INTERNAL_ERROR
          else match (if call_ok C_fromdata_init then aigis_from_public b else None) with
          | None => OPENSSL_free mutable_pk;; fail SSL_AD_INTERNAL_ERROR
          | Some aigis_pub => OPENSSL_free mutable_pk;; modify (set_aigis (Some aigis_pub));; mret (Some pkt)
          end
      end
  end.

(** The bytes between two positions of the packet *)
Definition params_between (save pkt : PACKET) : option PACKET :=
  match PACKET_get_sub_packet save (u64 (PACKET_remaining save - PACKET_remaining pkt)) with
  | Some (params, _) => Some params
  | None => None
  end.
Definition packet_bytes (p : PACKET) : M (list Z) :=
  reads (bytes_at (base p) (PACKET_data p) (PACKET_remaining p)).

(** The bytes that the signature covers, and the buffer that holds them if
    they are not a part of the packet.  [inl buf] is a [goto err]. *)
Definition signed_params (c : conn) (save pkt : PACKET) : M (ptr + (ptr * list Z)) :=
  let alg_k := algorithm_mkey c in
  let fail al buf := SSLfatal_ntls al;; mret (inl buf) in
  let in_packet :=
    match params_between save pkt with
    | None => fail SSL_AD_DECODE_ERROR NULL
    | Some params => b ← packet_bytes params; mret (inr (NULL, b))
    end in
  let certificate k :=
    match peer_enc_cert c with
    | None => fail SSL_AD_INTERNAL_ERROR NULL
    | Some x509 =>
        '(buf, buflen) ← x509_to_asn1_ntls x509;
        if is_null buf then fail SSL_AD_INTERNAL_ERROR NULL else k buf buflen
    end in
  let from_buf buf (buflen : nat) :=
    match PACKET_buf_init [] 0 (Z.of_nat buflen) with
    | None => fail SSL_AD_INTERNAL_ERROR buf
    | Some _ => b ← load buf 0 buflen; mret (inr (buf, b))
    end in
  if has alg_k SSL_kECCKyber then
    match params_between save pkt with
    | None => fail SSL_AD_DECODE_ERROR NULL
    | Some pq_kem_params =>
        certificate (fun buf (buflen : nat) =>
          let n := Z.to_nat (PACKET_remaining pq_kem_params) in
          combined ← OPENSSL_malloc (buflen + n);
          if is_null combined then OPENSSL_free buf;; fail SSL_AD_INTERNAL_ERROR buf
          else
            memcpy combined 0 buf 0 buflen;;
            b ← packet_bytes pq_kem_params;
            store combined buflen b;;
            OPENSSL_free buf;;
            from_buf combined (buflen + n)%nat)
    end
  else if has alg_k SSL_kECDHEKyber then in_packet
  else if has alg_k SSL_kKyberAigisEnc then in_packet
  else if has alg_k SSL_kKyber then certificate from_buf
  else if has alg_k SSL_kSM2DHE then in_packet
  else if has alg_k (Z.lor SSL_kSM2 SSL_kRSA) then certificate from_buf
  else fail SSL_AD_INTERNAL_ERROR NULL.

(** The signature over the parameters, whether it is good. *)
Definition check_signature (c : conn) (pkey : EVP_PKEY) (save pkt : PACKET) : M bool :=
  let err buf := OPENSSL_free buf;; mret false in
  let fail al buf := SSLfatal_ntls al;; err buf in
  r ← signed_params c save pkt;
  match r with
  | inl buf => err buf
  | inr (buf, params) =>
      if negb (call_ok C_set_peer_sigalg) || negb (call_ok C_lookup_md)
      then fail SSL_AD_INTERNAL_ERROR buf
      else
        r ← reads (PACKET_get_length_prefixed_2 pkt);
        match r with
        | None => fail SSL_AD_DECODE_ERROR buf
        | Some (signature, pkt) =>
            if negb (PACKET_remaining pkt =? 0) then fail SSL_AD_DECODE_ERROR buf
            else if negb (call_ok C_MD_CTX_new) || negb (call_ok C_verify_init)
                    || (is_SM2 pkey && negb (call_ok C_set1_id))
            then fail SSL_AD_INTERNAL_ERROR buf
            else
              '(tbs, tbslen) ← construct_key_exchange_tbs_ntls c params;
              if (tbslen =? 0)%nat then err buf
              else
                OPENSSL_free buf;;
                sig ← packet_bytes signature;
                t ← load tbs 0 tbslen;
                OPENSSL_free tbs;;
                if verify pkey sig t then mret true else fail SSL_AD_DECRYPT_ERROR NULL
        end
  end.

(** The parameters, by key exchange *)
Definition process_ske_params (c : conn) (pkt : PACKET) : M (option PACKET) :=
  let alg_k := algorithm_mkey c in
  if has alg_k SSL_kECCKyber then tls_process_ske_ecckyber_ntls c pkt
  else if has alg_k SSL_kECDHEKyber then tls_process_ske_ecdhekyber_ntls c pkt
  else if has alg_k SSL_kKyberAigisEnc then process_ske_aigis pkt
  else if has alg_k SSL_kKyber then mret (Some pkt)
  else if has alg_k SSL_kSM2DHE then tls_process_ske_sm2dhe_ntls c pkt
  else mret (Some pkt).

(** [MSG_PROCESS_CONTINUE_READING] is true. *)
Definition tls_process_key_exchange_ntls (c : conn) (pkt : PACKET) : M bool :=
  let alg_k := algorithm_mkey c in
  modify (set_peer_tmp None);; modify (set_aigis None);;
  r ← process_ske_params c pkt;
  match r with
  | None => mret false
  | Some pkt' =>
      match x ← session_peer c; X509_get0_pubkey x with
      | None => SSLfatal_ntls SSL_AD_DECODE_ERROR;; mret false
      | Some pkey =>
          ok ← check_signature c pkey pkt pkt';
          if negb ok then mret false else print_kex_info_client_ske alg_k;; mret true
      end
  end.

(** ** ClientKeyExchange *)

(** The premaster secret encrypted under [key] into the packet: the length of
    the ciphertext is asked for, that much is reserved, the ciphertext written
    there and its actual length allocated, at the same place. *)
Definition put_encrypted (key : EVP_PKEY) (p : ptr) (n : nat) : M bool :=
  if negb (call_ok C_encrypt_size) then mret false
  else
    pkt ← gets k_pkt;
    let enclen := Z.of_nat (pkey_encrypt_size key n) in
    let '(ok, encbytes1, pkt) := WPACKET_sub_reserve_bytes__ pkt enclen 2 in
    modify (set_pkt pkt);;
    if negb ok then mret false
    else if negb (call_ok C_encrypt) then mret false
    else
      b ← load p 0 n;
      let ct := pkey_encrypt key b in
      pkt ← reads (match encbytes1 with Some (_, off) => write_at pkt off ct | None => Val pkt end);
      '(ok, encbytes2, pkt) ← reads (WPACKET_sub_allocate_bytes__ pkt (Z.of_nat (length ct)) 2);
      modify (set_pkt pkt);;
      mret (ok && bool_decide (encbytes1 = encbytes2)).

(** The two version bytes and the random bytes of a premaster secret *)
Definition fill_pms (c : conn) (p : ptr) : M bool :=
  store p 0 [u8 (Z.shiftr (client_version c) 8)];;
  store p 1 [u8 (Z.land (client_version c) 0xff)];;
  if negb (call_ok C_RAND_bytes) then mret false else store p 2 premaster_random;; mret true.

Definition tls_construct_cke_pms_ntls (c : conn) (alg_k : Z) : M bool :=
  let fail al ret := SSLfatal_ntls al;; ret in
  match peer_enc_cert c with
  | None => fail SSL_AD_INTERNAL_ERROR (mret false)
  | Some x509 =>
      let pkey := X509_get0_pubkey x509 in
      let is_a f := match pkey with Some k => f k | None => false end in
      if (has alg_k SSL_kRSA && negb (is_a is_RSA)) || (has alg_k SSL_kSM2 && negb (is_a is_SM2))
      then fail SSL_AD_INTERNAL_ERROR (mret false)
      else
        let pmslen := SSL_MAX_MASTER_KEY_LENGTH in
        p ← OPENSSL_malloc pmslen;
        if is_null p then fail SSL_AD_INTERNAL_ERROR (mret false)
        else
          let err := OPENSSL_clear_free p pmslen;; mret false in
          ok ← fill_pms c p;
          if negb ok then fail SSL_AD_INTERNAL_ERROR err
          else
            (if has alg_k SSL_kSM2 || has alg_k SSL_kRSA then print_hex_data p 0 pmslen else mret tt);;
            match pkey with
            | None => fail SSL_AD_INTERNAL_ERROR err
            | Some pkey =>
                '(pub, publen) ← get1_encoded_public_key C_get1_encoded pkey;
                (if is_null pub || (publen =? 0)%nat then mret tt
                 else (if has alg_k SSL_kSM2 || has alg_k SSL_kRSA then print_hex_data pub 0 publen else mret tt);;
                      OPENSSL_free pub);;
                if negb (call_ok C_CTX_new) || negb (call_ok C_encrypt_init)
                then fail SSL_AD_INTERNAL_ERROR err
                else if has alg_k SSL_kRSA && negb (call_ok C_rsa_padding)
                then fail SSL_AD_INTERNAL_ERROR err
                else
                  ok ← put_encrypted pkey p pmslen;
                  if negb ok then fail SSL_AD_INTERNAL_ERROR err
                  else if has alg_k SSL_kRSA && negb (call_ok C_log_rsa)
                  then fail SSL_AD_INTERNAL_ERROR err
                  else modify (set_pms p pmslen);; mret true
            end
  end.

(** The local variables at [err]: [pms], [kyber_ct], [kyber_ss], [hybrid_ss]. *)
Definition tls_construct_cke_ecckyber_ntls (c : conn) : M bool :=
  let pmslen_ := SSL_MAX_MASTER_KEY_LENGTH in
  let err (ret : bool) p kyber_ct kyber_ss hybrid_ss :=
    OPENSSL_clear_free p pmslen_;;
    OPENSSL_clear_free kyber_ct ECC_KYBER_HYBRID_CT_SIZE;;
    OPENSSL_clear_free kyber_ss KYBER_768_SS_SIZE;;
    OPENSSL_clear_free hybrid_ss ECC_KYBER_HYBRID_SS_SIZE;;
    mret ret in
  let fail p kyber_ct kyber_ss hybrid_ss :=
    SSLfatal_ntls SSL_AD_INTERNAL_ERROR;; err false p kyber_ct kyber_ss hybrid_ss in
  server_hybrid_pk ← gets pms; n ← gets pmslen;
  if is_null server_hybrid_pk || negb (n =? ECC_KYBER_HYBRID_PK_SIZE)%nat then fail NULL NULL NULL NULL
  else
    match x ← peer_enc_cert c; X509_get0_pubkey x with
    | None => fail NULL NULL NULL NULL
    | Some pkey =>
        if negb (is_SM2 pkey) then fail NULL NULL NULL NULL
        else
          p ← OPENSSL_malloc pmslen_;
          if is_null p then fail NULL NULL NULL NULL
          else
            ok ← fill_pms c p;
            if negb ok then fail p NULL NULL NULL
            else
              print_hex_data p 0 pmslen_;;
              if negb (call_ok C_CTX_new) || negb (call_ok C_encrypt_init) then fail p NULL NULL NULL
              else
                ok ← put_encrypted pkey p pmslen_;
                if negb ok then fail p NULL NULL NULL
                else
                  kyber_ct ← OPENSSL_malloc ECC_KYBER_HYBRID_CT_SIZE;
                  kyber_ss ← OPENSSL_malloc KYBER_768_SS_SIZE;
                  if is_null kyber_ct || is_null kyber_ss then
                    OPENSSL_free kyber_ct;; OPENSSL_free kyber_ss;; fail p kyber_ct kyber_ss NULL
                  else
                    r ← hybrid_encaps S kyber_ss kyber_ct server_hybrid_pk ECC_KYBER_HYBRID_CT_SIZE;
                    if r =? 0 then
                      OPENSSL_clear_free kyber_ct ECC_KYBER_HYBRID_CT_SIZE;;
                      OPENSSL_clear_free kyber_ss KYBER_768_SS_SIZE;;
                      fail p kyber_ct kyber_ss NULL
                    else
                      print_hex_data kyber_ct 0 ECC_KYBER_HYBRID_CT_SIZE;;
                      print_hex_data kyber_ss 0 KYBER_768_SS_SIZE;;
                      ok ← and_then (put_u16 (Z.of_nat ECC_KYBER_HYBRID_CT_SIZE))
                                    (put_mem kyber_ct 0 ECC_KYBER_HYBRID_CT_SIZE);
                      if negb ok then
                        OPENSSL_clear_free kyber_ct ECC_KYBER_HYBRID_CT_SIZE;;
                        OPENSSL_clear_free kyber_ss KYBER_768_SS_SIZE;;
                        fail p kyber_ct kyber_ss NULL
                      else
                        hybrid_ss ← OPENSSL_malloc ECC_KYBER_HYBRID_SS_SIZE;
                        if is_null hybrid_ss then fail p kyber_ct kyber_ss NULL
                        else
                          memcpy hybrid_ss 0 p 0 pmslen_;;
                          memcpy hybrid_ss pmslen_ kyber_ss 0 KYBER_768_SS_SIZE;;
                          print_hex_data hybrid_ss 0 ECC_KYBER_HYBRID_SS_SIZE;;
                          old ← gets pms; oldlen ← gets pmslen;
                          OPENSSL_clear_free old oldlen;;
                          modify (set_pms hybrid_ss ECC_KYBER_HYBRID_SS_SIZE);;
                          OPENSSL_clear_free p pmslen_;;
                          OPENSSL_free kyber_ct;;
                          OPENSSL_clear_free kyber_ss KYBER_768_SS_SIZE;;
                          err true NULL NULL NULL NULL
    end.

(** The local variables that [err] frees. *)
Record ecdhe_locals := mk_locals {
  l_encodedPoint : ptr;
  l_enc_cert_pub : ptr;
  l_server_ec_pt : ptr;
  l_hybrid_pk_tmp : ptr;
  l_kyber_pk_copy : ptr;
  l_kyber_ct : ptr;
  l_kyber_ss : ptr }.

(** The second half: the Kyber part and the combination, after the point has
    been sent. *)
Definition cke_ecdhekyber_kem (c : conn) (l : ecdhe_locals) (ecdhe_ss : ptr) (ecdhe_ss_len : nat)
    (err : bool -> ecdhe_locals -> M bool) : M bool :=
  let fail l := SSLfatal_ntls SSL_AD_INTERNAL_ERROR;; err false l in
  kyber_ct ← OPENSSL_malloc KYBER_768_CT_SIZE;
  kyber_ss ← OPENSSL_malloc KYBER_768_SS_SIZE;
  let l := mk_locals (l_encodedPoint l) NULL (l_server_ec_pt l) NULL (l_kyber_pk_copy l)
             kyber_ct kyber_ss in
  if is_null kyber_ct || is_null kyber_ss
  then OPENSSL_free kyber_ct;; OPENSSL_free kyber_ss;; fail l
  else
    hybrid_pk_tmp ← OPENSSL_malloc ECC_KYBER_HYBRID_PK_SIZE;
    let l := mk_locals (l_encodedPoint l) NULL (l_server_ec_pt l) hybrid_pk_tmp (l_kyber_pk_copy l)
               kyber_ct kyber_ss in
    if is_null hybrid_pk_tmp then fail l
    else
      match x ← peer_enc_cert c; X509_get0_pubkey x with
      | None => fail l
      | Some server_enc_pkey =>
          '(pub, publen) ← get1_encoded_public_key C_get1_encoded_2 server_enc_pkey;
          let l := mk_locals (l_encodedPoint l) pub (l_server_ec_pt l) hybrid_pk_tmp (l_kyber_pk_copy l)
                     kyber_ct kyber_ss in
          if negb (publen =? ECC_PK_SIZE)%nat then fail l
          else
            memcpy hybrid_pk_tmp 0 pub 0 ECC_PK_SIZE;;
            memcpy hybrid_pk_tmp ECC_PK_SIZE (l_kyber_pk_copy l) 0 KYBER_768_PK_SIZE;;
            r ← hybrid_encaps S kyber_ss kyber_ct hybrid_pk_tmp KYBER_768_CT_SIZE;
            if r =? 0 then fail l
            else
              OPENSSL_clear_free hybrid_pk_tmp ECC_KYBER_HYBRID_PK_SIZE;;
              let l := mk_locals (l_encodedPoint l) pub (l_server_ec_pt l) NULL (l_kyber_pk_copy l)
                         kyber_ct kyber_ss in
              ok ← and_then (put_u16 (Z.of_nat KYBER_768_CT_SIZE)) (put_mem kyber_ct 0 KYBER_768_CT_SIZE);
              if negb ok then fail l
              else
                let combined_ss_len := (ecdhe_ss_len + KYBER_768_SS_SIZE)%nat in
                combined_ss ← OPENSSL_malloc combined_ss_len;
                if is_null combined_ss then fail l
                else
                  memcpy combined_ss 0 ecdhe_ss 0 ecdhe_ss_len;;
                  memcpy combined_ss ecdhe_ss_len kyber_ss 0 KYBER_768_SS_SIZE;;
                  old ← gets pms; oldlen ← gets pmslen;
                  OPENSSL_clear_free old oldlen;;
                  modify (set_pms combined_ss combined_ss_len);;
                  OPENSSL_clear_free kyber_ct KYBER_768_CT_SIZE;;
                  OPENSSL_clear_free kyber_ss KYBER_768_SS_SIZE;;
                  err true (mk_locals (l_encodedPoint l) pub (l_server_ec_pt l) NULL (l_kyber_pk_copy l)
                              NULL NULL)
      end.

Definition tls_construct_cke_ecdhekyber_ntls (c : conn) : M bool :=
  let err (ret : bool) (l : ecdhe_locals) :=
    OPENSSL_free (l_encodedPoint l);;
    OPENSSL_free (l_enc_cert_pub l);;
    OPENSSL_free (l_server_ec_pt l);;
    OPENSSL_clear_free (l_hybrid_pk_tmp l) ECC_KYBER_HYBRID_PK_SIZE;;
    OPENSSL_clear_free (l_kyber_pk_copy l) KYBER_768_PK_SIZE;;
    OPENSSL_clear_free (l_kyber_ct l) KYBER_768_CT_SIZE;;
    OPENSSL_clear_free (l_kyber_ss l) KYBER_768_SS_SIZE;;
    mret ret in
  let fail al l := SSLfatal_ntls al;; err false l in
  let locals encodedPoint server_ec_pt copy :=
    mk_locals encodedPoint NULL server_ec_pt NULL copy NULL NULL in
  skey ← gets peer_tmp;
  match skey with
  | None => SSLfatal_ntls SSL_AD_INTERNAL_ERROR;; mret false
  | Some skey =>
      server_kyber_pk ← gets pms; n ← gets pmslen;
      if is_null server_kyber_pk || negb (n =? KYBER_768_PK_SIZE)%nat
      then SSLfatal_ntls SSL_AD_INTERNAL_ERROR;; mret false
      else
        copy ← OPENSSL_malloc KYBER_768_PK_SIZE;
        if is_null copy then fail SSL_AD_INTERNAL_ERROR (locals NULL NULL NULL)
        else
          memcpy copy 0 server_kyber_pk 0 KYBER_768_PK_SIZE;;
          print_hex_data copy 0 KYBER_768_PK_SIZE;;
          let curve_id := shared_group c in
          if curve_id =? 0 then fail SSL_AD_HANDSHAKE_FAILURE (locals NULL NULL copy)
          else if negb (call_ok C_generate_key) then fail SSL_AD_INTERNAL_ERROR (locals NULL NULL copy)
          else
            let ckey := generate_pkey_group curve_id in
            '(pt, ptlen) ← get1_encoded_public_key C_get1_encoded skey;
            if (ptlen =? 0)%nat then fail SSL_AD_INTERNAL_ERROR (locals NULL pt copy)
            else
              ptb ← load pt 0 ptlen;
              match (if call_ok C_EVP_PKEY_new && call_ok C_copy_parameters
                     then set_encoded_public_key ckey ptb else None) with
              | None => fail SSL_AD_INTERNAL_ERROR (locals NULL pt copy)
              | Some skey_ec =>
                  ok ← ssl_derive_ntls c (Some ckey) (Some skey_ec) false;
                  if negb ok then err false (locals NULL pt copy)
                  else
                    ecdhe_ss ← gets pms; ecdhe_ss_len ← gets pmslen;
                    if is_null ecdhe_ss || (ecdhe_ss_len =? 0)%nat
                    then fail SSL_AD_INTERNAL_ERROR (locals NULL pt copy)
                    else
                      '(ep, eplen) ← get1_encoded_public_key C_get1_encoded_3 ckey;
                      if (eplen =? 0)%nat then fail SSL_AD_INTERNAL_ERROR (locals ep pt copy)
                      else
                        ok ← and_then (put_u8 NAMED_CURVE_TYPE)
                               (and_then (put_u16 curve_id) (put_vec_u8 ep eplen));
                        if negb ok then fail SSL_AD_INTERNAL_ERROR (locals ep pt copy)
                        else cke_ecdhekyber_kem c (locals ep pt copy) ecdhe_ss ecdhe_ss_len err
              end
  end.

Definition tls_construct_cke_sm2dhe_ntls (c : conn) : M bool :=
  let err (ret : bool) encodedPoint := OPENSSL_free encodedPoint;; mret ret in
  let fail al p := SSLfatal_ntls al;; err false p in
  skey ← gets peer_tmp;
  match skey with
  | None => SSLfatal_ntls SSL_AD_INTERNAL_ERROR;; mret false
  | Some skey =>
      if negb (call_ok C_generate_key) then fail SSL_AD_INTERNAL_ERROR NULL
      else
        let ckey := generate_pkey skey in
        ok ← ssl_derive_ntls c (Some ckey) (Some skey) false;
        if negb ok then err false NULL
        else
          '(ep, eplen) ← get1_encoded_public_key C_get1_encoded ckey;
          if (eplen =? 0)%nat then fail SSL_AD_INTERNAL_ERROR ep
          else
            ok ← and_then (put_u8 NAMED_CURVE_TYPE)
                   (and_then (put_u8 0) (and_then (put_u8 (shared_group c)) (put_vec_u8 ep eplen)));
            if negb ok then fail SSL_AD_INTERNAL_ERROR ep else err true ep
  end.

(** An encapsulation through EVP: the sizes, the two buffers and their
    contents.  The buffers are also returned when the call fails. *)
Definition encapsulate (ctx init size call : kcall) (pub : EVP_PKEY) : M (bool * ptr * ptr) :=
  if negb (call_ok ctx && call_ok init && call_ok size)
     || (kem_ct_size pub =? 0)%nat || (kem_ss_size pub =? 0)%nat
  then SSLfatal_ntls SSL_AD_INTERNAL_ERROR;; mret (false, NULL, NULL)
  else
    ct ← OPENSSL_malloc (kem_ct_size pub);
    ss ← OPENSSL_malloc (kem_ss_size pub);
    if is_null ct || is_null ss || negb (call_ok call)
    then SSLfatal_ntls SSL_AD_INTERNAL_ERROR;; mret (false, ct, ss)
    else
      store ct 0 (kem_encapsulate pub).1;; store ss 0 (kem_encapsulate pub).2;;
      mret (true, ct, ss).

(** The sizes are those that the size query gave. *)
Definition tls_construct_cke_kyber_aigis_enc_dilithium_ntls (c : conn) : M bool :=
  match peer_enc_cert c with
  | None => SSLfatal_ntls SSL_AD_INTERNAL_ERROR;; mret false
  | Some enc_cert =>
      aigis ← gets aigis_kem_pkey;
      match X509_get0_pubkey enc_cert, aigis with
      | Some enc_pub, Some aigis_pub =>
          let err (ret : bool) ct_k ct_a ss_k ss_a combined :=
            OPENSSL_free ct_k;; OPENSSL_free ct_a;;
            OPENSSL_clear_free ss_k (kem_ss_size enc_pub);;
            OPENSSL_clear_free ss_a (kem_ss_size aigis_pub);;
            OPENSSL_clear_free combined (kem_ss_size enc_pub + kem_ss_size aigis_pub);;
            mret ret in
          '(ok, ct_k, ss_k) ← encapsulate C_CTX_new C_encapsulate_init C_encapsulate_size C_encapsulate enc_pub;
          if negb ok then err false ct_k NULL ss_k NULL NULL
          else
            '(ok, ct_a, ss_a) ← encapsulate C_CTX_new_2 C_encapsulate_init_2 C_encapsulate_size_2
                                  C_encapsulate_2 aigis_pub;
            if negb ok then err false ct_k ct_a ss_k ss_a NULL
            else
              let n := kem_ss_size enc_pub in let m := kem_ss_size aigis_pub in
              combined ← OPENSSL_malloc (n + m);
              if is_null combined
              then SSLfatal_ntls SSL_AD_INTERNAL_ERROR;; err false ct_k ct_a ss_k ss_a NULL
              else
                memcpy combined 0 ss_k 0 n;; memcpy combined n ss_a 0 m;;
                OPENSSL_clear_free ss_k n;; OPENSSL_clear_free ss_a m;;
                ok ← and_then (put_u16 (Z.of_nat (kem_ct_size enc_pub)))
                       (and_then (put_mem ct_k 0 (kem_ct_size enc_pub))
                         (and_then (put_u16 (Z.of_nat (kem_ct_size aigis_pub)))
                                   (put_mem ct_a 0 (kem_ct_size aigis_pub))));
                if negb ok
                then SSLfatal_ntls SSL_AD_INTERNAL_ERROR;; err false ct_k ct_a NULL NULL combined
                else
                  old ← gets pms; oldlen ← gets pmslen;
                  OPENSSL_clear_free old oldlen;;
                  modify (set_pms combined (n + m));;
                  err true ct_k ct_a NULL NULL NULL
      | _, _ => SSLfatal_ntls SSL_AD_INTERNAL_ERROR;; mret false
      end
  end.

Definition tls_construct_cke_kyber_dilithium_ntls (c : conn) : M bool :=
  match x ← peer_enc_cert c; X509_get0_pubkey x with
  | None => SSLfatal_ntls SSL_AD_INTERNAL_ERROR;; mret false
  | Some enc_pub =>
      let err (ret : bool) ct ss := OPENSSL_free ct;; OPENSSL_clear_free ss (kem_ss_size enc_pub);; mret ret in
      '(ok, ct, ss) ← encapsulate C_CTX_new C_encapsulate_init C_encapsulate_size C_encapsulate enc_pub;
      if negb ok then err false ct ss
      else
        ok ← and_then (put_u16 (Z.of_nat (kem_ct_size enc_pub))) (put_mem ct 0 (kem_ct_size enc_pub));
        if negb ok then SSLfatal_ntls SSL_AD_INTERNAL_ERROR;; err false ct ss
        else
          old ← gets pms; oldlen ← gets pmslen;
          OPENSSL_clear_free old oldlen;;
          modify (set_pms ss (kem_ss_size enc_pub));;
          err true ct NULL
  end.

Definition print_kex_info_client_cke (alg_k : Z) : M unit :=
  if has alg_k SSL_kECCKyber then print_pms
  else if has alg_k (Z.lor SSL_kRSA SSL_kSM2) then mret tt
  else if has alg_k SSL_kSM2DHE then print_pms
  else mret tt.

Definition tls_construct_client_key_exchange_ntls (c : conn) : M bool :=
  let alg_k := algorithm_mkey c in
  ok ← (if has alg_k (Z.lor SSL_kRSA SSL_kSM2) then tls_construct_cke_pms_ntls c alg_k
        else if has alg_k SSL_kECCKyber then tls_construct_cke_ecckyber_ntls c
        else if has alg_k SSL_kECDHEKyber then tls_construct_cke_ecdhekyber_ntls c
        else if has alg_k SSL_kKyberAigisEnc then tls_construct_cke_kyber_aigis_enc_dilithium_ntls c
        else if has alg_k SSL_kKyber then tls_construct_cke_kyber_dilithium_ntls c
        else if has alg_k SSL_kSM2DHE then tls_construct_cke_sm2dhe_ntls c
        else SSLfatal_ntls SSL_AD_HANDSHAKE_FAILURE;; mret false);
  if ok : bool then print_kex_info_client_cke alg_k;; mret true
  else
    p ← gets pms; n ← gets pmslen;
    OPENSSL_clear_free p n;; modify (set_pms NULL 0);; mret false.

Definition tls_client_key_exchange_post_work_ntls (c : conn) : M bool :=
  p ← gets pms; n ← gets pmslen;
  let err q m := OPENSSL_clear_free q m;; modify (set_pms NULL 0);; mret false in
  if is_null p then SSLfatal_ntls SSL_AD_INTERNAL_ERROR;; err p n
  else
    ok ← ssl_generate_master_secret c p n true;
    if negb ok then err NULL 0%nat else mret true.

End Client.
