(* ===== verification/KexServer.v ===== *)
(** * Key exchange messages: the server

    Construction of ServerKeyExchange and processing of ClientKeyExchange,
    [ssl/statem_ntls/ntls_statem_srvr.c], for all key exchanges of NTLS, in a
    build with [OPENSSL_NO_STATUS]. *)

From S2P Require Import Prelude Buffers CMem Packet Wpacket KyberSymmetric HybridKem KexTypes.

Section Server.
Context {S : Symmetric} {C : Curve} {K : Crypto} {A : Alloc}.
Abbreviation M := (prog kex).

(** ** ServerKeyExchange

    Each part of [tls_construct_server_key_exchange_ntls] that writes
    parameters returns whether it succeeded and the value of [encodedPoint],
    which the function frees at its end. *)

Definition ske_aigis : M bool :=
  let fail := SSLfatal_ntls SSL_AD_INTERNAL_ERROR;; mret false in
  modify (set_aigis None);;
  if negb (call_ok C_CTX_new) || negb (call_ok C_aigis_keygen) then fail
  else
    let aigis_kp := aigis_generate in
    let publen := length (encoded_public_key aigis_kp) in
    if negb (call_ok C_aigis_public_size) || (publen =? 0)%nat then fail
    else
      pub_raw ← OPENSSL_malloc publen;
      if is_null pub_raw then fail
      else if negb (call_ok C_aigis_public) then OPENSSL_free pub_raw;; fail
      else
        store pub_raw 0 (encoded_public_key aigis_kp);;
        ok ← and_then (put_u16 (Z.of_nat publen)) (put_mem pub_raw 0 publen);
        if negb ok then OPENSSL_free pub_raw;; fail
        else OPENSSL_free pub_raw;; modify (set_aigis (Some aigis_kp));; mret true.

(** The blocks [hybrid_pk] and [kyber_pk] are left behind. *)
Definition ske_ecckyber (c : conn) : M bool :=
  let fail := SSLfatal_ntls SSL_AD_INTERNAL_ERROR;; mret false in
  k ← gets tmp_pkey;
  match k with
  | Some _ => fail
  | None =>
      match sm2_enc_x509 c, sm2_enc_key c with
      | Some _, Some ecc_pkey =>
          hybrid_pk ← OPENSSL_malloc ECC_KYBER_HYBRID_PK_SIZE;
          hybrid_sk ← OPENSSL_malloc ECC_KYBER_HYBRID_SK_SIZE;
          kyber_pk ← OPENSSL_malloc KYBER_768_PK_SIZE;
          let free_all := OPENSSL_free hybrid_pk;; OPENSSL_free hybrid_sk;; OPENSSL_free kyber_pk in
          if is_null hybrid_pk || is_null hybrid_sk || is_null kyber_pk then free_all;; fail
          else
            r ← hybrid_keygen S ecc_pkey hybrid_pk hybrid_sk;
            if r =? 0 then free_all;; fail
            else
              memcpy kyber_pk 0 hybrid_pk ECC_PK_SIZE KYBER_768_PK_SIZE;;
              print_hex_data hybrid_pk 0 ECC_KYBER_HYBRID_PK_SIZE;;
              print_hex_data hybrid_sk 0 ECC_KYBER_HYBRID_SK_SIZE;;
              print_hex_data kyber_pk 0 KYBER_768_PK_SIZE;;
              modify (set_group (if shared_group c =? 0 then 23 else shared_group c));;
              ok ← and_then (put_u16 (Z.of_nat KYBER_768_PK_SIZE)) (put_mem kyber_pk 0 KYBER_768_PK_SIZE);
              if negb ok then free_all;; fail
              else
                old ← gets pms; oldlen ← gets pmslen;
                OPENSSL_clear_free old oldlen;;
                modify (set_pms hybrid_sk ECC_KYBER_HYBRID_SK_SIZE);;
                mret true
      | _, _ => fail
      end
  end.

(** The curve, a fresh key for it and its encoded point: [put_curve] writes
    the two bytes of the curve.  [inl] when the key or the point failed; else
    whether the packet was written; both with [encodedPoint]. *)
Definition ske_ephemeral (c : conn) (put_curve : M bool) : M (ptr + bool * ptr) :=
  let fail al p := SSLfatal_ntls al;; mret (inl p) in
  if shared_group c =? 0 then fail SSL_AD_HANDSHAKE_FAILURE NULL
  else
    modify (set_group (shared_group c));;
    if negb (call_ok C_generate_key) then modify (set_tmp_pkey None);; fail SSL_AD_INTERNAL_ERROR NULL
    else
      let k := generate_pkey_group (shared_group c) in
      modify (set_tmp_pkey (Some k));;
      '(encodedPoint, encodedlen) ← get1_encoded_public_key C_get1_encoded k;
      if (encodedlen =? 0)%nat then fail SSL_AD_INTERNAL_ERROR encodedPoint
      else
        ok ← and_then (put_u8 NAMED_CURVE_TYPE) (and_then put_curve (put_vec_u8 encodedPoint encodedlen));
        mret (inr (ok, encodedPoint)).

Definition print_kex_info_server_ske (alg_k : Z) : M unit :=
  if has alg_k SSL_kECCKyber then mret tt
  else if has alg_k SSL_kSM2DHE then
    k ← gets tmp_pkey;
    match k with
    | None => mret tt
    | Some k =>
        '(p, n) ← get1_encoded_public_key C_get1_encoded_2 k;
        if is_null p || (n =? 0)%nat then mret tt else print_hex_data p 0 n;; OPENSSL_free p
    end
  else mret tt.

Definition ske_ecdhekyber (c : conn) : M (bool * ptr) :=
  let fail p := SSLfatal_ntls SSL_AD_INTERNAL_ERROR;; mret (false, p) in
  k ← gets tmp_pkey;
  match k, sm2_enc_key c with
  | None, Some ecc_pkey =>
      r ← ske_ephemeral c (put_u16 (shared_group c));
      match r with
      | inl encodedPoint => mret (false, encodedPoint)
      | inr (false, encodedPoint) => OPENSSL_free encodedPoint;; fail encodedPoint
      | inr (true, encodedPoint) =>
          OPENSSL_free encodedPoint;;
          hybrid_pk ← OPENSSL_malloc ECC_KYBER_HYBRID_PK_SIZE;
          hybrid_sk ← OPENSSL_malloc ECC_KYBER_HYBRID_SK_SIZE;
          let free_all := OPENSSL_free hybrid_pk;; OPENSSL_free hybrid_sk in
          if is_null hybrid_pk || is_null hybrid_sk then free_all;; fail NULL
          else
            r ← hybrid_keygen S ecc_pkey hybrid_pk hybrid_sk;
            if r =? 0 then free_all;; fail NULL
            else
              print_hex_data hybrid_pk ECC_PK_SIZE KYBER_768_PK_SIZE;;
              ok ← and_then (put_u16 (Z.of_nat KYBER_768_PK_SIZE))
                            (put_mem hybrid_pk ECC_PK_SIZE KYBER_768_PK_SIZE);
              if negb ok then free_all;; fail NULL
              else
                old ← gets pms; oldlen ← gets pmslen;
                OPENSSL_clear_free old oldlen;;
                modify (set_pms hybrid_sk ECC_KYBER_HYBRID_SK_SIZE);;
                OPENSSL_free hybrid_pk;;
                print_kex_info_server_ske (algorithm_mkey c);;
                mret (true, NULL)
      end
  | _, _ => fail NULL
  end.

Definition ske_sm2dhe (c : conn) : M (bool * ptr) :=
  let fail p := SSLfatal_ntls SSL_AD_INTERNAL_ERROR;; mret (false, p) in
  k ← gets tmp_pkey;
  match k with
  | Some _ => fail NULL
  | None =>
      r ← ske_ephemeral c (and_then (put_u8 0) (put_u8 (shared_group c)));
      match r with
      | inl encodedPoint => mret (false, encodedPoint)
      | inr (false, encodedPoint) => fail encodedPoint
      | inr (true, encodedPoint) =>
          OPENSSL_free encodedPoint;; print_kex_info_server_ske (algorithm_mkey c);; mret (true, NULL)
      end
  end.

(** ** The signature *)

(** [n] bytes at [s->init_buf->data + off] *)
Definition init_buf_bytes (off n : Z) : M (list Z) :=
  p ← gets k_pkt; reads (bytes_at (match GETBUF p with Some (_, d) => d | None => [] end) off n).

(** The signing key and the certificate that is signed, by key exchange *)
Definition signing_key (c : conn) : option EVP_PKEY * option X509 :=
  let type := algorithm_mkey c in
  if has type SSL_kRSA then (rsa_sign_key c, rsa_enc_x509 c)
  else if has type SSL_kSM2 then (sm2_sign_key c, sm2_enc_x509 c)
  else if has type SSL_kSM2DHE then (sm2_sign_key c, None)
  else if has type SSL_kECCKyber then (sm2_sign_key c, sm2_enc_x509 c)
  else if has type SSL_kECDHEKyber then (sm2_sign_key c, None)
  else if has type SSL_kKyber then (sm2_sign_key c, sm2_enc_x509 c)
  else if has type SSL_kKyberAigisEnc then (sm2_sign_key c, None)
  else (None, None).

(** What is signed in the place of the parameters: the certificate, for
    [SSL_kECCKyber] followed by the parameters.  [None] is a failure, and
    [Some NULL] means that the parameters themselves are signed. *)
Definition signed_buf (c : conn) (x509 : option X509) (paramoffset paramlen : Z) : M (option (ptr * nat)) :=
  let type := algorithm_mkey c in
  if has type (Z.lor (Z.lor SSL_kRSA SSL_kSM2) (Z.lor SSL_kECCKyber SSL_kKyber)) then
    match x509 with
    | None => SSLfatal_ntls SSL_AD_INTERNAL_ERROR;; mret None
    | Some x =>
        '(buf, buflen) ← x509_to_asn1_ntls x;
        if is_null buf then SSLfatal_ntls SSL_AD_INTERNAL_ERROR;; mret None
        else if has type SSL_kECCKyber then
          combined ← OPENSSL_malloc (buflen + Z.to_nat paramlen);
          if is_null combined
          then OPENSSL_free buf;; SSLfatal_ntls SSL_AD_INTERNAL_ERROR;; mret None
          else
            memcpy combined 0 buf 0 buflen;;
            b ← init_buf_bytes paramoffset paramlen;
            store combined buflen b;;
            OPENSSL_free buf;;
            mret (Some (combined, (buflen + Z.to_nat paramlen)%nat))
        else mret (Some (buf, buflen))
    end
  else mret (Some (NULL, 0%nat)).

(** The signature is written where it was reserved. *)
Definition put_signature (pkey : EVP_PKEY) (siglen : nat) (tbs : list Z) : M bool :=
  pkt ← gets k_pkt;
  let '(ok, sigbytes1, pkt) := WPACKET_sub_reserve_bytes__ pkt (Z.of_nat siglen) 2 in
  modify (set_pkt pkt);;
  if negb ok then mret false
  else if negb (call_ok C_sign) then mret false
  else
    let sig := sign pkey tbs in
    pkt ← reads (match sigbytes1 with Some (_, off) => write_at pkt off sig | None => Val pkt end);
    '(ok, sigbytes2, pkt) ← reads (WPACKET_sub_allocate_bytes__ pkt (Z.of_nat (length sig)) 2);
    modify (set_pkt pkt);;
    mret (ok && bool_decide (sigbytes1 = sigbytes2)).

Definition sign_params (c : conn) (paramoffset paramlen : Z) : M bool :=
  let fail := SSLfatal_ntls SSL_AD_INTERNAL_ERROR;; mret false in
  let '(pkey, x509) := signing_key c in
  match pkey with
  | None => fail
  | Some pkey =>
      if negb (call_ok C_lookup_md) || negb (call_ok C_sign_init)
         || (is_SM2 pkey && negb (call_ok C_set1_id))
      then fail
      else
        r ← signed_buf c x509 paramoffset paramlen;
        match r with
        | None => mret false
        | Some (buf, buflen) =>
            b ← (if is_null buf then init_buf_bytes paramoffset paramlen else load buf 0 buflen);
            '(tbs, tbslen) ← construct_key_exchange_tbs_ntls c b;
            OPENSSL_free buf;;
            if (tbslen =? 0)%nat then mret false
            else
              let siglen :=
                if sigalg_is_ml_dsa c then 2420%nat
                else if (0 <? sign_size pkey)%nat then sign_size pkey
                else if is_ML_DSA pkey then 2420%nat else 0%nat in
              if (siglen =? 0)%nat then OPENSSL_free tbs;; fail
              else
                t ← load tbs 0 tbslen;
                ok ← put_signature pkey siglen t;
                OPENSSL_free tbs;;
                if negb ok then fail else mret true
        end
  end.

(** The parameters, by key exchange *)
Definition ske_params (c : conn) : M (bool * ptr) :=
  let type := algorithm_mkey c in
  if has type SSL_kKyberAigisEnc then ok ← ske_aigis; mret (ok, NULL)
  else if has type SSL_kECCKyber then ok ← ske_ecckyber c; mret (ok, NULL)
  else if has type SSL_kECDHEKyber then ske_ecdhekyber c
  else if has type SSL_kSM2DHE then ske_sm2dhe c
  else print_kex_info_server_ske type;; mret (true, NULL).

Definition tls_construct_server_key_exchange_ntls (c : conn) : M bool :=
  let type := algorithm_mkey c in
  let err (ret : bool) encodedPoint := OPENSSL_free encodedPoint;; mret ret in
  pkt ← gets k_pkt;
  let paramoffset := WPACKET_get_total_written pkt in
  '(ok, encodedPoint) ← ske_params c;
  if negb ok then err false encodedPoint
  else
    pkt ← gets k_pkt;
    let with_params := has type (Z.lor (Z.lor SSL_kKyberAigisEnc SSL_kECCKyber)
                                       (Z.lor SSL_kECDHEKyber SSL_kSM2DHE)) in
    match (if with_params then WPACKET_get_length pkt else Some 0) with
    | None => SSLfatal_ntls SSL_AD_INTERNAL_ERROR;; err false encodedPoint
    | Some paramlen =>
        if negb (sigalg_set c) then err true encodedPoint
        else ok ← sign_params c paramoffset paramlen; err ok encodedPoint
    end.

(** ** ClientKeyExchange *)

Definition tls_process_cke_pms_ntls (c : conn) (alg_k : Z) (pkt : PACKET) : M bool :=
  let fail al ret := SSLfatal_ntls al;; ret in
  let pkey := if has alg_k SSL_kRSA then rsa_enc_key c
              else if has alg_k SSL_kSM2 then sm2_enc_key c else None in
  match pkey with
  | None => fail SSL_AD_INTERNAL_ERROR (mret false)
  | Some pkey =>
      r ← reads (PACKET_get_length_prefixed_2 pkt);
      match r with
      | None => fail SSL_AD_DECODE_ERROR (mret false)
      | Some (enc_premaster, pkt) =>
          if negb (PACKET_remaining pkt =? 0) then fail SSL_AD_DECODE_ERROR (mret false)
          else
            let size := SSL_MAX_MASTER_KEY_LENGTH in
            p ← OPENSSL_malloc size;
            if is_null p then fail SSL_AD_INTERNAL_ERROR (mret false)
            else
              let err (ret : bool) := OPENSSL_free p;; mret ret in
              if negb (call_ok C_CTX_new) then fail SSL_AD_INTERNAL_ERROR (err false)
              else if negb (call_ok C_decrypt_init) then fail SSL_AD_DECRYPT_ERROR (err false)
              else if has alg_k SSL_kRSA && negb (call_ok C_rsa_padding && call_ok C_set_params)
              then fail SSL_AD_DECRYPT_ERROR (err false)
              else
                ct ← reads (bytes_at (base enc_premaster) (PACKET_data enc_premaster)
                              (PACKET_remaining enc_premaster));
                match (if call_ok C_decrypt then pkey_decrypt pkey ct else None) with
                | None => fail SSL_AD_DECRYPT_ERROR (err false)
                | Some m =>
                    (* a result longer than the buffer is an error of the library *)
                    if (size <? length m)%nat then fail SSL_AD_DECRYPT_ERROR (err false)
                    else
                      store p 0 m;;
                      if negb (length m =? size)%nat
                      then store p 0 (repeat 0 size);; fail SSL_AD_DECRYPT_ERROR (err false)
                      else
                        print_hex_data p 0 size;;
                        ok ← ssl_generate_master_secret c p size false;
                        err ok
                end
      end
  end.

(** [err] of [tls_process_cke_ecckyber_ntls], with the local variables that it
    frees: [pkey_decrypt] with [outlen], [kyber_ss], [hybrid_ss]. *)
Definition cke_ecckyber_err (ret : bool) (p : ptr) (outlen : nat) (kyber_ss hybrid_ss : ptr) : M bool :=
  OPENSSL_clear_free p outlen;;
  OPENSSL_clear_free kyber_ss KYBER_768_SS_SIZE;;
  OPENSSL_clear_free hybrid_ss ECC_KYBER_HYBRID_SS_SIZE;;
  mret ret.

(** The part after the decryption: [p] has the [outlen] bytes of the premaster
    secret. *)
Definition cke_ecckyber_combine (c : conn) (kyber_ct : list Z) (p : ptr) (outlen : nat) : M bool :=
  let err := cke_ecckyber_err in
  let fail kyber_ss hybrid_ss :=
    SSLfatal_ntls SSL_AD_INTERNAL_ERROR;; err false p outlen kyber_ss hybrid_ss in
  print_hex_data p 0 outlen;;
  hybrid_sk ← gets pms; n ← gets pmslen;
  if is_null hybrid_sk || negb (n =? ECC_KYBER_HYBRID_SK_SIZE)%nat then fail NULL NULL
  else
    kyber_ss ← OPENSSL_malloc KYBER_768_SS_SIZE;
    if is_null kyber_ss then fail NULL NULL
    else
      r ← hybrid_decaps S kyber_ss kyber_ct hybrid_sk;
      if r =? 0 then OPENSSL_clear_free kyber_ss KYBER_768_SS_SIZE;; fail kyber_ss NULL
      else
        print_hex_data kyber_ss 0 KYBER_768_SS_SIZE;;
        hybrid_ss ← OPENSSL_malloc ECC_KYBER_HYBRID_SS_SIZE;
        if is_null hybrid_ss then fail kyber_ss NULL
        else
          memcpy hybrid_ss 0 p 0 outlen;;
          memcpy hybrid_ss outlen kyber_ss 0 KYBER_768_SS_SIZE;;
          print_hex_data hybrid_ss 0 ECC_KYBER_HYBRID_SS_SIZE;;
          ok ← ssl_generate_master_secret c hybrid_ss ECC_KYBER_HYBRID_SS_SIZE false;
          if negb ok then
            OPENSSL_clear_free hybrid_ss ECC_KYBER_HYBRID_SS_SIZE;; err false p outlen kyber_ss hybrid_ss
          else
            OPENSSL_clear_free p outlen;;
            OPENSSL_clear_free kyber_ss KYBER_768_SS_SIZE;;
            OPENSSL_clear_free hybrid_ss ECC_KYBER_HYBRID_SS_SIZE;;
            err true NULL outlen NULL NULL.

Definition tls_process_cke_ecckyber_ntls (c : conn) (pkt : PACKET) : M bool :=
  let fail al p outlen kyber_ss hybrid_ss :=
    SSLfatal_ntls al;; cke_ecckyber_err false p outlen kyber_ss hybrid_ss in
  let fail0 al := fail al NULL 0%nat NULL NULL in
  if PACKET_remaining pkt =? 0 then fail0 SSL_AD_HANDSHAKE_FAILURE
  else
    r ← reads (PACKET_get_length_prefixed_2 pkt);
    match r with
    | None => fail0 SSL_AD_DECODE_ERROR
    | Some (enc_premaster, pkt) =>
        if PACKET_remaining enc_premaster =? 0 then fail0 SSL_AD_DECODE_ERROR
        else
          r ← reads (PACKET_get_net_2 pkt);
          match r with
          | None => fail0 SSL_AD_DECODE_ERROR
          | Some (kyber_ct_len, pkt) =>
              if negb (kyber_ct_len =? Z.of_nat ECC_KYBER_HYBRID_CT_SIZE) then fail0 SSL_AD_DECODE_ERROR
              else match PACKET_get_bytes pkt kyber_ct_len with
              | None => fail0 SSL_AD_DECODE_ERROR
              | Some (ctp, pkt) =>
                  kyber_ct ← reads (bytes_at (base pkt) ctp kyber_ct_len);
                  print_bytes kyber_ct;;
                  if negb (PACKET_remaining pkt =? 0) then fail0 SSL_AD_DECODE_ERROR
                  else match sm2_enc_key c with
                  | None => fail0 SSL_AD_INTERNAL_ERROR
                  | Some pkey =>
                      if negb (call_ok C_CTX_new) || negb (call_ok C_decrypt_init)
                         || negb (call_ok C_decrypt_size)
                      then fail0 SSL_AD_INTERNAL_ERROR
                      else
                        ct ← reads (bytes_at (base enc_premaster) (PACKET_data enc_premaster)
                                      (PACKET_remaining enc_premaster));
                        let size := pkey_decrypt_size pkey ct in
                        p ← OPENSSL_malloc size;
                        if is_null p then fail0 SSL_AD_INTERNAL_ERROR
                        else match (if call_ok C_decrypt then pkey_decrypt pkey ct else None) with
                        | None => fail SSL_AD_INTERNAL_ERROR p size NULL NULL
                        | Some m =>
                            store p 0 m;;
                            cke_ecckyber_combine c kyber_ct p (length m)
                        end
                  end
              end
          end
    end.

Definition tls_process_cke_sm2dhe_ntls (c : conn) (pkt : PACKET) : M bool :=
  let fail al := SSLfatal_ntls al;; mret false in
  skey ← gets tmp_pkey;
  if PACKET_remaining pkt =? 0 then fail SSL_AD_HANDSHAKE_FAILURE
  else match PACKET_get_bytes pkt 3 with
  | None => fail SSL_AD_DECODE_ERROR
  | Some (_, pkt) =>
      r ← reads (PACKET_get_1 pkt);
      match r with
      | None => fail SSL_AD_DECODE_ERROR
      | Some (i, pkt) =>
          match PACKET_get_bytes pkt i with
          | None => fail SSL_AD_DECODE_ERROR
          | Some (data, pkt) =>
              if negb (PACKET_remaining pkt =? 0) then fail SSL_AD_DECODE_ERROR
              else match skey with
              | None => fail SSL_AD_INTERNAL_ERROR
              | Some skey =>
                  pt ← reads (bytes_at (base pkt) data i);
                  match (if call_ok C_EVP_PKEY_new && call_ok C_copy_parameters
                         then set_encoded_public_key skey pt else None) with
                  | None => fail SSL_AD_INTERNAL_ERROR
                  | Some ckey =>
                      ok ← ssl_derive_ntls c (Some skey) (Some ckey) true;
                      if negb ok then mret false
                      else modify (set_tmp_pkey None);; mret true
                  end
              end
          end
      end
  end.

(** The part after the shared secret of the ephemeral keys has been derived:
    the variables at [err] are [kyber_ss] and [hybrid_sk_saved]. *)
Definition cke_ecdhekyber_combine (c : conn) (pkt : PACKET) (saved : ptr)
    (err : bool -> ptr -> ptr -> M bool) : M bool :=
  let fail al kyber_ss saved := SSLfatal_ntls al;; err false kyber_ss saved in
  ecdhe_ss ← gets pms; ecdhe_ss_len ← gets pmslen;
  if is_null ecdhe_ss || (ecdhe_ss_len =? 0)%nat then fail SSL_AD_INTERNAL_ERROR NULL saved
  else
    r ← reads (PACKET_get_net_2 pkt);
    match r with
    | None => fail SSL_AD_DECODE_ERROR NULL saved
    | Some (kyber_ct_len, pkt) =>
        if negb (kyber_ct_len =? Z.of_nat KYBER_768_CT_SIZE) then fail SSL_AD_DECODE_ERROR NULL saved
        else match PACKET_get_bytes pkt kyber_ct_len with
        | None => fail SSL_AD_DECODE_ERROR NULL saved
        | Some (ctp, pkt) =>
            if negb (PACKET_remaining pkt =? 0) then fail SSL_AD_DECODE_ERROR NULL saved
            else
              kyber_ss ← OPENSSL_malloc KYBER_768_SS_SIZE;
              if is_null kyber_ss then fail SSL_AD_INTERNAL_ERROR NULL saved
              else
                kyber_ct ← reads (bytes_at (base pkt) ctp (Z.of_nat ECC_KYBER_HYBRID_CT_SIZE));
                r ← hybrid_decaps S kyber_ss kyber_ct saved;
                if r =? 0
                then OPENSSL_clear_free kyber_ss KYBER_768_SS_SIZE;; fail SSL_AD_INTERNAL_ERROR kyber_ss saved
                else
                  OPENSSL_clear_free saved ECC_KYBER_HYBRID_SK_SIZE;;
                  combined_ss ← OPENSSL_malloc (ecdhe_ss_len + KYBER_768_SS_SIZE);
                  if is_null combined_ss
                  then OPENSSL_clear_free kyber_ss KYBER_768_SS_SIZE;; fail SSL_AD_INTERNAL_ERROR kyber_ss NULL
                  else
                    memcpy combined_ss 0 ecdhe_ss 0 ecdhe_ss_len;;
                    memcpy combined_ss ecdhe_ss_len kyber_ss 0 KYBER_768_SS_SIZE;;
                    OPENSSL_clear_free kyber_ss KYBER_768_SS_SIZE;;
                    old ← gets pms; oldlen ← gets pmslen;
                    OPENSSL_clear_free old oldlen;;
                    modify (set_pms combined_ss (ecdhe_ss_len + KYBER_768_SS_SIZE));;
                    ok ← ssl_generate_master_secret c combined_ss (ecdhe_ss_len + KYBER_768_SS_SIZE) false;
                    if negb ok then err false NULL NULL
                    else modify (set_tmp_pkey None);; err true NULL NULL
        end
    end.

(** [hybrid_sk_saved] is declared after the first two [goto err]: there it has
    no value. *)
Definition tls_process_cke_ecdhekyber_ntls (c : conn) (pkt : PACKET) : M bool :=
  let err (ret : bool) kyber_ss saved :=
    OPENSSL_clear_free kyber_ss KYBER_768_SS_SIZE;;
    OPENSSL_clear_free saved ECC_KYBER_HYBRID_SK_SIZE;;
    mret ret in
  let fail al saved := SSLfatal_ntls al;; err false NULL saved in
  skey ← gets tmp_pkey;
  if PACKET_remaining pkt =? 0 then fail SSL_AD_HANDSHAKE_FAILURE Wild
  else
    kyber_sk ← gets pms; n ← gets pmslen;
    if is_null kyber_sk || negb (n =? ECC_KYBER_HYBRID_SK_SIZE)%nat then fail SSL_AD_INTERNAL_ERROR Wild
    else
      saved ← OPENSSL_malloc ECC_KYBER_HYBRID_SK_SIZE;
      if is_null saved then fail SSL_AD_INTERNAL_ERROR NULL
      else
        memcpy saved 0 kyber_sk 0 ECC_KYBER_HYBRID_SK_SIZE;;
        match PACKET_get_bytes pkt 3 with
        | None => fail SSL_AD_DECODE_ERROR saved
        | Some (_, pkt) =>
            r ← reads (PACKET_get_1 pkt);
            match r with
            | None => fail SSL_AD_DECODE_ERROR saved
            | Some (i, pkt) =>
                match PACKET_get_bytes pkt i with
                | None => fail SSL_AD_DECODE_ERROR saved
                | Some (data, pkt) =>
                    match skey with
                    | None => fail SSL_AD_INTERNAL_ERROR saved
                    | Some skey =>
                        pt ← reads (bytes_at (base pkt) data i);
                        match (if call_ok C_EVP_PKEY_new && call_ok C_copy_parameters
                               then set_encoded_public_key skey pt else None) with
                        | None => fail SSL_AD_INTERNAL_ERROR saved
                        | Some ckey =>
                            ok ← ssl_derive_ntls c (Some skey) (Some ckey) false;
                            if negb ok then err false NULL saved
                            else cke_ecdhekyber_combine c pkt saved err
                        end
                    end
                end
            end
        end.

(** A ciphertext of [*p], with the test of the length before the bytes are taken *)
Definition read_ct (pkt : PACKET) : M (option (list Z * PACKET)) :=
  r ← reads (PACKET_get_net_2 pkt);
  match r with
  | None => SSLfatal_ntls SSL_AD_DECODE_ERROR;; mret None
  | Some (n, pkt) =>
      if PACKET_remaining pkt <? n then SSLfatal_ntls SSL_AD_DECODE_ERROR;; mret None
      else match PACKET_get_bytes pkt n with
      | None => SSLfatal_ntls SSL_AD_DECODE_ERROR;; mret None
      | Some (p, pkt) => b ← reads (bytes_at (base pkt) p n); mret (Some (b, pkt))
      end
  end.

(** A decapsulation through EVP; the buffer is also returned when it fails. *)
Definition decapsulate (ctx init size : kcall) (k : EVP_PKEY) (ct : list Z) : M (bool * ptr) :=
  if negb (call_ok ctx && call_ok init && call_ok size) || (kem_ss_size k =? 0)%nat
  then SSLfatal_ntls SSL_AD_INTERNAL_ERROR;; mret (false, NULL)
  else
    ss ← OPENSSL_malloc (kem_ss_size k);
    if is_null ss then SSLfatal_ntls SSL_AD_INTERNAL_ERROR;; mret (false, NULL)
    else match kem_decapsulate k ct with
    | None => SSLfatal_ntls SSL_AD_INTERNAL_ERROR;; mret (false, ss)
    | Some b => store ss 0 b;; mret (true, ss)
    end.

Definition tls_process_cke_kyber_aigis_enc_dilithium_ntls (c : conn) (pkt : PACKET) : M bool :=
  r ← read_ct pkt;
  match r with
  | None => mret false
  | Some (ct_k, pkt) =>
      r ← read_ct pkt;
      match r with
      | None => mret false
      | Some (ct_a, pkt) =>
          if negb (PACKET_remaining pkt =? 0) then SSLfatal_ntls SSL_AD_DECODE_ERROR;; mret false
          else
            aigis ← gets aigis_kem_pkey;
            match sm2_enc_key c, aigis with
            | Some enc_pkey, Some aigis_kp =>
                let n := kem_ss_size enc_pkey in let m := kem_ss_size aigis_kp in
                let err (ret : bool) ss_k ss_a :=
                  OPENSSL_clear_free ss_k n;; OPENSSL_clear_free ss_a m;; mret ret in
                '(ok, ss_k) ← decapsulate C_CTX_new C_decapsulate_init C_decapsulate_size enc_pkey ct_k;
                if negb ok then err false ss_k NULL
                else
                  '(ok, ss_a) ← decapsulate C_CTX_new_2 C_decapsulate_init_2 C_decapsulate_size_2 aigis_kp ct_a;
                  if negb ok then err false ss_k ss_a
                  else
                    combined ← OPENSSL_malloc (n + m);
                    if is_null combined then SSLfatal_ntls SSL_AD_INTERNAL_ERROR;; err false ss_k ss_a
                    else
                      memcpy combined 0 ss_k 0 n;; memcpy combined n ss_a 0 m;;
                      OPENSSL_clear_free ss_k n;; OPENSSL_clear_free ss_a m;;
                      ok ← ssl_generate_master_secret c combined (n + m) true;
                      err ok NULL NULL
            | _, _ => SSLfatal_ntls SSL_AD_INTERNAL_ERROR;; mret false
            end
      end
  end.

Definition tls_process_cke_kyber_dilithium_ntls (c : conn) (pkt : PACKET) : M bool :=
  r ← read_ct pkt;
  match r with
  | None => mret false
  | Some (ct, pkt) =>
      if negb (PACKET_remaining pkt =? 0) then SSLfatal_ntls SSL_AD_DECODE_ERROR;; mret false
      else match sm2_enc_key c with
      | None => SSLfatal_ntls SSL_AD_INTERNAL_ERROR;; mret false
      | Some pkey =>
          let n := kem_ss_size pkey in
          let err (ret : bool) ss := OPENSSL_clear_free ss n;; mret ret in
          '(ok, ss) ← decapsulate C_CTX_new C_decapsulate_init C_decapsulate_size pkey ct;
          if negb ok then err false ss
          else
            ok ← ssl_generate_master_secret c ss n true;
            if negb ok then err false ss else err true NULL
      end
  end.

(** [MSG_PROCESS_CONTINUE_PROCESSING] is true. *)
Definition tls_process_client_key_exchange_ntls (c : conn) (pkt : PACKET) : M bool :=
  let alg_k := algorithm_mkey c in
  if has alg_k (Z.lor SSL_kRSA SSL_kSM2) then tls_process_cke_pms_ntls c alg_k pkt
  else if has alg_k SSL_kSM2DHE then tls_process_cke_sm2dhe_ntls c pkt
  else if has alg_k SSL_kECDHEKyber then tls_process_cke_ecdhekyber_ntls c pkt
  else if has alg_k SSL_kKyberAigisEnc then tls_process_cke_kyber_aigis_enc_dilithium_ntls c pkt
  else if has alg_k SSL_kKyber then tls_process_cke_kyber_dilithium_ntls c pkt
  else if has alg_k SSL_kECCKyber then tls_process_cke_ecckyber_ntls c pkt
  else SSLfatal_ntls SSL_AD_INTERNAL_ERROR;; mret false.

End Server.
