(* ===== verification/KexLogic.v ===== *)
(** * Key exchange messages: reasoning about runs

    Rules for the steps of the handlers, in the calculus of [CMem]. *)

From S2P Require Import Prelude Buffers CMem Packet PacketSpec Wpacket WpacketSpec KyberSymmetric HybridKem KexTypes.

Section Rules.
Context {C : Curve} {K : Crypto} {A : Alloc}.

Lemma wp_fatal al Q s : Q tt (set_fatal al s) -> wp (SSLfatal_ntls al) Q s.
Proof. auto. Qed.

Lemma wp_print_bytes b Q s : Q tt (add_printed b s) -> wp (print_bytes b) Q s.
Proof. auto. Qed.

(** ** Memory *)

Lemma wp_malloc n Q s :
  (alloc_ok (next (k_mem s)) = false ->
     Q NULL (set_mem (mk_memory (heap (k_mem s)) (next (k_mem s) + 1)) s)) ->
  (n <> 0%nat -> alloc_ok (next (k_mem s)) = true ->
     Q (Ptr (next (k_mem s)))
       (set_mem (mk_memory (<[next (k_mem s) := fresh_block (next (k_mem s)) n]> (heap (k_mem s)))
                           (next (k_mem s) + 1)) s)) ->
  n <> 0%nat -> wp (OPENSSL_malloc n) Q s.
Proof.
  intros Hn Hy H0. unfold wp, OPENSSL_malloc, mem_malloc. cbn [mem_of kex_has_memory].
  rewrite (proj2 (Nat.eqb_neq _ _) H0). cbn [orb].
  destruct (alloc_ok (next (k_mem s))); cbn [negb]; auto.
Qed.

Lemma wp_free_null Q s : Q tt s -> wp (OPENSSL_free NULL) Q s.
Proof. unfold wp, OPENSSL_free, on_mem. cbn. now destruct s. Qed.

Lemma wp_clear_free_null n Q s : Q tt s -> wp (OPENSSL_clear_free NULL n) Q s.
Proof. unfold wp, OPENSSL_clear_free, on_mem. cbn. now destruct s. Qed.

Lemma wp_free a b Q s :
  heap (k_mem s) !! a = Some b ->
  Q tt (set_mem (mk_memory (delete a (heap (k_mem s))) (next (k_mem s))) s) ->
  wp (OPENSSL_free (Ptr a)) Q s.
Proof.
  intros E HQ. unfold wp, OPENSSL_free, on_mem, mem_free. cbn [mem_of kex_has_memory]. now rewrite E.
Qed.

Lemma wp_clear_free a b n Q s :
  heap (k_mem s) !! a = Some b -> (n <= length b)%nat ->
  Q tt (set_mem (mk_memory (delete a (heap (k_mem s))) (next (k_mem s))) s) ->
  wp (OPENSSL_clear_free (Ptr a) n) Q s.
Proof.
  intros E Hn HQ. unfold wp, OPENSSL_clear_free, on_mem. cbn [mem_of kex_has_memory].
  now rewrite (clear_free_live a b n) by assumption.
Qed.

Lemma wp_load a b off n Q s :
  heap (k_mem s) !! a = Some b -> (off + n <= length b)%nat -> Q (take n (drop off b)) s ->
  wp (load (Ptr a) off n) Q s.
Proof.
  intros E Hn HQ. unfold wp, load, mem_load, mem_block. cbn [mem_of kex_has_memory].
  rewrite E. cbn [mbind res_bind]. now rewrite (proj2 (Nat.leb_le _ _)) by lia.
Qed.

Lemma wp_store a b off bs Q s :
  heap (k_mem s) !! a = Some b -> (off + length bs <= length b)%nat ->
  Q tt (set_mem (mk_memory (<[a := copy_at off bs b]> (heap (k_mem s))) (next (k_mem s))) s) ->
  wp (store (Ptr a) off bs) Q s.
Proof.
  intros E Hn HQ. unfold wp, store, on_mem, mem_store, mem_block. cbn [mem_of kex_has_memory].
  rewrite E. cbn [mbind res_bind]. now rewrite (proj2 (Nat.leb_le _ _)) by lia.
Qed.

Lemma wp_memcpy a b off a' b' off' n Q s :
  heap (k_mem s) !! a' = Some b' -> (off' + n <= length b')%nat ->
  heap (k_mem s) !! a = Some b -> (off + n <= length b)%nat ->
  Q tt (set_mem (mk_memory (<[a := copy_at off (take n (drop off' b')) b]> (heap (k_mem s)))
                           (next (k_mem s))) s) ->
  wp (memcpy (Ptr a) off (Ptr a') off' n) Q s.
Proof.
  intros E' Hn' E Hn HQ. apply wp_bind, (wp_load a' b'); [assumption | lia |].
  apply (wp_store a b); [assumption | rewrite length_take, length_drop; lia | exact HQ].
Qed.

Lemma wp_print a b off n Q s :
  heap (k_mem s) !! a = Some b -> (off + n <= length b)%nat -> n <> 0%nat ->
  Q tt (add_printed (take n (drop off b)) s) -> wp (print_hex_data (Ptr a) off n) Q s.
Proof.
  intros E Hn H0 HQ. unfold print_hex_data. cbn [is_null orb].
  rewrite (proj2 (Nat.eqb_neq _ _) H0). apply wp_bind, (wp_load a b); [assumption | lia |].
  now apply wp_modify.
Qed.

(** ** Packets *)

Lemma wp_and_then (a b : prog kex bool) Q s :
  wp a (fun ok => if ok then wp b Q else Q false) s -> wp (and_then a b) Q s.
Proof.
  intros H. unfold and_then. apply wp_bind. eapply wp_mono; [exact H |]. intros [] s'; auto.
Qed.

Lemma wp_put n v fs Q s :
  rep (k_pkt s) fs -> fs <> [] -> (1 <= n <= 8)%nat -> 0 <= v < 2 ^ 64 ->
  (forall p', rep p' (append (be_bytes n v) fs) -> Q true (set_pkt p' s)) ->
  (forall p', ~ (room (k_pkt s) (Z.of_nat n) /\ v < 256 ^ Z.of_nat n) -> Q false (set_pkt p' s)) ->
  wp (writes (fun p => WPACKET_put_bytes__ p v (Z.of_nat n))) Q s.
Proof.
  intros R Hne Hn Hv Hy Hno. unfold wp, writes.
  destruct (put_bytes_ok (k_pkt s) fs v n R Hne Hn Hv) as (ok & p' & -> & H1 & H2).
  destruct ok; [apply Hy; now apply H1 |]. apply Hno. intros [Hr Hf]. now destruct (H2 Hr Hf).
Qed.

Lemma wp_put_mem a b off n fs Q s :
  rep (k_pkt s) fs -> fs <> [] -> heap (k_mem s) !! a = Some b -> (off + n <= length b)%nat ->
  Z.of_nat n <= SIZE_MAX ->
  (forall p', rep p' (append (take n (drop off b)) fs) -> Q true (set_pkt p' s)) ->
  (forall p', ~ room (k_pkt s) (Z.of_nat n) -> Q false (set_pkt p' s)) ->
  wp (put_mem (Ptr a) off n) Q s.
Proof.
  intros R Hne E Hn Hsz Hy Hno. apply wp_bind, (wp_load a b); [assumption | lia |]. unfold wp, writes.
  assert (Hl : length (take n (drop off b)) = n) by (rewrite length_take, length_drop; lia).
  destruct (memcpy_ok (k_pkt s) fs (take n (drop off b)) R Hne) as (ok & p' & -> & H1 & H2); [lia |].
  destruct ok; [now apply Hy, H1 |]. rewrite Hl in H2. apply Hno. intros Hr. now destruct (H2 Hr).
Qed.

(** With room, a write succeeds. *)
Lemma wp_put_room n v fs Q s :
  rep (k_pkt s) fs -> fs <> [] -> (1 <= n <= 8)%nat -> 0 <= v < 2 ^ 64 ->
  room (k_pkt s) (Z.of_nat n) -> v < 256 ^ Z.of_nat n ->
  (forall p', rep p' (append (be_bytes n v) fs) -> advanced (k_pkt s) (Z.of_nat n) p' ->
     Q true (set_pkt p' s)) ->
  wp (writes (fun p => WPACKET_put_bytes__ p v (Z.of_nat n))) Q s.
Proof.
  intros R Hne Hn Hv Hr Hf HQ. unfold wp, writes.
  destruct (put_bytes_ok (k_pkt s) fs v n R Hne Hn Hv) as (ok & p' & -> & H1 & H2).
  destruct (H2 Hr Hf) as [-> Ad]. apply HQ; [now apply H1 | assumption].
Qed.

Lemma wp_put_mem_room a b off n fs Q s :
  rep (k_pkt s) fs -> fs <> [] -> heap (k_mem s) !! a = Some b -> (off + n <= length b)%nat ->
  Z.of_nat n <= SIZE_MAX -> room (k_pkt s) (Z.of_nat n) ->
  (forall p', rep p' (append (take n (drop off b)) fs) -> advanced (k_pkt s) (Z.of_nat n) p' ->
     Q true (set_pkt p' s)) ->
  wp (put_mem (Ptr a) off n) Q s.
Proof.
  intros R Hne E Hn Hsz Hr HQ. apply wp_bind, (wp_load a b); [assumption | lia |]. unfold wp, writes.
  assert (Hl : length (take n (drop off b)) = n) by (rewrite length_take, length_drop; lia).
  destruct (memcpy_ok (k_pkt s) fs (take n (drop off b)) R Hne) as (ok & p' & -> & H1 & H2); [lia |].
  rewrite Hl in H2. destruct (H2 Hr) as [-> Ad]. apply HQ; [now apply H1 | assumption].
Qed.

Lemma wp_malloc_ok n Q s :
  alloc_ok (next (k_mem s)) = true -> n <> 0%nat ->
  Q (Ptr (next (k_mem s)))
    (set_mem (mk_memory (<[next (k_mem s) := fresh_block (next (k_mem s)) n]> (heap (k_mem s)))
                        (next (k_mem s) + 1)) s) ->
  wp (OPENSSL_malloc n) Q s.
Proof. intros Ha Hn HQ. apply wp_malloc; auto. congruence. Qed.

End Rules.

(** ** Tactics *)

(** Projections of the state. *)
Ltac kred :=
  cbn [k_mem k_pkt pms pmslen peer_tmp tmp_pkey aigis_kem_pkey kex_group master_key fatal printed
       set_mem set_pkt set_pms set_peer_tmp set_tmp_pkey set_aigis set_group set_master set_fatal
       add_printed heap next is_null orb andb negb].

Ltac kred_in H :=
  cbn [k_mem k_pkt pms pmslen peer_tmp tmp_pkey aigis_kem_pkey kex_group master_key fatal printed
       set_mem set_pkt set_pms set_peer_tmp set_tmp_pkey set_aigis set_group set_master set_fatal
       add_printed heap next is_null orb andb negb] in H.

(** A lookup in a memory that has been updated: addresses are compared with
    [lia]. *)
Ltac heap_lookup :=
  repeat first [rewrite lookup_insert_eq | rewrite lookup_insert_ne by lia | rewrite lookup_delete_ne by lia];
  first [eassumption | reflexivity].

(** One step of a program, as far as it has no premises of its own. *)
Ltac kstep :=
  lazymatch goal with
  | |- wp (_ ≫= _) _ _ => apply wp_bind
  | |- wp (mret _) _ _ => apply wp_ret
  | |- wp (gets _) _ _ => apply wp_gets
  | |- wp (modify _) _ _ => apply wp_modify
  | |- wp (SSLfatal_ntls _) _ _ => apply wp_fatal
  | |- wp (print_bytes _) _ _ => apply wp_print_bytes
  | |- wp (OPENSSL_free NULL) _ _ => apply wp_free_null
  | |- wp (OPENSSL_clear_free NULL _) _ _ => apply wp_clear_free_null
  | |- wp (and_then _ _) _ _ => apply wp_and_then
  end; kred; cbv beta.
Ltac ksteps := repeat kstep.
