(* ===== verification/KexRuns.v ===== *)
(** * Key exchange messages: runs in which no call fails

    What each side writes, reads and keeps in memory when the library calls
    and the allocations succeed, for the exchange with ECC and Kyber. *)

From S2P Require Import Prelude Buffers CMem Packet PacketSpec Wpacket WpacketSpec PacketRules KyberReduce KyberSymmetric KyberPoly KyberPolyvec KyberCodec KyberIndcpa KyberSample KyberIndcpaSpec KyberKem KyberKemSpec HybridKem HybridSpec KexTypes KexLogic KexClient KexServer.

(** ** A run of Kyber *)

Record kem_run {S : Symmetric} (fuel : nat) (coins m kpk ksk kct kss : list Z) : Prop := {
  run_keypair : crypto_kem_keypair_derand fuel coins = Some (kpk, ksk);
  run_enc : crypto_kem_enc_derand fuel kpk m = Some (kct, kss);
  run_dec : crypto_kem_dec fuel kct ksk = Some kss;
  run_pk : length kpk = KYBER_768_PK_SIZE;
  run_sk : length ksk = KYBER_768_SK_SIZE;
  run_ct : length kct = KYBER_768_CT_SIZE;
  run_ss : length kss = KYBER_768_SS_SIZE;
  run_pk_bytes : bytes kpk;
  run_ct_bytes : bytes kct }.

Lemma kem_run_exists {S : Symmetric} {SL : SymmetricLaws S} fuel coins m :
  length coins = 64%nat -> length m = 32%nat -> bytes m -> kem_noise_ok fuel coins m = true ->
  exists kpk ksk kct kss, kem_run fuel coins m kpk ksk kct kss.
Proof.
  intros Lc Lm Bm Hn.
  destruct (kem_agreement fuel coins m Lm Bm Hn) as (pk & sk & ct & ss & Hk & He & Hd & L1 & L2 & L3 & L4).
  exists pk, sk, ct, ss. specialize (L4 Lc). unfold kem_noise_ok in Hn.
  destruct (gen_a fuel (public_seed coins)) as [a |] eqn:Ea; [| easy].
  destruct (gen_at_of_gen_a fuel _ a Ea) as (at_ & Et & _). clear Hn.
  pose proof (kem_keypair_value fuel coins a Ea) as E1. rewrite Hk in E1. injection E1 as -> ->.
  pose proof (kem_enc_value fuel coins a at_ m Lm Et) as E2. rewrite He in E2. injection E2 as -> ->.
  split; auto; [| apply pack_ciphertext_bytes].
  unfold key_public, pack_pk, public_seed, key_seeds. apply Forall_app_2; [apply polyvec_tobytes_bytes |].
  apply Forall_take, Forall_take, hash_g_bytes.
Qed.

(** ** Symbolic runs *)

(** The library calls and the allocations succeed. *)
Class NoFailure {C : Curve} {K : Crypto} {A : Alloc} : Prop := {
  every_call x : call_ok x = true;
  every_ec_call x : ec_ok x = true;
  every_alloc a : alloc_ok a = true }.

Lemma copy_at_rest n (a b r : list Z) :
  length a = n -> length b = length r -> copy_at n b (a ++ r) = a ++ b.
Proof.
  intros <- E. unfold copy_at. rewrite take_app_length, drop_ge by (rewrite length_app; lia).
  now rewrite app_nil_r.
Qed.

Lemma copy_at_length_any n (b p : list Z) :
  length (copy_at n b p) = (n `min` length p + length b + (length p - (n + length b)))%nat.
Proof. unfold copy_at. rewrite !length_app, length_take, length_drop. lia. Qed.

(** Lengths of the pieces of a run *)
Ltac klen :=
  repeat match goal with
  | R : kem_run _ _ _ _ _ _ _ |- _ =>
      pose proof (run_pk _ _ _ _ _ _ _ R); pose proof (run_sk _ _ _ _ _ _ _ R);
      pose proof (run_ct _ _ _ _ _ _ _ R); pose proof (run_ss _ _ _ _ _ _ _ R); clear R
  end;
  repeat first [rewrite length_app | rewrite length_drop | rewrite length_take | rewrite copy_at_length_any
               | rewrite be_bytes_length | rewrite repeat_length | rewrite fresh_block_length | rewrite point2oct_length];
  unfold ECC_KYBER_HYBRID_PK_SIZE, ECC_KYBER_HYBRID_SK_SIZE, ECC_KYBER_HYBRID_CT_SIZE,
    SM2_DH_PK_SIZE, ECC_KYBER_HYBRID_SS_SIZE, ECC_PK_SIZE, ECC_SK_SIZE, KYBER_768_PK_SIZE, KYBER_768_SK_SIZE,
    KYBER_768_CT_SIZE, KYBER_768_SS_SIZE, SSL_MAX_MASTER_KEY_LENGTH, SIZE_MAX in *;
  first [lia | discriminate].

(** One access of the memory *)
Ltac kaccess :=
  lazymatch goal with
  | |- wp (OPENSSL_malloc _) _ _ => apply wp_malloc_ok; [first [assumption | apply every_alloc] | first [assumption | discriminate] |]
  | |- wp (load _ _ _) _ _ => eapply wp_load; [kred; heap_lookup | klen |]
  | |- wp (store _ _ _) _ _ => eapply wp_store; [kred; heap_lookup | klen |]
  | |- wp (memcpy _ _ _ _ _) _ _ =>
      eapply wp_memcpy; [kred; heap_lookup | klen | kred; heap_lookup | klen |]
  | |- wp (print_hex_data _ _ _) _ _ => eapply wp_print; [kred; heap_lookup | klen | first [assumption | discriminate] |]
  | |- wp (OPENSSL_free _) _ _ => eapply wp_free; [kred; heap_lookup |]
  | |- wp (OPENSSL_clear_free _ _) _ _ => eapply wp_clear_free; [kred; heap_lookup | klen |]
  end; kred; cbv beta;
  try first [rewrite copy_at_whole by klen | rewrite copy_at_rest by klen | rewrite copy_first];
  rewrite ?drop_0; repeat rewrite drop_app_length' by klen; repeat first [rewrite take_ge by klen | rewrite take_app_length' by klen].
(** Tests of the key exchange, when it is known *)
Ltac khas :=
  repeat match goal with
  | |- context [has ?a ?b] => let v := eval vm_compute in (has a b) in change (has a b) with v
  end; cbn [andb orb negb].
Ltac kgo := kred; cbv beta zeta; repeat (first [kstep | kaccess]; cbv zeta).

Section Runs.
Context {S : Symmetric} {SL : SymmetricLaws S} {C : Curve} {CL : CurveLaws} {K : Crypto} {KL : CryptoLaws} {A : Alloc}.
Context {OK : NoFailure}.

Lemma ecc_encaps_run kpk ksk kct kss ss ct ecc :
  kem_run sampler_fuel keygen_coins encaps_coins kpk ksk kct kss ->
  length ecc = ECC_PK_SIZE -> length ss = KYBER_768_SS_SIZE -> length ct = ECC_KYBER_HYBRID_CT_SIZE ->
  ecc_kyber_hybrid_encaps sampler_fuel encaps_coins (Some ss) (Some ct) (Some (ecc ++ kpk))
  = Some (mk_result 1 (Some kss) (Some kct) no_refs).
Proof.
  intros R Le Ls Lc. unfold ecc_kyber_hybrid_encaps, kyber768_enc, ref_kyber768, pqcrystals_kyber768_ref_enc.
  rewrite length_app, Le, Ls, Lc, (run_pk _ _ _ _ _ _ _ R), !Nat.ltb_irrefl, Nat.eqb_refl.
  cbn [orb negb]. rewrite drop_app_length' by now rewrite Le. rewrite (run_enc _ _ _ _ _ _ _ R).
  cbn [mbind option_bind Z.eqb negb]. unfold copy_at. cbn [take Nat.add app].
  rewrite !drop_ge, !app_nil_r by (rewrite ?Ls, ?Lc, ?(run_ss _ _ _ _ _ _ _ R), ?(run_ct _ _ _ _ _ _ _ R); reflexivity).
  reflexivity.
Qed.

Lemma ecc_decaps_run kpk ksk kct kss ss ecc :
  kem_run sampler_fuel keygen_coins encaps_coins kpk ksk kct kss ->
  length ecc = ECC_SK_SIZE -> length ss = KYBER_768_SS_SIZE ->
  ecc_kyber_hybrid_decaps sampler_fuel (Some ss) (Some kct) (Some (ecc ++ ksk))
  = Some (mk_result 1 (Some kss) None no_refs).
Proof.
  intros R Le Ls. unfold ecc_kyber_hybrid_decaps, kyber768_dec, ref_kyber768, pqcrystals_kyber768_ref_dec.
  rewrite length_app, Le, Ls, (run_sk _ _ _ _ _ _ _ R), (run_ct _ _ _ _ _ _ _ R), Nat.ltb_irrefl, !Nat.eqb_refl.
  cbn [orb negb]. rewrite drop_app_length' by now rewrite Le. rewrite (run_dec _ _ _ _ _ _ _ R).
  cbn [mbind option_bind Z.eqb negb]. unfold copy_at. cbn [take Nat.add app].
  rewrite !drop_ge, !app_nil_r by (rewrite ?Ls, ?(run_ss _ _ _ _ _ _ _ R); reflexivity).
  reflexivity.
Qed.


Lemma wp_keygen_run ecc priv apk ask b d kpk ksk kct kss Q s :
  kem_run sampler_fuel keygen_coins encaps_coins kpk ksk kct kss ->
  ec_private ecc = Some priv -> 0 <= priv < 256 ^ 32 -> apk <> ask ->
  heap (k_mem s) !! apk = Some b -> length b = ECC_KYBER_HYBRID_PK_SIZE ->
  heap (k_mem s) !! ask = Some d -> length d = ECC_KYBER_HYBRID_SK_SIZE ->
  Q 1 (set_mem (mk_memory (<[ask := be_bytes ECC_SK_SIZE priv ++ ksk]>
                 (<[apk := point2oct (public_of priv) ++ kpk]> (heap (k_mem s)))) (next (k_mem s))) s) ->
  wp (hybrid_keygen S ecc (Ptr apk) (Ptr ask)) Q s.
Proof.
  intros R Ep Hp Hne E1 L1 E2 L2 HQ. unfold hybrid_keygen.
  apply wp_bind, (wp_load apk b); [assumption | lia |].
  apply wp_bind, (wp_load ask d); [assumption | lia |].
  rewrite !drop_0, !take_ge by lia. rewrite Ep.
  rewrite (ecc_keygen_ok ec_ok ec_partial priv sampler_fuel keygen_coins b d kpk ksk) by
    (assumption || apply R || apply every_ec_call).
  apply wp_bind. eapply wp_store; [eassumption | |].
  { rewrite length_app, point2oct_length, (run_pk _ _ _ _ _ _ _ R), L1. apply Nat.le_refl. }
  kred. apply wp_bind. eapply wp_store; kred; [rewrite lookup_insert_ne by assumption; eassumption | |].
  { rewrite length_app, be_bytes_length, (run_sk _ _ _ _ _ _ _ R), L2. apply Nat.le_refl. }
  apply wp_ret. kred.
  rewrite !copy_at_whole; [exact HQ | |].
  - rewrite length_app, point2oct_length, (run_pk _ _ _ _ _ _ _ R), L1. reflexivity.
  - rewrite length_app, be_bytes_length, (run_sk _ _ _ _ _ _ _ R), L2. reflexivity.
Qed.

Lemma wp_encaps_run ass act apk b d ecc kpk ksk kct kss n Q s :
  kem_run sampler_fuel keygen_coins encaps_coins kpk ksk kct kss ->
  length ecc = ECC_PK_SIZE -> n = ECC_KYBER_HYBRID_CT_SIZE -> ass <> act ->
  heap (k_mem s) !! ass = Some b -> length b = KYBER_768_SS_SIZE ->
  heap (k_mem s) !! act = Some d -> length d = ECC_KYBER_HYBRID_CT_SIZE ->
  heap (k_mem s) !! apk = Some (ecc ++ kpk) ->
  Q 1 (set_mem (mk_memory (<[act := kct]> (<[ass := kss]> (heap (k_mem s)))) (next (k_mem s))) s) ->
  wp (hybrid_encaps S (Ptr ass) (Ptr act) (Ptr apk) n) Q s.
Proof.
  intros R Le -> Hne E1 L1 E2 L2 E3 HQ. unfold hybrid_encaps.
  assert (L3 : length (ecc ++ kpk) = ECC_KYBER_HYBRID_PK_SIZE) by now rewrite length_app, Le, (run_pk _ _ _ _ _ _ _ R).
  apply wp_bind, (wp_load ass b); [assumption | lia |].
  apply wp_bind, (wp_load act d); [assumption | lia |].
  apply wp_bind, (wp_load apk _ _ _ _ _ E3); [lia |].
  rewrite !drop_0, !take_ge by lia. rewrite (ecc_encaps_run kpk ksk kct kss) by assumption.
  apply wp_bind, (wp_store ass b); [assumption | rewrite (run_ss _ _ _ _ _ _ _ R); lia |].
  kred. apply wp_bind. eapply wp_store; kred; [rewrite lookup_insert_ne by assumption; eassumption | |].
  { rewrite (run_ct _ _ _ _ _ _ _ R), L2. apply Nat.le_refl. }
  apply wp_ret. kred. rewrite !copy_at_whole; [exact HQ | |].
  - now rewrite (run_ss _ _ _ _ _ _ _ R).
  - now rewrite (run_ct _ _ _ _ _ _ _ R).
Qed.

Lemma wp_decaps_run ass ask b ecc kpk ksk kct kss Q s :
  kem_run sampler_fuel keygen_coins encaps_coins kpk ksk kct kss ->
  length ecc = ECC_SK_SIZE ->
  heap (k_mem s) !! ass = Some b -> length b = KYBER_768_SS_SIZE ->
  heap (k_mem s) !! ask = Some (ecc ++ ksk) ->
  Q 1 (set_mem (mk_memory (<[ass := kss]> (heap (k_mem s))) (next (k_mem s))) s) ->
  wp (hybrid_decaps S (Ptr ass) kct (Ptr ask)) Q s.
Proof.
  intros R Le E1 L1 E3 HQ. unfold hybrid_decaps.
  assert (L3 : length (ecc ++ ksk) = ECC_KYBER_HYBRID_SK_SIZE) by now rewrite length_app, Le, (run_sk _ _ _ _ _ _ _ R).
  apply wp_bind, (wp_load ass b); [assumption | lia |].
  apply wp_bind, (wp_load ask _ _ _ _ _ E3); [lia |].
  rewrite !drop_0, !take_ge by lia. rewrite (ecc_decaps_run kpk ksk kct kss) by assumption.
  apply wp_bind, (wp_store ass b); [assumption | rewrite (run_ss _ _ _ _ _ _ _ R); lia |].
  apply wp_ret. kred. rewrite !copy_at_whole; [exact HQ |]. now rewrite (run_ss _ _ _ _ _ _ _ R).
Qed.

(** ** ServerKeyExchange of ECC with Kyber *)

(** The block at [p] has the bytes [b]. *)
Definition holds (s : kex) (p : ptr) (b : list Z) : Prop :=
  exists a, p = Ptr a /\ a < next (k_mem s) /\ heap (k_mem s) !! a = Some b.

Definition ecckyber_params (kpk : list Z) : list Z := be_bytes 2 (Z.of_nat KYBER_768_PK_SIZE) ++ kpk.


Lemma ske_ecckyber_run c x ekey priv kpk ksk kct kss fs Q s :
  kem_run sampler_fuel keygen_coins encaps_coins kpk ksk kct kss ->
  sm2_enc_x509 c = Some x -> sm2_enc_key c = Some ekey -> ec_private ekey = Some priv ->
  0 <= priv < 256 ^ 32 ->
  tmp_pkey s = None -> pms s = NULL ->
  rep (k_pkt s) fs -> fs <> [] -> room (k_pkt s) 1186 ->
  (forall s', rep (k_pkt s') (append (ecckyber_params kpk) fs) -> advanced (k_pkt s) 1186 (k_pkt s') ->
     holds s' (pms s') (be_bytes ECC_SK_SIZE priv ++ ksk) -> pmslen s' = ECC_KYBER_HYBRID_SK_SIZE ->
     Q true s') ->
  wp (ske_ecckyber c) Q s.
Proof.
  intros R Ex Ek Ep Hp Et Epms Rp Hne Hr HQ. unfold ske_ecckyber.
  kgo. rewrite Et, Ex, Ek. kgo.
  eapply (wp_keygen_run ekey priv); try eassumption; kred; [lia | heap_lookup | klen | heap_lookup | klen |].
  cbn [Z.eqb]. kgo.
  eapply (wp_put_room 2); [exact Rp | assumption | lia | easy | unfold room in *; kred; lia | easy |].
  kred. intros p1 R1 A1. 
  eapply wp_put_mem_room; kred; [exact R1 | now apply append_ne | heap_lookup | klen | easy | |].
  { unfold room, advanced in *. unfold KYBER_768_PK_SIZE. lia. }
  intros p2 R2 A2. cbn [negb]. kgo. rewrite Epms. kgo.
  apply HQ; kred; [| | | reflexivity].
  - now rewrite append_append, drop_0, take_ge in R2 by klen.
  - unfold advanced, KYBER_768_PK_SIZE in *. lia.
  - eexists. split; [reflexivity |]. kred. split; [lia |]. heap_lookup.
Qed.

Lemma process_ske_ecckyber_run c x k kpk ksk kct kss pkt rest Q s :
  kem_run sampler_fuel keygen_coins encaps_coins kpk ksk kct kss ->
  packet_wf pkt -> view pkt = ecckyber_params kpk ++ rest ->
  peer_enc_cert c = Some x -> X509_get0_pubkey x = Some k -> pms s = NULL ->
  (forall pkt' s', packet_wf pkt' -> base pkt' = base pkt -> view pkt' = rest ->
     holds s' (pms s') (point2oct (ec_public k) ++ kpk) -> pmslen s' = ECC_KYBER_HYBRID_PK_SIZE ->
     Q (Some pkt') s') ->
  wp (tls_process_ske_ecckyber_ntls c pkt) Q s.
Proof.
  intros R W V Ex Ek Epms HQ. unfold tls_process_ske_ecckyber_ntls.
  unfold ecckyber_params in V. rewrite <- app_assoc in V.
  apply wp_bind, (wp_get_net_2 _ _ _ _ _ W V); [easy |]. intros p1 W1 B1 V1.
  rewrite Z.eqb_refl. cbn [negb].
  destruct (get_bytes_view p1 kpk rest (Z.of_nat KYBER_768_PK_SIZE) W1 V1) as (d & p2 & -> & Ed & W2 & B2 & V2);
    [now rewrite (run_pk _ _ _ _ _ _ _ R) |].
  apply wp_bind, (wp_reads _ kpk); [now rewrite B2 |].
  kgo. rewrite Ex, Ek, !every_call. cbn [negb]. kgo.
  rewrite point2oct_length. cbn [Nat.eqb negb andb SM2_DH_PK_SIZE ECC_PK_SIZE].
  kgo. rewrite Epms. kgo. apply HQ; kred; try assumption; [congruence | | reflexivity].
  eexists. split; [reflexivity |]. kred. split; [lia |].
  now rewrite lookup_delete_ne, lookup_insert_eq by lia.
Qed.

(** ** ClientKeyExchange of ECC with Kyber *)

Lemma put_encrypted_run key a b n fs Q s :
  rep (k_pkt s) fs -> fs <> [] -> heap (k_mem s) !! a = Some b -> length b = n ->
  0 < Z.of_nat (length (pkey_encrypt key b)) < 256 ^ 2 ->
  room (k_pkt s) (2 + Z.of_nat (pkey_encrypt_size key n)) ->
  (forall p', rep p' (append (be_bytes 2 (Z.of_nat (length (pkey_encrypt key b))) ++ pkey_encrypt key b) fs) ->
     advanced (k_pkt s) (2 + Z.of_nat (length (pkey_encrypt key b))) p' -> Q true (set_pkt p' s)) ->
  wp (put_encrypted key (Ptr a) n) Q s.
Proof.
  intros Rp Hne E <- Hl Hr HQ. unfold put_encrypted. rewrite !every_call. cbn [negb]. kgo.
  pose proof (encrypt_fits key b) as Hf.
  destruct (sub_fill_ok (k_pkt s) fs (Z.of_nat (pkey_encrypt_size key (length b))) (pkey_encrypt key b) Rp Hne Hr)
    as (x & q & p' & -> & Ew & Ea & R' & Ad); [apply every_alloc | lia | lia |].
  kgo. cbn [negb]. kgo. eapply wp_reads; [exact Ew |]. kgo.
  eapply wp_reads; [exact Ea |]. kgo.
  cbn [andb]. rewrite bool_decide_true by reflexivity. now apply HQ.
Qed.

(** The premaster secret that the client encrypts. *)
Definition premaster (c : conn) : list Z :=
  u8 (Z.shiftr (client_version c) 8) :: u8 (Z.land (client_version c) 0xff) :: premaster_random.

Lemma fill_pms_run c a b Q s :
  heap (k_mem s) !! a = Some b -> length b = SSL_MAX_MASTER_KEY_LENGTH ->
  Q true (set_mem (mk_memory (<[a := premaster c]> (heap (k_mem s))) (next (k_mem s))) s) ->
  wp (fill_pms c (Ptr a)) Q s.
Proof.
  intros E L HQ. unfold fill_pms. pose proof premaster_random_length as Lr.
  unfold SSL_MAX_MASTER_KEY_LENGTH in L. destruct b as [| x [| y b]]; try easy. rewrite !every_call.
  apply wp_bind, (wp_store a _ _ _ _ _ E); [cbn; lia |]. kred.
  apply wp_bind. eapply wp_store; kred; [apply lookup_insert_eq | unfold copy_at; cbn; lia |]. kred.
  apply wp_bind. eapply wp_store; kred; [apply lookup_insert_eq | unfold copy_at; cbn in L |- *; rewrite drop_0; lia |]. kgo.
  rewrite !insert_insert_eq. unfold copy_at. cbn [take drop firstn skipn app length Nat.add].
  rewrite ?drop_0, drop_ge, app_nil_r by (cbn in L |- *; rewrite ?drop_0; lia). exact HQ.
Qed.

Definition ecckyber_cke (ct kct : list Z) : list Z :=
  (be_bytes 2 (Z.of_nat (length ct)) ++ ct) ++ be_bytes 2 (Z.of_nat ECC_KYBER_HYBRID_CT_SIZE) ++ kct.

Lemma construct_cke_ecckyber_run c x k kpk ksk kct kss fs a Q s :
  kem_run sampler_fuel keygen_coins encaps_coins kpk ksk kct kss ->
  peer_enc_cert c = Some x -> X509_get0_pubkey x = Some k -> is_SM2 k = true ->
  pms s = Ptr a -> a < next (k_mem s) -> heap (k_mem s) !! a = Some (point2oct (ec_public k) ++ kpk) ->
  pmslen s = ECC_KYBER_HYBRID_PK_SIZE ->
  0 < Z.of_nat (length (pkey_encrypt k (premaster c))) < 256 ^ 2 ->
  rep (k_pkt s) fs -> fs <> [] ->
  room (k_pkt s) (1092 + Z.of_nat (pkey_encrypt_size k SSL_MAX_MASTER_KEY_LENGTH)) ->
  (forall s', rep (k_pkt s') (append (ecckyber_cke (pkey_encrypt k (premaster c)) kct) fs) ->
     holds s' (pms s') (premaster c ++ kss) -> pmslen s' = ECC_KYBER_HYBRID_SS_SIZE ->
     Q true s') ->
  wp (tls_construct_cke_ecckyber_ntls c) Q s.
Proof.
  intros R Ex Ek Esm Ep Ha Eh En Hct Rp Hne Hr HQ. unfold tls_construct_cke_ecckyber_ntls.
  assert (Lp : length (premaster c) = SSL_MAX_MASTER_KEY_LENGTH)
    by (unfold premaster; cbn; now rewrite premaster_random_length).
  pose proof (encrypt_fits k (premaster c)) as Hf. rewrite Lp in Hf.
  kgo. rewrite Ep, En, Nat.eqb_refl, Ex. cbn [mbind option_bind is_null orb negb]. rewrite Ek, Esm. cbn [negb].
  kgo. eapply fill_pms_run; kred; [apply lookup_insert_eq | klen |]. rewrite !insert_insert_eq.
  cbn [negb]. kgo. rewrite !every_call. cbn [orb negb]. kgo.
  eapply put_encrypted_run; kred; [exact Rp | assumption | apply lookup_insert_eq | assumption | assumption | |].
  { unfold room in *. lia. }
  intros p1 R1 A1. cbn [negb]. kgo.
  eapply wp_encaps_run; kred;
    [exact R | apply point2oct_length | reflexivity | lia | heap_lookup | klen | heap_lookup | klen | heap_lookup |].
  cbn [Z.eqb]. kgo.
  eapply (wp_put_room 2); kred; [exact R1 | now apply append_ne | lia | easy | | easy |].
  { unfold room, advanced in *. lia. }
  intros p2 R2 A2.
  eapply wp_put_mem_room; kred; [exact R2 | now apply append_ne, append_ne | heap_lookup | klen | easy | |].
  { unfold room, advanced, ECC_KYBER_HYBRID_CT_SIZE, KYBER_768_CT_SIZE in *. lia. }
  intros p3 R3 A3. cbn [negb]. kgo. rewrite Ep, En. kgo.
  apply HQ; kred; [| | reflexivity].
  - now rewrite !append_append, drop_0, take_ge, <- app_assoc in R3 by klen.
  - eexists. split; [reflexivity |]. kred. split; [lia |]. heap_lookup.
Qed.

(** The server up to the decryption of the premaster secret, whatever its
    length: [m] is in a block of the size that the library gave. *)
Lemma cke_ecckyber_decrypted P c ekey ct m kct pkt s :
  packet_wf pkt -> view pkt = ecckyber_cke ct kct -> length kct = ECC_KYBER_HYBRID_CT_SIZE ->
  0 < Z.of_nat (length ct) < 256 ^ 2 ->
  sm2_enc_key c = Some ekey -> pkey_decrypt ekey ct = Some m ->
  (0 < length m <= pkey_decrypt_size ekey ct)%nat ->
  (forall s' a rest, a = next (k_mem s) -> next (k_mem s') = a + 1 ->
     heap (k_mem s') !! a = Some (m ++ rest) -> (forall a', a' <> a -> heap (k_mem s') !! a' = heap (k_mem s) !! a') ->
     pms s' = pms s -> pmslen s' = pmslen s -> ends P (cke_ecckyber_combine c kct (Ptr a) (length m)) s') ->
  ends P (tls_process_cke_ecckyber_ntls c pkt) s.
Proof.
  intros W V Lkct Hct Ek Ed Hsz HP. unfold tls_process_cke_ecckyber_ntls.
  rewrite remaining_ne by (try rewrite V; unfold ecckyber_cke; easy). unfold ecckyber_cke in V.
  apply ends_bind. eapply (wp_get_vec 2 PACKET_get_net_2 pkt ct);
    [exact simulates_2 | lia | assumption | exact V | lia |].
  intros sub p1 Ws Vs W1 B1 V1.
  rewrite (remaining_ne sub) by (try rewrite Vs; destruct ct; easy).
  apply ends_bind, (wp_get_net_2 _ _ _ _ _ W1 V1); [easy |]. intros p2 W2 B2 V2.
  rewrite Z.eqb_refl. cbn [negb]. rewrite <- (app_nil_r kct) in V2.
  destruct (get_bytes_view p2 kct [] (Z.of_nat ECC_KYBER_HYBRID_CT_SIZE) W2 V2) as (d & p3 & -> & Eb & W3 & B3 & V3);
    [now rewrite Lkct |].
  apply ends_bind, (wp_reads _ kct); [now rewrite B3 |]. apply ends_bind. kgo.
  rewrite (remaining_nil p3) by assumption. cbn [Z.eqb negb].
  rewrite Ek, !every_call. cbn [negb orb]. apply ends_bind, (wp_reads _ ct); [now rewrite packet_bytes_view, Vs |].
  apply ends_bind, wp_malloc_ok; [apply every_alloc | lia |]. kred. rewrite Ed.
  apply ends_bind. kgo. eapply HP; kred; [reflexivity | reflexivity | | | reflexivity | reflexivity].
  - rewrite lookup_insert_eq. unfold copy_at. reflexivity.
  - intros a' Ha'. now rewrite !lookup_insert_ne by congruence.
Qed.

Lemma process_cke_ecckyber_run c ekey ct m ecc kpk ksk kct kss pkt a Q s :
  kem_run sampler_fuel keygen_coins encaps_coins kpk ksk kct kss ->
  packet_wf pkt -> view pkt = ecckyber_cke ct kct -> 0 < Z.of_nat (length ct) < 256 ^ 2 ->
  sm2_enc_key c = Some ekey -> is_server c = true ->
  pkey_decrypt ekey ct = Some m -> length m = SSL_MAX_MASTER_KEY_LENGTH ->
  (length m <= pkey_decrypt_size ekey ct)%nat ->
  pms s = Ptr a -> a < next (k_mem s) -> heap (k_mem s) !! a = Some (ecc ++ ksk) ->
  length ecc = ECC_SK_SIZE -> pmslen s = ECC_KYBER_HYBRID_SK_SIZE ->
  (forall s', master_key s' = Some (master_secret (client_random c ++ server_random c ++ m ++ kss)) ->
     Q true s') ->
  wp (tls_process_cke_ecckyber_ntls c pkt) Q s.
Proof.
  intros R W V Hct Ek Es Ed Lm Hsz Ep Ha Eh Le En HQ.
  apply wp_ends. eapply cke_ecckyber_decrypted; try eassumption; [apply R | rewrite Lm in *; unfold SSL_MAX_MASTER_KEY_LENGTH in *; lia |].
  intros s1 a1 rest -> En1 Em1 Hh Ep1 El1. rewrite <- Hh in Eh by lia.
  apply ends_wp.
  unfold cke_ecckyber_combine, cke_ecckyber_err. rewrite Lm. kgo.
  rewrite Ep1, El1, Ep, En, Nat.eqb_refl. kgo.
  eapply wp_decaps_run; kred; [exact R | exact Le | heap_lookup | klen | heap_lookup |].
  cbn [Z.eqb]. kgo. unfold ssl_generate_master_secret. rewrite every_call, Es. kgo. now apply HQ.
Qed.

Lemma post_work_run c a b Q s :
  is_server c = false -> pms s = Ptr a -> heap (k_mem s) !! a = Some b -> length b = pmslen s ->
  (forall s', master_key s' = Some (master_secret (client_random c ++ server_random c ++ b)) ->
     pms s' = NULL -> heap (k_mem s') !! a = None -> Q true s') ->
  wp (tls_client_key_exchange_post_work_ntls c) Q s.
Proof.
  intros Es Ep Eh Lb HQ. unfold tls_client_key_exchange_post_work_ntls. kgo. rewrite Ep, <- Lb. kred. kgo.
  unfold ssl_generate_master_secret. rewrite every_call, Es. kgo. kred. kgo.
  apply HQ; kred; [reflexivity | reflexivity | apply lookup_delete_eq].
Qed.


End Runs.
