(* ===== verification/KexSign.v ===== *)
(** * Key exchange messages: the signature of ServerKeyExchange

    When no call fails, the bytes that the server signs are the bytes that the
    client verifies, for each key exchange: the randoms, then the parameters,
    the certificate of the encryption key, or both. *)

From S2P Require Import Prelude Buffers CMem Packet PacketSpec Wpacket WpacketSpec PacketRules KyberReduce KyberSymmetric KyberPoly KyberPolyvec KyberCodec KyberIndcpa KyberSample KyberIndcpaSpec KyberKem KyberKemSpec HybridKem HybridSpec KexTypes KexLogic KexClient KexServer KexRuns.

Section Sign.
Context {S : Symmetric} {SL : SymmetricLaws S} {C : Curve} {CL : CurveLaws} {K : Crypto} {KL : CryptoLaws} {A : Alloc}.
Context {OK : NoFailure}.

(** Blocks that were there are still there. *)
Definition keeps (s s' : kex) : Prop :=
  next (k_mem s) <= next (k_mem s')
  /\ (forall a b, a < next (k_mem s) -> heap (k_mem s) !! a = Some b -> heap (k_mem s') !! a = Some b)
  /\ pms s' = pms s /\ pmslen s' = pmslen s /\ tmp_pkey s' = tmp_pkey s
  /\ peer_tmp s' = peer_tmp s /\ aigis_kem_pkey s' = aigis_kem_pkey s.

Lemma keeps_holds s s' p b : keeps s s' -> holds s p b -> holds s' p b.
Proof.
  intros (Hn & Hh & _) (a & -> & Ha & E). exists a. split; [reflexivity |]. split; [lia | auto].
Qed.

(** The certificate with its length, and what is signed. *)
Definition cert_asn1 (x : X509) : list Z := be_bytes 3 (Z.of_nat (length (i2d_X509 x))) ++ i2d_X509 x.
Definition ske_tbs (c : conn) (params : list Z) : list Z := client_random c ++ server_random c ++ params.


Lemma x509_to_asn1_run x Q s :
  i2d_X509 x <> [] ->
  (forall a s', a = next (k_mem s) -> s' = set_mem (mk_memory (<[a := cert_asn1 x]> (heap (k_mem s))) (a + 1)) s ->
     Q (Ptr a, length (cert_asn1 x)) s') ->
  wp (x509_to_asn1_ntls x) Q s.
Proof.
  intros Hx HQ. unfold x509_to_asn1_ntls. rewrite every_call.
  assert (Hl : length (i2d_X509 x) <> 0%nat) by now destruct (i2d_X509 x).
  rewrite (proj2 (Nat.eqb_neq _ _) Hl). kred. apply wp_bind, wp_malloc_ok; [apply every_alloc | lia |]. kred.
  apply wp_bind. eapply wp_store; kred; [apply lookup_insert_eq | klen |].
  apply wp_bind. eapply wp_store; kred; [apply lookup_insert_eq | |].
  { rewrite copy_at_length; klen. }
  kgo. replace (length (i2d_X509 x) + 3)%nat with (length (cert_asn1 x)) by (unfold cert_asn1; klen).
  apply HQ; [reflexivity |]. rewrite !insert_insert_eq.
  rewrite (copy_at_app 0 (be_bytes 3 _)), copy_at_whole by (unfold cert_asn1; klen). reflexivity.
Qed.

Lemma keeps_refl s : keeps s s.
Proof. unfold keeps. split; [lia |]. auto 10. Qed.

Lemma construct_tbs_run c params Q s :
  length (client_random c) = SSL3_RANDOM_SIZE -> length (server_random c) = SSL3_RANDOM_SIZE ->
  (forall a s', a = next (k_mem s) -> s' = set_mem (mk_memory (<[a := ske_tbs c params]> (heap (k_mem s))) (a + 1)) s ->
     Q (Ptr a, length (ske_tbs c params)) s') ->
  wp (construct_key_exchange_tbs_ntls c params) Q s.
Proof.
  intros Lc Ls HQ. unfold construct_key_exchange_tbs_ntls. unfold SSL3_RANDOM_SIZE in *.
  apply wp_bind, wp_malloc_ok; [apply every_alloc | lia |]. kred.
  do 3 (apply wp_bind; eapply wp_store; kred; [apply lookup_insert_eq | rewrite ?copy_at_length by (rewrite ?copy_at_length by klen; klen); klen |]).
  kgo. replace (2 * 32 + length params)%nat with (length (ske_tbs c params)) by (unfold ske_tbs; klen).
  apply HQ; [reflexivity |]. rewrite !insert_insert_eq.
  rewrite copy_second, app_assoc, copy_at_rest by (unfold ske_tbs; klen).
  unfold ske_tbs. now rewrite <- app_assoc.
Qed.

(** The bytes of the current sub-packet, in the buffer *)
Lemma init_buf_run n fl body fs off Q s :
  rep (k_pkt s) (mk_frame n fl body :: fs) -> off = written (k_pkt s) - Z.of_nat (length body) -> Q body s ->
  wp (init_buf_bytes off (Z.of_nat (length body))) Q s.
Proof.
  intros R -> HQ. unfold init_buf_bytes. kgo. apply wp_reads with body; [| exact HQ].
  destruct (rep_opened _ _ _ R) as (pre & hole & sub & ss & _ & O & _).
  pose proof (opened_written _ _ _ _ _ _ R O) as Lw. cbn [f_len f_body] in Lw.
  pose proof (contents_length _ _ R) as Lc. pose proof (op_bytes _ _ _ _ _ O) as E. cbn [f_body] in E.
  pose proof (op_hole _ _ _ _ _ O) as Lh. cbn [f_len] in Lh.
  fold (contents (k_pkt s)). unfold bytes_at.
  rewrite (proj2 (Z.leb_le 0 _)), (proj2 (Z.leb_le _ (Z.of_nat _))) by lia. cbn [andb]. f_equal.
  rewrite <- (take_drop (Z.to_nat (written (k_pkt s))) (contents (k_pkt s))), E.
  rewrite app_assoc, <- app_assoc. rewrite drop_app_length' by klen.
  rewrite Nat2Z.id. apply take_app_length.
Qed.

(** The signature is reserved, made and written like the ciphertext. *)
Lemma put_signature_run key siglen t fs Q s :
  rep (k_pkt s) fs -> fs <> [] ->
  (0 < length (sign key t) <= siglen)%nat -> Z.of_nat (length (sign key t)) < 256 ^ 2 ->
  room (k_pkt s) (2 + Z.of_nat siglen) ->
  (forall p', rep p' (append (be_bytes 2 (Z.of_nat (length (sign key t))) ++ sign key t) fs) ->
     advanced (k_pkt s) (2 + Z.of_nat (length (sign key t))) p' -> Q true (set_pkt p' s)) ->
  wp (put_signature key siglen t) Q s.
Proof.
  intros Rp Hne Hl Hl2 Hr HQ. unfold put_signature. rewrite !every_call. kgo.
  destruct (sub_fill_ok (k_pkt s) fs (Z.of_nat siglen) (sign key t) Rp Hne Hr)
    as (x & q & p' & -> & Ew & Ea & R' & Ad); [apply every_alloc | lia | lia |].
  kgo. kred. kgo. eapply wp_reads; [exact Ew |]. kgo.
  eapply wp_reads; [exact Ea |]. kgo.
  cbn [andb]. rewrite bool_decide_true by reflexivity. now apply HQ.
Qed.

(** The certificate is signed, for ECC with Kyber followed by the parameters;
    else the parameters alone are. *)
Definition cert_signed (alg_k : Z) : bool :=
  has alg_k (Z.lor (Z.lor SSL_kRSA SSL_kSM2) (Z.lor SSL_kECCKyber SSL_kKyber)).
Definition signed_bytes (alg_k : Z) (x : X509) (params : list Z) : list Z :=
  if cert_signed alg_k
  then if has alg_k SSL_kECCKyber then cert_asn1 x ++ params else cert_asn1 x
  else params.

(** A block made by a run that began in [s] *)
Definition made (s s' : kex) (p : ptr) (b : list Z) : Prop :=
  exists a, p = Ptr a /\ next (k_mem s) <= a < next (k_mem s') /\ heap (k_mem s') !! a = Some b.

Lemma signed_buf_run c xo x n fl params fs Q s :
  rep (k_pkt s) (mk_frame n fl params :: fs) -> i2d_X509 x <> [] ->
  (cert_signed (algorithm_mkey c) = true -> xo = Some x) ->
  (forall s' buf len, keeps s s' -> k_pkt s' = k_pkt s ->
     (if cert_signed (algorithm_mkey c)
      then made s s' buf (signed_bytes (algorithm_mkey c) x params)
           /\ len = length (signed_bytes (algorithm_mkey c) x params)
      else s' = s /\ buf = NULL) -> Q (Some (buf, len)) s') ->
  wp (signed_buf c xo (written (k_pkt s) - Z.of_nat (length params)) (Z.of_nat (length params))) Q s.
Proof.
  intros R Hx Hxo HQ. unfold signed_buf. fold (cert_signed (algorithm_mkey c)). unfold signed_bytes in HQ.
  destruct (cert_signed (algorithm_mkey c)); [| apply HQ; auto using keeps_refl]. rewrite Hxo by reflexivity.
  apply wp_bind, x509_to_asn1_run; [assumption |]. intros a s1 Ea Es1. cbn [is_null].
  destruct (has (algorithm_mkey c) SSL_kECCKyber).
  - assert (Ln : (length (cert_asn1 x) <> 0)%nat) by (unfold cert_asn1; klen).
    rewrite Es1. apply wp_bind, wp_malloc_ok; [apply every_alloc | lia |]. kred.
    apply wp_bind. eapply wp_memcpy; kred; [heap_lookup | lia | heap_lookup | klen |].
    rewrite drop_0, take_ge, copy_first by lia. kred.
    apply wp_bind. eapply init_buf_run; [exact R | reflexivity |]. kred.
    apply wp_bind. eapply wp_store; kred; [heap_lookup | klen |].
    rewrite copy_at_rest by klen. kgo.
    apply HQ; kred; [| reflexivity |].
    + unfold keeps. kred. split; [lia |]. split; [| auto 10]. intros a' b Ha' E. heap_lookup.
    + split; [| klen]. eexists. split; [reflexivity |]. kred. split; [lia |]. heap_lookup.
  - kgo. apply HQ; rewrite ?Es1; [| reflexivity |].
    + unfold keeps. kred. split; [lia |]. split; [| auto 10]. intros a' b Ha' E. heap_lookup.
    + split; [| reflexivity]. eexists. split; [reflexivity |]. kred. split; [lia |]. heap_lookup.
Qed.

(** The bytes that are reserved for the signature *)
Definition sig_room (c : conn) (key : EVP_PKEY) : nat :=
  if sigalg_is_ml_dsa c then 2420%nat
  else if (0 <? sign_size key)%nat then sign_size key else if is_ML_DSA key then 2420%nat else 0%nat.

(** A signature that fits *)
Definition sig_fits (c : conn) (key : EVP_PKEY) (t : list Z) : Prop :=
  (0 < length (sign key t) <= sig_room c key)%nat /\ Z.of_nat (length (sign key t)) < 256 ^ 2.

Definition vec16 (b : list Z) : list Z := be_bytes 2 (Z.of_nat (length b)) ++ b.

Lemma keeps_trans s1 s2 s3 : keeps s1 s2 -> keeps s2 s3 -> keeps s1 s3.
Proof.
  intros (N1 & H1 & E1) (N2 & H2 & E2).
  split; [lia |]. split; [| intuition congruence]. intros a b Ha E. apply H2; [lia | auto].
Qed.

Lemma sign_params_run c key x n fl params fs Q s :
  rep (k_pkt s) (mk_frame n fl params :: fs) -> i2d_X509 x <> [] ->
  (signing_key c).1 = Some key -> (cert_signed (algorithm_mkey c) = true -> (signing_key c).2 = Some x) ->
  length (client_random c) = SSL3_RANDOM_SIZE -> length (server_random c) = SSL3_RANDOM_SIZE ->
  let t := ske_tbs c (signed_bytes (algorithm_mkey c) x params) in
  sig_fits c key t -> room (k_pkt s) (2 + Z.of_nat (sig_room c key)) ->
  (forall s', keeps s s' -> rep (k_pkt s') (append (vec16 (sign key t)) (mk_frame n fl params :: fs)) ->
     Q true s') ->
  wp (sign_params c (written (k_pkt s) - Z.of_nat (length params)) (Z.of_nat (length params))) Q s.
Proof.
  intros R Hx Hk Hxo Lc Ls t (Hs1 & Hs2) Hr HQ. unfold sign_params.
  destruct (signing_key c) as [k xo]. cbn [fst snd] in Hk, Hxo. rewrite Hk, !every_call. rewrite andb_false_r. kred.
  assert (Ht : length t <> 0%nat) by (unfold t, ske_tbs, SSL3_RANDOM_SIZE in *; klen).
  apply wp_bind. eapply signed_buf_run; [exact R | exact Hx | exact Hxo |].
  intros s1 buf len K1 P1 Hb. fold (sig_room c key).
  assert (Hz : (sig_room c key =? 0)%nat = false) by (apply Nat.eqb_neq; lia).
  destruct (cert_signed (algorithm_mkey c)) eqn:Ec.
  - destruct Hb as ((a & -> & Ha & Eb) & ->). cbn [is_null].
    apply wp_bind. eapply wp_load; [exact Eb | lia |]. rewrite drop_0, firstn_all.
    apply wp_bind, construct_tbs_run; [assumption | assumption |]. intros a2 s2 Ea2 ->. fold t.
    apply wp_bind. eapply wp_free; kred; [heap_lookup |].
    rewrite (proj2 (Nat.eqb_neq _ _) Ht), Hz.
    apply wp_bind. eapply wp_load; kred; [heap_lookup | apply Nat.le_refl |]. rewrite drop_0, firstn_all.
    apply wp_bind. eapply put_signature_run; kred; rewrite ?P1; [exact R | easy | exact Hs1 | exact Hs2 | exact Hr |].
    intros p' R' _. kred. apply wp_bind. eapply wp_free; kred; [heap_lookup |]. kgo.
    apply HQ; kred; [| exact R'].
    destruct K1 as (N1 & H1 & K1). unfold keeps. kred. split; [lia |]. split; [| exact K1].
    intros a' b' Ha' E'. specialize (H1 a' b' Ha' E'). heap_lookup.
  - destruct Hb as (-> & ->). cbn [is_null].
    assert (Et : ske_tbs c params = t) by (unfold t, signed_bytes; now rewrite Ec).
    apply wp_bind. eapply init_buf_run; [exact R | reflexivity |].
    apply wp_bind, construct_tbs_run; [assumption | assumption |]. intros a2 s2 Ea2 ->. rewrite Et. kgo.
    rewrite (proj2 (Nat.eqb_neq _ _) Ht), Hz.
    apply wp_bind. eapply wp_load; kred; [heap_lookup | apply Nat.le_refl |]. rewrite drop_0, firstn_all.
    apply wp_bind. eapply put_signature_run; kred; [exact R | easy | exact Hs1 | exact Hs2 | exact Hr |].
    intros p' R' _. kred. apply wp_bind. eapply wp_free; kred; [heap_lookup |]. kgo.
    apply HQ; kred; [| exact R'].
    unfold keeps. kred. split; [lia |]. split; [| auto 10]. intros a' b' Ha' E'. heap_lookup.
Qed.

(** The key exchanges of the cipher suites: one bit each *)
Definition kexes : list Z :=
  [SSL_kRSA; SSL_kSM2; SSL_kSM2DHE; SSL_kECCKyber; SSL_kECDHEKyber; SSL_kKyber; SSL_kKyberAigisEnc].

Lemma params_between_view save pkt params rest :
  packet_wf save -> view save = params ++ rest -> packet_wf pkt -> view pkt = rest ->
  exists sub, params_between save pkt = Some sub /\ packet_wf sub /\ view sub = params.
Proof.
  intros W V W' V'. unfold params_between, PACKET_remaining.
  pose proof (view_length save W) as L. pose proof (view_length pkt W') as L'.
  rewrite V, length_app in L. rewrite V' in L'.
  pose proof W as (_ & Hr & _). unfold SIZE_MAX in Hr.
  rewrite u64_small by (zdm; lia). replace (remaining save - remaining pkt) with (Z.of_nat (length params)) by lia.
  pose proof (get_sub_packet_ok save (Z.of_nat (length params)) W) as G.
  unfold read_bytes in G. rewrite V, Nat2Z.id, length_app, (proj2 (Nat.leb_le _ _)) in G by lia.
  rewrite take_app_length in G.
  destruct (PACKET_get_sub_packet _ _) as [[sub p] |]; [| now specialize (G ltac:(lia))].
  destruct G as ((Ws & _ & Vs) & _); [lia |]. exists sub. auto.
Qed.

Lemma signed_params_run c x save pkt params rest Q s :
  algorithm_mkey c ∈ kexes -> peer_enc_cert c = Some x -> i2d_X509 x <> [] ->
  Z.of_nat (length (i2d_X509 x)) < 2 ^ 24 -> Z.of_nat (length params) < 2 ^ 24 ->
  packet_wf save -> view save = params ++ rest -> packet_wf pkt -> view pkt = rest ->
  (forall s' buf, keeps s s' ->
     (if cert_signed (algorithm_mkey c) then made s s' buf (signed_bytes (algorithm_mkey c) x params)
      else s' = s /\ buf = NULL) -> Q (inr (buf, signed_bytes (algorithm_mkey c) x params)) s') ->
  wp (signed_params c save pkt) Q s.
Proof.
  intros Ha Ex Hx Hx24 Lp W V W' V' HQ. unfold signed_params.
  destruct (params_between_view save pkt params rest W V W' V') as (sub & -> & Wsub & Vsub).
  assert (In_packet : signed_bytes (algorithm_mkey c) x params = params ->
     cert_signed (algorithm_mkey c) = false ->
     wp (b ← packet_bytes sub; mret (inr (NULL, b))) Q s).
  { intros E Ec. rewrite E, Ec in HQ. apply wp_bind. unfold packet_bytes.
    eapply wp_reads; [now apply packet_bytes_view |]. rewrite Vsub. kgo. now apply HQ, conj. }
  assert (Lx : length (cert_asn1 x) = (3 + length (i2d_X509 x))%nat) by (unfold cert_asn1; klen).
  assert (Init : forall n : nat, Z.of_nat n < 2 ^ 26 ->
     PACKET_buf_init [] 0 (Z.of_nat n) = Some (mk_packet [] 0 (Z.of_nat n))).
  { intros m Hm. unfold PACKET_buf_init. rewrite (proj2 (Z.ltb_ge _ _)); [reflexivity |].
    change (SIZE_MAX / 2) with (2 ^ 63 - 1). lia. }
  rewrite Ex. unfold kexes in Ha. rewrite !elem_of_cons, elem_of_nil in Ha.
  unfold cert_signed, signed_bytes, cert_signed in *.
  destruct Ha as [E | [E | [E | [E | [E | [E | [E | []]]]]]]]; rewrite E in *;
    cbv [has SSL_kRSA SSL_kSM2 SSL_kSM2DHE SSL_kECCKyber SSL_kECDHEKyber SSL_kKyber SSL_kKyberAigisEnc
         Z.land Z.lor Z.eqb Pos.land Pos.lor Pos.eqb negb Pos.Nsucc_double Pos.Ndouble Z.of_N N.double N.succ_double] in *.
  3, 5, 7: now apply In_packet.
  1, 2, 4: apply wp_bind, x509_to_asn1_run; [assumption |]; intros a s1 -> ->; cbn [is_null];
    rewrite Init by lia; kgo;
    apply HQ; [split; kred; [lia |]; split; [| auto]; intros a' b' Ha' E'; heap_lookup |];
    eexists; split; [reflexivity |]; kred; split; [lia |]; heap_lookup.
  apply wp_bind, x509_to_asn1_run; [assumption |]; intros a s1 -> ->; cbn [is_null].
  unfold PACKET_remaining. rewrite <- (view_length sub Wsub), Vsub, Nat2Z.id.
  apply wp_bind, wp_malloc_ok; [apply every_alloc | lia |]. kred.
  apply wp_bind. eapply wp_memcpy; kred; [heap_lookup | lia | heap_lookup | klen |].
  rewrite drop_0, take_ge, copy_first by lia. kred.
  apply wp_bind. unfold packet_bytes. eapply wp_reads; [now apply packet_bytes_view |]. rewrite Vsub.
  apply wp_bind. eapply wp_store; kred; [heap_lookup | klen |]. rewrite copy_at_rest by klen.
  apply wp_bind. eapply wp_free; kred; [heap_lookup |].
  rewrite Init by lia. kgo.
  apply HQ; [split; kred; [lia |]; split; [| auto]; intros a' b' Ha' E'; heap_lookup |].
  eexists; split; [reflexivity |]; kred; split; [lia |]; heap_lookup.
Qed.

Lemma check_signature_run c x key save pkt params sig Q s :
  algorithm_mkey c ∈ kexes -> peer_enc_cert c = Some x -> i2d_X509 x <> [] ->
  Z.of_nat (length (i2d_X509 x)) < 2 ^ 24 -> Z.of_nat (length params) < 2 ^ 24 ->
  length (client_random c) = SSL3_RANDOM_SIZE -> length (server_random c) = SSL3_RANDOM_SIZE ->
  packet_wf save -> view save = params ++ vec16 sig -> packet_wf pkt -> view pkt = vec16 sig ->
  Z.of_nat (length sig) < 256 ^ 2 ->
  verify key sig (ske_tbs c (signed_bytes (algorithm_mkey c) x params)) = true ->
  (forall s', keeps s s' -> Q true s') ->
  wp (check_signature c key save pkt) Q s.
Proof.
  intros Ha Ex Hx Hx24 Lp Lc Ls W V W' V' Hsig Hv HQ. unfold check_signature.
  apply wp_bind. eapply signed_params_run; try eassumption.
  intros s1 buf K1 Hb. rewrite !every_call. kred.
  apply wp_bind. eapply (wp_get_vec 2 PACKET_get_net_2 pkt sig [] _ _ simulates_2);
    [lia | assumption | now rewrite app_nil_r | lia |].
  intros sub p Wsub Vsub Wp Bp Vp. rewrite (remaining_nil p) by assumption. cbn [Z.eqb negb]. rewrite !andb_false_r. kred.
  set (b := signed_bytes (algorithm_mkey c) x params) in *.
  apply wp_bind, construct_tbs_run; [assumption | assumption |]. intros a2 s2 Ea2 ->.
  assert (Ht : length (ske_tbs c b) <> 0%nat) by (unfold ske_tbs, SSL3_RANDOM_SIZE in *; klen).
  rewrite (proj2 (Nat.eqb_neq _ _) Ht).
  destruct K1 as (N1 & H1 & K1). destruct (cert_signed (algorithm_mkey c)).
  - destruct Hb as (a & -> & Hab & Eb). 
    apply wp_bind. eapply wp_free; kred; [heap_lookup |].
    apply wp_bind. eapply wp_reads; [now apply packet_bytes_view |]. rewrite Vsub.
    apply wp_bind. eapply wp_load; kred; [heap_lookup | apply Nat.le_refl |]. rewrite drop_0, firstn_all.
    apply wp_bind. eapply wp_free; kred; [heap_lookup |]. rewrite Hv. kgo.
    apply HQ. unfold keeps. kred. split; [lia |]. split; [| exact K1].
    intros a' b' Ha' E'. specialize (H1 a' b' Ha' E'). heap_lookup.
  - destruct Hb as (-> & ->). kgo.
    eapply wp_reads; [now apply packet_bytes_view |]. rewrite Vsub.
    apply wp_bind. eapply wp_load; kred; [heap_lookup | apply Nat.le_refl |]. rewrite drop_0, firstn_all.
    apply wp_bind. eapply wp_free; kred; [heap_lookup |]. rewrite Hv. kgo.
    apply HQ. unfold keeps. kred. split; [lia |]. split; [| auto 10]. intros a' b' Ha' E'. heap_lookup.
Qed.
End Sign.
