(* ===== verification/KexRunsEvp.v ===== *)
(** * Key exchange messages: more runs in which no call fails

    The exchanges that encrypt a premaster secret under the key of the
    encryption certificate, and those that encapsulate through EVP. *)

From S2P Require Import Prelude Buffers CMem Packet PacketSpec Wpacket WpacketSpec PacketRules KyberSymmetric HybridKem HybridSpec KexTypes KexLogic KexClient KexServer KexRuns KexSign.

(** The goals that a run ends in: what it keeps, and where a block is. *)
Ltac kkeeps := unfold keeps; kred; split; [lia |]; split; [| auto 10]; intros; heap_lookup.
Ltac kblock := split; kred; [lia | heap_lookup].

Section EvpRuns.
Context {S : Symmetric} {C : Curve} {CL : CurveLaws} {K : Crypto} {KL : CryptoLaws} {A : Alloc}.
Context {OK : NoFailure}.

(** ** An encoded public key *)

Lemma get1_encoded_run call k Q s :
  encoded_public_key k <> [] ->
  (forall a s', a = next (k_mem s) ->
     s' = set_mem (mk_memory (<[a := encoded_public_key k]> (heap (k_mem s))) (a + 1)) s ->
     Q (Ptr a, length (encoded_public_key k)) s') ->
  wp (get1_encoded_public_key call k) Q s.
Proof.
  intros Hk HQ. unfold get1_encoded_public_key. rewrite every_call. cbn [negb].
  assert (Hl : length (encoded_public_key k) <> 0%nat) by now destruct (encoded_public_key k).
  apply wp_bind, wp_malloc_ok; [apply every_alloc | exact Hl |]. kred.
  apply wp_bind. eapply wp_store; kred; [heap_lookup | klen |]. rewrite copy_at_whole by klen. kgo.
  apply HQ; [reflexivity |]. now rewrite insert_insert_eq.
Qed.

(** ** A premaster secret under the key of the encryption certificate *)

Definition pms_kex (alg_k : Z) : Prop := alg_k = SSL_kRSA \/ alg_k = SSL_kSM2.

Lemma construct_cke_pms_run c x k alg_k fs Q s :
  pms_kex alg_k -> peer_enc_cert c = Some x -> X509_get0_pubkey x = Some k ->
  (alg_k = SSL_kRSA -> is_RSA k = true) -> (alg_k = SSL_kSM2 -> is_SM2 k = true) ->
  encoded_public_key k <> [] ->
  0 < Z.of_nat (length (pkey_encrypt k (premaster c))) < 256 ^ 2 ->
  rep (k_pkt s) fs -> fs <> [] ->
  room (k_pkt s) (2 + Z.of_nat (pkey_encrypt_size k SSL_MAX_MASTER_KEY_LENGTH)) ->
  (forall s', rep (k_pkt s') (append (vec16 (pkey_encrypt k (premaster c))) fs) ->
     holds s' (pms s') (premaster c) -> pmslen s' = SSL_MAX_MASTER_KEY_LENGTH -> Q true s') ->
  wp (tls_construct_cke_pms_ntls c alg_k) Q s.
Proof.
  intros Ha Ex Ek Hrsa Hsm He Hct Rp Hne Hr HQ. unfold tls_construct_cke_pms_ntls. rewrite Ex, Ek.
  assert (Lp : length (premaster c) = SSL_MAX_MASTER_KEY_LENGTH)
    by (unfold premaster; cbn [length]; now rewrite premaster_random_length).
  assert (E1 : (has alg_k SSL_kRSA && negb (is_RSA k)) || (has alg_k SSL_kSM2 && negb (is_SM2 k)) = false).
  { destruct Ha as [-> | ->]; [rewrite Hrsa by reflexivity | rewrite Hsm by reflexivity]; reflexivity. }
  rewrite E1, !every_call, !andb_false_r. kgo.
  eapply fill_pms_run; kred; [apply lookup_insert_eq | klen |]. rewrite !insert_insert_eq. cbn [negb].
  assert (E2 : has alg_k SSL_kSM2 || has alg_k SSL_kRSA = true) by (destruct Ha as [-> | ->]; reflexivity).
  rewrite E2. kgo.
  apply get1_encoded_run; [exact He |]. intros a s1 -> ->. kred.
  assert (Hl : length (encoded_public_key k) <> 0%nat) by now destruct (encoded_public_key k).
  rewrite (proj2 (Nat.eqb_neq _ _) Hl). kred. kgo.
  eapply put_encrypted_run; kred; [exact Rp | assumption | heap_lookup | exact Lp | assumption | assumption |].
  intros p1 R1 _. cbn [negb]. kgo. apply HQ; kred; [exact R1 | | reflexivity].
  eexists. split; [reflexivity |]. kred. split; [lia |]. heap_lookup.
Qed.

Lemma process_cke_pms_run c key ct m alg_k pkt Q s :
  pms_kex alg_k -> (alg_k = SSL_kRSA -> rsa_enc_key c = Some key) -> (alg_k = SSL_kSM2 -> sm2_enc_key c = Some key) ->
  packet_wf pkt -> view pkt = vec16 ct -> Z.of_nat (length ct) < 256 ^ 2 -> is_server c = true ->
  pkey_decrypt key ct = Some m -> length m = SSL_MAX_MASTER_KEY_LENGTH ->
  (forall s', master_key s' = Some (master_secret (client_random c ++ server_random c ++ m)) -> Q true s') ->
  wp (tls_process_cke_pms_ntls c alg_k pkt) Q s.
Proof.
  intros Ha Hr Hs W V Hct Es Ed Lm HQ. unfold tls_process_cke_pms_ntls.
  assert (Ek : (if has alg_k SSL_kRSA then rsa_enc_key c else if has alg_k SSL_kSM2 then sm2_enc_key c else None)
               = Some key) by (destruct Ha as [-> | ->]; cbn; auto).
  rewrite Ek, !every_call, !andb_false_r. apply wp_bind.
  eapply (wp_get_vec 2 PACKET_get_net_2 pkt ct []);
    [exact simulates_2 | lia | assumption | now rewrite app_nil_r | lia |].
  intros sub p1 Ws Vs W1 _ V1. rewrite (remaining_nil p1) by assumption. cbn [Z.eqb negb]. kgo.
  eapply wp_reads; [now apply packet_bytes_view |]. rewrite Vs, Ed.
  rewrite (proj2 (Nat.ltb_ge _ _)) by lia. kgo. rewrite Lm, Nat.eqb_refl. cbn [negb]. kgo.
  unfold ssl_generate_master_secret. rewrite every_call, Es. kgo. now apply HQ.
Qed.

(** ** Encapsulation through EVP *)

(** The secret of [priv] for what was encapsulated under [pub], and sizes that
    are the lengths of the results. *)
Record kem_pair (pub priv : EVP_PKEY) : Prop := {
  kem_ct_length : length (kem_encapsulate pub).1 = kem_ct_size pub;
  kem_ss_length : length (kem_encapsulate pub).2 = kem_ss_size pub;
  kem_ct_range : 0 < Z.of_nat (kem_ct_size pub) < 256 ^ 2;
  kem_ss_positive : (kem_ss_size pub <> 0)%nat;
  kem_ss_same : kem_ss_size priv = kem_ss_size pub;
  kem_decapsulates : kem_decapsulate priv (kem_encapsulate pub).1 = Some (kem_encapsulate pub).2 }.

(** [a] is a block made since [s]. *)
Definition block_since (s s' : kex) (a : Z) (b : list Z) : Prop :=
  next (k_mem s) <= a < next (k_mem s') /\ heap (k_mem s') !! a = Some b.

Lemma encapsulate_run ctx init size call pub priv Q s :
  kem_pair pub priv ->
  (forall s' a b, keeps s s' -> k_pkt s' = k_pkt s -> a <> b ->
     block_since s s' a (kem_encapsulate pub).1 -> block_since s s' b (kem_encapsulate pub).2 ->
     Q (true, Ptr a, Ptr b) s') ->
  wp (encapsulate ctx init size call pub) Q s.
Proof.
  intros P HQ. unfold encapsulate. pose proof (kem_ct_length _ _ P). pose proof (kem_ss_length _ _ P).
  pose proof (kem_ct_range _ _ P). pose proof (kem_ss_positive _ _ P).
  assert (Hc : kem_ct_size pub <> 0%nat) by lia.
  rewrite !every_call, !(proj2 (Nat.eqb_neq _ _)) by assumption. kred. kgo.
  apply HQ; [kkeeps | reflexivity | lia | kblock | kblock].
Qed.

Lemma decapsulate_run ctx init size pub priv Q s :
  kem_pair pub priv ->
  (forall s' b, keeps s s' -> k_pkt s' = k_pkt s -> block_since s s' b (kem_encapsulate pub).2 ->
     Q (true, Ptr b) s') ->
  wp (decapsulate ctx init size priv (kem_encapsulate pub).1) Q s.
Proof.
  intros P HQ. unfold decapsulate. pose proof (kem_ss_length _ _ P) as Hl.
  pose proof (kem_ss_positive _ _ P). rewrite (kem_ss_same _ _ P).
  rewrite !every_call, !(proj2 (Nat.eqb_neq _ _)) by assumption. kred. kgo.
  rewrite (kem_decapsulates _ _ P). kgo.
  apply HQ; [kkeeps | reflexivity | kblock].
Qed.

(** ** Kyber with a Dilithium signature *)

Lemma construct_cke_kyber_run c x pub priv fs Q s :
  kem_pair pub priv -> peer_enc_cert c = Some x -> X509_get0_pubkey x = Some pub -> pms s = NULL ->
  rep (k_pkt s) fs -> fs <> [] -> room (k_pkt s) (2 + Z.of_nat (kem_ct_size pub)) ->
  (forall s', rep (k_pkt s') (append (vec16 (kem_encapsulate pub).1) fs) ->
     holds s' (pms s') (kem_encapsulate pub).2 -> pmslen s' = kem_ss_size pub -> Q true s') ->
  wp (tls_construct_cke_kyber_dilithium_ntls c) Q s.
Proof.
  intros P Ex Ek Ep Rp Hne Hr HQ. unfold tls_construct_cke_kyber_dilithium_ntls.
  rewrite Ex. cbn [mbind option_bind]. rewrite Ek.
  apply wp_bind. eapply encapsulate_run; [exact P |]. intros s1 a b K1 P1 Hab (Ha & Ea) (Hb & Eb). cbn [negb].
  pose proof (kem_ct_length _ _ P) as Lc. pose proof (kem_ct_range _ _ P) as Rg. pose proof (kem_ss_length _ _ P) as Ls.
  rewrite <- P1 in Rp, Hr. destruct K1 as (N1 & H1 & E1 & _). 
  kgo. eapply (wp_put_room 2); [exact Rp | exact Hne | lia | lia | unfold room in *; lia | lia |]. intros p1 R1 A1. kred.
  eapply wp_put_mem_room; kred; [exact R1 | now apply append_ne | exact Ea | lia | unfold SIZE_MAX; lia | unfold room, advanced in *; lia |].
  intros p2 R2 A2. cbn [negb]. kgo. rewrite E1, Ep. kgo.
  apply HQ; kred; [| | reflexivity].
  - rewrite append_append, drop_0, take_ge in R2 by lia. unfold vec16. now rewrite Lc.
  - eexists. split; [reflexivity |]. kred. split; [lia |]. heap_lookup.
Qed.

Lemma read_ct_run pkt b rest Q s :
  packet_wf pkt -> view pkt = vec16 b ++ rest -> Z.of_nat (length b) < 256 ^ 2 ->
  (forall p, packet_wf p -> view p = rest -> Q (Some (b, p)) s) ->
  wp (read_ct pkt) Q s.
Proof.
  intros W V Hb HQ. unfold read_ct. unfold vec16 in V. rewrite <- app_assoc in V.
  apply wp_bind, (wp_get_net_2 _ _ _ _ _ W V); [lia |]. intros p1 W1 _ V1.
  assert (Lr : Z.of_nat (length b) <= PACKET_remaining p1).
  { unfold PACKET_remaining. rewrite <- (view_length p1 W1), V1, length_app. lia. }
  rewrite (proj2 (Z.ltb_ge _ _)) by exact Lr.
  destruct (get_bytes_view p1 b rest _ W1 V1 eq_refl) as (d & p2 & -> & Ed & W2 & B2 & V2).
  apply wp_bind, (wp_reads _ b); [now rewrite B2 |]. kgo. auto.
Qed.

Lemma process_cke_kyber_run c pub priv pkt Q s :
  kem_pair pub priv -> sm2_enc_key c = Some priv -> is_server c = true ->
  packet_wf pkt -> view pkt = vec16 (kem_encapsulate pub).1 ->
  (forall s', master_key s' = Some (master_secret (client_random c ++ server_random c ++ (kem_encapsulate pub).2)) ->
     Q true s') ->
  wp (tls_process_cke_kyber_dilithium_ntls c pkt) Q s.
Proof.
  intros P Ek Es W V HQ. unfold tls_process_cke_kyber_dilithium_ntls. rewrite <- (app_nil_r (vec16 _)) in V.
  pose proof (kem_ct_length _ _ P) as Lc. pose proof (kem_ct_range _ _ P) as Rg.
  pose proof (kem_ss_length _ _ P) as Ls. pose proof (kem_ss_same _ _ P) as Hsame.
  apply wp_bind, (read_ct_run _ _ _ _ _ W V); [lia |]. intros p1 W1 V1.
  rewrite (remaining_nil p1) by assumption. cbn [Z.eqb negb]. rewrite Ek.
  apply wp_bind. eapply decapsulate_run; [exact P |]. intros s1 b K1 P1 (Hb & Eb). cbn [negb].
  unfold ssl_generate_master_secret. rewrite every_call, Es. kgo. now apply HQ.
Qed.

(** ** Kyber and Aigis-enc *)

Lemma ske_aigis_run fs Q s :
  0 < Z.of_nat (length (encoded_public_key aigis_generate)) < 256 ^ 2 ->
  rep (k_pkt s) fs -> fs <> [] ->
  room (k_pkt s) (2 + Z.of_nat (length (encoded_public_key aigis_generate))) ->
  (forall s', rep (k_pkt s') (append (vec16 (encoded_public_key aigis_generate)) fs) ->
     advanced (k_pkt s) (2 + Z.of_nat (length (encoded_public_key aigis_generate))) (k_pkt s') ->
     aigis_kem_pkey s' = Some aigis_generate -> Q true s') ->
  wp ske_aigis Q s.
Proof.
  intros Hl Rp Hne Hr HQ. unfold ske_aigis.
  assert (H0 : length (encoded_public_key aigis_generate) <> 0%nat) by lia.
  rewrite !every_call, (proj2 (Nat.eqb_neq _ _) H0). kgo. kred. kgo.
  eapply (wp_put_room 2); kred; [exact Rp | exact Hne | lia | lia | unfold room in *; lia | lia |]. intros p1 R1 A1. kred.
  eapply wp_put_mem_room; kred;
    [exact R1 | now apply append_ne | heap_lookup | lia | unfold SIZE_MAX; lia | unfold room, advanced in *; lia |].
  intros p2 R2 A2. cbn [negb]. kgo. apply HQ; kred; [| unfold advanced in *; lia | reflexivity].
  now rewrite append_append, drop_0, take_ge in R2 by lia.
Qed.

Lemma process_ske_aigis_run apub pk pkt rest Q s :
  aigis_from_public pk = Some apub -> 0 < Z.of_nat (length pk) < 256 ^ 2 ->
  packet_wf pkt -> view pkt = vec16 pk ++ rest ->
  (forall pkt' s', packet_wf pkt' -> view pkt' = rest -> keeps (set_aigis (Some apub) s) s' -> Q (Some pkt') s') ->
  wp (process_ske_aigis pkt) Q s.
Proof.
  intros Ea Hl W V HQ. unfold process_ske_aigis. unfold vec16 in V. rewrite <- app_assoc in V.
  apply wp_bind, (wp_get_net_2 _ _ _ _ _ W V); [lia |]. intros p1 W1 _ V1.
  assert (Lr : Z.of_nat (length pk) <= PACKET_remaining p1).
  { unfold PACKET_remaining. rewrite <- (view_length p1 W1), V1, length_app. lia. }
  rewrite (proj2 (Z.ltb_ge _ _)) by exact Lr.
  destruct (get_bytes_view p1 pk rest _ W1 V1 eq_refl) as (d & p2 & -> & Ed & W2 & B2 & V2).
  apply wp_bind, (wp_reads _ pk); [now rewrite B2 |].
  assert (H0 : length pk <> 0%nat) by lia. kgo. rewrite !every_call, Ea. kred. kgo.
  apply HQ; [assumption | assumption |]. kkeeps.
Qed.

Definition aigis_cke (pub apub : EVP_PKEY) : list Z :=
  vec16 (kem_encapsulate pub).1 ++ vec16 (kem_encapsulate apub).1.

Lemma construct_cke_aigis_run c x pub priv apub apriv fs Q s :
  kem_pair pub priv -> kem_pair apub apriv ->
  peer_enc_cert c = Some x -> X509_get0_pubkey x = Some pub -> aigis_kem_pkey s = Some apub -> pms s = NULL ->
  rep (k_pkt s) fs -> fs <> [] -> room (k_pkt s) (4 + Z.of_nat (kem_ct_size pub + kem_ct_size apub)) ->
  (forall s', rep (k_pkt s') (append (aigis_cke pub apub) fs) ->
     holds s' (pms s') ((kem_encapsulate pub).2 ++ (kem_encapsulate apub).2) ->
     pmslen s' = (kem_ss_size pub + kem_ss_size apub)%nat -> Q true s') ->
  wp (tls_construct_cke_kyber_aigis_enc_dilithium_ntls c) Q s.
Proof.
  intros P P' Ex Ek Eg Ep Rp Hne Hr HQ. unfold tls_construct_cke_kyber_aigis_enc_dilithium_ntls.
  rewrite Ex. kgo. rewrite Ek, Eg.
  pose proof (kem_ct_length _ _ P) as Lc. pose proof (kem_ct_range _ _ P) as Rg. pose proof (kem_ss_length _ _ P) as Ls.
  pose proof (kem_ct_length _ _ P') as Lc'. pose proof (kem_ct_range _ _ P') as Rg'. pose proof (kem_ss_length _ _ P') as Ls'.
  pose proof (kem_ss_positive _ _ P) as Hss.
  apply wp_bind. eapply encapsulate_run; [exact P |]. intros s1 a b K1 P1 Hab (Ha & Ea) (Hb & Eb). cbn [negb].
  apply wp_bind. eapply encapsulate_run; [exact P' |]. intros s2 a' b' K2 P2 Hab' (Ha' & Ea') (Hb' & Eb'). cbn [negb].
  destruct K1 as (N1 & H1 & E1 & _), K2 as (N2 & H2 & E2 & _).
  pose proof (H2 _ _ (proj2 Ha) Ea) as Ea2. pose proof (H2 _ _ (proj2 Hb) Eb) as Eb2.
  assert (Hnz : (kem_ss_size pub + kem_ss_size apub <> 0)%nat) by lia.
  rewrite <- P1, <- P2 in Rp, Hr. kgo.
  eapply (wp_put_room 2); kred; [exact Rp | exact Hne | lia | lia | unfold room in *; lia | lia |]. intros p1 R1 A1. kgo.
  eapply wp_put_mem_room; kred;
    [exact R1 | now apply append_ne | heap_lookup | lia | unfold SIZE_MAX; lia | unfold room, advanced in *; lia |].
  intros p2 R2 A2. kgo.
  eapply (wp_put_room 2); kred; [exact R2 | now do 2 apply append_ne | lia | lia | unfold room, advanced in *; lia | lia |]. intros p3 R3 A3. kred.
  eapply wp_put_mem_room; kred;
    [exact R3 | now do 3 apply append_ne | heap_lookup | lia | unfold SIZE_MAX; lia | unfold room, advanced in *; lia |].
  intros p4 R4 A4. cbn [negb]. kgo. rewrite E2, E1, Ep. kgo.
  apply HQ; kred; [| | reflexivity].
  - rewrite !append_append, !drop_0, !take_ge in R4 by lia. unfold aigis_cke, vec16.
    rewrite Lc, Lc'. now rewrite <- !app_assoc in *.
  - eexists. split; [reflexivity |]. kred. split; [lia |]. heap_lookup.
Qed.

Lemma process_cke_aigis_run c pub priv apub apriv pkt Q s :
  kem_pair pub priv -> kem_pair apub apriv ->
  sm2_enc_key c = Some priv -> aigis_kem_pkey s = Some apriv -> is_server c = true ->
  packet_wf pkt -> view pkt = aigis_cke pub apub ->
  (forall s', master_key s' = Some (master_secret (client_random c ++ server_random c
                                      ++ (kem_encapsulate pub).2 ++ (kem_encapsulate apub).2)) -> Q true s') ->
  wp (tls_process_cke_kyber_aigis_enc_dilithium_ntls c pkt) Q s.
Proof.
  intros P P' Ek Eg Es W V HQ. unfold tls_process_cke_kyber_aigis_enc_dilithium_ntls. unfold aigis_cke in V.
  pose proof (kem_ct_length _ _ P) as Lc. pose proof (kem_ct_range _ _ P) as Rg.
  pose proof (kem_ss_length _ _ P) as Ls. pose proof (kem_ss_same _ _ P) as Hsame.
  pose proof (kem_ct_length _ _ P') as Lc'. pose proof (kem_ct_range _ _ P') as Rg'.
  pose proof (kem_ss_length _ _ P') as Ls'. pose proof (kem_ss_same _ _ P') as Hsame'.
  pose proof (kem_ss_positive _ _ P) as Hss.
  apply wp_bind, (read_ct_run _ _ _ _ _ W V); [lia |]. intros p1 W1 V1. rewrite <- (app_nil_r (vec16 _)) in V1.
  apply wp_bind, (read_ct_run _ _ _ _ _ W1 V1); [lia |]. intros p2 W2 V2.
  rewrite (remaining_nil p2) by assumption. cbn [Z.eqb negb]. kgo. rewrite Ek, Eg, Hsame, Hsame'.
  apply wp_bind. eapply decapsulate_run; [exact P |]. intros s1 b K1 P1 (Hb & Eb). cbn [negb].
  apply wp_bind. eapply decapsulate_run; [exact P' |]. intros s2 b' K2 P2 (Hb' & Eb'). cbn [negb].
  destruct K2 as (N2 & H2 & _). pose proof (H2 _ _ (proj2 Hb) Eb) as Eb2.
  assert (Hnz : (kem_ss_size pub + kem_ss_size apub <> 0)%nat) by lia. kgo.
  unfold ssl_generate_master_secret. rewrite every_call, Es. kgo. now apply HQ.
Qed.
End EvpRuns.
