(* ===== verification/KexRunsDhe.v ===== *)
(** * Key exchange messages: runs with ephemeral keys

    SM2DHE and ECDHE with Kyber, when no call fails. *)

From S2P Require Import Prelude Buffers CMem Packet PacketSpec Wpacket WpacketSpec PacketRules KyberReduce KyberSymmetric KyberPoly KyberPolyvec KyberIndcpa KyberKem HybridKem HybridSpec KexTypes KexLogic KexClient KexServer KexRuns KexSign KexRunsEvp.

Section DheRuns.
Context {S : Symmetric} {SL : SymmetricLaws S} {C : Curve} {CL : CurveLaws} {K : Crypto} {KL : CryptoLaws} {A : Alloc}.
Context {OK : NoFailure}.

(** An encoded point fits into a vector with one byte of length. *)
Definition point_ok (k : EVP_PKEY) : Prop := 0 < Z.of_nat (length (encoded_public_key k)) < 256.
Definition vec8 (b : list Z) : list Z := be_bytes 1 (Z.of_nat (length b)) ++ b.

Lemma point_ok_ne k : point_ok k -> encoded_public_key k <> [].
Proof. unfold point_ok. now destruct (encoded_public_key k). Qed.

Lemma wp_put_vec_u8_room a b n fs Q s :
  rep (k_pkt s) fs -> fs <> [] -> heap (k_mem s) !! a = Some b -> n = length b -> Z.of_nat n < 256 ->
  room (k_pkt s) (1 + Z.of_nat n) ->
  (forall p', rep p' (append (vec8 b) fs) -> advanced (k_pkt s) (1 + Z.of_nat n) p' -> Q true (set_pkt p' s)) ->
  wp (put_vec_u8 (Ptr a) n) Q s.
Proof.
  intros R Hne E -> Hn Hr HQ. unfold put_vec_u8. apply wp_bind, (wp_load a b); [assumption | lia |].
  rewrite drop_0, firstn_all. unfold wp, writes.
  destruct (sub_memcpy_ok (k_pkt s) fs b 1 R Hne) as (ok & p' & Em & H1 & H2); [lia | unfold SIZE_MAX; lia |].
  change (Z.of_nat 1) with 1 in *. rewrite Em.
  destruct H2 as [-> Ad]; [exact Hr | apply every_alloc | lia |]. destruct (H1 eq_refl) as [R' _].
  now apply HQ.
Qed.

Lemma be_bytes_1 v : 0 <= v < 256 -> be_bytes 1 v = [v].
Proof. intros H. cbn [be_bytes app]. now rewrite Z.mod_small. Qed.

(** The curve type, two bytes for the curve and the point *)
Definition point_bytes (curve : list Z) (k : EVP_PKEY) : list Z := [NAMED_CURVE_TYPE] ++ curve ++ vec8 (encoded_public_key k).

Lemma print_peer_tmp_run k Q s :
  peer_tmp s = Some k -> encoded_public_key k <> [] ->
  (forall s', keeps s s' -> k_pkt s' = k_pkt s -> Q tt s') -> wp print_peer_tmp Q s.
Proof.
  intros Ek Hk HQ. unfold print_peer_tmp. kgo. rewrite Ek. apply wp_bind, get1_encoded_run; [exact Hk |].
  intros a s' -> ->. assert (Hl : length (encoded_public_key k) <> 0%nat) by now destruct (encoded_public_key k).
  rewrite (proj2 (Nat.eqb_neq _ _) Hl). kred. kgo. apply HQ; [kkeeps | reflexivity].
Qed.

(** ** ServerKeyExchange *)

Lemma read_ecdhe_params_run gid curve k par pt id pkt rest Q s :
  packet_wf pkt -> view pkt = ([NAMED_CURVE_TYPE] ++ curve ++ vec8 pt) ++ rest -> Z.of_nat (length pt) < 256 ->
  curve = be_bytes 2 id -> 0 <= id < 65536 ->
  generate_param_group (gid id) = Some par -> set_encoded_public_key par pt = Some k ->
  (forall pkt', packet_wf pkt' -> view pkt' = rest ->
     Q (Some pkt') (set_group id (set_peer_tmp (Some k) (set_peer_tmp (Some par) s)))) ->
  wp (read_ecdhe_params gid pkt) Q s.
Proof.
  intros W V Hpt -> Hid Epar Ek HQ. unfold read_ecdhe_params. rewrite <- !app_assoc in V.
  apply wp_bind, (wp_get_1 _ NAMED_CURVE_TYPE _ _ _ W V); [easy |]. intros p1 W1 _ V1.
  apply wp_bind, (wp_get_net_2 _ _ _ _ _ W1 V1); [lia |]. intros p2 W2 _ V2.
  kgo. rewrite Epar. apply wp_bind.
  eapply (wp_get_vec 1 PACKET_get_1); [exact simulates_1 | lia | exact W2 | exact V2 | lia |].
  intros sub p3 Ws Vs W3 _ V3. apply wp_bind. eapply wp_reads; [now apply packet_bytes_view |].
  rewrite Vs, Ek. kgo. auto.
Qed.

(** The key, its point and the packet; [put] writes the curve. *)
Lemma ske_ephemeral_run c put curve k fs Q s :
  shared_group c <> 0 -> k = generate_pkey_group (shared_group c) -> point_ok k -> length curve = 2%nat ->
  rep (k_pkt s) fs -> fs <> [] -> room (k_pkt s) (4 + Z.of_nat (length (encoded_public_key k))) ->
  (forall s1 fs1 Q1, rep (k_pkt s1) fs1 -> fs1 <> [] -> room (k_pkt s1) 2 ->
     (forall p', rep p' (append curve fs1) -> advanced (k_pkt s1) 2 p' -> Q1 true (set_pkt p' s1)) ->
     wp put Q1 s1) ->
  (forall s' a, pms s' = pms s -> tmp_pkey s' = Some k -> block_since s s' a (encoded_public_key k) ->
     rep (k_pkt s') (append (point_bytes curve k) fs) ->
     advanced (k_pkt s) (4 + Z.of_nat (length (encoded_public_key k))) (k_pkt s') ->
     Q (inr (true, Ptr a)) s') ->
  wp (ske_ephemeral c put) Q s.
Proof.
  intros Hg Ek Hpt Lcur Rp Hne Hr Hput HQ. unfold ske_ephemeral. rewrite (proj2 (Z.eqb_neq _ _) Hg), every_call, <- Ek.
  kgo. cbn [negb]. kgo. apply get1_encoded_run; [now apply point_ok_ne |]. intros a s1 Ea ->. kred.
  unfold point_ok in Hpt. assert (H0 : length (encoded_public_key k) <> 0%nat) by lia.
  rewrite (proj2 (Nat.eqb_neq _ _) H0). kgo.
  eapply (wp_put_room 1); kred; [exact Rp | exact Hne | lia | easy | unfold room in *; lia | easy |]. intros p1 R1 A1. kgo.
  eapply Hput; kred; [exact R1 | now apply append_ne | unfold room, advanced in *; lia |]. intros p2 R2 A2. kgo.
  eapply wp_put_vec_u8_room; kred;
    [exact R2 | now do 2 apply append_ne | heap_lookup | reflexivity | lia | unfold room, advanced in *; lia |].
  intros p3 R3 A3. kgo. apply HQ; kred; [reflexivity | reflexivity | subst a; kblock | | unfold advanced in *; lia].
  rewrite !append_append in R3. exact R3.
Qed.

(** ** The shared secret *)

Lemma derive_run c priv pub Q s :
  algorithm_mkey c = SSL_kSM2DHE \/ algorithm_mkey c = SSL_kECDHEKyber ->
  pkey_derive priv pub <> [] ->
  (forall s' a, block_since s s' a (pkey_derive priv pub) ->
     keeps (set_pms (Ptr a) (length (pkey_derive priv pub)) s) s' -> k_pkt s' = k_pkt s -> Q true s') ->
  wp (ssl_derive_ntls c (Some priv) (Some pub) false) Q s.
Proof.
  intros Ha Hne HQ. unfold ssl_derive_ntls, derive_ecdhe.
  assert (Hl : length (pkey_derive priv pub) <> 0%nat) by now destruct (pkey_derive priv pub).
  assert (E1 : has (algorithm_mkey c) SSL_kECCKyber = false) by (destruct Ha as [-> | ->]; reflexivity).
  assert (E2 : has (algorithm_mkey c) (Z.lor SSL_kSM2DHE SSL_kECDHEKyber) = true)
    by (destruct Ha as [-> | ->]; reflexivity).
  rewrite E1, E2, !every_call, !andb_false_r. kred. kgo.
  apply HQ with (next (k_mem s)); [kblock | kkeeps | reflexivity].
Qed.

(** The server makes the master secret of it at once. *)
Lemma gensecret_run c priv pub Q s :
  algorithm_mkey c = SSL_kSM2DHE -> is_server c = true -> pkey_derive priv pub <> [] ->
  (forall s', master_key s' = Some (master_secret (client_random c ++ server_random c ++ pkey_derive priv pub)) ->
     Q true s') ->
  wp (ssl_derive_ntls c (Some priv) (Some pub) true) Q s.
Proof.
  intros Ha Es Hne HQ. unfold ssl_derive_ntls, derive_ecdhe. rewrite Ha.
  assert (Hl : length (pkey_derive priv pub) <> 0%nat) by now destruct (pkey_derive priv pub).
  khas.
  rewrite !every_call. kred. kgo. unfold ssl_gensecret, ssl_generate_master_secret. rewrite every_call, Es. kgo.
  now apply HQ.
Qed.

(** ** SM2DHE *)

Lemma wp_put_two x y fs Q s :
  0 <= x < 256 -> 0 <= y < 256 -> rep (k_pkt s) fs -> fs <> [] -> room (k_pkt s) 2 ->
  (forall p', rep p' (append [x; y] fs) -> advanced (k_pkt s) 2 p' -> Q true (set_pkt p' s)) ->
  wp (and_then (put_u8 x) (put_u8 y)) Q s.
Proof.
  intros Hx Hy Rp Hne Hr HQ. kgo.
  eapply (wp_put_room 1); kred; [exact Rp | exact Hne | lia | lia | unfold room in *; lia | lia |]. intros p1 R1 A1.
  eapply (wp_put_room 1); kred; [exact R1 | now apply append_ne | lia | lia | unfold room, advanced in *; lia | lia |].
  intros p2 R2 A2. apply (HQ p2); [| unfold advanced in *; lia].
  rewrite append_append in R2. cbn [be_bytes app] in R2. now rewrite !Z.mod_small in R2 by lia.
Qed.

Lemma ske_sm2dhe_run c sk fs Q s :
  algorithm_mkey c = SSL_kSM2DHE -> 0 < shared_group c < 256 -> sk = generate_pkey_group (shared_group c) ->
  point_ok sk -> tmp_pkey s = None ->
  rep (k_pkt s) fs -> fs <> [] -> room (k_pkt s) (4 + Z.of_nat (length (encoded_public_key sk))) ->
  (forall s', rep (k_pkt s') (append (point_bytes [0; shared_group c] sk) fs) ->
     advanced (k_pkt s) (4 + Z.of_nat (length (encoded_public_key sk))) (k_pkt s') ->
     tmp_pkey s' = Some sk -> Q (true, NULL) s') ->
  wp (ske_sm2dhe c) Q s.
Proof.
  intros Ha Hg Esk Hpt Et Rp Hne Hr HQ. unfold ske_sm2dhe. kgo. rewrite Et.
  apply wp_bind. eapply (ske_ephemeral_run c _ [0; shared_group c] sk); try eassumption; [lia | reflexivity | |].
  { intros. eapply wp_put_two; eauto; lia. }
  intros s1 a Ep1 Et1 (Hb & Eb) R1 A1. kgo.
  unfold print_kex_info_server_ske. rewrite Ha.
  khas. kgo. rewrite Et1.
  apply wp_bind, get1_encoded_run; [now apply point_ok_ne |]. intros a2 s2 -> ->. kred.
  unfold point_ok in Hpt. assert (H0 : length (encoded_public_key sk) <> 0%nat) by lia.
  rewrite (proj2 (Nat.eqb_neq _ _) H0). kgo. now apply HQ.
Qed.

Lemma construct_cke_sm2dhe_run c skc fs Q s :
  let ck := generate_pkey skc in
  algorithm_mkey c = SSL_kSM2DHE -> 0 <= shared_group c < 256 -> peer_tmp s = Some skc ->
  pkey_derive ck skc <> [] -> point_ok ck ->
  rep (k_pkt s) fs -> fs <> [] -> room (k_pkt s) (4 + Z.of_nat (length (encoded_public_key ck))) ->
  (forall s', rep (k_pkt s') (append (point_bytes [0; shared_group c] ck) fs) ->
     holds s' (pms s') (pkey_derive ck skc) -> pmslen s' = length (pkey_derive ck skc) -> Q true s') ->
  wp (tls_construct_cke_sm2dhe_ntls c) Q s.
Proof.
  intros ck Ha Hg Ep Hss Hpt Rp Hne Hr HQ. unfold tls_construct_cke_sm2dhe_ntls. kgo. rewrite Ep, every_call. kgo. fold ck.
  apply derive_run; [auto | exact Hss |]. intros s1 b (Hb & Eb) (N1 & H1 & E1 & E2 & _) P1. cbn [negb].
  rewrite <- P1 in Rp, Hr. kgo. apply get1_encoded_run; [now apply point_ok_ne |]. intros a s2 -> ->. kred.
  unfold point_ok in Hpt. assert (H0 : length (encoded_public_key ck) <> 0%nat) by lia.
  rewrite (proj2 (Nat.eqb_neq _ _) H0). kgo.
  eapply (wp_put_room 1); kred; [exact Rp | exact Hne | lia | easy | unfold room in *; lia | easy |]. intros p1 R1 A1. kgo.
  eapply (wp_put_room 1); kred; [exact R1 | now apply append_ne | lia | easy | unfold room, advanced in *; lia | easy |]. intros p2 R2 A2. kgo.
  eapply (wp_put_room 1); kred; [exact R2 | now do 2 apply append_ne | lia | lia | unfold room, advanced in *; lia | lia |]. intros p3 R3 A3. kgo.
  eapply wp_put_vec_u8_room; kred;
    [exact R3 | now do 3 apply append_ne | heap_lookup | reflexivity | lia | unfold room, advanced in *; lia |].
  intros p4 R4 A4. cbn [negb]. kgo. apply HQ; kred.
  - rewrite !append_append, (be_bytes_1 (shared_group c)) in R4 by lia. exact R4.
  - cbn in E1. rewrite E1. eexists. split; [reflexivity |]. kred. split; [lia |]. heap_lookup.
  - exact E2.
Qed.

Lemma process_cke_sm2dhe_run c sk ck ckc curve pkt Q s :
  algorithm_mkey c = SSL_kSM2DHE -> is_server c = true -> tmp_pkey s = Some sk ->
  set_encoded_public_key sk (encoded_public_key ck) = Some ckc -> pkey_derive sk ckc <> [] -> point_ok ck ->
  length curve = 2%nat -> packet_wf pkt -> view pkt = point_bytes curve ck ->
  (forall s', master_key s' = Some (master_secret (client_random c ++ server_random c ++ pkey_derive sk ckc)) ->
     Q true s') ->
  wp (tls_process_cke_sm2dhe_ntls c pkt) Q s.
Proof.
  intros Ha Es Et Ec Hss Hpt Lcur W V HQ. unfold tls_process_cke_sm2dhe_ntls. kgo.
  rewrite remaining_ne by (try rewrite V; easy). unfold point_bytes in V. rewrite app_assoc in V.
  destruct (get_bytes_view pkt _ _ 3 W V) as (d & p1 & -> & _ & W1 & _ & V1); [cbn [app length]; now rewrite Lcur |].
  unfold vec8, point_ok in *.
  apply wp_bind, (wp_get_1 _ _ _ _ _ W1 V1); [lia |]. intros p2 W2 _ V2.
  rewrite <- (app_nil_r (encoded_public_key ck)) in V2.
  destruct (get_bytes_view p2 _ _ _ W2 V2 eq_refl) as (d' & p3 & -> & Ed & W3 & B3 & V3).
  rewrite (remaining_nil p3) by assumption. cbn [Z.eqb negb]. rewrite Et.
  apply wp_bind. eapply wp_reads; [rewrite B3; exact Ed |]. rewrite !every_call, Ec. kgo.
  apply gensecret_run; try assumption. intros s1 M1. kgo. now apply HQ.
Qed.

(** ** ECDHE with Kyber *)

Definition ecdhekyber_params (gid : Z) (sk : EVP_PKEY) (kpk : list Z) : list Z :=
  point_bytes (be_bytes 2 gid) sk ++ ecckyber_params kpk.

Lemma ske_ecdhekyber_run c ekey priv sk kpk ksk kct kss fs Q s :
  kem_run sampler_fuel keygen_coins encaps_coins kpk ksk kct kss ->
  algorithm_mkey c = SSL_kECDHEKyber ->
  sm2_enc_key c = Some ekey -> ec_private ekey = Some priv -> 0 <= priv < 256 ^ 32 ->
  0 < shared_group c < 65536 -> sk = generate_pkey_group (shared_group c) -> point_ok sk ->
  tmp_pkey s = None -> pms s = NULL ->
  rep (k_pkt s) fs -> fs <> [] -> room (k_pkt s) (1190 + Z.of_nat (length (encoded_public_key sk))) ->
  (forall s', rep (k_pkt s') (append (ecdhekyber_params (shared_group c) sk kpk) fs) ->
     advanced (k_pkt s) (1190 + Z.of_nat (length (encoded_public_key sk))) (k_pkt s') ->
     holds s' (pms s') (be_bytes ECC_SK_SIZE priv ++ ksk) -> pmslen s' = ECC_KYBER_HYBRID_SK_SIZE ->
     tmp_pkey s' = Some sk -> Q (true, NULL) s') ->
  wp (ske_ecdhekyber c) Q s.
Proof.
  intros R Ha Ek Ep Hp Hg Esk Hpt Et Epms Rp Hne Hr HQ. unfold ske_ecdhekyber. kgo. rewrite Et, Ek.
  apply wp_bind. eapply (ske_ephemeral_run c _ (be_bytes 2 (shared_group c)) sk); try eassumption;
    [lia | reflexivity | unfold room in *; lia | |].
  { intros s1 fs1 Q1 R1 Hne1 Hr1 HQ1. eapply (wp_put_room 2); [exact R1 | exact Hne1 | lia | lia | exact Hr1 | lia |].
    intros p' R' A'. now apply HQ1. }
  intros s1 a Ep1 Et1 (Hb & Eb) R1 A1. kgo.
  eapply (wp_keygen_run ekey priv); try eassumption; kred; [lia | heap_lookup | klen | heap_lookup | klen |].
  cbn [Z.eqb]. kgo.
  eapply (wp_put_room 2); kred; [exact R1 | now apply append_ne | lia | easy | unfold room, advanced in *; lia | easy |].
  intros p1 R2 A2.
  eapply wp_put_mem_room; kred; [exact R2 | now do 2 apply append_ne | heap_lookup | klen | easy | |].
  { unfold room, advanced, KYBER_768_PK_SIZE in *. lia. }
  intros p2 R3 A3. kgo. rewrite Ep1, Epms. kgo. unfold print_kex_info_server_ske. rewrite Ha. khas. kgo.
  apply HQ; kred; [| | | reflexivity | exact Et1].
  - rewrite drop_app_length', take_ge, !append_append in R3 by klen. exact R3.
  - unfold advanced, KYBER_768_PK_SIZE in *. lia.
  - eexists. split; [reflexivity |]. kred. split; [lia |]. heap_lookup.
Qed.

Lemma process_ske_ecdhekyber_run c gid par sk skc kpk ksk kct kss pkt rest Q s :
  kem_run sampler_fuel keygen_coins encaps_coins kpk ksk kct kss ->
  0 <= gid < 65536 -> generate_param_group gid = Some par -> point_ok sk ->
  set_encoded_public_key par (encoded_public_key sk) = Some skc -> pms s = NULL ->
  packet_wf pkt -> view pkt = ecdhekyber_params gid sk kpk ++ rest ->
  (forall pkt' s', packet_wf pkt' -> view pkt' = rest -> holds s' (pms s') kpk -> pmslen s' = KYBER_768_PK_SIZE ->
     peer_tmp s' = Some skc -> Q (Some pkt') s') ->
  wp (tls_process_ske_ecdhekyber_ntls c pkt) Q s.
Proof.
  intros R Hg Epar Hpt Ek Epms W V HQ. unfold tls_process_ske_ecdhekyber_ntls. unfold ecdhekyber_params in V.
  rewrite <- app_assoc in V. unfold point_ok in Hpt.
  apply wp_bind. eapply (read_ecdhe_params_run _ _ skc par _ gid); [exact W | exact V | lia | reflexivity | lia | exact Epar | exact Ek |].
  intros p1 W1 V1. unfold ecckyber_params in V1. rewrite <- app_assoc in V1.
  apply wp_bind, (wp_get_net_2 _ _ _ _ _ W1 V1); [easy |]. intros p2 W2 _ V2.
  rewrite Z.eqb_refl. cbn [negb].
  destruct (get_bytes_view p2 kpk rest (Z.of_nat KYBER_768_PK_SIZE) W2 V2) as (d & p3 & -> & Ed & W3 & B3 & V3);
    [now rewrite (run_pk _ _ _ _ _ _ _ R) |].
  apply wp_bind, (wp_reads _ kpk); [now rewrite B3 |]. kgo. rewrite Epms. kgo.
  apply HQ; kred; [assumption | assumption | | reflexivity | reflexivity].
  eexists. split; [reflexivity |]. kred. split; [lia |]. heap_lookup.
Qed.

Definition ecdhekyber_cke (gid : Z) (ck : EVP_PKEY) (kct : list Z) : list Z :=
  point_bytes (be_bytes 2 gid) ck ++ be_bytes 2 (Z.of_nat KYBER_768_CT_SIZE) ++ kct.

(** The part after the point: [ess] is the shared secret in [s3.tmp.pms]. *)
Lemma ecdhekyber_kem_run c x epub ep pt copy ess kpk ksk kct kss fs ae err Q s :
  kem_run sampler_fuel keygen_coins encaps_coins kpk ksk kct kss ->
  peer_enc_cert c = Some x -> X509_get0_pubkey x = Some epub -> length (encoded_public_key epub) = ECC_PK_SIZE ->
  copy < next (k_mem s) -> heap (k_mem s) !! copy = Some kpk ->
  pms s = Ptr ae -> pmslen s = length ess -> ae < next (k_mem s) -> heap (k_mem s) !! ae = Some ess ->
  rep (k_pkt s) fs -> fs <> [] -> room (k_pkt s) 1090 ->
  (forall s' pub, block_since s s' pub (encoded_public_key epub) ->
     (forall a b, a < next (k_mem s) -> a <> ae -> heap (k_mem s) !! a = Some b -> heap (k_mem s') !! a = Some b) ->
     rep (k_pkt s') (append (be_bytes 2 (Z.of_nat KYBER_768_CT_SIZE) ++ kct) fs) ->
     (exists a, pms s' = Ptr a /\ a <> pub /\ block_since s s' a (ess ++ kss)) ->
     pmslen s' = (length ess + KYBER_768_SS_SIZE)%nat ->
     wp (err true (mk_locals ep (Ptr pub) pt NULL (Ptr copy) NULL NULL)) Q s') ->
  wp (cke_ecdhekyber_kem c (mk_locals ep NULL pt NULL (Ptr copy) NULL NULL) (Ptr ae) (length ess) err) Q s.
Proof.
  intros R Ex Ek Lep Hcopy Ec Ep En Hae Ee Rp Hne Hr HQ. unfold cke_ecdhekyber_kem.
  cbn [l_encodedPoint l_enc_cert_pub l_server_ec_pt l_hybrid_pk_tmp l_kyber_pk_copy l_kyber_ct l_kyber_ss]. kgo.
  rewrite Ex. cbn [mbind option_bind]. rewrite Ek. kgo.
  assert (Hpe : encoded_public_key epub <> []) by (intros E; rewrite E in Lep; discriminate).
  apply get1_encoded_run; [exact Hpe |]. intros pub s1 -> ->. rewrite Lep, Nat.eqb_refl. kgo.
  eapply wp_encaps_run; kred;
    [exact R | exact Lep | reflexivity | lia | heap_lookup | klen | heap_lookup | klen | heap_lookup |].
  cbn [Z.eqb]. kgo.
  eapply (wp_put_room 2); kred; [exact Rp | exact Hne | lia | easy | unfold room in *; lia | easy |]. intros p1 R1 A1.
  eapply wp_put_mem_room; kred; [exact R1 | now apply append_ne | heap_lookup | klen | easy | |].
  { unfold room, advanced, KYBER_768_CT_SIZE in *. lia. }
  intros p2 R2 A2. kgo.
  assert (Hz : (length ess + KYBER_768_SS_SIZE <> 0)%nat) by (unfold KYBER_768_SS_SIZE; lia). kgo.
  rewrite Ep, En. kgo. eapply HQ; kred.
  - kblock.
  - intros a b Hlt Ha E. heap_lookup.
  - now rewrite append_append, drop_0, take_ge in R2 by klen.
  - eexists. split; [reflexivity |]. split; [lia | kblock].
  - reflexivity.
Qed.

Lemma construct_cke_ecdhekyber_run c x epub skc skey_ec kpk ksk kct kss fs a Q s :
  let ck := generate_pkey_group (shared_group c) in
  kem_run sampler_fuel keygen_coins encaps_coins kpk ksk kct kss ->
  algorithm_mkey c = SSL_kECDHEKyber -> 0 < shared_group c < 65536 ->
  peer_enc_cert c = Some x -> X509_get0_pubkey x = Some epub -> length (encoded_public_key epub) = ECC_PK_SIZE ->
  peer_tmp s = Some skc -> point_ok skc -> point_ok ck ->
  set_encoded_public_key ck (encoded_public_key skc) = Some skey_ec -> pkey_derive ck skey_ec <> [] ->
  pms s = Ptr a -> a < next (k_mem s) -> heap (k_mem s) !! a = Some kpk -> pmslen s = KYBER_768_PK_SIZE ->
  rep (k_pkt s) fs -> fs <> [] -> room (k_pkt s) (1094 + Z.of_nat (length (encoded_public_key ck))) ->
  (forall s', rep (k_pkt s') (append (ecdhekyber_cke (shared_group c) ck kct) fs) ->
     holds s' (pms s') (pkey_derive ck skey_ec ++ kss) ->
     pmslen s' = (length (pkey_derive ck skey_ec) + KYBER_768_SS_SIZE)%nat -> Q true s') ->
  wp (tls_construct_cke_ecdhekyber_ntls c) Q s.
Proof.
  intros ck R Ha Hg Ex Eep Lep Ep Hps Hpc Es Hss Epms Hlt Eh En Rp Hne Hr HQ.
  unfold tls_construct_cke_ecdhekyber_ntls. kgo. rewrite Ep. kgo. rewrite Epms, En, Nat.eqb_refl.
  pose proof (run_pk _ _ _ _ _ _ _ R) as Lk. kgo.
  rewrite (proj2 (Z.eqb_neq _ _)) by lia. rewrite every_call. fold ck. kgo.
  apply get1_encoded_run; [now apply point_ok_ne |]. intros pt s1 -> ->. unfold point_ok in Hps, Hpc. kred.
  assert (H0 : length (encoded_public_key skc) <> 0%nat) by lia. rewrite (proj2 (Nat.eqb_neq _ _) H0). kgo.
  rewrite !every_call, Es. kgo. apply derive_run; [auto | exact Hss |].
  intros s2 b (Hb & Eb) (N2 & H2 & E2 & F2 & _) P2. kred_in E2; kred_in F2; kred_in N2; kred_in H2. kred_in P2; kred_in Hb.
  assert (Ecopy : heap (k_mem s2) !! next (k_mem s) = Some kpk) by (apply H2; [lia | heap_lookup]).
  assert (Ept : heap (k_mem s2) !! (next (k_mem s) + 1) = Some (encoded_public_key skc)) by (apply H2; [lia | heap_lookup]).
  clear H2. assert (H1 : length (pkey_derive ck skey_ec) <> 0%nat) by now destruct (pkey_derive ck skey_ec).
  kgo. rewrite E2, F2, (proj2 (Nat.eqb_neq _ _) H1). rewrite <- P2 in Rp, Hr. kgo.
  apply get1_encoded_run; [now apply point_ok_ne |]. intros ep s3 -> ->.
  assert (H3 : length (encoded_public_key ck) <> 0%nat) by lia. rewrite (proj2 (Nat.eqb_neq _ _) H3). kgo.
  eapply (wp_put_room 1); kred; [exact Rp | exact Hne | lia | easy | unfold room in *; lia | easy |]. intros p1 R1 A1. kgo.
  eapply (wp_put_room 2); kred; [exact R1 | now apply append_ne | lia | lia | unfold room, advanced in *; lia | lia |].
  intros p2 R2 A2. kgo.
  eapply wp_put_vec_u8_room; kred;
    [exact R2 | now do 2 apply append_ne | heap_lookup | reflexivity | lia | unfold room, advanced in *; lia |].
  intros p3 R3 A3. kgo. rewrite !append_append in R3.
  eapply ecdhekyber_kem_run; kred;
    [exact R | exact Ex | exact Eep | exact Lep | lia | heap_lookup | exact E2 | exact F2 | lia | heap_lookup
    | exact R3 | now apply append_ne | unfold room, advanced in *; lia |].
  intros s4 pub (Hpub & Epub) H4 R4 (as4 & Ep4 & Hne4 & (Has4 & Eas4)) En4. kred_in H4. kred_in Hpub. kred_in Has4.
  pose proof (H4 (next (k_mem s2)) _ ltac:(lia) ltac:(lia) (lookup_insert_eq _ _ _)) as Hep.
  assert (Hpt4 : heap (k_mem s4) !! (next (k_mem s) + 1) = Some (encoded_public_key skc))
    by (apply H4; [lia | lia | heap_lookup]).
  assert (Hc4 : heap (k_mem s4) !! next (k_mem s) = Some kpk) by (apply H4; [lia | lia | heap_lookup]).
  cbn [l_encodedPoint l_enc_cert_pub l_server_ec_pt l_hybrid_pk_tmp l_kyber_pk_copy l_kyber_ct l_kyber_ss]. kgo.
  apply HQ; kred; [| | exact En4].
  - now rewrite append_append in R4.
  - rewrite Ep4. eexists. split; [reflexivity |]. kred. split; [lia |]. heap_lookup.
Qed.

(** The part of the server after the derivation *)
Lemma ecdhekyber_combine_run c ecc ess saved ae kpk ksk kct kss pkt err Q s :
  kem_run sampler_fuel keygen_coins encaps_coins kpk ksk kct kss -> is_server c = true ->
  packet_wf pkt -> view pkt = be_bytes 2 (Z.of_nat KYBER_768_CT_SIZE) ++ kct ->
  pms s = Ptr ae -> pmslen s = length ess -> ess <> [] ->
  ae < next (k_mem s) -> heap (k_mem s) !! ae = Some ess ->
  saved < next (k_mem s) -> saved <> ae -> heap (k_mem s) !! saved = Some (ecc ++ ksk) -> length ecc = ECC_SK_SIZE ->
  (forall s', master_key s' = Some (master_secret (client_random c ++ server_random c ++ ess ++ kss)) ->
     wp (err true NULL NULL) Q s') ->
  wp (cke_ecdhekyber_combine c pkt (Ptr saved) err) Q s.
Proof.
  intros R Es W V Ep En Hess Hae Ee Hsv Hdiff Esv Lecc HQ. unfold cke_ecdhekyber_combine. kgo. rewrite Ep, En.
  assert (H0 : length ess <> 0%nat) by now destruct ess. rewrite (proj2 (Nat.eqb_neq _ _) H0). kred.
  apply wp_bind, (wp_get_net_2 _ _ _ _ _ W V); [easy |]. intros p1 W1 _ V1.
  rewrite Z.eqb_refl. cbn [negb]. rewrite <- (app_nil_r kct) in V1.
  destruct (get_bytes_view p1 kct [] (Z.of_nat KYBER_768_CT_SIZE) W1 V1) as (d & p2 & -> & Ed & W2 & B2 & V2);
    [now rewrite (run_ct _ _ _ _ _ _ _ R) |].
  rewrite (remaining_nil p2) by assumption. cbn [Z.eqb negb]. kgo.
  eapply wp_reads; [rewrite B2; exact Ed |]. apply wp_bind.
  eapply wp_decaps_run; kred; [exact R | exact Lecc | heap_lookup | klen | heap_lookup |].
  cbn [Z.eqb]. assert (Hz : (length ess + KYBER_768_SS_SIZE <> 0)%nat) by (unfold KYBER_768_SS_SIZE; lia).
  assert (Lsv : length (ecc ++ ksk) = ECC_KYBER_HYBRID_SK_SIZE) by klen. kgo.
  rewrite Ep, En. kgo. unfold ssl_generate_master_secret. rewrite every_call, Es. kgo. now apply HQ.
Qed.

Lemma process_cke_ecdhekyber_run c sk ck ckc curve ecc kpk ksk kct kss pkt a Q s :
  kem_run sampler_fuel keygen_coins encaps_coins kpk ksk kct kss ->
  algorithm_mkey c = SSL_kECDHEKyber -> is_server c = true -> tmp_pkey s = Some sk ->
  set_encoded_public_key sk (encoded_public_key ck) = Some ckc -> pkey_derive sk ckc <> [] -> point_ok ck ->
  length curve = 2%nat -> packet_wf pkt ->
  view pkt = point_bytes curve ck ++ be_bytes 2 (Z.of_nat KYBER_768_CT_SIZE) ++ kct ->
  pms s = Ptr a -> a < next (k_mem s) -> heap (k_mem s) !! a = Some (ecc ++ ksk) ->
  length ecc = ECC_SK_SIZE -> pmslen s = ECC_KYBER_HYBRID_SK_SIZE ->
  (forall s', master_key s' = Some (master_secret (client_random c ++ server_random c ++ pkey_derive sk ckc ++ kss)) ->
     Q true s') ->
  wp (tls_process_cke_ecdhekyber_ntls c pkt) Q s.
Proof.
  intros R Ha Es Et Ec Hss Hpt Lcur W V Ep Hlt Eh Lecc En HQ. unfold tls_process_cke_ecdhekyber_ntls. kgo.
  rewrite remaining_ne by (try rewrite V; easy). kgo. rewrite Ep, En, Nat.eqb_refl.
  assert (Lsv : length (ecc ++ ksk) = ECC_KYBER_HYBRID_SK_SIZE) by klen. kgo.
  unfold point_bytes in V. rewrite <- !app_assoc, app_assoc in V.
  destruct (get_bytes_view pkt _ _ 3 W V) as (d & p1 & -> & _ & W1 & _ & V1); [cbn [app length]; now rewrite Lcur |].
  unfold vec8, point_ok in *. rewrite <- app_assoc in V1.
  apply wp_bind, (wp_get_1 _ _ _ _ _ W1 V1); [lia |]. intros p2 W2 _ V2.
  destruct (get_bytes_view p2 _ _ _ W2 V2 eq_refl) as (d' & p3 & -> & Ed & W3 & B3 & V3).
  rewrite Et. apply wp_bind. eapply wp_reads; [rewrite B3; exact Ed |]. rewrite !every_call, Ec. kgo.
  apply derive_run; [auto | exact Hss |]. intros s2 b (Hb & Eb) (N2 & H2 & E2 & F2 & _) P2.
  kred_in E2; kred_in F2; kred_in N2; kred_in H2; kred_in Hb. kgo.
  eapply ecdhekyber_combine_run;
    [exact R | exact Es | exact W3 | exact V3 | exact E2 | exact F2 | exact Hss | lia | exact Eb | | | | exact Lecc |].
  - lia.
  - lia.
  - apply H2; [lia | heap_lookup].
  - intros s3 M3. kgo. now apply HQ.
Qed.
End DheRuns.
