(* ===== verification/KexAgree.v ===== *)
(** * Key exchange messages: both sides agree

    When no call fails, the four handlers of a key exchange, run one after the
    other, succeed, and both sides have the master secret of the same premaster
    secret: for the exchanges that encrypt one, for those with ephemeral keys
    and for those with Kyber.

    First a concrete setting: keys are integers, encryption and signatures are
    trivial, and Kyber runs on functions that return zeros; which library calls and
    which allocations fail is chosen. *)

From S2P Require Import Prelude Buffers CMem Packet PacketSpec Wpacket WpacketSpec PacketRules KyberReduce KyberSymmetric KyberPoly KyberPolyvec KyberCodec KyberIndcpa KyberSample KyberIndcpaSpec KyberKem KyberKemSpec HybridKem HybridSpec KexTypes KexLogic KexClient KexServer KexRuns KexSign KexRunsEvp KexRunsDhe.

#[export] Instance kcall_eq_dec : EqDecision kcall.
Proof. solve_decision. Defined.

#[export] Existing Instances zero_symmetric zero_laws toy_curve toy_laws.

(** An allocator that fails for the blocks in [bad]. *)
Definition toy_alloc (bad : list Z) : Alloc :=
  {| alloc_ok a := negb (bool_decide (a ∈ bad)); junk _ _ := 0 |}.

(** The library, in which the calls of [bad] fail. *)
Definition toy_crypto (bad : list kcall) : Crypto := {|
  EVP_PKEY := Z;
  X509 := Z;
  X509_get0_pubkey x := Some x;
  i2d_X509 x := [48; x mod 256];
  is_SM2 _ := true; is_RSA _ := true; is_ML_DSA _ := false;
  ec_private k := Some k;
  ec_public k := public_of k;
  encoded_public_key k := point2oct (public_of k);
  set_encoded_public_key _ b := Some (get b 64);
  generate_param_group _ := Some 0;
  generate_pkey_group g := g;
  generate_pkey _ := 7;
  pkey_encrypt_size _ n := n; pkey_encrypt _ m := m;
  pkey_decrypt_size _ c := length c; pkey_decrypt _ c := Some c;
  pkey_derive a b := [a * b];
  sm2_exchange _ _ _ _ _ := [];
  kem_ct_size _ := 3%nat; kem_ss_size _ := 2%nat;
  kem_encapsulate _ := ([1; 2; 3], [4; 5]);
  kem_decapsulate _ _ := Some [4; 5];
  aigis_generate := 11;
  aigis_from_public _ := Some 11;
  sign_size _ := 2%nat; sign k _ := [k; 1]; verify k s _ := bool_decide (s = [k; 1]);
  master_secret b := b;
  premaster_random := replicate 46 7;
  keygen_coins := replicate 64 0; encaps_coins := replicate 32 0; sampler_fuel := 0;
  call_ok x := negb (bool_decide (x ∈ bad)); ec_ok _ := true; ec_partial _ := [] |}.

(** The two ends: 9 is the encryption key, 3 the signing key. *)
Definition toy_conn (bad : list kcall) (server : bool) (alg_k : Z) : @conn _ (toy_crypto bad) :=
  @mk_conn _ (toy_crypto bad) server alg_k 0x0101 (replicate 32 1) (replicate 32 2) (Some 3) (Some [3; 9])
    (Some 3) (Some 9) (Some 9) (Some 3) (Some 9) (Some 9) true false 41.

(** A message of at most 2000 bytes is being written. *)
Definition toy_packet : WPACKET := (@WPACKET_init_static_len (toy_alloc []) (repeat 0 2000) 0 1).2.
Definition toy_state (bad : list kcall) : @kex _ (toy_crypto bad) :=
  @mk_kex _ (toy_crypto bad) (mk_memory ∅ 1) toy_packet NULL 0 None None None 0 None None [].

(** ** The exchanges *)

Section Agree.
Context {S : Symmetric} {SL : SymmetricLaws S} {C : Curve} {CL : CurveLaws} {K : Crypto} {KL : CryptoLaws} {A : Alloc}.

(** ** What both sides have in common *)

(** The two ends of a connection: [x] is the server's encryption certificate,
    [skey] its signing key and [vkey] the key of its signing certificate. *)
Record paired (cc sc : conn) (x : X509) (skey vkey : EVP_PKEY) : Prop := {
  pair_alg : algorithm_mkey cc = algorithm_mkey sc;
  pair_kex : algorithm_mkey sc ∈ kexes;
  pair_client : is_server cc = false;
  pair_server : is_server sc = true;
  pair_client_random : client_random cc = client_random sc;
  pair_server_random : server_random cc = server_random sc;
  pair_client_random_length : length (client_random sc) = SSL3_RANDOM_SIZE;
  pair_server_random_length : length (server_random sc) = SSL3_RANDOM_SIZE;
  pair_cert : peer_enc_cert cc = Some x;
  pair_cert_length : 0 < Z.of_nat (length (i2d_X509 x)) < 2 ^ 24;
  pair_signed : cert_signed (algorithm_mkey sc) = true -> (signing_key sc).2 = Some x;
  pair_verifier : (y ← session_peer cc; X509_get0_pubkey y) = Some vkey;
  pair_signer : (signing_key sc).1 = Some skey;
  pair_sigalg : sigalg_set sc = true;
  pair_sig_fits t : sig_fits sc skey t;
  pair_verify t : verify vkey (sign skey t) t = true }.

(** A message is written into the sub-packet that was opened for it; it is
    read from any packet that shows the same bytes. *)
Definition writing (s : kex) (fs : list frame) (n : nat) (fl : Z) (b : list Z) : Prop :=
  rep (k_pkt s) (mk_frame n fl b :: fs).
Definition received (pkt : PACKET) (b : list Z) : Prop := packet_wf pkt /\ view pkt = b.

(** ServerKeyExchange from the server, ClientKeyExchange from the client
    written to [cp], and then both sides have the master secret made of the
    premaster secret. *)
Definition agree (cc sc : conn) (c0 s0 : kex) (cp : WPACKET) (premaster_secret : list Z) : Prop :=
  let master := Some (master_secret (client_random sc ++ server_random sc ++ premaster_secret)) in
  exists s1 ske n fl fs,
    tls_construct_server_key_exchange_ntls sc s0 = Val (true, s1)
    /\ rep (k_pkt s0) (mk_frame n fl [] :: fs) /\ rep (k_pkt s1) (mk_frame n fl ske :: fs)
    /\ forall pkt, received pkt ske ->
  exists c1, tls_process_key_exchange_ntls cc pkt c0 = Val (true, c1) /\
  exists c2 cke n' fl' fs',
    tls_construct_client_key_exchange_ntls cc (set_pkt cp c1) = Val (true, c2)
    /\ rep cp (mk_frame n' fl' [] :: fs') /\ rep (k_pkt c2) (mk_frame n' fl' cke :: fs')
    /\ forall pkt', received pkt' cke ->
  exists s2 c3,
    tls_process_client_key_exchange_ntls sc pkt' s1 = Val (true, s2)
    /\ tls_client_key_exchange_post_work_ntls cc c2 = Val (true, c3)
    /\ master_key s2 = master /\ master_key c3 = master.

Context {OK : NoFailure}.

(** ** ServerKeyExchange *)

Lemma get_length_rep p n fl body fs :
  rep p (mk_frame n fl body :: fs) -> WPACKET_get_length p = Some (Z.of_nat (length body)).
Proof.
  intros R. destruct (rep_opened _ _ _ R) as (pre & hole & sub & ss & Es & O & _).
  pose proof (opened_written _ _ _ _ _ _ R O) as Lw. cbn [f_len f_body] in Lw.
  pose proof (rep_max _ _ R) as [Hw Hm]. unfold SIZE_MAX in Hm.
  unfold WPACKET_get_length. rewrite Es. pose proof (op_pwritten _ _ _ _ _ O) as Ep. cbn [f_len] in Ep.
  f_equal. rewrite u64_small; lia.
Qed.

(** The parameters are there when the key exchange has any, with room for the
    signature. *)
Definition params_written (sc : conn) (skey : EVP_PKEY) (s : kex) (n : nat) (fl : Z) (fs : list frame)
    (params : list Z) (s1 : kex) : Prop :=
  rep (k_pkt s1) (mk_frame n fl params :: fs)
  /\ written (k_pkt s1) = written (k_pkt s) + Z.of_nat (length params)
  /\ room (k_pkt s1) (2 + Z.of_nat (sig_room sc skey)).

Definition has_params (alg_k : Z) : bool :=
  has alg_k (Z.lor (Z.lor SSL_kKyberAigisEnc SSL_kECCKyber) (Z.lor SSL_kECDHEKyber SSL_kSM2DHE)).

(** What the server sends: the parameters and the signature *)
Definition ske_body (sc : conn) (x : X509) (skey : EVP_PKEY) (params : list Z) : list Z :=
  params ++ vec16 (sign skey (ske_tbs sc (signed_bytes (algorithm_mkey sc) x params))).

Lemma construct_ske_run cc sc x skey vkey n fl fs params (P : kex -> Prop) Q s :
  paired cc sc x skey vkey ->
  (has_params (algorithm_mkey sc) = false -> params = []) ->
  wp (ske_params sc) (fun r s1 => r = (true, NULL) /\ params_written sc skey s n fl fs params s1 /\ P s1) s ->
  (forall s1 s2, P s1 -> keeps s1 s2 -> rep (k_pkt s2) (mk_frame n fl (ske_body sc x skey params) :: fs) ->
     Q true s2) ->
  wp (tls_construct_server_key_exchange_ntls sc) Q s.
Proof.
  intros Pr Hp Hw HQ. unfold tls_construct_server_key_exchange_ntls. kgo.
  eapply wp_mono; [exact Hw |]. intros r s1 (-> & (R1 & W1 & Hr) & HP). cbn [negb]. kgo.
  fold (has_params (algorithm_mkey sc)).
  assert (El : (if has_params (algorithm_mkey sc) then WPACKET_get_length (k_pkt s1) else Some 0)
               = Some (Z.of_nat (length params))).
  { destruct (has_params _); [now apply (get_length_rep _ n fl _ fs) | now rewrite Hp]. }
  rewrite El, (pair_sigalg _ _ _ _ _ Pr). cbn [negb]. apply wp_bind.
  unfold WPACKET_get_total_written.
  replace (written (k_pkt s)) with (written (k_pkt s1) - Z.of_nat (length params)) by lia.
  pose proof (pair_cert_length _ _ _ _ _ Pr) as Lx.
  eapply sign_params_run; try apply Pr; try eassumption; [now destruct (i2d_X509 x) |].
  intros s2 K2 R2. kgo. apply (HQ s1); assumption.
Qed.

(** The client accepts it. *)
Lemma process_ske_run cc sc x skey vkey params pkt (P : kex -> Prop) Q s :
  paired cc sc x skey vkey -> Z.of_nat (length params) < 2 ^ 24 ->
  received pkt (ske_body sc x skey params) ->
  (forall rest, view pkt = params ++ rest ->
     wp (process_ske_params cc pkt)
       (fun r s1 => exists pkt', r = Some pkt' /\ packet_wf pkt' /\ view pkt' = rest /\ P s1)
       (set_aigis None (set_peer_tmp None s))) ->
  (forall s1 s2, P s1 -> keeps s1 s2 ->
     wp (print_kex_info_client_ske (algorithm_mkey cc)) (fun _ => Q true) s2) ->
  wp (tls_process_key_exchange_ntls cc pkt) Q s.
Proof.
  intros Pr Lp (W & V) Hw HQ. unfold tls_process_key_exchange_ntls. kgo.
  unfold ske_body in V. set (sig := sign skey _) in V.
  eapply wp_mono; [exact (Hw _ V) |]. intros r s1 (pkt' & -> & W' & V' & HP).
  rewrite (pair_verifier _ _ _ _ _ Pr). apply wp_bind.
  pose proof (pair_cert_length _ _ _ _ _ Pr) as Lx.
  pose proof (pair_sig_fits _ _ _ _ _ Pr (ske_tbs sc (signed_bytes (algorithm_mkey sc) x params))) as [_ Hs].
  eapply (check_signature_run cc x vkey pkt pkt' params sig);
    rewrite ?(pair_alg _ _ _ _ _ Pr), ?(pair_client_random _ _ _ _ _ Pr), ?(pair_server_random _ _ _ _ _ Pr);
    try apply Pr; try assumption; [now destruct (i2d_X509 x) | |].
  - unfold ske_tbs. rewrite (pair_client_random _ _ _ _ _ Pr), (pair_server_random _ _ _ _ _ Pr). apply Pr.
  - intros s2 K2. cbn [negb]. apply wp_bind. rewrite <- (pair_alg _ _ _ _ _ Pr).
    eapply wp_mono; [now apply (HQ s1) |]. intros [] s3 H3. kgo. exact H3.
Qed.

(** ** The whole exchange

    From what the parts of one key exchange do: the server's state after its
    message satisfies [Ps], the client's [Pc]. *)

Lemma agree_intro cc sc x skey vkey c0 s0 cp params secret n fl fs n' fl' fs' (Ps Pc : kex -> Prop) :
  paired cc sc x skey vkey -> Z.of_nat (length params) < 2 ^ 24 ->
  rep (k_pkt s0) (mk_frame n fl [] :: fs) -> rep cp (mk_frame n' fl' [] :: fs') ->
  (has_params (algorithm_mkey sc) = false -> params = []) ->
  (forall s s', Ps s -> keeps s s' -> Ps s') ->
  wp (ske_params sc) (fun r s1 => r = (true, NULL) /\ params_written sc skey s0 n fl fs params s1 /\ Ps s1) s0 ->
  (forall pkt rest, packet_wf pkt -> view pkt = params ++ rest ->
     wp (process_ske_params cc pkt)
       (fun r c1 => exists pkt', r = Some pkt' /\ packet_wf pkt' /\ view pkt' = rest /\ Pc c1)
       (set_aigis None (set_peer_tmp None c0))) ->
  (forall c1 c2, Pc c1 -> keeps c1 c2 ->
     wp (print_kex_info_client_ske (algorithm_mkey cc)) (fun _ => Pc) c2) ->
  (forall c1, Pc c1 ->
     wp (tls_construct_client_key_exchange_ntls cc)
       (fun ok c2 => ok = true /\ exists cke, rep (k_pkt c2) (mk_frame n' fl' cke :: fs')
          /\ holds c2 (pms c2) secret /\ pmslen c2 = length secret
          /\ forall s1 pkt, Ps s1 -> received pkt cke ->
             wp (tls_process_client_key_exchange_ntls sc pkt)
               (fun ok s2 => ok = true /\ master_key s2
                  = Some (master_secret (client_random sc ++ server_random sc ++ secret))) s1)
       (set_pkt cp c1)) ->
  agree cc sc c0 s0 cp secret.
Proof.
  intros Pr Lp R0 Rc Hp HPs Hske Hproc Hprint Hcke. unfold agree.
  destruct (wp_run (tls_construct_server_key_exchange_ntls sc) (fun ok s1 => ok = true
      /\ rep (k_pkt s1) (mk_frame n fl (ske_body sc x skey params) :: fs) /\ Ps s1) s0)
    as (ok & s1 & E1 & -> & R1 & P1).
  { eapply construct_ske_run; [exact Pr | exact Hp | exact Hske |]. eauto. }
  exists s1, (ske_body sc x skey params), n, fl, fs. do 3 (split; [assumption |]). intros pkt Hpkt.
  destruct (wp_run (tls_process_key_exchange_ntls cc pkt) (fun ok c1 => ok = true /\ Pc c1) c0) as (ok & c1 & E2 & -> & P2).
  { eapply process_ske_run; [exact Pr | exact Lp | exact Hpkt | intros rest V; now apply Hproc, V; apply Hpkt |].
    intros c1 c2 HP HK. eapply wp_mono; [now apply (Hprint c1) |]. auto. }
  exists c1. split; [exact E2 |].
  destruct (wp_run _ _ _ (Hcke c1 P2)) as (ok & c2 & E3 & -> & cke & R2 & (a & Ep & Ha & Eh) & En & Hs).
  exists c2, cke, n', fl', fs'. do 3 (split; [assumption |]). intros pkt' Hpkt'.
  destruct (wp_run _ _ _ (Hs s1 pkt' P1 Hpkt')) as (ok & s2 & E4 & -> & M2).
  destruct (wp_run (tls_client_key_exchange_post_work_ntls cc) (fun ok c3 => ok = true /\ master_key c3
              = Some (master_secret (client_random cc ++ server_random cc ++ secret))) c2) as (ok & c3 & E5 & -> & M3).
  { eapply post_work_run; [apply Pr | exact Ep | exact Eh | congruence | auto]. }
  rewrite (pair_client_random _ _ _ _ _ Pr), (pair_server_random _ _ _ _ _ Pr) in M3.
  exists s2, c3. auto.
Qed.

(** ** Lemmas of all exchanges *)

(** A key pair that decrypts what it encrypts, for messages of the size of a
    premaster secret. *)
Record enc_pair (epub ekey : EVP_PKEY) : Prop := {
  enc_decrypts m : length m = SSL_MAX_MASTER_KEY_LENGTH -> pkey_decrypt ekey (pkey_encrypt epub m) = Some m;
  enc_size m : length m = SSL_MAX_MASTER_KEY_LENGTH ->
    (SSL_MAX_MASTER_KEY_LENGTH <= pkey_decrypt_size ekey (pkey_encrypt epub m))%nat;
  enc_length m : length m = SSL_MAX_MASTER_KEY_LENGTH -> 0 < Z.of_nat (length (pkey_encrypt epub m)) < 256 ^ 2 }.

Lemma premaster_length c : length (premaster c) = SSL_MAX_MASTER_KEY_LENGTH.
Proof. unfold premaster. cbn [length]. now rewrite premaster_random_length. Qed.

(** The secret is in [s3.tmp.pms]. *)
Definition pms_is (b : list Z) (s : kex) : Prop := holds s (pms s) b /\ pmslen s = length b.

Lemma pms_is_keeps b s s' : pms_is b s -> keeps s s' -> pms_is b s'.
Proof.
  intros (H & E) HK. pose proof (keeps_holds _ _ _ _ HK H) as H'. destruct HK as (_ & _ & Ep & En & _).
  split; congruence.
Qed.

Lemma print_pms_run b Q s : pms_is b s -> b <> [] -> (Q tt (add_printed b s)) -> wp print_pms Q s.
Proof.
  intros ((a & Ep & Ha & Eh) & En) Hb HQ. unfold print_pms. kgo. rewrite Ep, En.
  eapply wp_print; [exact Eh | lia | now destruct b |]. now rewrite drop_0, firstn_all.
Qed.


Lemma print_nothing cc (P : kex -> Prop) :
  has (algorithm_mkey cc) SSL_kECCKyber = false -> has (algorithm_mkey cc) SSL_kSM2DHE = false ->
  (forall s s', P s -> keeps s s' -> P s') ->
  forall c1 c2, P c1 -> keeps c1 c2 -> wp (print_kex_info_client_ske (algorithm_mkey cc)) (fun _ => P) c2.
Proof.
  intros E1 E2 HP c1 c2 P1 K1. unfold print_kex_info_client_ske. rewrite E1, E2. kgo. eauto.
Qed.

(** The sub-packets that are open for the two messages, with room for what
    comes. *)
Record open_packets (sc : conn) (skey : EVP_PKEY) (s0 : kex) (cp : WPACKET) (ske cke : Z)
    (n n' : nat) (fl fl' : Z) (fs fs' : list frame) : Prop := {
  open_server : rep (k_pkt s0) (mk_frame n fl [] :: fs);
  open_client : rep cp (mk_frame n' fl' [] :: fs');
  open_server_room : room (k_pkt s0) (ske + 2 + Z.of_nat (sig_room sc skey));
  open_client_room : room cp cke }.

Section Exchanges.
Context (cc sc : conn) (x : X509) (skey vkey : EVP_PKEY) (c0 s0 : kex) (cp : WPACKET).
Context (n n' : nat) (fl fl' : Z) (fs fs' : list frame).
Context (Pr : paired cc sc x skey vkey) (Es : pms s0 = NULL) (Ec : pms c0 = NULL).
Abbreviation packets ske cke := (open_packets sc skey s0 cp ske cke n n' fl fl' fs fs').

(** *** ECC with Kyber *)

Section EccKyber.
Context (epub ekey : EVP_PKEY) (priv : Z).
Context (Ha : algorithm_mkey sc = SSL_kECCKyber) (Hx : X509_get0_pubkey x = Some epub) (Hsm : is_SM2 epub = true).
Context (He : enc_pair epub ekey) (Hk : sm2_enc_key sc = Some ekey).
Context (Hp : ec_private ekey = Some priv) (Hpr : 0 <= priv < 256 ^ 32) (Ts : tmp_pkey s0 = None).
Context (Op : packets 1186 (1092 + Z.of_nat (pkey_encrypt_size epub SSL_MAX_MASTER_KEY_LENGTH))).

Lemma ecckyber_agree kpk ksk kct kss :
  kem_run sampler_fuel keygen_coins encaps_coins kpk ksk kct kss ->
  agree cc sc c0 s0 cp (premaster cc ++ kss).
Proof.
  intros R. destruct Op as [Rs Rc Fs Fc]. pose proof (pair_alg _ _ _ _ _ Pr) as Hac. rewrite Ha in Hac.
  assert (Hx' : sm2_enc_x509 sc = Some x).
  { pose proof (pair_signed _ _ _ _ _ Pr) as E. unfold signing_key in E. rewrite Ha in E. now apply E. }
  pose proof (premaster_length cc) as Lm.
  assert (Lsk : length (be_bytes ECC_SK_SIZE priv ++ ksk) = ECC_KYBER_HYBRID_SK_SIZE) by klen.
  assert (Lpk : length (point2oct (ec_public epub) ++ kpk) = ECC_KYBER_HYBRID_PK_SIZE) by klen.
  assert (Lss : length (premaster cc ++ kss) = ECC_KYBER_HYBRID_SS_SIZE) by klen.
  apply (agree_intro cc sc x skey vkey c0 s0 cp (ecckyber_params kpk) _ n fl fs n' fl' fs'
           (pms_is (be_bytes ECC_SK_SIZE priv ++ ksk)) (pms_is (point2oct (ec_public epub) ++ kpk)));
    try assumption.
  - unfold ecckyber_params. klen.
  - now rewrite Ha.
  - apply pms_is_keeps.
  - unfold ske_params. rewrite Ha. khas. apply wp_bind.
    eapply ske_ecckyber_run; try eassumption; [easy | unfold room in *; lia |].
    intros s1 R1 A1 H1 N1. kgo. split; [reflexivity |]. split; [| split; congruence].
    split; [exact R1 |]. unfold advanced, room, ecckyber_params in *. split; klen.
  - intros pkt rest W V. unfold process_ske_params. rewrite Hac. khas.
    eapply process_ske_ecckyber_run; try eassumption; [apply Pr |].
    intros pkt' s' W' _ V' H' N'. exists pkt'. split; [reflexivity |]. do 2 (split; [assumption |]). split; congruence.
  - intros c1 c2 P1 K1. unfold print_kex_info_client_ske. rewrite Hac.
    khas.
    pose proof (pms_is_keeps _ _ _ P1 K1) as P2.
    eapply print_pms_run; [exact P2 | intros E; rewrite E in Lpk; discriminate | exact P2].
  - intros c1 ((a & Ep & Ha1 & Eh) & En). unfold tls_construct_client_key_exchange_ntls. rewrite Hac.
    khas. apply wp_bind.
    eapply construct_cke_ecckyber_run; try eassumption; kred; try eassumption;
      [apply Pr | congruence | now apply He | easy |].
    intros c2 R2 H2 N2. apply wp_bind.
    unfold print_kex_info_client_cke. khas.
    assert (P2 : pms_is (premaster cc ++ kss) c2) by (split; congruence).
    eapply print_pms_run; [exact P2 | intros E; rewrite E in Lss; discriminate |]. kgo.
    split; [reflexivity |]. eexists. split; [exact R2 |]. split; [exact H2 |]. split; [congruence |].
    intros s1 pkt ((b & Ep' & Hb & Eh') & En') (W & V).
    unfold tls_process_client_key_exchange_ntls. rewrite Ha.
    khas.
    eapply process_cke_ecckyber_run; try eassumption; try apply Pr; try (apply He; assumption);
      [exact V | now apply He | rewrite Lm; now apply He | apply be_bytes_length | congruence |].
    intros s2 M2. auto.
Qed.

(** C3: ECC with Kyber: both sides agree.  When no call fails and the noise of the
    Kyber run stays in the decoding window, the server's ServerKeyExchange is accepted by the client, whose ClientKeyExchange is
    accepted by the server, and both then have the master secret of the
    randoms, the 48 bytes of the encrypted premaster secret and the 32 bytes of
    the Kyber secret. *)
Theorem ecckyber_exchange_agrees :
  length keygen_coins = 64%nat -> length encaps_coins = 32%nat -> bytes encaps_coins ->
  kem_noise_ok sampler_fuel keygen_coins encaps_coins = true ->
  exists kpk ksk kct kss, kem_run sampler_fuel keygen_coins encaps_coins kpk ksk kct kss
    /\ agree cc sc c0 s0 cp (premaster cc ++ kss).
Proof.
  intros L1 L2 B2 Hn. destruct (kem_run_exists sampler_fuel _ _ L1 L2 B2 Hn) as (kpk & ksk & kct & kss & R).
  exists kpk, ksk, kct, kss. split; [exact R |]. now apply (ecckyber_agree kpk ksk kct).
Qed.
End EccKyber.

(** *** A premaster secret under the key of the encryption certificate *)

Section Pms.
Context (epub ekey : EVP_PKEY).
Context (Ha : pms_kex (algorithm_mkey sc)) (Hx : X509_get0_pubkey x = Some epub) (He : enc_pair epub ekey).
Context (Hrsa : algorithm_mkey sc = SSL_kRSA -> is_RSA epub = true /\ rsa_enc_key sc = Some ekey)
        (Hsm : algorithm_mkey sc = SSL_kSM2 -> is_SM2 epub = true /\ sm2_enc_key sc = Some ekey).
Context (Hpub : encoded_public_key epub <> []).
Context (Op : packets 0 (2 + Z.of_nat (pkey_encrypt_size epub SSL_MAX_MASTER_KEY_LENGTH))).

Lemma pms_agree : agree cc sc c0 s0 cp (premaster cc).
Proof.
  destruct Op as [Rs Rc Fs Fc]. pose proof (pair_alg _ _ _ _ _ Pr) as Hac.
  pose proof (premaster_length cc) as Lm.
  apply (agree_intro cc sc x skey vkey c0 s0 cp [] _ n fl fs n' fl' fs' (fun _ => True) (fun _ => True)); try easy.
  - unfold ske_params, print_kex_info_server_ske. destruct Ha as [-> | ->]; khas; kgo;
      (split; [reflexivity |]; split; [| exact I]; split; [exact Rs |]; cbn [length]; split; [lia | unfold room in *; lia]).
  - intros pkt rest W V. unfold process_ske_params. rewrite Hac.
    destruct Ha as [-> | ->]; khas; kgo; (exists pkt; auto).
  - apply print_nothing; [| | easy]; rewrite Hac; destruct Ha as [-> | ->]; reflexivity.
  - intros c1 _. unfold tls_construct_client_key_exchange_ntls. rewrite Hac.
    assert (E1 : has (algorithm_mkey sc) (Z.lor SSL_kRSA SSL_kSM2) = true) by (destruct Ha as [-> | ->]; reflexivity).
    rewrite E1. apply wp_bind.
    eapply construct_cke_pms_run; kred; [exact Ha | apply Pr | exact Hx | apply Hrsa | apply Hsm | exact Hpub
      | now apply He | exact Rc | easy | exact Fc |].
    intros c2 R2 H2 N2. apply wp_bind. unfold print_kex_info_client_cke. rewrite E1.
    assert (E2 : has (algorithm_mkey sc) SSL_kECCKyber = false) by (destruct Ha as [-> | ->]; reflexivity).
    rewrite E2. kgo. split; [reflexivity |]. eexists. split; [exact R2 |]. split; [exact H2 |]. split; [congruence |].
    intros s1 pkt _ (W & V). unfold tls_process_client_key_exchange_ntls. rewrite E1.
    eapply process_cke_pms_run; [exact Ha | apply Hrsa | apply Hsm | exact W | exact V | now apply He | apply Pr
      | now apply He | exact Lm |]. auto.
Qed.
End Pms.

(** *** Kyber with a Dilithium signature *)

Section Kyber.
Context (epub ekey : EVP_PKEY).
Context (Ha : algorithm_mkey sc = SSL_kKyber) (Hx : X509_get0_pubkey x = Some epub) (He : kem_pair epub ekey).
Context (Hk : sm2_enc_key sc = Some ekey).
Context (Op : packets 0 (2 + Z.of_nat (kem_ct_size epub))).

Lemma kyber_agree : agree cc sc c0 s0 cp (kem_encapsulate epub).2.
Proof.
  destruct Op as [Rs Rc Fs Fc]. pose proof (pair_alg _ _ _ _ _ Pr) as Hac. rewrite Ha in Hac.
  apply (agree_intro cc sc x skey vkey c0 s0 cp [] _ n fl fs n' fl' fs' (fun _ => True) (fun c => pms c = NULL)); try easy.
  - unfold ske_params, print_kex_info_server_ske. rewrite Ha. khas. kgo.
    split; [reflexivity |]. split; [| exact I]. split; [exact Rs |]. cbn [length]. split; [lia | unfold room in *; lia].
  - intros pkt rest W V. unfold process_ske_params. rewrite Hac. khas. kgo. exists pkt. auto.
  - apply print_nothing; [now rewrite Hac | now rewrite Hac |]. intros s s' E (_ & _ & Ep & _). congruence.
  - intros c1 Ep. unfold tls_construct_client_key_exchange_ntls. rewrite Hac. khas. apply wp_bind.
    eapply construct_cke_kyber_run; kred; [exact He | apply Pr | exact Hx | exact Ep | exact Rc | easy | exact Fc |].
    intros c2 R2 H2 N2. apply wp_bind. unfold print_kex_info_client_cke. khas. kgo.
    split; [reflexivity |]. eexists. split; [exact R2 |]. split; [exact H2 |].
    split; [now rewrite N2, (kem_ss_length _ _ He) |].
    intros s1 pkt _ (W & V). unfold tls_process_client_key_exchange_ntls. rewrite Ha. khas.
    eapply process_cke_kyber_run; [exact He | exact Hk | apply Pr | exact W | exact V |]. auto.
Qed.
End Kyber.

(** *** Kyber and Aigis-enc *)

Section Aigis.
Context (epub ekey apub : EVP_PKEY).
Context (Ha : algorithm_mkey sc = SSL_kKyberAigisEnc) (Hx : X509_get0_pubkey x = Some epub).
Context (He : kem_pair epub ekey) (Hg : kem_pair apub aigis_generate) (Hk : sm2_enc_key sc = Some ekey).
Context (Hfrom : aigis_from_public (encoded_public_key aigis_generate) = Some apub).
Context (Hl : 0 < Z.of_nat (length (encoded_public_key aigis_generate)) < 256 ^ 2).
Context (Op : packets (2 + Z.of_nat (length (encoded_public_key aigis_generate)))
                      (4 + Z.of_nat (kem_ct_size epub + kem_ct_size apub))).

Lemma aigis_agree : agree cc sc c0 s0 cp ((kem_encapsulate epub).2 ++ (kem_encapsulate apub).2).
Proof.
  destruct Op as [Rs Rc Fs Fc]. pose proof (pair_alg _ _ _ _ _ Pr) as Hac. rewrite Ha in Hac.
  apply (agree_intro cc sc x skey vkey c0 s0 cp (vec16 (encoded_public_key aigis_generate)) _ n fl fs n' fl' fs'
           (fun s => aigis_kem_pkey s = Some aigis_generate)
           (fun c => pms c = NULL /\ aigis_kem_pkey c = Some apub)); try easy.
  - unfold vec16. klen.
  - now rewrite Ha.
  - intros s s' E (_ & _ & _ & _ & _ & _ & Eg). congruence.
  - unfold ske_params. rewrite Ha. khas. apply wp_bind.
    eapply ske_aigis_run; [exact Hl | exact Rs | easy | unfold room in *; lia |].
    intros s1 R1 A1 E1. kgo. split; [reflexivity |]. split; [| exact E1]. split; [exact R1 |].
    unfold vec16, advanced, room in *. split; klen.
  - intros pkt rest W V. unfold process_ske_params. rewrite Hac. khas.
    eapply process_ske_aigis_run; [exact Hfrom | exact Hl | exact W | exact V |].
    intros pkt' s' W' V' (_ & _ & Ep & _ & _ & _ & Eg). exists pkt'. kred_in Ep. kred_in Eg.
    split; [reflexivity |]. do 2 (split; [assumption |]). split; [congruence | exact Eg].
  - apply print_nothing; [now rewrite Hac | now rewrite Hac |].
    intros s s' (E1 & E2) (_ & _ & Ep & _ & _ & _ & Eg). split; congruence.
  - intros c1 (Ep & Eg). unfold tls_construct_client_key_exchange_ntls. rewrite Hac. khas. apply wp_bind.
    eapply construct_cke_aigis_run; kred;
      [exact He | exact Hg | apply Pr | exact Hx | exact Eg | exact Ep | exact Rc | easy | exact Fc |].
    intros c2 R2 H2 N2. apply wp_bind. unfold print_kex_info_client_cke. khas. kgo.
    split; [reflexivity |]. eexists. split; [exact R2 |]. split; [exact H2 |].
    split; [now rewrite N2, length_app, (kem_ss_length _ _ He), (kem_ss_length _ _ Hg) |].
    intros s1 pkt E1 (W & V). unfold tls_process_client_key_exchange_ntls. rewrite Ha. khas.
    eapply process_cke_aigis_run; [exact He | exact Hg | exact Hk | exact E1 | apply Pr | exact W | exact V |]. auto.
Qed.
End Aigis.

(** *** SM2DHE *)

Section Sm2dhe.
Context (par skc ckc : EVP_PKEY).
Let sk := generate_pkey_group (shared_group sc).
Let ck := generate_pkey skc.
Context (Ha : algorithm_mkey sc = SSL_kSM2DHE) (Hgs : 0 < shared_group sc < 256) (Hgc : 0 <= shared_group cc < 256).
Context (Hsk : point_ok sk) (Hskc : point_ok skc) (Hck : point_ok ck).
Context (Hpar : generate_param_group OSSL_TLS_GROUP_ID_sm2 = Some par)
        (Hps : set_encoded_public_key par (encoded_public_key sk) = Some skc)
        (Hpc : set_encoded_public_key sk (encoded_public_key ck) = Some ckc).
Context (Hss : pkey_derive sk ckc = pkey_derive ck skc) (Hne : pkey_derive ck skc <> []).
Context (Ts : tmp_pkey s0 = None).
Context (Op : packets (4 + Z.of_nat (length (encoded_public_key sk))) (4 + Z.of_nat (length (encoded_public_key ck)))).

Lemma sm2dhe_agree : agree cc sc c0 s0 cp (pkey_derive ck skc).
Proof.
  destruct Op as [Rs Rc Fs Fc]. pose proof (pair_alg _ _ _ _ _ Pr) as Hac. rewrite Ha in Hac.
  apply (agree_intro cc sc x skey vkey c0 s0 cp (point_bytes [0; shared_group sc] sk) _ n fl fs n' fl' fs'
           (fun s => tmp_pkey s = Some sk) (fun c => peer_tmp c = Some skc)); try easy.
  - unfold point_bytes, vec8, point_ok in *. cbn [app length]. klen.
  - now rewrite Ha.
  - intros s s' E (_ & _ & _ & _ & Et & _). congruence.
  - unfold ske_params. rewrite Ha. khas.
    eapply ske_sm2dhe_run; [exact Ha | exact Hgs | reflexivity | exact Hsk | exact Ts | exact Rs | easy | unfold sk, room in *; lia |].
    intros s1 R1 A1 E1. split; [reflexivity |]. split; [| exact E1]. split; [exact R1 |].
    unfold point_bytes, vec8, advanced, room, sk in *. cbn [app length]. split; klen.
  - intros pkt rest W V. unfold process_ske_params. rewrite Hac. khas. unfold tls_process_ske_sm2dhe_ntls. apply wp_bind.
    unfold point_ok in Hsk.
    eapply (read_ecdhe_params_run _ _ skc par _ (shared_group sc));
      [exact W | exact V | lia | cbn [be_bytes app]; now rewrite Z.div_small, !Z.mod_small by lia | lia | exact Hpar | exact Hps |].
    intros pkt' W' V'. apply wp_bind. unfold print_kex_info_client_ske. khas.
    eapply print_peer_tmp_run; kred; [reflexivity | now apply point_ok_ne |].
    intros s' (_ & _ & _ & _ & _ & Ep & _) _. kred_in Ep. kgo. exists pkt'. auto.
  - intros c1 c2 E (_ & _ & _ & _ & _ & Ep & _). unfold print_kex_info_client_ske. rewrite Hac. khas.
    eapply print_peer_tmp_run; [rewrite Ep; exact E | now apply point_ok_ne |].
    intros s' (_ & _ & _ & _ & _ & Ep' & _) _. congruence.
  - intros c1 Ep. unfold tls_construct_client_key_exchange_ntls. rewrite Hac. khas. apply wp_bind.
    eapply construct_cke_sm2dhe_run; kred;
      [exact Hac | exact Hgc | exact Ep | exact Hne | exact Hck | exact Rc | easy | exact Fc |].
    intros c2 R2 H2 N2. apply wp_bind. unfold print_kex_info_client_cke. khas.
    eapply print_pms_run; [split; [exact H2 | exact N2] | exact Hne |]. kgo.
    split; [reflexivity |]. eexists. split; [exact R2 |]. split; [exact H2 |]. split; [exact N2 |].
    intros s1 pkt E1 (W & V). unfold tls_process_client_key_exchange_ntls. rewrite Ha. khas.
    eapply (process_cke_sm2dhe_run sc sk ck ckc [0; shared_group cc]);
      [exact Ha | apply Pr | exact E1 | exact Hpc | now rewrite Hss | exact Hck | reflexivity | exact W | exact V |].
    intros s2 M2. rewrite Hss in M2. auto.
Qed.
End Sm2dhe.

(** *** ECDHE with Kyber *)

Section EcdheKyber.
Context (epub ekey par skc ckc skey_ec : EVP_PKEY) (priv : Z).
Let sk := generate_pkey_group (shared_group sc).
Let ck := generate_pkey_group (shared_group cc).
Context (Ha : algorithm_mkey sc = SSL_kECDHEKyber) (Hgs : 0 < shared_group sc < 65536) (Hgc : 0 < shared_group cc < 65536).
Context (Hx : X509_get0_pubkey x = Some epub) (Lep : length (encoded_public_key epub) = ECC_PK_SIZE).
Context (Hk : sm2_enc_key sc = Some ekey) (Hp : ec_private ekey = Some priv) (Hpr : 0 <= priv < 256 ^ 32).
Context (Hsk : point_ok sk) (Hskc : point_ok skc) (Hck : point_ok ck).
Context (Hpar : generate_param_group (shared_group sc) = Some par)
        (Hps : set_encoded_public_key par (encoded_public_key sk) = Some skc)
        (Hpe : set_encoded_public_key ck (encoded_public_key skc) = Some skey_ec)
        (Hpc : set_encoded_public_key sk (encoded_public_key ck) = Some ckc).
Context (Hss : pkey_derive sk ckc = pkey_derive ck skey_ec) (Hne : pkey_derive ck skey_ec <> []).
Context (Ts : tmp_pkey s0 = None).
Context (Op : packets (1190 + Z.of_nat (length (encoded_public_key sk))) (1094 + Z.of_nat (length (encoded_public_key ck)))).

Lemma ecdhekyber_agree kpk ksk kct kss :
  kem_run sampler_fuel keygen_coins encaps_coins kpk ksk kct kss ->
  agree cc sc c0 s0 cp (pkey_derive ck skey_ec ++ kss).
Proof.
  intros R. destruct Op as [Rs Rc Fs Fc]. pose proof (pair_alg _ _ _ _ _ Pr) as Hac. rewrite Ha in Hac.
  assert (Lsk : length (be_bytes ECC_SK_SIZE priv ++ ksk) = ECC_KYBER_HYBRID_SK_SIZE) by klen.
  pose proof (run_ss _ _ _ _ _ _ _ R) as Lss. pose proof (run_pk _ _ _ _ _ _ _ R) as Lpk.
  apply (agree_intro cc sc x skey vkey c0 s0 cp (ecdhekyber_params (shared_group sc) sk kpk) _ n fl fs n' fl' fs'
           (fun s => pms_is (be_bytes ECC_SK_SIZE priv ++ ksk) s /\ tmp_pkey s = Some sk)
           (fun c => pms_is kpk c /\ peer_tmp c = Some skc)); try easy.
  - unfold ecdhekyber_params, ecckyber_params, point_bytes, vec8, point_ok in *. cbn [app length]. klen.
  - now rewrite Ha.
  - intros s s' (P1 & E1) HK. split; [now apply (pms_is_keeps _ s) |]. destruct HK as (_ & _ & _ & _ & Et & _). congruence.
  - unfold ske_params. rewrite Ha. khas.
    eapply ske_ecdhekyber_run;
      [exact R | exact Ha | exact Hk | exact Hp | exact Hpr | exact Hgs | reflexivity | exact Hsk | exact Ts | exact Es
      | exact Rs | easy | unfold sk, room in *; lia |].
    intros s1 R1 A1 H1 N1 E1. split; [reflexivity |]. split; [| split; [split; congruence | exact E1]].
    split; [exact R1 |]. unfold ecdhekyber_params, ecckyber_params, point_bytes, vec8, advanced, room, sk in *.
    cbn [app length]. split; klen.
  - intros pkt rest W V. unfold process_ske_params. rewrite Hac. khas.
    eapply (process_ske_ecdhekyber_run cc (shared_group sc) par sk skc);
      [exact R | lia | exact Hpar | exact Hsk | exact Hps | exact Ec | exact W | exact V |].
    intros pkt' s' W' V' H' N' E'. exists pkt'. split; [reflexivity |]. do 2 (split; [assumption |]).
    split; [split; congruence | exact E'].
  - apply print_nothing; [now rewrite Hac | now rewrite Hac |].
    intros s s' (P1 & E1) HK. split; [now apply (pms_is_keeps _ s) |].
    destruct HK as (_ & _ & _ & _ & _ & Ep & _). congruence.
  - intros c1 (((a & Ep & Ha1 & Eh) & En) & Ept).
    unfold tls_construct_client_key_exchange_ntls. rewrite Hac. khas. apply wp_bind.
    eapply construct_cke_ecdhekyber_run; kred;
      [exact R | exact Hac | exact Hgc | apply Pr | exact Hx | exact Lep | exact Ept | exact Hskc | exact Hck | exact Hpe
      | exact Hne | exact Ep | exact Ha1 | exact Eh | congruence | exact Rc | easy | exact Fc |].
    intros c2 R2 H2 N2. apply wp_bind. unfold print_kex_info_client_cke. khas. kgo.
    split; [reflexivity |]. eexists. split; [exact R2 |]. split; [exact H2 |]. split; [rewrite N2, length_app, Lss; reflexivity |].
    intros s1 pkt (((b & Ep' & Hb & Eh') & En') & E1) (W & V).
    unfold tls_process_client_key_exchange_ntls. rewrite Ha. khas.
    eapply (process_cke_ecdhekyber_run sc sk ck ckc (be_bytes 2 (shared_group cc)));
      [exact R | exact Ha | apply Pr | exact E1 | exact Hpc | now rewrite Hss | exact Hck | reflexivity | exact W | exact V
      | exact Ep' | exact Hb | exact Eh' | apply be_bytes_length | congruence |].
    intros s2 M2. rewrite Hss in M2. auto.
Qed.

(** C17: ECDHE with Kyber: both sides agree.  When no call fails and the noise of
    the Kyber run stays in the decoding window, the four handlers succeed, and both sides have the master secret of the randoms, the
    shared secret of the ephemeral keys and the 32 bytes of the Kyber secret. *)
Theorem ecdhekyber_exchange_agrees :
  length keygen_coins = 64%nat -> length encaps_coins = 32%nat -> bytes encaps_coins ->
  kem_noise_ok sampler_fuel keygen_coins encaps_coins = true ->
  exists kpk ksk kct kss, kem_run sampler_fuel keygen_coins encaps_coins kpk ksk kct kss
    /\ agree cc sc c0 s0 cp (pkey_derive ck skey_ec ++ kss).
Proof.
  intros L1 L2 B2 Hn. destruct (kem_run_exists sampler_fuel _ _ L1 L2 B2 Hn) as (kpk & ksk & kct & kss & R).
  exists kpk, ksk, kct, kss. split; [exact R |]. now apply (ecdhekyber_agree kpk ksk kct).
Qed.
End EcdheKyber.
End Exchanges.

(** *** The exchanges without the hybrid mechanism

    What each of them needs, and the premaster secret it makes. *)
Inductive plain_exchange (cc sc : conn) (x : X509) (skey : EVP_PKEY) (s0 : kex) (cp : WPACKET) : list Z -> Prop :=
| by_encryption epub ekey n n' fl fl' fs fs' :
    pms_kex (algorithm_mkey sc) -> X509_get0_pubkey x = Some epub -> enc_pair epub ekey ->
    (algorithm_mkey sc = SSL_kRSA -> is_RSA epub = true /\ rsa_enc_key sc = Some ekey) ->
    (algorithm_mkey sc = SSL_kSM2 -> is_SM2 epub = true /\ sm2_enc_key sc = Some ekey) ->
    encoded_public_key epub <> [] ->
    open_packets sc skey s0 cp 0 (2 + Z.of_nat (pkey_encrypt_size epub SSL_MAX_MASTER_KEY_LENGTH))
      n n' fl fl' fs fs' ->
    plain_exchange cc sc x skey s0 cp (premaster cc)
| by_kyber epub ekey n n' fl fl' fs fs' :
    algorithm_mkey sc = SSL_kKyber -> X509_get0_pubkey x = Some epub -> kem_pair epub ekey ->
    sm2_enc_key sc = Some ekey ->
    open_packets sc skey s0 cp 0 (2 + Z.of_nat (kem_ct_size epub)) n n' fl fl' fs fs' ->
    plain_exchange cc sc x skey s0 cp (kem_encapsulate epub).2
| by_kyber_and_aigis epub ekey apub n n' fl fl' fs fs' :
    algorithm_mkey sc = SSL_kKyberAigisEnc -> X509_get0_pubkey x = Some epub -> kem_pair epub ekey ->
    kem_pair apub aigis_generate -> sm2_enc_key sc = Some ekey ->
    aigis_from_public (encoded_public_key aigis_generate) = Some apub ->
    0 < Z.of_nat (length (encoded_public_key aigis_generate)) < 256 ^ 2 ->
    open_packets sc skey s0 cp (2 + Z.of_nat (length (encoded_public_key aigis_generate)))
      (4 + Z.of_nat (kem_ct_size epub + kem_ct_size apub)) n n' fl fl' fs fs' ->
    plain_exchange cc sc x skey s0 cp ((kem_encapsulate epub).2 ++ (kem_encapsulate apub).2)
| by_sm2dhe par skc ckc n n' fl fl' fs fs' :
    let sk := generate_pkey_group (shared_group sc) in
    let ck := generate_pkey skc in
    algorithm_mkey sc = SSL_kSM2DHE -> 0 < shared_group sc < 256 -> 0 <= shared_group cc < 256 ->
    point_ok sk -> point_ok skc -> point_ok ck ->
    generate_param_group OSSL_TLS_GROUP_ID_sm2 = Some par ->
    set_encoded_public_key par (encoded_public_key sk) = Some skc ->
    set_encoded_public_key sk (encoded_public_key ck) = Some ckc ->
    pkey_derive sk ckc = pkey_derive ck skc -> pkey_derive ck skc <> [] -> tmp_pkey s0 = None ->
    open_packets sc skey s0 cp (4 + Z.of_nat (length (encoded_public_key sk)))
      (4 + Z.of_nat (length (encoded_public_key ck))) n n' fl fl' fs fs' ->
    plain_exchange cc sc x skey s0 cp (pkey_derive ck skc).

(** C18: The other key exchanges: both sides agree.  With RSA or SM2
    encryption, SM2DHE, Kyber, and Kyber with Aigis-enc, when no call fails, the
    four handlers succeed, and both sides have the master secret of the same
    premaster secret: the encrypted one, the shared secret of the ephemeral
    keys, the encapsulated one, or the two encapsulated ones in order. *)
Theorem plain_exchange_agrees cc sc x skey vkey c0 s0 cp secret :
  paired cc sc x skey vkey -> pms s0 = NULL -> pms c0 = NULL ->
  plain_exchange cc sc x skey s0 cp secret -> agree cc sc c0 s0 cp secret.
Proof.
  intros Pr Es Ec H. destruct H.
  - eapply pms_agree; eassumption.
  - eapply kyber_agree; eassumption.
  - eapply aigis_agree; eassumption.
  - eapply sm2dhe_agree; eassumption.
Qed.
End Agree.

(** ** In the concrete setting *)

#[local] Instance good_alloc : Alloc := toy_alloc [].
#[local] Instance good_crypto : Crypto := toy_crypto [].
#[local] Abbreviation client alg_k := (toy_conn [] false alg_k).
#[local] Abbreviation server alg_k := (toy_conn [] true alg_k).

#[local] Instance toy_crypto_laws : CryptoLaws.
Proof. split; [reflexivity | intros; apply Nat.le_refl | reflexivity]. Qed.

#[local] Instance toy_no_failure : NoFailure.
Proof. split; reflexivity. Qed.

Lemma toy_packet_rep : rep toy_packet [mk_frame 0 0 []].
Proof.
  destruct (intern_init_ok (fresh_packet None (Some (repeat 0 2000)) 2000 false 1) 0)
    as (p & E & R & _); [vm_compute; discriminate | reflexivity | vm_compute; discriminate
                        | vm_compute; discriminate | lia | reflexivity |].
  change toy_packet with (wpacket_intern_init_len
    (fresh_packet None (Some (repeat 0 2000)) 2000 false 1) (Z.of_nat 0)).2.
  rewrite E. exact R.
Qed.

Lemma toy_paired alg_k : alg_k ∈ kexes -> paired (client alg_k) (server alg_k) 9 3 3.
Proof.
  intros H. pose proof H as H'. unfold kexes in H'. rewrite !elem_of_cons, elem_of_nil in H'.
  split; [reflexivity | exact H | reflexivity .. | split; reflexivity | | reflexivity | | reflexivity | | reflexivity].
  - destruct H' as [-> | [-> | [-> | [-> | [-> | [-> | [-> | []]]]]]]]; easy.
  - destruct H' as [-> | [-> | [-> | [-> | [-> | [-> | [-> | []]]]]]]]; reflexivity.
  - intros t. split; [vm_compute; lia | reflexivity].
Qed.

Lemma toy_open ske cke sc :
  sig_room sc 3 = 2%nat -> 0 <= ske <= 1900 -> 0 <= cke <= 1900 ->
  open_packets sc 3 (toy_state []) toy_packet ske cke 0 0 0 0 [] [].
Proof.
  intros E H1 H2. split; [apply toy_packet_rep | apply toy_packet_rep | |]; rewrite ?E; unfold room.
  - change (written (k_pkt (toy_state []))) with 0. change (cap (k_pkt (toy_state []))) with 2000. lia.
  - change (written toy_packet) with 0. change (cap toy_packet) with 2000. lia.
Qed.

Lemma toy_enc_pair : enc_pair 9 9.
Proof. split; cbn [pkey_decrypt pkey_encrypt pkey_decrypt_size good_crypto toy_crypto]; intros m L; [reflexivity | now rewrite L | now rewrite L]. Qed.

Lemma ecckyber_exchange_agrees_witness :
  exists kpk ksk kct kss, kem_run 0 (replicate 64 0) (replicate 32 0) kpk ksk kct kss
    /\ agree (client SSL_kECCKyber) (server SSL_kECCKyber) (toy_state []) (toy_state []) toy_packet
         (premaster (client SSL_kECCKyber) ++ kss).
Proof.
  apply (ecckyber_exchange_agrees (client SSL_kECCKyber) (server SSL_kECCKyber) 9 3 3
           (toy_state []) (toy_state []) toy_packet 0 0 0 0 [] []
           (toy_paired SSL_kECCKyber ltac:(unfold kexes; set_solver)) eq_refl eq_refl
           9 9 9 eq_refl eq_refl eq_refl toy_enc_pair eq_refl eq_refl ltac:(lia) eq_refl
           (toy_open 1186 1140 (server SSL_kECCKyber) eq_refl ltac:(lia) ltac:(lia))
           eq_refl eq_refl (zeros_bytes 32) zero_kem_noise_ok).
Defined.

Lemma ecdhekyber_exchange_agrees_witness :
  exists kpk ksk kct kss, kem_run 0 (replicate 64 0) (replicate 32 0) kpk ksk kct kss
    /\ agree (client SSL_kECDHEKyber) (server SSL_kECDHEKyber) (toy_state []) (toy_state []) toy_packet
         ([41 * 41] ++ kss).
Proof.
  apply (ecdhekyber_exchange_agrees (client SSL_kECDHEKyber) (server SSL_kECDHEKyber) 9 3 3
           (toy_state []) (toy_state []) toy_packet 0 0 0 0 [] []
           (toy_paired SSL_kECDHEKyber ltac:(unfold kexes; set_solver)) eq_refl eq_refl
           9 9 0 41 41 41 9 eq_refl (conj eq_refl eq_refl) (conj eq_refl eq_refl) eq_refl eq_refl
           eq_refl eq_refl ltac:(lia) (conj eq_refl eq_refl) (conj eq_refl eq_refl) (conj eq_refl eq_refl)
           eq_refl eq_refl eq_refl eq_refl eq_refl ltac:(discriminate) eq_refl
           (toy_open 1255 1159 (server SSL_kECDHEKyber) eq_refl ltac:(lia) ltac:(lia))
           eq_refl eq_refl (zeros_bytes 32) zero_kem_noise_ok).
Defined.

Lemma plain_exchange_agrees_witness :
  agree (client SSL_kSM2DHE) (server SSL_kSM2DHE) (toy_state []) (toy_state []) toy_packet [7 * 41].
Proof.
  apply (plain_exchange_agrees (client SSL_kSM2DHE) (server SSL_kSM2DHE) 9 3 3 (toy_state []) (toy_state []) toy_packet [7 * 41]
           (toy_paired SSL_kSM2DHE ltac:(unfold kexes; set_solver)) eq_refl eq_refl).
  apply (by_sm2dhe (client SSL_kSM2DHE) (server SSL_kSM2DHE) 9 3 (toy_state []) toy_packet 0 41 7 0 0 0 0 [] []);
    try reflexivity; try (split; reflexivity); try discriminate; try (split; [discriminate | reflexivity]).
  apply toy_open; [reflexivity | vm_compute; split; discriminate ..].
Defined.
