(* ===== verification/KexFaults.v ===== *)
(** * Key exchange messages: memory errors

    Inputs and failures on which the handlers free a block twice, free a
    pointer that was never set, or write behind a block. *)

From S2P Require Import Prelude Buffers CMem Packet PacketSpec Wpacket WpacketSpec PacketRules KyberReduce KyberSymmetric KyberPoly KyberPolyvec KyberIndcpa KyberKem KyberKemSpec HybridKem HybridSpec KexTypes KexLogic KexClient KexServer KexRuns KexSign KexRunsEvp KexAgree.

Section Faults.
Context {S : Symmetric} {SL : SymmetricLaws S} {C : Curve} {CL : CurveLaws} {K : Crypto} {KL : CryptoLaws} {A : Alloc}.

Lemma store_behind a b off bs s :
  heap (k_mem s) !! a = Some b -> (length b < off + length bs)%nat ->
  ends (eq (Stuck OutOfBounds)) (store (Ptr a) off bs) s.
Proof.
  intros E Hl. unfold ends, store, on_mem, mem_store, mem_block. cbn [mem_of kex_has_memory].
  rewrite E. cbn [mbind res_bind]. now rewrite (proj2 (Nat.leb_gt _ _)) by lia.
Qed.

Lemma memcpy_behind a b off a' b' off' n s :
  heap (k_mem s) !! a' = Some b' -> (off' + n <= length b')%nat ->
  heap (k_mem s) !! a = Some b -> (length b < off + n)%nat ->
  ends (eq (Stuck OutOfBounds)) (memcpy (Ptr a) off (Ptr a') off' n) s.
Proof.
  intros E' H' E H. unfold memcpy. apply ends_bind, (wp_load a' b'); [assumption | lia |].
  apply (store_behind a b); [assumption |]. rewrite length_take, length_drop. lia.
Qed.

Lemma copy_at_mid n (a b r : list Z) :
  length a = n -> copy_at n b (a ++ r) = a ++ b ++ drop (length b) r.
Proof.
  intros <-. unfold copy_at. rewrite take_app_length, drop_app_add. reflexivity.
Qed.

(** ** The premaster secret of ECC with Kyber *)

Section Plaintext.
Context {OK : NoFailure}.
Context (c : conn) (ekey : EVP_PKEY) (ct m ecc kpk ksk kct kss : list Z) (pkt : PACKET) (a : Z) (s : kex).
Context (R : kem_run sampler_fuel keygen_coins encaps_coins kpk ksk kct kss).
Context (W : packet_wf pkt) (V : view pkt = ecckyber_cke ct kct) (Hct : 0 < Z.of_nat (length ct) < 256 ^ 2).
Context (Ek : sm2_enc_key c = Some ekey) (Es : is_server c = true) (Ed : pkey_decrypt ekey ct = Some m).
Context (Hsz : (0 < length m <= pkey_decrypt_size ekey ct)%nat).
Context (Ep : pms s = Ptr a) (Ha : a < next (k_mem s)) (Eh : heap (k_mem s) !! a = Some (ecc ++ ksk)).
Context (Le : length ecc = ECC_SK_SIZE) (En : pmslen s = ECC_KYBER_HYBRID_SK_SIZE).

Lemma plaintext_too_long :
  (SSL_MAX_MASTER_KEY_LENGTH < length m)%nat ->
  ends (eq (Stuck OutOfBounds)) (tls_process_cke_ecckyber_ntls c pkt) s.
Proof.
  intros Hl. eapply cke_ecckyber_decrypted; try eassumption; [apply R |].
  intros s1 a1 rest -> En1 Em1 Hh Ep1 El1. rewrite <- Hh in Eh by lia.
  unfold cke_ecckyber_combine. assert (H0 : length m <> 0%nat) by lia.
  apply ends_bind. kgo. apply ends_bind. kgo. apply ends_bind. kgo. rewrite Ep1, El1, Ep, En, Nat.eqb_refl. cbn [is_null orb negb].
  apply ends_bind. kgo. apply ends_bind.
  eapply wp_decaps_run; kred; [exact R | exact Le | heap_lookup | klen | heap_lookup |]. cbn [Z.eqb].
  apply ends_bind. kgo. apply ends_bind. kgo.
  destruct (Nat.le_gt_cases (length m) ECC_KYBER_HYBRID_SS_SIZE) as [H1 | H1].
  - apply ends_bind. kgo. apply ends_fault.
    eapply memcpy_behind; kred; [heap_lookup | klen | heap_lookup | klen].
  - apply ends_fault. eapply memcpy_behind; kred; [heap_lookup | klen | heap_lookup | klen].
Qed.

Lemma plaintext_short :
  (length m <= SSL_MAX_MASTER_KEY_LENGTH)%nat ->
  wp (tls_process_cke_ecckyber_ntls c pkt)
    (fun ok s' => ok = true /\ exists uninit,
       uninit = drop (length m + KYBER_768_SS_SIZE) (fresh_block (next (k_mem s) + 2) ECC_KYBER_HYBRID_SS_SIZE)
       /\ master_key s' = Some (master_secret (client_random c ++ server_random c ++ m ++ kss ++ uninit))) s.
Proof.
  intros Hl. apply wp_ends. eapply cke_ecckyber_decrypted; try eassumption; [apply R |].
  intros s1 a1 rest -> En1 Em1 Hh Ep1 El1. rewrite <- Hh in Eh by lia.
  apply ends_wp.
  unfold cke_ecckyber_combine, cke_ecckyber_err. assert (H0 : length m <> 0%nat) by lia.
  kgo. rewrite Ep1, El1, Ep, En, Nat.eqb_refl. kgo.
  eapply wp_decaps_run; kred; [exact R | exact Le | heap_lookup | klen | heap_lookup |].
  cbn [Z.eqb]. kgo. rewrite copy_at_mid by reflexivity. rewrite drop_drop, (run_ss _ _ _ _ _ _ _ R). kgo.
  unfold ssl_generate_master_secret. rewrite every_call, Es. kgo. split; [reflexivity |].
  eexists. split; [reflexivity |]. kred. rewrite En1. replace (next (k_mem s) + 2) with (next (k_mem s) + 1 + 1) by lia.
  reflexivity.
Qed.
(** C20: The server writes behind a buffer when the premaster secret is long.
    For a well-formed ClientKeyExchange of ECC with Kyber, the length of the
    decrypted secret, which the client chooses, is not checked: with more than 48
    bytes the copy into the buffer of 80 bytes goes past its end; with fewer, the
    exchange succeeds, and the master secret is made of the secret, the Kyber
    secret and bytes of the buffer that were never written. *)
Theorem ecckyber_plaintext_unchecked :
  ((SSL_MAX_MASTER_KEY_LENGTH < length m)%nat -> tls_process_cke_ecckyber_ntls c pkt s = Stuck OutOfBounds)
  /\ ((length m <= SSL_MAX_MASTER_KEY_LENGTH)%nat ->
      exists s', tls_process_cke_ecckyber_ntls c pkt s = Val (true, s')
        /\ master_key s' = Some (master_secret (client_random c ++ server_random c ++ m ++ kss
             ++ drop (length m + KYBER_768_SS_SIZE) (fresh_block (next (k_mem s) + 2) ECC_KYBER_HYBRID_SS_SIZE)))).
Proof.
  split; intros Hl; [symmetry; now apply plaintext_too_long |].
  destruct (wp_run _ _ _ (plaintext_short Hl)) as (ok & s' & E & -> & u & -> & M). eauto.
Qed.
End Plaintext.

(** ** A pointer without a value *)

(** C21: Wild free in ECDHE with Kyber.  Whatever the state and the keys, an
    empty ClientKeyExchange makes the server free [hybrid_sk_saved] before it is
    declared, and so does a message that arrives when the server has no Kyber
    key. *)
Theorem ecdhekyber_wild_free c pkt s :
  algorithm_mkey c = SSL_kECDHEKyber ->
  PACKET_remaining pkt = 0 \/ pms s = NULL \/ pmslen s <> ECC_KYBER_HYBRID_SK_SIZE ->
  tls_process_client_key_exchange_ntls c pkt s = Stuck WildPointer.
Proof.
  intros Ha H. unfold tls_process_client_key_exchange_ntls. rewrite Ha. khas.
  symmetry. change (ends (eq (Stuck WildPointer)) (tls_process_cke_ecdhekyber_ntls c pkt) s).
  assert (Wild_free : forall al s, ends (eq (Stuck WildPointer))
    (SSLfatal_ntls al;; OPENSSL_clear_free NULL KYBER_768_SS_SIZE;;
     OPENSSL_clear_free Wild ECC_KYBER_HYBRID_SK_SIZE;; mret false) s).
  { intros al s'. apply ends_bind. kgo. apply ends_bind. kgo. now apply ends_fault. }
  unfold tls_process_cke_ecdhekyber_ntls. apply ends_bind. kgo.
  destruct (Z.eqb_spec (PACKET_remaining pkt) 0) as [_ | Hr]; [apply Wild_free |].
  apply ends_bind. kgo. apply ends_bind. kgo.
  replace (is_null (pms s) || negb (pmslen s =? ECC_KYBER_HYBRID_SK_SIZE)%nat) with true; [apply Wild_free |].
  destruct H as [H | [H | H]]; [easy | now rewrite H |].
  rewrite (proj2 (Nat.eqb_neq _ _) H). now rewrite orb_true_r.
Qed.

(** ** Blocks that are freed twice *)

Lemma clear_free_again a n s :
  heap (k_mem s) !! a = None -> n <> 0%nat -> ends (eq (Stuck DeadAccess)) (OPENSSL_clear_free (Ptr a) n) s.
Proof.
  intros E Hn. unfold ends, OPENSSL_clear_free, on_mem, mem_clear_free, mem_store, mem_block.
  cbn [mem_of kex_has_memory]. rewrite (proj2 (Nat.eqb_neq _ _) Hn), E. reflexivity.
Qed.

Lemma free_again a s :
  heap (k_mem s) !! a = None -> ends (eq (Stuck DeadFree)) (OPENSSL_free (Ptr a)) s.
Proof.
  intros E. unfold ends, OPENSSL_free, on_mem, mem_free. cbn [mem_of kex_has_memory]. now rewrite E.
Qed.

(** The server of the Kyber exchange when the decapsulation succeeds and no
    master secret is made: [ssl_generate_master_secret] frees [ss], and [err]
    clears and frees it again. *)
Lemma kyber_master_failure c pkt ct m pkey s :
  algorithm_mkey c = SSL_kKyber -> is_server c = true -> sm2_enc_key c = Some pkey ->
  packet_wf pkt -> view pkt = vec16 ct -> Z.of_nat (length ct) < 256 ^ 2 ->
  (forall x, x <> C_generate_master_secret -> call_ok x = true) -> alloc_ok (next (k_mem s)) = true ->
  kem_ss_size pkey <> 0%nat -> kem_decapsulate pkey ct = Some m -> (length m <= kem_ss_size pkey)%nat ->
  call_ok C_generate_master_secret = false ->
  tls_process_client_key_exchange_ntls c pkt s = Stuck DeadAccess.
Proof.
  intros Ha Es Ek W V Hct Hc Hal Hn Ed Hm Hms. unfold tls_process_client_key_exchange_ntls. rewrite Ha. khas.
  symmetry. change (ends (eq (Stuck DeadAccess)) (tls_process_cke_kyber_dilithium_ntls c pkt) s).
  unfold tls_process_cke_kyber_dilithium_ntls. rewrite <- (app_nil_r (vec16 _)) in V.
  apply ends_bind, (read_ct_run _ _ _ _ _ W V Hct). intros p1 W1 V1.
  rewrite (remaining_nil p1) by assumption. cbn [Z.eqb negb]. rewrite Ek. apply ends_bind.
  unfold decapsulate. rewrite !Hc, (proj2 (Nat.eqb_neq _ _) Hn) by discriminate. cbn [negb andb orb].
  apply wp_bind, wp_malloc_ok; [exact Hal | exact Hn |]. kred. rewrite Ed.
  apply wp_bind. eapply wp_store; kred; [heap_lookup | klen |]. apply wp_ret. cbn [negb].
  apply ends_bind. unfold ssl_generate_master_secret. rewrite Hms, Es. kgo.
  apply ends_fault, clear_free_again; [| exact Hn]. kred. apply lookup_delete_eq.
Qed.

(** The client of ECC with Kyber when there is no memory for the signed bytes,
    the fourth block it asks for: [buf] is freed, and [err] frees it again. *)
Lemma ecckyber_signed_failure c pkt kpk rest x k y pkey s :
  algorithm_mkey c = SSL_kECCKyber -> peer_enc_cert c = Some x -> X509_get0_pubkey x = Some k ->
  session_peer c = Some y -> X509_get0_pubkey y = Some pkey -> i2d_X509 x <> [] ->
  packet_wf pkt -> view pkt = ecckyber_params kpk ++ rest -> length kpk = KYBER_768_PK_SIZE -> pms s = NULL ->
  (forall x, call_ok x = true) ->
  (forall i, 0 <= i < 3 -> alloc_ok (next (k_mem s) + i) = true) -> alloc_ok (next (k_mem s) + 3) = false ->
  tls_process_key_exchange_ntls c pkt s = Stuck DeadFree.
Proof.
  intros Ha Ex Ek Ey Epk Hx W V Lk Epms Hc Hal Hbad.
  pose proof (Hal 0 ltac:(lia)) as A0. pose proof (Hal 1 ltac:(lia)) as A1. pose proof (Hal 2 ltac:(lia)) as A2.
  rewrite Z.add_0_r in A0. replace (next (k_mem s) + 2) with (next (k_mem s) + 1 + 1) in A2 by lia.
  replace (next (k_mem s) + 3) with (next (k_mem s) + 1 + 1 + 1) in Hbad by lia.
  unfold tls_process_key_exchange_ntls. symmetry.
  match goal with |- Stuck ?f = ?c ?s => change (ends (eq (Stuck f)) c s) end.
  apply ends_bind. kgo. apply ends_bind. kgo. apply ends_bind.
  unfold process_ske_params. rewrite Ha. khas. unfold tls_process_ske_ecckyber_ntls.
  pose proof V as V'. unfold ecckyber_params in V'. rewrite <- app_assoc in V'.
  apply wp_bind, (wp_get_net_2 _ _ _ _ _ W V'); [easy |]. intros p1 W1 B1 V1.
  rewrite Z.eqb_refl. cbn [negb].
  destruct (get_bytes_view p1 kpk rest (Z.of_nat KYBER_768_PK_SIZE) W1 V1) as (d & p2 & -> & Ed & W2 & B2 & V2);
    [now rewrite Lk |].
  apply wp_bind, (wp_reads _ kpk); [now rewrite B2 |].
  kgo. rewrite Ex, Ek, !Hc. cbn [negb]. kgo.
  rewrite point2oct_length. cbn [Nat.eqb negb andb SM2_DH_PK_SIZE ECC_PK_SIZE].
  kgo. rewrite Epms. kgo. 
  rewrite Ey. cbn [mbind option_bind]. rewrite Epk. apply ends_fault. unfold check_signature.
  apply ends_bind. unfold signed_params. rewrite Ha. khas.
  destruct (params_between_view pkt p2 _ rest W V W2 V2) as (sub & -> & Wsub & Vsub).
  rewrite Ex. apply wp_bind. unfold x509_to_asn1_ntls. rewrite Hc.
  assert (Hl : length (i2d_X509 x) <> 0%nat) by now destruct (i2d_X509 x).
  rewrite (proj2 (Nat.eqb_neq _ _) Hl). kred. apply wp_bind, wp_malloc_ok; kred; [exact A2 | lia |].
  apply wp_bind. eapply wp_store; kred; [apply lookup_insert_eq | klen |].
  apply wp_bind. eapply wp_store; kred; [apply lookup_insert_eq | |].
  { rewrite copy_at_length; klen. }
  kgo. apply wp_malloc; kred; [| congruence | lia]. intros _. cbn [is_null].
  kgo. apply ends_fault, free_again. kred. apply lookup_delete_eq.
Qed.

(** When no master secret is made of the hybrid secret, [hybrid_ss] is freed
    and then freed again at [err]. *)
Lemma ecckyber_master_failure c kct m rest ecc kpk ksk kss ap a s :
  kem_run sampler_fuel keygen_coins encaps_coins kpk ksk kct kss ->
  (forall a, alloc_ok a = true) -> call_ok C_generate_master_secret = false -> is_server c = true ->
  length m = SSL_MAX_MASTER_KEY_LENGTH -> ap < next (k_mem s) -> heap (k_mem s) !! ap = Some (m ++ rest) ->
  pms s = Ptr a -> a < next (k_mem s) -> heap (k_mem s) !! a = Some (ecc ++ ksk) -> a <> ap ->
  length ecc = ECC_SK_SIZE -> pmslen s = ECC_KYBER_HYBRID_SK_SIZE ->
  cke_ecckyber_combine c kct (Ptr ap) (length m) s = Stuck DeadAccess.
Proof.
  intros R Hal Hms Es Lm Hap Em Ep Ha Eh Hne Le En. symmetry.
  change (ends (eq (Stuck DeadAccess)) (cke_ecckyber_combine c kct (Ptr ap) (length m)) s).
  unfold cke_ecckyber_combine, cke_ecckyber_err. rewrite Lm. assert (A1 := Hal).
  apply ends_bind. kgo. apply ends_bind. kgo. apply ends_bind. kgo. rewrite Ep, En, Nat.eqb_refl. cbn [is_null orb negb].
  apply ends_bind, wp_malloc_ok; [apply Hal | discriminate |]. kred. apply ends_bind.
  eapply wp_decaps_run; kred; [exact R | exact Le | heap_lookup | klen | heap_lookup |]. cbn [Z.eqb].
  apply ends_bind. kgo. apply ends_bind, wp_malloc_ok; [apply Hal | discriminate |]. kred.
  apply ends_bind. kgo. apply ends_bind. kgo. apply ends_bind. kgo. apply ends_bind.
  unfold ssl_generate_master_secret. rewrite Hms, Es. kgo.
  apply ends_bind. kgo. apply ends_bind. kgo. apply ends_bind. kgo. apply ends_fault.
  apply clear_free_again; [| discriminate]. kred.
  rewrite !lookup_delete_ne by lia. apply lookup_delete_eq.
Qed.

(** When there is no memory for the combined secret, [kyber_ss] is freed and
    then freed again at [err]. *)
Lemma ecdhekyber_combined_failure c (ecc ess : list Z) saved ae kpk ksk kct kss pkt s :
  kem_run sampler_fuel keygen_coins encaps_coins kpk ksk kct kss ->
  alloc_ok (next (k_mem s)) = true -> alloc_ok (next (k_mem s) + 1) = false ->
  packet_wf pkt -> view pkt = be_bytes 2 (Z.of_nat KYBER_768_CT_SIZE) ++ kct ->
  pms s = Ptr ae -> pmslen s = length ess -> ess <> [] ->
  saved < next (k_mem s) -> heap (k_mem s) !! saved = Some (ecc ++ ksk) -> length ecc = ECC_SK_SIZE ->
  cke_ecdhekyber_combine c pkt (Ptr saved) (fun ret kyber_ss saved =>
    OPENSSL_clear_free kyber_ss KYBER_768_SS_SIZE;; OPENSSL_clear_free saved ECC_KYBER_HYBRID_SK_SIZE;; mret ret) s
  = Stuck DeadAccess.
Proof.
  intros R H1 H2 W V Ep En Hess Hsv Esv Lecc. symmetry.
  match goal with |- Stuck ?f = ?c ?s => change (ends (eq (Stuck f)) c s) end.
  unfold cke_ecdhekyber_combine. apply ends_bind. kgo. apply ends_bind. kgo. rewrite Ep, En.
  assert (H0 : length ess <> 0%nat) by now destruct ess. rewrite (proj2 (Nat.eqb_neq _ _) H0). kred.
  apply ends_bind, (wp_get_net_2 _ _ _ _ _ W V); [easy |]. intros p1 W1 _ V1.
  rewrite Z.eqb_refl. cbn [negb]. rewrite <- (app_nil_r kct) in V1.
  destruct (get_bytes_view p1 kct [] (Z.of_nat KYBER_768_CT_SIZE) W1 V1) as (d & p2 & -> & Ed & W2 & B2 & V2);
    [now rewrite (run_ct _ _ _ _ _ _ _ R) |].
  rewrite (remaining_nil p2) by assumption. cbn [Z.eqb negb].
  apply ends_bind, wp_malloc_ok; [exact H1 | discriminate |]. kred.
  apply ends_bind. eapply wp_reads; [rewrite B2; exact Ed |]. apply ends_bind.
  eapply wp_decaps_run; kred; [exact R | exact Lecc | heap_lookup | klen | heap_lookup |]. cbn [Z.eqb].
  assert (Lsv : length (ecc ++ ksk) = ECC_KYBER_HYBRID_SK_SIZE) by klen.
  apply ends_bind. kgo. apply ends_bind, wp_malloc; kred; [| congruence | unfold KYBER_768_SS_SIZE; lia].
  intros _. apply ends_bind. kgo. apply ends_bind. kgo. apply ends_fault.
  apply clear_free_again; [apply lookup_delete_eq | discriminate].
Qed.

(** C27: The error paths that the safety theorems of the two messages leave out
    free a block twice.  For every ClientKeyExchange of the Kyber exchange whose
    ciphertext the server decapsulates, a server that fails to make the master
    secret frees the shared secret again at [err]; and for every ServerKeyExchange
    of ECC with Kyber that begins with a Kyber public key, a client that gets no
    memory for the signed bytes, and nothing else fails, frees the encoded
    certificate again at [err]. *)
Theorem error_paths_free_twice :
  (forall c pkt ct m pkey s,
     algorithm_mkey c = SSL_kKyber -> is_server c = true -> sm2_enc_key c = Some pkey ->
     packet_wf pkt -> view pkt = vec16 ct -> Z.of_nat (length ct) < 256 ^ 2 ->
     (forall x, x <> C_generate_master_secret -> call_ok x = true) -> alloc_ok (next (k_mem s)) = true ->
     kem_ss_size pkey <> 0%nat -> kem_decapsulate pkey ct = Some m -> (length m <= kem_ss_size pkey)%nat ->
     call_ok C_generate_master_secret = false ->
     tls_process_client_key_exchange_ntls c pkt s = Stuck DeadAccess)
  /\ (forall c pkt kpk rest x k y pkey s,
       algorithm_mkey c = SSL_kECCKyber -> peer_enc_cert c = Some x -> X509_get0_pubkey x = Some k ->
       session_peer c = Some y -> X509_get0_pubkey y = Some pkey -> i2d_X509 x <> [] ->
       packet_wf pkt -> view pkt = ecckyber_params kpk ++ rest -> length kpk = KYBER_768_PK_SIZE -> pms s = NULL ->
       (forall x, call_ok x = true) ->
       (forall i, 0 <= i < 3 -> alloc_ok (next (k_mem s) + i) = true) -> alloc_ok (next (k_mem s) + 3) = false ->
       tls_process_key_exchange_ntls c pkt s = Stuck DeadFree).
Proof. split; [exact kyber_master_failure | exact ecckyber_signed_failure]. Qed.
End Faults.

(** ** In the concrete setting *)

Definition packet_of (b : list Z) : PACKET := mk_packet b 0 (Z.of_nat (length b)).

(** Block 0 has the bytes [b], and [s3.tmp.pms] points to it. *)
Definition with_pms (bad : list kcall) (b : list Z) : @kex _ (toy_crypto bad) :=
  @mk_kex _ (toy_crypto bad) (mk_memory {[0 := b]} 1) toy_packet (Ptr 0) (length b) (Some 5) (Some 5) None 0
    None None [].
(** Ten bytes are left for the message. *)
Definition full_state : @kex _ (toy_crypto []) :=
  @mk_kex _ (toy_crypto []) (mk_memory ∅ 1) (@WPACKET_init_static_len (toy_alloc []) (repeat 0 10) 0 1).2 NULL 0
    None None None 0 None None [].

Definition fault_of {B} (r : res B) : option fault := match r with Val _ => None | Stuck f => Some f end.

(** Three more paths that free twice, each in a run with one failure: a client
    of ECC with Kyber or ECDHE with Kyber that has no memory for the Kyber secret,
    and a server of ECDHE with Kyber whose message does not fit. *)
Example more_double_frees :
  fault_of (@tls_construct_cke_ecckyber_ntls _ _ (toy_crypto []) (toy_alloc [3]) (toy_conn _ false SSL_kECCKyber)
       (with_pms [] (repeat 0 1249))) = Some DeadAccess
  /\ fault_of (@tls_construct_cke_ecdhekyber_ntls _ _ (toy_crypto []) (toy_alloc [6]) (toy_conn _ false SSL_kECDHEKyber)
       (with_pms [] (repeat 0 1184))) = Some DeadAccess
  /\ fault_of (@tls_construct_server_key_exchange_ntls _ _ (toy_crypto []) (toy_alloc []) (toy_conn _ true SSL_kECDHEKyber)
       full_state) = Some DeadFree.
Proof. split_and!; vm_compute; reflexivity. Qed.

(** A premaster secret of 49 bytes. *)
Lemma ecckyber_plaintext_unchecked_witness :
  exists kct ksk,
    @tls_process_cke_ecckyber_ntls _ _ (toy_crypto []) (toy_alloc []) (toy_conn [] true SSL_kECCKyber)
      (packet_of (ecckyber_cke (repeat 7 49) kct)) (with_pms [] (repeat 0 32 ++ ksk)) = Stuck OutOfBounds.
Proof.
  destruct (@kem_run_exists _ zero_laws 0 (replicate 64 0) (replicate 32 0) eq_refl eq_refl (zeros_bytes 32)
              zero_kem_noise_ok) as (kpk & ksk & kct & kss & R).
  exists kct, ksk. pose proof (run_ct _ _ _ _ _ _ _ R) as Lct. pose proof (run_sk _ _ _ _ _ _ _ R) as Lsk.
  assert (Lv : length (ecckyber_cke (repeat 7 49) kct) = 1141%nat).
  { unfold ecckyber_cke. rewrite !length_app, Lct. reflexivity. }
  assert (Ev : view (packet_of (ecckyber_cke (repeat 7 49) kct)) = ecckyber_cke (repeat 7 49) kct).
  { unfold view, packet_of. cbn [remaining curr base]. now rewrite Nat2Z.id, drop_0, firstn_all. }
  apply (ecckyber_plaintext_unchecked (K := toy_crypto []) (A := toy_alloc []) (OK := toy_no_failure)
           (toy_conn [] true SSL_kECCKyber) 9 (repeat 7 49) (repeat 7 49) (repeat 0 32) kpk ksk kct kss
           (packet_of (ecckyber_cke (repeat 7 49) kct)) 0 (with_pms [] (repeat 0 32 ++ ksk)) R);
    try reflexivity; try exact Ev; try (split; reflexivity).
  - unfold packet_wf. rewrite Ev. cbn [packet_of curr remaining base]. rewrite Lv.
    repeat split; try (vm_compute; discriminate).
    unfold ecckyber_cke. apply Forall_app_2; (apply Forall_app_2; [apply be_bytes_bytes |]);
      [| apply (run_ct_bytes _ _ _ _ _ _ _ R)].
    apply Forall_forall. intros y Hy. apply list_elem_of_In, repeat_spec in Hy as ->. split; reflexivity || discriminate.
  - vm_compute. lia.
  - cbn [pmslen with_pms]. rewrite length_app, Lsk. reflexivity.
  - apply Nat.ltb_lt. reflexivity.
Defined.

Lemma ecdhekyber_wild_free_witness :
  @tls_process_client_key_exchange_ntls _ _ (toy_crypto []) (toy_alloc []) (toy_conn [] true SSL_kECDHEKyber)
    (packet_of []) (with_pms [] (repeat 0 2432)) = Stuck WildPointer.
Proof.
  apply (ecdhekyber_wild_free (K := toy_crypto []) (A := toy_alloc []) (toy_conn [] true SSL_kECDHEKyber)
           (packet_of []) (with_pms [] (repeat 0 2432)) eq_refl). left. reflexivity.
Defined.

Lemma packet_of_wf b : bytes b -> Z.of_nat (length b) < 2 ^ 31 -> packet_wf (packet_of b) /\ view (packet_of b) = b.
Proof.
  intros Hb Hl. assert (Ev : view (packet_of b) = b).
  { unfold view, packet_of. cbn [remaining curr base]. now rewrite Nat2Z.id, drop_0, firstn_all. }
  split; [| exact Ev]. unfold packet_wf. rewrite Ev. cbn [packet_of curr remaining base]. unfold SIZE_MAX.
  change ((2 ^ 64 - 1) / 2) with (2 ^ 63 - 1). repeat split; (lia || assumption).
Qed.

(** A ciphertext of three bytes, with no master secret; and a zero key, with no
    memory for the signed bytes. *)
Lemma error_paths_free_twice_witness :
  @tls_process_client_key_exchange_ntls _ _ (toy_crypto [C_generate_master_secret]) (toy_alloc [])
    (toy_conn _ true SSL_kKyber) (packet_of [0; 3; 1; 2; 3]) (toy_state _) = Stuck DeadAccess
  /\ @tls_process_key_exchange_ntls _ (toy_crypto []) (toy_alloc [4]) (toy_conn _ false SSL_kECCKyber)
       (packet_of (ecckyber_params (repeat 0 1184) ++ [0; 2; 3; 1])) (toy_state []) = Stuck DeadFree.
Proof.
  assert (B1 : bytes [0; 3; 1; 2; 3]) by (repeat constructor; (lia || discriminate)).
  assert (B2 : bytes (ecckyber_params (repeat 0 1184) ++ [0; 2; 3; 1])).
  { apply Forall_app_2; [apply Forall_app_2; [apply be_bytes_bytes |] | repeat constructor; (lia || discriminate)].
    apply Forall_forall. intros y Hy. apply list_elem_of_In, repeat_spec in Hy as ->. split; reflexivity || discriminate. }
  destruct (packet_of_wf _ B1 eq_refl) as [W1 V1]. destruct (packet_of_wf _ B2) as [W2 V2];
    [vm_compute; reflexivity |]. split.
  - apply (proj1 (error_paths_free_twice (K := toy_crypto [C_generate_master_secret]) (A := toy_alloc []))
             (toy_conn _ true SSL_kKyber) (packet_of [0; 3; 1; 2; 3]) [1; 2; 3] [4; 5] 9 (toy_state _)
             eq_refl eq_refl eq_refl W1 V1 eq_refl); try reflexivity; [| discriminate].
    intros x Hx. cbn. apply negb_true_iff, bool_decide_eq_false. now rewrite list_elem_of_singleton.
  - apply (proj2 (error_paths_free_twice (K := toy_crypto []) (A := toy_alloc [4]))
             (toy_conn _ false SSL_kECCKyber) _ (repeat 0 1184) [0; 2; 3; 1] 9 9 3 3 (toy_state [])
             eq_refl eq_refl eq_refl eq_refl eq_refl); try reflexivity; try assumption; [discriminate |].
    intros i Hi. assert (E : i = 0 \/ i = 1 \/ i = 2) by lia. now destruct E as [-> | [-> | ->]].
Defined.
