(* ===== verification/KexSafety.v ===== *)
(** * Key exchange messages: memory safety

    The handlers that use memory correctly whatever the peer sends and, but for
    the two failures that [KexFaults] is about, whatever fails. *)

From S2P Require Import Prelude Buffers CMem Packet PacketSpec Wpacket WpacketSpec PacketRules KyberSymmetric HybridKem HybridSpec KexTypes KexLogic KexClient KexServer KexRuns KexSign KexRunsEvp KexAgree.

(** ** What is kept *)

Section Safety.
Context {S : Symmetric} {C : Curve} {CL : CurveLaws} {K : Crypto} {KL : CryptoLaws} {A : Alloc}.

(** [s3.tmp.pms] is null, or points to a block with the bytes it should have. *)
Definition pms_ok (s : kex) : Prop :=
  pms s = NULL \/ exists a b, pms s = Ptr a /\ a < next (k_mem s) /\ heap (k_mem s) !! a = Some b /\ (pmslen s <= length b)%nat.

(** The premaster secret is as it should be, and a failure has sent an alert. *)
Definition settled (ok : bool) (s : kex) : Prop := pms_ok s /\ (ok = false -> fatal s <> None).

(** A part of a message was read, or an alert was sent. *)
Definition read_or_fatal (r : option PACKET) (s : kex) : Prop :=
  pms_ok s /\ match r with Some p => packet_wf p | None => fatal s <> None end.

Lemma wp_malloc_any n Q s :
  Q NULL (set_mem (mk_memory (heap (k_mem s)) (next (k_mem s) + 1)) s) ->
  (n <> 0%nat -> Q (Ptr (next (k_mem s)))
     (set_mem (mk_memory (<[next (k_mem s) := fresh_block (next (k_mem s)) n]> (heap (k_mem s)))
                         (next (k_mem s) + 1)) s)) ->
  wp (OPENSSL_malloc n) Q s.
Proof.
  intros Hn Hy. destruct (decide (n = 0%nat)) as [-> | H0]; [| now apply wp_malloc; auto].
  unfold wp, OPENSSL_malloc, mem_malloc. cbn [mem_of kex_has_memory]. exact Hn.
Qed.
End Safety.

(** ** Steps that may fail *)

(** Tests that were made *)
Ltac kfacts :=
  repeat match goal with
  | H : negb _ = false |- _ => apply negb_false_iff in H
  | H : negb _ = true |- _ => apply negb_true_iff in H
  | H : _ || _ = false |- _ => apply orb_false_iff in H as [? ?]
  | H : _ && _ = true |- _ => apply andb_true_iff in H as [? ?]
  | H : (_ =? _) = true |- _ => apply Z.eqb_eq in H
  | H : (_ =? _) = false |- _ => apply Z.eqb_neq in H
  | H : (_ <? _) = true |- _ => apply Z.ltb_lt in H
  | H : (_ <? _) = false |- _ => apply Z.ltb_ge in H
  | H : (_ =? _)%nat = true |- _ => apply Nat.eqb_eq in H
  | H : (_ =? _)%nat = false |- _ => apply Nat.eqb_neq in H
  | H : (_ <? _)%nat = true |- _ => apply Nat.ltb_lt in H
  | H : (_ <? _)%nat = false |- _ => apply Nat.ltb_ge in H
  end.

(** One step, with the two outcomes of what can fail. *)
Ltac kcase :=
  lazymatch goal with
  | |- wp (OPENSSL_malloc _) _ _ => apply wp_malloc_any; [| intros ?]; kred
  | |- wp (match PACKET_get_bytes ?p ?n with _ => _ end) _ _ =>
      let G := fresh "G" in
      assert (G := get_bytes_any p n ltac:(assumption) ltac:(lia));
      destruct (PACKET_get_bytes p n) as [[? ?] |]; [destruct G as (? & ? & ? & ?) | clear G]
  | |- wp (reads (PACKET_get_net_2 _)) _ _ =>
      apply (wp_read_any 2 PACKET_get_net_2); [exact simulates_2 | assumption | | intros ? ? ? ?]
  | |- wp (reads (PACKET_get_1 _)) _ _ =>
      apply (wp_read_any 1 PACKET_get_1); [exact simulates_1 | assumption | | intros ? ? ? ?]
  | |- wp (reads (PACKET_get_length_prefixed_1 _)) _ _ =>
      apply (wp_vec_any 1 PACKET_get_1); [exact simulates_1 | assumption | | intros ? ? ? ?]
  | |- wp (reads (PACKET_get_length_prefixed_2 _)) _ _ =>
      apply (wp_vec_any 2 PACKET_get_net_2); [exact simulates_2 | assumption | | intros ? ? ? ?]
  | |- wp (reads (bytes_at _ _ _)) _ _ =>
      eapply wp_reads; [first [eassumption | apply packet_bytes_view; assumption] |]
  | |- wp (packet_bytes _) _ _ => unfold packet_bytes; eapply wp_reads; [apply packet_bytes_view; assumption |]
  | |- wp (if ?b then _ else _) _ _ => destruct b eqn:?; kfacts
  | E : pms ?s = _ |- wp (OPENSSL_free (pms ?s)) _ _ => rewrite E
  | E : pms ?s = _ |- wp (OPENSSL_clear_free (pms ?s) _) _ _ => rewrite E
  | |- wp (match ?o with _ => _ end) _ _ => destruct o eqn:?
  end; kred; cbv beta zeta.
Ltac ksafe := kred; cbv beta zeta; repeat (first [kstep | kcase | kaccess]; cbv zeta).

(** [pms_ok] of the state at the end *)
Ltac kpms :=
  first
  [ left; kred; first [eassumption | reflexivity]
  | right; eexists _, _; kred; split; [first [eassumption | reflexivity] |]; split; [lia |];
    split; [heap_lookup | klen] ].

(** An alert was sent. *)
Ltac kfatal :=
  kred; first [assumption | repeat match goal with |- context [match fatal ?s with _ => _ end] => destruct (fatal s) end; discriminate].
(** [settled] of the state at the end *)
Ltac kend := split; [kpms | first [discriminate | intros _; kfatal]].
Ltac kread := split; [kpms | first [assumption | kfatal]].
(** The end after a failed test *)
Ltac kstop := ksafe; split; [assumption | intros _; kfatal].

Section Client.
Context {S : Symmetric} {C : Curve} {CL : CurveLaws} {K : Crypto} {KL : CryptoLaws} {A : Alloc}.

Lemma read_ecdhe_params_safe gid pkt s :
  packet_wf pkt -> pms_ok s ->
  wp (read_ecdhe_params gid pkt) read_or_fatal s.
Proof.
  intros W P. unfold read_ecdhe_params. ksafe.
  all: split; [exact P | first [assumption | kfatal]].
Qed.

Lemma ske_ecdhekyber_safe c pkt s :
  packet_wf pkt -> pms_ok s ->
  wp (tls_process_ske_ecdhekyber_ntls c pkt) read_or_fatal s.
Proof.
  intros W P. unfold tls_process_ske_ecdhekyber_ntls. apply wp_bind.
  eapply wp_mono; [now apply read_ecdhe_params_safe |]. intros [p |] s1 (P1 & W1).
  all: destruct P1 as [E | (a & b & E & Ha & Eb & Hl)]; ksafe.
  all: kread.
Qed.

Lemma print_peer_tmp_safe s : pms_ok s -> wp print_peer_tmp (fun _ => pms_ok) s.
Proof.
  intros P. unfold print_peer_tmp, get1_encoded_public_key.
  destruct P as [E | (a & b & E & Ha & Eb & Hl)]; ksafe. all: kpms.
Qed.

Lemma print_pms_safe s : pms_ok s -> wp print_pms (fun _ => pms_ok) s.
Proof.
  intros P. unfold print_pms. destruct P as [E | (a & b & E & Ha & Eb & Hl)]; ksafe; rewrite E.
  - ksafe. kpms.
  - unfold print_hex_data. ksafe. all: kpms.
Qed.

Lemma ske_aigis_safe pkt s :
  packet_wf pkt -> pms_ok s ->
  wp (process_ske_aigis pkt) read_or_fatal s.
Proof.
  intros W P. unfold process_ske_aigis. destruct P as [E | (a & b & E & Ha & Eb & Hl)]; ksafe.
  all: kread.
Qed.

Lemma ske_ecckyber_safe c pkt s :
  packet_wf pkt -> pms_ok s ->
  wp (tls_process_ske_ecckyber_ntls c pkt) read_or_fatal s.
Proof.
  intros W P. unfold tls_process_ske_ecckyber_ntls. destruct P as [E | (a & b & E & Ha & Eb & Hl)]; ksafe.
  all: kread.
Qed.

(** A buffer that is null, or a block made since [s] *)
Definition fresh_buf (s s' : kex) (p : ptr) : Prop :=
  p = NULL \/ exists a b, p = Ptr a /\ next (k_mem s) <= a < next (k_mem s') /\ heap (k_mem s') !! a = Some b.

Lemma params_between_wf save pkt sub :
  packet_wf save -> params_between save pkt = Some sub -> packet_wf sub.
Proof.
  intros W. unfold params_between.
  pose proof (get_sub_packet_ok save (u64 (PACKET_remaining save - PACKET_remaining pkt)) W (proj1 (u64_range _))) as G.
  destruct (PACKET_get_sub_packet _ _) as [[p q] |]; [| easy]. intros [= <-].
  destruct (read_bytes _ _) as [[v l] |]; [| easy]. apply G.
Qed.

(** The functions that make a block: nothing and 0, or the block and its size;
    [alerts]: a failure sends an alert. *)
Definition makes (alerts : bool) (c : prog kex (ptr * nat)) : Prop :=
  forall Q s,
  (forall s', keeps s s' -> (alerts -> fatal s' <> None) -> Q (NULL, 0%nat) s') ->
  (forall s' a b n, keeps s s' -> k_pkt s' = k_pkt s -> next (k_mem s) <= a < next (k_mem s') ->
     heap (k_mem s') !! a = Some b -> length b = n -> n <> 0%nat -> Q (Ptr a, n) s') ->
  wp c Q s.

Lemma x509_to_asn1_safe x : makes false (x509_to_asn1_ntls x).
Proof.
  intros Q s Hn Hy. unfold x509_to_asn1_ntls. ksafe.
  - apply Hn; [apply keeps_refl | easy].
  - apply Hn; [kkeeps | easy].
  - eapply Hy; kred; [kkeeps | reflexivity | lia | heap_lookup | klen | lia].
Qed.

Lemma construct_tbs_safe c params :
  length (client_random c) = SSL3_RANDOM_SIZE -> length (server_random c) = SSL3_RANDOM_SIZE ->
  makes true (construct_key_exchange_tbs_ntls c params).
Proof.
  intros Lc Ls Q s Hn Hy. unfold construct_key_exchange_tbs_ntls, SSL3_RANDOM_SIZE in *. ksafe.
  - apply Hn; [kkeeps | intros _; kfatal].
  - eapply Hy; kred; [kkeeps | reflexivity | lia | heap_lookup | klen | lia].
Qed.

Definition sp_buf (r : ptr + ptr * list Z) : ptr := match r with inl buf => buf | inr (buf, _) => buf end.

Definition is_inl (r : ptr + ptr * list Z) : Prop := match r with inl _ => True | inr _ => False end.

Lemma signed_params_safe c save pkt s :
  packet_wf save -> packet_wf pkt -> (has (algorithm_mkey c) SSL_kECCKyber = true -> forall a, alloc_ok a = true) ->
  wp (signed_params c save pkt) (fun r s' => keeps s s' /\ fresh_buf s s' (sp_buf r) /\ (is_inl r -> fatal s' <> None)) s.
Proof.
  intros W W' Hal. unfold signed_params. set (Post := fun r s' => keeps s s' /\ fresh_buf s s' (sp_buf r) /\ (is_inl r -> fatal s' <> None)).
  assert (Fail : forall al s', keeps s s' -> wp (SSLfatal_ntls al;; mret (inl NULL)) Post s').
  { intros al s' K1. ksafe. split; [| split; [now left | intros _; kfatal]]. apply (keeps_trans _ _ _ K1). kkeeps. }
  assert (Cert : forall k : ptr -> nat -> prog kex (ptr + ptr * list Z),
     (forall s' a b n, keeps s s' -> next (k_mem s) <= a < next (k_mem s') ->
       heap (k_mem s') !! a = Some b -> length b = n -> n <> 0%nat -> wp (k (Ptr a) n) Post s') ->
     wp (match peer_enc_cert c with
         | None => SSLfatal_ntls SSL_AD_INTERNAL_ERROR;; mret (inl NULL)
         | Some x509 =>
             '(buf, buflen) ← x509_to_asn1_ntls x509;
             if is_null buf then SSLfatal_ntls SSL_AD_INTERNAL_ERROR;; mret (inl NULL) else k buf buflen
         end) Post s).
  { intros k Hk. destruct (peer_enc_cert c) as [x |]; [| apply Fail, keeps_refl].
    apply wp_bind, x509_to_asn1_safe; [intros s' K1 _; now apply Fail |].
    intros s' a b n K1 _ Ha Eb Lb Hn0. cbn [is_null]. eauto. }
  assert (FromBuf : forall s' a b n, keeps s s' -> next (k_mem s) <= a < next (k_mem s') ->
     heap (k_mem s') !! a = Some b -> length b = n ->
     wp (match PACKET_buf_init [] 0 (Z.of_nat n) with
         | None => SSLfatal_ntls SSL_AD_INTERNAL_ERROR;; mret (inl (Ptr a))
         | Some _ => b ← load (Ptr a) 0 n; mret (inr (Ptr a, b))
         end) Post s').
  { intros s' a b n K1 Ha Eb Lb. ksafe; (split; [apply (keeps_trans _ _ _ K1); kkeeps |]);
      (split; [right; exists a, b; auto | first [now intros [] | intros _; kfatal]]). }
  assert (InPacket : wp (match params_between save pkt with
         | None => SSLfatal_ntls SSL_AD_DECODE_ERROR;; mret (inl NULL)
         | Some params => b ← packet_bytes params; mret (inr (NULL, b)) end) Post s).
  { destruct (params_between save pkt) as [sub |] eqn:E; [| apply Fail, keeps_refl].
    pose proof (params_between_wf _ _ _ W E). ksafe. split; [apply keeps_refl | split; [now left | now intros []]]. }
  destruct (has (algorithm_mkey c) SSL_kECCKyber).
  - destruct (params_between save pkt) as [sub |] eqn:E; [| apply Fail, keeps_refl].
    pose proof (params_between_wf _ _ _ W E). apply Cert. intros s' a b n K1 Ha Eb Lb Hn0.
    apply wp_bind, wp_malloc_ok; [now apply Hal | lia |]. kred.
    assert (Lv : length (view sub) = Z.to_nat (PACKET_remaining sub)).
    { unfold PACKET_remaining. pose proof (view_length sub H). lia. }
    apply wp_bind; kaccess. apply wp_bind; kcase. apply wp_bind; kaccess. apply wp_bind; kaccess.
    eapply FromBuf; kred; [| lia | heap_lookup | klen].
    destruct K1 as (N1 & H1 & K1). unfold keeps. kred. split; [lia |]. split; [| exact K1].
    intros a' b' Ha' E'. specialize (H1 a' b' Ha' E'). heap_lookup.
  - repeat match goal with |- wp (if ?b then _ else _) _ _ => destruct b end; try exact InPacket;
      try (apply Fail, keeps_refl); apply Cert; eauto.
Qed.

Lemma pms_ok_keeps s s' : pms_ok s -> keeps s s' -> pms_ok s'.
Proof.
  intros P (N1 & H1 & E1 & E2 & _). unfold pms_ok. rewrite E1, E2.
  destruct P as [E | (a & b & E & Ha & Eb & Hl)]; [now left |].
  right. exists a, b. split; [exact E |]. split; [lia |]. auto.
Qed.

(** The block of [pms] is older than what was made since. *)
Lemma pms_before s s' :
  pms_ok s -> keeps s s' ->
  pms s' = NULL \/ exists a b, pms s' = Ptr a /\ a < next (k_mem s) <= next (k_mem s')
                            /\ heap (k_mem s') !! a = Some b /\ (pmslen s' <= length b)%nat.
Proof.
  intros [E | (a & b & E & Ha & Eb & Hl)] (N1 & H1 & E1 & E2 & _); rewrite E1, E2; [now left |].
  right. exists a, b. auto.
Qed.

Lemma fresh_buf_keeps s s1 s2 p : fresh_buf s s1 p -> keeps s1 s2 -> fresh_buf s s2 p.
Proof.
  intros [-> | (a & b & -> & Ha & Eb)] (N2 & H2 & _); [now left |].
  right. exists a, b. split; [reflexivity |]. split; [lia |]. apply H2; [lia | exact Eb].
Qed.

(** Frees what was made since [s]. *)
Lemma free_fresh s s' p (Q : unit -> kex -> Prop) :
  keeps s s' -> fresh_buf s s' p -> (forall s'', keeps s s'' -> fatal s'' = fatal s' -> Q tt s'') ->
  wp (OPENSSL_free p) Q s'.
Proof.
  intros K1 [-> | (a & b & -> & Ha & Eb)] HQ; [apply wp_free_null; auto |].
  eapply wp_free; [exact Eb |]. apply HQ; [| reflexivity]. destruct K1 as (N1 & H1 & K1).
  unfold keeps. kred. split; [lia |]. split; [| exact K1]. intros a' b' Ha' E'. specialize (H1 a' b' Ha' E'). heap_lookup.
Qed.

Definition randoms_ok (c : conn) : Prop :=
  length (client_random c) = SSL3_RANDOM_SIZE /\ length (server_random c) = SSL3_RANDOM_SIZE.

Lemma check_signature_safe c key save pkt s :
  packet_wf save -> packet_wf pkt -> randoms_ok c -> pms_ok s ->
  (has (algorithm_mkey c) SSL_kECCKyber = true -> forall a, alloc_ok a = true) ->
  wp (check_signature c key save pkt) settled s.
Proof.
  intros W W' (Lc & Ls) P Hal. unfold check_signature. apply wp_bind.
  eapply wp_mono; [now apply signed_params_safe |]. intros r s1 (K1 & F1 & Z1).
  assert (Err : forall buf s', keeps s s' -> fresh_buf s s' buf -> fatal s' <> None ->
    wp (OPENSSL_free buf;; mret false) settled s').
  { intros buf s' K2 F2 Z2. apply wp_bind. eapply free_fresh; [exact K2 | exact F2 |].
    intros s'' K3 Z3. apply wp_ret. split; [now apply (pms_ok_keeps s) | now rewrite Z3]. }
  assert (Fail : forall al buf s', keeps s s' -> fresh_buf s s' buf ->
    wp (SSLfatal_ntls al;; OPENSSL_free buf;; mret false) settled s').
  { intros al buf s' K2 F2. apply wp_bind, wp_fatal, Err; [| exact F2 | kfatal]. apply (keeps_trans _ _ _ K2). kkeeps. }
  destruct r as [buf | [buf params]]; cbn [sp_buf] in F1; [now apply Err, Z1 |].
  destruct (_ || _); [now apply Fail |]. apply wp_bind. kcase; [now apply Fail |].
  destruct (negb _); [now apply Fail |]. destruct (_ || _); [now apply Fail |].
  apply wp_bind, construct_tbs_safe; [assumption | assumption | |].
  - intros s2 K2 Z2. cbn [Nat.eqb].
    apply Err; [now apply (keeps_trans _ s1) | now apply (fresh_buf_keeps _ s1) | now apply Z2].
  - intros s2 a2 t2 n2 K2 _ Ha2 Et2 Lt2 Hn2. rewrite (proj2 (Nat.eqb_neq _ _) Hn2).
    pose proof (keeps_trans _ _ _ K1 K2) as (N3 & H3 & E3 & E4 & _). destruct K1 as (N1 & _), K2 as (N2 & H2 & _).
    destruct P as [E | (a' & b' & E & Ha' & Eb' & Hl)]; [| apply H3 in Eb'; [| lia]]; rewrite E in E3; try rewrite <- E4 in Hl.
    all: destruct F1 as [-> | (a & b & -> & Ha & Eb)]; [| apply H2 in Eb; [| lia]]; ksafe; kend.
Qed.

(** ServerKeyExchange on the client *)
Lemma process_key_exchange_safe c pkt s :
  packet_wf pkt -> randoms_ok c -> pms_ok s ->
  (has (algorithm_mkey c) SSL_kECCKyber = true -> forall a, alloc_ok a = true) ->
  wp (tls_process_key_exchange_ntls c pkt) settled s.
Proof.
  intros W Hr P Hal. unfold tls_process_key_exchange_ntls, process_ske_params. apply wp_bind, wp_modify, wp_bind, wp_modify.
  set (s1 := set_aigis None (set_peer_tmp None s)). assert (P1 : pms_ok s1) by exact P.
  apply wp_bind. apply wp_mono with (Q := read_or_fatal).
  { repeat match goal with |- wp (if ?b then _ else _) _ _ => destruct b end;
      auto using ske_ecckyber_safe, ske_ecdhekyber_safe, ske_aigis_safe;
      try (apply wp_ret; split; [exact P1 | assumption]); try kstop.
    unfold tls_process_ske_sm2dhe_ntls. apply wp_bind.
    eapply wp_mono; [now apply read_ecdhe_params_safe |]. intros [p |] s2 (P2 & W2); [| now apply wp_ret].
    apply wp_bind. unfold print_kex_info_client_ske. khas.
    eapply wp_mono; [now apply print_peer_tmp_safe |]. intros u s3 P3. apply wp_ret. split; [exact P3 | exact W2]. }
  intros [pkt' |] s2 (P2 & W2); [| now apply wp_ret; split].
  destruct (x ← session_peer c; X509_get0_pubkey x) as [key |]; [| kstop].
  apply wp_bind. eapply wp_mono; [now apply check_signature_safe; auto |]. intros [] s3 (P3 & Z3); [| now apply wp_ret; split].
  apply wp_bind. unfold print_kex_info_client_ske.
  apply wp_mono with (Q := fun _ => pms_ok); [| intros [] s4 P4; apply wp_ret; split; [exact P4 | discriminate]].
  destruct (has (algorithm_mkey c) SSL_kECCKyber); [now apply print_pms_safe |].
  destruct (has (algorithm_mkey c) SSL_kSM2DHE); [now apply print_peer_tmp_safe | now apply wp_ret].
Qed.
End Client.

Section Server.
Context {S : Symmetric} {C : Curve} {CL : CurveLaws} {K : Crypto} {KL : CryptoLaws} {A : Alloc}.
(** The library does not write more than the sizes it gave. *)
Context (Hdec : forall k ct b, kem_decapsulate k ct = Some b -> (length b <= kem_ss_size k)%nat).

Lemma process_cke_pms_safe c alg_k pkt s :
  is_server c = true -> packet_wf pkt -> pms_ok s ->
  wp (tls_process_cke_pms_ntls c alg_k pkt) settled s.
Proof.
  intros Es W P. unfold tls_process_cke_pms_ntls, ssl_generate_master_secret. rewrite Es.
  destruct P as [E | (a & b & E & Ha & Eb & Hl)]; ksafe; kend.
Qed.

Lemma process_cke_sm2dhe_safe c pkt s :
  is_server c = true -> algorithm_mkey c = SSL_kSM2DHE -> packet_wf pkt -> pms_ok s ->
  wp (tls_process_cke_sm2dhe_ntls c pkt) settled s.
Proof.
  intros Es Ea W P. unfold tls_process_cke_sm2dhe_ntls.
  destruct P as [E | (a & b & E & Ha & Eb & Hl)]; ksafe; try kend.
  all: unfold ssl_derive_ntls, derive_ecdhe, ssl_gensecret, ssl_generate_master_secret; rewrite Ea, Es; khas; ksafe; kend.
Qed.

Lemma decapsulate_safe ctx init size k ct Q s :
  (forall s' p, keeps s s' -> fatal s' <> None ->
     (p = NULL \/ exists a b, p = Ptr a /\ next (k_mem s) <= a < next (k_mem s') /\ heap (k_mem s') !! a = Some b
                    /\ length b = kem_ss_size k) -> Q (false, p) s') ->
  (forall s' a b, keeps s s' -> k_pkt s' = k_pkt s -> next (k_mem s) <= a < next (k_mem s') ->
     heap (k_mem s') !! a = Some b -> length b = kem_ss_size k -> kem_ss_size k <> 0%nat -> Q (true, Ptr a) s') ->
  wp (decapsulate ctx init size k ct) Q s.
Proof.
  intros Hn Hy. unfold decapsulate. 
  destruct (kem_decapsulate k ct) as [m |] eqn:Em; [apply Hdec in Em |]; ksafe.
  all: first
    [ apply Hn; [kkeeps | kfatal | first [left; reflexivity | right; eexists _, _; kred; split; [reflexivity |];
        split; [lia |]; split; [heap_lookup | klen]]]
    | eapply Hy; kred; [kkeeps | reflexivity | lia | heap_lookup | klen | assumption] ].
Qed.

Lemma read_ct_safe pkt s :
  packet_wf pkt -> pms_ok s ->
  wp (read_ct pkt) (fun r s' => pms_ok s' /\ match r with Some (b, p) => packet_wf p | None => fatal s' <> None end) s.
Proof.
  intros W P. unfold read_ct. destruct P as [E | (a & b & E & Ha & Eb & Hl)]; ksafe.
  all: kread.
Qed.

Lemma process_cke_kyber_safe c pkt s :
  call_ok C_generate_master_secret = true -> is_server c = true -> packet_wf pkt -> pms_ok s ->
  wp (tls_process_cke_kyber_dilithium_ntls c pkt) settled s.
Proof.
  intros Hms Es W P. unfold tls_process_cke_kyber_dilithium_ntls. apply wp_bind.
  eapply wp_mono; [now apply read_ct_safe |]. intros [[ct p] |] s1 (P1 & W1); [| now apply wp_ret; split].
  destruct (negb _); [kstop |]. destruct (sm2_enc_key c) as [k |]; [| kstop].
  apply wp_bind, decapsulate_safe.
  - intros s2 q K2 Z2 F2. pose proof (pms_before _ _ P1 K2) as [E | (a & b & E & Ha & Eb & Hl)].
    all: destruct F2 as [-> | (a' & b' & -> & Ha' & Eb' & Lb')]; ksafe; kend.
  - intros s2 a' b' K2 _ Ha' Eb' Lb' H0. unfold ssl_generate_master_secret. rewrite Hms, Es.
    pose proof (pms_before _ _ P1 K2) as [E | (a & b & E & Ha & Eb & Hl)]; ksafe; kend.
Qed.

Lemma process_cke_aigis_safe c pkt s :
  is_server c = true -> packet_wf pkt -> pms_ok s ->
  wp (tls_process_cke_kyber_aigis_enc_dilithium_ntls c pkt) settled s.
Proof.
  intros Es W P. unfold tls_process_cke_kyber_aigis_enc_dilithium_ntls. apply wp_bind.
  eapply wp_mono; [now apply read_ct_safe |]. intros [[ct p] |] s1 (P1 & W1); [| now apply wp_ret; split].
  apply wp_bind. eapply wp_mono; [apply read_ct_safe; [exact W1 | exact P1] |].
  intros [[ct' p'] |] s2 (P2 & W2); [| now apply wp_ret; split].
  destruct (negb _); [kstop |]. apply wp_bind, wp_gets.
  destruct (sm2_enc_key c) as [k |], (aigis_kem_pkey s2) as [k' |]; [| kstop ..].
  apply wp_bind, decapsulate_safe.
  - intros s3 q K3 Z3 F3. pose proof (pms_before _ _ P2 K3) as [E | (a & b & E & Ha & Eb & Hl)].
    all: destruct F3 as [-> | (a' & b' & -> & Ha' & Eb' & Lb')]; ksafe; kend.
  - intros s3 a1 b1 K3 _ Ha1 Eb1 Lb1 H1. cbn [negb]. apply wp_bind, decapsulate_safe.
    + intros s4 q K4 Z4 F4. pose proof (pms_before _ _ P2 (keeps_trans _ _ _ K3 K4)) as [E | (a & b & E & Ha & Eb & Hl)].
      all: destruct K3 as (N3 & _), K4 as (N4 & H4 & _); apply H4 in Eb1; [| lia].
      all: destruct F4 as [-> | (a' & b' & -> & Ha' & Eb' & Lb')]; ksafe; kend.
    + intros s4 a2 b2 K4 _ Ha2 Eb2 Lb2 H2. unfold ssl_generate_master_secret. rewrite Es.
      pose proof (pms_before _ _ P2 (keeps_trans _ _ _ K3 K4)) as [E | (a & b & E & Ha & Eb & Hl)].
      all: destruct K3 as (N3 & _), K4 as (N4 & H4 & _); apply H4 in Eb1; [| lia].
      all: ksafe; kend.
Qed.
End Server.

(** ** The handlers *)

Section Handlers.
Context {S : Symmetric} {C : Curve} {CL : CurveLaws} {K : Crypto} {KL : CryptoLaws} {A : Alloc}.

(** C19: The client's handler of ServerKeyExchange is safe on every message, with
    one case left out.  For any bytes, any answers of the library and any keys and
    certificates, and for any failing allocations unless the exchange is ECC with
    Kyber, where no allocation fails, it returns without reading or writing outside
    a block, freeing a block twice or using one that was freed; [s3.tmp.pms] is null
    or a live block of at least [pmslen] bytes, as it was before; and when it fails a
    fatal alert was sent.  The case left out is real: with ECC-Kyber a failing
    allocation of the signed bytes leads to a second free of the certificate buffer
    ([KexFaults.ecckyber_signed_failure]). *)
Theorem server_key_exchange_safe c pkt s :
  packet_wf pkt -> randoms_ok c -> pms_ok s ->
  (has (algorithm_mkey c) SSL_kECCKyber = true -> forall a, alloc_ok a = true) ->
  exists ok s', tls_process_key_exchange_ntls c pkt s = Val (ok, s') /\ pms_ok s' /\ (ok = false -> fatal s' <> None).
Proof. intros W Hr P Ha. exact (wp_run _ _ _ (process_key_exchange_safe c pkt s W Hr P Ha)). Qed.

(** C4: The server's handler of ClientKeyExchange is safe on every message when
    the key exchange is RSA, SM2, SM2DHE, Kyber or Kyber with Aigis, with one case
    left out: for any bytes, any failing allocations and any failing library calls
    (except, for Kyber alone, a failing derivation of the master secret), and a
    library whose decapsulated secrets fit the size it announces, it returns without
    a memory error, leaves [s3.tmp.pms] as it should be, and has sent a fatal alert
    when it fails.  The case left out is real: when the master secret of the Kyber
    exchange is not derived the shared secret is freed twice
    ([KexFaults.kyber_master_failure]).  The two hybrid exchanges have no such
    theorem. *)
Theorem client_key_exchange_safe c pkt s :
  (forall k ct b, kem_decapsulate k ct = Some b -> (length b <= kem_ss_size k)%nat) ->
  is_server c = true -> packet_wf pkt -> pms_ok s ->
  algorithm_mkey c ∈ [SSL_kRSA; SSL_kSM2; SSL_kSM2DHE; SSL_kKyber; SSL_kKyberAigisEnc] ->
  (algorithm_mkey c = SSL_kKyber -> call_ok C_generate_master_secret = true) ->
  exists ok s', tls_process_client_key_exchange_ntls c pkt s = Val (ok, s')
             /\ pms_ok s' /\ (ok = false -> fatal s' <> None).
Proof.
  intros Hdec Es W P Ha Hm. refine (wp_run _ _ _ (_ : wp _ settled s)).
  unfold tls_process_client_key_exchange_ntls.
  rewrite !elem_of_cons in Ha. destruct Ha as [E | [E | [E | [E | [E | Ha]]]]]; [.. | now apply not_elem_of_nil in Ha];
    rewrite E; khas.
  - now apply process_cke_pms_safe.
  - now apply process_cke_pms_safe.
  - now apply process_cke_sm2dhe_safe.
  - now apply process_cke_kyber_safe; auto.
  - now apply process_cke_aigis_safe.
Qed.
End Handlers.

(** ** Instances *)

(** A message of one byte, when the fourth allocation fails. *)
Definition one_byte : PACKET := mk_packet [7] 0 1.

Lemma one_byte_wf : packet_wf one_byte.
Proof. unfold packet_wf, one_byte, view. cbn. repeat split; try (reflexivity || discriminate). constructor; [split; [discriminate | reflexivity] | constructor]. Qed.

Lemma server_key_exchange_safe_witness :
  exists ok s', @tls_process_key_exchange_ntls _ (toy_crypto [C_i2d_X509]) (toy_alloc [4])
                  (toy_conn [C_i2d_X509] false SSL_kSM2DHE) one_byte (toy_state [C_i2d_X509]) = Val (ok, s')
             /\ pms_ok s' /\ (ok = false -> fatal s' <> None).
Proof.
  apply (server_key_exchange_safe (K := toy_crypto [C_i2d_X509]) (A := toy_alloc [4])
           (toy_conn [C_i2d_X509] false SSL_kSM2DHE) one_byte (toy_state [C_i2d_X509])).
  - exact one_byte_wf.
  - split; reflexivity.
  - now left.
  - discriminate.
Defined.

Lemma client_key_exchange_safe_witness :
  exists ok s', @tls_process_client_key_exchange_ntls _ _ (toy_crypto [C_decrypt]) (toy_alloc [2])
                  (toy_conn [C_decrypt] true SSL_kKyberAigisEnc) one_byte (toy_state [C_decrypt]) = Val (ok, s')
             /\ pms_ok s' /\ (ok = false -> fatal s' <> None).
Proof.
  apply (client_key_exchange_safe (K := toy_crypto [C_decrypt]) (A := toy_alloc [2])
           (toy_conn [C_decrypt] true SSL_kKyberAigisEnc) one_byte (toy_state [C_decrypt])).
  - intros k ct b [= <-]. reflexivity.
  - reflexivity.
  - exact one_byte_wf.
  - now left.
  - do 4 right. left.
  - discriminate.
Defined.
