(* ===== verification/ExtTypes.v ===== *)
(** * NTLS hello extensions: state and environment

    The part of [SSL] that the extensions of the NTLS hellos use
    ([ssl/statem_ntls/ntls_extensions*.c]), the library calls and application
    callbacks they make, and the steps that the constructors and parsers share.

    A byte buffer that [SSL] or the session owns is a value, [None] for a null
    pointer, and its length is that of the value; replacing the value stands for
    freeing the old buffer.  The session is present.  An application callback is
    an address that [Callbacks] runs: it may look at the connection, change the
    state of the application and set options. *)

From S2P Require Import Prelude Buffers CMem Packet Wpacket.

(** ** Constants *)

Definition TLSEXT_TYPE_server_name : Z := 0.
Definition TLSEXT_TYPE_max_fragment_length : Z := 1.
Definition TLSEXT_TYPE_status_request : Z := 5.
Definition TLSEXT_TYPE_supported_groups : Z := 10.
Definition TLSEXT_TYPE_ec_point_formats : Z := 11.
Definition TLSEXT_TYPE_signature_algorithms : Z := 13.
Definition TLSEXT_TYPE_use_srtp : Z := 14.
Definition TLSEXT_TYPE_application_layer_protocol_negotiation : Z := 16.
Definition TLSEXT_TYPE_signed_certificate_timestamp : Z := 18.
Definition TLSEXT_TYPE_padding : Z := 21.
Definition TLSEXT_TYPE_encrypt_then_mac : Z := 22.
Definition TLSEXT_TYPE_extended_master_secret : Z := 23.
Definition TLSEXT_TYPE_session_ticket : Z := 35.
Definition TLSEXT_TYPE_psk : Z := 41.
Definition TLSEXT_TYPE_early_data : Z := 42.
Definition TLSEXT_TYPE_supported_versions : Z := 43.
Definition TLSEXT_TYPE_cookie : Z := 44.
Definition TLSEXT_TYPE_psk_kex_modes : Z := 45.
Definition TLSEXT_TYPE_certificate_authorities : Z := 47.
Definition TLSEXT_TYPE_post_handshake_auth : Z := 49.
Definition TLSEXT_TYPE_signature_algorithms_cert : Z := 50.
Definition TLSEXT_TYPE_key_share : Z := 51.
Definition TLSEXT_TYPE_next_proto_neg : Z := 13172.
Definition TLSEXT_TYPE_renegotiate : Z := 0xff01.

Definition SSL_EXT_TLS_ONLY : Z := 0x0001.
Definition SSL_EXT_DTLS_ONLY : Z := 0x0002.
Definition SSL_EXT_TLS_IMPLEMENTATION_ONLY : Z := 0x0004.
Definition SSL_EXT_SSL3_ALLOWED : Z := 0x0008.
Definition SSL_EXT_TLS1_2_AND_BELOW_ONLY : Z := 0x0010.
Definition SSL_EXT_TLS1_3_ONLY : Z := 0x0020.
Definition SSL_EXT_IGNORE_ON_RESUMPTION : Z := 0x0040.
Definition SSL_EXT_CLIENT_HELLO : Z := 0x0080.
Definition SSL_EXT_TLS1_2_SERVER_HELLO : Z := 0x0100.
Definition SSL_EXT_TLS1_3_SERVER_HELLO : Z := 0x0200.
Definition SSL_EXT_TLS1_3_ENCRYPTED_EXTENSIONS : Z := 0x0400.
Definition SSL_EXT_TLS1_3_HELLO_RETRY_REQUEST : Z := 0x0800.
Definition SSL_EXT_TLS1_3_CERTIFICATE : Z := 0x1000.
Definition SSL_EXT_TLS1_3_NEW_SESSION_TICKET : Z := 0x2000.
Definition SSL_EXT_TLS1_3_CERTIFICATE_REQUEST : Z := 0x4000.

Definition SSL_EXT_FLAG_RECEIVED : Z := 0x1.
Definition SSL_EXT_FLAG_SENT : Z := 0x2.

Definition SSL_OP_TLSEXT_PADDING : Z := 0x10.
Definition SSL_OP_NO_TICKET : Z := 0x4000.

Definition SSL_AD_NO_ALERT : Z := -1.
Definition SSL_AD_HANDSHAKE_FAILURE : Z := 40.
Definition SSL_AD_ILLEGAL_PARAMETER : Z := 47.
Definition SSL_AD_DECODE_ERROR : Z := 50.
Definition SSL_AD_INTERNAL_ERROR : Z := 80.
Definition SSL_AD_MISSING_EXTENSION : Z := 109.
Definition SSL_AD_UNSUPPORTED_EXTENSION : Z := 110.
Definition SSL_AD_UNRECOGNIZED_NAME : Z := 112.
Definition SSL_AD_NO_APPLICATION_PROTOCOL : Z := 120.

Definition SSL_TLSEXT_ERR_OK : Z := 0.
Definition SSL_TLSEXT_ERR_ALERT_WARNING : Z := 1.
Definition SSL_TLSEXT_ERR_ALERT_FATAL : Z := 2.
Definition SSL_TLSEXT_ERR_NOACK : Z := 3.

Definition TLSEXT_NAMETYPE_host_name : Z := 0.
Definition TLSEXT_MAXLEN_host_name : Z := 255.
Definition TLSEXT_STATUSTYPE_nothing : Z := -1.
Definition TLSEXT_STATUSTYPE_ocsp : Z := 1.
Definition TLSEXT_max_fragment_length_DISABLED : Z := 0.
Definition TLSEXT_max_fragment_length_512 : Z := 1.
Definition TLSEXT_max_fragment_length_4096 : Z := 4.

Definition TLS1_FLAGS_RECEIVED_EXTMS : Z := 0x0200.
Definition TLS1_FLAGS_REQUIRED_EXTMS : Z := 0x1000.

Definition SSL3_VERSION : Z := 0x0300.
Definition TLS1_3_VERSION : Z := 0x0304.
Definition TLS_ANY_VERSION : Z := 0x10000.
Definition NTLS_MAX_VERSION : Z := 0x0101.

(** [(a & mask) != 0] *)
Definition flag (a mask : Z) : bool := negb (Z.land a mask =? 0).

Inductive EXT_RETURN : Set := EXT_RETURN_FAIL | EXT_RETURN_SENT | EXT_RETURN_NOT_SENT.
Inductive ENDPOINT : Set := ENDPOINT_CLIENT | ENDPOINT_SERVER | ENDPOINT_BOTH.

#[export] Instance EXT_RETURN_eq_dec : EqDecision EXT_RETURN.
Proof. solve_decision. Defined.
#[export] Instance ENDPOINT_eq_dec : EqDecision ENDPOINT.
Proof. solve_decision. Defined.

(** ** Data *)

(** An extension of a message that was received. *)
Record RAW_EXTENSION := mk_raw {
  raw_data : PACKET;
  present : bool;
  parsed : bool;
  raw_type : Z;
  received_order : Z }.

(** What [OPENSSL_zalloc] leaves. *)
Definition raw_zero : RAW_EXTENSION := mk_raw PACKET_null_init false false 0 0.

(** The argument of a callback: a pointer of the application, or the structures
    that the wrappers of the old interface get. *)
Inductive cb_arg : Set :=
| VoidPtr (p : Z)
| custom_ext_add_cb_wrap (add_arg : Z) (add_cb free_cb : option Z)
| custom_ext_parse_cb_wrap (parse_arg : Z) (parse_cb : option Z).

(** A callback: one of the application, or the wrapper of the old interface. *)
Inductive callback : Set := AppCb (f : Z) | OldCbWrap.

Record custom_ext_method := mk_method {
  ext_type : Z;
  role : ENDPOINT;
  meth_context : Z;
  ext_flags : Z;
  add_cb : option callback;
  free_cb : option callback;
  add_arg : cb_arg;
  parse_cb : option callback;
  parse_arg : cb_arg }.

#[export] Instance eta_method : Eta custom_ext_method :=
  fun m =>
    mk_method (ext_type m) (role m) (meth_context m) (ext_flags m) (add_cb m) (free_cb m) (add_arg m)
      (parse_cb m) (parse_arg m).

(** ** Library calls *)

(** The calls that can fail. *)
Inductive ecall : Set :=
| C_raw_zalloc | C_strdup_hostname | C_strdup_sess_hostname | C_generate_session_id | C_setup_buffers
| C_malloc_tick | C_i2d_RESPID | C_i2d_EXTENSIONS | C_malloc_scts | C_malloc_npn
| C_malloc_alpn_selected | C_memdup_sess_alpn | C_strndup_hostname | C_RESPID_new_null | C_RESPID_push
| C_memdup_alpn_proposed | C_memdup_alpn_selected | C_meths_realloc | C_wrap_malloc.

(** [i2d_*] gives the encoding, empty or none when it fails; [d2i_*] an object
    and how many bytes it has read. *)
Class ExtLib := {
  OCSP_RESPID : Type;
  X509_EXTENSIONS : Type;
  X509 : Type;
  App : Type;
  i2d_OCSP_RESPID : OCSP_RESPID -> list Z;
  d2i_OCSP_RESPID : list Z -> option (OCSP_RESPID * Z);
  i2d_X509_EXTENSIONS : X509_EXTENSIONS -> option (list Z);
  d2i_X509_EXTENSIONS : list Z -> option (X509_EXTENSIONS * Z);
  ext_ok : ecall -> bool }.

(** ** State *)

(** What the extensions do not change: [server], the method and the version,
    [hit], the lengths of the Finished messages, [hello_retry_request ==
    SSL_HRR_NONE], [ctx != session_ctx], [new_session], the session's version
    and the size of its cipher's digest, [ssl_security] of tickets, [ext.alpn],
    [SSL_get_srtp_profiles], the callbacks, [max_send_fragment], and the value
    of [thisex - raw_extensions] for a null pointer [thisex], which C does not
    define. *)
Record econf := mk_econf {
  server : bool;
  is_dtls : bool;
  method_version : Z;
  version : Z;
  hit : bool;
  finish_md_len : Z;
  peer_finish_md_len : Z;
  hrr_none : bool;
  ctx_switched : bool;
  new_session : bool;
  sess_version : Z;
  sess_md_size : option Z;
  security_ticket : bool;
  alpn : option (list Z);
  srtp_profiles : option (list Z);
  ct_validation_callback : bool;
  npn_select_cb : option Z;
  npn_advertised_cb : option Z;
  session_ticket_cb : option Z;
  ctx_servername_cb : option Z;
  session_ctx_servername_cb : option Z;
  alpn_select_cb : option Z;
  max_send_fragment : Z;
  null_idx : Z }.

Definition SSL_IS_DTLS (c : econf) : bool := is_dtls c.
Definition SSL_IS_TLS13 (c : econf) : bool :=
  negb (SSL_IS_DTLS c) && (TLS1_3_VERSION <=? method_version c)
  && negb (method_version c =? TLS_ANY_VERSION).
Definition SSL_IS_FIRST_HANDSHAKE (c : econf) : bool :=
  (finish_md_len c =? 0) || (peer_finish_md_len c =? 0).

(** What they change: the message that is written, the state of the application,
    fields of [SSL], of its [ext] and [s3], of the session ([sess_]), how often
    [ssl_generate_session_id] succeeded, the counters [sess_accept] of [ctx] and
    [session_ctx], the flags of the built-in extensions, the custom extensions,
    the first fatal alert and the warning alerts. *)
Record essl {L : ExtLib} := mk_essl {
  e_pkt : WPACKET;
  app : App;
  options : Z;
  servername_done : bool;
  hostname : option (list Z);
  max_fragment_len_mode : Z;
  status_type : Z;
  status_expected : bool;
  ocsp_ids : list OCSP_RESPID;
  ocsp_exts : option X509_EXTENSIONS;
  ocsp_resp : option (list Z);
  session_ticket : option (option (list Z));
  ticket_expected : bool;
  npn : option (list Z);
  npn_seen : bool;
  alpn_sent : bool;
  alpn_selected : option (list Z);
  alpn_proposed : option (list Z);
  early_data_ok : bool;
  scts : option (list Z);
  scts_len : Z;
  srtp_profile : option Z;
  peer_sigalgs : option (list Z);
  peer_cert_sigalgs : option (list Z);
  peer_ecpointformats : option (list Z);
  use_etm : bool;
  s3_flags : Z;
  sess_hostname : option (list Z);
  sess_tick : option (list Z);
  sess_tick_lifetime_hint : Z;
  sess_tick_age_add : Z;
  sess_max_fragment_len_mode : Z;
  sess_alpn_selected : option (list Z);
  sess_ids : nat;
  stat_accept : Z;
  stat_accept_session : Z;
  extflags : list Z;
  custext : list custom_ext_method;
  e_fatal : option Z;
  warnings : list Z }.
Arguments mk_essl {L}.

#[export] Instance eta_essl {L : ExtLib} : Eta essl :=
  fun s =>
    mk_essl (e_pkt s) (app s) (options s) (servername_done s) (hostname s) (max_fragment_len_mode s)
      (status_type s) (status_expected s) (ocsp_ids s) (ocsp_exts s) (ocsp_resp s)
      (session_ticket s) (ticket_expected s) (npn s) (npn_seen s) (alpn_sent s) (alpn_selected s)
      (alpn_proposed s) (early_data_ok s) (scts s) (scts_len s) (srtp_profile s) (peer_sigalgs s)
      (peer_cert_sigalgs s) (peer_ecpointformats s) (use_etm s) (s3_flags s) (sess_hostname s)
      (sess_tick s) (sess_tick_lifetime_hint s) (sess_tick_age_add s) (sess_max_fragment_len_mode s)
      (sess_alpn_selected s) (sess_ids s) (stat_accept s) (stat_accept_session s) (extflags s)
      (custext s) (e_fatal s) (warnings s).

Definition IS_MAX_FRAGMENT_LENGTH_EXT_VALID (value : Z) : bool :=
  (TLSEXT_max_fragment_length_512 <=? value) && (value <=? TLSEXT_max_fragment_length_4096).
Definition GET_MAX_FRAGMENT_LENGTH (mode : Z) : Z := u32 (Z.shiftl 512 (mode - 1)).

(** What an application callback leaves: its own state and the options. *)
Definition effect {L : ExtLib} : Type := (App * Z)%type.

(** The callbacks, by their addresses.  The results are those of the callback
    and what it stores through its pointers: an alert, or the bytes it gives.
    [add_cb] and the like have the signatures of [SSL_custom_ext_add_cb_ex] and
    of the older [custom_ext_add_cb]. *)
Class Callbacks {L : ExtLib} := {
  run_servername_cb : Z -> essl -> (Z * option Z) * effect;
  run_session_ticket_cb : Z -> list Z -> essl -> bool * effect;
  run_npn_select_cb : Z -> list Z -> essl -> (Z * list Z) * effect;
  run_npn_advertised_cb : Z -> essl -> (Z * list Z) * effect;
  run_alpn_select_cb : Z -> list Z -> essl -> (Z * list Z) * effect;
  run_add_cb_ex : Z -> Z -> Z -> option X509 -> Z -> cb_arg -> essl -> (Z * list Z * Z) * effect;
  run_free_cb_ex : Z -> Z -> Z -> list Z -> cb_arg -> essl -> unit * effect;
  run_parse_cb_ex : Z -> Z -> Z -> list Z -> option X509 -> Z -> cb_arg -> essl -> (Z * Z) * effect;
  run_add_cb : Z -> Z -> Z -> essl -> (Z * list Z * Z) * effect;
  run_free_cb : Z -> Z -> list Z -> Z -> essl -> unit * effect;
  run_parse_cb : Z -> Z -> list Z -> Z -> essl -> (Z * Z) * effect }.

(** ** Steps *)

Section Steps.
Context {L : ExtLib} {A : Alloc}.
Abbreviation M := (prog essl).

(** [SSLfatal_ntls]: the first alert stays. *)
Definition SSLfatal_ntls (al : Z) : M unit :=
  modify (fun s => s <| e_fatal := match e_fatal s with Some a => Some a | None => Some al end |>).
Definition fail (al : Z) : M bool := SSLfatal_ntls al;; mret false.
Definition fail_ext (al : Z) : M EXT_RETURN := SSLfatal_ntls al;; mret EXT_RETURN_FAIL.

Definition call {B} (f : essl -> B * effect) : M B :=
  fun s => let '(b, (w, o)) := f s in Val (b, s <| app := w |> <| options := o |>).

(** [a || b] for tests with effects: the second is made when the first holds. *)
Definition and_then (a b : M bool) : M bool := ok ← a; if ok : bool then b else mret false.

(** Calls of the packet writer *)
Definition writes (f : WPACKET -> res (bool * WPACKET)) : M bool :=
  fun s => match f (e_pkt s) with Val (ok, p) => Val (ok, s <| e_pkt := p |>) | Stuck x => Stuck x end.
Definition WPACKET_put_bytes_u8 (v : Z) : M bool := writes (fun p => WPACKET_put_bytes__ p v 1).
Definition WPACKET_put_bytes_u16 (v : Z) : M bool := writes (fun p => WPACKET_put_bytes__ p v 2).
Definition put_bytes (b : list Z) : M bool := writes (fun p => WPACKET_memcpy p b).
Definition WPACKET_start_sub_packet_u16 : M bool :=
  writes (fun p => Val (WPACKET_start_sub_packet_len__ p 2)).
Definition WPACKET_sub_memcpy_u8 (b : list Z) : M bool := writes (fun p => WPACKET_sub_memcpy__ p b 1).
Definition WPACKET_sub_memcpy_u16 (b : list Z) : M bool := writes (fun p => WPACKET_sub_memcpy__ p b 2).
Definition close_packet : M bool := writes WPACKET_close.

(** Bytes are allocated in the packet, in a sub-packet of their own when
    [lenbytes] is given, and then written there through the pointer. *)
Definition put_allocated (b : list Z) (lenbytes : option Z) : M bool :=
  writes (fun p =>
    '(ok, c, p) ← match lenbytes with
                  | Some n => WPACKET_sub_allocate_bytes__ p (Z.of_nat (length b)) n
                  | None => Val (WPACKET_allocate_bytes p (Z.of_nat (length b)))
                  end;
    if negb ok then Val (false, p)
    else match c with
         | None => Stuck NullAccess
         | Some (_, off) => p ← write_at p off b; Val (true, p)
         end).

(** A buffer of a copy of [b]: [OPENSSL_malloc] gives none for no bytes, and
    [OPENSSL_memdup] for [INT_MAX] bytes and more. *)
Definition malloc_copy (what : ecall) (b : list Z) : option (list Z) :=
  if (length b =? 0)%nat || negb (ext_ok what) then None else Some b.
Definition memdup (what : ecall) (b : list Z) : option (list Z) :=
  if INT_MAX <=? Z.of_nat (length b) then None else malloc_copy what b.

(** The bytes of a packet *)
Definition packet_bytes (pkt : PACKET) : M (list Z) :=
  reads (bytes_at (base pkt) (PACKET_data pkt) (PACKET_remaining pkt)).

(** [tls_use_ticket] (t1_lib.c) *)
Definition tls_use_ticket (c : econf) : M bool :=
  o ← gets options;
  if flag o SSL_OP_NO_TICKET then mret false else mret (security_ticket c).

(** What is written, or else an internal error *)
Definition sends (w : M bool) : M EXT_RETURN :=
  ok ← w; if negb ok then fail_ext SSL_AD_INTERNAL_ERROR else mret EXT_RETURN_SENT.

(** [PACKET_remaining(pkt) != 1 || !PACKET_get_1(pkt, &value)] fails, and
    [value] *)
Definition single_byte (pkt : PACKET) : M (option Z) :=
  if negb (PACKET_remaining pkt =? 1) then mret None
  else r ← reads (PACKET_get_1 pkt); mret (match r with Some (v, _) => Some v | None => None end).

(** [OPENSSL_strdup], which allocates for the terminator too *)
Definition strdup (what : ecall) (h : option (list Z)) : option (list Z) :=
  match h with Some h => if ext_ok what then Some h else None | None => None end.

(** The callback on a session ticket, when there is one *)
Definition session_ticket_ok {K : Callbacks} (c : econf) (pkt : PACKET) : M bool :=
  match session_ticket_cb c with
  | None => mret true
  | Some f => b ← packet_bytes pkt; call (run_session_ticket_cb f b)
  end.

End Steps.

(** The program, from which a failing call returns *)
Ltac ered :=
  cbn [set e_pkt app options servername_done hostname max_fragment_len_mode status_type status_expected
       ocsp_ids ocsp_exts ocsp_resp session_ticket ticket_expected npn npn_seen alpn_sent alpn_selected
       alpn_proposed early_data_ok scts scts_len srtp_profile peer_sigalgs peer_cert_sigalgs
       peer_ecpointformats use_etm s3_flags sess_hostname sess_tick sess_tick_lifetime_hint
       sess_tick_age_add sess_max_fragment_len_mode sess_alpn_selected sess_ids stat_accept
       stat_accept_session extflags custext e_fatal warnings].
