(* ===== verification/ExtToy.v ===== *)
(** * NTLS hello extensions: a concrete setting

    OCSP objects are their encodings, the application keeps a log of what its
    callbacks were given, and which library calls fail is chosen. *)

From S2P Require Import Prelude Buffers CMem Packet PacketSpec Wpacket WpacketSpec ExtTypes.

#[export] Instance ecall_eq_dec : EqDecision ecall.
Proof. solve_decision. Defined.

(** Memory is always available. *)
Definition hello_alloc : Alloc := {| alloc_ok _ := true; junk _ _ := 0 |}.

(** The library, in which the calls of [bad] fail *)
Definition hello_lib (bad : list ecall) : ExtLib := {|
  OCSP_RESPID := list Z;
  X509_EXTENSIONS := list Z;
  X509 := unit;
  App := list (Z * list Z);
  i2d_OCSP_RESPID b := b;
  d2i_OCSP_RESPID b := Some (b, Z.of_nat (length b));
  i2d_X509_EXTENSIONS b := Some b;
  d2i_X509_EXTENSIONS b := Some (b, Z.of_nat (length b));
  ext_ok k := negb (bool_decide (k ∈ bad)) |}.

(** The callbacks log their type or address and their data, and are content. *)
Definition hello_log {bad : list ecall} (t : Z) (d : list Z) (s : @essl (hello_lib bad)) : @effect (hello_lib bad) :=
  (@app (hello_lib bad) s ++ [(t, d)], @options (hello_lib bad) s).

Definition hello_callbacks (bad : list ecall) : @Callbacks (hello_lib bad) := {|
  run_servername_cb f s := ((SSL_TLSEXT_ERR_OK, None), hello_log f [] s);
  run_session_ticket_cb f d s := (true, hello_log f d s);
  run_npn_select_cb f d s := ((SSL_TLSEXT_ERR_OK, d), hello_log f d s);
  run_npn_advertised_cb f s := ((SSL_TLSEXT_ERR_OK, [2; 104; 50]), hello_log f [] s);
  run_alpn_select_cb f d s := ((SSL_TLSEXT_ERR_OK, [104; 50]), hello_log f d s);
  run_add_cb_ex f t _ _ _ _ s := ((1, [], 0), hello_log t [] s);
  run_free_cb_ex f t _ d _ s := (tt, hello_log t d s);
  run_parse_cb_ex f t _ d _ _ _ s := ((1, 0), hello_log t d s);
  run_add_cb f t _ s := ((1, [], 0), hello_log t [] s);
  run_free_cb f t d _ s := (tt, hello_log t d s);
  run_parse_cb f t d _ s := ((1, 0), hello_log t d s) |}.

(** The two ends of a first NTLS handshake; the client proposes two protocols. *)
Definition hello_conf (server : bool) : econf :=
  mk_econf server false 0x0101 0x0101 false 0 0 true false true 0x0101 (Some 32) true
    (if server then None else Some [2; 104; 50; 3; 102; 111; 111]) None false None None None None None None 16384 1000.

(** A message of at most 600 bytes is being written. *)
Definition hello_wpacket : WPACKET := (@WPACKET_init_static_len hello_alloc (repeat 0 600) 0 1).2.

Lemma hello_wpacket_rep : @rep hello_wpacket [mk_frame 0 0 []].
Proof.
  destruct (@intern_init_ok hello_alloc (fresh_packet None (Some (repeat 0 600)) 600 false 1) 0)
    as (p & E & R & _); [vm_compute; discriminate | reflexivity | vm_compute; discriminate
                        | vm_compute; discriminate | lia | reflexivity |].
  change hello_wpacket with (@wpacket_intern_init_len hello_alloc
    (fresh_packet None (Some (repeat 0 600)) 600 false 1) (Z.of_nat 0)).2.
  rewrite E. exact R.
Qed.

(** A connection with the host name [name], the fragment length [mode], a status
    request of the responders [ids] and the custom extensions [meths] *)
Definition hello_ssl (bad : list ecall) (name : option (list Z)) (mode : Z) (ids : option (list (list Z)))
    (meths : list custom_ext_method) : @essl (hello_lib bad) :=
  @mk_essl (hello_lib bad) hello_wpacket [] 0 false name mode
    (match ids with Some _ => TLSEXT_STATUSTYPE_ocsp | None => TLSEXT_STATUSTYPE_nothing end) false
    (default [] ids) None None None false None false false None None true None 0 None None None None false 0
    None None 0 0 0 None 0%nat 0 0 (repeat 0 30) meths None [].

(** The bytes of a ClientHello's extensions: the server name "ab" and a type that
    nobody knows *)
Definition hello_exts_bytes : list Z := [0; 0; 0; 7; 0; 5; 0; 0; 2; 97; 98; 18; 52; 0; 1; 9].
Definition hello_exts_packet : PACKET := mk_packet hello_exts_bytes 0 16.

Lemma hello_exts_packet_wf : packet_wf hello_exts_packet.
Proof.
  repeat split; try (vm_compute; discriminate).
  repeat (apply Forall_cons_2; [unfold is_byte; lia |]). apply Forall_nil_2.
Qed.

(** The table that the server has for them *)
Definition hello_raw : list RAW_EXTENSION :=
  <[1%nat := mk_raw (mk_packet hello_exts_bytes 4 7) true false 0 0]> (repeat raw_zero 30).
