(* ===== verification/ExtCust.v ===== *)
(** * NTLS custom extensions

    [ssl/statem_ntls/ntls_extensions_cust.c]: the table of the extensions that
    an application registers, and the messages' use of it; with the tests of
    [ntls_extensions.c] on the contexts of extensions, which the custom and the
    built-in extensions share. *)

From S2P Require Import Prelude Buffers CMem Packet Wpacket ExtTypes.

(** ** Contexts *)

(** [validate_context] *)
Definition validate_context (c : econf) (extctx thisctx : Z) : bool :=
  if Z.land thisctx extctx =? 0 then false
  else if SSL_IS_DTLS c then negb (flag extctx SSL_EXT_TLS_ONLY)
  else negb (flag extctx SSL_EXT_DTLS_ONLY).

Definition extension_is_relevant_ntls (c : econf) (extctx thisctx : Z) : bool :=
  let is_tls13 := if flag thisctx SSL_EXT_TLS1_3_HELLO_RETRY_REQUEST then true else SSL_IS_TLS13 c in
  if (SSL_IS_DTLS c && flag extctx SSL_EXT_TLS_IMPLEMENTATION_ONLY)
     || ((version c =? SSL3_VERSION) && negb (flag extctx SSL_EXT_SSL3_ALLOWED))
     || (is_tls13 && flag extctx SSL_EXT_TLS1_2_AND_BELOW_ONLY)
     || (negb is_tls13 && flag extctx SSL_EXT_TLS1_3_ONLY && negb (flag thisctx SSL_EXT_CLIENT_HELLO))
     || (server c && negb is_tls13 && flag extctx SSL_EXT_TLS1_3_ONLY)
     || (hit c && flag extctx SSL_EXT_IGNORE_ON_RESUMPTION)
  then false else true.

Definition should_add_extension_ntls (c : econf) (extctx thisctx max_version : Z) : bool :=
  if negb (flag extctx thisctx) then false
  else if negb (extension_is_relevant_ntls c extctx thisctx)
          || (flag extctx SSL_EXT_TLS1_3_ONLY && flag thisctx SSL_EXT_CLIENT_HELLO
              && (SSL_IS_DTLS c || (max_version <? TLS1_3_VERSION)))
  then false else true.

(** ** The table *)

(** Whether the entry [m] is the one that is searched for *)
Definition method_matches (r : ENDPOINT) (t : Z) (m : custom_ext_method) : bool :=
  (t =? ext_type m)
  && (bool_decide (r = ENDPOINT_BOTH) || bool_decide (r = role m) || bool_decide (role m = ENDPOINT_BOTH)).

(** The first entry that matches, and its index *)
Fixpoint custom_ext_find_from (i : nat) (exts : list custom_ext_method) (r : ENDPOINT) (t : Z) :
  option (nat * custom_ext_method) :=
  match exts with
  | [] => None
  | m :: exts => if method_matches r t m then Some (i, m) else custom_ext_find_from (S i) exts r t
  end.
Definition custom_ext_find_ntls := custom_ext_find_from 0.

Definition custom_ext_init_ntls (exts : list custom_ext_method) : list custom_ext_method :=
  map (fun m => m <| ext_flags := 0 |>) exts.

(** Of each entry of [src], the flags go to the entry of [dst] that is found. *)
Fixpoint custom_exts_copy_flags_ntls (dst src : list custom_ext_method) : list custom_ext_method :=
  match src with
  | [] => dst
  | m :: src =>
      match custom_ext_find_ntls dst (role m) (ext_type m) with
      | None => custom_exts_copy_flags_ntls dst src
      | Some (i, d) => custom_exts_copy_flags_ntls (<[i := d <| ext_flags := ext_flags m |>]> dst) src
      end
  end.

Definition SSL_CTX_has_client_custom_ext_ntls (exts : list custom_ext_method) (t : Z) : bool :=
  match custom_ext_find_ntls exts ENDPOINT_CLIENT t with Some _ => true | None => false end.

Definition SSL_extension_supported_ntls (t : Z) : bool :=
  existsb (Z.eqb t)
    [TLSEXT_TYPE_application_layer_protocol_negotiation; TLSEXT_TYPE_ec_point_formats;
     TLSEXT_TYPE_supported_groups; TLSEXT_TYPE_key_share; TLSEXT_TYPE_next_proto_neg;
     TLSEXT_TYPE_padding; TLSEXT_TYPE_renegotiate; TLSEXT_TYPE_max_fragment_length;
     TLSEXT_TYPE_server_name; TLSEXT_TYPE_session_ticket; TLSEXT_TYPE_signature_algorithms;
     TLSEXT_TYPE_status_request; TLSEXT_TYPE_signed_certificate_timestamp; TLSEXT_TYPE_use_srtp;
     TLSEXT_TYPE_encrypt_then_mac; TLSEXT_TYPE_supported_versions;
     TLSEXT_TYPE_extended_master_secret; TLSEXT_TYPE_psk_kex_modes; TLSEXT_TYPE_cookie;
     TLSEXT_TYPE_early_data; TLSEXT_TYPE_certificate_authorities; TLSEXT_TYPE_psk;
     TLSEXT_TYPE_post_handshake_auth].

(** ** Registration *)

Section Registration.
Context {L : ExtLib}.

(** The return value and the table.  [ct_enabled] is [SSL_CTX_ct_is_enabled]. *)
Definition add_custom_ext_intern (ct_enabled : bool) (exts : list custom_ext_method) (r : ENDPOINT)
    (t context : Z) (add free : option callback) (addarg : cb_arg) (parse : option callback)
    (parsearg : cb_arg) : bool * list custom_ext_method :=
  match add, free with
  | None, Some _ => (false, exts)
  | _, _ =>
      if (t =? TLSEXT_TYPE_signed_certificate_timestamp) && flag context SSL_EXT_CLIENT_HELLO && ct_enabled
      then (false, exts)
      else if SSL_extension_supported_ntls t && negb (t =? TLSEXT_TYPE_signed_certificate_timestamp)
      then (false, exts)
      else if 0xffff <? t then (false, exts)
      else
        match custom_ext_find_ntls exts r t with
        | Some _ => (false, exts)
        | None =>
            if negb (ext_ok C_meths_realloc) then (false, exts)
            else (true, exts ++ [mk_method t r context 0 add free addarg parse parsearg])
        end
  end.

Definition add_old_custom_ext (ct_enabled : bool) (exts : list custom_ext_method) (r : ENDPOINT)
    (t context : Z) (add free : option Z) (addarg : Z) (parse : option Z) (parsearg : Z) :
  bool * list custom_ext_method :=
  if negb (ext_ok C_wrap_malloc) then (false, exts)
  else add_custom_ext_intern ct_enabled exts r t context (Some OldCbWrap) (Some OldCbWrap)
         (custom_ext_add_cb_wrap addarg add free) (Some OldCbWrap) (custom_ext_parse_cb_wrap parsearg parse).

(** The context of the old interface *)
Definition old_context : Z :=
  Z.lor (Z.lor (Z.lor SSL_EXT_TLS1_2_AND_BELOW_ONLY SSL_EXT_CLIENT_HELLO) SSL_EXT_TLS1_2_SERVER_HELLO)
    SSL_EXT_IGNORE_ON_RESUMPTION.

Definition SSL_CTX_add_client_custom_ext_ntls (ct_enabled : bool) (exts : list custom_ext_method) (t : Z)
    (add free : option Z) (addarg : Z) (parse : option Z) (parsearg : Z) :=
  add_old_custom_ext ct_enabled exts ENDPOINT_CLIENT t old_context add free addarg parse parsearg.
Definition SSL_CTX_add_server_custom_ext_ntls (ct_enabled : bool) (exts : list custom_ext_method) (t : Z)
    (add free : option Z) (addarg : Z) (parse : option Z) (parsearg : Z) :=
  add_old_custom_ext ct_enabled exts ENDPOINT_SERVER t old_context add free addarg parse parsearg.
Definition SSL_CTX_add_custom_ext_ntls (ct_enabled : bool) (exts : list custom_ext_method) (t context : Z)
    (add free : option callback) (addarg : cb_arg) (parse : option callback) (parsearg : cb_arg) :=
  add_custom_ext_intern ct_enabled exts ENDPOINT_BOTH t context add free addarg parse parsearg.

End Registration.

(** ** Messages *)

Section Messages.
Context {L : ExtLib} {K : Callbacks} {A : Alloc} (c : econf).
Abbreviation M := (prog essl).

(** [meth->add_cb(..)], and [*out] and [*al]; the wrapper of the old interface
    passes on some of its arguments. *)
Definition custom_ext_add_ntls_old_cb_wrap (t : Z) (arg : cb_arg) : M (Z * list Z * Z) :=
  match arg with
  | custom_ext_add_cb_wrap a (Some f) _ => call (run_add_cb f t a)
  | custom_ext_add_cb_wrap _ None _ => mret (1, [], 0)
  | _ => stuck WildPointer
  end.
Definition call_add_cb (f : callback) (t context : Z) (x : option X509) (chainidx : Z) (arg : cb_arg) :
  M (Z * list Z * Z) :=
  match f with
  | AppCb f => call (run_add_cb_ex f t context x chainidx arg)
  | OldCbWrap => custom_ext_add_ntls_old_cb_wrap t arg
  end.

Definition custom_ext_free_old_cb_wrap (t : Z) (out : list Z) (arg : cb_arg) : M unit :=
  match arg with
  | custom_ext_add_cb_wrap a _ (Some f) => call (run_free_cb f t out a)
  | custom_ext_add_cb_wrap _ _ None => mret tt
  | _ => stuck WildPointer
  end.
Definition call_free_cb (f : callback) (t context : Z) (out : list Z) (arg : cb_arg) : M unit :=
  match f with
  | AppCb f => call (run_free_cb_ex f t context out arg)
  | OldCbWrap => custom_ext_free_old_cb_wrap t out arg
  end.

Definition custom_ext_parse_ntls_old_cb_wrap (t : Z) (data : list Z) (arg : cb_arg) : M (Z * Z) :=
  match arg with
  | custom_ext_parse_cb_wrap a (Some f) => call (run_parse_cb f t data a)
  | custom_ext_parse_cb_wrap _ None => mret (1, 0)
  | _ => stuck WildPointer
  end.
Definition call_parse_cb (f : callback) (t context : Z) (data : list Z) (x : option X509) (chainidx : Z)
    (arg : cb_arg) : M (Z * Z) :=
  match f with
  | AppCb f => call (run_parse_cb_ex f t context data x chainidx arg)
  | OldCbWrap => custom_ext_parse_ntls_old_cb_wrap t data arg
  end.

(** [meth->ext_flags |= f] *)
Definition set_method_flag (i : nat) (f : Z) : M unit :=
  modify (fun s => s <| custext := alter (fun m => m <| ext_flags := Z.lor (ext_flags m) f |>) i (custext s) |>).

(** The messages whose extensions answer those of another *)
Definition SSL_EXT_ANSWERS : Z :=
  Z.lor (Z.lor SSL_EXT_TLS1_2_SERVER_HELLO SSL_EXT_TLS1_3_SERVER_HELLO) SSL_EXT_TLS1_3_ENCRYPTED_EXTENSIONS.

Definition custom_ext_parse_ntls (context t : Z) (ext_data : list Z) (x : option X509) (chainidx : Z) :
  M bool :=
  let r := if flag context (Z.lor SSL_EXT_CLIENT_HELLO SSL_EXT_TLS1_2_SERVER_HELLO)
           then (if server c then ENDPOINT_SERVER else ENDPOINT_CLIENT) else ENDPOINT_BOTH in
  exts ← gets custext;
  match custom_ext_find_ntls exts r t with
  | None => mret true
  | Some (i, meth) =>
      if negb (extension_is_relevant_ntls c (meth_context meth) context) then mret true
      else if flag context SSL_EXT_ANSWERS && negb (flag (ext_flags meth) SSL_EXT_FLAG_SENT)
      then fail SSL_AD_UNSUPPORTED_EXTENSION
      else
        (if flag context (Z.lor SSL_EXT_CLIENT_HELLO SSL_EXT_TLS1_3_CERTIFICATE_REQUEST)
         then set_method_flag i SSL_EXT_FLAG_RECEIVED else mret tt);;
        match parse_cb meth with
        | None => mret true
        | Some f =>
            '(r, al) ← call_parse_cb f t context ext_data x chainidx (parse_arg meth);
            if r <=? 0 then fail al else mret true
        end
  end.

(** One turn of the loop of [custom_ext_add_ntls], for the entry [i] *)
Definition custom_ext_add_one (context : Z) (x : option X509) (chainidx maxversion : Z) (i : nat) : M bool :=
  exts ← gets custext;
  match exts !! i with
  | None => stuck OutOfBounds
  | Some meth =>
      if negb (should_add_extension_ntls c (meth_context meth) context maxversion) then mret true
      else if flag context (Z.lor (Z.lor SSL_EXT_ANSWERS SSL_EXT_TLS1_3_CERTIFICATE)
                              SSL_EXT_TLS1_3_HELLO_RETRY_REQUEST)
              && negb (flag (ext_flags meth) SSL_EXT_FLAG_RECEIVED)
      then mret true
      else if negb (flag context SSL_EXT_CLIENT_HELLO) && negb (bool_decide (is_Some (add_cb meth)))
      then mret true
      else
        '(r, out, al) ← match add_cb meth with
                        | None => mret (1, [], 0)
                        | Some f => call_add_cb f (ext_type meth) context x chainidx (add_arg meth)
                        end;
        if r <? 0 then fail al
        else if r =? 0 then mret true
        else
          ok ← and_then (WPACKET_put_bytes_u16 (ext_type meth))
                 (and_then WPACKET_start_sub_packet_u16
                    (and_then (if (0 <? length out)%nat then put_bytes out else mret true) close_packet));
          if negb ok then fail SSL_AD_INTERNAL_ERROR
          else
            sent ← (if flag context SSL_EXT_CLIENT_HELLO
                    then
                      if flag (ext_flags meth) SSL_EXT_FLAG_SENT then fail SSL_AD_INTERNAL_ERROR
                      else set_method_flag i SSL_EXT_FLAG_SENT;; mret true
                    else mret true);
            if negb sent then mret false
            else
              (match free_cb meth with
               | None => mret tt
               | Some f => call_free_cb f (ext_type meth) context out (add_arg meth)
               end);;
              mret true
  end.

(** A loop whose body returns 0 on failure *)
Fixpoint each {B} (f : B -> M bool) (l : list B) : M bool :=
  match l with
  | [] => mret true
  | i :: l => ok ← f i; if negb ok then mret false else each f l
  end.

Definition custom_ext_add_ntls (context : Z) (x : option X509) (chainidx maxversion : Z) : M bool :=
  exts ← gets custext;
  each (custom_ext_add_one context x chainidx maxversion) (seq 0 (length exts)).

End Messages.
