(* ===== verification/ExtClient.v ===== *)
(** * NTLS hello extensions of the client

    [ssl/statem_ntls/ntls_extensions_clnt.c]: the extensions that the client
    writes into the ClientHello, and its parsers of those of the server. *)

From S2P Require Import Prelude Buffers CMem Packet Wpacket ExtTypes ExtCust.

Definition F5_WORKAROUND_MIN_MSG_LEN : Z := 0xff.
Definition F5_WORKAROUND_MAX_MSG_LEN : Z := 0x200.
Definition PSK_PRE_BINDER_OVERHEAD : Z := 2 + 2 + 2 + 2 + 4 + 2 + 1.

Section Client.
Context {L : ExtLib} {K : Callbacks} {A : Alloc} (c : econf).
Abbreviation M := (prog essl).

(** ** Constructors *)

Definition tls_construct_ctos_server_name_ntls (context : Z) (x : option X509) (chainidx : Z) : M EXT_RETURN :=
  h ← gets hostname;
  match h with
  | None => mret EXT_RETURN_NOT_SENT
  | Some h =>
      sends (and_then (WPACKET_put_bytes_u16 TLSEXT_TYPE_server_name)
               (and_then WPACKET_start_sub_packet_u16
                  (and_then WPACKET_start_sub_packet_u16
                     (and_then (WPACKET_put_bytes_u8 TLSEXT_NAMETYPE_host_name)
                        (and_then (WPACKET_sub_memcpy_u16 h) (and_then close_packet close_packet))))))
  end.

Definition tls_construct_ctos_maxfragmentlen_ntls (context : Z) (x : option X509) (chainidx : Z) :
  M EXT_RETURN :=
  mode ← gets max_fragment_len_mode;
  if mode =? TLSEXT_max_fragment_length_DISABLED then mret EXT_RETURN_NOT_SENT
  else sends (and_then (WPACKET_put_bytes_u16 TLSEXT_TYPE_max_fragment_length)
                (and_then WPACKET_start_sub_packet_u16
                   (and_then (WPACKET_put_bytes_u8 mode) close_packet))).

Definition tls_construct_ctos_ec_pt_formats_ntls (context : Z) (x : option X509) (chainidx : Z) :
  M EXT_RETURN := mret EXT_RETURN_NOT_SENT.

Definition tls_construct_ctos_supported_groups_ntls (context : Z) (x : option X509) (chainidx : Z) :
  M EXT_RETURN := mret EXT_RETURN_NOT_SENT.

(** The ticket that is sent; [None] when it cannot be copied.  The old ticket
    is not freed. *)
Definition choose_ticket : M (option (list Z)) :=
  tick ← gets sess_tick; st ← gets session_ticket;
  match tick, st with
  | Some t, _ =>
      if negb (new_session c) && negb (sess_version c =? TLS1_3_VERSION) then mret (Some t)
      else
        match st with
        | Some (Some d) =>
            modify (fun s => s <| sess_tick := malloc_copy C_malloc_tick d |>);;
            mret (malloc_copy C_malloc_tick d)
        | _ => mret (Some [])
        end
  | None, Some (Some d) =>
      modify (fun s => s <| sess_tick := malloc_copy C_malloc_tick d |>);;
      mret (malloc_copy C_malloc_tick d)
  | None, _ => mret (Some [])
  end.

Definition tls_construct_ctos_session_ticket_ntls (context : Z) (x : option X509) (chainidx : Z) :
  M EXT_RETURN :=
  use ← tls_use_ticket c;
  if negb use then mret EXT_RETURN_NOT_SENT
  else
    t ← choose_ticket;
    match t with
    | None => fail_ext SSL_AD_INTERNAL_ERROR
    | Some t =>
        st ← gets session_ticket;
        if (length t =? 0)%nat && bool_decide (st = Some None) then mret EXT_RETURN_NOT_SENT
        else sends (and_then (WPACKET_put_bytes_u16 TLSEXT_TYPE_session_ticket) (WPACKET_sub_memcpy_u16 t))
    end.

Definition tls_construct_ctos_sig_algs_ntls (context : Z) (x : option X509) (chainidx : Z) :
  M EXT_RETURN := mret EXT_RETURN_NOT_SENT.

(** The loop over [ocsp.ids]: each id in a sub-packet of its own *)
Definition put_responder_id (id : OCSP_RESPID) : M bool :=
  if (length (i2d_OCSP_RESPID id) =? 0)%nat then mret false
  else
    ok ← put_allocated (i2d_OCSP_RESPID id) (Some 2);
    mret (ok && ext_ok C_i2d_RESPID).

Definition tls_construct_ctos_status_request_ntls (context : Z) (x : option X509) (chainidx : Z) :
  M EXT_RETURN :=
  ty ← gets status_type;
  if bool_decide (is_Some x) || negb (ty =? TLSEXT_STATUSTYPE_ocsp) then mret EXT_RETURN_NOT_SENT
  else
    ids ← gets ocsp_ids; exts ← gets ocsp_exts;
    sends
      (and_then (WPACKET_put_bytes_u16 TLSEXT_TYPE_status_request)
      (and_then WPACKET_start_sub_packet_u16
      (and_then (WPACKET_put_bytes_u8 TLSEXT_STATUSTYPE_ocsp)
      (and_then WPACKET_start_sub_packet_u16
      (and_then (each put_responder_id ids)
      (and_then close_packet
      (and_then WPACKET_start_sub_packet_u16
      (and_then
         (match exts with
          | None => mret true
          | Some e =>
              match i2d_X509_EXTENSIONS e with
              | None => mret false
              | Some b => ok ← put_allocated b None; mret (ok && ext_ok C_i2d_EXTENSIONS)
              end
          end)
      (and_then close_packet close_packet))))))))).

Definition tls_construct_ctos_npn_ntls (context : Z) (x : option X509) (chainidx : Z) : M EXT_RETURN :=
  if negb (bool_decide (is_Some (npn_select_cb c))) || negb (SSL_IS_FIRST_HANDSHAKE c)
  then mret EXT_RETURN_NOT_SENT
  else sends (and_then (WPACKET_put_bytes_u16 TLSEXT_TYPE_next_proto_neg) (WPACKET_put_bytes_u16 0)).

Definition tls_construct_ctos_alpn_ntls (context : Z) (x : option X509) (chainidx : Z) : M EXT_RETURN :=
  modify (fun s => s <| alpn_sent := false |>);;
  match alpn c with
  | None => mret EXT_RETURN_NOT_SENT
  | Some l =>
      if negb (SSL_IS_FIRST_HANDSHAKE c) then mret EXT_RETURN_NOT_SENT
      else
        r ← sends (and_then (WPACKET_put_bytes_u16 TLSEXT_TYPE_application_layer_protocol_negotiation)
                     (and_then WPACKET_start_sub_packet_u16
                        (and_then (WPACKET_sub_memcpy_u16 l) close_packet)));
        if bool_decide (r = EXT_RETURN_SENT)
        then modify (fun s => s <| alpn_sent := true |>);; mret r else mret r
  end.

Definition tls_construct_ctos_use_srtp_ntls (context : Z) (x : option X509) (chainidx : Z) : M EXT_RETURN :=
  match srtp_profiles c with
  | None => mret EXT_RETURN_NOT_SENT
  | Some clnt =>
      sends (and_then (WPACKET_put_bytes_u16 TLSEXT_TYPE_use_srtp)
            (and_then WPACKET_start_sub_packet_u16
            (and_then WPACKET_start_sub_packet_u16
            (and_then (each WPACKET_put_bytes_u16 clnt)
            (and_then close_packet
            (and_then (WPACKET_put_bytes_u8 0) close_packet))))))
  end.

Definition tls_construct_ctos_etm_ntls (context : Z) (x : option X509) (chainidx : Z) :
  M EXT_RETURN := mret EXT_RETURN_NOT_SENT.

Definition tls_construct_ctos_sct_ntls (context : Z) (x : option X509) (chainidx : Z) : M EXT_RETURN :=
  if negb (ct_validation_callback c) || bool_decide (is_Some x) then mret EXT_RETURN_NOT_SENT
  else sends (and_then (WPACKET_put_bytes_u16 TLSEXT_TYPE_signed_certificate_timestamp)
                (WPACKET_put_bytes_u16 0)).

Definition tls_construct_ctos_ems_ntls (context : Z) (x : option X509) (chainidx : Z) :
  M EXT_RETURN := mret EXT_RETURN_NOT_SENT.

Definition tls_construct_ctos_supported_versions_ntls (context : Z) (x : option X509) (chainidx : Z) :
  M EXT_RETURN := mret EXT_RETURN_NOT_SENT.

(** The bytes of padding, if the message, of [hlen] bytes, needs some *)
Definition padding_length (hlen : Z) : option Z :=
  if (F5_WORKAROUND_MIN_MSG_LEN <? hlen) && (hlen <? F5_WORKAROUND_MAX_MSG_LEN)
  then
    let hlen := F5_WORKAROUND_MAX_MSG_LEN - hlen in
    Some (if 4 <? hlen then hlen - 4 else 1)
  else None.

Definition tls_construct_ctos_padding_ntls (context : Z) (x : option X509) (chainidx : Z) : M EXT_RETURN :=
  o ← gets options;
  if negb (flag o SSL_OP_TLSEXT_PADDING) then mret EXT_RETURN_NOT_SENT
  else
    pkt ← gets e_pkt; tick ← gets sess_tick;
    let ticklen := Z.of_nat (length (default [] tick)) in
    let hlen := WPACKET_get_total_written pkt in
    let hlen := match sess_md_size c with
                | Some md => if (sess_version c =? TLS1_3_VERSION) && negb (ticklen =? 0)
                             then u64 (hlen + (PSK_PRE_BINDER_OVERHEAD + ticklen + md)) else hlen
                | None => hlen
                end in
    match padding_length hlen with
    | None => mret EXT_RETURN_SENT
    | Some n =>
        sends (and_then (WPACKET_put_bytes_u16 TLSEXT_TYPE_padding)
                 (put_allocated (repeat 0 (Z.to_nat n)) (Some 2)))
    end.

(** ** Parsers *)

Definition tls_parse_stoc_maxfragmentlen_ntls (pkt : PACKET) (context : Z) (x : option X509) (chainidx : Z) :
  M bool :=
  v ← single_byte pkt;
  match v with
  | None => fail SSL_AD_DECODE_ERROR
  | Some value =>
      if negb (IS_MAX_FRAGMENT_LENGTH_EXT_VALID value) then fail SSL_AD_ILLEGAL_PARAMETER
      else
        mode ← gets max_fragment_len_mode;
        if negb (value =? mode) then fail SSL_AD_ILLEGAL_PARAMETER
        else modify (fun s => s <| sess_max_fragment_len_mode := value |>);; mret true
  end.

Definition tls_parse_stoc_server_name_ntls (pkt : PACKET) (context : Z) (x : option X509) (chainidx : Z) :
  M bool :=
  h ← gets hostname; sh ← gets sess_hostname;
  if negb (bool_decide (is_Some h)) then fail SSL_AD_INTERNAL_ERROR
  else if 0 <? PACKET_remaining pkt then fail SSL_AD_DECODE_ERROR
  else if hit c then mret true
  else if bool_decide (is_Some sh) then fail SSL_AD_INTERNAL_ERROR
  else
    let d := strdup C_strdup_hostname h in
    modify (fun s => s <| sess_hostname := d |>);;
    if negb (bool_decide (is_Some d)) then fail SSL_AD_INTERNAL_ERROR else mret true.

Definition tls_parse_stoc_ec_pt_formats_ntls (pkt : PACKET) (context : Z) (x : option X509)
    (chainidx : Z) : M bool := mret true.

Definition tls_parse_stoc_session_ticket_ntls (pkt : PACKET) (context : Z) (x : option X509)
    (chainidx : Z) : M bool :=
  ok ← session_ticket_ok c pkt;
  if negb ok then fail SSL_AD_HANDSHAKE_FAILURE
  else
    use ← tls_use_ticket c;
    if negb use then fail SSL_AD_UNSUPPORTED_EXTENSION
    else if 0 <? PACKET_remaining pkt then fail SSL_AD_DECODE_ERROR
    else modify (fun s => s <| ticket_expected := true |>);; mret true.

Definition tls_parse_stoc_status_request_ntls (pkt : PACKET) (context : Z) (x : option X509)
    (chainidx : Z) : M bool :=
  if context =? SSL_EXT_TLS1_3_CERTIFICATE_REQUEST then mret true
  else
    ty ← gets status_type;
    if negb (ty =? TLSEXT_STATUSTYPE_ocsp) then fail SSL_AD_UNSUPPORTED_EXTENSION
    else if 0 <? PACKET_remaining pkt then fail SSL_AD_DECODE_ERROR
    else modify (fun s => s <| status_expected := true |>);; mret true.

Definition tls_parse_stoc_sct_ntls (pkt : PACKET) (context : Z) (x : option X509) (chainidx : Z) : M bool :=
  if context =? SSL_EXT_TLS1_3_CERTIFICATE_REQUEST then mret true
  else if ct_validation_callback c then
    let size := PACKET_remaining pkt in
    modify (fun s => s <| scts := None |> <| scts_len := u16 size |>);;
    if 0 <? size then
      if negb (ext_ok C_malloc_scts)
      then modify (fun s => s <| scts_len := 0 |>);; fail SSL_AD_INTERNAL_ERROR
      else b ← packet_bytes pkt; modify (fun s => s <| scts := Some b |>);; mret true
    else mret true
  else
    let r := if flag context SSL_EXT_TLS1_2_SERVER_HELLO then ENDPOINT_CLIENT else ENDPOINT_BOTH in
    exts ← gets custext;
    match custom_ext_find_ntls exts r TLSEXT_TYPE_signed_certificate_timestamp with
    | None => fail SSL_AD_UNSUPPORTED_EXTENSION
    | Some _ =>
        b ← packet_bytes pkt;
        custom_ext_parse_ntls c context TLSEXT_TYPE_signed_certificate_timestamp b x chainidx
    end.

(** [ssl_next_proto_validate], with as many turns as there are bytes *)
Fixpoint validate_protos (fuel : nat) (pkt : PACKET) : res bool :=
  if PACKET_remaining pkt =? 0 then Val true
  else
    match fuel with
    | O => Stuck Unfinished
    | S fuel =>
        r ← PACKET_get_length_prefixed_1 pkt;
        match r with
        | None => Val false
        | Some (tmp, pkt) => if PACKET_remaining tmp =? 0 then Val false else validate_protos fuel pkt
        end
    end.
Definition ssl_next_proto_validate (pkt : PACKET) : M bool :=
  ok ← reads (validate_protos (Z.to_nat (PACKET_remaining pkt)) pkt);
  if negb ok then fail SSL_AD_DECODE_ERROR else mret true.

(** [selected_len] is an [unsigned char]: it is the length of the bytes that the
    callback gives. *)
Definition tls_parse_stoc_npn_ntls (pkt : PACKET) (context : Z) (x : option X509) (chainidx : Z) : M bool :=
  if negb (SSL_IS_FIRST_HANDSHAKE c) then mret true
  else
    match npn_select_cb c with
    | None => fail SSL_AD_UNSUPPORTED_EXTENSION
    | Some f =>
        ok ← ssl_next_proto_validate pkt;
        if negb ok then mret false
        else
          b ← packet_bytes pkt;
          '(r, selected) ← call (run_npn_select_cb f b);
          if negb (r =? SSL_TLSEXT_ERR_OK) || (length selected =? 0)%nat
          then fail SSL_AD_HANDSHAKE_FAILURE
          else
            let d := malloc_copy C_malloc_npn selected in
            modify (fun s => s <| npn := d |>);;
            if negb (bool_decide (is_Some d)) then fail SSL_AD_INTERNAL_ERROR
            else modify (fun s => s <| npn_seen := true |>);; mret true
    end.

(** The loop over the protocols that the client has sent: whether [sel] is one *)
Fixpoint find_proto (fuel : nat) (conf : PACKET) (sel : list Z) : res bool :=
  match fuel with
  | O => Stuck Unfinished
  | S fuel =>
      r ← PACKET_get_length_prefixed_1 conf;
      match r with
      | None => Val false
      | Some (prot, conf) =>
          if negb (PACKET_remaining prot =? Z.of_nat (length sel)) then find_proto fuel conf sel
          else
            b ← bytes_at (base prot) (PACKET_data prot) (Z.of_nat (length sel));
            if bool_decide (sel = b) then Val true else find_proto fuel conf sel
      end
  end.

(** The protocol of a list of one; [None] when the data is something else *)
Definition single_proto (pkt : PACKET) : M (option PACKET) :=
  r ← reads (PACKET_get_net_2_len pkt);
  match r with
  | None => mret None
  | Some (len, pkt) =>
      if negb (PACKET_remaining pkt =? len) then mret None
      else
        r ← reads (PACKET_get_1_len pkt);
        match r with
        | None => mret None
        | Some (len, pkt) => if negb (PACKET_remaining pkt =? len) then mret None else mret (Some pkt)
        end
  end.

(** A null [ext.alpn] has no bytes. *)
Definition tls_parse_stoc_alpn_ntls (pkt : PACKET) (context : Z) (x : option X509) (chainidx : Z) : M bool :=
  sent ← gets alpn_sent;
  if negb sent then fail SSL_AD_UNSUPPORTED_EXTENSION
  else
    p ← single_proto pkt;
    match p with
    | None => fail SSL_AD_DECODE_ERROR
    | Some pkt =>
        let l := default [] (alpn c) in
        match PACKET_buf_init l 0 (Z.of_nat (length l)) with
        | None => fail SSL_AD_INTERNAL_ERROR
        | Some confpkt =>
            sel ← packet_bytes pkt;
            valid ← reads (find_proto (S (length l)) confpkt sel);
            if negb valid then fail SSL_AD_DECODE_ERROR
            else
              let d := malloc_copy C_malloc_alpn_selected sel in
              modify (fun s => s <| alpn_selected := d |>);;
              if negb (bool_decide (is_Some d)) then fail SSL_AD_INTERNAL_ERROR
              else
                sa ← gets sess_alpn_selected;
                (if bool_decide (sa = Some sel) then mret tt
                 else modify (fun s => s <| early_data_ok := false |>));;
                if hit c then mret true
                else if bool_decide (is_Some sa) then fail SSL_AD_INTERNAL_ERROR
                else
                  let d := memdup C_memdup_sess_alpn sel in
                  modify (fun s => s <| sess_alpn_selected := d |>);;
                  if negb (bool_decide (is_Some d)) then fail SSL_AD_INTERNAL_ERROR else mret true
        end
    end.

Definition tls_parse_stoc_use_srtp_ntls (pkt : PACKET) (context : Z) (x : option X509) (chainidx : Z) :
  M bool :=
  r ← reads (PACKET_get_net_2 pkt);
  match r with
  | Some (ct, pkt) =>
      if negb (ct =? 2) then fail SSL_AD_DECODE_ERROR
      else
        r ← reads (PACKET_get_net_2 pkt);
        match r with
        | None => fail SSL_AD_DECODE_ERROR
        | Some (id, pkt) =>
            r ← reads (PACKET_get_1 pkt);
            match r with
            | None => fail SSL_AD_DECODE_ERROR
            | Some (mki, pkt) =>
                if negb (PACKET_remaining pkt =? 0) then fail SSL_AD_DECODE_ERROR
                else if negb (mki =? 0) then fail SSL_AD_ILLEGAL_PARAMETER
                else
                  match srtp_profiles c with
                  | None => fail SSL_AD_DECODE_ERROR
                  | Some clnt =>
                      if existsb (Z.eqb id) clnt
                      then modify (fun s => s <| srtp_profile := Some id |>);; mret true
                      else fail SSL_AD_DECODE_ERROR
                  end
            end
        end
  | None => fail SSL_AD_DECODE_ERROR
  end.

Definition tls_parse_stoc_etm_ntls (pkt : PACKET) (context : Z) (x : option X509) (chainidx : Z) :
  M bool := mret true.
Definition tls_parse_stoc_ems_ntls (pkt : PACKET) (context : Z) (x : option X509) (chainidx : Z) :
  M bool := mret true.
Definition tls_parse_stoc_supported_versions_ntls (pkt : PACKET) (context : Z) (x : option X509)
    (chainidx : Z) : M bool := mret true.

End Client.
