(* ===== verification/ExtServer.v ===== *)
(** * NTLS hello extensions of the server

    [ssl/statem_ntls/ntls_extensions_srvr.c]: the server's parsers of the
    extensions of the ClientHello and the extensions it writes into the
    ServerHello; and [tls_handle_alpn_ntls] of [ntls_statem_srvr.c], by which
    the server chooses a protocol in between. *)

From S2P Require Import Prelude Buffers CMem Packet Wpacket ExtTypes ExtCust.

Section Server.
Context {L : ExtLib} {K : Callbacks} {A : Alloc} (c : econf).
Abbreviation M := (prog essl).

(** ** Parsers *)

(** The host name of a list of one; [None] when the data is something else *)
Definition single_hostname (pkt : PACKET) : M (option PACKET) :=
  r ← reads (PACKET_as_length_prefixed_2 pkt);
  match r with
  | None => mret None
  | Some (sni, _) =>
      if PACKET_remaining sni =? 0 then mret None
      else
        r ← reads (PACKET_get_1 sni);
        match r with
        | None => mret None
        | Some (servname_type, sni) =>
            if negb (servname_type =? TLSEXT_NAMETYPE_host_name) then mret None
            else
              r ← reads (PACKET_as_length_prefixed_2 sni);
              mret (match r with Some (h, _) => Some h | None => None end)
        end
  end.

(** [PACKET_strndup], which copies up to a zero byte *)
Definition strndup (what : ecall) (b : list Z) : option (list Z) :=
  if ext_ok what then Some (take (strnlen b) b) else None.

Definition tls_parse_ctos_server_name_ntls (pkt : PACKET) (context : Z) (x : option X509) (chainidx : Z) :
  M bool :=
  r ← single_hostname pkt;
  match r with
  | None => fail SSL_AD_DECODE_ERROR
  | Some h =>
      if negb (hit c) || SSL_IS_TLS13 c then
        if TLSEXT_MAXLEN_host_name <? PACKET_remaining h then fail SSL_AD_UNRECOGNIZED_NAME
        else
          z ← reads (PACKET_contains_zero_byte h);
          if z : bool then fail SSL_AD_UNRECOGNIZED_NAME
          else
            b ← packet_bytes h;
            let d := strndup C_strndup_hostname b in
            modify (fun s => s <| hostname := d |>);;
            if negb (bool_decide (is_Some d)) then fail SSL_AD_INTERNAL_ERROR
            else modify (fun s => s <| servername_done := true |>);; mret true
      else
        sh ← gets sess_hostname;
        same ← match sh with
               | None => mret false
               | Some sh => reads (PACKET_equal h sh (Z.of_nat (length sh)))
               end;
        modify (fun s => s <| servername_done := same |>);; mret true
  end.

Definition tls_parse_ctos_maxfragmentlen_ntls (pkt : PACKET) (context : Z) (x : option X509) (chainidx : Z) :
  M bool :=
  v ← single_byte pkt;
  match v with
  | None => fail SSL_AD_DECODE_ERROR
  | Some value =>
      if negb (IS_MAX_FRAGMENT_LENGTH_EXT_VALID value) then fail SSL_AD_ILLEGAL_PARAMETER
      else
        mode ← gets sess_max_fragment_len_mode;
        if hit c && negb (mode =? value) then fail SSL_AD_ILLEGAL_PARAMETER
        else modify (fun s => s <| sess_max_fragment_len_mode := value |>);; mret true
  end.

Definition tls_parse_ctos_ec_pt_formats_ntls (pkt : PACKET) (context : Z) (x : option X509)
    (chainidx : Z) : M bool := mret true.

Definition tls_parse_ctos_session_ticket_ntls (pkt : PACKET) (context : Z) (x : option X509) (chainidx : Z) :
  M bool :=
  ok ← session_ticket_ok c pkt;
  if negb ok then fail SSL_AD_INTERNAL_ERROR else mret true.

Definition tls_parse_ctos_sig_algs_cert_ntls (pkt : PACKET) (context : Z) (x : option X509)
    (chainidx : Z) : M bool := mret true.
Definition tls_parse_ctos_sig_algs_ntls (pkt : PACKET) (context : Z) (x : option X509)
    (chainidx : Z) : M bool := mret true.

(** The loop over the list of responder ids, with as many turns as bytes.  What
    was pushed before a failure stays. *)
Fixpoint parse_responder_ids (fuel : nat) (pkt : PACKET) : M bool :=
  if PACKET_remaining pkt <=? 0 then mret true
  else
    match fuel with
    | O => stuck Unfinished
    | S fuel =>
        r ← reads (PACKET_get_length_prefixed_2 pkt);
        match r with
        | None => fail SSL_AD_DECODE_ERROR
        | Some (id, pkt) =>
            if PACKET_remaining id =? 0 then fail SSL_AD_DECODE_ERROR
            else
              b ← packet_bytes id;
              match d2i_OCSP_RESPID b with
              | None => fail SSL_AD_DECODE_ERROR
              | Some (v, n) =>
                  if negb (n =? PACKET_remaining id) then fail SSL_AD_DECODE_ERROR
                  else if negb (ext_ok C_RESPID_push) then fail SSL_AD_INTERNAL_ERROR
                  else
                    modify (fun s => s <| ocsp_ids := ocsp_ids s ++ [v] |>);;
                    parse_responder_ids fuel pkt
              end
        end
    end.

Definition parse_request_extensions (pkt : PACKET) : M bool :=
  r ← reads (PACKET_as_length_prefixed_2 pkt);
  match r with
  | None => fail SSL_AD_DECODE_ERROR
  | Some (exts, _) =>
      if 0 <? PACKET_remaining exts then
        b ← packet_bytes exts;
        match d2i_X509_EXTENSIONS b with
        | None => modify (fun s => s <| ocsp_exts := None |>);; fail SSL_AD_DECODE_ERROR
        | Some (e, n) =>
            modify (fun s => s <| ocsp_exts := Some e |>);;
            if negb (n =? PACKET_remaining exts) then fail SSL_AD_DECODE_ERROR else mret true
        end
      else mret true
  end.

Definition tls_parse_ctos_status_request_ntls (pkt : PACKET) (context : Z) (x : option X509) (chainidx : Z) :
  M bool :=
  if hit c || bool_decide (is_Some x) then mret true
  else
    r ← reads (PACKET_get_1 pkt);
    match r with
    | None => fail SSL_AD_DECODE_ERROR
    | Some (ty, pkt) =>
        modify (fun s => s <| status_type := ty |>);;
        if negb (ty =? TLSEXT_STATUSTYPE_ocsp)
        then modify (fun s => s <| status_type := TLSEXT_STATUSTYPE_nothing |>);; mret true
        else
          r ← reads (PACKET_get_length_prefixed_2 pkt);
          match r with
          | None => fail SSL_AD_DECODE_ERROR
          | Some (ids, pkt) =>
              modify (fun s => s <| ocsp_ids := [] |>);;
              if (0 <? PACKET_remaining ids) && negb (ext_ok C_RESPID_new_null)
              then fail SSL_AD_INTERNAL_ERROR
              else
                ok ← parse_responder_ids (Z.to_nat (PACKET_remaining ids)) ids;
                if negb ok then mret false else parse_request_extensions pkt
          end
    end.

Definition tls_parse_ctos_npn_ntls (pkt : PACKET) (context : Z) (x : option X509) (chainidx : Z) : M bool :=
  (if SSL_IS_FIRST_HANDSHAKE c then modify (fun s => s <| npn_seen := true |>) else mret tt);; mret true.

(** The loop over the protocols, at least one of which there is: none may be
    empty *)
Fixpoint check_protocols (fuel : nat) (pkt : PACKET) : res bool :=
  match fuel with
  | O => Stuck Unfinished
  | S fuel =>
      r ← PACKET_get_length_prefixed_1 pkt;
      match r with
      | None => Val false
      | Some (protocol, pkt) =>
          if PACKET_remaining protocol =? 0 then Val false
          else if PACKET_remaining pkt =? 0 then Val true else check_protocols fuel pkt
      end
  end.

Definition tls_parse_ctos_alpn_ntls (pkt : PACKET) (context : Z) (x : option X509) (chainidx : Z) : M bool :=
  if negb (SSL_IS_FIRST_HANDSHAKE c) then mret true
  else
    r ← reads (PACKET_as_length_prefixed_2 pkt);
    match r with
    | None => fail SSL_AD_DECODE_ERROR
    | Some (protocol_list, _) =>
        if PACKET_remaining protocol_list <? 2 then fail SSL_AD_DECODE_ERROR
        else
          ok ← reads (check_protocols (Z.to_nat (PACKET_remaining protocol_list)) protocol_list);
          if negb ok then fail SSL_AD_DECODE_ERROR
          else
            b ← packet_bytes protocol_list;
            let d := memdup C_memdup_alpn_proposed b in
            modify (fun s => s <| alpn_proposed := d |>);;
            if negb (bool_decide (is_Some d)) then fail SSL_AD_INTERNAL_ERROR else mret true
    end.

(** The profile [id], if it is among the first [pref] of [l], and its index *)
Fixpoint srtp_search (i : nat) (l : list Z) (id : Z) : option nat :=
  match l with
  | [] => None
  | p :: l => if p =? id then Some i else srtp_search (S i) l id
  end.

(** The loop over the profiles that the client offers *)
Fixpoint srtp_choose (fuel : nat) (srvr : list Z) (pref : nat) (pkt : PACKET) : M bool :=
  if PACKET_remaining pkt =? 0 then mret true
  else
    match fuel with
    | O => stuck Unfinished
    | S fuel =>
        r ← reads (PACKET_get_net_2 pkt);
        match r with
        | None => fail SSL_AD_DECODE_ERROR
        | Some (id, pkt) =>
            match srtp_search 0 (take pref srvr) id with
            | None => srtp_choose fuel srvr pref pkt
            | Some i => modify (fun s => s <| srtp_profile := Some id |>);; srtp_choose fuel srvr i pkt
            end
        end
    end.

Definition tls_parse_ctos_use_srtp_ntls (pkt : PACKET) (context : Z) (x : option X509) (chainidx : Z) :
  M bool :=
  match srtp_profiles c with
  | None => mret true
  | Some srvr =>
      r ← reads (PACKET_get_net_2 pkt);
      match r with
      | None => fail SSL_AD_DECODE_ERROR
      | Some (ct, pkt) =>
          if negb (Z.land ct 1 =? 0) then fail SSL_AD_DECODE_ERROR
          else
            match PACKET_get_sub_packet pkt ct with
            | None => fail SSL_AD_DECODE_ERROR
            | Some (subpkt, pkt) =>
                modify (fun s => s <| srtp_profile := None |>);;
                ok ← srtp_choose (Z.to_nat (PACKET_remaining subpkt)) srvr (length srvr) subpkt;
                if negb ok then mret false
                else
                  r ← reads (PACKET_get_1 pkt);
                  match r with
                  | None => fail SSL_AD_DECODE_ERROR
                  | Some (mki_len, pkt) =>
                      match PACKET_forward pkt mki_len with
                      | None => fail SSL_AD_DECODE_ERROR
                      | Some pkt =>
                          if negb (PACKET_remaining pkt =? 0) then fail SSL_AD_DECODE_ERROR else mret true
                      end
                  end
            end
      end
  end.

Definition tls_parse_ctos_etm_ntls (pkt : PACKET) (context : Z) (x : option X509) (chainidx : Z) :
  M bool := mret true.
Definition tls_parse_ctos_supported_groups_ntls (pkt : PACKET) (context : Z) (x : option X509)
    (chainidx : Z) : M bool := mret true.
Definition tls_parse_ctos_ems_ntls (pkt : PACKET) (context : Z) (x : option X509) (chainidx : Z) :
  M bool := mret true.

(** ** The choice of a protocol *)

Definition alpn_no_callback : M bool :=
  sa ← gets sess_alpn_selected;
  (if bool_decide (is_Some sa) then modify (fun s => s <| early_data_ok := false |>) else mret tt);;
  mret true.

Definition tls_handle_alpn_ntls : M bool :=
  proposed ← gets alpn_proposed;
  match alpn_select_cb c, proposed with
  | Some f, Some l =>
      '(r, selected) ← call (run_alpn_select_cb f l);
      if r =? SSL_TLSEXT_ERR_OK then
        let d := memdup C_memdup_alpn_selected selected in
        modify (fun s => s <| alpn_selected := d |>);;
        if negb (bool_decide (is_Some d)) then fail SSL_AD_INTERNAL_ERROR
        else
          modify (fun s => s <| npn_seen := false |>);;
          sa ← gets sess_alpn_selected;
          if bool_decide (sa = Some selected) then mret true
          else
            modify (fun s => s <| early_data_ok := false |>);;
            if hit c then mret true
            else if bool_decide (is_Some sa) then fail SSL_AD_INTERNAL_ERROR
            else
              let d := memdup C_memdup_sess_alpn selected in
              modify (fun s => s <| sess_alpn_selected := d |>);;
              if negb (bool_decide (is_Some d)) then fail SSL_AD_INTERNAL_ERROR else mret true
      else if negb (r =? SSL_TLSEXT_ERR_NOACK) then fail SSL_AD_NO_APPLICATION_PROTOCOL
      else alpn_no_callback
  | _, _ => alpn_no_callback
  end.

(** ** Constructors *)

Definition tls_construct_stoc_server_name_ntls (context : Z) (x : option X509) (chainidx : Z) : M EXT_RETURN :=
  done ← gets servername_done;
  if negb done || (hit c && negb (SSL_IS_TLS13 c)) then mret EXT_RETURN_NOT_SENT
  else sends (and_then (WPACKET_put_bytes_u16 TLSEXT_TYPE_server_name) (WPACKET_put_bytes_u16 0)).

Definition tls_construct_stoc_maxfragmentlen_ntls (context : Z) (x : option X509) (chainidx : Z) :
  M EXT_RETURN :=
  mode ← gets sess_max_fragment_len_mode;
  if negb (IS_MAX_FRAGMENT_LENGTH_EXT_VALID mode) then mret EXT_RETURN_NOT_SENT
  else sends (and_then (WPACKET_put_bytes_u16 TLSEXT_TYPE_max_fragment_length)
                (and_then WPACKET_start_sub_packet_u16
                   (and_then (WPACKET_put_bytes_u8 mode) close_packet))).

Definition tls_construct_stoc_ec_pt_formats_ntls (context : Z) (x : option X509) (chainidx : Z) :
  M EXT_RETURN := mret EXT_RETURN_NOT_SENT.
Definition tls_construct_stoc_supported_groups_ntls (context : Z) (x : option X509) (chainidx : Z) :
  M EXT_RETURN := mret EXT_RETURN_NOT_SENT.

Definition tls_construct_stoc_session_ticket_ntls (context : Z) (x : option X509) (chainidx : Z) :
  M EXT_RETURN :=
  e ← gets ticket_expected; use ← tls_use_ticket c;
  if negb e || negb use
  then modify (fun s => s <| ticket_expected := false |>);; mret EXT_RETURN_NOT_SENT
  else sends (and_then (WPACKET_put_bytes_u16 TLSEXT_TYPE_session_ticket) (WPACKET_put_bytes_u16 0)).

Definition tls_construct_stoc_status_request_ntls (context : Z) (x : option X509) (chainidx : Z) :
  M EXT_RETURN :=
  e ← gets status_expected;
  if (context =? SSL_EXT_TLS1_3_CERTIFICATE_REQUEST) || negb e then mret EXT_RETURN_NOT_SENT
  else sends (and_then (WPACKET_put_bytes_u16 TLSEXT_TYPE_status_request)
                (and_then WPACKET_start_sub_packet_u16 close_packet)).

Definition tls_construct_stoc_next_proto_neg_ntls (context : Z) (x : option X509) (chainidx : Z) :
  M EXT_RETURN :=
  seen ← gets npn_seen;
  modify (fun s => s <| npn_seen := false |>);;
  match npn_advertised_cb c with
  | None => mret EXT_RETURN_NOT_SENT
  | Some f =>
      if negb seen then mret EXT_RETURN_NOT_SENT
      else
        '(r, npa) ← call (run_npn_advertised_cb f);
        if r =? SSL_TLSEXT_ERR_OK then
          r ← sends (and_then (WPACKET_put_bytes_u16 TLSEXT_TYPE_next_proto_neg) (WPACKET_sub_memcpy_u16 npa));
          if bool_decide (r = EXT_RETURN_SENT)
          then modify (fun s => s <| npn_seen := true |>);; mret r else mret r
        else mret EXT_RETURN_NOT_SENT
  end.

Definition tls_construct_stoc_alpn_ntls (context : Z) (x : option X509) (chainidx : Z) : M EXT_RETURN :=
  sel ← gets alpn_selected;
  match sel with
  | None => mret EXT_RETURN_NOT_SENT
  | Some sel =>
      sends (and_then (WPACKET_put_bytes_u16 TLSEXT_TYPE_application_layer_protocol_negotiation)
               (and_then WPACKET_start_sub_packet_u16
                  (and_then WPACKET_start_sub_packet_u16
                     (and_then (WPACKET_sub_memcpy_u8 sel) (and_then close_packet close_packet)))))
  end.

Definition tls_construct_stoc_use_srtp_ntls (context : Z) (x : option X509) (chainidx : Z) : M EXT_RETURN :=
  p ← gets srtp_profile;
  match p with
  | None => mret EXT_RETURN_NOT_SENT
  | Some id =>
      sends (and_then (WPACKET_put_bytes_u16 TLSEXT_TYPE_use_srtp)
               (and_then WPACKET_start_sub_packet_u16
                  (and_then (WPACKET_put_bytes_u16 2)
                     (and_then (WPACKET_put_bytes_u16 id)
                        (and_then (WPACKET_put_bytes_u8 0) close_packet)))))
  end.

Definition tls_construct_stoc_etm_ntls (context : Z) (x : option X509) (chainidx : Z) :
  M EXT_RETURN := mret EXT_RETURN_NOT_SENT.
Definition tls_construct_stoc_ems_ntls (context : Z) (x : option X509) (chainidx : Z) :
  M EXT_RETURN := mret EXT_RETURN_NOT_SENT.
Definition tls_construct_stoc_supported_versions_ntls (context : Z) (x : option X509) (chainidx : Z) :
  M EXT_RETURN := mret EXT_RETURN_NOT_SENT.

End Server.
