(* ===== verification/ExtTable.v ===== *)
(** * NTLS hello extensions: the table and its loops

    [ssl/statem_ntls/ntls_extensions.c]: the initialisers and finalisers, the
    table [ext_defs] of the built-in extensions, and the functions that collect
    the extensions of a message, parse them and construct them. *)

From S2P Require Import Prelude Buffers CMem Packet Wpacket ExtTypes ExtCust ExtClient ExtServer.

Section Table.
Context {L : ExtLib} {K : Callbacks} {A : Alloc} (c : econf).
Abbreviation M := (prog essl).

(** ** Initialisers *)

Definition init_server_name (context : Z) : M bool :=
  (if server c then modify (fun s => s <| servername_done := false |> <| hostname := None |>) else mret tt);;
  mret true.
Definition init_session_ticket (context : Z) : M bool :=
  (if server c then mret tt else modify (fun s => s <| ticket_expected := false |>));; mret true.
Definition init_status_request (context : Z) : M bool :=
  (if server c then modify (fun s => s <| status_type := TLSEXT_STATUSTYPE_nothing |>)
   else modify (fun s => s <| ocsp_resp := None |>));;
  mret true.
Definition init_npn (context : Z) : M bool := modify (fun s => s <| npn_seen := false |>);; mret true.
Definition init_alpn (context : Z) : M bool :=
  modify (fun s => s <| alpn_selected := None |>);;
  (if server c then modify (fun s => s <| alpn_proposed := None |>) else mret tt);;
  mret true.
Definition init_sig_algs (context : Z) : M bool := modify (fun s => s <| peer_sigalgs := None |>);; mret true.
Definition init_sig_algs_cert (context : Z) : M bool :=
  modify (fun s => s <| peer_cert_sigalgs := None |>);; mret true.
Definition init_ec_point_formats (context : Z) : M bool :=
  modify (fun s => s <| peer_ecpointformats := None |>);; mret true.
Definition init_etm (context : Z) : M bool := modify (fun s => s <| use_etm := false |>);; mret true.
Definition init_ems (context : Z) : M bool :=
  f ← gets s3_flags;
  (if flag f TLS1_FLAGS_RECEIVED_EXTMS
   then modify (fun s => s <| s3_flags := Z.lor (Z.ldiff f TLS1_FLAGS_RECEIVED_EXTMS)
                                            TLS1_FLAGS_REQUIRED_EXTMS |>)
   else mret tt);;
  mret true.
Definition init_srtp (context : Z) : M bool :=
  (if server c then modify (fun s => s <| srtp_profile := None |>) else mret tt);; mret true.

(** ** Finalisers *)

(** The callback of [ctx], or else that of [session_ctx], and the alert *)
Definition servername_callback : M (Z * Z) :=
  match ctx_servername_cb c, session_ctx_servername_cb c with
  | Some f, _ | None, Some f =>
      '(r, al) ← call (run_servername_cb f); mret (r, default SSL_AD_UNRECOGNIZED_NAME al)
  | None, None => mret (SSL_TLSEXT_ERR_NOACK, SSL_AD_UNRECOGNIZED_NAME)
  end.

(** The host name goes to the session.  A failing copy raises an alert, and
    the function goes on. *)
Definition store_hostname (sent : bool) (r : Z) : M unit :=
  if server c && sent && (r =? SSL_TLSEXT_ERR_OK) && negb (hit c) then
    h ← gets hostname;
    let d := strdup C_strdup_sess_hostname h in
    modify (fun s => s <| sess_hostname := d |>);;
    if negb (bool_decide (is_Some d)) && bool_decide (is_Some h)
    then SSLfatal_ntls SSL_AD_INTERNAL_ERROR else mret tt
  else mret tt.

(** Tickets have been switched off by the callback. *)
Definition drop_ticket (was_ticket : bool) (r : Z) : M bool :=
  e ← gets ticket_expected; o ← gets options;
  if (r =? SSL_TLSEXT_ERR_OK) && e && was_ticket && flag o SSL_OP_NO_TICKET then
    modify (fun s => s <| ticket_expected := false |>);;
    if hit c then mret true
    else
      modify (fun s => s <| sess_tick := None |> <| sess_tick_lifetime_hint := 0 |>
                         <| sess_tick_age_add := 0 |>);;
      if negb (ext_ok C_generate_session_id) then fail SSL_AD_INTERNAL_ERROR
      else modify (fun s => s <| sess_ids := S (sess_ids s) |>);; mret true
  else mret true.

Definition final_server_name (context : Z) (sent : bool) : M bool :=
  o ← gets options;
  let was_ticket := negb (flag o SSL_OP_NO_TICKET) in
  '(r, altmp) ← servername_callback;
  store_hostname sent r;;
  (if SSL_IS_FIRST_HANDSHAKE c && ctx_switched c && hrr_none c
   then modify (fun s => s <| stat_accept := stat_accept s + 1 |>
                           <| stat_accept_session := stat_accept_session s - 1 |>)
   else mret tt);;
  ok ← drop_ticket was_ticket r;
  if negb ok then mret false
  else if r =? SSL_TLSEXT_ERR_ALERT_FATAL then fail altmp
  else if r =? SSL_TLSEXT_ERR_ALERT_WARNING then
    modify (fun s => s <| warnings := warnings s ++ [altmp] |> <| servername_done := false |>);; mret true
  else if r =? SSL_TLSEXT_ERR_NOACK then modify (fun s => s <| servername_done := false |>);; mret true
  else mret true.

Definition final_ec_pt_formats (context : Z) (sent : bool) : M bool := mret true.
Definition final_ems (context : Z) (sent : bool) : M bool := mret true.
Definition final_sig_algs (context : Z) (sent : bool) : M bool := mret true.

Definition final_alpn (context : Z) (sent : bool) : M bool :=
  sa ← gets sess_alpn_selected;
  (if negb (server c) && negb sent && bool_decide (is_Some sa)
   then modify (fun s => s <| early_data_ok := false |>) else mret tt);;
  mret true.

(** [ssl3_setup_buffers] raises an alert itself when it fails. *)
Definition final_maxfragmentlen (context : Z) (sent : bool) : M bool :=
  mode ← gets sess_max_fragment_len_mode;
  let use := IS_MAX_FRAGMENT_LENGTH_EXT_VALID mode in
  if server c && hit c && use && negb sent then fail SSL_AD_MISSING_EXTENSION
  else if use && (max_send_fragment c <? GET_MAX_FRAGMENT_LENGTH mode) && negb (ext_ok C_setup_buffers)
  then fail SSL_AD_NO_ALERT
  else mret true.

(** ** Definitions of all built-in extensions *)

Definition parser : Type := PACKET -> Z -> option X509 -> Z -> M bool.
Definition constructor : Type := Z -> option X509 -> Z -> M EXT_RETURN.

Record EXTENSION_DEFINITION := mk_def {
  def_type : Z;
  def_context : Z;
  def_init : option (Z -> M bool);
  parse_ctos : option parser;
  parse_stoc : option parser;
  construct_stoc : option constructor;
  construct_ctos : option constructor;
  def_final : option (Z -> bool -> M bool) }.

Definition INVALID_EXTENSION : EXTENSION_DEFINITION :=
  mk_def 0x10000 0 None None None None None None.

Definition HELLO : Z := Z.lor SSL_EXT_CLIENT_HELLO SSL_EXT_TLS1_2_SERVER_HELLO.

Definition ext_defs : list EXTENSION_DEFINITION :=
  [INVALID_EXTENSION;
   mk_def TLSEXT_TYPE_server_name (Z.lor HELLO SSL_EXT_TLS1_3_ENCRYPTED_EXTENSIONS)
     (Some init_server_name)
     (Some (tls_parse_ctos_server_name_ntls c)) (Some (tls_parse_stoc_server_name_ntls c))
     (Some (tls_construct_stoc_server_name_ntls c)) (Some tls_construct_ctos_server_name_ntls)
     (Some final_server_name);
   mk_def TLSEXT_TYPE_max_fragment_length (Z.lor HELLO SSL_EXT_TLS1_3_ENCRYPTED_EXTENSIONS)
     None
     (Some (tls_parse_ctos_maxfragmentlen_ntls c)) (Some tls_parse_stoc_maxfragmentlen_ntls)
     (Some tls_construct_stoc_maxfragmentlen_ntls) (Some tls_construct_ctos_maxfragmentlen_ntls)
     (Some final_maxfragmentlen);
   INVALID_EXTENSION;
   mk_def TLSEXT_TYPE_ec_point_formats (Z.lor HELLO SSL_EXT_TLS1_2_AND_BELOW_ONLY)
     (Some init_ec_point_formats)
     (Some tls_parse_ctos_ec_pt_formats_ntls) (Some tls_parse_stoc_ec_pt_formats_ntls)
     (Some tls_construct_stoc_ec_pt_formats_ntls) (Some tls_construct_ctos_ec_pt_formats_ntls)
     (Some final_ec_pt_formats);
   mk_def TLSEXT_TYPE_supported_groups (Z.lor HELLO SSL_EXT_TLS1_3_ENCRYPTED_EXTENSIONS)
     None
     (Some tls_parse_ctos_supported_groups_ntls) None
     (Some tls_construct_stoc_supported_groups_ntls) (Some tls_construct_ctos_supported_groups_ntls)
     None;
   mk_def TLSEXT_TYPE_session_ticket (Z.lor HELLO SSL_EXT_TLS1_2_AND_BELOW_ONLY)
     (Some init_session_ticket)
     (Some (tls_parse_ctos_session_ticket_ntls c)) (Some (tls_parse_stoc_session_ticket_ntls c))
     (Some (tls_construct_stoc_session_ticket_ntls c)) (Some (tls_construct_ctos_session_ticket_ntls c))
     None;
   mk_def TLSEXT_TYPE_status_request
     (Z.lor (Z.lor HELLO SSL_EXT_TLS1_3_CERTIFICATE) SSL_EXT_TLS1_3_CERTIFICATE_REQUEST)
     (Some init_status_request)
     (Some (tls_parse_ctos_status_request_ntls c)) (Some tls_parse_stoc_status_request_ntls)
     (Some tls_construct_stoc_status_request_ntls) (Some tls_construct_ctos_status_request_ntls)
     None;
   mk_def TLSEXT_TYPE_next_proto_neg (Z.lor HELLO SSL_EXT_TLS1_2_AND_BELOW_ONLY)
     (Some init_npn)
     (Some (tls_parse_ctos_npn_ntls c)) (Some (tls_parse_stoc_npn_ntls c))
     (Some (tls_construct_stoc_next_proto_neg_ntls c)) (Some (tls_construct_ctos_npn_ntls c))
     None;
   mk_def TLSEXT_TYPE_application_layer_protocol_negotiation
     (Z.lor HELLO SSL_EXT_TLS1_3_ENCRYPTED_EXTENSIONS)
     (Some init_alpn)
     (Some (tls_parse_ctos_alpn_ntls c)) (Some (tls_parse_stoc_alpn_ntls c))
     (Some tls_construct_stoc_alpn_ntls) (Some (tls_construct_ctos_alpn_ntls c))
     (Some final_alpn);
   mk_def TLSEXT_TYPE_use_srtp (Z.lor (Z.lor HELLO SSL_EXT_TLS1_3_ENCRYPTED_EXTENSIONS) SSL_EXT_DTLS_ONLY)
     (Some init_srtp)
     (Some (tls_parse_ctos_use_srtp_ntls c)) (Some (tls_parse_stoc_use_srtp_ntls c))
     (Some tls_construct_stoc_use_srtp_ntls) (Some (tls_construct_ctos_use_srtp_ntls c))
     None;
   mk_def TLSEXT_TYPE_encrypt_then_mac (Z.lor HELLO SSL_EXT_TLS1_2_AND_BELOW_ONLY)
     (Some init_etm)
     (Some tls_parse_ctos_etm_ntls) (Some tls_parse_stoc_etm_ntls)
     (Some tls_construct_stoc_etm_ntls) (Some tls_construct_ctos_etm_ntls)
     None;
   mk_def TLSEXT_TYPE_signed_certificate_timestamp
     (Z.lor (Z.lor HELLO SSL_EXT_TLS1_3_CERTIFICATE) SSL_EXT_TLS1_3_CERTIFICATE_REQUEST)
     None
     None (Some (tls_parse_stoc_sct_ntls c))
     None (Some (tls_construct_ctos_sct_ntls c))
     None;
   INVALID_EXTENSION;
   mk_def TLSEXT_TYPE_extended_master_secret (Z.lor HELLO SSL_EXT_TLS1_2_AND_BELOW_ONLY)
     (Some init_ems)
     (Some tls_parse_ctos_ems_ntls) (Some tls_parse_stoc_ems_ntls)
     (Some tls_construct_stoc_ems_ntls) (Some tls_construct_ctos_ems_ntls)
     (Some final_ems);
   mk_def TLSEXT_TYPE_signature_algorithms_cert
     (Z.lor SSL_EXT_CLIENT_HELLO SSL_EXT_TLS1_3_CERTIFICATE_REQUEST)
     (Some init_sig_algs_cert)
     (Some tls_parse_ctos_sig_algs_cert_ntls) (Some tls_parse_ctos_sig_algs_cert_ntls)
     None None None;
   INVALID_EXTENSION;
   mk_def TLSEXT_TYPE_signature_algorithms
     (Z.lor SSL_EXT_CLIENT_HELLO SSL_EXT_TLS1_3_CERTIFICATE_REQUEST)
     (Some init_sig_algs)
     (Some tls_parse_ctos_sig_algs_ntls) (Some tls_parse_ctos_sig_algs_ntls)
     (Some tls_construct_ctos_sig_algs_ntls) (Some tls_construct_ctos_sig_algs_ntls)
     (Some final_sig_algs);
   mk_def TLSEXT_TYPE_supported_versions
     (Z.lor (Z.lor (Z.lor SSL_EXT_CLIENT_HELLO SSL_EXT_TLS1_3_SERVER_HELLO)
               SSL_EXT_TLS1_3_HELLO_RETRY_REQUEST) SSL_EXT_TLS_IMPLEMENTATION_ONLY)
     None
     None (Some tls_parse_stoc_supported_versions_ntls)
     (Some tls_construct_stoc_supported_versions_ntls) (Some tls_construct_ctos_supported_versions_ntls)
     None;
   INVALID_EXTENSION; INVALID_EXTENSION; INVALID_EXTENSION; INVALID_EXTENSION; INVALID_EXTENSION;
   INVALID_EXTENSION; INVALID_EXTENSION; INVALID_EXTENSION; INVALID_EXTENSION;
   mk_def TLSEXT_TYPE_padding SSL_EXT_CLIENT_HELLO
     None None None None (Some (tls_construct_ctos_padding_ntls c)) None;
   INVALID_EXTENSION].

Definition builtin_num : nat := length ext_defs.

(** ** Checks *)

(** The role that the extensions of a message are for *)
Definition role_of (context : Z) : ENDPOINT :=
  if flag context SSL_EXT_CLIENT_HELLO then ENDPOINT_SERVER
  else if flag context SSL_EXT_TLS1_2_SERVER_HELLO then ENDPOINT_CLIENT else ENDPOINT_BOTH.

(** The loop of [tls_validate_all_contexts_ntls], from the index [i] on *)
Fixpoint validate_from (i : nat) (meths : list custom_ext_method) (thisctx : Z)
    (exts : list RAW_EXTENSION) : bool :=
  match exts with
  | [] => true
  | thisext :: exts =>
      (if present thisext then
         match (if (i <? builtin_num)%nat then def_context <$> ext_defs !! i
                else (meth_context ∘ snd) <$> custom_ext_find_ntls meths (role_of thisctx) (raw_type thisext)) with
         | None => false
         | Some context => validate_context c context thisctx
         end
       else true) && validate_from (S i) meths thisctx exts
  end.
Definition tls_validate_all_contexts_ntls (thisctx : Z) (exts : list RAW_EXTENSION) : M bool :=
  meths ← gets custext;
  mret (validate_from 0 meths thisctx (take (builtin_num + length meths) exts)).

(** The first definition of the type [t] *)
Fixpoint find_def (i : nat) (defs : list EXTENSION_DEFINITION) (t : Z) : option (nat * EXTENSION_DEFINITION) :=
  match defs with
  | [] => None
  | d :: defs => if t =? def_type d then Some (i, d) else find_def (S i) defs t
  end.

(** [None] when the extension is not allowed; or else the index of its entry of
    the list, if it has one *)
Definition verify_extension (context t : Z) (meths : list custom_ext_method) : option (option nat) :=
  match find_def 0 ext_defs t with
  | Some (i, d) => if validate_context c (def_context d) context then Some (Some i) else None
  | None =>
      match custom_ext_find_ntls meths (role_of context) t with
      | Some (offset, meth) =>
          if validate_context c (meth_context meth) context then Some (Some (offset + builtin_num)%nat) else None
      | None => Some None
      end
  end.

(** The messages whose extensions are not answers *)
Definition SSL_EXT_REQUESTS : Z :=
  Z.lor (Z.lor SSL_EXT_CLIENT_HELLO SSL_EXT_TLS1_3_CERTIFICATE_REQUEST) SSL_EXT_TLS1_3_NEW_SESSION_TICKET.

(** Whether the extension of the index [idx] of the list was not asked for *)
Definition unsolicited (context t idx : Z) (flags : list Z) : bool :=
  (idx <? Z.of_nat builtin_num)
  && negb (flag context SSL_EXT_REQUESTS)
  && negb (t =? TLSEXT_TYPE_cookie) && negb (t =? TLSEXT_TYPE_renegotiate)
  && negb (t =? TLSEXT_TYPE_signed_certificate_timestamp)
  && negb (flag (nth (Z.to_nat idx) flags 0) SSL_EXT_FLAG_SENT).

(** ** Collecting *)

(** The loop over the bytes of the message: [i] counts the extensions, and the
    list has as many turns as there are bytes.  [None] is [goto err]. *)
Fixpoint collect_loop (fuel : nat) (context : Z) (meths : list custom_ext_method) (pkt : PACKET) (i : Z)
    (raw : list RAW_EXTENSION) : M (option (list RAW_EXTENSION)) :=
  if PACKET_remaining pkt <=? 0 then mret (Some raw)
  else
    match fuel with
    | O => stuck Unfinished
    | S fuel =>
        r ← reads (PACKET_get_net_2 pkt);
        match r with
        | None => SSLfatal_ntls SSL_AD_DECODE_ERROR;; mret None
        | Some (t, pkt) =>
            r ← reads (PACKET_get_length_prefixed_2 pkt);
            match r with
            | None => SSLfatal_ntls SSL_AD_DECODE_ERROR;; mret None
            | Some (extension, pkt) =>
                match verify_extension context t meths with
                | None => SSLfatal_ntls SSL_AD_ILLEGAL_PARAMETER;; mret None
                | Some found =>
                    let thisex := j ← found; raw !! j in
                    if (match thisex with Some e => present e | None => false end)
                       || ((t =? TLSEXT_TYPE_psk) && flag context SSL_EXT_CLIENT_HELLO
                           && negb (PACKET_remaining pkt =? 0))
                    then SSLfatal_ntls SSL_AD_ILLEGAL_PARAMETER;; mret None
                    else
                      flags ← gets extflags;
                      if unsolicited context t (match found with Some j => Z.of_nat j | None => null_idx c end)
                           flags
                      then SSLfatal_ntls SSL_AD_UNSUPPORTED_EXTENSION;; mret None
                      else
                        match found, thisex with
                        | None, _ => collect_loop fuel context meths pkt i raw
                        | Some _, None => stuck OutOfBounds
                        | Some j, Some e =>
                            collect_loop fuel context meths pkt (i + 1)
                              (<[j := mk_raw extension true (parsed e) t i]> raw)
                        end
                end
            end
        end
    end.

(** An initialiser, when it is relevant *)
Definition run_init (context : Z) (d : EXTENSION_DEFINITION) : M bool :=
  match def_init d with
  | None => mret true
  | Some init =>
      if flag (def_context d) context && extension_is_relevant_ntls c (def_context d) context
      then init context else mret true
  end.

(** The list, or [None] for 0 *)
Definition tls_collect_extensions_ntls (packet : PACKET) (context : Z) (init : bool) :
  M (option (list RAW_EXTENSION)) :=
  (if flag context SSL_EXT_CLIENT_HELLO
   then modify (fun s => s <| custext := custom_ext_init_ntls (custext s) |>) else mret tt);;
  exts ← gets custext;
  let num_exts := (builtin_num + length exts)%nat in
  if negb (ext_ok C_raw_zalloc) then SSLfatal_ntls SSL_AD_INTERNAL_ERROR;; mret None
  else
    r ← collect_loop (Z.to_nat (PACKET_remaining packet)) context exts packet 0 (repeat raw_zero num_exts);
    match r with
    | None => mret None
    | Some raw =>
        if init then ok ← each (run_init context) ext_defs; if negb ok then mret None else mret (Some raw)
        else mret (Some raw)
    end.

(** ** Parsing *)

(** The return value and the list.  Where a parser leaves [data] is not kept:
    an extension is not parsed again. *)
Definition tls_parse_extension_ntls (idx : nat) (context : Z) (exts : list RAW_EXTENSION) (x : option X509)
    (chainidx : Z) : M (bool * list RAW_EXTENSION) :=
  match exts !! idx with
  | None => stuck OutOfBounds
  | Some currext =>
      if negb (present currext) then mret (true, exts)
      else if parsed currext then mret (true, exts)
      else
        let exts := <[idx := mk_raw (raw_data currext) (present currext) true (raw_type currext)
                               (received_order currext)]> exts in
        let custom := b ← packet_bytes (raw_data currext);
                      custom_ext_parse_ntls c context (raw_type currext) b x chainidx in
        r ← match ext_defs !! idx with
            | Some extdef =>
                if negb (extension_is_relevant_ntls c (def_context extdef) context) then mret true
                else match (if server c then parse_ctos extdef else parse_stoc extdef) with
                     | Some parser => parser (raw_data currext) context x chainidx
                     | None => custom
                     end
            | None => custom
            end;
        mret (r, exts)
  end.

Fixpoint parse_each (idxs : list nat) (context : Z) (exts : list RAW_EXTENSION) (x : option X509)
    (chainidx : Z) : M (bool * list RAW_EXTENSION) :=
  match idxs with
  | [] => mret (true, exts)
  | i :: idxs =>
      '(ok, exts) ← tls_parse_extension_ntls i context exts x chainidx;
      if negb ok then mret (false, exts) else parse_each idxs context exts x chainidx
  end.

(** A finaliser, when it is relevant *)
Definition run_final (context : Z) (exts : list RAW_EXTENSION) (e : nat * EXTENSION_DEFINITION) : M bool :=
  match def_final (snd e) with
  | None => mret true
  | Some final =>
      if flag (def_context (snd e)) context then
        match exts !! fst e with
        | None => stuck OutOfBounds
        | Some r => final context (present r)
        end
      else mret true
  end.

Definition tls_parse_all_extensions_ntls (context : Z) (exts : list RAW_EXTENSION) (x : option X509)
    (chainidx : Z) (fin : bool) : M (bool * list RAW_EXTENSION) :=
  meths ← gets custext;
  '(ok, exts) ← parse_each (seq 0 (builtin_num + length meths)) context exts x chainidx;
  if negb ok then mret (false, exts)
  else if fin then
    ok ← each (run_final context exts) (combine (seq 0 builtin_num) ext_defs); mret (ok, exts)
  else mret (true, exts).

(** ** Constructing *)

Definition construct_one (context : Z) (x : option X509) (chainidx : Z) (e : nat * EXTENSION_DEFINITION) :
  M bool :=
  let '(i, thisexd) := e in
  if negb (should_add_extension_ntls c (def_context thisexd) context NTLS_MAX_VERSION) then mret true
  else
    match (if server c then construct_stoc thisexd else construct_ctos thisexd) with
    | None => mret true
    | Some construct =>
        ret ← construct context x chainidx;
        if bool_decide (ret = EXT_RETURN_FAIL) then mret false
        else
          (if bool_decide (ret = EXT_RETURN_SENT) && flag context SSL_EXT_REQUESTS
           then modify (fun s => s <| extflags := alter (fun f => Z.lor f SSL_EXT_FLAG_SENT) i (extflags s) |>)
           else mret tt);;
          mret true
    end.

Definition tls_construct_extensions_ntls (context : Z) (x : option X509) (chainidx : Z) : M bool :=
  ok ← and_then WPACKET_start_sub_packet_u16
         (if flag context HELLO
          then writes (fun p => Val (WPACKET_set_flags p WPACKET_FLAGS_ABANDON_ON_ZERO_LENGTH))
          else mret true);
  if negb ok then fail SSL_AD_INTERNAL_ERROR
  else
    (if flag context SSL_EXT_CLIENT_HELLO
     then modify (fun s => s <| custext := custom_ext_init_ntls (custext s) |>) else mret tt);;
    ok ← custom_ext_add_ntls c context x chainidx NTLS_MAX_VERSION;
    if negb ok then mret false
    else
      ok ← each (construct_one context x chainidx) (combine (seq 0 builtin_num) ext_defs);
      if negb ok then mret false
      else
        ok ← close_packet;
        if negb ok then fail SSL_AD_INTERNAL_ERROR else mret true.

End Table.
