(* ===== verification/ExtCollect.v ===== *)
(** * NTLS hello extensions: collecting

    [tls_collect_extensions_ntls] against a specification on lists of
    extensions: which messages it accepts, and what the table then holds. *)

From S2P Require Import Prelude Buffers CMem Packet PacketSpec Wpacket WpacketSpec PacketRules ExtTypes ExtToy ExtCust ExtClient ExtServer ExtTable.

(** ** Rules for the steps *)

Section Rules.
Context {L : ExtLib}.

Definition alert (al : Z) (s : essl) : essl :=
  s <| e_fatal := match e_fatal s with Some a => Some a | None => Some al end |>.

Lemma wp_fatal_ext al Q s : Q tt (alert al s) -> wp (SSLfatal_ntls al) Q s.
Proof. auto. Qed.
Lemma wp_fail al Q s : Q false (alert al s) -> wp (fail al) Q s.
Proof. auto. Qed.
Lemma wp_fail_ext al Q s : Q EXT_RETURN_FAIL (alert al s) -> wp (fail_ext al) Q s.
Proof. auto. Qed.
Lemma wp_call {B} (f : essl -> B * effect) Q s :
  Q (fst (f s)) (s <| app := fst (snd (f s)) |> <| options := snd (snd (f s)) |>) -> wp (call f) Q s.
Proof. unfold wp, call. now destruct (f s) as [b [w o]]. Qed.
Lemma wp_and_then_ext (a b : prog essl bool) Q s :
  wp a (fun ok => if ok then wp b Q else Q false) s -> wp (and_then a b) Q s.
Proof. intros H. apply wp_bind. eapply wp_mono; [exact H |]. intros [] s'; auto. Qed.
Lemma wp_packet_bytes pkt Q s : packet_wf pkt -> Q (view pkt) s -> wp (packet_bytes pkt) Q s.
Proof. intros W H. eapply wp_reads; [now apply packet_bytes_view | exact H]. Qed.

Lemma wp_tls_use_ticket c Q s :
  Q (negb (flag (options s) SSL_OP_NO_TICKET) && security_ticket c) s -> wp (tls_use_ticket c) Q s.
Proof.
  intros H. apply wp_bind, wp_gets. destruct (flag _ _); now apply wp_ret.
Qed.

End Rules.

(** One step of a program, as far as it has no premises of its own *)
Ltac estep :=
  lazymatch goal with
  | |- wp (_ ≫= _) _ _ => apply wp_bind
  | |- wp (mret _) _ _ => apply wp_ret
  | |- wp (gets _) _ _ => apply wp_gets
  | |- wp (modify _) _ _ => apply wp_modify
  | |- wp (SSLfatal_ntls _) _ _ => apply wp_fatal_ext
  | |- wp (fail _) _ _ => apply wp_fail
  | |- wp (fail_ext _) _ _ => apply wp_fail_ext
  | |- wp (call _) _ _ => apply wp_call
  | |- wp (and_then _ _) _ _ => apply wp_and_then_ext
  | |- wp (tls_use_ticket _) _ _ => apply wp_tls_use_ticket
  | |- wp (packet_bytes _) _ _ => apply wp_packet_bytes; [assumption |]
  end; cbv beta.
Ltac esteps := repeat estep.

(** Membership of a list that is written out *)
Ltac in_list := apply list_elem_of_In; cbn [In]; tauto.

(** ** Lists of extensions *)

Definition enc_ext (e : Z * list Z) : list Z :=
  be_bytes 2 (fst e) ++ be_bytes 2 (Z.of_nat (length (snd e))) ++ snd e.
Definition enc_exts (l : list (Z * list Z)) : list Z := flat_map enc_ext l.
Definition fits (e : Z * list Z) : Prop :=
  0 <= fst e < 65536 /\ Z.of_nat (length (snd e)) < 65536 /\ bytes (snd e).

Lemma be_bytes_inj n a b :
  0 <= a < 256 ^ Z.of_nat n -> 0 <= b < 256 ^ Z.of_nat n -> be_bytes n a = be_bytes n b -> a = b.
Proof. intros Ha Hb E. rewrite <- (be_roundtrip n a), <- (be_roundtrip n b), E by assumption. reflexivity. Qed.

(** An encoding is read in one way only. *)
Lemma enc_ext_inj e e' r r' :
  fits e -> fits e' -> enc_ext e ++ r = enc_ext e' ++ r' -> e = e' /\ r = r'.
Proof.
  unfold enc_ext, fits. destruct e as [t d], e' as [t' d']. cbn [fst snd]. intros (Ht & Hd & _) (Ht' & Hd' & _).
  rewrite <- !app_assoc. intros E.
  apply app_inj_1 in E as [E1 E]; [| now rewrite !be_bytes_length].
  apply app_inj_1 in E as [E2 E]; [| now rewrite !be_bytes_length].
  apply be_bytes_inj in E1 as ->; [| lia | lia]. apply be_bytes_inj in E2; [| lia | lia].
  apply app_inj_1 in E as [-> ->]; [easy | lia].
Qed.

(** ** The rules for extensions, stated apart from the code *)

(** Two sets of flags have a flag in common. *)
Definition meet (a b : Z) : Prop := exists i, Z.testbit a i = true /\ Z.testbit b i = true.

Lemma nonzero_bit n : n <> 0 -> exists i, Z.testbit n i = true.
Proof.
  intros H. destruct (Z.lt_trichotomy n 0) as [Hn | [-> | Hn]]; [| easy | exists (Z.log2 n); now apply Z.bit_log2].
  exists (Z.succ (Z.log2 (Z.pred (- n)))). apply Z.bits_above_log2_neg; lia.
Qed.

Lemma flag_meet a b : flag a b = true <-> meet a b.
Proof.
  unfold flag, meet. rewrite negb_true_iff, Z.eqb_neq. split.
  - intros [i Hi]%nonzero_bit. rewrite Z.land_spec, andb_true_iff in Hi. eauto.
  - intros (i & H1 & H2) E. apply (f_equal (fun z => Z.testbit z i)) in E.
    rewrite Z.land_spec, H1, H2, Z.bits_0 in E. discriminate.
Qed.

Section Rulebook.
Context {L : ExtLib} {K : Callbacks} {A : Alloc} (c : econf).
Implicit Types (l ks : list (Z * list Z)) (ctx : Z) (meths : list custom_ext_method).

(** A custom extension that a message with the flags [ctx] can have: the server
    reads a ClientHello, the client a ServerHello, and for other messages the role
    does not matter. *)
Definition reads_as (ctx : Z) (r : ENDPOINT) : Prop :=
  r = ENDPOINT_BOTH
  \/ (meet ctx SSL_EXT_CLIENT_HELLO /\ r = ENDPOINT_SERVER)
  \/ (~ meet ctx SSL_EXT_CLIENT_HELLO /\ meet ctx SSL_EXT_TLS1_2_SERVER_HELLO /\ r = ENDPOINT_CLIENT)
  \/ (~ meet ctx SSL_EXT_CLIENT_HELLO /\ ~ meet ctx SSL_EXT_TLS1_2_SERVER_HELLO).
Definition handles (ctx t : Z) (m : custom_ext_method) : Prop := ext_type m = t /\ reads_as ctx (role m).

(** The entry of the type [t] in the table, and the flags of its definition:
    the first built-in extension of that type, or else the first custom one. *)
Inductive entry_of (ctx : Z) (meths : list custom_ext_method) (t : Z) : nat -> Z -> Prop :=
| builtin_entry j d :
    ext_defs c !! j = Some d -> def_type d = t ->
    (forall j' d', (j' < j)%nat -> ext_defs c !! j' = Some d' -> def_type d' <> t) ->
    entry_of ctx meths t j (def_context d)
| custom_entry j m :
    (forall d, d ∈ ext_defs c -> def_type d <> t) ->
    meths !! j = Some m -> handles ctx t m ->
    (forall j' m', (j' < j)%nat -> meths !! j' = Some m' -> ~ handles ctx t m') ->
    entry_of ctx meths t (builtin_num c + j) (meth_context m).

(** An extension defined for the flags [x] is allowed in the message. *)
Definition allowed (x ctx : Z) : Prop :=
  meet x ctx /\ if SSL_IS_DTLS c then ~ meet x SSL_EXT_TLS_ONLY else ~ meet x SSL_EXT_DTLS_ONLY.

(** The message is a request, its extension needs none, or it was sent. *)
Definition asked (ctx t : Z) (fl : Z) : Prop :=
  meet ctx SSL_EXT_CLIENT_HELLO \/ meet ctx SSL_EXT_TLS1_3_CERTIFICATE_REQUEST
  \/ meet ctx SSL_EXT_TLS1_3_NEW_SESSION_TICKET
  \/ t ∈ [TLSEXT_TYPE_cookie; TLSEXT_TYPE_renegotiate; TLSEXT_TYPE_signed_certificate_timestamp]
  \/ Z.testbit fl 1 = true.

(** [ks] are the extensions of [l] that have an entry. *)
Inductive kept (ctx : Z) (meths : list custom_ext_method) : list (Z * list Z) -> list (Z * list Z) -> Prop :=
| kept_nil : kept ctx meths [] []
| kept_yes e l ks j x : entry_of ctx meths (fst e) j x -> kept ctx meths l ks -> kept ctx meths (e :: l) (e :: ks)
| kept_no e l ks : (forall j x, ~ entry_of ctx meths (fst e) j x) -> kept ctx meths l ks ->
    kept ctx meths (e :: l) ks.

(** The extensions of a message that is to be accepted: an extension that has an
    entry is allowed, and a built-in one was asked for if it answers; no type with
    an entry comes twice; a PSK extension of a ClientHello is the last. *)
Record lawful (ctx : Z) (meths : list custom_ext_method) (flags : list Z) (l : list (Z * list Z)) : Prop := {
  law_allowed : Forall (fun e => forall j x, entry_of ctx meths (fst e) j x -> allowed x ctx) l;
  law_asked : Forall (fun e => forall j x, entry_of ctx meths (fst e) j x -> (j < builtin_num c)%nat ->
                               asked ctx (fst e) (nth j flags 0)) l;
  law_unique : forall ks, kept ctx meths l ks -> NoDup ks.*1;
  law_psk : meet ctx SSL_EXT_CLIENT_HELLO ->
    forall pre d rest, l = pre ++ (TLSEXT_TYPE_psk, d) :: rest -> rest = [] }.

(** The bytes [b] are the extensions [l], which are to be accepted. *)
Definition extensions_of (ctx : Z) (meths : list custom_ext_method) (flags : list Z) (b : list Z) l : Prop :=
  b = enc_exts l /\ Forall fits l /\ lawful ctx meths flags l.

(** The table of the extensions [l]: a filled entry has the type it is for, and
    the data and the position of an extension of that type; an entry that is not
    filled is zero, and no extension has it. *)
Definition tabled (ctx : Z) (meths : list custom_ext_method) l (raw : list RAW_EXTENSION) : Prop :=
  length raw = (builtin_num c + length meths)%nat
  /\ forall j e, raw !! j = Some e ->
     if present e
     then parsed e = false /\ packet_wf (raw_data e) /\ (exists x, entry_of ctx meths (raw_type e) j x)
          /\ exists k ks, received_order e = Z.of_nat k /\ kept ctx meths l ks
             /\ ks !! k = Some (raw_type e, view (raw_data e))
     else e = raw_zero /\ forall e' x, e' ∈ l -> ~ entry_of ctx meths (fst e') j x.

(** ** The code keeps the rules *)

Lemma validate_context_allowed x ctx : validate_context c x ctx = true <-> allowed x ctx.
Proof.
  unfold validate_context, allowed. pose proof (flag_meet x ctx) as M. unfold flag in M.
  rewrite Z.land_comm. destruct (Z.land x ctx =? 0); cbn [negb] in M.
  { split; [discriminate |]. intros [H _]. now apply M in H. }
  assert (Hm : meet x ctx) by now apply M.
  destruct (SSL_IS_DTLS c); rewrite negb_true_iff, <- not_true_iff_false, flag_meet; tauto.
Qed.

Lemma method_matches_handles ctx t m : method_matches (role_of ctx) t m = true <-> handles ctx t m.
Proof.
  unfold method_matches, role_of, handles, reads_as. rewrite <- !flag_meet, andb_true_iff, Z.eqb_eq.
  rewrite !orb_true_iff, !bool_decide_eq_true, !not_true_iff_false.
  destruct (flag ctx SSL_EXT_CLIENT_HELLO), (flag ctx SSL_EXT_TLS1_2_SERVER_HELLO), (role m); intuition congruence.
Qed.

Lemma unsolicited_asked ctx t j flags :
  (unsolicited c ctx t (Z.of_nat j) flags = false) <-> ((j < builtin_num c)%nat -> asked ctx t (nth j flags 0)).
Proof.
  unfold unsolicited, asked. rewrite <- !flag_meet, Nat2Z.id. rewrite !elem_of_cons, elem_of_nil.
  assert (E1 : flag ctx SSL_EXT_REQUESTS
               = flag ctx SSL_EXT_CLIENT_HELLO || flag ctx SSL_EXT_TLS1_3_CERTIFICATE_REQUEST
                 || flag ctx SSL_EXT_TLS1_3_NEW_SESSION_TICKET).
  { apply eq_true_iff_eq. rewrite !orb_true_iff, !flag_meet. unfold SSL_EXT_REQUESTS, meet.
    split.
    - intros (i & H1 & H2). rewrite !Z.lor_spec, !orb_true_iff in H2.
      destruct H2 as [[H2 | H2] | H2]; eauto.
    - intros [[(i & H1 & H2) | (i & H1 & H2)] | (i & H1 & H2)]; exists i;
        rewrite !Z.lor_spec, H2, ?orb_true_r; auto. }
  assert (E2 : flag (nth j flags 0) SSL_EXT_FLAG_SENT = Z.testbit (nth j flags 0) 1).
  { apply eq_true_iff_eq. rewrite flag_meet. unfold meet. split.
    - intros (i & H1 & H2). change SSL_EXT_FLAG_SENT with (2 ^ 1) in H2.
      rewrite Z.pow2_bits_eqb in H2 by lia. apply Z.eqb_eq in H2. now subst i.
    - intros H. exists 1. now split. }
  rewrite E1, E2. destruct (Z.ltb_spec (Z.of_nat j) (Z.of_nat (builtin_num c))) as [Hj | Hj]; [| split; [lia | easy]].
  cbn [andb].
  rewrite !andb_false_iff, !negb_false_iff, !orb_true_iff, !Z.eqb_eq.
  apply Nat2Z.inj_lt in Hj. split; [intros H _ | intros H; specialize (H Hj)]; tauto.
Qed.

Lemma find_def_entry t i defs :
  match find_def i defs t with
  | Some (j, d) => (i <= j)%nat /\ defs !! (j - i)%nat = Some d /\ def_type d = t
      /\ forall j' d', (j' < j - i)%nat -> defs !! j' = Some d' -> def_type d' <> t
  | None => forall d, d ∈ defs -> def_type d <> t
  end.
Proof.
  revert i. induction defs as [| d defs IH]; intros i; cbn [find_def]; [intros d H; now apply not_elem_of_nil in H |].
  destruct (Z.eqb_spec t (def_type d)) as [-> | Hne].
  { rewrite Nat.sub_diag. repeat split; lia. }
  specialize (IH (S i)). destruct (find_def (S i) defs t) as [[j d'] |].
  - destruct IH as (H1 & H2 & H3 & H4). replace (j - i)%nat with (S (j - S i)) by lia.
    repeat split; [lia | assumption | assumption |]. intros [| j'] d'' Hj E; [now injection E as <- |].
    apply (H4 j'); [lia | assumption].
  - intros d' [-> | H]%elem_of_cons; [congruence | auto].
Qed.

Lemma custom_find_entry ctx t i meths :
  match custom_ext_find_from i meths (role_of ctx) t with
  | Some (j, m) => (i <= j)%nat /\ meths !! (j - i)%nat = Some m /\ handles ctx t m
      /\ forall j' m', (j' < j - i)%nat -> meths !! j' = Some m' -> ~ handles ctx t m'
  | None => forall m, m ∈ meths -> ~ handles ctx t m
  end.
Proof.
  revert i. induction meths as [| m meths IH]; intros i; cbn [custom_ext_find_from];
    [intros d H; now apply not_elem_of_nil in H |].
  destruct (method_matches (role_of ctx) t m) eqn:E.
  { apply method_matches_handles in E. rewrite Nat.sub_diag. repeat split; try apply E; lia. }
  assert (Hm : ~ handles ctx t m) by (rewrite <- method_matches_handles; congruence).
  specialize (IH (S i)). destruct (custom_ext_find_from (S i) meths (role_of ctx) t) as [[j m'] |].
  - destruct IH as (H1 & H2 & H3 & H4). replace (j - i)%nat with (S (j - S i)) by lia.
    split; [lia |]. split; [assumption |]. split; [assumption |].
    intros [| j'] m'' Hj E'; [now injection E' as <- |]. apply (H4 j'); [lia | assumption].
  - intros m' [-> | H]%elem_of_cons; auto.
Qed.

(** A type has one entry at most. *)
Lemma entry_unique ctx meths t j x j' x' :
  entry_of ctx meths t j x -> entry_of ctx meths t j' x' -> j = j' /\ x = x'.
Proof.
  intros [i d E T F | i m N E H F] [i' d' E' T' F' | i' m' N' E' H' F'].
  - assert (i = i') as <-; [| split; congruence].
    destruct (Nat.lt_trichotomy i i') as [Hl | [? | Hl]]; [| assumption |].
    + now destruct (F' i d Hl E).
    + now destruct (F i' d' Hl E').
  - exfalso. apply (N' d); [now apply list_elem_of_lookup_2 in E | assumption].
  - exfalso. apply (N d'); [now apply list_elem_of_lookup_2 in E' | assumption].
  - assert (i = i') as <-; [| split; congruence].
    destruct (Nat.lt_trichotomy i i') as [Hl | [? | Hl]]; [| assumption |].
    + now destruct (F' i m Hl E).
    + now destruct (F i' m' Hl E').
Qed.

(** What [verify_extension] decides *)
Lemma verify_extension_entry ctx meths t :
  match verify_extension c ctx t meths with
  | None => exists j x, entry_of ctx meths t j x /\ ~ allowed x ctx
  | Some None => forall j x, ~ entry_of ctx meths t j x
  | Some (Some j) => exists x, entry_of ctx meths t j x /\ allowed x ctx
  end.
Proof.
  unfold verify_extension. pose proof (find_def_entry t 0 (ext_defs c)) as F.
  destruct (find_def 0 (ext_defs c) t) as [[j d] |].
  - rewrite Nat.sub_0_r in F. destruct F as (_ & F1 & F2 & F3).
    assert (E : entry_of ctx meths t j (def_context d)) by (apply builtin_entry; assumption).
    pose proof (validate_context_allowed (def_context d) ctx) as V.
    destruct (validate_context _ _ _); [exists (def_context d); split; [assumption | now apply V] |].
    exists j, (def_context d). split; [assumption |]. rewrite <- V. discriminate.
  - pose proof (custom_find_entry ctx t 0 meths) as G. unfold custom_ext_find_ntls.
    destruct (custom_ext_find_from 0 meths (role_of ctx) t) as [[j m] |].
    + rewrite Nat.sub_0_r in G. destruct G as (_ & G1 & G2 & G3).
      assert (E : entry_of ctx meths t (builtin_num c + j) (meth_context m)) by (apply custom_entry; assumption).
      pose proof (validate_context_allowed (meth_context m) ctx) as V.
      destruct (validate_context _ _ _).
      * rewrite Nat.add_comm. exists (meth_context m). split; [assumption | now apply V].
      * exists (builtin_num c + j)%nat, (meth_context m). split; [assumption |]. rewrite <- V. discriminate.
    + intros j x [i d E T _ | i m _ E H _].
      * apply list_elem_of_lookup_2 in E. now apply (F d).
      * apply list_elem_of_lookup_2 in E. now apply (G m).
Qed.

End Rulebook.

Section Collect.
Context {L : ExtLib} {K : Callbacks} {A : Alloc} (c : econf).
Implicit Types l : list (Z * list Z).

(** The entry of the table that the type [t] has in a message *)
Definition slot (ctx : Z) (meths : list custom_ext_method) (t : Z) : option nat :=
  match verify_extension c ctx t meths with Some o => o | None => None end.
Definition slots (ctx : Z) (meths : list custom_ext_method) l : list nat :=
  omap (fun e => slot ctx meths (fst e)) l.
(** The extensions that have one *)
Definition known (ctx : Z) (meths : list custom_ext_method) l : list (Z * list Z) :=
  filter (fun e => is_Some (slot ctx meths (fst e))) l.

(** What the code asks of the extensions [l] of a message that come after [seen],
    in terms of its own tests; [lawful_acceptable] says that these are the rules:
    each is allowed in this message; those that answer were asked for; no two
    have the same entry; a PSK extension of a ClientHello is the last. *)
Record acceptable (ctx : Z) (meths : list custom_ext_method) (flags : list Z)
    (seen l : list (Z * list Z)) : Prop := {
  acc_allowed : Forall (fun e => verify_extension c ctx (fst e) meths <> None) l;
  acc_solicited :
    Forall (fun e => forall j, slot ctx meths (fst e) = Some j ->
                     unsolicited c ctx (fst e) (Z.of_nat j) flags = false) l;
  acc_unique : NoDup (slots ctx meths (seen ++ l));
  acc_psk : flag ctx SSL_EXT_CLIENT_HELLO = true ->
    forall pre d rest, l = pre ++ (TLSEXT_TYPE_psk, d) :: rest -> rest = [] }.

(** The table of the extensions [l]: an entry that is present has the data and
    the position of an extension; the others are those of no extension. *)
Definition holds (ctx : Z) (meths : list custom_ext_method) l (raw : list RAW_EXTENSION) : Prop :=
  length raw = (builtin_num c + length meths)%nat
  /\ forall j e, raw !! j = Some e ->
     if present e
     then parsed e = false /\ packet_wf (raw_data e) /\ slot ctx meths (raw_type e) = Some j
          /\ exists k, received_order e = Z.of_nat k
             /\ known ctx meths l !! k = Some (raw_type e, view (raw_data e))
     else e = raw_zero /\ j ∉ slots ctx meths l.

(** ** Entries *)

Lemma find_def_range i defs t j d : find_def i defs t = Some (j, d) -> (i <= j < i + length defs)%nat.
Proof.
  revert i. induction defs as [| d' defs IH]; cbn; intros i; [easy |].
  destruct (t =? def_type d'); [intros [= <- <-]; lia | intros H; apply IH in H; lia].
Qed.

Lemma custom_find_spec i exts r t j m :
  custom_ext_find_from i exts r t = Some (j, m) ->
  (i <= j < i + length exts)%nat /\ exts !! (j - i)%nat = Some m /\ method_matches r t m = true.
Proof.
  revert i. induction exts as [| m' exts IH]; cbn [custom_ext_find_from length]; intros i; [easy |].
  destruct (method_matches r t m') eqn:E.
  - intros [= <- <-]. rewrite Nat.sub_diag. split; [lia | easy].
  - intros H. destruct (IH _ H) as (H1 & H2 & H3). split; [lia |]. split; [| assumption].
    now replace (j - i)%nat with (S (j - S i)) by lia.
Qed.

Lemma slot_range ctx meths t j : slot ctx meths t = Some j -> (j < builtin_num c + length meths)%nat.
Proof.
  unfold slot, verify_extension. destruct (find_def 0 (ext_defs c) t) as [[i d] |] eqn:F.
  - destruct (validate_context _ _ _); [intros [= ->] | easy]. apply find_def_range in F.
    unfold builtin_num. lia.
  - destruct (custom_ext_find_ntls _ _ _) as [[i m] |] eqn:G; [| easy].
    destruct (validate_context _ _ _); [intros [= <-] | easy]. apply custom_find_spec in G. lia.
Qed.

(** An entry is that of one type only. *)
Lemma find_def_type i defs t j d : find_def i defs t = Some (j, d) -> defs !! (j - i)%nat = Some d /\ def_type d = t.
Proof.
  revert i. induction defs as [| d' defs IH]; cbn [find_def]; intros i; [easy |].
  destruct (Z.eqb_spec t (def_type d')) as [-> |].
  - intros [= <- <-]. now rewrite Nat.sub_diag.
  - intros H. destruct (IH _ H) as [H1 H2]. split; [| assumption]. apply find_def_range in H.
    now replace (j - i)%nat with (S (j - S i)) by lia.
Qed.

Lemma slot_type ctx meths t t' j : slot ctx meths t = Some j -> slot ctx meths t' = Some j -> t = t'.
Proof.
  intros H H'. revert H H'. unfold slot, verify_extension.
  destruct (find_def 0 (ext_defs c) t) as [[i d] |] eqn:F, (find_def 0 (ext_defs c) t') as [[i' d'] |] eqn:F';
    repeat case_match; try easy; intros; simplify_eq.
  - apply find_def_type in F as [E1 <-], F' as [E2 <-]. congruence.
  - apply find_def_range in F. unfold builtin_num in *. lia.
  - apply find_def_range in F'. unfold builtin_num in *. lia.
  - match goal with
    | G : custom_ext_find_ntls _ _ t = Some (?a, _), G' : custom_ext_find_ntls _ _ t' = Some (?b, _) |- _ =>
        assert (a = b) as -> by lia; apply custom_find_spec in G as (_ & E1 & M1), G' as (_ & E2 & M2)
    end.
    rewrite E1 in E2. injection E2 as ->. unfold method_matches in M1, M2. lia.
Qed.

Lemma known_app ctx meths l l' : known ctx meths (l ++ l') = known ctx meths l ++ known ctx meths l'.
Proof. apply filter_app. Qed.
Lemma slots_app ctx meths l l' : slots ctx meths (l ++ l') = slots ctx meths l ++ slots ctx meths l'.
Proof. unfold slots. induction l as [| e l IH]; [reflexivity |]. cbn. destruct (slot _ _ _); cbn; now rewrite IH. Qed.

Lemma enc_exts_cons e l : enc_exts (e :: l) = enc_ext e ++ enc_exts l.
Proof. reflexivity. Qed.

(** An entry is filled. *)
Lemma holds_insert ctx meths l raw t d j e pkt :
  holds ctx meths l raw -> raw !! j = Some e -> present e = false -> slot ctx meths t = Some j ->
  packet_wf pkt -> view pkt = d ->
  holds ctx meths (l ++ [(t, d)])
    (<[j := mk_raw pkt true (parsed e) t (Z.of_nat (length (known ctx meths l)))]> raw).
Proof.
  intros [Ln H] Ej Pe S W V. split; [now rewrite length_insert |]. intros j' e' E'.
  assert (Hk : known ctx meths [(t, d)] = [(t, d)])
    by (unfold known; rewrite filter_cons_True by (cbn; rewrite S; eauto); reflexivity).
  destruct (decide (j = j')) as [-> | Hne].
  - rewrite list_lookup_insert_eq in E' by (now apply lookup_lt_Some in Ej).
    injection E' as <-. cbn [present parsed raw_data raw_type received_order].
    specialize (H j' e Ej). rewrite Pe in H. destruct H as [-> _]. split; [reflexivity |].
    split; [assumption |]. split; [assumption |].
    exists (length (known ctx meths l)). split; [reflexivity |].
    rewrite known_app, Hk, V, lookup_app_r by lia. now rewrite Nat.sub_diag.
  - rewrite list_lookup_insert_ne in E' by assumption. specialize (H j' e' E').
    destruct (present e').
    + destruct H as (H1 & H2 & H3 & k & H4 & H5). do 3 (split; [assumption |]). exists k.
      split; [assumption |]. rewrite known_app. now apply lookup_app_l_Some.
    + destruct H as [-> H]. split; [reflexivity |]. rewrite slots_app. unfold slots at 2. cbn.
      rewrite S. cbn. rewrite elem_of_app, list_elem_of_singleton. intros [? | ->]; auto.
Qed.

Lemma holds_unknown ctx meths l raw t d :
  holds ctx meths l raw -> slot ctx meths t = None -> holds ctx meths (l ++ [(t, d)]) raw.
Proof.
  intros [Ln H] S. split; [assumption |]. intros j e E. specialize (H j e E).
  assert (Hk : known ctx meths [(t, d)] = [])
    by (unfold known; rewrite filter_cons_False by (cbn; rewrite S; apply is_Some_None); reflexivity).
  rewrite known_app, slots_app, Hk, app_nil_r. unfold slots at 2. cbn. rewrite S. cbn.
  now rewrite app_nil_r.
Qed.

(** Whether an entry is taken *)
Lemma holds_present ctx meths l raw j e :
  holds ctx meths l raw -> raw !! j = Some e -> (present e = true <-> j ∈ slots ctx meths l).
Proof.
  intros [_ H] E. specialize (H j e E). destruct (present e); [| destruct H; now split].
  destruct H as (_ & _ & S & k & _ & Hk). split; [intros _ | easy]. unfold slots, known in *.
  apply list_elem_of_lookup_2, list_elem_of_filter in Hk as [_ Hk]. apply list_elem_of_omap. eauto.
Qed.

(** What the table has of an extension, and of a type that the message lacks *)
Lemma slots_lookup ctx meths l t d j : (t, d) ∈ l -> slot ctx meths t = Some j -> j ∈ slots ctx meths l.
Proof. intros H S. apply list_elem_of_omap. eauto. Qed.

Lemma slots_unique ctx meths l t d d' :
  NoDup (slots ctx meths l) -> is_Some (slot ctx meths t) -> (t, d) ∈ l -> (t, d') ∈ l -> d = d'.
Proof.
  intros ND [j S] H H'. induction l as [| e l IH]; [now apply not_elem_of_nil in H |].
  rewrite (slots_app ctx meths [e] l : slots ctx meths (e :: l) = _) in ND. apply NoDup_app in ND as (_ & Hd & ND).
  assert (K1 : forall d1 d2, (t, d1) = e -> (t, d2) ∈ l -> False).
  { intros d1 d2 <- H2. apply (Hd j); [| now apply (slots_lookup ctx meths l t d2)].
    unfold slots. cbn. rewrite S. now left. }
  apply elem_of_cons in H, H'. destruct H as [E | H], H' as [E' | H']; [congruence | | | auto];
    exfalso; eauto.
Qed.

Lemma holds_lookup ctx meths l raw t d j :
  holds ctx meths l raw -> NoDup (slots ctx meths l) -> (t, d) ∈ l -> slot ctx meths t = Some j ->
  exists e, raw !! j = Some e /\ present e = true /\ parsed e = false /\ packet_wf (raw_data e)
    /\ raw_type e = t /\ view (raw_data e) = d.
Proof.
  intros H ND Hl S. pose proof (slot_range _ _ _ _ S) as Hj. pose proof H as [Ln Hr].
  rewrite <- Ln in Hj. apply lookup_lt_is_Some_2 in Hj as [e E]. exists e. split; [assumption |].
  pose proof (proj2 (holds_present ctx meths l raw j e H E) (slots_lookup _ _ _ _ _ _ Hl S)) as P.
  specialize (Hr j e E). rewrite P in Hr. destruct Hr as (Hp & W & S' & k & _ & Hk).
  split; [assumption |]. split; [assumption |]. split; [assumption |].
  pose proof (slot_type _ _ _ _ _ S' S) as Et. split; [assumption |].
  apply list_elem_of_lookup_2, list_elem_of_filter in Hk as [_ Hk]. rewrite Et in Hk.
  apply (slots_unique ctx meths l t); eauto.
Qed.

Lemma holds_absent ctx meths l raw t j :
  holds ctx meths l raw -> t ∉ l.*1 -> slot ctx meths t = Some j -> raw !! j = Some raw_zero.
Proof.
  intros H Ht S. pose proof (slot_range _ _ _ _ S) as Hj. pose proof H as [Ln Hr].
  rewrite <- Ln in Hj. apply lookup_lt_is_Some_2 in Hj as [e E]. specialize (Hr j e E).
  destruct (present e); [| now destruct Hr as [-> _]].
  destruct Hr as (_ & _ & S' & k & _ & Hk). apply list_elem_of_lookup_2, list_elem_of_filter in Hk as [_ Hk].
  rewrite (slot_type _ _ _ _ _ S' S) in Hk. exfalso. apply Ht, list_elem_of_fmap. now exists (t, view (raw_data e)).
Qed.

(** ** The loop *)

(** The loop leaves the state alone, apart from an alert. *)
Definition rejects (s s' : essl) : Prop :=
  exists al, al ∈ [SSL_AD_DECODE_ERROR; SSL_AD_ILLEGAL_PARAMETER; SSL_AD_UNSUPPORTED_EXTENSION]
             /\ s' = alert al s.

(** The message [b] that follows the extensions [seen] is one to accept. *)
Definition message (ctx : Z) (meths : list custom_ext_method) (flags : list Z)
    (seen : list (Z * list Z)) (b : list Z) l : Prop :=
  b = enc_exts l /\ Forall fits l /\ acceptable ctx meths flags seen l.

Lemma acceptable_cons ctx meths flags seen e l :
  (acceptable ctx meths flags seen (e :: l)) <->
  (exists o, verify_extension c ctx (fst e) meths = Some o
     /\ (forall j, o = Some j -> (j ∉ slots ctx meths seen)
                   /\ unsolicited c ctx (fst e) (Z.of_nat j) flags = false))
  /\ (flag ctx SSL_EXT_CLIENT_HELLO = true -> fst e = TLSEXT_TYPE_psk -> l = [])
  /\ acceptable ctx meths flags (seen ++ [e]) l.
Proof.
  split.
  - intros [H1 H2 H3 H4]. apply Forall_cons in H1 as [V H1], H2 as [U H2].
    destruct (verify_extension c ctx (fst e) meths) as [o |] eqn:E; [| easy]. split; [| split].
    + exists o. split; [reflexivity |]. intros j ->.
      assert (S : slot ctx meths (fst e) = Some j) by (unfold slot; now rewrite E).
      split; [| auto]. rewrite slots_app, NoDup_app in H3. destruct H3 as (_ & H3 & _). intros Hj.
      apply (H3 j Hj). apply list_elem_of_omap. exists e. split; [left | assumption].
    + intros Hc Ht. destruct e as [t d]. cbn in Ht. subst t. apply (H4 Hc [] d). reflexivity.
    + split; [assumption | assumption | |].
      * now rewrite <- app_assoc.
      * intros Hc pre d rest ->. apply (H4 Hc (e :: pre) d). reflexivity.
  - intros ((o & V & U) & P & [H1 H2 H3 H4]). split.
    + constructor; [now rewrite V | assumption].
    + constructor; [| assumption]. unfold slot. rewrite V. intros j ->. now apply U.
    + now rewrite <- app_assoc in H3.
    + intros Hc [| e' pre] d rest [= -> ->]; [now apply P | eapply H4; eauto].
Qed.

Lemma message_cons ctx meths flags seen e r :
  fits e ->
  (exists l, message ctx meths flags seen (enc_ext e ++ r) l) <->
  (exists l, message ctx meths flags (seen ++ [e]) r l
     /\ (exists o, verify_extension c ctx (fst e) meths = Some o
           /\ (forall j, o = Some j -> (j ∉ slots ctx meths seen)
                         /\ unsolicited c ctx (fst e) (Z.of_nat j) flags = false))
     /\ (flag ctx SSL_EXT_CLIENT_HELLO = true -> fst e = TLSEXT_TYPE_psk -> l = [])).
Proof.
  intros F. split.
  - intros ([| e' l] & E & Fl & Hl).
    { apply (f_equal length) in E. unfold enc_ext in E. rewrite !length_app, !be_bytes_length in E. cbn in E. lia. }
    rewrite enc_exts_cons in E. apply Forall_cons in Fl as [F' Fl].
    apply enc_ext_inj in E as [<- ->]; [| assumption | assumption].
    apply acceptable_cons in Hl as (V & P & Hl). exists l. now split.
  - intros (l & (-> & Fl & Hl) & V & P). exists (e :: l). split; [reflexivity |].
    split; [now constructor |]. apply acceptable_cons. auto.
Qed.

Definition collected (ctx : Z) (meths : list custom_ext_method) (seen : list (Z * list Z)) (b : list Z)
    (s : essl) (r : option (list RAW_EXTENSION)) (s' : essl) : Prop :=
  match r with
  | Some raw => s' = s /\ exists l, message ctx meths (extflags s) seen b l /\ holds ctx meths (seen ++ l) raw
  | None => rejects s s' /\ ~ exists l, message ctx meths (extflags s) seen b l
  end.

Lemma reject al s : al ∈ [SSL_AD_DECODE_ERROR; SSL_AD_ILLEGAL_PARAMETER; SSL_AD_UNSUPPORTED_EXTENSION] ->
  rejects s (alert al s).
Proof. unfold rejects. eauto. Qed.

(** What is too short or has a wrong length is no message. *)
Lemma no_message ctx meths flags seen b :
  b <> [] -> (forall t d rest, fits (t, d) -> b <> enc_ext (t, d) ++ rest) ->
  ~ exists l, message ctx meths flags seen b l.
Proof.
  intros Hb H ([| [t d] l] & -> & F & _); [easy |]. apply Forall_cons in F as [F _].
  now apply (H t d (enc_exts l)).
Qed.

(** One extension [(t, d)], before the bytes of [pkt] *)
Lemma collect_one fuel ctx meths sub pkt t seen raw s :
  (forall seen raw, NoDup (slots ctx meths seen) -> holds ctx meths seen raw ->
     wp (collect_loop c fuel ctx meths pkt (Z.of_nat (length (known ctx meths seen))) raw)
       (collected ctx meths seen (view pkt) s) s) ->
  packet_wf sub -> packet_wf pkt -> fits (t, view sub) -> Z.of_nat (builtin_num c) <= null_idx c ->
  NoDup (slots ctx meths seen) -> holds ctx meths seen raw ->
  wp (match verify_extension c ctx t meths with
      | None => SSLfatal_ntls SSL_AD_ILLEGAL_PARAMETER;; mret None
      | Some found =>
          let thisex := j ← found; raw !! j in
          if (match thisex with Some e => present e | None => false end)
             || ((t =? TLSEXT_TYPE_psk) && flag ctx SSL_EXT_CLIENT_HELLO
                 && negb (PACKET_remaining pkt =? 0))
          then SSLfatal_ntls SSL_AD_ILLEGAL_PARAMETER;; mret None
          else
            flags ← gets extflags;
            if unsolicited c ctx t (match found with Some j => Z.of_nat j | None => null_idx c end) flags
            then SSLfatal_ntls SSL_AD_UNSUPPORTED_EXTENSION;; mret None
            else
              match found, thisex with
              | None, _ => collect_loop c fuel ctx meths pkt (Z.of_nat (length (known ctx meths seen))) raw
              | Some _, None => stuck OutOfBounds
              | Some j, Some e =>
                  collect_loop c fuel ctx meths pkt (Z.of_nat (length (known ctx meths seen)) + 1)
                    (<[j := mk_raw sub true (parsed e) t (Z.of_nat (length (known ctx meths seen)))]> raw)
              end
      end)
    (collected ctx meths seen (enc_ext (t, view sub) ++ view pkt) s) s.
Proof.
  intros IH Ws Wp F Hnull ND H. pose proof (view_length pkt Wp) as Lv.
  assert (R : forall al, al ∈ [SSL_AD_DECODE_ERROR; SSL_AD_ILLEGAL_PARAMETER; SSL_AD_UNSUPPORTED_EXTENSION] ->
    (~ exists l, message ctx meths (extflags s) seen (enc_ext (t, view sub) ++ view pkt) l) ->
    wp (SSLfatal_ntls al;; mret None) (collected ctx meths seen (enc_ext (t, view sub) ++ view pkt) s) s).
  { intros al Hal Hno. esteps. split; [now apply reject | exact Hno]. }
  destruct (verify_extension c ctx t meths) as [found |] eqn:V.
  2:{ apply R; [in_list |]. rewrite message_cons by assumption. cbn [fst]. rewrite V.
      intros (l & _ & (o & ? & _) & _). easy. }
  assert (St : slot ctx meths t = found) by (unfold slot; now rewrite V).
  cbv zeta.
  destruct (match (j ← found; raw !! j) with Some e => present e | None => false end) eqn:Dup;
    [rewrite orb_true_l | rewrite orb_false_l].
  { apply R; [in_list |]. rewrite message_cons by assumption. cbn [fst].
    intros (l & _ & (o & Eo & Ho) & _). rewrite V in Eo. injection Eo as <-.
    destruct found as [j |]; cbn in Dup; [| easy]. destruct (raw !! j) as [e |] eqn:Ej; [| easy].
    destruct (Ho j eq_refl) as [Hj _]. apply Hj. now apply (holds_present ctx meths seen raw j e). }
  destruct ((t =? TLSEXT_TYPE_psk) && flag ctx SSL_EXT_CLIENT_HELLO && negb (PACKET_remaining pkt =? 0)) eqn:P.
  { apply R; [in_list |]. rewrite message_cons by assumption. cbn [fst].
    apply andb_true_iff in P as [P Hr]. apply andb_true_iff in P as [Ht Hc]. apply Z.eqb_eq in Ht as ->.
    intros (l & (E & _ & _) & _ & Hp). rewrite (Hp Hc eq_refl) in E. cbn in E. rewrite E in Lv. cbn in Lv.
    unfold PACKET_remaining in Hr. rewrite <- Lv in Hr. easy. }
  esteps.
  assert (Hu : unsolicited c ctx t (match found with Some j => Z.of_nat j | None => null_idx c end) (extflags s)
               = match found with Some j => unsolicited c ctx t (Z.of_nat j) (extflags s) | None => false end).
  { destruct found; [reflexivity |]. unfold unsolicited. now rewrite (proj2 (Z.ltb_ge _ _)). }
  rewrite Hu. clear Hu. set (u := match found with Some j => unsolicited c ctx t (Z.of_nat j) (extflags s) | None => false end).
  destruct u eqn:U; subst u.
  { apply R; [in_list |]. rewrite message_cons by assumption. cbn [fst].
    intros (l & _ & (o & Eo & Ho) & _). rewrite V in Eo. injection Eo as <-.
    destruct found as [j |]; [| easy]. destruct (Ho j eq_refl). congruence. }
  (* the extension is taken *)
  assert (Hm : forall l, message ctx meths (extflags s) (seen ++ [(t, view sub)]) (view pkt) l ->
            message ctx meths (extflags s) seen (enc_ext (t, view sub) ++ view pkt) ((t, view sub) :: l)).
  { intros l (E & Fl & Al). split; [now rewrite E |]. split; [now constructor |]. apply acceptable_cons.
    split; [| split; [| assumption]]; cbn [fst].
    - exists found. split; [assumption |]. intros j ->. split; [| exact U]. cbn in Dup.
      destruct (raw !! j) as [e |] eqn:Ej.
      + rewrite <- (holds_present ctx meths seen raw j e H Ej). congruence.
      + apply slot_range in St. destruct H as [Ln _]. apply lookup_ge_None in Ej. lia.
    - intros Hc ->. rewrite Hc in P. cbn in P. apply negb_false_iff, Z.eqb_eq in P.
      unfold PACKET_remaining in P. destruct l as [| e l]; [reflexivity |]. exfalso.
      rewrite enc_exts_cons in E. apply (f_equal length) in E. unfold enc_ext in E.
      rewrite !length_app, !be_bytes_length in E. lia. }
  assert (Hn : (~ exists l, message ctx meths (extflags s) (seen ++ [(t, view sub)]) (view pkt) l) ->
            ~ exists l, message ctx meths (extflags s) seen (enc_ext (t, view sub) ++ view pkt) l).
  { intros Hn. rewrite message_cons by assumption. intros (l & Hl & _). eauto. }
  assert (Post : forall seen' raw', seen' = seen ++ [(t, view sub)] -> holds ctx meths seen' raw' ->
            NoDup (slots ctx meths seen') ->
            wp (collect_loop c fuel ctx meths pkt (Z.of_nat (length (known ctx meths seen'))) raw')
              (collected ctx meths seen (enc_ext (t, view sub) ++ view pkt) s) s).
  { intros seen' raw' -> H' ND'. eapply wp_mono; [exact (IH _ _ ND' H') |]. intros [raw'' |] s'.
    - intros [-> (l & Hl & Hh)]. split; [reflexivity |]. exists ((t, view sub) :: l). split; [auto |].
      now rewrite <- app_assoc in Hh.
    - intros [Rj No]. split; [assumption | auto]. }
  assert (Hs : slots ctx meths (seen ++ [(t, view sub)])
               = slots ctx meths seen ++ match found with Some j => [j] | None => [] end).
  { rewrite slots_app. f_equal. unfold slots. cbn. rewrite St. now destruct found. }
  assert (Hk : length (known ctx meths (seen ++ [(t, view sub)]))
               = (length (known ctx meths seen) + match found with Some _ => 1 | None => 0 end)%nat).
  { rewrite known_app, length_app. f_equal. unfold known. destruct found as [j |].
    - now rewrite filter_cons_True by (cbn; rewrite St; eauto).
    - now rewrite filter_cons_False by (cbn; rewrite St; apply is_Some_None). }
  destruct found as [j |].
  - destruct (raw !! j) as [e |] eqn:Ej.
    2:{ apply slot_range in St. destruct H as [Ln _]. apply lookup_ge_None in Ej. lia. }
    cbn in Dup |- *. rewrite Ej in Dup |- *.
    specialize (Post _ _ eq_refl (holds_insert ctx meths seen raw t _ j e sub H Ej Dup St Ws eq_refl)).
    rewrite Hk, Nat2Z.inj_add in Post. apply Post. rewrite Hs. apply NoDup_app. split; [assumption |].
    split; [| apply NoDup_singleton]. intros j' Hj'. rewrite list_elem_of_singleton. intros ->.
    apply (holds_present ctx meths seen raw j e H Ej) in Hj'. congruence.
  - specialize (Post _ _ eq_refl (holds_unknown ctx meths seen raw t (view sub) H St)).
    rewrite Hk, Nat.add_0_r in Post. apply Post. now rewrite Hs, app_nil_r.
Qed.

Lemma collect_loop_ok fuel ctx meths pkt seen raw s :
  packet_wf pkt -> (length (view pkt) <= fuel)%nat -> Z.of_nat (builtin_num c) <= null_idx c ->
  NoDup (slots ctx meths seen) -> holds ctx meths seen raw ->
  wp (collect_loop c fuel ctx meths pkt (Z.of_nat (length (known ctx meths seen))) raw)
    (collected ctx meths seen (view pkt) s) s.
Proof.
  intros W Hf Hnull. revert pkt seen raw W Hf.
  assert (Base : forall pkt seen raw, view pkt = [] -> NoDup (slots ctx meths seen) -> holds ctx meths seen raw ->
            collected ctx meths seen (view pkt) s (Some raw) s).
  { intros pkt seen raw Ev ND H. rewrite Ev. split; [reflexivity |]. exists []. rewrite app_nil_r.
    split; [| assumption]. split; [reflexivity |]. split; [constructor |].
    split; [constructor | constructor | now rewrite app_nil_r | intros _ [| ? ?]; easy]. }
  induction fuel as [| fuel IH]; intros pkt seen raw W Hf ND H; cbn [collect_loop];
    pose proof (view_length pkt W) as Lv; change (PACKET_remaining pkt) with (remaining pkt);
    (destruct (Z.leb_spec (remaining pkt) 0) as [Hr | Hr];
     [apply wp_ret, Base; [apply nil_length_inv; lia | assumption | assumption] |]); [lia |].
  assert (Hne : view pkt <> []) by (intros E; rewrite E in Lv; cbn in Lv; lia).
  assert (R : forall s', s' = s -> (forall t d rest, fits (t, d) -> view pkt <> enc_ext (t, d) ++ rest) ->
    wp (SSLfatal_ntls SSL_AD_DECODE_ERROR;; mret None) (collected ctx meths seen (view pkt) s) s').
  { intros s' -> Hno. esteps. split; [apply reject; in_list | now apply no_message]. }
  apply wp_bind, (wp_read_inv 2 PACKET_get_net_2 _ _ _ simulates_2 W).
  { intros Hl. apply R; [reflexivity |]. intros t d rest _ E. apply (f_equal length) in E.
    unfold enc_ext in E. rewrite !length_app, !be_bytes_length in E. lia. }
  intros t p Wp Bp Ht Ev. apply wp_bind, (wp_vec_inv 2 false PACKET_get_net_2 _ _ _ simulates_2); [lia | easy | |].
  { intros Hno. apply R; [reflexivity |]. intros t' d rest (Ht' & Hd & _) E. cbn [fst snd] in *.
    unfold enc_ext in E. cbn [fst snd] in E. rewrite Ev, <- app_assoc in E.
    apply app_inj_1 in E as [_ E]; [| now rewrite !be_bytes_length]. now apply (Hno d rest). }
  intros sub p' Ws Wp' _ _ Ls _ Ev'.
  replace (view pkt) with (enc_ext (t, view sub) ++ view p')
    by (rewrite Ev, Ev'; unfold enc_ext; cbn [fst snd]; now rewrite <- !app_assoc).
  apply collect_one; auto.
  - intros seen' raw' ND' H'. apply IH; auto. apply (f_equal length) in Ev, Ev'.
    rewrite length_app, be_bytes_length in Ev. rewrite !length_app in Ev'. lia.
  - split; [exact Ht |]. split; [exact Ls |]. now apply view_bytes.
Qed.

(** An empty table *)
Lemma holds_nil ctx meths : holds ctx meths [] (repeat raw_zero (builtin_num c + length meths)).
Proof.
  split; [now rewrite repeat_length |]. intros j e E. apply list_elem_of_lookup_2 in E.
  apply list_elem_of_In, repeat_spec in E as ->. cbn. split; [reflexivity |]. unfold slots. cbn. apply not_elem_of_nil.
Qed.

(** ** The rules and the functions of the code *)

Lemma slot_entry ctx meths t j :
  slot ctx meths t = Some j <-> exists x, entry_of c ctx meths t j x /\ allowed c x ctx.
Proof.
  unfold slot. pose proof (verify_extension_entry c ctx meths t) as V.
  destruct (verify_extension c ctx t meths) as [[i |] |].
  - split; [intros [= <-]; exact V |]. intros (x & E & _). destruct V as (x' & E' & _).
    now destruct (entry_unique c _ _ _ _ _ _ _ E E') as [-> _].
  - split; [easy |]. intros (x & E & _). now apply V in E.
  - split; [easy |]. intros (x & E & Hx). destruct V as (i & x' & E' & Hx').
    destruct (entry_unique c _ _ _ _ _ _ _ E E') as [_ ->]. now apply Hx' in Hx.
Qed.

Lemma verify_allowed ctx meths t :
  verify_extension c ctx t meths <> None <-> forall j x, entry_of c ctx meths t j x -> allowed c x ctx.
Proof.
  pose proof (verify_extension_entry c ctx meths t) as V.
  destruct (verify_extension c ctx t meths) as [[i |] |].
  - split; [| easy]. intros _ j x E. destruct V as (x' & E' & Hx).
    now destruct (entry_unique c _ _ _ _ _ _ _ E E') as [_ ->].
  - split; [| easy]. intros _ j x E. now apply V in E.
  - split; [easy |]. intros H. destruct V as (j & x & E & Hx). now apply H in E.
Qed.

(** All extensions with an entry are allowed. *)
Definition all_allowed ctx meths l : Prop :=
  Forall (fun e => forall j x, entry_of c ctx meths (fst e) j x -> allowed c x ctx) l.

Lemma kept_known ctx meths l ks : all_allowed ctx meths l -> kept c ctx meths l ks <-> ks = known ctx meths l.
Proof.
  unfold known. intros H. revert ks. induction H as [| e l He Hl IH]; intros ks.
  { split; [now inversion 1 | intros ->; constructor]. }
  destruct (slot ctx meths (fst e)) as [j |] eqn:S.
  - rewrite filter_cons_True by (rewrite S; eauto). apply slot_entry in S as (x & E & _).
    split; [inversion 1; subst; [| exfalso; match goal with N : forall _ _, ~ _ |- _ => exact (N _ _ E) end] | intros ->; econstructor; [exact E | now apply IH]].
    f_equal. now apply IH.
  - rewrite filter_cons_False by (rewrite S; apply is_Some_None).
    assert (N : forall j x, ~ entry_of c ctx meths (fst e) j x).
    { intros j x E. assert (slot ctx meths (fst e) = Some j) by (apply slot_entry; eauto). congruence. }
    split; [inversion 1; subst; [exfalso; eapply N; eassumption | now apply IH] |].
    intros ->. apply kept_no; [exact N | now apply IH].
Qed.

Lemma slots_known ctx meths l : slots ctx meths l = slots ctx meths (known ctx meths l).
Proof.
  unfold slots, known. induction l as [| e l IH]; [reflexivity |]. cbn [omap list_omap].
  destruct (slot ctx meths (fst e)) as [j |] eqn:S.
  - rewrite filter_cons_True by (rewrite S; eauto). cbn [omap list_omap]. now rewrite S, IH.
  - rewrite filter_cons_False by (rewrite S; apply is_Some_None). exact IH.
Qed.

Lemma slots_types ctx meths ks :
  Forall (fun e => is_Some (slot ctx meths (fst e))) ks -> NoDup (slots ctx meths ks) <-> NoDup ks.*1.
Proof.
  induction 1 as [| e ks [j S] Hks IH]; [now split; intros; constructor |].
  unfold slots at 1. cbn [omap list_omap]. rewrite S. fold (slots ctx meths ks).
  cbn [fmap list_fmap]. rewrite !NoDup_cons, IH.
  assert (E : j ∈ slots ctx meths ks <-> fst e ∈ ks.*1); [| tauto].
  split.
  - intros (e' & He' & S')%list_elem_of_omap. rewrite (slot_type ctx meths _ _ _ S S').
    now apply list_elem_of_fmap_2.
  - intros ([t d] & E & He')%list_elem_of_fmap. cbn in E. subst t. apply (slots_lookup ctx meths ks (fst e) d); assumption.
Qed.

Lemma lawful_acceptable ctx meths flags l :
  acceptable ctx meths flags [] l <-> lawful c ctx meths flags l.
Proof.
  assert (Al : Forall (fun e => verify_extension c ctx (fst e) meths <> None) l <-> all_allowed ctx meths l)
    by (unfold all_allowed; split; intros H; apply (Forall_impl _ _ _ H); intros e; apply verify_allowed).
  assert (Un : all_allowed ctx meths l ->
            NoDup (slots ctx meths l) <-> forall ks, kept c ctx meths l ks -> NoDup ks.*1).
  { intros H. rewrite slots_known, slots_types.
    - split; [intros N ks ->%kept_known; assumption | intros N; now apply N, kept_known].
    - apply Forall_forall. intros e [He _]%list_elem_of_filter. exact He. }
  assert (As : all_allowed ctx meths l ->
    Forall (fun e => forall j, slot ctx meths (fst e) = Some j -> unsolicited c ctx (fst e) (Z.of_nat j) flags = false) l
    <-> Forall (fun e => forall j x, entry_of c ctx meths (fst e) j x -> (j < builtin_num c)%nat ->
                         asked ctx (fst e) (nth j flags 0)) l).
  { intros H. unfold all_allowed in H. rewrite Forall_forall in H. rewrite !Forall_forall. split; intros U e He.
    - intros j x E. apply unsolicited_asked, U; [assumption |]. apply slot_entry. exists x. split; [assumption |].
      now apply (H e He j).
    - intros j (x & E & _)%slot_entry. apply unsolicited_asked. now apply (U e He j x). }
  split.
  - intros [H1 H2 H3 H4]. apply Al in H1. split; [exact H1 | now apply As | now apply Un |].
    intros Hc. now apply H4, flag_meet.
  - intros [H1 H2 H3 H4]. split; [now apply Al | now apply As | now apply Un |].
    intros Hc. now apply H4, flag_meet.
Qed.

Lemma message_extensions ctx meths flags b l :
  message ctx meths flags [] b l <-> extensions_of c ctx meths flags b l.
Proof. unfold message, extensions_of. now rewrite lawful_acceptable. Qed.

Lemma holds_tabled ctx meths l raw : all_allowed ctx meths l -> holds ctx meths l raw <-> tabled c ctx meths l raw.
Proof.
  intros Ha. pose proof Ha as Hall. unfold all_allowed in Hall. rewrite Forall_forall in Hall.
  assert (En : forall e j, e ∈ l -> slot ctx meths (fst e) = Some j <-> exists x, entry_of c ctx meths (fst e) j x).
  { intros e j He. rewrite slot_entry. split; [intros (x & E & _); eauto |]. intros (x & E). exists x.
    split; [assumption | now apply (Hall e He j)]. }
  unfold holds, tabled. split; (intros [Ln H]; split; [exact Ln |]; intros j e E; specialize (H j e E);
    destruct (present e)).
  - destruct H as (Hp & W & S & k & Hk & Hl). split; [exact Hp |]. split; [exact W |].
    split; [apply slot_entry in S as (x & ? & _); eauto |]. exists k, (known ctx meths l).
    split; [exact Hk |]. split; [now apply kept_known | exact Hl].
  - destruct H as [Hz Hn]. split; [exact Hz |]. intros e' x He' E'. apply Hn, list_elem_of_omap. exists e'.
    split; [assumption |]. apply En; eauto.
  - destruct H as (Hp & W & S & k & ks & Hk & ->%kept_known & Hl); [| assumption].
    split; [exact Hp |]. split; [exact W |]. split; [| eauto].
    apply list_elem_of_lookup_2, list_elem_of_filter in Hl as [_ Hl]. now apply (En _ j) in Hl as ->.
  - destruct H as [Hz Hn]. split; [exact Hz |]. intros (e' & He' & S)%list_elem_of_omap.
    apply En in S as [x Ex]; [| assumption]. now apply (Hn e' x).
Qed.

(** ** The initialisers *)

(** A loop whose turns all succeed and keep to a relation *)
Lemma wp_each {B} (f : B -> prog essl bool) (l : list B) (R : essl -> essl -> Prop) s :
  (forall s, R s s) -> (forall s1 s2 s3, R s1 s2 -> R s2 s3 -> R s1 s3) ->
  Forall (fun b => forall s, wp (f b) (fun ok s' => ok = true /\ R s s') s) l ->
  wp (each f l) (fun ok s' => ok = true /\ R s s') s.
Proof.
  intros Rr Rt H. revert s. induction H as [| b l Hb H IH]; intros s; cbn [each]; [esteps; auto |].
  esteps. eapply wp_mono; [apply Hb |]. intros ok s' [-> H1]. cbn [negb].
  eapply wp_mono; [apply IH |]. intros ok' s'' [-> H2]. eauto.
Qed.

(** What an initialiser leaves alone *)
Definition inits_keep (s s' : essl) : Prop :=
  custext s' = custext s /\ extflags s' = extflags s /\ e_fatal s' = e_fatal s.

#[local] Instance inits_keep_preorder : PreOrder inits_keep.
Proof.
  split; [easy |]. intros s1 s2 s3 (? & ? & ?) (? & ? & ?). unfold inits_keep. repeat split; congruence.
Qed.

Lemma wp_run_inits ctx :
  Forall (fun d => forall s, wp (run_init c ctx d) (fun ok s' => ok = true /\ inits_keep s s') s) (ext_defs c).
Proof.
  repeat apply Forall_cons_2; [.. | apply Forall_nil_2]; intros s; unfold run_init; cbn [def_init INVALID_EXTENSION];
    try (apply wp_ret; easy); (destruct (_ && _); [| apply wp_ret; easy]).
  all: unfold init_server_name, init_session_ticket, init_status_request, init_npn, init_alpn, init_sig_algs,
         init_sig_algs_cert, init_ec_point_formats, init_etm, init_ems, init_srtp.
  all: repeat (estep || case_match); easy.
Qed.

(** What the message and the table are when the extensions have been collected *)
Definition collected_all ctx b s (r : option (list RAW_EXTENSION)) s' : Prop :=
  let meths := if flag ctx SSL_EXT_CLIENT_HELLO then custom_ext_init_ntls (custext s) else custext s in
  match r with
  | Some raw => exists l, extensions_of c ctx meths (extflags s) b l /\ tabled c ctx meths l raw
                          /\ e_fatal s' = e_fatal s /\ custext s' = meths
  | None => (~ exists l, extensions_of c ctx meths (extflags s) b l) /\ e_fatal s' <> None
  end.

Lemma wp_collect_extensions packet ctx init s :
  packet_wf packet -> ext_ok C_raw_zalloc = true -> Z.of_nat (builtin_num c) <= null_idx c ->
  wp (tls_collect_extensions_ntls c packet ctx init) (collected_all ctx (view packet) s) s.
Proof.
  intros W Hz Hnull. unfold collected_all. set (meths := if flag ctx _ then _ else _).
  unfold tls_collect_extensions_ntls. apply wp_bind.
  apply (wp_mono _ (fun _ s' => s' = s <| custext := meths |>)).
  { subst meths. destruct (flag ctx _); esteps; [reflexivity | now destruct s]. }
  intros _ s0 ->. esteps. ered. rewrite Hz. cbn [negb].
  apply wp_bind. eapply wp_mono.
  { apply (collect_loop_ok _ ctx meths packet []); [assumption | | assumption | constructor | apply holds_nil].
    pose proof (view_length _ W). unfold PACKET_remaining. lia. }
  intros [raw |] s'; unfold collected; ered.
  - intros [-> (l & Hl & Hh)]. cbn [app] in Hh. apply message_extensions in Hl.
    apply holds_tabled in Hh; [| apply Hl].
    destruct init; [| esteps; exists l; now ered].
    apply wp_bind. eapply wp_mono.
    + apply (wp_each _ _ inits_keep); [apply inits_keep_preorder | apply inits_keep_preorder | apply wp_run_inits].
    + intros ok s' [-> (H1 & H2 & H3)]. cbn [negb]. esteps. exists l. now rewrite H1, H3.
  - intros [(al & _ & ->) No]. esteps. split; [intros [l Hl]; apply No; exists l; now apply message_extensions |]. unfold alert. ered.
    destruct (e_fatal s); easy.
Qed.

(** C9: The extensions of a message are collected if and only if its bytes are a
    sequence of extensions, each a type, a length of two bytes and that many bytes,
    that keeps the rules: an extension whose type has an entry - the first built-in
    extension of the type, or else the first custom one for the reader of the message
    - is defined for this message and for the transport; a built-in one in an answer
    was sent before or is exempt; no type with an entry comes twice; and nothing
    follows a PSK extension of a ClientHello.  The table then has the data and the
    position of each extension in its entry and nothing else, and no alert was
    raised; otherwise the handshake fails with an alert.  No message makes the loop
    read outside the buffer or run for ever. *)
Theorem tls_collect_extensions_ok packet ctx init s :
  packet_wf packet -> ext_ok C_raw_zalloc = true -> Z.of_nat (builtin_num c) <= null_idx c ->
  let meths := if flag ctx SSL_EXT_CLIENT_HELLO then custom_ext_init_ntls (custext s) else custext s in
  exists r s', tls_collect_extensions_ntls c packet ctx init s = Val (r, s')
    /\ match r with
       | Some raw => exists l, extensions_of c ctx meths (extflags s) (view packet) l /\ tabled c ctx meths l raw
                               /\ e_fatal s' = e_fatal s /\ custext s' = meths
       | None => (~ exists l, extensions_of c ctx meths (extflags s) (view packet) l) /\ e_fatal s' <> None
       end.
Proof. intros W Hz Hnull meths. apply wp_run. now apply wp_collect_extensions. Qed.

End Collect.

(** ** In the concrete setting *)

#[local] Instance collect_lib : ExtLib := hello_lib [].
#[local] Instance collect_callbacks : Callbacks := hello_callbacks [].
#[local] Instance collect_alloc : Alloc := hello_alloc.

Lemma tls_collect_extensions_ok_witness :
  exists raw s', tls_collect_extensions_ntls (hello_conf true) hello_exts_packet SSL_EXT_CLIENT_HELLO true
                   (hello_ssl [] None 0 None []) = Val (Some raw, s')
    /\ exists l, extensions_of (hello_conf true) SSL_EXT_CLIENT_HELLO [] (repeat 0 30) hello_exts_bytes l
                 /\ tabled (hello_conf true) SSL_EXT_CLIENT_HELLO [] l raw /\ e_fatal s' = None.
Proof.
  destruct (tls_collect_extensions_ok (hello_conf true) hello_exts_packet SSL_EXT_CLIENT_HELLO true
              (hello_ssl [] None 0 None []) hello_exts_packet_wf eq_refl ltac:(vm_compute; discriminate))
    as ([raw |] & s' & E & H);
    [| apply (f_equal (fun r => match r with Val (Some _, _) => true | _ => false end)) in E; vm_compute in E; discriminate].
  exists raw, s'. split; [exact E |]. destruct H as (l & Hm & Hh & Hf & _). exists l. exact (conj Hm (conj Hh Hf)).
Defined.
