(* ===== verification/ExtSafe.v ===== *)
(** * NTLS hello extensions: parsing is safe

    The parsers, on any bytes: they read inside the extension only, terminate,
    and a failure raises an alert.  An extension is parsed once. *)

From S2P Require Import Prelude Buffers CMem Packet PacketSpec Wpacket WpacketSpec PacketRules ExtTypes ExtToy ExtCust ExtClient ExtServer ExtTable ExtCollect.

Section Safe.
Context {L : ExtLib} {K : Callbacks} {A : Alloc} (c : econf).

(** ** The custom extensions *)

(** The type of an entry: the wrappers of the old interface have their structures *)
Definition method_wf (m : custom_ext_method) : Prop :=
  (add_cb m = Some OldCbWrap -> exists a f g, add_arg m = custom_ext_add_cb_wrap a f g)
  /\ (free_cb m = Some OldCbWrap -> exists a f g, add_arg m = custom_ext_add_cb_wrap a f g)
  /\ (parse_cb m = Some OldCbWrap -> exists a f, parse_arg m = custom_ext_parse_cb_wrap a f).

(** What the messages leave alone of the entries *)
Definition erase (m : custom_ext_method) : custom_ext_method := m <| ext_flags := 0 |>.

Lemma erase_wf m : method_wf (erase m) <-> method_wf m.
Proof. reflexivity. Qed.

Lemma erased_wf l l' : map erase l = map erase l' -> Forall method_wf l -> Forall method_wf l'.
Proof.
  revert l'. induction l as [| m l IH]; intros [| m' l'] E H; try easy.
  apply Forall_cons in H as [Hm H]. cbn [map] in E. apply (f_equal tail) in E as E2. cbn [tail] in E2.
  apply (f_equal head) in E. cbn [head] in E. apply (inj Some) in E. constructor; [| auto].
  apply (proj1 (erase_wf m')). rewrite <- E. exact (proj2 (erase_wf m) Hm).
Qed.

(** ** Steps that keep the connection sound *)

Definition sound (s : essl) : Prop := Forall method_wf (custext s).

(** An alert stays, and of the custom extensions only flags change. *)
Definition keeps (s s' : essl) : Prop :=
  map erase (custext s') = map erase (custext s) /\ (e_fatal s <> None -> e_fatal s' <> None).

#[export] Instance keeps_preorder : PreOrder keeps.
Proof.
  split; [now split |]. intros s1 s2 s3 [E1 F1] [E2 F2]. split; [congruence | auto].
Qed.

Lemma keeps_sound s s' : keeps s s' -> sound s -> sound s'.
Proof. intros [E _]. now apply erased_wf. Qed.

(** The result of a step that started in [s]: a failure has raised an alert. *)
Definition safely (s : essl) (ok : bool) (s' : essl) : Prop :=
  keeps s s' /\ (ok = false -> e_fatal s' <> None).

Lemma alert_set al s : e_fatal (alert al s) <> None.
Proof. unfold alert. ered. now destruct (e_fatal s). Qed.

Lemma keeps_alert al s : keeps s (alert al s).
Proof. split; [reflexivity | intros _; apply alert_set]. Qed.

Lemma safely_alert al s s' : keeps s s' -> safely s false (alert al s').
Proof. intros H. split; [etransitivity; [exact H | apply keeps_alert] | intros _; apply alert_set]. Qed.

End Safe.

(** Fields other than [custext] and [e_fatal] do not matter. *)
Ltac keeps_tac := split; ered; [assumption || reflexivity | auto].

(** A read of a packet, whatever it holds *)
Ltac rstep :=
  lazymatch goal with
  | |- wp (reads (PACKET_get_1 _)) _ _ =>
      apply (wp_read_any 1 PACKET_get_1 _ _ _ simulates_1); [assumption | | intros ? ? ? ?]
  | |- wp (reads (PACKET_get_net_2 _)) _ _ =>
      apply (wp_read_any 2 PACKET_get_net_2 _ _ _ simulates_2); [assumption | | intros ? ? ? ?]
  | |- wp (reads (PACKET_get_1_len _)) _ _ =>
      apply (wp_read_any 1 PACKET_get_1 _ _ _ simulates_1); [assumption | | intros ? ? ? ?]
  | |- wp (reads (PACKET_get_net_2_len _)) _ _ =>
      apply (wp_read_any 2 PACKET_get_net_2 _ _ _ simulates_2); [assumption | | intros ? ? ? ?]
  | |- wp (reads (PACKET_get_length_prefixed_2 _)) _ _ =>
      apply (wp_vec_any 2 PACKET_get_net_2 _ _ _ simulates_2); [assumption | | intros ? ? ? ?]
  | |- wp (reads (PACKET_as_length_prefixed_2 _)) _ _ =>
      apply (wp_vec_inv 2 true PACKET_get_net_2 _ _ _ simulates_2);
        [apply le_S, le_n | assumption | intros _ | intros ? ? ? ? _ _ _ _ _]
  end.
Ltac safe :=
  repeat (estep || rstep || case_match);
  try (apply safely_alert; keeps_tac); try (split; [keeps_tac | easy]).


Section Parsers.
Context {L : ExtLib} {K : Callbacks} {A : Alloc} (c : econf).
Implicit Types s : essl.

(** ** The application's parsers *)

Lemma erase_alter f i l :
  (forall m, erase (f m) = erase m) -> map erase (alter f i l) = map erase l.
Proof.
  intros H. revert i. induction l as [| m l IH]; intros [| i]; cbn; try reflexivity; [now rewrite H |].
  f_equal. apply IH.
Qed.

Lemma keeps_flag i f s :
  keeps s (s <| custext := alter (fun m => m <| ext_flags := Z.lor (ext_flags m) f |>) i (custext s) |>).
Proof. split; ered; [now apply erase_alter | auto]. Qed.

Lemma custom_parse_safe ctx t data x ci s :
  sound s -> wp (custom_ext_parse_ntls c ctx t data x ci) (safely s) s.
Proof.
  intros S. unfold custom_ext_parse_ntls. esteps.
  destruct (custom_ext_find_ntls _ _ _) as [[i m] |] eqn:F; [| safe].
  apply custom_find_spec in F as (_ & Ei & _).
  assert (Wm : method_wf m) by (apply (proj1 (Forall_lookup _ _) S _ _ Ei)).
  destruct (negb _); [safe |]. destruct (_ && _); [safe |]. apply wp_bind.
  apply (wp_mono _ (fun _ => keeps s)).
  { destruct (flag _ _); esteps; [apply keeps_flag | reflexivity]. }
  intros _ s1 K1. destruct (parse_cb m) as [f |] eqn:Ef; [| esteps; split; [assumption | easy]].
  apply wp_bind, (wp_mono _ (fun _ => keeps s)).
  - destruct f as [f |]; cbn [call_parse_cb].
    + esteps. destruct K1. now split.
    + destruct Wm as (_ & _ & Hp). destruct (Hp Ef) as (a & [g |] & ->);
        unfold custom_ext_parse_ntls_old_cb_wrap; esteps; [destruct K1; now split | assumption].
  - intros [r al] s2 K2. destruct (r <=? 0); esteps; [now apply safely_alert | split; [assumption | easy]].
Qed.

(** ** The client's parsers *)

Lemma stoc_mfl_safe pkt ctx x ci s :
  packet_wf pkt -> wp (tls_parse_stoc_maxfragmentlen_ntls pkt ctx x ci) (safely s) s.
Proof. intros W. unfold tls_parse_stoc_maxfragmentlen_ntls, single_byte. safe. Qed.

Lemma stoc_sni_safe pkt ctx x ci s :
  packet_wf pkt -> wp (tls_parse_stoc_server_name_ntls c pkt ctx x ci) (safely s) s.
Proof. intros W. unfold tls_parse_stoc_server_name_ntls. safe. Qed.

Lemma stoc_ticket_safe pkt ctx x ci s :
  packet_wf pkt -> wp (tls_parse_stoc_session_ticket_ntls c pkt ctx x ci) (safely s) s.
Proof. intros W. unfold tls_parse_stoc_session_ticket_ntls, session_ticket_ok. safe. Qed.

Lemma stoc_status_safe pkt ctx x ci s :
  packet_wf pkt -> wp (tls_parse_stoc_status_request_ntls pkt ctx x ci) (safely s) s.
Proof. intros W. unfold tls_parse_stoc_status_request_ntls. safe. Qed.

Lemma stoc_sct_safe pkt ctx x ci s :
  packet_wf pkt -> sound s -> wp (tls_parse_stoc_sct_ntls c pkt ctx x ci) (safely s) s.
Proof.
  intros W S. unfold tls_parse_stoc_sct_ntls.
  destruct (ctx =? _); [safe |]. destruct (ct_validation_callback c); [safe |].
  esteps. destruct (custom_ext_find_ntls _ _ _); [| safe]. esteps. now apply custom_parse_safe.
Qed.

(** Every turn of a loop over vectors takes a byte at least. *)
Lemma wp_vec_shorter n get pkt (Q : _ -> essl -> Prop) s :
  (forall p, packet_wf p -> simulates eq p (get p) (read_be n (view p))) -> (1 <= n)%nat -> packet_wf pkt ->
  Q None s ->
  (forall sub p, packet_wf sub -> packet_wf p -> (length (view p) < length (view pkt))%nat -> Q (Some (sub, p)) s) ->
  wp (reads (length_prefixed get false pkt)) Q s.
Proof.
  intros G Hn W HN HY. apply (wp_vec_inv n false get _ _ _ G Hn W); [auto |].
  intros sub p Ws Wp _ _ _ _ E. apply HY; auto. rewrite E, !length_app, be_bytes_length. lia.
Qed.

(** A pure computation that gives a value for each packet *)
Lemma reads_bind {B B'} (r : res B) (k : B -> res B') (Q : B' -> essl -> Prop) s :
  wp (reads r) (fun b => wp (reads (k b)) Q) s -> wp (reads (r ≫= k)) Q s.
Proof. unfold wp, reads. now destruct r. Qed.

Lemma validate_protos_total fuel pkt (Q : bool -> essl -> Prop) s :
  packet_wf pkt -> (length (view pkt) <= fuel)%nat -> (forall b, Q b s) -> wp (reads (validate_protos fuel pkt)) Q s.
Proof.
  intros W Hf HQ. revert pkt W Hf. induction fuel as [| fuel IH]; intros pkt W Hf; cbn [validate_protos];
    pose proof (view_length pkt W) as Lv; change (PACKET_remaining pkt) with (remaining pkt);
    (destruct (Z.eqb_spec (remaining pkt) 0); [exact (HQ true) |]); [lia |].
  apply reads_bind, (wp_vec_shorter 1 PACKET_get_1 _ _ _ simulates_1 (le_n 1) W); [exact (HQ false) |].
  intros sub p Ws Wp Hl. destruct (_ =? 0); [exact (HQ false) |]. apply IH; [assumption | lia].
Qed.

Lemma npn_validate_safe pkt s : packet_wf pkt -> wp (ssl_next_proto_validate pkt) (safely s) s.
Proof.
  intros W. unfold ssl_next_proto_validate. apply wp_bind, validate_protos_total; [assumption | |].
  - pose proof (view_length pkt W). unfold PACKET_remaining. lia.
  - intros []; safe.
Qed.

Lemma stoc_npn_safe pkt ctx x ci s :
  packet_wf pkt -> wp (tls_parse_stoc_npn_ntls c pkt ctx x ci) (safely s) s.
Proof.
  intros W. unfold tls_parse_stoc_npn_ntls. destruct (negb _); [safe |]. destruct (npn_select_cb c); [| safe].
  apply wp_bind. eapply wp_mono; [now apply npn_validate_safe |]. intros ok s1 [[E1 F1] H1].
  destruct ok; cbn [negb]; [safe | esteps; split; [now split | auto]].
Qed.

Lemma find_proto_total fuel conf sel (Q : bool -> essl -> Prop) s :
  packet_wf conf -> (length (view conf) < fuel)%nat -> (forall b, Q b s) -> wp (reads (find_proto fuel conf sel)) Q s.
Proof.
  intros W Hf HQ. revert conf W Hf. induction fuel as [| fuel IH]; intros conf W Hf; cbn [find_proto]; [lia |].
  apply reads_bind, (wp_vec_shorter 1 PACKET_get_1 _ _ _ simulates_1 (le_n 1) W); [exact (HQ false) |].
  intros sub p Ws Wp Hl. unfold PACKET_remaining. destruct (Z.eqb_spec (remaining sub) (Z.of_nat (length sel))); cbn [negb].
  - apply reads_bind. unfold PACKET_data. rewrite bytes_at_view by (assumption || lia).
    eapply wp_reads; [reflexivity |]. cbv beta. destruct (bool_decide _); [exact (HQ true) | apply IH; [assumption | lia]].
  - apply IH; [assumption | lia].
Qed.

(** The packet over all of a buffer *)
Lemma buf_init_wf l :
  bytes l -> Z.of_nat (length l) <= SIZE_MAX / 2 ->
  exists p, PACKET_buf_init l 0 (Z.of_nat (length l)) = Some p /\ packet_wf p /\ view p = l.
Proof.
  intros B Hl. unfold PACKET_buf_init. rewrite (proj2 (Z.ltb_ge _ _)) by assumption. eexists. split; [reflexivity |].
  assert (E : view (mk_packet l 0 (Z.of_nat (length l))) = l)
    by (unfold view; cbn [remaining curr base]; rewrite Nat2Z.id; apply take_ge; cbn; lia).
  split; [| exact E]. unfold packet_wf. rewrite E. cbn [curr remaining base]. unfold SIZE_MAX in *.
  repeat split; try lia; [| assumption]. revert Hl. zdm; lia.
Qed.

Lemma stoc_alpn_safe pkt ctx x ci s :
  packet_wf pkt -> bytes (default [] (alpn c)) -> wp (tls_parse_stoc_alpn_ntls c pkt ctx x ci) (safely s) s.
Proof.
  intros W B. unfold tls_parse_stoc_alpn_ntls. estep. estep. destruct (negb (alpn_sent s)); [safe |].
  apply wp_bind, (wp_mono _ (fun o s' => s' = s /\ match o with Some p => packet_wf p | None => True end)).
  { unfold single_proto. repeat (estep || rstep || case_match); now subst. }
  intros [p |] ? [-> Wp]; [| safe].
  destruct (PACKET_buf_init _ _ _) as [conf |] eqn:E; [| safe].
  assert (Hc : packet_wf conf /\ view conf = default [] (alpn c)).
  { destruct (buf_init_wf (default [] (alpn c)) B) as (q & Eq & H); [| congruence].
    unfold PACKET_buf_init in E. destruct (Z.ltb_spec (SIZE_MAX / 2) (Z.of_nat (length (default [] (alpn c))))); [easy | lia]. }
  destruct Hc as [Wc Vc]. esteps. apply find_proto_total; [assumption | rewrite Vc; lia |].
  intros []; safe.
Qed.

Lemma stoc_srtp_safe pkt ctx x ci s :
  packet_wf pkt -> wp (tls_parse_stoc_use_srtp_ntls c pkt ctx x ci) (safely s) s.
Proof. intros W. unfold tls_parse_stoc_use_srtp_ntls. safe. Qed.

(** ** The server's parsers *)

Lemma ctos_sni_safe pkt ctx x ci s :
  packet_wf pkt -> wp (tls_parse_ctos_server_name_ntls c pkt ctx x ci) (safely s) s.
Proof.
  intros W. unfold tls_parse_ctos_server_name_ntls.
  apply wp_bind, (wp_mono _ (fun o s' => s' = s /\ match o with Some p => packet_wf p | None => True end)).
  { unfold single_hostname. repeat (estep || rstep || case_match); now subst. }
  intros [h |] ? [-> Wh]; [| safe]. destruct (negb (hit c) || SSL_IS_TLS13 c).
  - destruct (_ <? _); [safe |]. esteps. unfold PACKET_contains_zero_byte.
    apply reads_bind. eapply wp_reads; [exact (packet_bytes_view h Wh) |]. cbv beta.
    eapply wp_reads; [reflexivity |]. cbv beta. safe.
  - esteps. apply (wp_mono _ (fun _ s' => s' = s)); [| intros; subst; safe].
    destruct (sess_hostname s) as [sh |]; [| now esteps]. unfold PACKET_equal. pose proof (view_length h Wh) as Lv.
    destruct (Z.eqb_spec (PACKET_remaining h) (Z.of_nat (length sh))) as [E |]; cbn [negb];
      [| now eapply wp_reads]. unfold PACKET_remaining in E. rewrite <- E.
    apply reads_bind. rewrite bytes_at_view by (assumption || lia). eapply wp_reads; [reflexivity |]. cbv beta.
    apply reads_bind. unfold bytes_at. rewrite E, (proj2 (Z.leb_le (0 + _) _)) by lia.
    cbn [andb Z.leb Z.compare]. now eapply wp_reads; [reflexivity |]; eapply wp_reads.
Qed.

Lemma ctos_mfl_safe pkt ctx x ci s :
  packet_wf pkt -> wp (tls_parse_ctos_maxfragmentlen_ntls c pkt ctx x ci) (safely s) s.
Proof. intros W. unfold tls_parse_ctos_maxfragmentlen_ntls, single_byte. safe. Qed.

Lemma ctos_ticket_safe pkt ctx x ci s :
  packet_wf pkt -> wp (tls_parse_ctos_session_ticket_ntls c pkt ctx x ci) (safely s) s.
Proof. intros W. unfold tls_parse_ctos_session_ticket_ntls, session_ticket_ok. safe. Qed.

Lemma responder_ids_safe fuel pkt s0 s :
  packet_wf pkt -> (length (view pkt) <= fuel)%nat -> keeps s0 s ->
  wp (parse_responder_ids fuel pkt) (safely s0) s.
Proof.
  revert pkt s. induction fuel as [| fuel IH]; intros pkt s W Hf Hk; cbn [parse_responder_ids];
    pose proof (view_length pkt W) as Lv; change (PACKET_remaining pkt) with (remaining pkt);
    (destruct (Z.leb_spec (remaining pkt) 0); [esteps; now split |]); [lia |].
  apply wp_bind, (wp_vec_shorter 2 PACKET_get_net_2 _ _ _ simulates_2); [lia | assumption | |].
  { esteps. now apply safely_alert. }
  intros id p Wi Wp Hl. destruct (_ =? 0); [esteps; now apply safely_alert |]. esteps.
  destruct (d2i_OCSP_RESPID _) as [[v n] |]; [| esteps; now apply safely_alert].
  destruct (negb _); [esteps; now apply safely_alert |]. destruct (negb _); [esteps; now apply safely_alert |].
  esteps. apply IH; [assumption | lia |]. etransitivity; [exact Hk | now split].
Qed.

Lemma request_extensions_safe pkt s0 s :
  packet_wf pkt -> keeps s0 s -> wp (parse_request_extensions pkt) (safely s0) s.
Proof. intros W [E F]. unfold parse_request_extensions. safe. Qed.

Lemma ctos_status_safe pkt ctx x ci s :
  packet_wf pkt -> wp (tls_parse_ctos_status_request_ntls c pkt ctx x ci) (safely s) s.
Proof.
  intros W. unfold tls_parse_ctos_status_request_ntls. destruct (_ || _); [safe |]. estep. rstep; [safe |].
  estep. estep. destruct (negb _); [safe |]. estep. rstep; [safe |]. estep. estep.
  destruct (_ && _); [safe |]. apply wp_bind. eapply wp_mono.
  - eapply responder_ids_safe; [eassumption | | split; ered; [reflexivity | auto]].
    match goal with H : packet_wf ?p |- (length (view ?p) <= _)%nat => pose proof (view_length p H) end.
    unfold PACKET_remaining. lia.
  - intros [] s1 [K1 F1]; cbn [negb]; [now apply request_extensions_safe | esteps; split; auto].
Qed.

Lemma ctos_npn_safe pkt ctx x ci s : wp (tls_parse_ctos_npn_ntls c pkt ctx x ci) (safely s) s.
Proof. unfold tls_parse_ctos_npn_ntls. safe. Qed.

Lemma check_protocols_total fuel pkt (Q : bool -> essl -> Prop) s :
  packet_wf pkt -> (length (view pkt) <= fuel)%nat -> 0 < remaining pkt -> (forall b, Q b s) ->
  wp (reads (check_protocols fuel pkt)) Q s.
Proof.
  intros W Hf Hr HQ. revert pkt W Hf Hr. induction fuel as [| fuel IH]; intros pkt W Hf Hr; cbn [check_protocols];
    pose proof (view_length pkt W) as Lv; [lia |].
  apply reads_bind, (wp_vec_shorter 1 PACKET_get_1 _ _ _ simulates_1 (le_n 1) W); [exact (HQ false) |].
  intros sub p Ws Wp Hl. destruct (_ =? 0); [exact (HQ false) |].
  destruct (Z.eqb_spec (PACKET_remaining p) 0) as [| Hne]; [exact (HQ true) |].
  apply IH; [assumption | lia |]. destruct Wp as (_ & ? & _). unfold PACKET_remaining in Hne. lia.
Qed.

Lemma ctos_alpn_safe pkt ctx x ci s :
  packet_wf pkt -> wp (tls_parse_ctos_alpn_ntls c pkt ctx x ci) (safely s) s.
Proof.
  intros W. unfold tls_parse_ctos_alpn_ntls. destruct (negb _); [safe |]. estep. rstep; [safe |].
  match goal with H : packet_wf ?p |- context [PACKET_remaining ?p <? 2] => pose proof (view_length p H) as Lv end.
  destruct (_ <? 2) eqn:Hr; [safe |]. apply Z.ltb_ge in Hr. unfold PACKET_remaining in Hr. estep.
  apply check_protocols_total; [assumption | unfold PACKET_remaining; lia | lia |]. intros []; safe.
Qed.

Lemma srtp_choose_safe fuel srvr pref pkt s0 s :
  packet_wf pkt -> (length (view pkt) <= fuel)%nat -> keeps s0 s ->
  wp (srtp_choose fuel srvr pref pkt) (safely s0) s.
Proof.
  revert pref pkt s. induction fuel as [| fuel IH]; intros pref pkt s W Hf Hk; cbn [srtp_choose];
    pose proof (view_length pkt W) as Lv; change (PACKET_remaining pkt) with (remaining pkt);
    (destruct (Z.eqb_spec (remaining pkt) 0); [esteps; now split |]); [lia |].
  apply wp_bind, (wp_read_inv 2 PACKET_get_net_2 _ _ _ simulates_2 W); [intros _; esteps; now apply safely_alert |].
  intros v p Wp _ _ Ev. apply (f_equal length) in Ev. rewrite length_app, be_bytes_length in Ev.
  destruct (srtp_search _ _ _); [estep; estep |]; apply IH; auto; lia.
Qed.

Lemma ctos_srtp_safe pkt ctx x ci s :
  packet_wf pkt -> wp (tls_parse_ctos_use_srtp_ntls c pkt ctx x ci) (safely s) s.
Proof.
  intros W. unfold tls_parse_ctos_use_srtp_ntls. destruct (srtp_profiles c) as [srvr |]; [| safe].
  estep. rstep; [safe |]. destruct (negb _); [safe |].
  destruct (PACKET_get_sub_packet _ _) as [[sub rest] |] eqn:E; [| safe].
  assert (H' : packet_wf sub /\ packet_wf rest).
  { match goal with Hp : packet_wf ?p, E : PACKET_get_sub_packet ?p ?v = _ |- _ =>
      pose proof (get_sub_packet_ok p v Hp ltac:(lia)) as G; rewrite E in G end.
    destruct (read_bytes _ _) as [[]|]; [| easy]. now destruct G as ((Ws & _) & Wr & _). }
  destruct H' as [Ws Wr]. estep. estep. apply wp_bind. eapply wp_mono.
  - eapply srtp_choose_safe; [eassumption | | split; ered; [reflexivity | auto]].
    pose proof (view_length sub Ws). unfold PACKET_remaining. lia.
  - intros [] s1 [[E1 F1] H1]; cbn [negb]; [| esteps; split; [now split | auto]].
    repeat (estep || rstep || case_match); try (apply safely_alert; now split). split; [now split | easy].
Qed.

End Parsers.

(** ** The table *)

Section Table.
Context {L : ExtLib} {K : Callbacks} {A : Alloc} (c : econf).
Implicit Types s : essl.

(** The protocols of the client are bytes. *)
Context (Halpn : bytes (default [] (alpn c))).

Definition table_wf (n : nat) (raw : list RAW_EXTENSION) : Prop :=
  length raw = n /\ Forall (fun e => packet_wf (raw_data e)) raw.

Definition parser_safe (p : @parser L) : Prop :=
  forall pkt ctx x ci s, packet_wf pkt -> sound s -> wp (p pkt ctx x ci) (safely s) s.

Lemma ignoring_safe : parser_safe (fun _ _ _ _ => mret true).
Proof. intros pkt ctx x ci s _ _. safe. Qed.

Lemma defs_safe :
  Forall (fun d => match parse_ctos d with Some p => parser_safe p | None => True end
                   /\ match parse_stoc d with Some p => parser_safe p | None => True end) (ext_defs c).
Proof.
  repeat apply Forall_cons_2; [.. | apply Forall_nil_2]; cbn [parse_ctos parse_stoc INVALID_EXTENSION]; split;
    try exact I; try exact ignoring_safe; intros pkt ctx x ci s W S;
    eauto using ctos_sni_safe, stoc_sni_safe, ctos_mfl_safe, stoc_mfl_safe, ctos_ticket_safe, stoc_ticket_safe,
      ctos_status_safe, stoc_status_safe, ctos_npn_safe, stoc_npn_safe, ctos_alpn_safe, stoc_alpn_safe,
      ctos_srtp_safe, stoc_srtp_safe, stoc_sct_safe.
Qed.

(** Marks an extension as parsed. *)
Definition mark (e : RAW_EXTENSION) : RAW_EXTENSION :=
  mk_raw (raw_data e) (present e) true (raw_type e) (received_order e).
Definition done (e : RAW_EXTENSION) : bool := negb (present e) || parsed e.

Lemma parse_extension_safe idx ctx raw x ci s n :
  table_wf n raw -> (idx < n)%nat -> sound s ->
  wp (tls_parse_extension_ntls c idx ctx raw x ci)
    (fun '(ok, raw') s' => safely s ok s' /\ table_wf n raw'
       /\ exists e, raw !! idx = Some e /\ raw' = if done e then raw else <[idx := mark e]> raw) s.
Proof.
  intros [Ln Hw] Hi S. unfold tls_parse_extension_ntls. rewrite <- Ln in Hi.
  apply lookup_lt_is_Some_2 in Hi as [e E]. rewrite E. pose proof (proj1 (Forall_lookup _ _) Hw _ _ E) as We.
  cbv beta in We.
  assert (Skip : done e = true -> safely s true s /\ table_wf n raw
            /\ exists e', Some e = Some e' /\ raw = if done e' then raw else <[idx := mark e']> raw).
  { intros D. split; [split; [reflexivity | easy] |]. split; [now split |]. exists e. now rewrite D. }
  unfold done in *. destruct (present e) eqn:P; cbn [negb orb] in *; [| esteps; auto].
  destruct (parsed e) eqn:Q; [esteps; auto |].
  assert (Cs : wp (b ← packet_bytes (raw_data e); custom_ext_parse_ntls c ctx (raw_type e) b x ci) (safely s) s).
  { esteps. now apply custom_parse_safe. }
  apply wp_bind, (wp_mono _ (safely s)).
  - destruct (ext_defs c !! idx) as [d |] eqn:D; [| exact Cs].
    destruct (negb _); [safe |]. pose proof (proj1 (Forall_lookup _ _) defs_safe _ _ D) as [H1 H2].
    destruct (server c); [destruct (parse_ctos d) | destruct (parse_stoc d)]; auto.
  - intros ok s' Hs. esteps. split; [assumption |]. split.
    + split; [now rewrite length_insert |]. apply Forall_insert; assumption.
    + exists e. split; [reflexivity |]. unfold mark. now rewrite P, Q.
Qed.

Lemma lookup_done (raw raw' : list RAW_EXTENSION) idx e i :
  raw !! idx = Some e -> raw' = (if done e then raw else <[idx := mark e]> raw) ->
  (exists e', raw !! i = Some e' /\ done e' = true) \/ i = idx ->
  exists e', raw' !! i = Some e' /\ done e' = true.
Proof.
  intros E -> H. destruct (decide (i = idx)) as [-> | Hne].
  - destruct (done e) eqn:D; [eauto |]. exists (mark e). split.
    + apply list_lookup_insert_eq. now apply lookup_lt_Some in E.
    + unfold done. cbn [present parsed mark]. apply orb_true_r.
  - destruct H as [(e' & E' & D') |]; [| easy]. exists e'. split; [| assumption].
    destruct (done e); [assumption |]. now rewrite list_lookup_insert_ne.
Qed.

Lemma parse_each_safe idxs ctx raw x ci s n :
  table_wf n raw -> Forall (fun i => i < n)%nat idxs -> sound s ->
  wp (parse_each c idxs ctx raw x ci)
    (fun '(ok, raw') s' => safely s ok s' /\ table_wf n raw'
       /\ (forall i, (exists e', raw !! i = Some e' /\ done e' = true) \/ (ok = true /\ i ∈ idxs) ->
              exists e', raw' !! i = Some e' /\ done e' = true)) s.
Proof.
  intros W Hi. revert raw s W. induction Hi as [| i idxs Hi H IH]; intros raw s W S; cbn [parse_each].
  { esteps. split; [split; [reflexivity | easy] |]. split; [assumption |].
    intros i [? | [_ Hi]]; [assumption | now apply not_elem_of_nil in Hi]. }
  apply wp_bind. eapply wp_mono; [apply (parse_extension_safe _ _ _ _ _ _ n); assumption |].
  intros [ok raw1] s1 (S1 & W1 & e & Ee & E1). destruct ok; cbn [negb].
  - destruct S1 as [K1 _]. eapply wp_mono; [apply IH; [assumption | now apply (keeps_sound s)] |].
    intros [ok raw2] s2 ([K2 F2] & W2 & D2). split; [split; [now transitivity s1 | assumption] |].
    split; [assumption |]. intros j Hj. apply D2.
    assert (Hc : ((exists e', raw !! j = Some e' /\ done e' = true) \/ j = i) \/ (ok = true /\ j ∈ idxs)).
    { destruct Hj as [? | [? Hj]]; [auto |]. apply elem_of_cons in Hj as [-> |]; auto. }
    destruct Hc as [Hc | ?]; [left | now right]. now apply (lookup_done raw raw1 i e).
  - esteps. split; [assumption |]. split; [assumption |]. intros j [Hj | [? _]]; [| easy].
    apply (lookup_done raw raw1 i e); auto.
Qed.

(** ** Finalisers *)

Lemma final_server_name_safe ctx sent s : wp (final_server_name c ctx sent) (safely s) s.
Proof.
  unfold final_server_name. esteps.
  apply (wp_mono _ (fun _ => keeps s)).
  { unfold servername_callback. repeat (estep || case_match); now split. }
  intros [r al] s1 K1. apply wp_bind, (wp_mono _ (fun _ => keeps s)).
  { unfold store_hostname. repeat (estep || case_match); try (etransitivity; [exact K1 |]); [| now split ..].
    etransitivity; [| apply keeps_alert]. now split. }
  intros _ s2 K2. apply wp_bind, (wp_mono _ (fun _ => keeps s)).
  { destruct (_ && _); esteps; [destruct K2; now split | assumption]. }
  intros _ s3 K3. apply wp_bind, (wp_mono _ (safely s)).
  { unfold drop_ticket. destruct K3 as [E F]. repeat (estep || case_match);
      first [apply safely_alert; keeps_tac | split; [keeps_tac | easy]]. }
  intros ok s4 [[E4 F4] H4]. destruct ok; cbn [negb]; [safe | esteps; split; [now split | auto]].
Qed.

Lemma finals_safe ctx raw :
  length raw = (builtin_num c + (length raw - builtin_num c))%nat ->
  Forall (fun e => forall s, wp (run_final ctx raw e) (safely s) s) (combine (seq 0 (builtin_num c)) (ext_defs c)).
Proof.
  intros Ln. unfold builtin_num in *. cbn [combine seq length ext_defs] in *.
  assert (Hr : forall i, (i < 30)%nat -> exists e, raw !! i = Some e) by (intros i Hi; apply lookup_lt_is_Some_2; lia).
  repeat apply Forall_cons_2; [.. | apply Forall_nil_2]; intros s; unfold run_final; cbn [snd fst def_final INVALID_EXTENSION];
    try (apply wp_ret; now split); (destruct (flag _ _); [| apply wp_ret; now split]);
    match goal with |- context [raw !! ?i] => destruct (Hr i ltac:(lia)) as [e ->] end.
  all: try (apply final_server_name_safe); unfold final_maxfragmentlen, final_ec_pt_formats, final_alpn,
         final_ems, final_sig_algs; safe.
Qed.

Lemma each_safe {B} (f : B -> prog essl bool) (l : list B) s :
  Forall (fun b => forall s, wp (f b) (safely s) s) l -> wp (each f l) (safely s) s.
Proof.
  intros H. revert s. induction H as [| b l Hb H IH]; intros s; cbn [each]; [safe |].
  apply wp_bind. eapply wp_mono; [apply Hb |]. intros ok s1 [K1 F1]. destruct ok; cbn [negb].
  - eapply wp_mono; [apply IH |]. intros ok s2 [K2 F2]. split; [now transitivity s1 | assumption].
  - esteps. now split.
Qed.

Lemma parse_all_wp ctx raw x ci fin s n :
  n = (builtin_num c + length (custext s))%nat -> table_wf n raw -> sound s ->
  wp (tls_parse_all_extensions_ntls c ctx raw x ci fin)
    (fun r s' => safely s (fst r) s' /\ table_wf n (snd r) /\ (fst r = true -> Forall (fun e => done e = true) (snd r))) s.
Proof.
  intros -> W S. unfold tls_parse_all_extensions_ntls. esteps. eapply wp_mono.
  { apply (parse_each_safe _ _ _ _ _ _ (builtin_num c + length (custext s))); [assumption | | assumption].
    apply Forall_forall. intros i Hi. now apply elem_of_seq in Hi. }
  intros [ok raw1] s1 ([K1 F1] & W1 & D1). destruct ok; cbn [negb]; [| now esteps].
  assert (All : Forall (fun e => done e = true) raw1).
  { apply Forall_lookup. intros i e E. destruct W1 as [Ln _]. pose proof (lookup_lt_Some _ _ _ E) as Hi.
    destruct (D1 i) as (e' & E' & De); [right; split; [reflexivity |]; apply elem_of_seq; lia |]. congruence. }
  destruct fin; [| esteps; now split]. apply wp_bind. eapply wp_mono.
  - apply each_safe, finals_safe. destruct W1 as [-> _]. lia.
  - intros ok s2 [K2 F2]. esteps. cbn [fst snd]. split; [split; [now transitivity s1 | assumption] |]. auto.
Qed.

(** C10: Parsing the extensions of a message is safe, whatever bytes it has and
    whatever the callbacks answer: the parsers read inside the extensions, they
    terminate, a failure has raised an alert, and an alert is never taken back.
    After a success every extension of the message is marked as parsed.  (When
    the buffers cannot be set up for a new fragment length, ssl3_setup_buffers fails
    the connection with SSL_AD_NO_ALERT; this counts as an alert here.) *)
Theorem tls_parse_all_extensions_safe ctx raw x ci fin s :
  table_wf (builtin_num c + length (custext s)) raw -> sound s ->
  exists ok raw' s', tls_parse_all_extensions_ntls c ctx raw x ci fin s = Val ((ok, raw'), s')
    /\ safely s ok s' /\ table_wf (builtin_num c + length (custext s)) raw'
    /\ (ok = true -> Forall (fun e => done e = true) raw').
Proof.
  intros W S. destruct (wp_run _ _ _ (parse_all_wp ctx raw x ci fin s _ eq_refl W S)) as ([ok raw'] & s' & E & H).
  exists ok, raw', s'. auto.
Qed.

(** ** Once *)

Lemma parse_done idx ctx raw x ci s e :
  raw !! idx = Some e -> done e = true -> tls_parse_extension_ntls c idx ctx raw x ci s = Val ((true, raw), s).
Proof.
  intros E D. unfold tls_parse_extension_ntls, done in *. rewrite E. destruct (present e); [| reflexivity].
  cbn [negb orb] in *. now rewrite D.
Qed.

Lemma parse_each_done idxs ctx raw x ci s :
  Forall (fun e => done e = true) raw -> Forall (fun i => i < length raw)%nat idxs ->
  parse_each c idxs ctx raw x ci s = Val ((true, raw), s).
Proof.
  intros D H. induction H as [| i idxs Hi H IH]; cbn [parse_each]; [reflexivity |].
  apply lookup_lt_is_Some_2 in Hi as [e E]. unfold mbind, prog_bind.
  rewrite (parse_done i ctx raw x ci s e E (proj1 (Forall_lookup _ _) D _ _ E)). exact IH.
Qed.

(** An extension is parsed once.  After the extensions of a message have been
    parsed, parsing them again, in whatever context, calls no parser: nothing of
    the connection or of the application changes. *)
Theorem tls_parse_all_extensions_once ctx raw x ci fin s raw' s' ctx' x' ci' :
  table_wf (builtin_num c + length (custext s)) raw -> sound s ->
  tls_parse_all_extensions_ntls c ctx raw x ci fin s = Val ((true, raw'), s') ->
  tls_parse_all_extensions_ntls c ctx' raw' x' ci' false s' = Val ((true, raw'), s').
Proof.
  intros W S E. destruct (wp_run _ _ _ (parse_all_wp ctx raw x ci fin s _ eq_refl W S)) as (r & s2 & E' & [[Ek _] _] & Wr & D).
  rewrite E in E'. injection E' as <- <-. cbn [fst snd] in *. unfold tls_parse_all_extensions_ntls, mbind, prog_bind. cbn [gets].
  assert (Lc : length (custext s') = length (custext s)) by (apply (f_equal length) in Ek; now rewrite !length_map in Ek).
  unfold gets. rewrite parse_each_done; [reflexivity | auto |]. apply Forall_forall. intros i Hi. apply elem_of_seq in Hi.
  destruct Wr as [-> _]. lia.
Qed.

End Table.

(** ** In the concrete setting *)

#[local] Instance safe_lib : ExtLib := hello_lib [].
#[local] Instance safe_callbacks : Callbacks := hello_callbacks [].
#[local] Instance safe_alloc : Alloc := hello_alloc.

Lemma hello_raw_wf : table_wf 30 hello_raw.
Proof.
  split; [reflexivity |]. unfold hello_raw. apply Forall_insert.
  - apply Forall_forall. intros e He. apply list_elem_of_In, repeat_spec in He as ->. repeat split; vm_compute; try discriminate.
    apply Forall_nil_2.
  - repeat split; try (vm_compute; discriminate).
    vm_compute. repeat (apply Forall_cons_2; [split; [discriminate | reflexivity] |]). apply Forall_nil_2.
Qed.

Lemma tls_parse_all_extensions_safe_witness :
  exists ok raw' s', tls_parse_all_extensions_ntls (hello_conf true) SSL_EXT_CLIENT_HELLO hello_raw None 0 true
                       (hello_ssl [] None 0 None []) = Val ((ok, raw'), s')
    /\ safely (hello_ssl [] None 0 None []) ok s' /\ hostname s' = Some [97; 98].
Proof.
  destruct (tls_parse_all_extensions_safe (hello_conf true) ltac:(constructor) SSL_EXT_CLIENT_HELLO hello_raw None 0 true
              (hello_ssl [] None 0 None []) hello_raw_wf ltac:(constructor)) as (ok & raw' & s' & E & Hs & _).
  exists ok, raw', s'. split; [exact E |]. split; [exact Hs |]. 
  apply (f_equal (fun r => match r with Val (_, s) => hostname s | Stuck _ => None end)) in E. vm_compute in E. now symmetry.
Defined.

(** The table and the connection after that *)
Definition hello_parsed : list RAW_EXTENSION * essl :=
  match tls_parse_all_extensions_ntls (hello_conf true) SSL_EXT_CLIENT_HELLO hello_raw None 0 true
          (hello_ssl [] None 0 None []) with
  | Val ((_, raw), s) => (raw, s)
  | Stuck _ => (hello_raw, hello_ssl [] None 0 None [])
  end.

Lemma tls_parse_all_extensions_once_witness :
  hostname (snd hello_parsed) = Some [97; 98]
  /\ tls_parse_all_extensions_ntls (hello_conf true) SSL_EXT_CLIENT_HELLO (fst hello_parsed) None 0 false (snd hello_parsed)
     = Val ((true, fst hello_parsed), snd hello_parsed).
Proof.
  split; [vm_compute; reflexivity |].
  apply (tls_parse_all_extensions_once (hello_conf true) ltac:(constructor) SSL_EXT_CLIENT_HELLO hello_raw None 0 true
           (hello_ssl [] None 0 None []) (fst hello_parsed) (snd hello_parsed) SSL_EXT_CLIENT_HELLO None 0
           hello_raw_wf ltac:(constructor)).
  vm_compute. reflexivity.
Defined.
