(* ===== verification/ExtWrite.v ===== *)
(** * NTLS hello extensions: writing

    The constructors as sequences of packet operations on frames, and what the
    extensions of a hello are as bytes. *)

From S2P Require Import Prelude Buffers CMem Packet PacketSpec Wpacket WpacketSpec PacketRules ExtTypes ExtCust ExtClient ExtServer ExtTable ExtCollect ExtSafe.

Section Writes.
Context {L : ExtLib} {A : Alloc}.
Implicit Types s : essl.

(** [w] does the operations [os] on the message that is written: it does not
    fault; when it returns true the frames have changed so; and it returns true if
    the frames allow it, the bytes fit and memory is available. *)
Definition emits (w : prog essl bool) (os : list wop) : Prop :=
  forall s fs, rep (e_pkt s) fs -> fs <> [] ->
  wp w (fun ok s' => exists p', s' = s <| e_pkt := p' |>
    /\ (ok = true -> exists fs', frun os fs = Some fs' /\ fs' <> [] /\ rep p' fs')
    /\ (room (e_pkt s) (costs os) -> frun os fs <> None -> (forall a, alloc_ok a = true) ->
        ok = true /\ cap p' = cap (e_pkt s) /\ written p' <= written (e_pkt s) + costs os)) s.

Lemma frun_app os os' fs : frun (os ++ os') fs = fs ← frun os fs; frun os' fs.
Proof.
  revert fs. induction os as [| o os IH]; intros fs; [reflexivity |].
  rewrite <- app_comm_cons. cbn [frun]. destruct (fstep o fs) as [fs' |]; [apply (IH fs') | reflexivity].
Qed.

Lemma costs_app os os' : costs (os ++ os') = costs os + costs os'.
Proof. induction os as [| o os IH]; [reflexivity |]. rewrite <- app_comm_cons. cbn [costs]. lia. Qed.

Lemma emits_op f o : (forall p, f p = wstep o p) -> op_ok o -> emits (writes f) [o].
Proof.
  intros Hf Ho s fs R Hne. unfold wp, writes. rewrite Hf.
  destruct (wstep_ok o (e_pkt s) fs R Hne Ho) as (ok & p' & -> & H1 & H2). exists p'. split; [reflexivity |].
  cbn [frun costs]. rewrite Z.add_0_r. split.
  - intros Hok. destruct (H1 Hok) as (fs' & E & R'). exists fs'. rewrite E. cbn. split; [reflexivity |].
    split; [now apply (fstep_ne o fs) | assumption].
  - intros Hr Hf' Ha. apply H2; auto. now destruct (fstep o fs).
Qed.

Lemma emits_ret : emits (mret true) [].
Proof.
  intros s fs R Hne. apply wp_ret. exists (e_pkt s). split; [now destruct s |]. cbn. split; [eauto |].
  intros. repeat split; lia.
Qed.

Lemma emits_and_then a b os os' : emits a os -> emits b os' -> emits (and_then a b) (os ++ os').
Proof.
  intros Ha Hb s fs R Hne. apply wp_and_then_ext. eapply wp_mono; [now apply (Ha s fs) |].
  intros [] s1 (p1 & -> & H1 & H2).
  - destruct (H1 eq_refl) as (fs1 & E1 & Hne1 & R1).
    eapply wp_mono; [apply (Hb (s <| e_pkt := p1 |>) fs1); [exact R1 | exact Hne1] |].
    intros ok s2 (p2 & -> & H3 & H4). exists p2. split; [reflexivity |]. rewrite frun_app, E1, costs_app. cbn [mbind option_bind].
    split; [exact H3 |]. intros Hr Hf Hal. pose proof (costs_pos os'). pose proof (costs_pos os). change (e_pkt (s <| e_pkt := p1 |>)) with p1 in H4.
    destruct H2 as (_ & Hc & Hw); [unfold room in *; lia | now rewrite E1 | assumption |].
    destruct H4 as (? & ? & ?); [unfold room in *; lia | assumption | assumption |]. repeat split; [assumption | congruence | lia].
  - exists p1. split; [reflexivity |]. split; [easy |]. intros Hr Hf Hal. exfalso.
    rewrite frun_app in Hf. rewrite costs_app in Hr. pose proof (costs_pos os').
    destruct H2 as [? _]; [unfold room in *; lia | now destruct (frun os fs) | assumption | easy].
Qed.

(** ** The writer's functions *)

Lemma emits_u8 v : 0 <= v < 2 ^ 64 -> emits (WPACKET_put_bytes_u8 v) [OpPut 1 v].
Proof. intros Hv. now apply emits_op; [| split; [lia |]]. Qed.
Lemma emits_u16 v : 0 <= v < 2 ^ 64 -> emits (WPACKET_put_bytes_u16 v) [OpPut 2 v].
Proof. intros Hv. now apply emits_op; [| split; [lia |]]. Qed.
Lemma emits_bytes b : Z.of_nat (length b) <= SIZE_MAX -> emits (put_bytes b) [OpCopy b].
Proof. intros Hb. now apply emits_op. Qed.
Lemma emits_start : emits WPACKET_start_sub_packet_u16 [OpOpen 2].
Proof. apply emits_op; [reflexivity | cbn; lia]. Qed.
Lemma emits_close : emits close_packet [OpClose].
Proof. now apply emits_op. Qed.
Lemma emits_flags x : emits (writes (fun p => Val (WPACKET_set_flags p x))) [OpFlags x].
Proof. now apply emits_op. Qed.

(** A vector is opened, filled and closed. *)
Lemma emits_eq w w' os : (forall s, w s = w' s) -> emits w os -> emits w' os.
Proof. intros E H s fs R Hne. specialize (H s fs R Hne). unfold wp in *. now rewrite <- E. Qed.

Lemma sub_memcpy_steps b n :
  Z.of_nat (length b) <= SIZE_MAX -> (n <= 8)%nat ->
  emits (writes (fun p => WPACKET_sub_memcpy__ p b (Z.of_nat n))) [OpOpen n; OpCopy b; OpClose].
Proof.
  intros Hb Hn. eapply (emits_eq (and_then (writes (wstep (OpOpen n))) (and_then (writes (wstep (OpCopy b))) (writes (wstep OpClose))))).
  - intros s. unfold and_then, writes, mbind, prog_bind, WPACKET_sub_memcpy__. cbn [wstep].
    destruct (WPACKET_start_sub_packet_len__ _ _) as [ok p]. destruct ok; cbn [negb]; [| reflexivity].
    change (e_pkt (s <| e_pkt := p |>)) with p. cbn [mbind res_bind].
    destruct (WPACKET_memcpy p b) as [[ok q] |]; [| reflexivity]. destruct ok; [| reflexivity].
    change (e_pkt (_ <| e_pkt := q |>)) with q. cbn [mbind res_bind negb].
    destruct (WPACKET_close q) as [[ok r] |]; reflexivity.
  - change [OpOpen n; OpCopy b; OpClose] with ([OpOpen n] ++ [OpCopy b] ++ [OpClose]).
    apply emits_and_then; [now apply emits_op |]. apply emits_and_then; now apply emits_op.
Qed.

Lemma emits_vec8 b : Z.of_nat (length b) <= SIZE_MAX -> emits (WPACKET_sub_memcpy_u8 b) [OpOpen 1; OpCopy b; OpClose].
Proof. intros Hb. apply (sub_memcpy_steps b 1); [assumption | lia]. Qed.
Lemma emits_vec16 b : Z.of_nat (length b) <= SIZE_MAX -> emits (WPACKET_sub_memcpy_u16 b) [OpOpen 2; OpCopy b; OpClose].
Proof. intros Hb. apply (sub_memcpy_steps b 2); [assumption | lia]. Qed.

(** A vector on frames *)
Lemma frun_vec n b fs :
  (1 <= n)%nat -> fs <> [] ->
  frun [OpOpen n; OpCopy b; OpClose] fs
  = if Z.of_nat (length b) <? 256 ^ Z.of_nat n then Some (append (be_bytes n (Z.of_nat (length b)) ++ b) fs) else None.
Proof.
  intros Hn Hne. destruct fs as [| g fs]; [easy |]. cbn [frun fstep mbind option_bind open_frame append app f_len f_flags f_body].
  change ([] ++ b) with b.
  unfold close_frame. cbn [f_flags f_len f_body Z.land Z.eqb negb]. rewrite !andb_false_r.
  rewrite (proj2 (Nat.eqb_neq n 0)) by lia. cbn [negb andb].
  destruct (Z.leb_spec (256 ^ Z.of_nat n) (Z.of_nat (length b))), (Z.ltb_spec (Z.of_nat (length b)) (256 ^ Z.of_nat n));
    try lia; reflexivity.
Qed.

Lemma emits_allocated b :
  b <> [] -> Z.of_nat (length b) <= SIZE_MAX -> emits (put_allocated b (Some 2)) [OpOpen 2; OpCopy b; OpClose].
Proof.
  intros Hb Hs s fs R Hne. unfold put_allocated, wp, writes.
  destruct (sub_allocate_fill_ok (e_pkt s) fs b 2 R Hne Hb) as (ok & cc & p' & E & H1 & H2); [lia | assumption |].
  change (Z.of_nat 2) with 2 in E. rewrite E. cbn [mbind res_bind]. rewrite frun_vec by (lia || assumption).
  change (costs _) with (2 + (Z.of_nat (length b) + (0 + 0))).
  replace (2 + (Z.of_nat (length b) + (0 + 0))) with (2 + Z.of_nat (length b)) by lia.
  change (Z.of_nat 2) with 2 in *. destruct ok; cbn [negb].
  - destruct (H1 eq_refl) as (Hf & a & off & q & -> & -> & Rq & Hroom). cbn [mbind res_bind]. exists q. split; [reflexivity |].
    rewrite (proj2 (Z.ltb_lt _ _) Hf). split; [intros _; eauto using append_ne |].
    intros Hr _ Ha. destruct (Hroom Hr (Ha _)) as [? ?]. repeat split; [assumption | lia].
  - exists p'. split; [reflexivity |]. split; [easy |]. intros Hr Hf Ha. exfalso.
    destruct (Z.ltb_spec (Z.of_nat (length b)) (256 ^ 2)); [| easy].
    specialize (H2 Hr (Ha _)). now discriminate H2.
Qed.

Lemma emits_allocated_plain b :
  b <> [] -> Z.of_nat (length b) <= SIZE_MAX -> emits (put_allocated b None) [OpCopy b].
Proof.
  intros Hb Hs s fs R Hne. unfold put_allocated, wp, writes.
  destruct (allocate_ok (e_pkt s) fs (length b) R Hne) as (ok & cc & p' & -> & H1 & H2);
    [destruct b; [easy | cbn; lia] | assumption |].
  cbn [mbind res_bind frun fstep option_bind costs cost]. rewrite Z.add_0_r. destruct ok; cbn [negb].
  - destruct (H1 eq_refl) as (a & junk & -> & Lj & Rp & Wp).
    destruct (overwrite_ok p' fs [] junk b Rp Hne Lj) as (q & Eq & Rq & Wq & Cq & _).
    replace (written p' - Z.of_nat (length b)) with (written (e_pkt s)) in Eq by lia.
    rewrite Eq. cbn [mbind res_bind]. exists q. split; [reflexivity |]. split; [intros _; eauto using append_ne |].
    intros Hr _ _. destruct (H2 Hr) as [_ (? & ? & ?)]. repeat split; [congruence | lia].
  - exists p'. split; [reflexivity |]. split; [easy |]. intros Hr _ _. now destruct (H2 Hr).
Qed.

(** ** Bytes *)

(** The operations [os] append [d], if [ok]: the lengths and values fit. *)
Record builds (os : list wop) (d : list Z) (ok : bool) : Prop := {
  builds_run fs : fs <> [] -> frun os fs = if ok then Some (append d fs) else None;
  builds_cost : costs os = Z.of_nat (length d) }.

Lemma builds_nil : builds [] [] true.
Proof. split; [| reflexivity]. intros [| f fs] H; [easy |]. cbn. rewrite app_nil_r. now destruct f. Qed.
Lemma builds_put n v : builds [OpPut n v] (be_bytes n v) (v <? 256 ^ Z.of_nat n).
Proof.
  split; [| cbn [costs cost]; rewrite be_bytes_length; lia]. intros fs _. cbn [frun fstep].
  now destruct (v <? _).
Qed.
Lemma builds_copy b : builds [OpCopy b] b true.
Proof. split; [reflexivity | cbn; lia]. Qed.
Lemma builds_app os os' d d' ok ok' :
  builds os d ok -> builds os' d' ok' -> builds (os ++ os') (d ++ d') (ok && ok').
Proof.
  intros [H C] [H' C']. split; [| rewrite costs_app, length_app; lia]. intros fs Hne. rewrite frun_app, H by assumption.
  destruct ok; [| reflexivity]. cbn [mbind option_bind andb]. rewrite H' by now apply append_ne.
  destruct ok'; [now rewrite append_append | reflexivity].
Qed.
Lemma builds_vec n os d ok :
  (1 <= n)%nat -> builds os d ok ->
  builds (OpOpen n :: os ++ [OpClose]) (be_bytes n (Z.of_nat (length d)) ++ d)
    (ok && (Z.of_nat (length d) <? 256 ^ Z.of_nat n)).
Proof.
  intros Hn [H C]. split.
  2:{ cbn [costs cost]. rewrite costs_app, length_app, be_bytes_length. cbn [costs cost]. lia. }
  intros fs Hne. pose proof (frun_vec n d fs Hn Hne) as V. cbn [frun] in *. cbn [fstep mbind option_bind] in *.
  rewrite frun_app, H by easy. destruct ok; [| reflexivity]. exact V.
Qed.

(** [w] appends the bytes [d], if [ok]. *)
Definition appends (w : prog essl bool) (d : list Z) (ok : bool) : Prop :=
  exists os, emits w os /\ builds os d ok.

Lemma appends_and_then a b d d' ok ok' :
  appends a d ok -> appends b d' ok' -> appends (and_then a b) (d ++ d') (ok && ok').
Proof.
  intros (os & E & B) (os' & E' & B'). exists (os ++ os').
  split; [now apply emits_and_then | now apply builds_app].
Qed.
Lemma appends_ret : appends (mret true) [] true.
Proof. exists []. split; [apply emits_ret | apply builds_nil]. Qed.
Lemma appends_u8 v : 0 <= v < 2 ^ 64 -> appends (WPACKET_put_bytes_u8 v) (be_bytes 1 v) (v <? 256).
Proof. intros Hv. exists [OpPut 1 v]. split; [now apply emits_u8 | apply (builds_put 1)]. Qed.
Lemma appends_u16 v : 0 <= v < 2 ^ 64 -> appends (WPACKET_put_bytes_u16 v) (be_bytes 2 v) (v <? 65536).
Proof. intros Hv. exists [OpPut 2 v]. split; [now apply emits_u16 | apply (builds_put 2)]. Qed.
Lemma appends_bytes b : Z.of_nat (length b) <= SIZE_MAX -> appends (put_bytes b) b true.
Proof. intros Hb. exists [OpCopy b]. split; [now apply emits_bytes | apply builds_copy]. Qed.
Lemma appends_allocated b : b <> [] -> Z.of_nat (length b) <= SIZE_MAX -> appends (put_allocated b None) b true.
Proof. intros Hb Hs. exists [OpCopy b]. split; [now apply emits_allocated_plain | apply builds_copy]. Qed.

Definition vec8 (d : list Z) : list Z := be_bytes 1 (Z.of_nat (length d)) ++ d.
Definition vec16 (d : list Z) : list Z := be_bytes 2 (Z.of_nat (length d)) ++ d.
Definition fits16 (d : list Z) : bool := Z.of_nat (length d) <? 65536.

Lemma builds_vec16 b : builds [OpOpen 2; OpCopy b; OpClose] (vec16 b) (fits16 b).
Proof. apply (builds_vec 2 [OpCopy b] b true); [lia | apply builds_copy]. Qed.
Lemma appends_vec8 b :
  Z.of_nat (length b) <= SIZE_MAX -> appends (WPACKET_sub_memcpy_u8 b) (vec8 b) (Z.of_nat (length b) <? 256).
Proof.
  intros Hb. exists [OpOpen 1; OpCopy b; OpClose]. split; [now apply emits_vec8 |].
  apply (builds_vec 1 [OpCopy b] b true); [lia | apply builds_copy].
Qed.
Lemma appends_vec16 b :
  Z.of_nat (length b) <= SIZE_MAX -> appends (WPACKET_sub_memcpy_u16 b) (vec16 b) (fits16 b).
Proof.
  intros Hb. exists [OpOpen 2; OpCopy b; OpClose]. split; [now apply emits_vec16 | apply builds_vec16].
Qed.
Lemma appends_allocated16 b :
  b <> [] -> Z.of_nat (length b) <= SIZE_MAX -> appends (put_allocated b (Some 2)) (vec16 b) (fits16 b).
Proof.
  intros Hb Hs. exists [OpOpen 2; OpCopy b; OpClose]. split; [now apply emits_allocated | apply builds_vec16].
Qed.

(** Programs that do the same in each state; sequences of tests are associative. *)
Definition same (a b : prog essl bool) : Prop := forall s, a s = b s.

#[export] Instance same_equivalence : Equivalence same.
Proof. split; unfold same; [easy | easy |]. intros a b d H H' s. now rewrite H. Qed.

#[export] Instance and_then_same : Proper (same ==> same ==> same) and_then.
Proof.
  intros a a' Ha b b' Hb s. unfold and_then, mbind, prog_bind. rewrite Ha.
  destruct (a' s) as [[[] s1] |]; [apply Hb | reflexivity ..].
Qed.

Lemma and_then_assoc (a b k : prog essl bool) : same (and_then (and_then a b) k) (and_then a (and_then b k)).
Proof. intros s. unfold and_then, mbind, prog_bind. now destruct (a s) as [[[] s1] |]. Qed.

#[export] Instance appends_same : Proper (same ==> eq ==> eq ==> iff) appends.
Proof.
  intros w w' E d _ <- ok _ <-. split; intros (os & H & B); exists os; (split; [| assumption]).
  - now apply (emits_eq w).
  - apply (emits_eq w'); [| assumption]. intros s. symmetry. apply E.
Qed.

Lemma appends_sub16 w d ok :
  appends w d ok -> appends (and_then WPACKET_start_sub_packet_u16 (and_then w close_packet)) (vec16 d) (ok && fits16 d).
Proof.
  intros (os & E & B). exists (OpOpen 2 :: os ++ [OpClose]). split.
  - change (OpOpen 2 :: os ++ [OpClose]) with ([OpOpen 2] ++ os ++ [OpClose]).
    apply emits_and_then; [apply emits_start |]. now apply emits_and_then; [| apply emits_close].
  - apply (builds_vec 2); [lia | assumption].
Qed.

(** A writer that never succeeds, and one that may fail afterwards *)
Lemma appends_never w d :
  (forall s, wp w (fun ok s' => ok = false /\ exists p', s' = s <| e_pkt := p' |>) s) -> appends w d false.
Proof.
  intros H. exists [OpCopy d; OpPut 0 1]. split.
  - intros s fs R Hne. eapply wp_mono; [apply H |]. intros ok s' [-> (p' & ->)]. exists p'. split; [reflexivity |].
    now split.
  - split; [reflexivity |]. cbn [costs cost]. lia.
Qed.

Lemma appends_mret_false d : appends (mret false) d false.
Proof. apply appends_never. intros s. apply wp_ret. split; [reflexivity |]. exists (e_pkt s). now destruct s. Qed.

Lemma appends_guard w d ok (b : bool) : appends w d ok -> appends (r ← w; mret (r && b)) d (ok && b).
Proof.
  intros (os & E & B). destruct b; rewrite ?andb_true_r, ?andb_false_r.
  - exists os. split; [| assumption]. apply (emits_eq w); [| assumption]. intros s. unfold mbind, prog_bind.
    destruct (w s) as [[r s'] |]; [| reflexivity]. now rewrite andb_true_r.
  - exists (os ++ [OpPut 0 1]). split.
    + intros s fs R Hne. apply wp_bind. eapply wp_mono; [now apply (E s fs) |]. intros ok' s' (p' & -> & _).
      apply wp_ret. rewrite andb_false_r. exists p'. split; [reflexivity |]. split; [easy |].
      rewrite frun_app. destruct (frun os fs); easy.
    + destruct B as [Br Bc]. split; [| rewrite costs_app; cbn [costs cost]; lia]. intros fs Hne.
      rewrite frun_app, Br by assumption. now destruct ok.
Qed.

(** A loop of writers *)
Lemma appends_each {B} (f : B -> prog essl bool) (g : B -> list Z) (h : B -> bool) l :
  Forall (fun b => appends (f b) (g b) (h b)) l -> appends (each f l) (flat_map g l) (forallb h l).
Proof.
  induction 1 as [| b l Hb H IH]; cbn [each flat_map forallb]; [apply appends_ret |].
  assert (E : same (ok ← f b; if negb ok then mret false else each f l) (and_then (f b) (each f l))).
  { intros s. unfold and_then, mbind, prog_bind. now destruct (f b s) as [[[] s'] |]. }
  rewrite E. now apply appends_and_then.
Qed.

(** What a writer of bytes does *)
Lemma appends_wp w d ok s fs (Q : bool -> essl -> Prop) :
  appends w d ok -> rep (e_pkt s) fs -> fs <> [] ->
  (forall p', ok = true -> rep p' (append d fs) ->
     (room (e_pkt s) (Z.of_nat (length d)) -> (forall a, alloc_ok a = true) ->
      cap p' = cap (e_pkt s) /\ written p' <= written (e_pkt s) + Z.of_nat (length d)) ->
     Q true (s <| e_pkt := p' |>)) ->
  (forall p', ~ (ok = true /\ room (e_pkt s) (Z.of_nat (length d)) /\ forall a, alloc_ok a = true) ->
     Q false (s <| e_pkt := p' |>)) ->
  wp w Q s.
Proof.
  intros (os & E & [B C]) R Hne HY HN. eapply wp_mono; [now apply (E s fs) |].
  intros [] s' (p' & -> & H1 & H2); rewrite B in * by assumption; rewrite C in *.
  - destruct (H1 eq_refl) as (fs' & Ef & _ & R'). destruct ok; [| easy]. injection Ef as <-.
    apply HY; auto. intros Hr Ha. destruct H2 as (_ & ? & ?); auto.
  - apply HN. intros (-> & Hr & Ha). now destruct H2.
Qed.

End Writes.
