(* ===== verification/ExtHello.v ===== *)
(** * NTLS hello extensions: what a ClientHello carries

    The constructors of the client's extensions against the bytes that they
    should append, and the extensions of a ClientHello as a list. *)

From S2P Require Import Prelude Buffers CMem Packet PacketSpec Wpacket WpacketSpec PacketRules ExtTypes ExtCust ExtClient ExtServer ExtTable ExtCollect ExtSafe ExtWrite.

Section Constructs.
Context {L : ExtLib} {K : Callbacks} {A : Alloc}.
Implicit Types s : essl.

Definition enc_opt (e : option (Z * list Z)) : list Z := match e with Some e => enc_ext e | None => [] end.

(** The constructor [k], run in the state [s], appends the extension [e], if there
    is one, and leaves [s1] apart from the message.  It fails with an alert, and
    not if [ok], the bytes fit and memory is available. *)
Definition writes_ext (k : prog essl EXT_RETURN) (s : essl) (e : option (Z * list Z)) (ok : bool) (s1 : essl) : Prop :=
  forall fs, rep (e_pkt s) fs -> fs <> [] ->
  wp k (fun r s' =>
    match r with
    | EXT_RETURN_FAIL =>
        safely s false s'
        /\ ~ (ok = true /\ room (e_pkt s) (Z.of_nat (length (enc_opt e))) /\ forall a, alloc_ok a = true)
    | EXT_RETURN_NOT_SENT => e = None /\ ok = true /\ s' = s1
    | EXT_RETURN_SENT =>
        exists p', s' = s1 <| e_pkt := p' |> /\ ok = true /\ rep p' (append (enc_opt e) fs)
          /\ (room (e_pkt s) (Z.of_nat (length (enc_opt e))) -> (forall a, alloc_ok a = true) ->
              cap p' = cap (e_pkt s) /\ written p' <= written (e_pkt s) + Z.of_nat (length (enc_opt e)))
    end) s.

Lemma writes_none s : writes_ext (mret EXT_RETURN_NOT_SENT) s None true s.
Proof. intros fs R Hne. now apply wp_ret. Qed.

Lemma writes_sends w s e ok : appends w (enc_ext e) ok -> writes_ext (sends w) s (Some e) ok s.
Proof.
  intros H fs R Hne. unfold sends. apply wp_bind, (appends_wp w (enc_ext e) ok s fs); [assumption .. | |].
  - intros p' Hok R' Hr. cbn [negb]. esteps. exists p'. auto.
  - intros p' Hno. cbn [negb]. esteps. split; [apply safely_alert; now split | exact Hno].
Qed.

(** A type and a sub-packet *)
Lemma appends_ext t w d ok :
  0 <= t < 65536 -> appends w d ok ->
  appends (and_then (WPACKET_put_bytes_u16 t) (and_then WPACKET_start_sub_packet_u16 (and_then w close_packet)))
    (enc_ext (t, d)) (ok && fits16 d).
Proof.
  intros Ht H. replace (ok && fits16 d) with ((t <? 65536) && (ok && fits16 d))
    by (rewrite (proj2 (Z.ltb_lt _ _)) by lia; reflexivity).
  apply appends_and_then; [apply appends_u16; lia | now apply appends_sub16].
Qed.

(** A type and a vector *)
Lemma appends_ext_vec t w d ok :
  0 <= t < 65536 -> appends w (vec16 d) ok ->
  appends (and_then (WPACKET_put_bytes_u16 t) w) (enc_ext (t, d)) ok.
Proof.
  intros Ht H. replace ok with ((t <? 65536) && ok) by (rewrite (proj2 (Z.ltb_lt _ _)) by lia; reflexivity).
  apply appends_and_then; [apply appends_u16; lia | exact H].
Qed.

(** A type and no data *)
Lemma appends_ext_nil t :
  0 <= t < 65536 -> appends (and_then (WPACKET_put_bytes_u16 t) (WPACKET_put_bytes_u16 0)) (enc_ext (t, [])) true.
Proof. intros Ht. apply appends_ext_vec; [assumption |]. apply (appends_u16 0). lia. Qed.

(** Of nested vectors, the outer length decides. *)
Lemma fits16_lt d : fits16 d = true <-> Z.of_nat (length d) < 65536.
Proof. apply Z.ltb_lt. Qed.
Lemma vec16_length d : length (vec16 d) = (2 + length d)%nat.
Proof. unfold vec16. now rewrite length_app, be_bytes_length. Qed.
Lemma vec8_length d : length (vec8 d) = (1 + length d)%nat.
Proof. unfold vec8. now rewrite length_app, be_bytes_length. Qed.

Lemma writes_mono k s e ok ok' s1 : ok = ok' -> writes_ext k s e ok s1 -> writes_ext k s e ok' s1.
Proof. now intros ->. Qed.

Lemma writes_gets {B} (f : essl -> B) k s e ok s1 :
  writes_ext (k (f s)) s e ok s1 -> writes_ext (gets f ≫= k) s e ok s1.
Proof. intros H fs R Hne. apply wp_bind, wp_gets. now apply H. Qed.

(** ** The client's constructors *)

Definition ctos_server_name s : option (Z * list Z) :=
  match hostname s with
  | Some h => Some (TLSEXT_TYPE_server_name, vec16 (be_bytes 1 TLSEXT_NAMETYPE_host_name ++ vec16 h))
  | None => None
  end.

(** The data of an extension fits its length. *)
Definition ext_fits (e : option (Z * list Z)) : bool := match e with Some (_, d) => fits16 d | None => true end.

(** Buffers in memory *)
Definition sized (b : option (list Z)) : Prop := Z.of_nat (length (default [] b)) <= SIZE_MAX.

Ltac bool_lia :=
  apply eq_true_iff_eq; rewrite ?andb_true_iff; rewrite ?fits16_lt, ?Z.ltb_lt;
  repeat (first [rewrite vec16_length | rewrite vec8_length | rewrite be_bytes_length | rewrite length_app]);
  unfold TLSEXT_NAMETYPE_host_name, TLSEXT_STATUSTYPE_ocsp; lia.

Lemma server_name_writes ctx x ci s :
  sized (hostname s) ->
  writes_ext (tls_construct_ctos_server_name_ntls ctx x ci) s (ctos_server_name s) (ext_fits (ctos_server_name s)) s.
Proof.
  unfold tls_construct_ctos_server_name_ntls, ctos_server_name, sized. intros Hh. apply writes_gets.
  destruct (hostname s) as [h |]; cbn [default ext_fits] in *; [| apply writes_none].
  pose proof (appends_ext TLSEXT_TYPE_server_name _ _ _ ltac:(easy)
    (appends_sub16 _ _ _ (appends_and_then _ _ _ _ _ _
       (appends_u8 TLSEXT_NAMETYPE_host_name ltac:(easy)) (appends_vec16 h Hh)))) as S.
  rewrite !and_then_assoc in S. refine (writes_mono _ _ _ _ _ _ _ (writes_sends _ s _ _ S)). bool_lia.
Qed.

Definition ctos_max_fragment_length s : option (Z * list Z) :=
  if max_fragment_len_mode s =? TLSEXT_max_fragment_length_DISABLED then None
  else Some (TLSEXT_TYPE_max_fragment_length, be_bytes 1 (max_fragment_len_mode s)).

Lemma max_fragment_length_writes ctx x ci s :
  0 <= max_fragment_len_mode s < 256 ->
  writes_ext (tls_construct_ctos_maxfragmentlen_ntls ctx x ci) s (ctos_max_fragment_length s) true s.
Proof.
  unfold tls_construct_ctos_maxfragmentlen_ntls, ctos_max_fragment_length. intros Hm. apply writes_gets.
  destruct (_ =? _); [apply writes_none |].
  refine (writes_mono _ _ _ _ _ _ _ (writes_sends _ s _ _ (appends_ext TLSEXT_TYPE_max_fragment_length _ _ _ ltac:(easy)
    (appends_u8 (max_fragment_len_mode s) ltac:(lia))))).
  rewrite (proj2 (Z.ltb_lt _ _)) by lia. reflexivity.
Qed.

Definition ctos_next_proto_neg (c : econf) : option (Z * list Z) :=
  if negb (bool_decide (is_Some (npn_select_cb c))) || negb (SSL_IS_FIRST_HANDSHAKE c) then None
  else Some (TLSEXT_TYPE_next_proto_neg, []).

Lemma next_proto_neg_writes c ctx x ci s :
  writes_ext (tls_construct_ctos_npn_ntls c ctx x ci) s (ctos_next_proto_neg c) true s.
Proof.
  unfold tls_construct_ctos_npn_ntls, ctos_next_proto_neg. destruct (_ || _); [apply writes_none |].
  now apply writes_sends, appends_ext_nil.
Qed.

Definition ctos_alpn (c : econf) : option (Z * list Z) :=
  match alpn c with
  | Some l => if SSL_IS_FIRST_HANDSHAKE c
              then Some (TLSEXT_TYPE_application_layer_protocol_negotiation, vec16 l) else None
  | None => None
  end.

(** A constructor that starts and ends with a change of the state *)
Lemma writes_modify f k s e ok s1 :
  e_pkt (f s) = e_pkt s -> keeps s (f s) -> writes_ext k (f s) e ok s1 ->
  writes_ext (modify f;; k) s e ok s1.
Proof.
  intros Ep Kf H fs R Hne. apply wp_bind, wp_modify. rewrite <- Ep in R. eapply wp_mono; [now apply (H fs) |].
  rewrite Ep. intros [] s'; auto. intros [[K1 F1] H1]. split; [| assumption].
  split; [now transitivity (f s) | assumption].
Qed.

Lemma writes_after w f s e ok s1 :
  writes_ext (sends w) s (Some e) ok s1 -> (forall s p, f (s <| e_pkt := p |>) = f s <| e_pkt := p |>) ->
  writes_ext (r ← sends w; if bool_decide (r = EXT_RETURN_SENT) then modify f;; mret r else mret r)
    s (Some e) ok (f s1).
Proof.
  intros H Hf fs R Hne. apply wp_bind. eapply wp_mono; [now apply (H fs) |]. intros [] s' Hs.
  - rewrite bool_decide_eq_false_2 by easy. now apply wp_ret.
  - rewrite bool_decide_eq_true_2 by easy. esteps. destruct Hs as (p' & -> & H'). exists p'. now rewrite Hf.
  - now destruct Hs.
Qed.

Lemma alpn_writes c ctx x ci s :
  sized (alpn c) ->
  writes_ext (tls_construct_ctos_alpn_ntls c ctx x ci) s (ctos_alpn c) (ext_fits (ctos_alpn c))
    (s <| alpn_sent := bool_decide (is_Some (ctos_alpn c)) |>).
Proof.
  unfold tls_construct_ctos_alpn_ntls, ctos_alpn, sized. intros Hs. apply writes_modify; [reflexivity | now split |].
  destruct (alpn c) as [l |]; cbn [default ext_fits] in *; [| apply writes_none].
  destruct (SSL_IS_FIRST_HANDSHAKE c); cbn [negb ext_fits]; [| apply writes_none].
  refine (writes_mono _ _ _ _ _ _ _ (writes_after _ (fun s => s <| alpn_sent := true |>) _ _ _ _
    (writes_sends _ _ _ _ (appends_ext TLSEXT_TYPE_application_layer_protocol_negotiation _ _ _ ltac:(easy)
       (appends_vec16 l Hs))) _)); [bool_lia | reflexivity].
Qed.

Definition ctos_sct (c : econf) (x : option X509) : option (Z * list Z) :=
  if negb (ct_validation_callback c) || bool_decide (is_Some x) then None
  else Some (TLSEXT_TYPE_signed_certificate_timestamp, []).

Lemma sct_writes c ctx x ci s : writes_ext (tls_construct_ctos_sct_ntls c ctx x ci) s (ctos_sct c x) true s.
Proof.
  unfold tls_construct_ctos_sct_ntls, ctos_sct. destruct (_ || _); [apply writes_none |].
  now apply writes_sends, appends_ext_nil.
Qed.

(** The SRTP profiles, and no MKI *)
Definition ctos_use_srtp (c : econf) : option (Z * list Z) :=
  match srtp_profiles c with
  | Some l => Some (TLSEXT_TYPE_use_srtp, vec16 (flat_map (be_bytes 2) l) ++ be_bytes 1 0)
  | None => None
  end.

Lemma use_srtp_writes c ctx x ci s :
  Forall (fun id => 0 <= id < 65536) (default [] (srtp_profiles c)) ->
  writes_ext (tls_construct_ctos_use_srtp_ntls c ctx x ci) s (ctos_use_srtp c) (ext_fits (ctos_use_srtp c)) s.
Proof.
  unfold tls_construct_ctos_use_srtp_ntls, ctos_use_srtp. intros H.
  destruct (srtp_profiles c) as [l |]; cbn [default ext_fits] in *; [| apply writes_none].
  assert (Hl : appends (each WPACKET_put_bytes_u16 l) (flat_map (be_bytes 2) l) (forallb (fun id => id <? 65536) l)).
  { apply appends_each. eapply Forall_impl; [exact H |]. intros id Hid. cbv beta in Hid. apply appends_u16. lia. }
  pose proof (appends_ext TLSEXT_TYPE_use_srtp _ _ _ ltac:(easy)
    (appends_and_then _ _ _ _ _ _ (appends_sub16 _ _ _ Hl) (appends_u8 0 ltac:(easy)))) as S.
  rewrite !and_then_assoc in S. refine (writes_mono _ _ _ _ _ _ _ (writes_sends _ s _ _ S)).
  replace (forallb _ l) with true by (symmetry; apply forallb_forall; intros id Hi; apply Z.ltb_lt;
    now apply (proj1 (List.Forall_forall _ _) H)).
  bool_lia.
Qed.

(** ** The session ticket *)

Definition keeps_ticket (c : econf) s : bool :=
  negb (new_session c) && bool_decide (is_Some (sess_tick s)) && negb (sess_version c =? TLS1_3_VERSION).
(** The ticket that the application has set is copied into the session. *)
Definition copied_ticket (c : econf) s : option (list Z) :=
  if keeps_ticket c s then None else match session_ticket s with Some (Some d) => Some d | _ => None end.
Definition sent_ticket (c : econf) s : list Z :=
  if keeps_ticket c s then default [] (sess_tick s) else default [] (copied_ticket c s).

Definition uses_ticket (c : econf) s : bool :=
  negb (flag (options s) SSL_OP_NO_TICKET) && security_ticket c.

Definition ctos_session_ticket (c : econf) s : option (Z * list Z) :=
  if negb (uses_ticket c s) || ((length (sent_ticket c s) =? 0)%nat && bool_decide (session_ticket s = Some None))
  then None else Some (TLSEXT_TYPE_session_ticket, sent_ticket c s).
Definition after_session_ticket (c : econf) s : essl :=
  match copied_ticket c s with
  | Some d => if uses_ticket c s then s <| sess_tick := malloc_copy C_malloc_tick d |> else s
  | None => s
  end.
(** The copy has succeeded. *)
Definition ticket_ok (c : econf) s : bool :=
  match copied_ticket c s with
  | Some d => negb (uses_ticket c s) || bool_decide (is_Some (malloc_copy C_malloc_tick d))
  | None => true
  end.

Lemma choose_ticket_ok c s :
  wp (choose_ticket c)
    (fun t s' => s' = (match copied_ticket c s with
                       | Some d => s <| sess_tick := malloc_copy C_malloc_tick d |>
                       | None => s
                       end)
       /\ t = match copied_ticket c s with
              | Some d => malloc_copy C_malloc_tick d
              | None => Some (sent_ticket c s)
              end) s.
Proof.
  unfold choose_ticket, sent_ticket, copied_ticket, keeps_ticket. esteps.
  destruct (sess_tick s) as [t |], (session_ticket s) as [[d |] |], (new_session c), (sess_version c =? TLS1_3_VERSION);
    cbn [negb andb default]; rewrite ?bool_decide_eq_true_2, ?bool_decide_eq_false_2 by (eauto || apply is_Some_None);
    cbn [andb negb default]; esteps; auto.
Qed.

Lemma session_ticket_writes c ctx x ci s :
  Z.of_nat (length (sent_ticket c s)) <= SIZE_MAX ->
  writes_ext (tls_construct_ctos_session_ticket_ntls c ctx x ci) s (ctos_session_ticket c s)
    (ticket_ok c s && ext_fits (ctos_session_ticket c s)) (after_session_ticket c s).
Proof.
  intros Hs. unfold tls_construct_ctos_session_ticket_ntls, ctos_session_ticket, ticket_ok, after_session_ticket.
  intros fs R Hne. apply wp_bind, wp_tls_use_ticket. fold (uses_ticket c s).
  destruct (uses_ticket c s) eqn:U; cbn [negb orb].
  2:{ esteps. split; [reflexivity |]. now destruct (copied_ticket c s). }
  apply wp_bind. eapply wp_mono; [apply choose_ticket_ok |]. intros t s1 [-> ->].
  set (s1 := match copied_ticket c s with Some d => _ | None => s end).
  assert (E1 : session_ticket s1 = session_ticket s /\ e_pkt s1 = e_pkt s /\ keeps s s1)
    by (subst s1; destruct (copied_ticket c s); easy).
  destruct E1 as (E1 & E2 & K1).
  destruct (match copied_ticket c s with Some d => malloc_copy C_malloc_tick d | None => _ end) as [t |] eqn:Et.
  - assert (sent_ticket c s = t /\ match copied_ticket c s with
              Some d => bool_decide (is_Some (malloc_copy C_malloc_tick d)) = true | None => True end) as [Est Hok].
    { unfold sent_ticket. destruct (copied_ticket c s) as [d |] eqn:Ec.
      - unfold copied_ticket in Ec. destruct (keeps_ticket c s); [easy |]. rewrite Et. split; [| now apply bool_decide_eq_true_2].
        unfold malloc_copy in Et. destruct (_ || _); [easy |]. injection Et as <-. reflexivity.
      - injection Et as Et. unfold sent_ticket in Et. now rewrite Ec in Et. }
    rewrite Est in *. apply wp_bind, wp_gets. rewrite E1. destruct (_ && _).
    + esteps. split; [reflexivity |]. split; [| reflexivity]. destruct (copied_ticket c s); [now rewrite Hok | reflexivity].
    + rewrite <- E2 in R |- *. apply wp_mono with (Q := fun r s' => _) (1 := writes_sends _ s1 _ _
        (appends_ext_vec TLSEXT_TYPE_session_ticket _ _ _ ltac:(easy) (appends_vec16 t Hs)) fs R Hne).
      intros [] s'; [| | easy].
      * intros [[K2 F2] H2]. split; [split; [now transitivity s1 | assumption] |]. cbn [ext_fits].
        destruct (copied_ticket c s); [rewrite Hok |]; exact H2.
      * intros (p' & -> & H2 & H3 & H4). exists p'. split; [reflexivity |]. cbn [ext_fits].
        split; [destruct (copied_ticket c s); [rewrite Hok |]; exact H2 |]. auto.
  - unfold fail_ext. esteps. split; [now apply safely_alert |]. destruct (copied_ticket c s) as [d |]; [| easy].
    rewrite Et. rewrite bool_decide_eq_false_2 by apply is_Some_None. intros [? _]. easy.
Qed.

(** ** The status request *)

Definition request_ids s : list Z := flat_map (fun id => vec16 (i2d_OCSP_RESPID id)) (ocsp_ids s).
Definition request_exts s : list Z := match ocsp_exts s with Some e => default [] (i2d_X509_EXTENSIONS e) | None => [] end.

Definition ctos_status_request s (x : option X509) : option (Z * list Z) :=
  if bool_decide (is_Some x) || negb (status_type s =? TLSEXT_STATUSTYPE_ocsp) then None
  else Some (TLSEXT_TYPE_status_request,
             be_bytes 1 TLSEXT_STATUSTYPE_ocsp ++ vec16 (request_ids s) ++ vec16 (request_exts s)).

(** The objects are encoded. *)
Definition status_ok s (x : option X509) : bool :=
  bool_decide (is_Some x) || negb (status_type s =? TLSEXT_STATUSTYPE_ocsp)
  || forallb (fun id => negb (length (i2d_OCSP_RESPID id) =? 0)%nat && ext_ok C_i2d_RESPID) (ocsp_ids s)
  && match ocsp_exts s with
     | None => true
     | Some e => match i2d_X509_EXTENSIONS e with
                 | None => false
                 | Some b => negb (length b =? 0)%nat && ext_ok C_i2d_EXTENSIONS
                 end
     end.

Definition status_sized s : Prop :=
  Forall (fun id => Z.of_nat (length (i2d_OCSP_RESPID id)) <= SIZE_MAX) (ocsp_ids s)
  /\ Z.of_nat (length (request_exts s)) <= SIZE_MAX.

Lemma put_responder_id_appends id :
  Z.of_nat (length (i2d_OCSP_RESPID id)) <= SIZE_MAX ->
  appends (put_responder_id id) (vec16 (i2d_OCSP_RESPID id))
    (negb (length (i2d_OCSP_RESPID id) =? 0)%nat && (fits16 (i2d_OCSP_RESPID id) && ext_ok C_i2d_RESPID)).
Proof.
  intros Hs. unfold put_responder_id. destruct (Nat.eqb_spec (length (i2d_OCSP_RESPID id)) 0) as [E | E]; cbn [negb andb].
  - apply appends_mret_false.
  - apply appends_guard, appends_allocated16; [| assumption]. intros E0. now rewrite E0 in E.
Qed.

Lemma put_request_exts_appends s :
  Z.of_nat (length (request_exts s)) <= SIZE_MAX ->
  appends (match ocsp_exts s with
           | None => mret true
           | Some e =>
               match i2d_X509_EXTENSIONS e with
               | None => mret false
               | Some b => ok ← put_allocated b None; mret (ok && ext_ok C_i2d_EXTENSIONS)
               end
           end) (request_exts s)
    (match ocsp_exts s with
     | None => true
     | Some e => match i2d_X509_EXTENSIONS e with
                 | None => false
                 | Some b => negb (length b =? 0)%nat && ext_ok C_i2d_EXTENSIONS
                 end
     end).
Proof.
  unfold request_exts. destruct (ocsp_exts s) as [e |]; [| intros _; apply appends_ret].
  destruct (i2d_X509_EXTENSIONS e) as [b |]; cbn [default]; unfold id; intros Hs; [| apply appends_mret_false].
  apply appends_guard. destruct (Nat.eqb_spec (length b) 0) as [E | E]; cbn [negb].
  - apply nil_length_inv in E as ->. apply appends_never. intros s'. unfold put_allocated, wp, writes.
    unfold WPACKET_allocate_bytes, WPACKET_reserve_bytes. cbn [length Z.of_nat Z.eqb]. rewrite orb_true_r.
    cbn [mbind res_bind negb]. split; [reflexivity |]. now exists (e_pkt s').
  - apply appends_allocated; [| assumption]. intros ->. easy.
Qed.

(** The lengths of the ids are bounded by that of their list. *)
Lemma ids_fit s :
  forallb (fun id => negb (length (i2d_OCSP_RESPID id) =? 0)%nat
                     && (fits16 (i2d_OCSP_RESPID id) && ext_ok C_i2d_RESPID)) (ocsp_ids s) && fits16 (request_ids s)
  = forallb (fun id => negb (length (i2d_OCSP_RESPID id) =? 0)%nat && ext_ok C_i2d_RESPID) (ocsp_ids s)
    && fits16 (request_ids s).
Proof.
  destruct (fits16 (request_ids s)) eqn:F; [| now rewrite !andb_false_r]. rewrite !andb_true_r.
  apply fits16_lt in F. unfold request_ids in F.
  assert (H : Forall (fun id => fits16 (i2d_OCSP_RESPID id) = true) (ocsp_ids s)).
  { apply List.Forall_forall. intros i Hi. apply in_split in Hi as (l1 & l2 & E). rewrite E, flat_map_app in F.
    cbn [flat_map] in F. rewrite !length_app, vec16_length in F. apply fits16_lt. lia. }
  induction H as [| i l Hi H IH]; [reflexivity |]. cbn [forallb]. rewrite Hi. f_equal. apply IH.
  cbn [flat_map] in F. rewrite length_app in F. lia.
Qed.

Lemma status_request_writes ctx x ci s :
  status_sized s ->
  writes_ext (tls_construct_ctos_status_request_ntls ctx x ci) s (ctos_status_request s x)
    (status_ok s x && ext_fits (ctos_status_request s x)) s.
Proof.
  intros [Hi He]. unfold tls_construct_ctos_status_request_ntls, ctos_status_request, status_ok.
  apply writes_gets. destruct (_ || negb _); cbn [orb].
  { intros fs R Hne. now apply wp_ret. }
  apply writes_gets, writes_gets. cbn [ext_fits].
  assert (Hids : appends (each put_responder_id (ocsp_ids s)) (request_ids s) _)
    by (apply (appends_each put_responder_id); eapply Forall_impl; [exact Hi | intros id; apply put_responder_id_appends]).
  pose proof (appends_ext TLSEXT_TYPE_status_request _ _ _ ltac:(easy)
    (appends_and_then _ _ _ _ _ _ (appends_u8 TLSEXT_STATUSTYPE_ocsp ltac:(easy))
      (appends_and_then _ _ _ _ _ _ (appends_sub16 _ _ _ Hids)
         (appends_sub16 _ _ _ (put_request_exts_appends s He))))) as S.
  rewrite !and_then_assoc in S. refine (writes_mono _ _ _ _ _ _ _ (writes_sends _ s _ _ S)).
  rewrite ids_fit. change (TLSEXT_STATUSTYPE_ocsp <? 256) with true. cbn [andb].
  set (a := forallb _ _). set (b := match ocsp_exts s with None => true | Some e => _ end). clearbody a b.
  destruct a, b; rewrite ?andb_true_r, ?andb_true_l, ?andb_false_r; try reflexivity. bool_lia.
Qed.

(** ** The padding *)

(** The length of the message, with what the code adds for a PSK *)
Definition hello_length (c : econf) s : Z :=
  let ticklen := Z.of_nat (length (default [] (sess_tick s))) in
  match sess_md_size c with
  | Some md => if (sess_version c =? TLS1_3_VERSION) && negb (ticklen =? 0)
               then u64 (written (e_pkt s) + (PSK_PRE_BINDER_OVERHEAD + ticklen + md)) else written (e_pkt s)
  | None => written (e_pkt s)
  end.

Definition ctos_padding (c : econf) s : option (Z * list Z) :=
  if flag (options s) SSL_OP_TLSEXT_PADDING
  then match padding_length (hello_length c s) with
       | Some n => Some (TLSEXT_TYPE_padding, repeat 0 (Z.to_nat n))
       | None => None
       end
  else None.

Lemma append_nil fs : append [] fs = fs.
Proof. destruct fs as [| f fs]; [reflexivity |]. cbn. rewrite app_nil_r. now destruct f. Qed.

Lemma padding_length_range h n : padding_length h = Some n -> 1 <= n <= 252.
Proof.
  unfold padding_length, F5_WORKAROUND_MIN_MSG_LEN, F5_WORKAROUND_MAX_MSG_LEN.
  destruct (Z.ltb_spec 0xff h), (Z.ltb_spec h 0x200); cbn [andb]; try easy.
  destruct (Z.ltb_spec 4 (0x200 - h)); intros [= <-]; lia.
Qed.

Lemma padding_writes c ctx x ci s :
  writes_ext (tls_construct_ctos_padding_ntls c ctx x ci) s (ctos_padding c s) true s.
Proof.
  unfold tls_construct_ctos_padding_ntls, ctos_padding. apply writes_gets.
  destruct (flag (options s) SSL_OP_TLSEXT_PADDING); cbn [negb]; [| apply writes_none].
  apply writes_gets, writes_gets. cbv zeta. fold (hello_length c s).
  change (match sess_md_size c with Some md => _ | None => _ end) with (hello_length c s).
  destruct (padding_length (hello_length c s)) as [n |] eqn:E.
  - apply padding_length_range in E. assert (Ln : length (repeat 0 (Z.to_nat n)) = Z.to_nat n) by apply repeat_length.
    refine (writes_mono _ _ _ _ _ _ _ (writes_sends _ s _ _ (appends_ext_vec TLSEXT_TYPE_padding _ _ _ ltac:(easy)
      (appends_allocated16 (repeat 0 (Z.to_nat n)) _ _)))).
    + apply fits16_lt. lia.
    + intros E0. rewrite E0 in Ln. cbn in Ln. lia.
    + unfold SIZE_MAX. lia.
  - intros fs R Hne. apply wp_ret. exists (e_pkt s). split; [now destruct s |]. split; [reflexivity |].
    cbn [enc_opt length]. rewrite append_nil. split; [assumption |]. intros. split; [reflexivity | lia].
Qed.

End Constructs.
