(* ===== verification/ExtCustSpec.v ===== *)
(** * NTLS custom extensions: the registry

    The tables that the registration functions of an application build: each
    entry can be found, its callbacks have their arguments, and it is no built-in
    extension, with two exceptions. *)

From S2P Require Import Prelude Buffers CMem Packet PacketSpec Wpacket WpacketSpec PacketRules ExtTypes ExtToy ExtCust ExtClient ExtServer ExtTable ExtCollect ExtSafe ExtWrite ExtHello.

Section Registry.
Context {L : ExtLib} {K : Callbacks} {A : Alloc}.

(** The calls of an application: [SSL_CTX_add_client_custom_ext_ntls],
    [SSL_CTX_add_server_custom_ext_ntls] and [SSL_CTX_add_custom_ext_ntls], whose
    callbacks and arguments are the application's own *)
Inductive registration : Type :=
| AddClient (t : Z) (add free : option Z) (addarg : Z) (parse : option Z) (parsearg : Z)
| AddServer (t : Z) (add free : option Z) (addarg : Z) (parse : option Z) (parsearg : Z)
| AddBoth (t context : Z) (add free : option Z) (addarg : Z) (parse : option Z) (parsearg : Z).

Definition reg_type (r : registration) : Z :=
  match r with AddClient t _ _ _ _ _ | AddServer t _ _ _ _ _ | AddBoth t _ _ _ _ _ _ => t end.

Definition register (ct_enabled : bool) (exts : list custom_ext_method) (r : registration) :
  bool * list custom_ext_method :=
  match r with
  | AddClient t add free addarg parse parsearg =>
      SSL_CTX_add_client_custom_ext_ntls ct_enabled exts t add free addarg parse parsearg
  | AddServer t add free addarg parse parsearg =>
      SSL_CTX_add_server_custom_ext_ntls ct_enabled exts t add free addarg parse parsearg
  | AddBoth t context add free addarg parse parsearg =>
      SSL_CTX_add_custom_ext_ntls ct_enabled exts t context (AppCb <$> add) (AppCb <$> free) (VoidPtr addarg)
        (AppCb <$> parse) (VoidPtr parsearg)
  end.

(** [SSL_CTX_enable_ct] may be called in between. *)
Definition registered (calls : list (bool * registration)) : list custom_ext_method :=
  foldl (fun exts '(ct, r) => snd (register ct exts r)) [] calls.

Record entry_ok (c : econf) (m : custom_ext_method) : Prop := {
  entry_type : 0 <= ext_type m <= 0xffff;
  entry_builtin : find_def 0 (ext_defs c) (ext_type m) = None
    \/ ext_type m = TLSEXT_TYPE_signed_certificate_timestamp \/ ext_type m = TLSEXT_TYPE_signature_algorithms_cert;
  entry_free : is_Some (free_cb m) -> is_Some (add_cb m);
  entry_wf : method_wf m }.

Record registry_ok (c : econf) (exts : list custom_ext_method) : Prop := {
  reg_entries : Forall (entry_ok c) exts;
  reg_found : forall i m, exts !! i = Some m -> custom_ext_find_ntls exts (role m) (ext_type m) = Some (i, m) }.

(** ** Searching *)

Lemma find_from_app i exts l r t :
  custom_ext_find_from i (exts ++ l) r t
  = match custom_ext_find_from i exts r t with
    | Some x => Some x
    | None => custom_ext_find_from (i + length exts) l r t
    end.
Proof.
  revert i. induction exts as [| m exts IH]; intros i.
  - now rewrite Nat.add_0_r.
  - rewrite <- app_comm_cons. cbn [custom_ext_find_from length]. destruct (method_matches r t m); [reflexivity |].
    rewrite IH. now replace (S i + length exts)%nat with (i + S (length exts))%nat by lia.
Qed.

Lemma matches_self m : method_matches (role m) (ext_type m) m = true.
Proof. unfold method_matches. rewrite Z.eqb_refl, (bool_decide_eq_true_2 (role m = role m)) by reflexivity. now destruct (bool_decide _). Qed.

(** The built-in extensions that the application may register are two. *)
Lemma unsupported_builtin c t :
  0 <= t <= 0xffff -> SSL_extension_supported_ntls t && negb (t =? TLSEXT_TYPE_signed_certificate_timestamp) = false ->
  find_def 0 (ext_defs c) t = None
  \/ t = TLSEXT_TYPE_signed_certificate_timestamp \/ t = TLSEXT_TYPE_signature_algorithms_cert.
Proof.
  intros Ht H. destruct (find_def 0 (ext_defs c) t) as [[i d] |] eqn:F; [right | now left].
  apply find_def_type in F as [E <-]. rewrite Nat.sub_0_r in E.
  do 30 (destruct i as [| i]; [injection E as <-; cbn in *; auto; try easy; lia |]). easy.
Qed.

(** ** The invariant *)

Lemma add_ok c ct exts r t context add free addarg parse parsearg :
  0 <= t -> (forall fl, method_wf (mk_method t r context fl add free addarg parse parsearg)) -> registry_ok c exts ->
  registry_ok c (snd (add_custom_ext_intern ct exts r t context add free addarg parse parsearg)).
Proof.
  intros Ht Wf H. pose proof H as [He Hf].
  assert (New : (is_Some free -> is_Some add) -> custom_ext_find_ntls exts r t = None -> t <= 0xffff ->
    SSL_extension_supported_ntls t && negb (t =? TLSEXT_TYPE_signed_certificate_timestamp) = false ->
    registry_ok c (exts ++ [mk_method t r context 0 add free addarg parse parsearg])).
  { intros Hfree F Hl Hs. split.
    - apply Forall_app. split; [assumption |]. apply Forall_singleton. split; cbn [ext_type free_cb add_cb]; auto.
      now apply unsupported_builtin.
    - intros i m Hi. unfold custom_ext_find_ntls in *. rewrite find_from_app. apply lookup_app_Some in Hi as [Hi | [Hi Hm]].
      + now rewrite (Hf i m Hi).
      + apply list_lookup_singleton_Some in Hm as [Hi0 <-]. cbn [role ext_type]. rewrite F. cbn [custom_ext_find_from].
        pose proof (matches_self (mk_method t r context 0 add free addarg parse parsearg)) as M. cbn [role ext_type] in M.
        rewrite M. do 2 f_equal. lia. }
  unfold add_custom_ext_intern.
  destruct add, free; try exact H; (destruct (_ && ct); [exact H |]);
    (destruct (SSL_extension_supported_ntls t && negb (t =? TLSEXT_TYPE_signed_certificate_timestamp)); [exact H |]);
    (destruct (Z.ltb_spec 0xffff t); [exact H |]); (destruct (custom_ext_find_ntls exts r t); [exact H |]);
    (destruct (negb _); [exact H |]); apply New; eauto.
Qed.

Lemma register_ok c ct exts r : 0 <= reg_type r -> registry_ok c exts -> registry_ok c (snd (register ct exts r)).
Proof.
  intros Ht H.
  assert (Old : forall ro t ctx add free addarg parse parsearg, 0 <= t ->
    registry_ok c (snd (add_old_custom_ext ct exts ro t ctx add free addarg parse parsearg))).
  { intros ro t ctx add free addarg parse parsearg Ht'. unfold add_old_custom_ext. destruct (negb _); [assumption |].
    apply add_ok; [assumption | | assumption]. intros fl. split; [| split]; intros _; cbn; eauto. }
  destruct r as [| | t context add free addarg parse parsearg]; cbn [register reg_type] in *; [now apply Old | now apply Old |].
  apply add_ok; [assumption | | assumption]. intros fl. destruct add, free, parse; easy.
Qed.

(** C33: Whatever an application registers, in whatever order and with whatever
    failures, every entry of the table of custom extensions has a 16-bit type and
    is the one that is found for its type and its role; an entry that frees has a
    callback that adds; the wrappers of the old interface find their structures;
    and no entry has the type of a built-in extension, except for certificate
    timestamps, which is meant, and the certificate signature algorithms. *)
Theorem registrations_ok c calls :
  Forall (fun '(_, r) => 0 <= reg_type r) calls -> registry_ok c (registered calls).
Proof.
  intros H. unfold registered. assert (H0 : registry_ok c []) by (split; [constructor | easy]).
  revert H0. generalize (@nil custom_ext_method). induction H as [| [ct r] calls Hr H IH]; intros exts Hx; [assumption |].
  cbn [foldl]. apply IH. now apply register_ok.
Qed.

End Registry.

(** ** In the concrete setting *)

#[local] Instance reg_lib : ExtLib := hello_lib [].
#[local] Instance reg_callbacks : Callbacks := hello_callbacks [].
#[local] Instance reg_alloc : Alloc := hello_alloc.

(** The type 1000, for both roles *)
Definition two_roles : list (bool * registration) :=
  [(false, AddClient 1000 (Some 1) (Some 2) 0 None 0); (false, AddServer 1000 None None 0 (Some 3) 0)].

Lemma registrations_ok_witness : registry_ok (hello_conf true) (registered two_roles) /\ length (registered two_roles) = 2%nat.
Proof. split; [| reflexivity]. apply (registrations_ok (hello_conf true) two_roles). repeat constructor; cbn; lia. Defined.

(** What a client with these registrations sends: [custom_ext_add_ntls] does not
    look at the roles, so the type is there twice, *)
Definition twice : list Z := [3; 232; 0; 0; 3; 232; 0; 0; 0; 35; 0; 0; 0; 16; 0; 9; 0; 7; 2; 104; 50; 3; 102; 111; 111].

Definition sent_bytes (r : res (bool * essl)) : option (bool * list Z) :=
  match r with
  | Val (ok, s) => Some (ok, take (Z.to_nat (written (e_pkt s))) (contents (e_pkt s)))
  | Stuck _ => None
  end.

(** and a server with these registrations rejects the hello as one with a
    duplicate. *)
Lemma both_roles_rejected :
  sent_bytes (tls_construct_extensions_ntls (hello_conf false) SSL_EXT_CLIENT_HELLO None 0
                (hello_ssl [] None 0 None (registered two_roles)))
  = Some (true, vec16 twice)
  /\ exists s', tls_collect_extensions_ntls (hello_conf true) (mk_packet twice 0 25) SSL_EXT_CLIENT_HELLO true
                  (hello_ssl [] None 0 None (registered two_roles)) = Val (None, s')
                /\ e_fatal s' = Some SSL_AD_ILLEGAL_PARAMETER.
Proof. split; [vm_compute; reflexivity |]. eexists. split; [vm_compute; reflexivity | reflexivity]. Qed.

(** The type of the certificate signature algorithms can be registered, but what
    the peer sends of it goes to the built-in entry, whatever is registered. *)
Lemma signature_algorithms_cert_shadowed (c : econf) exts :
  fst (register false [] (AddServer TLSEXT_TYPE_signature_algorithms_cert None None 0 (Some 3) 0)) = true
  /\ verify_extension c SSL_EXT_CLIENT_HELLO TLSEXT_TYPE_signature_algorithms_cert exts = Some (Some 15%nat).
Proof. split; [reflexivity |]. unfold verify_extension, validate_context. cbn. now destruct (SSL_IS_DTLS c). Qed.

(** A client over TLS that has SRTP profiles sends them, although the extension is
    for DTLS only, and the server rejects the hello. *)
Definition srtp_conf : econf :=
  mk_econf false false 0x0101 0x0101 false 0 0 true false true 0x0101 (Some 32) false
    None (Some [1]) false None None None None None None 16384 1000.

Lemma srtp_over_tls_rejected :
  sent_bytes (tls_construct_extensions_ntls srtp_conf SSL_EXT_CLIENT_HELLO None 0 (hello_ssl [] None 0 None []))
  = Some (true, [0; 9; 0; 14; 0; 5; 0; 2; 0; 1; 0])
  /\ exists s', tls_collect_extensions_ntls (hello_conf true) (mk_packet [0; 14; 0; 5; 0; 2; 0; 1; 0] 0 9)
                  SSL_EXT_CLIENT_HELLO true (hello_ssl [] None 0 None []) = Val (None, s')
                /\ e_fatal s' = Some SSL_AD_ILLEGAL_PARAMETER.
Proof. split; [vm_compute; reflexivity |]. eexists. split; [vm_compute; reflexivity | reflexivity]. Qed.
