(* ===== verification/ExtLoop.v ===== *)
(** * NTLS hello extensions: constructing

    The loop of [tls_construct_extensions_ntls] over the built-in extensions, and
    the extensions of the two hellos as lists. *)

From S2P Require Import Prelude Buffers CMem Packet PacketSpec Wpacket WpacketSpec PacketRules ExtTypes ExtCust ExtClient ExtServer ExtTable ExtCollect ExtSafe ExtWrite ExtHello.

(** ** Flags *)

Definition sent_flag (fl : list Z) (i : nat) : bool := flag (nth i fl 0) SSL_EXT_FLAG_SENT.

(** Flags are only added. *)
Definition grows (fl fl' : list Z) : Prop :=
  length fl' = length fl /\ forall j, sent_flag fl j = true -> sent_flag fl' j = true.

#[export] Instance grows_preorder : PreOrder grows.
Proof. split; [now split |]. intros a b d [L1 H1] [L2 H2]. split; [congruence | auto]. Qed.

Lemma lor_sent z : flag (Z.lor z SSL_EXT_FLAG_SENT) SSL_EXT_FLAG_SENT = true.
Proof.
  unfold flag. apply negb_true_iff, Z.eqb_neq. intros E. apply (f_equal (fun v => Z.testbit v 1)) in E.
  rewrite Z.land_spec, Z.lor_spec, Z.bits_0 in E. change (Z.testbit SSL_EXT_FLAG_SENT 1) with true in E.
  now rewrite orb_true_r in E.
Qed.

Lemma nth_alter (f : Z -> Z) i l j :
  nth j (alter f i l) 0 = if decide (i = j) then (if decide (j < length l)%nat then f (nth j l 0) else 0) else nth j l 0.
Proof.
  rewrite !nth_lookup. destruct (decide (i = j)) as [-> | Hne]; [| now rewrite list_lookup_alter_ne].
  rewrite list_lookup_alter_eq. destruct (l !! j) as [v |] eqn:E; cbn.
  - apply lookup_lt_Some in E. now destruct (decide _).
  - apply lookup_ge_None in E. destruct (decide _); [lia | reflexivity].
Qed.

Lemma grows_set fl i : grows fl (alter (fun f => Z.lor f SSL_EXT_FLAG_SENT) i fl).
Proof.
  split; [apply length_alter |]. intros j. unfold sent_flag. rewrite nth_alter. destruct (decide (i = j)); [| auto].
  destruct (decide _) as [Hj | Hj]; [intros _; apply lor_sent |]. rewrite nth_overflow by lia. auto.
Qed.

Lemma set_sent fl i : (i < length fl)%nat -> sent_flag (alter (fun f => Z.lor f SSL_EXT_FLAG_SENT) i fl) i = true.
Proof.
  intros Hi. unfold sent_flag. rewrite nth_alter. destruct (decide (i = i)); [| easy].
  destruct (decide _); [apply lor_sent | lia].
Qed.

Section Loop.
Context {L : ExtLib} {K : Callbacks} {A : Alloc} (c : econf) (ctx : Z) (x : option X509) (ci : Z).
Implicit Types s : essl.

(** ** One extension *)

(** What a step does to the frames [fs]: it appends [d], flags the extensions
    [sent], and leaves [s1] apart from that; or it fails with an alert, and not if
    [ok], the bytes fit and memory is available. *)
Definition constructs (k : prog essl bool) s (sent : list nat) (d : list Z) (ok : bool) (s1 : essl) : Prop :=
  forall fs, rep (e_pkt s) fs -> fs <> [] ->
  wp k (fun r s' =>
    if r : bool
    then exists p' fl, s' = s1 <| e_pkt := p' |> <| extflags := fl |> /\ ok = true /\ rep p' (append d fs)
           /\ grows (extflags s) fl
           /\ (flag ctx SSL_EXT_REQUESTS = true -> Forall (fun i => (i < length (extflags s))%nat -> sent_flag fl i = true) sent)
           /\ (room (e_pkt s) (Z.of_nat (length d)) -> (forall a, alloc_ok a = true) ->
               cap p' = cap (e_pkt s) /\ written p' <= written (e_pkt s) + Z.of_nat (length d))
    else safely s false s'
         /\ ~ (ok = true /\ room (e_pkt s) (Z.of_nat (length d)) /\ forall a, alloc_ok a = true)) s.

Lemma constructs_nothing s : constructs (mret true) s [] [] true s.
Proof.
  intros fs R Hne. apply wp_ret. exists (e_pkt s), (extflags s). split; [now destruct s |]. split; [reflexivity |].
  rewrite append_nil. split; [assumption |]. split; [reflexivity |]. split; [constructor |]. cbn. split; [reflexivity | lia].
Qed.

Definition tagged (i : nat) (e : option (Z * list Z)) : list nat := match e with Some _ => [i] | None => [] end.

Lemma construct_one_ok i d k s e ok s1 :
  should_add_extension_ntls c (def_context d) ctx NTLS_MAX_VERSION = true ->
  (if server c then construct_stoc d else construct_ctos d) = Some k ->
  writes_ext (k ctx x ci) s e ok s1 -> extflags s1 = extflags s -> e_pkt s1 = e_pkt s ->
  constructs (construct_one c ctx x ci (i, d)) s (tagged i e) (enc_opt e) ok s1.
Proof.
  intros Hadd Hk H Ef Ep fs R Hne. unfold construct_one. rewrite Hadd, Hk. cbn [negb]. apply wp_bind.
  eapply wp_mono; [now apply (H fs) |]. intros [] s' Hs.
  - rewrite bool_decide_eq_true_2 by reflexivity. now apply wp_ret.
  - rewrite bool_decide_eq_false_2, bool_decide_eq_true_2 by easy. cbn [andb].
    destruct Hs as (p' & -> & Hok & R' & Hr). apply wp_bind.
    apply (wp_mono _ (fun _ s' => exists fl, s' = s1 <| e_pkt := p' |> <| extflags := fl |> /\ grows (extflags s) fl
             /\ (flag ctx SSL_EXT_REQUESTS = true -> (i < length (extflags s))%nat -> sent_flag fl i = true))).
    { destruct (flag ctx SSL_EXT_REQUESTS); esteps.
      - eexists. split; [reflexivity |]. change (extflags (s1 <| e_pkt := p' |>)) with (extflags s1). rewrite Ef.
        split; [apply grows_set | intros _; apply set_sent].
      - exists (extflags s). split; [| split; [reflexivity | easy]]. rewrite <- Ef. now destruct s1. }
    intros _ s' (fl & -> & G & F). esteps. exists p', fl. repeat (split; [first [reflexivity | assumption] |]).
    split; [| assumption]. intros Hq. destruct e; constructor; auto.
  - destruct Hs as (-> & -> & ->). change (bool_decide (EXT_RETURN_NOT_SENT = EXT_RETURN_FAIL)) with false.
    change (bool_decide (EXT_RETURN_NOT_SENT = EXT_RETURN_SENT)) with false. cbn [andb]. esteps.
    cbn [enc_opt length tagged]. exists (e_pkt s), (extflags s). rewrite append_nil.
    split; [rewrite <- Ef, <- Ep; now destruct s1 |].
    split; [reflexivity |]. split; [assumption |]. split; [reflexivity |]. split; [constructor |].
    intros _ _. split; [reflexivity | lia].
Qed.

(** An extension that is not for this message or has no constructor *)
Lemma construct_one_skip i d s :
  should_add_extension_ntls c (def_context d) ctx NTLS_MAX_VERSION = false
  \/ (if server c then construct_stoc d else construct_ctos d) = None ->
  constructs (construct_one c ctx x ci (i, d)) s [] [] true s.
Proof.
  intros H. unfold construct_one. destruct (should_add_extension_ntls _ _ _ _); cbn [negb]; [| apply constructs_nothing].
  destruct H as [| ->]; [easy | apply constructs_nothing].
Qed.

(** ** Several *)

(** A later step starts with any message and flags that an earlier one leaves. *)
Lemma constructs_then k k' s sent d ok s1 sent' d' ok' s2 :
  constructs k s sent d ok s1 ->
  (forall p fl, constructs k' (s1 <| e_pkt := p |> <| extflags := fl |>) sent' d' ok'
                  (s2 <| e_pkt := p |> <| extflags := fl |>)) ->
  keeps s s1 ->
  constructs (r ← k; if negb r then mret false else k') s (sent ++ sent') (d ++ d') (ok && ok') s2.
Proof.
  intros H H' K1 fs R Hne. apply wp_bind. eapply wp_mono; [now apply (H fs) |]. intros [] s'; cbn [negb].
  - intros (p & fl & -> & -> & R1 & G1 & F1 & Hr1). cbn [andb].
    eapply wp_mono; [now apply (H' p fl (append d fs)); [| apply append_ne] |]. rewrite !length_app, Nat2Z.inj_add.
    intros [] s'.
    + intros (p' & fl' & -> & -> & R2 & G2 & F2 & Hr2). ered. exists p', fl'. split; [reflexivity |]. split; [reflexivity |].
      rewrite append_append in R2. split; [assumption |]. change (extflags (_ <| extflags := fl |>)) with fl in *.
      change (e_pkt (s1 <| e_pkt := p |> <| extflags := fl |>)) with p in *.
      split; [now transitivity fl |]. split.
      * intros Hq. apply Forall_app. split.
        -- eapply Forall_impl; [exact (F1 Hq) |]. intros i Hi Hl. now apply G2, Hi.
        -- destruct G1 as [Lg _]. rewrite <- Lg. now apply F2.
      * intros Hr Ha. destruct Hr1 as [Hc1 Hw1]; [unfold room in *; lia | assumption |].
        destruct Hr2 as [Hc2 Hw2]; [unfold room in *; lia | assumption |]. split; [congruence | lia].
    + intros [[K2 F2] No]. change (e_pkt (s1 <| e_pkt := p |> <| extflags := fl |>)) with p in *. split.
      * split; [| assumption]. destruct K1 as [E1 A1], K2 as [E2 A2]. split; [now rewrite E2 | auto].
      * intros (Hok & Hr & Ha). apply No. split; [assumption |]. split; [| assumption].
        destruct Hr1 as [Hc1 Hw1]; [unfold room in *; lia | assumption |]. unfold room in *. lia.
  - intros [Hs No]. apply wp_ret. split; [assumption |]. intros (Hok & Hr & Ha). apply No.
    apply andb_true_iff in Hok as [-> _]. split; [reflexivity |]. split; [| assumption].
    rewrite length_app in Hr. unfold room in *. lia.
Qed.

(** The same, whatever the message and the flags *)
Definition robust (k : prog essl bool) s (sent : list nat) (d : list Z) (ok : bool) (s1 : essl) : Prop :=
  forall p fl, constructs k (s <| e_pkt := p |> <| extflags := fl |>) sent d ok (s1 <| e_pkt := p |> <| extflags := fl |>).

Lemma robust_nil s : robust (each (construct_one c ctx x ci) []) s [] [] true s.
Proof. intros p fl. apply constructs_nothing. Qed.

Lemma robust_skip i d l s sent' d' ok' s2 :
  should_add_extension_ntls c (def_context d) ctx NTLS_MAX_VERSION = false
  \/ (if server c then construct_stoc d else construct_ctos d) = None ->
  robust (each (construct_one c ctx x ci) l) s sent' d' ok' s2 ->
  robust (each (construct_one c ctx x ci) ((i, d) :: l)) s sent' d' ok' s2.
Proof.
  intros H H' p fl. cbn [each].
  apply (constructs_then _ _ _ [] [] true (s <| e_pkt := p |> <| extflags := fl |>) sent' d' ok'); [| | easy].
  - now apply construct_one_skip.
  - intros p' fl'. exact (H' p' fl').
Qed.

(** A constructor that sends nothing *)
Lemma robust_not_sent i d k l s sent' d' ok' s2 :
  (if server c then construct_stoc d else construct_ctos d) = Some k -> k ctx x ci = mret EXT_RETURN_NOT_SENT ->
  robust (each (construct_one c ctx x ci) l) s sent' d' ok' s2 ->
  robust (each (construct_one c ctx x ci) ((i, d) :: l)) s sent' d' ok' s2.
Proof.
  intros Hk Ek H'. destruct (should_add_extension_ntls c (def_context d) ctx NTLS_MAX_VERSION) eqn:Hadd.
  - intros p fl. cbn [each].
    apply (constructs_then _ _ _ [] [] true (s <| e_pkt := p |> <| extflags := fl |>) sent' d' ok'); [| | easy].
    + apply (construct_one_ok i d k _ None true _ Hadd Hk); [| reflexivity | reflexivity]. rewrite Ek. apply writes_none.
    + intros p' fl'. exact (H' p' fl').
  - apply robust_skip; auto.
Qed.

Lemma robust_cons i d k l s e ok s1 sent' d' ok' s2 :
  should_add_extension_ntls c (def_context d) ctx NTLS_MAX_VERSION = true ->
  (if server c then construct_stoc d else construct_ctos d) = Some k ->
  (forall p fl, writes_ext (k ctx x ci) (s <| e_pkt := p |> <| extflags := fl |>) e ok
                  (s1 <| e_pkt := p |> <| extflags := fl |>)) ->
  keeps s s1 ->
  robust (each (construct_one c ctx x ci) l) s1 sent' d' ok' s2 ->
  robust (each (construct_one c ctx x ci) ((i, d) :: l)) s (tagged i e ++ sent') (enc_opt e ++ d') (ok && ok') s2.
Proof.
  intros Hadd Hk Hw K1 H' p fl. cbn [each].
  apply (constructs_then _ _ _ _ _ _ (s1 <| e_pkt := p |> <| extflags := fl |>)); [| | exact K1].
  - now apply (construct_one_ok i d k).
  - intros p' fl'. exact (H' p' fl').
Qed.

End Loop.

(** ** The ClientHello *)

Section ClientHello.
Context {L : ExtLib} {K : Callbacks} {A : Alloc} (c : econf).
Context (Hclient : server c = false) (Htls13 : SSL_IS_TLS13 c = false) (Hssl3 : (version c =? SSL3_VERSION) = false).
Implicit Types s : essl.

(** The extensions of a ClientHello in the order of the table, without padding *)
Definition hello_opts s : list (nat * option (Z * list Z)) :=
  [(1%nat, ctos_server_name s); (2%nat, ctos_max_fragment_length s); (6%nat, ctos_session_ticket c s);
   (7%nat, ctos_status_request s None); (8%nat, ctos_next_proto_neg c); (9%nat, ctos_alpn c);
   (10%nat, ctos_use_srtp c); (12%nat, ctos_sct c None)].
Definition hello_exts s : list (Z * list Z) := omap snd (hello_opts s).
Definition hello_sent s : list nat := flat_map (fun '(i, e) => tagged i e) (hello_opts s).
(** All that is to be copied or encoded can be, and fits its length. *)
Definition hello_ok s : bool :=
  ext_fits (ctos_server_name s) && (ticket_ok c s && ext_fits (ctos_session_ticket c s))
  && (status_ok s None && ext_fits (ctos_status_request s None)) && ext_fits (ctos_alpn c)
  && ext_fits (ctos_use_srtp c).
(** The types of what is sent *)
Record hello_typed s : Prop := {
  typed_hostname : sized (hostname s);
  typed_mode : 0 <= max_fragment_len_mode s < 256;
  typed_ticket : Z.of_nat (length (sent_ticket c s)) <= SIZE_MAX;
  typed_status : status_sized s;
  typed_alpn : sized (alpn c);
  typed_srtp : Forall (fun id => 0 <= id < 65536) (default [] (srtp_profiles c)) }.
Definition after_hello s : essl :=
  after_session_ticket c s <| alpn_sent := bool_decide (is_Some (ctos_alpn c)) |>.

Lemma should_add_hello extctx :
  flag extctx SSL_EXT_CLIENT_HELLO = true -> flag extctx SSL_EXT_TLS_IMPLEMENTATION_ONLY = false ->
  flag extctx SSL_EXT_TLS1_3_ONLY = false -> flag extctx SSL_EXT_IGNORE_ON_RESUMPTION = false ->
  should_add_extension_ntls c extctx SSL_EXT_CLIENT_HELLO NTLS_MAX_VERSION = true.
Proof.
  intros H1 H2 H3 H4. unfold should_add_extension_ntls, extension_is_relevant_ntls.
  rewrite H1, H2, H3, H4, Hclient, Htls13, Hssl3. now rewrite !andb_false_r.
Qed.

(** The next extension of the table: one that is never sent, or one that [lem]
    says what is sent of *)
Ltac skip :=
  first [ eapply robust_skip; [right; rewrite Hclient; reflexivity |]
        | eapply robust_not_sent; [rewrite Hclient; reflexivity | reflexivity |] ].
Ltac use lem :=
  eapply robust_cons;
    [ now apply should_add_hello | rewrite Hclient; reflexivity
    | intros p fl; match goal with |- writes_ext _ ?s _ _ _ => exact (lem s ltac:(first [assumption | exact I])) end
    | now split | ].

Lemma hello_loop ci s :
  hello_typed s ->
  robust SSL_EXT_CLIENT_HELLO
    (each (construct_one c SSL_EXT_CLIENT_HELLO None ci) (take 28 (combine (seq 0 (builtin_num c)) (ext_defs c))))
    s (hello_sent s) (enc_exts (hello_exts s)) (hello_ok s) (after_hello s).
Proof.
  intros [Hn Hm Ht Hst Ha Hsr].
  assert (E : enc_exts (hello_exts s) = enc_opt (ctos_server_name s) ++ enc_opt (ctos_max_fragment_length s)
    ++ enc_opt (ctos_session_ticket c s) ++ enc_opt (ctos_status_request s None) ++ enc_opt (ctos_next_proto_neg c)
    ++ enc_opt (ctos_alpn c) ++ enc_opt (ctos_use_srtp c) ++ enc_opt (ctos_sct c None) ++ []).
  { unfold hello_exts, hello_opts. cbn [omap list_omap snd]. repeat case_match; reflexivity. }
  assert (Ok : hello_ok s = ext_fits (ctos_server_name s) && (true && ((ticket_ok c s && ext_fits (ctos_session_ticket c s))
    && ((status_ok s None && ext_fits (ctos_status_request s None)) && (true && (ext_fits (ctos_alpn c)
    && (ext_fits (ctos_use_srtp c) && (true && true)))))))).
  { unfold hello_ok. rewrite !andb_true_r, !andb_true_l, !andb_assoc. reflexivity. }
  rewrite E, Ok. unfold hello_sent, hello_opts, builtin_num. cbn [flat_map ext_defs length seq combine take].
  (* what follows the session ticket *)
  assert (T : forall s1, s1 = after_session_ticket c s ->
    (s1 = s \/ exists d, s1 = s <| sess_tick := malloc_copy C_malloc_tick d |>) ->
    forall p fl, writes_ext (tls_construct_ctos_session_ticket_ntls c SSL_EXT_CLIENT_HELLO None ci)
      (s <| e_pkt := p |> <| extflags := fl |>) (ctos_session_ticket c s)
      (ticket_ok c s && ext_fits (ctos_session_ticket c s)) (s1 <| e_pkt := p |> <| extflags := fl |>)).
  { intros s1 E1 _ p fl. match goal with |- writes_ext _ ?s' _ _ ?s1' =>
      pose proof (session_ticket_writes c SSL_EXT_CLIENT_HELLO None ci s' Ht) as W;
      assert (E2 : after_session_ticket c s' = s1') end.
    { rewrite E1. unfold after_session_ticket.
      match goal with |- context [copied_ticket c ?s'] =>
        change (copied_ticket c s') with (copied_ticket c s); change (uses_ticket c s') with (uses_ticket c s) end.
      destruct (copied_ticket c s); [destruct (uses_ticket c s) |]; reflexivity. }
    rewrite E2 in W. exact W. }
  assert (Cases : after_session_ticket c s = s
    \/ exists d, after_session_ticket c s = s <| sess_tick := malloc_copy C_malloc_tick d |>).
  { unfold after_session_ticket. destruct (copied_ticket c s); [destruct (uses_ticket c s); [eauto |] |]; auto. }
  unfold after_hello. specialize (T _ eq_refl Cases). destruct Cases as [E1 | [d E1]]; rewrite E1 in T |- *.
  all: skip; use (server_name_writes SSL_EXT_CLIENT_HELLO None ci); use (max_fragment_length_writes SSL_EXT_CLIENT_HELLO None ci).
  all: do 3 skip; (eapply robust_cons; [now apply should_add_hello | rewrite Hclient; reflexivity | exact T | now split |]).
  all: use (status_request_writes SSL_EXT_CLIENT_HELLO None ci).
  all: use (fun s (_ : True) => next_proto_neg_writes c SSL_EXT_CLIENT_HELLO None ci s).
  all: match goal with |- robust _ _ ?s _ _ _ _ =>
         eapply (robust_cons _ _ _ _ _ _ _ _ s _ _ (s <| alpn_sent := bool_decide (is_Some (ctos_alpn c)) |>));
         [now apply should_add_hello | rewrite Hclient; reflexivity | | now split |] end.
  1, 3: intros p fl; match goal with |- writes_ext _ ?s _ _ _ => exact (alpn_writes c SSL_EXT_CLIENT_HELLO None ci s Ha) end.
  all: use (fun s => use_srtp_writes c SSL_EXT_CLIENT_HELLO None ci s).
  all: skip; use (fun s (_ : True) => sct_writes c SSL_EXT_CLIENT_HELLO None ci s).
  all: repeat skip; apply robust_nil.
Qed.

(** ** The whole block *)

(** The extensions of a hello, or nothing *)
Definition block (l : list (Z * list Z)) : list Z := match l with [] => [] | _ => vec16 (enc_exts l) end.

Lemma each_app {B} (f : B -> prog essl bool) l l' s :
  each f (l ++ l') s = (r ← each f l; if negb r then mret false else each f l') s.
Proof.
  revert s. induction l as [| b l IH]; intros s; [reflexivity |]. rewrite <- app_comm_cons. cbn [each].
  unfold mbind, prog_bind. destruct (f b s) as [[r s'] |]; [| reflexivity]. destruct r; cbn [negb]; [| reflexivity].
  rewrite IH. reflexivity.
Qed.

Lemma wp_each_app {B} (f : B -> prog essl bool) l l' Q s :
  wp (each f l) (fun r s' => if r then wp (each f l') Q s' else Q false s') s -> wp (each f (l ++ l')) Q s.
Proof.
  intros H. unfold wp. rewrite each_app. apply (wp_bind (each f l)). eapply wp_mono; [exact H |].
  intros [] s' Hs; cbn [negb]; [exact Hs | now apply wp_ret].
Qed.

Lemma enc_exts_app l l' : enc_exts (l ++ l') = enc_exts l ++ enc_exts l'.
Proof. apply flat_map_app. Qed.

(** What may follow the extensions *)
Definition padding_exts (pad : list (Z * list Z)) : Prop :=
  pad = [] \/ exists n, (1 <= n <= 252)%nat /\ pad = [(TLSEXT_TYPE_padding, repeat 0 n)].

Lemma ctos_padding_exts s : padding_exts (option_list (ctos_padding c s)).
Proof.
  unfold ctos_padding, padding_exts. destruct (flag _ _); [| now left]. destruct (padding_length _) as [n |] eqn:E; [| now left].
  apply padding_length_range in E. right. exists (Z.to_nat n). split; [lia | reflexivity].
Qed.

Lemma padding_exts_length pad : padding_exts pad -> Z.of_nat (length (enc_exts pad)) <= 256.
Proof.
  intros [-> | (n & Hn & ->)]; [cbn; lia |]. unfold enc_exts, enc_ext. cbn [flat_map fst snd].
  rewrite !length_app, !be_bytes_length, repeat_length. cbn [length]. lia.
Qed.

(** The rest of the table: the padding *)
Lemma padding_loop ci s fs :
  rep (e_pkt s) fs -> fs <> [] ->
  wp (each (construct_one c SSL_EXT_CLIENT_HELLO None ci) (drop 28 (combine (seq 0 (builtin_num c)) (ext_defs c))))
    (fun r s' =>
       if r : bool
       then exists p' fl, s' = s <| e_pkt := p' |> <| extflags := fl |> /\ grows (extflags s) fl
              /\ rep p' (append (enc_exts (option_list (ctos_padding c s))) fs)
              /\ (room (e_pkt s) 256 -> (forall a, alloc_ok a = true) ->
                  cap p' = cap (e_pkt s) /\ written p' <= written (e_pkt s) + 256)
       else safely s false s' /\ ~ (room (e_pkt s) 256 /\ forall a, alloc_ok a = true)) s.
Proof.
  intros R Hne. unfold builtin_num. cbn [ext_defs length seq combine drop].
  pose proof (padding_exts_length _ (ctos_padding_exts s)) as Hl.
  replace (enc_exts (option_list (ctos_padding c s))) with (enc_opt (ctos_padding c s)) in *
    by (destruct (ctos_padding c s); [cbn; now rewrite app_nil_r | reflexivity]).
  cbn [each]. apply wp_bind. eapply wp_mono.
  { eapply (construct_one_ok c SSL_EXT_CLIENT_HELLO None ci 28); [now apply should_add_hello | rewrite Hclient; reflexivity |
      apply padding_writes | reflexivity | reflexivity | exact R | exact Hne]. }
  intros [] s'; cbn [negb].
  - intros (p' & fl & -> & _ & R' & G & _ & Hr). apply wp_bind. unfold construct_one. cbn [def_context INVALID_EXTENSION].
    change (should_add_extension_ntls c 0 SSL_EXT_CLIENT_HELLO NTLS_MAX_VERSION) with false. cbn [negb]. esteps. cbn [negb]. esteps.
    exists p', fl. split; [reflexivity |]. split; [assumption |]. split; [assumption |].
    intros Hroom Ha. destruct Hr as [Hr1 Hr2]; [unfold room in *; lia | assumption |]. split; [assumption | lia].
  - intros [Hs No]. esteps. split; [assumption |]. intros [Hroom Ha]. apply No. split; [reflexivity |].
    split; [unfold room in *; lia | assumption].
Qed.

Lemma after_hello_keeps s : keeps s (after_hello s).
Proof.
  unfold after_hello, after_session_ticket. destruct (copied_ticket c s); [destruct (uses_ticket c s) |]; now split.
Qed.

Lemma after_hello_pkt s p : after_hello (s <| e_pkt := p |>) = after_hello s <| e_pkt := p |>.
Proof.
  unfold after_hello, after_session_ticket.
  change (copied_ticket c (s <| e_pkt := p |>)) with (copied_ticket c s).
  change (uses_ticket c (s <| e_pkt := p |>)) with (uses_ticket c s).
  destruct (copied_ticket c s); [destruct (uses_ticket c s) |]; reflexivity.
Qed.

(** The whole table *)
Lemma hello_table ci s fs :
  hello_typed s -> rep (e_pkt s) fs -> fs <> [] ->
  wp (each (construct_one c SSL_EXT_CLIENT_HELLO None ci) (combine (seq 0 (builtin_num c)) (ext_defs c)))
    (fun r s' =>
       if r : bool
       then exists p' fl pad, s' = after_hello s <| e_pkt := p' |> <| extflags := fl |> /\ hello_ok s = true /\ padding_exts pad
              /\ rep p' (append (enc_exts (hello_exts s ++ pad)) fs) /\ grows (extflags s) fl
              /\ Forall (fun i => (i < length (extflags s))%nat -> sent_flag fl i = true) (hello_sent s)
              /\ (room (e_pkt s) (Z.of_nat (length (enc_exts (hello_exts s))) + 256) -> (forall a, alloc_ok a = true) ->
                  cap p' = cap (e_pkt s) /\ written p' <= written (e_pkt s) + Z.of_nat (length (enc_exts (hello_exts s))) + 256)
       else safely s false s'
            /\ ~ (hello_ok s = true /\ room (e_pkt s) (Z.of_nat (length (enc_exts (hello_exts s))) + 256)
                  /\ forall a, alloc_ok a = true)) s.
Proof.
  intros Ht R Hne. rewrite <- (take_drop 28 (combine (seq 0 (builtin_num c)) (ext_defs c))). apply wp_each_app.
  assert (Es : s = s <| e_pkt := e_pkt s |> <| extflags := extflags s |>) by now destruct s.
  pose proof (hello_loop ci s Ht (e_pkt s) (extflags s)) as HL. rewrite <- Es in HL.
  eapply wp_mono; [now apply (HL fs) |].
  intros [] s2.
  - intros (p2 & fl2 & -> & Hok & R2 & G2 & F2 & Hr2).
    eapply wp_mono; [apply (padding_loop ci _ (append (enc_exts (hello_exts s)) fs)); [exact R2 | now apply append_ne] |].
    intros [] s3.
    + intros (p3 & fl3 & -> & G3 & R3 & Hr3). exists p3, fl3, (option_list (ctos_padding c (after_hello s <| e_pkt := p2 |> <| extflags := fl2 |>))).
      split; [reflexivity |]. split; [assumption |]. split; [apply ctos_padding_exts |].
      rewrite enc_exts_app, <- append_append. split; [assumption |]. split; [now transitivity fl2 |]. split.
      * eapply Forall_impl; [now apply F2 |]. intros i Hi Hl. now apply G3, Hi.
      * intros Hr Ha. destruct Hr2 as [Hc2 Hw2]; [unfold room in *; lia | assumption |].
        destruct Hr3 as [Hc3 Hw3]; [unfold room in *; cbn in *; lia | assumption |]. cbn in Hc3, Hw3. split; [congruence | lia].
    + intros [[Hs1 Hs2] No]. split; [split; [etransitivity; [apply after_hello_keeps | exact Hs1] | exact Hs2] |].
      intros (_ & Hr & Ha). apply No.
      destruct Hr2 as [Hc2 Hw2]; [unfold room in *; lia | assumption |]. split; [unfold room in *; cbn; lia | assumption].
  - intros [Hs No]. split; [exact Hs |]. intros (Hok & Hr & Ha). apply No. split; [assumption |].
    split; [unfold room in *; lia | assumption].
Qed.

(** The frame of the block is opened, and dropped again if it stays empty. *)
Lemma open_block_emits :
  emits (and_then WPACKET_start_sub_packet_u16
           (writes (fun p => Val (WPACKET_set_flags p WPACKET_FLAGS_ABANDON_ON_ZERO_LENGTH))))
    [OpOpen 2; OpFlags WPACKET_FLAGS_ABANDON_ON_ZERO_LENGTH].
Proof. apply (emits_and_then _ _ [_] [_]); [apply emits_start | apply emits_flags]. Qed.

Lemma close_block l g fs :
  frun [OpClose] (mk_frame 2 WPACKET_FLAGS_ABANDON_ON_ZERO_LENGTH (enc_exts l) :: g :: fs)
  = if fits16 (enc_exts l) then Some (append (block l) (g :: fs)) else None.
Proof.
  cbn [frun fstep]. unfold close_frame, fits16. cbn [f_len f_flags f_body].
  change (negb (Z.land WPACKET_FLAGS_ABANDON_ON_ZERO_LENGTH WPACKET_FLAGS_NON_ZERO_LENGTH =? 0)) with false.
  change (negb (Z.land WPACKET_FLAGS_ABANDON_ON_ZERO_LENGTH WPACKET_FLAGS_ABANDON_ON_ZERO_LENGTH =? 0)) with true.
  rewrite andb_false_r, andb_true_r. destruct l as [| e l]; [reflexivity |].
  rewrite (proj2 (Nat.eqb_neq _ 0)) by (unfold enc_exts, enc_ext; cbn [flat_map]; rewrite !length_app, !be_bytes_length; lia).
  cbn [Nat.eqb negb andb]. change (256 ^ Z.of_nat 2) with 65536. unfold block, sealed, vec16. cbn [f_len f_body].
  destruct (Z.leb_spec 65536 (Z.of_nat (length (enc_exts (e :: l))))), (Z.ltb_spec (Z.of_nat (length (enc_exts (e :: l)))) 65536);
    (lia || reflexivity).
Qed.

(** The extensions of a ClientHello, for a client without custom extensions: when
    the construction succeeds, the message has been extended by the block of the
    extensions that the client's settings ask for, in the order of the table and
    each with its length, then possibly padding; a block without extensions is left
    out; each extension that is sent has been flagged, so that the answer is
    expected; nothing else of the connection has changed but the ticket and
    [alpn_sent].  The construction fails only with an alert, and not at all if the
    data fit their lengths, there is room and memory is available. *)
Theorem client_hello_extensions ci s fs :
  hello_typed s -> custext s = [] -> rep (e_pkt s) fs -> fs <> [] ->
  exists ok s', tls_construct_extensions_ntls c SSL_EXT_CLIENT_HELLO None ci s = Val (ok, s')
    /\ if ok : bool
       then exists p' fl pad, s' = after_hello s <| e_pkt := p' |> <| extflags := fl |>
              /\ padding_exts pad /\ hello_ok s = true /\ fits16 (enc_exts (hello_exts s ++ pad)) = true
              /\ rep p' (append (block (hello_exts s ++ pad)) fs) /\ grows (extflags s) fl
              /\ Forall (fun i => (i < length (extflags s))%nat -> sent_flag fl i = true) (hello_sent s)
       else safely s false s'
            /\ ~ (hello_ok s = true /\ Z.of_nat (length (enc_exts (hello_exts s))) + 256 < 65536
                  /\ room (e_pkt s) (2 + Z.of_nat (length (enc_exts (hello_exts s))) + 256)
                  /\ forall a, alloc_ok a = true).
Proof.
  intros Ht Hc R Hne. apply (wp_run (tls_construct_extensions_ntls c SSL_EXT_CLIENT_HELLO None ci) (fun ok s' => if ok : bool then _ else _)).
  unfold tls_construct_extensions_ntls. change (flag SSL_EXT_CLIENT_HELLO HELLO) with true.
  change (flag SSL_EXT_CLIENT_HELLO SSL_EXT_CLIENT_HELLO) with true. apply wp_bind.
  eapply wp_mono; [now apply (open_block_emits s fs) |]. intros [] s1 (p1 & -> & H1 & H2); cbn [negb].
  2:{ esteps. split; [apply safely_alert; now split |]. intros (_ & _ & Hr & Ha).
      destruct fs as [| g fs]; [easy |]. destruct H2 as [? _]; [| easy | assumption | easy].
      change (costs _) with (2 + (0 + 0)). unfold room in *. lia. }
  destruct (H1 eq_refl) as (fs1 & E1 & Hne1 & R1). cbn [frun fstep open_frame mbind option_bind f_len f_body] in E1.
  injection E1 as <-. esteps. ered. rewrite Hc. cbn [custom_ext_init_ntls map]. unfold custom_ext_add_ntls. esteps. ered. cbn [length seq each].
  esteps. cbn [negb]. apply wp_bind.
  assert (Hroom1 : room (e_pkt s) (2 + Z.of_nat (length (enc_exts (hello_exts s))) + 256) -> (forall a, alloc_ok a = true) ->
    cap p1 = cap (e_pkt s) /\ written p1 <= written (e_pkt s) + 2).
  { intros Hr Ha. destruct H2 as (_ & Hc1 & Hw1); [change (costs _) with (2 + (0 + 0)); unfold room in *; lia | | assumption |];
      [destruct fs; easy |]. change (costs _) with (2 + (0 + 0)) in Hw1. split; [assumption | lia]. }
  replace (s <| e_pkt := p1 |> <| custext := [] |>) with (s <| e_pkt := p1 |>) by (rewrite <- Hc; now destruct s).
  eapply wp_mono; [apply (hello_table ci (s <| e_pkt := p1 |>)); [destruct Ht; now constructor | exact R1 | exact Hne1] |]. intros [] s2; cbn [negb].
  - intros (p2 & fl & pad & -> & Hok & Hp & R2 & G & F & Hr2). apply wp_bind.
    pose proof (padding_exts_length _ Hp) as Hl.
    eapply wp_mono; [eapply (emits_close _ _); [exact R2 | apply append_ne; exact Hne1] |].
    destruct fs as [| g fs]; [easy |]. change (hello_exts (s <| e_pkt := p1 |>)) with (hello_exts s) in *.
    match goal with |- context [frun [OpClose] ?f] =>
      change f with (mk_frame 2 WPACKET_FLAGS_ABANDON_ON_ZERO_LENGTH (enc_exts (hello_exts s ++ pad)) :: g :: fs) end.
    rewrite close_block.
    intros [] s3 (p3 & -> & H3 & H4); cbn [negb]; esteps; ered.
    + destruct (H3 eq_refl) as (fs' & E & _ & R3). destruct (fits16 _) eqn:Ef; [| easy]. injection E as <-.
      exists p3, fl, pad. rewrite after_hello_pkt. auto 10.
    + split; [apply safely_alert; exact (after_hello_keeps (s <| e_pkt := p1 |>)) |].
      intros (_ & Hn & Hr & Ha). destruct (Hroom1 Hr Ha) as [Hc1 Hw1]. unfold room in *. change (costs [OpClose]) with 0 in *. cbn [set e_pkt extflags] in *.
      destruct Hr2 as [Hc2 Hw2]; [lia | assumption |]. destruct H4 as [? _]; [lia | | assumption | easy].
      unfold fits16. rewrite enc_exts_app, length_app, (proj2 (Z.ltb_lt _ _)) by lia. easy.
  - intros [Hs No]. esteps. split; [exact Hs |]. intros (Hok & Hn & Hr & Ha). destruct (Hroom1 Hr Ha) as [Hc1 Hw1].
    apply No. split; [assumption |]. change (hello_exts (s <| e_pkt := p1 |>)) with (hello_exts s).
    split; [unfold room in *; cbn [set e_pkt]; lia | assumption].
Qed.


End ClientHello.
