(* ===== verification/ExtParse.v ===== *)
(** * NTLS hello extensions: parsing what the client sends

    The server's parsers on extension data that are well formed: each accepts
    them, and the connection then has what the client sent. *)

From S2P Require Import Prelude Buffers CMem Packet PacketSpec Wpacket WpacketSpec PacketRules ExtTypes ExtCust ExtClient ExtServer ExtTable ExtCollect ExtSafe ExtWrite ExtHello.

(** ** Rules *)

Section Rules.
Context {L : ExtLib}.
Implicit Types s : essl.

(** A packet that is one vector of 16 bits of length *)
Lemma wp_as_vec16 pkt d (Q : _ -> essl -> Prop) s :
  packet_wf pkt -> view pkt = vec16 d -> fits16 d = true ->
  (forall sub p, packet_wf sub -> view sub = d -> Q (Some (sub, p)) s) ->
  wp (reads (PACKET_as_length_prefixed_2 pkt)) Q s.
Proof.
  intros W V F HQ. apply fits16_lt in F.
  apply (wp_vec_inv 2 true PACKET_get_net_2 _ _ _ simulates_2 ltac:(lia) W).
  - intros No. exfalso. apply (No d []); [exact F | reflexivity | now rewrite app_nil_r].
  - intros sub p Ws _ _ _ Hs Hl E. apply HQ; [assumption |]. rewrite Hl, app_nil_r, V in E by reflexivity.
    unfold vec16 in E. apply app_inj_1 in E as [E1 E]; [| now rewrite !be_bytes_length].
    now symmetry.
Qed.

Lemma wp_get_vec16 pkt d rest (Q : _ -> essl -> Prop) s :
  packet_wf pkt -> view pkt = vec16 d ++ rest -> fits16 d = true ->
  (forall sub p, packet_wf sub -> view sub = d -> packet_wf p -> view p = rest -> Q (Some (sub, p)) s) ->
  wp (reads (PACKET_get_length_prefixed_2 pkt)) Q s.
Proof.
  intros W V F HQ. apply fits16_lt in F. apply (wp_get_vec 2 PACKET_get_net_2 _ d rest _ _ simulates_2); auto.
Qed.

Lemma wp_get_vec8 pkt d rest (Q : _ -> essl -> Prop) s :
  packet_wf pkt -> view pkt = vec8 d ++ rest -> (length d < 256)%nat ->
  (forall sub p, packet_wf sub -> view sub = d -> packet_wf p -> view p = rest -> Q (Some (sub, p)) s) ->
  wp (reads (PACKET_get_length_prefixed_1 pkt)) Q s.
Proof.
  intros W V F HQ. apply (wp_get_vec 1 PACKET_get_1 _ d rest _ _ simulates_1); auto. lia.
Qed.

Lemma remaining_length pkt : packet_wf pkt -> PACKET_remaining pkt = Z.of_nat (length (view pkt)).
Proof. intros W. symmetry. exact (view_length pkt W). Qed.

(** The parser accepts the data [d] in the state [s] and leaves [s']. *)
Definition accepts (p : @parser L) (d : list Z) s s' : Prop :=
  forall pkt ctx ci, packet_wf pkt -> view pkt = d -> wp (p pkt ctx None ci) (fun ok t => ok = true /\ t = s') s.

End Rules.

(** ** The parsers *)

Section Parsers.
Context {L : ExtLib} {K : Callbacks} {A : Alloc} (c : econf).
Context (Hhit : hit c = false) (Hok : forall k, ext_ok k = true).
Implicit Types s : essl.

Definition received_name (h : list Z) s : essl := s <| hostname := Some h |> <| servername_done := true |>.

Lemma strnlen_all b : 0 ∉ b -> take (strnlen b) b = b.
Proof.
  induction b as [| x b IH]; [reflexivity |]. intros H. apply not_elem_of_cons in H as [H1 H2]. cbn [strnlen].
  destruct (Z.eqb_spec x 0); [congruence |]. cbn [take]. now rewrite IH.
Qed.

Lemma server_name_accepts h s :
  (length h <= 255)%nat -> 0 ∉ h ->
  accepts (tls_parse_ctos_server_name_ntls c) (vec16 (be_bytes 1 TLSEXT_NAMETYPE_host_name ++ vec16 h))
    s (received_name h s).
Proof.
  intros Hl H0 pkt ctx ci W V. unfold tls_parse_ctos_server_name_ntls, single_hostname.
  assert (Lh : length (vec16 h) = (2 + length h)%nat) by (unfold vec16; now rewrite length_app, be_bytes_length).
  apply wp_bind, wp_bind. apply (wp_as_vec16 _ _ _ _ W V).
  { apply fits16_lt. rewrite length_app, be_bytes_length, Lh. lia. }
  intros sub p Ws Vs. rewrite remaining_ne by (rewrite ?Vs; easy). apply wp_bind.
  apply (wp_get_1 _ TLSEXT_NAMETYPE_host_name (vec16 h) _ _ Ws Vs); [easy |]. intros p' Wp' _ Vp'.
  cbn [negb Z.eqb TLSEXT_NAMETYPE_host_name]. apply wp_bind.
  apply (wp_as_vec16 _ _ _ _ Wp' Vp'); [apply fits16_lt; lia |]. intros sub' p'' Wn Vn. esteps.
  rewrite Hhit. cbn [negb orb]. rewrite remaining_length, Vn by assumption.
  destruct (Z.ltb_spec TLSEXT_MAXLEN_host_name (Z.of_nat (length h))); [unfold TLSEXT_MAXLEN_host_name in *; lia |].
  apply wp_bind. eapply wp_reads; [now apply contains_zero_ok |]. rewrite Vn, bool_decide_eq_false_2 by assumption.
  esteps. unfold strndup. rewrite Hok, Vn, strnlen_all by assumption. cbn [negb]. rewrite bool_decide_eq_true_2 by eauto.
  cbn [negb]. esteps. now split.
Qed.

Definition received_mode (m : Z) s : essl := s <| sess_max_fragment_len_mode := m |>.

Lemma maxfragmentlen_accepts m s :
  IS_MAX_FRAGMENT_LENGTH_EXT_VALID m = true ->
  accepts (tls_parse_ctos_maxfragmentlen_ntls c) (be_bytes 1 m) s (received_mode m s).
Proof.
  intros Hm pkt ctx ci W V. unfold tls_parse_ctos_maxfragmentlen_ntls, single_byte. apply wp_bind.
  rewrite remaining_length, V, be_bytes_length by assumption. cbn [Z.of_nat Pos.of_succ_nat Z.eqb Pos.eqb negb].
  apply wp_bind. pose proof Hm as Hr. unfold IS_MAX_FRAGMENT_LENGTH_EXT_VALID in Hr. apply andb_true_iff in Hr as [H1 H2].
  apply Z.leb_le in H1, H2. unfold TLSEXT_max_fragment_length_512, TLSEXT_max_fragment_length_4096 in *.
  apply (wp_get_1 _ m [] _ _ W); [now rewrite app_nil_r | lia |]. intros p Wp _ _. esteps. rewrite Hm. cbn [negb].
  esteps. rewrite Hhit. cbn [andb]. esteps. now split.
Qed.

Lemma session_ticket_accepts d s :
  session_ticket_cb c = None -> accepts (tls_parse_ctos_session_ticket_ntls c) d s s.
Proof.
  intros Hcb pkt ctx ci W V. unfold tls_parse_ctos_session_ticket_ntls, session_ticket_ok. rewrite Hcb. esteps.
  cbn [negb]. esteps. now split.
Qed.

Definition received_npn s : essl := s <| npn_seen := SSL_IS_FIRST_HANDSHAKE c || npn_seen s |>.

Lemma npn_accepts d s : accepts (tls_parse_ctos_npn_ntls c) d s (received_npn s).
Proof.
  intros pkt ctx ci W V. unfold tls_parse_ctos_npn_ntls, received_npn. apply wp_bind.
  destruct (SSL_IS_FIRST_HANDSHAKE c); esteps; split; [reflexivity | reflexivity | reflexivity | now destruct s].
Qed.

(** *** Application-layer protocols *)

(** A list of protocols, none of which is empty *)
Definition protocols (l : list Z) : Prop :=
  exists ps, ps <> [] /\ Forall (fun p => (1 <= length p < 256)%nat) ps /\ l = flat_map vec8 ps.

Lemma check_protocols_ok fuel pkt ps s (Q : bool -> essl -> Prop) :
  packet_wf pkt -> ps <> [] -> Forall (fun p => (1 <= length p < 256)%nat) ps -> view pkt = flat_map vec8 ps ->
  (length (view pkt) <= fuel)%nat -> Q true s -> wp (reads (check_protocols fuel pkt)) Q s.
Proof.
  intros W Hne Hp V Hf HQ. revert pkt fuel W V Hf. induction Hp as [| p ps Hp Hps IH]; [easy |].
  intros pkt fuel W V Hf. cbn [flat_map] in V.
  assert (Lp : (length p < length (vec8 p))%nat) by (unfold vec8; rewrite length_app, be_bytes_length; lia).
  rewrite V, length_app in Hf. destruct fuel as [| fuel]; [lia |]. cbn [check_protocols].
  apply reads_bind, (wp_get_vec8 _ _ _ _ _ W V); [lia |]. intros sub q Ws Vs Wq Vq.
  rewrite remaining_ne; [| assumption | rewrite Vs; now destruct p; [cbn in Hp; lia |]].
  destruct ps as [| p' ps].
  - rewrite remaining_length, Vq by assumption. cbn [flat_map length Z.of_nat Z.eqb]. exact HQ.
  - rewrite remaining_ne; [| assumption | rewrite Vq; discriminate]. apply IH; [easy | assumption | assumption |].
    rewrite Vq. lia.
Qed.

Definition received_alpn (l : list Z) s : essl :=
  s <| alpn_proposed := if SSL_IS_FIRST_HANDSHAKE c then Some l else alpn_proposed s |>.

Lemma alpn_accepts l s :
  protocols l -> fits16 l = true -> accepts (tls_parse_ctos_alpn_ntls c) (vec16 l) s (received_alpn l s).
Proof.
  intros (ps & Hne & Hps & El) F pkt ctx ci W V. unfold tls_parse_ctos_alpn_ntls, received_alpn.
  destruct (SSL_IS_FIRST_HANDSHAKE c); cbn [negb]; [| esteps; split; [reflexivity | now destruct s]].
  apply wp_bind, (wp_as_vec16 _ _ _ _ W V F). intros sub p Ws Vs.
  assert (Hl : (2 <= length l)%nat).
  { destruct Hps as [| p' ps' Hp' _]; [easy |]. rewrite El. cbn [flat_map]. unfold vec8. rewrite !length_app, be_bytes_length. lia. }
  rewrite remaining_length, Vs by assumption. destruct (Z.ltb_spec (Z.of_nat (length l)) 2); [lia |]. apply wp_bind.
  apply (check_protocols_ok _ _ ps); [assumption | assumption | assumption | congruence | rewrite Vs; lia |].
  cbn [negb]. esteps. rewrite Vs. apply fits16_lt in F.
  assert (E : memdup C_memdup_alpn_proposed l = Some l).
  { unfold memdup, malloc_copy. destruct (Z.leb_spec INT_MAX (Z.of_nat (length l))); [unfold INT_MAX in *; lia |].
    rewrite Hok. destruct (Nat.eqb_spec (length l) 0); [lia | reflexivity]. }
  rewrite E. esteps. rewrite bool_decide_eq_true_2 by eauto. cbn [negb]. esteps. now split.
Qed.

(** *** Status request *)

(** What [i2d] writes, [d2i] reads. *)
Definition id_decodes (id : OCSP_RESPID) : Prop :=
  i2d_OCSP_RESPID id <> []
  /\ d2i_OCSP_RESPID (i2d_OCSP_RESPID id) = Some (id, Z.of_nat (length (i2d_OCSP_RESPID id))).
Definition exts_decode (e : X509_EXTENSIONS) : Prop :=
  exists b, i2d_X509_EXTENSIONS e = Some b /\ b <> [] /\ d2i_X509_EXTENSIONS b = Some (e, Z.of_nat (length b)).

Definition enc_ids (ids : list OCSP_RESPID) : list Z := flat_map (fun id => vec16 (i2d_OCSP_RESPID id)) ids.

Lemma responder_ids_ok fuel pkt ids s :
  packet_wf pkt -> Forall (fun id => id_decodes id /\ fits16 (i2d_OCSP_RESPID id) = true) ids -> view pkt = enc_ids ids ->
  (length (view pkt) <= fuel)%nat ->
  wp (parse_responder_ids fuel pkt) (fun ok t => ok = true /\ t = s <| ocsp_ids := ocsp_ids s ++ ids |>) s.
Proof.
  intros W H V Hf. revert s pkt fuel W V Hf. induction H as [| id ids [[Hne Hd] F] H IH]; intros s pkt fuel W V Hf.
  - assert (E : PACKET_remaining pkt = 0) by now apply remaining_nil. destruct fuel; cbn [parse_responder_ids];
      rewrite E; cbn [Z.leb Z.compare]; esteps; rewrite app_nil_r; (split; [reflexivity | now destruct s]).
  - unfold enc_ids in V. cbn [flat_map] in V. assert (Lv := f_equal length V). rewrite length_app, vec16_length in Lv.
    destruct fuel as [| fuel]; [lia |]. cbn [parse_responder_ids]. rewrite remaining_length by assumption.
    destruct (Z.leb_spec (Z.of_nat (length (view pkt))) 0); [lia |]. apply wp_bind, (wp_get_vec16 _ _ _ _ _ W V F).
    intros sub p Ws Vs Wp Vp. rewrite remaining_ne by (rewrite ?Vs; assumption). esteps. rewrite Vs, Hd.
    rewrite remaining_length, Vs, Z.eqb_refl, Hok by assumption. cbn [negb]. esteps.
    eapply wp_mono; [apply (IH _ p fuel Wp Vp); rewrite Vp; unfold enc_ids; lia |].
    intros ok t [-> ->]. split; [reflexivity |]. ered. now rewrite <- app_assoc.
Qed.

Definition enc_request_exts (e : option X509_EXTENSIONS) : list Z :=
  match e with Some e => default [] (i2d_X509_EXTENSIONS e) | None => [] end.
Definition received_status (ids : list OCSP_RESPID) (e : option X509_EXTENSIONS) s : essl :=
  s <| status_type := TLSEXT_STATUSTYPE_ocsp |> <| ocsp_ids := ids |>
    <| ocsp_exts := match e with Some _ => e | None => ocsp_exts s end |>.

Lemma status_request_accepts ids e s :
  Forall id_decodes ids -> (forall e', e = Some e' -> exts_decode e') ->
  Forall (fun id => fits16 (i2d_OCSP_RESPID id) = true) ids -> fits16 (enc_ids ids) = true -> fits16 (enc_request_exts e) = true ->
  accepts (tls_parse_ctos_status_request_ntls c)
    (be_bytes 1 TLSEXT_STATUSTYPE_ocsp ++ vec16 (enc_ids ids) ++ vec16 (enc_request_exts e)) s (received_status ids e s).
Proof.
  intros Hids He Fid Fids Fe pkt ctx ci W V. unfold tls_parse_ctos_status_request_ntls. rewrite Hhit. cbn [orb].
  rewrite bool_decide_eq_false_2 by apply is_Some_None. apply wp_bind, (wp_get_1 _ _ _ _ _ W V); [easy |].
  intros p1 W1 _ V1. esteps. cbn [Z.eqb TLSEXT_STATUSTYPE_ocsp Pos.eqb negb].
  apply wp_bind, (wp_get_vec16 _ _ _ _ _ W1 V1 Fids). intros sub p2 Ws Vs W2 V2. esteps. rewrite Hok, andb_false_r.
  apply wp_bind. eapply wp_mono.
  { apply (responder_ids_ok _ _ ids _ Ws); [| assumption | rewrite remaining_length by assumption; lia].
    apply Forall_forall. intros id Hid. rewrite Forall_forall in Hids, Fid. auto. }
  intros ok t [-> ->]. cbn [negb]. unfold parse_request_extensions.
  rewrite <- (app_nil_r (vec16 _)), app_nil_r in V2. apply wp_bind, (wp_as_vec16 _ _ _ _ W2 V2 Fe).
  intros sub' p3 We Ve. rewrite remaining_length, Ve by assumption. unfold received_status.
  destruct e as [e |]; cbn [enc_request_exts default length Z.of_nat Z.ltb Z.compare].
  - destruct (He e eq_refl) as (b & Eb & Hb & Hd). cbn [enc_request_exts] in Ve. rewrite Eb in Ve |- *. cbn [default] in *.
    change (id b) with b in *. destruct (Z.ltb_spec 0 (Z.of_nat (length b))); [| destruct b; [easy | cbn [length] in *; lia]].
    esteps. rewrite Ve, Hd. esteps. rewrite Z.eqb_refl. cbn [negb]. esteps. now split.
  - esteps. split; [reflexivity |]. now destruct s.
Qed.

(** *** SRTP *)

(** The first profile of the server's list that the client offers *)
Definition srtp_best (srvr offered : list Z) : option Z := List.find (fun p => bool_decide (p ∈ offered)) srvr.

Lemma srtp_search_spec i l id :
  match srtp_search i l id with
  | Some k => exists l1 l2, l = l1 ++ id :: l2 /\ k = (i + length l1)%nat /\ id ∉ l1
  | None => id ∉ l
  end.
Proof.
  revert i. induction l as [| p l IH]; intros i; cbn [srtp_search]; [apply not_elem_of_nil |].
  destruct (Z.eqb_spec p id) as [-> | Hne].
  - exists [], l. split; [reflexivity |]. split; [cbn; lia | apply not_elem_of_nil].
  - specialize (IH (S i)). destruct (srtp_search (S i) l id) as [k |].
    + destruct IH as (l1 & l2 & -> & -> & H). exists (p :: l1), l2. split; [reflexivity |].
      split; [cbn; lia | apply not_elem_of_cons; auto].
    + apply not_elem_of_cons; auto.
Qed.

Lemma srtp_best_other srvr id offered : id ∉ srvr -> srtp_best srvr (id :: offered) = srtp_best srvr offered.
Proof.
  unfold srtp_best. induction srvr as [| p l IH]; [reflexivity |]. intros H. apply not_elem_of_cons in H as [H1 H2]. cbn [List.find].
  rewrite (bool_decide_ext (p ∈ id :: offered) (p ∈ offered)) by (rewrite elem_of_cons; intuition congruence).
  destruct (bool_decide _); auto.
Qed.

Lemma srtp_best_split l1 id l2 offered :
  id ∉ l1 -> srtp_best (l1 ++ id :: l2) (id :: offered)
             = match srtp_best l1 offered with Some p => Some p | None => Some id end.
Proof.
  intros H. rewrite <- (srtp_best_other l1 id offered H). unfold srtp_best. clear H. induction l1 as [| p l1 IH].
  - rewrite app_nil_l. cbn [List.find]. now rewrite bool_decide_eq_true_2 by now left.
  - rewrite <- app_comm_cons. cbn [List.find]. destruct (bool_decide _); auto.
Qed.

Lemma srtp_choose_ok fuel srvr pref pkt offered s :
  packet_wf pkt -> Forall (fun id => 0 <= id < 65536) offered -> view pkt = flat_map (be_bytes 2) offered ->
  (length (view pkt) <= fuel)%nat ->
  wp (srtp_choose fuel srvr pref pkt)
    (fun ok t => ok = true
       /\ t = s <| srtp_profile := match srtp_best (take pref srvr) offered with Some p => Some p | None => srtp_profile s end |>) s.
Proof.
  intros W H V Hf. revert s pref pkt fuel W V Hf. induction H as [| id offered Hid H IH]; intros s pref pkt fuel W V Hf.
  - assert (E : PACKET_remaining pkt = 0) by now apply remaining_nil.
    assert (N : srtp_best (take pref srvr) [] = None).
    { unfold srtp_best. induction (take pref srvr) as [| p l IH]; [reflexivity |]. cbn [List.find].
      rewrite bool_decide_eq_false_2 by apply not_elem_of_nil. exact IH. }
    rewrite N. destruct fuel; cbn [srtp_choose]; rewrite E; cbn [Z.eqb]; esteps; (split; [reflexivity | now destruct s]).
  - cbn [flat_map] in V. assert (Lv := f_equal length V). rewrite length_app, be_bytes_length in Lv.
    destruct fuel as [| fuel]; [lia |]. cbn [srtp_choose].
    rewrite remaining_ne by (assumption || (intros E; rewrite E in Lv; cbn in Lv; lia)).
    apply wp_bind, (wp_get_net_2 _ _ _ _ _ W V Hid). intros p Wp _ Vp.
    pose proof (srtp_search_spec 0 (take pref srvr) id) as S. destruct (srtp_search 0 (take pref srvr) id) as [k |].
    + destruct S as (l1 & l2 & E & -> & Hn). cbn [Nat.add]. esteps.
      assert (El : take (length l1) srvr = l1).
      { rewrite <- (take_drop pref srvr), E, <- app_assoc. apply take_app_length. }
      eapply wp_mono; [apply (IH _ _ p fuel Wp Vp); rewrite Vp; lia |]. intros ok t [-> ->]. split; [reflexivity |].
      rewrite El, E, srtp_best_split by assumption. ered. now destruct (srtp_best l1 offered).
    + rewrite srtp_best_other by assumption. apply (IH _ _ p fuel Wp Vp). rewrite Vp. lia.
Qed.

Definition received_srtp (offered : list Z) s : essl :=
  s <| srtp_profile := match srtp_profiles c with Some srvr => srtp_best srvr offered | None => srtp_profile s end |>.

Lemma use_srtp_accepts offered s :
  Forall (fun id => 0 <= id < 65536) offered -> fits16 (flat_map (be_bytes 2) offered) = true ->
  accepts (tls_parse_ctos_use_srtp_ntls c) (vec16 (flat_map (be_bytes 2) offered) ++ be_bytes 1 0) s (received_srtp offered s).
Proof.
  intros Ho F pkt ctx ci W V. unfold tls_parse_ctos_use_srtp_ntls, received_srtp.
  destruct (srtp_profiles c) as [srvr |]; [| esteps; split; [reflexivity | now destruct s]].
  apply fits16_lt in F. unfold vec16 in V. rewrite <- app_assoc in V.
  apply wp_bind, (wp_get_net_2 _ _ _ _ _ W V); [lia |]. intros p Wp _ Vp.
  assert (Ev : exists n, length (flat_map (be_bytes 2) offered) = (2 * n)%nat).
  { clear. induction offered as [| id l [n IH]]; [now exists 0%nat |]. exists (S n). cbn [flat_map].
    rewrite length_app, be_bytes_length. lia. }
  destruct Ev as [n Ev]. change 1 with (Z.ones 1) at 1. rewrite Z.land_ones by lia. change (2 ^ 1) with 2.
  rewrite Ev. replace (Z.of_nat (2 * n) mod 2) with 0 by (zdm; lia). cbn [Z.eqb negb]. rewrite <- Ev.
  pose proof (get_sub_packet_ok p (Z.of_nat (length (flat_map (be_bytes 2) offered))) Wp ltac:(lia)) as G.
  unfold read_bytes in G. rewrite Vp, Nat2Z.id, (proj2 (Nat.leb_le _ _)), take_app_length, drop_app_length in G
    by (rewrite length_app; lia).
  destruct (PACKET_get_sub_packet p _) as [[sub q] |]; [| easy]. destruct G as ((Ws & _ & Vs) & Wq & _ & Vq).
  esteps. eapply wp_mono; [apply (srtp_choose_ok _ srvr (length srvr) sub offered _ Ws Ho Vs)|].
  { rewrite remaining_length by assumption. lia. }
  intros ok t [-> ->]. cbn [negb]. apply wp_bind.
  apply (wp_get_1 _ 0 [] _ _ Wq); [exact Vq | easy |]. intros q' Wq' _ Vq'. unfold PACKET_forward.
  rewrite remaining_nil by assumption. cbn [Z.ltb Z.compare].
  assert (E0 : PACKET_remaining (packet_forward q' 0) = 0).
  { pose proof (remaining_nil _ Wq' Vq') as E. unfold PACKET_remaining, packet_forward in *. cbn [remaining]. now rewrite E. }
  rewrite E0. cbn [Z.eqb negb]. esteps. split; [reflexivity |]. rewrite firstn_all. ered.
  now destruct (srtp_best srvr offered).
Qed.

End Parsers.
