(* ===== verification/ExtAgree.v ===== *)
(** * NTLS hello extensions: from the client to the server

    What the client constructs, the server collects and parses: the connection of
    the server then has the settings of the client. *)

From S2P Require Import Prelude Buffers CMem Packet PacketSpec Wpacket WpacketSpec PacketRules ExtTypes ExtToy ExtCust ExtClient ExtServer ExtTable ExtCollect ExtSafe ExtWrite ExtHello ExtLoop ExtParse.

(** ** Lists of extensions by type *)

Definition assoc (t : Z) (l : list (Z * list Z)) : option (list Z) := snd <$> List.find (fun e => fst e =? t) l.

Lemma assoc_Some t l d : assoc t l = Some d -> (t, d) ∈ l.
Proof.
  unfold assoc. destruct (List.find _ l) as [[t' d'] |] eqn:E; [| easy]. intros [= <-].
  apply find_some in E as [H1 H2]. apply Z.eqb_eq in H2. cbn in H2. subst t'. now apply list_elem_of_In.
Qed.

Lemma assoc_None t l : assoc t l = None <-> t ∉ l.*1.
Proof.
  unfold assoc. rewrite fmap_None. split.
  - intros E H. apply list_elem_of_fmap in H as ([t' d] & -> & H). apply list_elem_of_In in H.
    apply (find_none _ _ E) in H. now rewrite Z.eqb_refl in H.
  - intros H. destruct (List.find _ l) as [[t' d] |] eqn:E; [| reflexivity]. exfalso. apply find_some in E as [H1 H2].
    apply Z.eqb_eq in H2. cbn in H2. subst t'. apply H, list_elem_of_fmap. exists (t, d). split; [easy | now apply list_elem_of_In].
Qed.

(** Optional extensions, the k-th of the k-th type *)
Definition typed_by (os : list (option (Z * list Z))) (ts : list Z) : Prop :=
  Forall2 (fun o t => match o with Some e => fst e = t | None => True end) os ts.

Lemma typed_sublist os ts : typed_by os ts -> (omap id os).*1 `sublist_of` ts.
Proof.
  intros H. induction H as [| [e |] t os ts Ht H IH]; cbn; [constructor | | now constructor]. subst t. now constructor.
Qed.

Lemma typed_assoc os ts k o t :
  typed_by os ts -> NoDup ts -> os !! k = Some o -> ts !! k = Some t -> assoc t (omap id os) = snd <$> o.
Proof.
  intros H. revert k. induction H as [| o' t' os ts Ht H IH]; intros k ND Eo Et; [easy |].
  apply NoDup_cons in ND as [Hn ND]. destruct k as [| k]; cbn in Eo, Et.
  - injection Eo as ->. injection Et as ->. destruct o as [e |]; cbn [omap list_omap id].
    + unfold assoc. cbn. now rewrite Ht, Z.eqb_refl.
    + apply assoc_None. intros Hi. apply Hn. eapply elem_of_sublist; [exact Hi |]. now apply typed_sublist.
  - rewrite <- (IH k) by assumption. destruct o' as [e |]; [| reflexivity]. unfold assoc. cbn. rewrite Ht.
    destruct (Z.eqb_spec t' t) as [-> |]; [| reflexivity]. exfalso. apply Hn. now apply list_elem_of_lookup_2 in Et.
Qed.

Lemma enc_exts_inj l l' : Forall fits l -> Forall fits l' -> enc_exts l = enc_exts l' -> l = l'.
Proof.
  intros F. revert l'. induction F as [| e l Fe F IH]; intros [| e' l'] F' E; [reflexivity | | |].
  1, 2: apply (f_equal length) in E; unfold enc_exts, enc_ext in E; cbn [flat_map length] in E;
        rewrite !length_app, !be_bytes_length in E; lia.
  apply Forall_cons in F' as [Fe' F']. rewrite !enc_exts_cons in E. apply enc_ext_inj in E as [-> E]; [| assumption | assumption].
  f_equal. auto.
Qed.

(** ** The server *)

Section Server.
Context {L : ExtLib} {K : Callbacks} {A : Alloc} (c : econf).
Context (Hserver : server c = true) (Htls13 : SSL_IS_TLS13 c = false) (Hssl3 : (version c =? SSL3_VERSION) = false)
  (Hhit : hit c = false).
Implicit Types s : essl.

Abbreviation hello := SSL_EXT_CLIENT_HELLO.

(** *** The entries of the table *)

Definition entry (raw : list RAW_EXTENSION) (i : nat) (o : option (list Z)) : Prop :=
  exists e, raw !! i = Some e /\
    match o with
    | Some d => present e = true /\ parsed e = false /\ packet_wf (raw_data e) /\ view (raw_data e) = d
    | None => present e = false
    end.

(** A definition is the first of its type, or that of no extension. *)
Lemma defs_first i d :
  ext_defs c !! i = Some d ->
  find_def 0 (ext_defs c) (def_type d) = Some (i, d) \/ (def_type d = 0x10000 /\ verify_extension c hello 0x10000 [] = None).
Proof.
  intros E.
  assert (Inv : verify_extension c hello 0x10000 [] = None) by reflexivity.
  do 30 (destruct i as [| i]; [injection E as <-; first [right; split; [reflexivity | exact Inv] | left; reflexivity] |]).
  easy.
Qed.

Lemma holds_entry l raw i d :
  holds c hello [] l raw -> NoDup (slots c hello [] l) -> Forall (fun e => verify_extension c hello (fst e) [] <> None) l ->
  ext_defs c !! i = Some d -> entry raw i (assoc (def_type d) l).
Proof.
  intros H ND Al Ed. pose proof H as [Ln Hr]. pose proof (lookup_lt_Some _ _ _ Ed) as Hi.
  destruct (lookup_lt_is_Some_2 raw i) as [e E]; [unfold builtin_num in Ln; lia |]. exists e. split; [assumption |].
  specialize (Hr i e E). destruct (present e) eqn:P.
  - destruct Hr as (Hp & W & S & k & _ & Hk).
    apply list_elem_of_lookup_2, list_elem_of_filter in Hk as [_ Hk].
    assert (Et : raw_type e = def_type d).
    { unfold slot, verify_extension in S. destruct (find_def 0 (ext_defs c) (raw_type e)) as [[j d'] |] eqn:F; [| easy].
      destruct (validate_context _ _ _); [| easy]. injection S as ->. apply find_def_type in F as [F <-].
      rewrite Nat.sub_0_r in F. congruence. }
    rewrite Et in Hk, S. destruct (assoc (def_type d) l) as [b |] eqn:Ea.
    + apply assoc_Some in Ea. split; [reflexivity |]. split; [assumption |]. split; [assumption |].
      apply (slots_unique c hello [] l (def_type d)); eauto.
    + apply assoc_None in Ea. exfalso. apply Ea, list_elem_of_fmap. now exists (def_type d, view (raw_data e)).
  - destruct Hr as [-> Hn]. destruct (assoc (def_type d) l) as [b |] eqn:Ea; [| reflexivity]. exfalso.
    apply assoc_Some in Ea. pose proof (proj1 (Forall_forall _ _) Al _ Ea) as V. cbn [fst] in V.
    destruct (defs_first i d Ed) as [F | [T F]]; [| rewrite T in V; easy]. apply Hn.
    apply (slots_lookup c hello [] l (def_type d) b); [assumption |]. unfold slot, verify_extension in *. rewrite F in *.
    now destruct (validate_context _ _ _).
Qed.

(** *** Parsing one after the other *)

Definition step_to (i : nat) (o : option (list Z)) s s' : Prop :=
  forall raw ci, entry raw i o ->
  wp (tls_parse_extension_ntls c i hello raw None ci)
    (fun r t => fst r = true /\ t = s' /\ forall j, j <> i -> snd r !! j = raw !! j) s.

Lemma step_absent i s : step_to i None s s.
Proof.
  intros raw ci (e & E & P). unfold tls_parse_extension_ntls. rewrite E, P. cbn [negb]. esteps. auto.
Qed.

Lemma step_parsed i d p b s s' :
  ext_defs c !! i = Some d -> flag (def_context d) SSL_EXT_TLS_IMPLEMENTATION_ONLY = false ->
  flag (def_context d) SSL_EXT_TLS1_3_ONLY = false -> parse_ctos d = Some p -> accepts p b s s' -> step_to i (Some b) s s'.
Proof.
  intros Ed H1 H2 Hp Ha raw ci (e & E & P & Q & W & V). unfold tls_parse_extension_ntls. rewrite E, P, Q, Ed.
  unfold extension_is_relevant_ntls. rewrite H1, H2, Hserver, Htls13, Hssl3, Hhit, !andb_false_r.
  cbn [negb andb orb]. change (flag hello SSL_EXT_TLS1_3_HELLO_RETRY_REQUEST) with false. cbn [andb]. rewrite Hp.
  apply wp_bind. eapply wp_mono; [now apply Ha |]. intros ok t [-> ->]. esteps. cbn [fst snd].
  split; [reflexivity |]. split; [reflexivity |]. intros j Hj. now apply list_lookup_insert_ne.
Qed.

(** One without a parser, for a server without custom extensions *)
Lemma step_ignored i d b s :
  ext_defs c !! i = Some d -> parse_ctos d = None -> custext s = [] -> step_to i (Some b) s s.
Proof.
  intros Ed Hp Hc raw ci (e & E & P & Q & W & V). unfold tls_parse_extension_ntls. rewrite E, P, Q, Ed, Hserver, Hp.
  cbn [negb]. apply wp_bind, (wp_mono _ (fun ok t => ok = true /\ t = s)).
  - destruct (negb _); esteps; [auto |]. unfold custom_ext_parse_ntls. esteps. rewrite Hc. cbn. esteps. auto.
  - intros ok t [-> ->]. esteps. cbn [fst snd]. split; [reflexivity |]. split; [reflexivity |]. intros j Hj.
    now apply list_lookup_insert_ne.
Qed.

Definition steps_to (idxs : list nat) (data : nat -> option (list Z)) s s' : Prop :=
  forall raw ci, Forall (fun i => entry raw i (data i)) idxs ->
  wp (parse_each c idxs hello raw None ci) (fun r t => fst r = true /\ t = s') s.

Lemma steps_nil data s : steps_to [] data s s.
Proof. intros raw ci _. cbn [parse_each]. esteps. auto. Qed.

Lemma steps_cons i idxs data s s1 s' :
  i ∉ idxs -> step_to i (data i) s s1 -> steps_to idxs data s1 s' -> steps_to (i :: idxs) data s s'.
Proof.
  intros Hi H1 H2 raw ci He. apply Forall_cons in He as [He Hes]. cbn [parse_each]. apply wp_bind.
  eapply wp_mono; [now apply H1 |]. intros [ok raw'] t (Ho & -> & Hr). cbn [fst snd] in *. subst ok. cbn [negb].
  apply H2. apply Forall_forall. intros j Hj. rewrite Forall_forall in Hes. unfold entry. rewrite Hr by (intros ->; auto).
  now apply Hes.
Qed.

(** *** The initialisers *)

Record fresh s s' : Prop := {
  fresh_name : hostname s' = None; fresh_done : servername_done s' = false;
  fresh_status : status_type s' = TLSEXT_STATUSTYPE_nothing; fresh_npn : npn_seen s' = false;
  fresh_alpn : alpn_proposed s' = None; fresh_srtp : srtp_profile s' = None;
  fresh_mode : sess_max_fragment_len_mode s' = sess_max_fragment_len_mode s;
  fresh_ids : ocsp_ids s' = ocsp_ids s; fresh_exts : ocsp_exts s' = ocsp_exts s;
  fresh_flags : extflags s' = extflags s; fresh_cust : custext s' = custext s; fresh_fatal : e_fatal s' = e_fatal s }.

Lemma wp_run_init d init Q s :
  def_init d = Some init -> flag (def_context d) hello = true ->
  flag (def_context d) SSL_EXT_TLS_IMPLEMENTATION_ONLY = false -> flag (def_context d) SSL_EXT_TLS1_3_ONLY = false ->
  wp (init hello) Q s -> wp (run_init c hello d) Q s.
Proof.
  intros Hd H0 H1 H2 H. unfold run_init, extension_is_relevant_ntls.
  rewrite Hd, H0, H1, H2, Hserver, Htls13, Hssl3, Hhit, !andb_false_r. exact H.
Qed.

Lemma wp_run_none d (Q : bool -> essl -> Prop) s : def_init d = None -> Q true s -> wp (run_init c hello d) Q s.
Proof. intros Hd H. unfold run_init. rewrite Hd. exact H. Qed.

Lemma inits_fresh s : wp (each (run_init c hello) (ext_defs c)) (fun ok s' => ok = true /\ fresh s s') s.
Proof.
  cbn [ext_defs each].
  repeat (apply wp_bind; first
    [ apply wp_run_none; [reflexivity |]
    | eapply wp_run_init; [reflexivity | reflexivity | reflexivity | reflexivity |];
      unfold init_server_name, init_session_ticket, init_status_request, init_npn, init_alpn, init_sig_algs,
        init_sig_algs_cert, init_ec_point_formats, init_etm, init_ems, init_srtp; rewrite ?Hserver; esteps ];
    try (destruct (flag (s3_flags _) _); esteps); cbn [negb]).
  all: esteps; split; [reflexivity |]; now constructor.
Qed.

(** *** Collecting *)

Lemma slots_NoDup l : NoDup l.*1 -> NoDup (slots c hello [] l).
Proof.
  intros H. induction l as [| e l IH]; [constructor |]. cbn [fmap list_fmap] in H. apply NoDup_cons in H as [Hn ND].
  rewrite (slots_app c hello [] [e] l : slots c hello [] (e :: l) = _). apply NoDup_app.
  assert (E : slots c hello [] [e] = option_list (slot c hello [] (fst e))) by (unfold slots; cbn; now destruct (slot _ _ _ _)).
  rewrite E. destruct (slot c hello [] (fst e)) as [j |] eqn:S; cbn [option_list].
  - split; [apply NoDup_singleton |]. split; [| auto]. intros j' Hj' Hj. apply list_elem_of_singleton in Hj' as ->.
    apply list_elem_of_omap in Hj as (e' & He' & S'). apply Hn. rewrite (slot_type _ _ _ _ _ _ S S').
    apply list_elem_of_fmap. eauto.
  - split; [constructor |]. split; [| auto]. intros j Hj. now apply not_elem_of_nil in Hj.
Qed.

Lemma acceptable_hello flags l :
  NoDup l.*1 -> Forall (fun e => verify_extension c hello (fst e) [] <> None) l -> TLSEXT_TYPE_psk ∉ l.*1 ->
  acceptable c hello [] flags [] l.
Proof.
  intros ND Al Hp. split; [assumption | | now apply slots_NoDup |].
  - apply Forall_forall. intros e _ j _. unfold unsolicited. change (flag hello SSL_EXT_REQUESTS) with true.
    cbn [negb]. now rewrite !andb_false_r.
  - intros _ pre d rest ->. exfalso. apply Hp. rewrite fmap_app. apply elem_of_app. right. now left.
Qed.

Definition in_range (e : Z * list Z) : Prop := 0 <= fst e < 65536 /\ fits16 (snd e) = true.

Lemma fits_hello l : Forall in_range l -> bytes (enc_exts l) -> Forall fits l.
Proof.
  intros H. induction H as [| e l [H1 H2] H IH]; intros B; [constructor |]. rewrite enc_exts_cons in B.
  apply Forall_app in B as [B1 B2]. constructor; [| auto]. unfold enc_ext in B1. apply Forall_app in B1 as [_ B1].
  apply Forall_app in B1 as [_ B1]. apply fits16_lt in H2. now split.
Qed.

Lemma collect_hello packet l s :
  packet_wf packet -> view packet = enc_exts l -> Forall in_range l ->
  NoDup l.*1 -> Forall (fun e => verify_extension c hello (fst e) [] <> None) l -> TLSEXT_TYPE_psk ∉ l.*1 ->
  custext s = [] -> ext_ok C_raw_zalloc = true -> Z.of_nat (builtin_num c) <= null_idx c ->
  wp (tls_collect_extensions_ntls c packet hello true)
    (fun r s' => exists raw, r = Some raw /\ holds c hello [] l raw /\ fresh s s') s.
Proof.
  intros W V Hr ND Al Hp Hc Hz Hnull.
  assert (Fl : Forall fits l) by (apply fits_hello; [assumption |]; rewrite <- V; now apply view_bytes).
  unfold tls_collect_extensions_ntls. change (flag hello hello) with true. esteps. ered. rewrite Hc, Hz.
  cbn [custom_ext_init_ntls map negb].
  replace (s <| custext := [] |>) with s by (rewrite <- Hc; now destruct s).
  apply wp_bind. eapply wp_mono.
  { apply (collect_loop_ok c _ hello [] packet []); [assumption | | assumption | constructor | apply holds_nil].
    rewrite remaining_length by assumption. lia. }
  intros [raw |] s'; unfold collected; rewrite V.
  - intros [-> (l' & (E & Fl' & _) & Hh)]. apply enc_exts_inj in E as <-; [| assumption | assumption].
    apply wp_bind. eapply wp_mono; [apply inits_fresh |]. intros ok s' [-> Fr]. cbn [negb]. esteps. eauto.
  - intros [_ No]. exfalso. apply No. exists l. split; [reflexivity |]. split; [assumption | now apply acceptable_hello].
Qed.

End Server.

(** ** Both *)

Section Agree.
Context {L : ExtLib} {K : Callbacks} {A : Alloc} (c cs : econf).
Context (Hclient : server c = false) (Htls13 : SSL_IS_TLS13 c = false) (Hssl3 : (version c =? SSL3_VERSION) = false).
Context (Hserver : server cs = true) (Htls13' : SSL_IS_TLS13 cs = false) (Hssl3' : (version cs =? SSL3_VERSION) = false)
  (Hhit : hit cs = false) (Hticket : session_ticket_cb cs = None)
  (Hfirst : SSL_IS_FIRST_HANDSHAKE cs = SSL_IS_FIRST_HANDSHAKE c)
  (Hnull : Z.of_nat (builtin_num cs) <= null_idx cs) (Hok : forall k, ext_ok k = true).
Implicit Types s : essl.

(** What [SSL_set_tlsext_host_name], [SSL_set_tlsext_max_fragment_length] and
    [SSL_set_alpn_protos] accept; OCSP objects that can be read back; and no SRTP
    profiles unless over DTLS *)
Record hello_valid s : Prop := {
  valid_name : forall h, hostname s = Some h -> (length h <= 255)%nat /\ 0 ∉ h;
  valid_mode : max_fragment_len_mode s <> TLSEXT_max_fragment_length_DISABLED ->
               IS_MAX_FRAGMENT_LENGTH_EXT_VALID (max_fragment_len_mode s) = true;
  valid_ids : Forall id_decodes (ocsp_ids s);
  valid_exts : forall e, ocsp_exts s = Some e -> exts_decode e;
  valid_alpn : forall l, alpn c = Some l -> protocols l;
  valid_srtp : SSL_IS_DTLS cs = false -> srtp_profiles c = None }.

(** *** The types of the extensions *)

Definition hello_types : list Z :=
  [TLSEXT_TYPE_server_name; TLSEXT_TYPE_max_fragment_length; TLSEXT_TYPE_session_ticket; TLSEXT_TYPE_status_request;
   TLSEXT_TYPE_next_proto_neg; TLSEXT_TYPE_application_layer_protocol_negotiation; TLSEXT_TYPE_use_srtp;
   TLSEXT_TYPE_signed_certificate_timestamp; TLSEXT_TYPE_padding].
Definition padding_opt (n : nat) : option (Z * list Z) :=
  match n with O => None | _ => Some (TLSEXT_TYPE_padding, repeat 0 n) end.
Definition all_opts s n : list (option (Z * list Z)) := map snd (hello_opts c s) ++ [padding_opt n].

Lemma all_opts_exts s n : hello_exts c s ++ option_list (padding_opt n) = omap id (all_opts s n).
Proof.
  unfold hello_exts, all_opts. rewrite omap_app. f_equal.
Qed.

Lemma all_opts_typed s n : typed_by (all_opts s n) hello_types.
Proof.
  unfold typed_by, all_opts, hello_opts, hello_types. cbn [map snd]. repeat apply Forall2_cons_2; [.. | constructor].
  all: unfold ctos_server_name, ctos_max_fragment_length, ctos_session_ticket, ctos_status_request, ctos_next_proto_neg,
         ctos_alpn, ctos_use_srtp, ctos_sct, padding_opt; repeat case_match; simplify_eq; easy.
Qed.

Lemma hello_types_NoDup : NoDup hello_types.
Proof. now apply (bool_decide_unpack _). Qed.

Lemma assoc_present s n k o t :
  all_opts s n !! k = Some o -> hello_types !! k = Some t -> assoc t (omap id (all_opts s n)) = snd <$> o.
Proof. intros Ho Ht. exact (typed_assoc _ _ k o t (all_opts_typed s n) hello_types_NoDup Ho Ht). Qed.

Lemma assoc_absent s n t : bool_decide (t ∈ hello_types) = false -> assoc t (omap id (all_opts s n)) = None.
Proof.
  intros H. apply bool_decide_eq_false in H. apply assoc_None. intros Hi. apply H.
  exact (elem_of_sublist _ _ _ Hi (typed_sublist _ _ (all_opts_typed s n))).
Qed.

(** The server's table allows them. *)
Lemma hello_allowed s n :
  hello_valid s -> Forall (fun e => verify_extension cs SSL_EXT_CLIENT_HELLO (fst e) [] <> None) (omap id (all_opts s n)).
Proof.
  intros [_ _ _ _ _ Hs]. apply Forall_forall. intros e He.
  assert (Hv : forall t, t ∈ hello_types -> t <> TLSEXT_TYPE_use_srtp \/ SSL_IS_DTLS cs = true ->
            verify_extension cs SSL_EXT_CLIENT_HELLO t [] <> None).
  { intros t Ht Hd. apply list_elem_of_In in Ht. unfold hello_types in Ht. cbn [In] in Ht. unfold verify_extension, validate_context.
    repeat (destruct Ht as [<- | Ht]); [.. | easy]; cbn; destruct (SSL_IS_DTLS cs); try easy. now destruct Hd. }
  apply Hv.
  - eapply elem_of_sublist; [| apply typed_sublist, (all_opts_typed s n)]. apply list_elem_of_fmap. eauto.
  - destruct (SSL_IS_DTLS cs); [now right | left]. intros Et. destruct e as [t d]. cbn in Et. subst t.
    assert (E : assoc TLSEXT_TYPE_use_srtp (omap id (all_opts s n)) = None).
    { rewrite (assoc_present s n 6 (ctos_use_srtp c) _ eq_refl eq_refl). unfold ctos_use_srtp. now rewrite Hs. }
    apply assoc_None in E. apply E, list_elem_of_fmap. now exists (TLSEXT_TYPE_use_srtp, d).
Qed.

(** *** What the server gets *)

Definition wants_status s : bool := status_type s =? TLSEXT_STATUSTYPE_ocsp.
Definition wants_npn : bool := bool_decide (is_Some (npn_select_cb c)) && SSL_IS_FIRST_HANDSHAKE c.
Definition sent_alpn : option (list Z) := if SSL_IS_FIRST_HANDSHAKE c then alpn c else None.

(** What each extension of the client [s] leaves in the state [t] of the server *)
Definition got_name s (t : essl) : essl :=
  t <| hostname := match hostname s with Some h => Some h | None => hostname t end |>
    <| servername_done := bool_decide (is_Some (hostname s)) || servername_done t |>.
Definition got_mode s (t : essl) : essl :=
  t <| sess_max_fragment_len_mode := if max_fragment_len_mode s =? TLSEXT_max_fragment_length_DISABLED
                                     then sess_max_fragment_len_mode t else max_fragment_len_mode s |>.
Definition got_status s (t : essl) : essl :=
  t <| status_type := if wants_status s then TLSEXT_STATUSTYPE_ocsp else status_type t |>
    <| ocsp_ids := if wants_status s then ocsp_ids s else ocsp_ids t |>
    <| ocsp_exts := if wants_status s && bool_decide (is_Some (ocsp_exts s)) then ocsp_exts s else ocsp_exts t |>.
Definition got_npn (t : essl) : essl := t <| npn_seen := wants_npn || npn_seen t |>.
Definition got_alpn (t : essl) : essl :=
  t <| alpn_proposed := match sent_alpn with Some l => Some l | None => alpn_proposed t end |>.
Definition got_srtp (t : essl) : essl :=
  t <| srtp_profile := match srtp_profiles c, srtp_profiles cs with
                       | Some offered, Some srvr => srtp_best srvr offered
                       | _, _ => srtp_profile t
                       end |>.
Definition receives s (t : essl) : essl := got_srtp (got_alpn (got_npn (got_status s (got_mode s (got_name s t))))).

Lemma fits16_vec16 d : fits16 (vec16 d) = true -> fits16 d = true.
Proof. rewrite !fits16_lt, vec16_length. lia. Qed.
Lemma fits16_app d d' : fits16 (d ++ d') = true -> fits16 d = true /\ fits16 d' = true.
Proof. rewrite !fits16_lt, length_app. lia. Qed.

(** The next extension, which the server has a parser for *)
Ltac parsed_by lem :=
  eapply step_parsed; [eassumption | eassumption | eassumption | eassumption | reflexivity | reflexivity | reflexivity | reflexivity |];
  apply lem.

Lemma name_step s t : hello_valid s -> step_to cs 1 (snd <$> ctos_server_name s) t (got_name s t).
Proof.
  intros Hv. unfold ctos_server_name, got_name. destruct (hostname s) as [h |] eqn:E; cbn [fmap option_fmap option_map snd].
  - destruct (valid_name s Hv h E). parsed_by server_name_accepts; assumption.
  - rewrite bool_decide_eq_false_2 by apply is_Some_None. replace (_ <| _ := _ |>) with t by now destruct t. apply step_absent.
Qed.

Lemma mode_step s t : hello_valid s -> step_to cs 2 (snd <$> ctos_max_fragment_length s) t (got_mode s t).
Proof.
  intros Hv. unfold ctos_max_fragment_length, got_mode. destruct (Z.eqb_spec (max_fragment_len_mode s) TLSEXT_max_fragment_length_DISABLED) as [| Hne].
  - replace (_ <| _ := _ |>) with t by now destruct t. apply step_absent.
  - parsed_by maxfragmentlen_accepts; [assumption |]. now apply (valid_mode s Hv).
Qed.

Lemma ticket_step s t : step_to cs 6 (snd <$> ctos_session_ticket c s) t t.
Proof.
  destruct (ctos_session_ticket c s) as [[ty d] |]; [| apply step_absent]. now parsed_by session_ticket_accepts.
Qed.

Lemma npn_step t : step_to cs 8 (snd <$> ctos_next_proto_neg c) t (got_npn t).
Proof.
  unfold ctos_next_proto_neg, got_npn, wants_npn. rewrite <- negb_andb.
  destruct (bool_decide (is_Some (npn_select_cb c)) && SSL_IS_FIRST_HANDSHAKE c) eqn:E; cbn [negb].
  - apply andb_true_iff in E as [_ E]. eapply step_parsed; [eassumption .. | reflexivity | reflexivity | reflexivity | reflexivity |].
    pose proof (npn_accepts cs [] t) as P. unfold received_npn in P. now rewrite Hfirst, E in P.
  - replace (_ <| _ := _ |>) with t by now destruct t. apply step_absent.
Qed.

Lemma alpn_step s t : hello_valid s -> ext_fits (ctos_alpn c) = true -> step_to cs 9 (snd <$> ctos_alpn c) t (got_alpn t).
Proof.
  intros Hv Hf. unfold ctos_alpn, got_alpn, sent_alpn in *. destruct (alpn c) as [l |] eqn:E.
  - destruct (SSL_IS_FIRST_HANDSHAKE c) eqn:F; cbn [ext_fits fmap option_fmap option_map snd] in *.
    + eapply step_parsed; [eassumption .. | reflexivity | reflexivity | reflexivity | reflexivity |].
      pose proof (alpn_accepts cs Hok l t (valid_alpn s Hv l E) (fits16_vec16 _ Hf)) as P. unfold received_alpn in P.
      now rewrite Hfirst in P.
    + replace (_ <| _ := _ |>) with t by now destruct t. apply step_absent.
  - replace (_ <| _ := _ |>) with t by (destruct (SSL_IS_FIRST_HANDSHAKE c); now destruct t). apply step_absent.
Qed.

Lemma srtp_step s t :
  Forall (fun id => 0 <= id < 65536) (default [] (srtp_profiles c)) -> ext_fits (ctos_use_srtp c) = true ->
  step_to cs 10 (snd <$> ctos_use_srtp c) t (got_srtp t).
Proof.
  intros Hr Hf. unfold ctos_use_srtp, got_srtp in *. destruct (srtp_profiles c) as [l |]; cbn [ext_fits default fmap option_fmap option_map snd] in *.
  - apply fits16_app in Hf as [Hf _]. parsed_by use_srtp_accepts; [assumption | now apply fits16_vec16].
  - replace (_ <| _ := _ |>) with t by now destruct t. apply step_absent.
Qed.

Lemma status_step s t :
  hello_valid s -> ext_fits (ctos_status_request s None) = true -> step_to cs 7 (snd <$> ctos_status_request s None) t (got_status s t).
Proof.
  intros Hv Hf. unfold ctos_status_request, got_status, wants_status in *. rewrite bool_decide_eq_false_2 in * by apply is_Some_None.
  cbn [orb] in *. destruct (Z.eqb_spec (status_type s) TLSEXT_STATUSTYPE_ocsp); cbn [negb ext_fits fmap option_fmap option_map snd andb] in *.
  - apply fits16_app in Hf as [_ Hf]. apply fits16_app in Hf as [Hf1 Hf2]. apply fits16_vec16 in Hf1, Hf2.
    pose proof (status_request_accepts cs Hhit Hok (ocsp_ids s) (ocsp_exts s) t (valid_ids s Hv) (valid_exts s Hv)) as P.
    eapply step_parsed; [eassumption .. | reflexivity | reflexivity | reflexivity | reflexivity |].
    replace (_ <| _ := _ |>) with (received_status (ocsp_ids s) (ocsp_exts s) t)
      by (unfold received_status; destruct (ocsp_exts s);
          [rewrite bool_decide_eq_true_2 by eauto | rewrite bool_decide_eq_false_2 by apply is_Some_None]; reflexivity).
    apply P; [| exact Hf1 | exact Hf2]. apply Forall_forall. intros id Hid. apply fits16_lt. apply fits16_lt in Hf1.
    unfold request_ids in Hf1. apply list_elem_of_split in Hid as (l1 & l2 & E). rewrite E, flat_map_app in Hf1.
    cbn [flat_map] in Hf1. rewrite !length_app, vec16_length in Hf1. lia.
  - replace (_ <| _ := _ |>) with t by now destruct t. apply step_absent.
Qed.

(** The type of an entry of the table, and what the client sends of it *)
Definition type_at (i : nat) : Z := match ext_defs cs !! i with Some d => def_type d | None => 0 end.
Definition hello_data s n (i : nat) : option (list Z) := assoc (type_at i) (omap id (all_opts s n)).

Lemma steps_seq k m data s s1 s' :
  step_to cs k (data k) s s1 -> steps_to cs (seq (S k) m) data s1 s' -> steps_to cs (seq k (S m)) data s s'.
Proof. intros H1 H2. eapply steps_cons; [rewrite elem_of_seq; lia | exact H1 | exact H2]. Qed.

Lemma steps_skip k m s n t t' :
  bool_decide (type_at k ∈ hello_types) = false ->
  steps_to cs (seq (S k) m) (hello_data s n) t t' -> steps_to cs (seq k (S m)) (hello_data s n) t t'.
Proof.
  intros H1 H2. eapply steps_seq; [| exact H2]. unfold hello_data. rewrite assoc_absent by exact H1. apply step_absent.
Qed.

Lemma steps_take k m j o s n t t1 t' :
  all_opts s n !! j = Some o -> hello_types !! j = Some (type_at k) -> step_to cs k (snd <$> o) t t1 ->
  steps_to cs (seq (S k) m) (hello_data s n) t1 t' -> steps_to cs (seq k (S m)) (hello_data s n) t t'.
Proof.
  intros H1 H2 H3 H4. eapply steps_seq; [| exact H4]. unfold hello_data. now rewrite (assoc_present s n j o (type_at k) H1 H2).
Qed.

Lemma hello_steps s n t :
  hello_typed c s -> hello_valid s -> hello_ok c s = true -> custext t = [] ->
  steps_to cs (seq 0 (builtin_num cs)) (hello_data s n) t (receives s t).
Proof.
  intros [_ _ _ _ _ Hr] Hv Hf Hc. unfold hello_ok in Hf. rewrite !andb_true_iff in Hf.
  destruct Hf as ((((_ & _) & _ & Hf3) & Hf4) & Hf5). change (builtin_num cs) with 30%nat.
  assert (Ig : forall k t0 d o, ext_defs cs !! k = Some d -> parse_ctos d = None -> custext t0 = [] -> step_to cs k o t0 t0).
  { intros k t0 d [b |] H1 H2 H3; [now apply (step_ignored cs Hserver k d) | apply step_absent]. }
  do 1 (apply steps_skip; [reflexivity |]).
  eapply (steps_take 1 28 0); [reflexivity | reflexivity | now apply name_step |].
  eapply (steps_take 2 27 1); [reflexivity | reflexivity | now apply mode_step |].
  do 3 (apply steps_skip; [reflexivity |]).
  eapply (steps_take 6 23 2); [reflexivity | reflexivity | now apply ticket_step |].
  eapply (steps_take 7 22 3); [reflexivity | reflexivity | now apply status_step |].
  eapply (steps_take 8 21 4); [reflexivity | reflexivity | now apply npn_step |].
  eapply (steps_take 9 20 5); [reflexivity | reflexivity | now apply (alpn_step s) |].
  eapply (steps_take 10 19 6); [reflexivity | reflexivity | now apply (srtp_step s) |].
  do 1 (apply steps_skip; [reflexivity |]).
  eapply (steps_take 12 17 7); [reflexivity | reflexivity | eapply Ig; [reflexivity | reflexivity | exact Hc] |].
  do 15 (apply steps_skip; [reflexivity |]).
  eapply (steps_take 28 1 8); [reflexivity | reflexivity | eapply Ig; [reflexivity | reflexivity | exact Hc] |].
  do 1 (apply steps_skip; [reflexivity |]). apply steps_nil.
Qed.

(** *** The agreement *)

Lemma in_range_hello s n :
  fits16 (enc_exts (omap id (all_opts s n))) = true -> Forall in_range (omap id (all_opts s n)).
Proof.
  intros F. apply Forall_forall. intros e He. apply fits16_lt in F. split.
  - assert (Hi : fst e ∈ hello_types).
    { eapply elem_of_sublist; [| apply typed_sublist, (all_opts_typed s n)]. apply list_elem_of_fmap. eauto. }
    assert (H : Forall (fun ty => 0 <= ty < 65536) hello_types) by (unfold hello_types; repeat constructor; easy).
    exact (proj1 (Forall_forall _ _) H _ Hi).
  - apply fits16_lt. apply list_elem_of_split in He as (l1 & l2 & E). rewrite E in F. unfold enc_exts in F.
    rewrite flat_map_app in F. cbn [flat_map] in F. unfold enc_ext in F. rewrite !length_app in F. lia.
Qed.

(** The server's part *)
Lemma hello_received ci s n t packet :
  hello_typed c s -> hello_valid s -> hello_ok c s = true -> custext t = [] -> packet_wf packet ->
  view packet = enc_exts (omap id (all_opts s n)) -> fits16 (enc_exts (omap id (all_opts s n))) = true ->
  exists raw t1 raw', tls_collect_extensions_ntls cs packet SSL_EXT_CLIENT_HELLO true t = Val (Some raw, t1) /\ fresh t t1
    /\ tls_parse_all_extensions_ntls cs SSL_EXT_CLIENT_HELLO raw None ci false t1 = Val ((true, raw'), receives s t1).
Proof.
  intros Ht Hv Hf Hc W V F. pose proof (hello_allowed s n Hv) as Al.
  assert (Sub : (omap id (all_opts s n)).*1 `sublist_of` hello_types) by apply typed_sublist, all_opts_typed.
  assert (ND : NoDup (omap id (all_opts s n)).*1) by exact (sublist_NoDup _ _ hello_types_NoDup Sub).
  assert (Np : TLSEXT_TYPE_psk ∉ (omap id (all_opts s n)).*1).
  { intros H. pose proof (elem_of_sublist _ _ _ H Sub) as Hi. revert Hi. now apply (bool_decide_unpack (_ ∉ _)). }
  destruct (wp_run _ _ _ (collect_hello cs Hserver Htls13' Hssl3' Hhit packet _ t W V (in_range_hello s n F) ND Al Np Hc (Hok _) Hnull))
    as (r & t1 & E1 & raw & -> & Hh & Fr).
  assert (Hc1 : custext t1 = []) by now rewrite (fresh_cust _ _ Fr).
  assert (P : wp (tls_parse_all_extensions_ntls cs SSL_EXT_CLIENT_HELLO raw None ci false)
            (fun r t' => fst r = true /\ t' = receives s t1) t1).
  { unfold tls_parse_all_extensions_ntls. esteps. rewrite Hc1, Nat.add_0_r. eapply wp_mono.
    - apply (hello_steps s n t1 Ht Hv Hf Hc1). apply Forall_forall. intros i Hi. apply elem_of_seq in Hi.
      destruct (lookup_lt_is_Some_2 (ext_defs cs) i) as [d Ed]; [unfold builtin_num in Hi; lia |].
      unfold hello_data, type_at. rewrite Ed. apply (holds_entry cs); [assumption | now apply slots_NoDup | assumption | assumption].
    - intros [ok raw'] t' [Eo ->]. cbn [fst] in Eo. subst ok. cbn [negb]. esteps. auto. }
  destruct (wp_run _ _ _ P) as ([ok raw'] & t' & E2 & Eo & ->). cbn [fst] in Eo. subst ok. now exists raw, t1, raw'.
Qed.

Lemma padding_exts_opt pad : padding_exts pad -> exists n, pad = option_list (padding_opt n).
Proof.
  intros [-> | (n & Hn & ->)]; [now exists 0%nat |]. exists n. destruct n; [lia | reflexivity].
Qed.

(** C8: The hello extensions reach the server.  Conditions: both sides are below
    TLS 1.3 and in the same handshake; the client's settings are such as the API accepts
    (host name, fragment length, protocols, OCSP objects that can be read back); it has
    no SRTP profiles unless the server is DTLS (over TLS the server rejects the hello,
    [srtp_over_tls_rejected] of ExtCustSpec); neither side has custom extensions (one
    registered for both roles is rejected, [both_roles_rejected]); the server has no
    session ticket callback and resumes no session; there is room and no allocation
    fails.  Then the client constructs its block of extensions, and a server that
    receives the block collects and parses it without an alert and has the client's host
    name, maximum fragment length, protocols, certificate status request (type,
    responders and request extensions), whether the client does NPN, and over DTLS the
    SRTP profile that the server prefers among those the client offers. *)
Theorem hello_extensions_agree ci ci' s t fs :
  hello_typed c s -> hello_valid s -> hello_ok c s = true -> Z.of_nat (length (enc_exts (hello_exts c s))) + 256 < 65536 ->
  custext s = [] -> custext t = [] -> rep (e_pkt s) fs -> fs <> [] ->
  room (e_pkt s) (2 + Z.of_nat (length (enc_exts (hello_exts c s))) + 256) -> (forall a, alloc_ok a = true) ->
  exists s' l, tls_construct_extensions_ntls c SSL_EXT_CLIENT_HELLO None ci s = Val (true, s')
    /\ rep (e_pkt s') (append (block l) fs)
    /\ forall packet, packet_wf packet -> view packet = enc_exts l ->
       exists raw t1 raw' t', tls_collect_extensions_ntls cs packet SSL_EXT_CLIENT_HELLO true t = Val (Some raw, t1)
         /\ tls_parse_all_extensions_ntls cs SSL_EXT_CLIENT_HELLO raw None ci' false t1 = Val ((true, raw'), t')
         /\ hostname t' = hostname s
         /\ sess_max_fragment_len_mode t' = (if max_fragment_len_mode s =? TLSEXT_max_fragment_length_DISABLED
                                             then sess_max_fragment_len_mode t else max_fragment_len_mode s)
         /\ alpn_proposed t' = (if SSL_IS_FIRST_HANDSHAKE c then alpn c else None)
         /\ status_type t' = (if wants_status s then TLSEXT_STATUSTYPE_ocsp else TLSEXT_STATUSTYPE_nothing)
         /\ (wants_status s = true -> ocsp_ids t' = ocsp_ids s /\ (is_Some (ocsp_exts s) -> ocsp_exts t' = ocsp_exts s))
         /\ npn_seen t' = wants_npn
         /\ srtp_profile t' = match srtp_profiles c, srtp_profiles cs with
                              | Some offered, Some srvr => srtp_best srvr offered
                              | _, _ => None
                              end
         /\ e_fatal t' = e_fatal t.
Proof.
  intros Ht Hv Hf Hl Hc Hc' R Hne Hr Ha.
  destruct (client_hello_extensions c Hclient Htls13 Hssl3 ci s fs Ht Hc R Hne) as (ok & s' & E & Post).
  destruct ok; [| now destruct Post as [_ []]]. destruct Post as (p' & fl & pad & -> & Hp & _ & F & R' & _).
  destruct (padding_exts_opt pad Hp) as [n ->]. rewrite all_opts_exts in *.
  eexists _, (omap id (all_opts s n)). split; [exact E |]. split; [exact R' |]. intros packet W V.
  destruct (hello_received ci' s n t packet Ht Hv Hf Hc' W V F) as (raw & t1 & raw' & E1 & [] & E2).
  exists raw, t1, raw', (receives s t1). split; [exact E1 |]. split; [exact E2 |].
  unfold receives, got_srtp, got_alpn, got_npn, got_status, got_mode, got_name, sent_alpn. ered.
  rewrite ?fresh_name0, ?fresh_mode0, ?fresh_status0, ?fresh_npn0, ?fresh_alpn0, ?fresh_srtp0, orb_false_r.
  split; [now destruct (hostname s) |]. split; [reflexivity |].
  split; [destruct (SSL_IS_FIRST_HANDSHAKE c); [now destruct (alpn c) | reflexivity] |]. split; [reflexivity |].
  split; [| split; [reflexivity |]; split; [reflexivity | assumption]].
  intros ->. split; [reflexivity |]. intros Hs. now rewrite bool_decide_eq_true_2.
Qed.

End Agree.

(** ** In the concrete setting *)

#[local] Instance agree_lib : ExtLib := hello_lib [].
#[local] Instance agree_callbacks : Callbacks := hello_callbacks [].
#[local] Instance agree_alloc : Alloc := hello_alloc.

(** A client that asks for the server "ab", fragments of 512 bytes and the status
    of the certificate from one responder *)
Definition hello_client : essl := hello_ssl [] (Some [97; 98]) 1 (Some [[7; 8]]) [].
Definition hello_server : essl := hello_ssl [] None 0 None [].

Lemma hello_client_typed : hello_typed (hello_conf false) hello_client.
Proof.
  split; [vm_compute; discriminate | vm_compute; split; [discriminate | reflexivity] | vm_compute; discriminate | |
          vm_compute; discriminate | constructor].
  split; [repeat constructor; vm_compute; discriminate | vm_compute; discriminate].
Qed.

Lemma hello_client_valid : hello_valid (hello_conf false) (hello_conf true) hello_client.
Proof.
  split.
  - intros h [= <-]. split; [cbn; lia |]. rewrite !not_elem_of_cons. split; [discriminate |]. split; [discriminate | apply not_elem_of_nil].
  - reflexivity.
  - repeat constructor; easy.
  - discriminate.
  - intros l [= <-]. exists [[104; 50]; [102; 111; 111]]. split; [easy |]. split; [repeat constructor; cbn; lia | reflexivity].
  - reflexivity.
Qed.

Lemma hello_extensions_agree_witness :
  exists s' l, tls_construct_extensions_ntls (hello_conf false) SSL_EXT_CLIENT_HELLO None 0 hello_client = Val (true, s')
    /\ forall packet, packet_wf packet -> view packet = enc_exts l ->
       exists raw t1 raw' t', tls_collect_extensions_ntls (hello_conf true) packet SSL_EXT_CLIENT_HELLO true hello_server
                              = Val (Some raw, t1)
         /\ tls_parse_all_extensions_ntls (hello_conf true) SSL_EXT_CLIENT_HELLO raw None 0 false t1 = Val ((true, raw'), t')
         /\ hostname t' = Some [97; 98].
Proof.
  destruct (hello_extensions_agree (hello_conf false) (hello_conf true) eq_refl eq_refl eq_refl eq_refl eq_refl eq_refl eq_refl
              eq_refl eq_refl ltac:(vm_compute; discriminate) (fun k => eq_refl) 0 0 hello_client hello_server [mk_frame 0 0 []]
              hello_client_typed hello_client_valid eq_refl eq_refl eq_refl eq_refl hello_wpacket_rep ltac:(discriminate)
              ltac:(vm_compute; discriminate) (fun a => eq_refl)) as (s' & l & E & _ & H).
  exists s', l. split; [exact E |]. intros packet W V.
  destruct (H packet W V) as (raw & t1 & raw' & t' & E1 & E2 & En & _). exists raw, t1, raw', t'.
  exact (conj E1 (conj E2 En)).
Defined.
