(* ===== verification/HelloTypes.v ===== *)
(** * NTLS hello messages: state and environment

    What the handlers of the ClientHello and the ServerHello
    ([ntls_statem_clnt.c], [ntls_statem_srvr.c]) use of [SSL] and of the session
    besides the extensions, the calls they make, and the version functions of
    [ntls_statem_lib.c].

    The part that the extensions use is the state [essl] of [ExtTypes]; what is
    constant for the extensions but not for the hellos (the version, [hit], ...)
    is the [econf] that the state has at the time of the call. *)

From S2P Require Import Prelude Buffers CMem Packet Wpacket ExtTypes.

Definition SSL3_RANDOM_SIZE : Z := 32.
Definition SSL3_SESSION_ID_SIZE : Z := 32.
Definition SSL_MAX_SSL_SESSION_ID_LENGTH : Z := 32.
Definition SSL_MAX_SID_CTX_LENGTH : Z := 32.
Definition MAX_COMPRESSIONS_SIZE : Z := 255.
Definition TLS_CIPHER_LEN : Z := 2.
Definition TLS1_2_VERSION : Z := 0x0303.
Definition NTLS_VERSION : Z := 0x0101.
Definition NTLS1_1_VERSION : Z := 0x0101.
Definition SSL2_MT_CLIENT_HELLO : Z := 1.
Definition SSL3_CK_CIPHERSUITE_FLAG : Z := 0x03000000.
Definition SSL3_CK_SCSV : Z := 0x030000FF.
Definition SSL3_CK_FALLBACK_SCSV : Z := 0x03005600.
Definition SSL_OP_ENABLE_MIDDLEBOX_COMPAT : Z := 0x100000.
Definition SSL_OP_NO_NTLS : Z := 0x20.
Definition SSL_AD_UNEXPECTED_MESSAGE : Z := 10.
Definition SSL_AD_PROTOCOL_VERSION : Z := 70.
Definition SSL_AD_NO_RENEGOTIATION : Z := 100.
Definition hrrrandom_ntls : list Z :=
  [0xcf; 0x21; 0xad; 0x74; 0xe5; 0x9a; 0x61; 0x11; 0xbe; 0x1d; 0x8c; 0x02;
   0x1e; 0x65; 0xb8; 0x91; 0xc2; 0xa2; 0x11; 0x16; 0x7a; 0xbb; 0x8c; 0x5e;
   0x07; 0x9e; 0x09; 0xe2; 0xc8; 0xa8; 0x33; 0x9c].

Inductive MSG_PROCESS_RETURN : Set :=
| MSG_PROCESS_ERROR
| MSG_PROCESS_FINISHED_READING
| MSG_PROCESS_CONTINUE_PROCESSING
| MSG_PROCESS_CONTINUE_READING.

(** ** Data *)

Record SSL_CIPHER := mk_cipher { cipher_id : Z; min_tls : Z; max_tls : Z }.

#[export] Instance SSL_CIPHER_eq_dec : EqDecision SSL_CIPHER.
Proof. solve_decision. Defined.

(** [session_id] and [compressions] are the bytes in use of the arrays. *)
Record CLIENTHELLO_MSG := mk_hello {
  isv2 : bool;
  legacy_version : Z;
  random : list Z;
  session_id : list Z;
  ciphersuites : PACKET;
  compressions : list Z;
  extensions : PACKET;
  pre_proc_exts : list RAW_EXTENSION }.

#[export] Instance eta_econf : Eta econf :=
  fun c =>
    mk_econf (server c) (is_dtls c) (method_version c) (version c) (hit c) (finish_md_len c) (peer_finish_md_len c)
      (hrr_none c) (ctx_switched c) (new_session c) (sess_version c) (sess_md_size c) (security_ticket c) (alpn c)
      (srtp_profiles c) (ct_validation_callback c) (npn_select_cb c) (npn_advertised_cb c) (session_ticket_cb c)
      (ctx_servername_cb c) (session_ctx_servername_cb c) (alpn_select_cb c) (max_send_fragment c) (null_idx c).

(** ** State *)

(** The part of the extensions and their configuration; the versions that were
    offered and are allowed; the randoms; [hello_retry_request ==
    SSL_HRR_PENDING]; the session and its fields; the cipher; [sess_miss] of the
    context; the ClientHello that is being processed. *)
Record hssl {L : ExtLib} := mk_hssl {
  h_ext : essl;
  h_conf : econf;
  client_version : Z;
  min_ver : Z;
  max_ver : Z;
  client_random : list Z;
  server_random : list Z;
  hrr_pending : bool;
  tmp_session_id : list Z;
  sid_ctx : list Z;
  has_session : bool;
  sess_id : list Z;
  sess_sid_ctx : list Z;
  sess_cipher : option SSL_CIPHER;
  sess_cipher_id : Z;
  sess_compress_meth : Z;
  sess_not_resumable : bool;
  sess_master_key : list Z;
  new_cipher : option SSL_CIPHER;
  sess_miss : Z;
  clienthello : option CLIENTHELLO_MSG }.
Arguments mk_hssl {L}.

#[export] Instance eta_hssl {L : ExtLib} : Eta hssl :=
  fun s =>
    mk_hssl (h_ext s) (h_conf s) (client_version s) (min_ver s) (max_ver s) (client_random s) (server_random s)
      (hrr_pending s) (tmp_session_id s) (sid_ctx s) (has_session s) (sess_id s) (sess_sid_ctx s) (sess_cipher s)
      (sess_cipher_id s) (sess_compress_meth s) (sess_not_resumable s) (sess_master_key s) (new_cipher s)
      (sess_miss s) (clienthello s).

(** ** Environment *)

(** What the handlers look at and do not change: [RECORD_LAYER_is_sslv2_record],
    [renegotiate], the mode bit SSL_MODE_SEND_FALLBACK_SCSV, the session cache of
    a server, [verify_mode & SSL_VERIFY_PEER], the cipher lists, the callback on
    session secrets; and the calls they make: whether a session can be allocated,
    a new session id, random bytes, the
    allocation of the message structure, the least and the greatest version that
    are enabled, whether a cipher is disabled for two such versions (and the masks
    of [ssl_set_client_disabled]) in a check of the peer's choice or in the list of
    what is supported, whether a version is allowed ([ssl_security]), the cipher
    of two bytes, the handshake digest, the retry of a TLS 1.3 hello. *)
Class HelloLib {L : ExtLib} := {
  sslv2_record : bool;
  renegotiate : bool;
  send_fallback_scsv : bool;
  session_cache_server : bool;
  verify_peer : bool;
  SSL_get_ciphers : option (list SSL_CIPHER);
  ssl_get_ciphers_by_id : list SSL_CIPHER;
  session_secret_cb : option Z;
  SSL_SESSION_new : bool;
  ssl_generate_session_id : option (list Z);
  ssl_fill_hello_random : bool -> hssl -> option (list Z);
  rand_bytes : option (list Z);
  clienthello_zalloc : bool;
  ssl_set_client_disabled : hssl -> option (Z * Z);
  ssl_cipher_disabled : Z -> Z -> SSL_CIPHER -> bool -> bool;
  security_version : Z -> bool;
  ssl_get_cipher_by_char : list Z -> option SSL_CIPHER;
  run_session_secret_cb : Z -> hssl -> (bool * list Z * option SSL_CIPHER) * effect;
  ssl3_digest_cached_records : bool;
  create_synthetic_message_hash_ntls : bool;
  tls_process_as_hello_retry_request : PACKET -> hssl -> res (MSG_PROCESS_RETURN * hssl) }.

(** ** Steps *)

Section Steps.
Context {L : ExtLib} {H : HelloLib} {A : Alloc}.
Abbreviation M := (prog hssl).

(** A step of the extensions *)
Definition on_ext {B} (k : econf -> prog essl B) : M B :=
  fun s => match k (h_conf s) (h_ext s) with
           | Val (b, e) => Val (b, s <| h_ext := e |>)
           | Stuck f => Stuck f
           end.
Definition hfatal (al : Z) : M unit := on_ext (fun _ => SSLfatal_ntls al).
Definition hfail (al : Z) : M bool := hfatal al;; mret false.
Definition conf_set (f : econf -> econf) : M unit := modify (fun s => s <| h_conf := f (h_conf s) |>).
Definition put (w : prog essl bool) : M bool := on_ext (fun _ => w).

(** The connection with a new session of the id [id]: the other fields are those
    of [SSL_SESSION_new] *)
Definition with_session (id : list Z) (s : hssl) : hssl :=
  s <| h_conf := h_conf s <| sess_version := version (h_conf s) |> <| sess_md_size := None |> |>
    <| h_ext := h_ext s <| sess_tick := None |> <| sess_tick_lifetime_hint := 0 |> <| sess_tick_age_add := 0 |>
                  <| sess_hostname := None |> <| sess_max_fragment_len_mode := TLSEXT_max_fragment_length_DISABLED |>
                  <| sess_alpn_selected := None |> |>
    <| has_session := true |> <| sess_id := id |> <| sess_sid_ctx := sid_ctx s |>
    <| sess_cipher := None |> <| sess_cipher_id := 0 |> <| sess_compress_meth := 0 |>
    <| sess_not_resumable := false |> <| sess_master_key := [] |>.

(** The old session is released as soon as there is a new one. *)
Definition ssl_get_new_session (session : bool) : M bool :=
  if negb SSL_SESSION_new then hfail SSL_AD_INTERNAL_ERROR
  else
    modify (fun s => s <| has_session := false |>);;
    s ← gets id;
    match (if session then if SSL_IS_TLS13 (h_conf s) then Some [] else ssl_generate_session_id else Some []) with
    | None => hfail SSL_AD_INTERNAL_ERROR
    | Some id =>
        if SSL_MAX_SID_CTX_LENGTH <? Z.of_nat (length (sid_ctx s)) then hfail SSL_AD_INTERNAL_ERROR
        else modify (with_session id);; mret true
    end.

Definition SSL_SESSION_is_resumable (s : hssl) : bool :=
  negb (sess_not_resumable s)
  && ((0 <? length (sess_id s))%nat || (0 <? length (default [] (sess_tick (h_ext s))))%nat).

(** [ssl3_put_cipher_by_char]: the return value and [*len] *)
Definition ssl3_put_cipher_by_char (c : SSL_CIPHER) : M (bool * Z) :=
  if negb (Z.land (cipher_id c) 0xff000000 =? SSL3_CK_CIPHERSUITE_FLAG) then mret (true, 0)
  else
    ok ← put (WPACKET_put_bytes_u16 (Z.land (cipher_id c) 0xffff));
    mret (if ok : bool then (true, 2) else (false, 0)).

(** *** Versions *)

(** The versions of [ntls_version_table] *)
Definition ntls_version_table : list Z := [NTLS1_1_VERSION].

(** Whether [ssl_method_error_ntls] returns 0 *)
Definition method_ok (v : Z) (s : hssl) : bool := security_version v && negb (flag (options (h_ext s)) SSL_OP_NO_NTLS).

Definition ssl_version_supported_ntls (v : Z) (s : hssl) : bool :=
  if negb (method_version (h_conf s) =? TLS_ANY_VERSION) then v =? version (h_conf s)
  else existsb (fun vent => (v =? vent) && method_ok vent s && (negb (server (h_conf s)) || negb (v =? TLS1_3_VERSION)))
         ntls_version_table.

(** The version that the server has named, or an alert *)
Definition ssl_choose_client_version_ntls (v : Z) : M bool :=
  s ← gets id;
  if negb (method_version (h_conf s) =? TLS_ANY_VERSION) then
    if negb (v =? method_version (h_conf s)) then hfail SSL_AD_PROTOCOL_VERSION
    else conf_set (fun c => c <| version := v |>);; mret true
  else if existsb (fun vent => v =? vent) ntls_version_table
  then conf_set (fun c => c <| version := v |> <| method_version := NTLS_VERSION |>);; mret true
  else hfail SSL_AD_PROTOCOL_VERSION.

End Steps.
