(* ===== verification/HelloMsg.v ===== *)
(** * NTLS hello messages: construction and processing

    The ClientHello and the ServerHello of both sides:
    [tls_construct_client_hello_ntls], [ssl_cipher_list_to_bytes],
    [set_client_ciphersuite_ntls] and [tls_process_server_hello_ntls] of
    [ntls_statem_clnt.c], [tls_process_client_hello_ntls] and
    [tls_construct_server_hello_ntls] of [ntls_statem_srvr.c].  No status callback
    is set, and the debug prints are left out. *)

From S2P Require Import Prelude Buffers CMem Packet Wpacket ExtTypes ExtCust ExtClient ExtServer ExtTable HelloTypes.

Section Hello.
Context {L : ExtLib} {K : Callbacks} {H : HelloLib} {A : Alloc}.
Abbreviation M := (prog hssl).

(** ** ClientHello, client *)

(** The loop over the ciphers, with [totlen] and [maxverok] *)
Fixpoint put_ciphers (sk : list SSL_CIPHER) (maxlen totlen : Z) (maxverok : bool) : M (option (Z * bool)) :=
  match sk with
  | [] => mret (Some (totlen, maxverok))
  | c :: sk =>
      if negb (totlen <? maxlen) then mret (Some (totlen, maxverok))
      else
        s ← gets id;
        if ssl_cipher_disabled (min_ver s) (max_ver s) c false then put_ciphers sk maxlen totlen maxverok
        else
          '(ok, len) ← ssl3_put_cipher_by_char c;
          if negb ok then hfatal SSL_AD_INTERNAL_ERROR;; mret None
          else put_ciphers sk maxlen (totlen + len)
                 (maxverok || ((max_ver s <=? max_tls c) && (min_tls c <=? max_ver s)))
  end.

Definition put_scsv (put : bool) (id : Z) : M bool :=
  if put then
    '(ok, _) ← ssl3_put_cipher_by_char (mk_cipher id 0 0);
    if negb ok then hfail SSL_AD_INTERNAL_ERROR else mret true
  else mret true.

Definition ssl_cipher_list_to_bytes (sk : option (list SSL_CIPHER)) : M bool :=
  s ← gets id;
  match ssl_set_client_disabled s with
  | None => hfail SSL_AD_INTERNAL_ERROR
  | Some (mn, mx) =>
    modify (fun s => s <| min_ver := mn |> <| max_ver := mx |>);;
    match sk with
    | None => hfail SSL_AD_INTERNAL_ERROR
    | Some sk =>
        let maxlen := 0xfffe - (if renegotiate then 0 else 2) - (if send_fallback_scsv then 2 else 0) in
        r ← put_ciphers sk maxlen 0 false;
        match r with
        | None => mret false
        | Some (totlen, maxverok) =>
            if (totlen =? 0) || negb maxverok then hfail SSL_AD_INTERNAL_ERROR
            else
              ok ← put_scsv (negb renegotiate) SSL3_CK_SCSV;
              if negb ok then mret false else put_scsv send_fallback_scsv SSL3_CK_FALLBACK_SCSV
        end
    end
  end.

(** The session id that is offered, or [None] after an alert *)
Definition offered_session_id : M (option (list Z)) :=
  s ← gets id;
  let c := h_conf s in
  if new_session c || (sess_version c =? TLS1_3_VERSION) then
    if (version c =? TLS1_3_VERSION) && flag (options (h_ext s)) SSL_OP_ENABLE_MIDDLEBOX_COMPAT then
      if hrr_none c then
        match rand_bytes with
        | None => hfatal SSL_AD_INTERNAL_ERROR;; mret None
        | Some b => modify (fun s => s <| tmp_session_id := b |>);; mret (Some b)
        end
      else mret (Some (tmp_session_id s))
    else mret (Some [])
  else
    (if version c =? TLS1_3_VERSION then modify (fun s => s <| tmp_session_id := sess_id s |>) else mret tt);;
    mret (Some (sess_id s)).

Definition WPACKET_start_sub_packet_u8 : prog essl bool := writes (fun p => Val (WPACKET_start_sub_packet_len__ p 1)).

(** A session, that can be resumed or is a new one *)
Definition choose_offered_session : M bool :=
  s ← gets id;
  if negb (has_session s) || negb (ssl_version_supported_ntls (sess_version (h_conf s)) s)
     || negb (SSL_SESSION_is_resumable s)
  then ssl_get_new_session false else mret true.

(** From the session id to the compression methods *)
Definition construct_hello_lists (sid : list Z) : M bool :=
  ok ← put (and_then WPACKET_start_sub_packet_u8
              (and_then (if (0 <? length sid)%nat then put_bytes sid else mret true) close_packet));
  if negb ok then hfail SSL_AD_INTERNAL_ERROR
  else
    ok ← put WPACKET_start_sub_packet_u16;
    if negb ok then hfail SSL_AD_INTERNAL_ERROR
    else
      ok ← ssl_cipher_list_to_bytes SSL_get_ciphers;
      if negb ok then mret false
      else
        ok ← put close_packet;
        if negb ok then hfail SSL_AD_INTERNAL_ERROR
        else
          ok ← put WPACKET_start_sub_packet_u8;
          if negb ok then hfail SSL_AD_INTERNAL_ERROR
          else
            ok ← put (and_then (WPACKET_put_bytes_u8 0) close_packet);
            if negb ok then hfail SSL_AD_INTERNAL_ERROR else mret true.

(** The fields before the extensions, with the version [v] and the random [rnd] *)
Definition construct_hello_fields (v : Z) (rnd : list Z) : M bool :=
  ok ← put (and_then (WPACKET_put_bytes_u16 v) (put_bytes rnd));
  if negb ok then hfail SSL_AD_INTERNAL_ERROR
  else
    sid ← offered_session_id;
    match sid with
    | None => mret false
    | Some sid => construct_hello_lists sid
    end.

Definition tls_construct_client_hello_ntls : M bool :=
  ok ← choose_offered_session;
  if negb ok then mret false
  else
    s ← gets id;
    match ssl_fill_hello_random false s with
    | None => hfail SSL_AD_INTERNAL_ERROR
    | Some rnd =>
        modify (fun s => s <| client_random := rnd |>);;
        ok ← construct_hello_fields (client_version s) rnd;
        if negb ok then mret false
        else on_ext (fun c => tls_construct_extensions_ntls c SSL_EXT_CLIENT_HELLO None 0)
    end.

(** ** ClientHello, server *)

(** A failing read: [goto err] with an alert *)
Definition decode_error (al : Z) : M (option CLIENTHELLO_MSG) := hfatal al;; mret None.

(** The fields of a hello in the format of SSLv2, of the lengths that it gives,
    and the compression methods *)
Definition read_v2_fields (v ciphersuite_len session_id_len challenge_len : Z) (pkt : PACKET) : M (option CLIENTHELLO_MSG) :=
  match PACKET_get_sub_packet pkt ciphersuite_len with
  | None => decode_error SSL_AD_DECODE_ERROR
  | Some (suites, pkt) =>
  r ← reads (PACKET_copy_bytes pkt (repeat 0 32) session_id_len);
  match r with
  | None => decode_error SSL_AD_DECODE_ERROR
  | Some (sid, pkt) =>
  match PACKET_get_sub_packet pkt challenge_len with
  | None => decode_error SSL_AD_DECODE_ERROR
  | Some (challenge, pkt) =>
      if negb (PACKET_remaining pkt =? 0) then decode_error SSL_AD_DECODE_ERROR
      else
        let challenge_len := if SSL3_RANDOM_SIZE <? challenge_len then SSL3_RANDOM_SIZE else challenge_len in
        r ← reads (PACKET_copy_bytes challenge (repeat 0 (Z.to_nat challenge_len)) challenge_len);
        match r with
        | None => decode_error SSL_AD_INTERNAL_ERROR
        | Some (b, _) =>
            mret (Some (mk_hello true v (repeat 0 (Z.to_nat (SSL3_RANDOM_SIZE - challenge_len)) ++ b)
                          (take (Z.to_nat session_id_len) sid) suites [0] PACKET_null_init []))
        end
  end end end.

Definition read_v2_hello (v : Z) (pkt : PACKET) : M (option CLIENTHELLO_MSG) :=
  r ← reads (PACKET_get_net_2 pkt);
  match r with
  | None => decode_error SSL_AD_DECODE_ERROR
  | Some (ciphersuite_len, pkt) =>
  r ← reads (PACKET_get_net_2 pkt);
  match r with
  | None => decode_error SSL_AD_DECODE_ERROR
  | Some (session_id_len, pkt) =>
  r ← reads (PACKET_get_net_2 pkt);
  match r with
  | None => decode_error SSL_AD_DECODE_ERROR
  | Some (challenge_len, pkt) =>
      if SSL_MAX_SSL_SESSION_ID_LENGTH <? session_id_len then decode_error SSL_AD_ILLEGAL_PARAMETER
      else read_v2_fields v ciphersuite_len session_id_len challenge_len pkt
  end end end.

(** The extensions of a regular hello, which may be left out *)
Definition read_hello_exts (pkt : PACKET) : M (option PACKET) :=
  if PACKET_remaining pkt =? 0 then mret (Some PACKET_null_init)
  else
    r ← reads (PACKET_get_length_prefixed_2 pkt);
    mret (match r with
          | Some (e, pkt) => if negb (PACKET_remaining pkt =? 0) then None else Some e
          | None => None
          end).

(** What follows the session id [id] *)
Definition read_hello_lists (v : Z) (rnd id : list Z) (pkt : PACKET) : M (option CLIENTHELLO_MSG) :=
  r ← reads (PACKET_get_length_prefixed_2 pkt);
  match r with
  | None => decode_error SSL_AD_DECODE_ERROR
  | Some (suites, pkt) =>
  r ← reads (PACKET_get_length_prefixed_1 pkt);
  match r with
  | None => decode_error SSL_AD_DECODE_ERROR
  | Some (compression, pkt) =>
      exts ← read_hello_exts pkt;
      match exts with
      | None => decode_error SSL_AD_DECODE_ERROR
      | Some exts =>
          '(ok, comp, n) ← reads (PACKET_copy_all compression (repeat 0 255) MAX_COMPRESSIONS_SIZE);
          if negb ok then decode_error SSL_AD_INTERNAL_ERROR
          else mret (Some (mk_hello false v rnd id suites (take (Z.to_nat n) comp) exts []))
      end
  end end.

(** The fields of a regular hello *)
Definition read_hello (v : Z) (pkt : PACKET) : M (option CLIENTHELLO_MSG) :=
  r ← reads (PACKET_copy_bytes pkt (repeat 0 32) SSL3_RANDOM_SIZE);
  match r with
  | None => decode_error SSL_AD_DECODE_ERROR
  | Some (rnd, pkt) =>
  r ← reads (PACKET_get_length_prefixed_1 pkt);
  match r with
  | None => decode_error SSL_AD_DECODE_ERROR
  | Some (sid, pkt) =>
  '(ok, id, len) ← reads (PACKET_copy_all sid (repeat 0 32) SSL_MAX_SSL_SESSION_ID_LENGTH);
  if negb ok then decode_error SSL_AD_DECODE_ERROR else read_hello_lists v rnd (take (Z.to_nat len) id) pkt
  end end.

(** The message type of a hello in the format of SSLv2, before the version *)
Definition read_v2_type (pkt : PACKET) : M (option PACKET) :=
  s ← gets id;
  if negb (hrr_none (h_conf s)) then hfatal SSL_AD_UNEXPECTED_MESSAGE;; mret None
  else
    r ← reads (PACKET_get_1 pkt);
    match r with
    | Some (mt, pkt) =>
        if negb (mt =? SSL2_MT_CLIENT_HELLO) then hfatal SSL_AD_INTERNAL_ERROR;; mret None
        else mret (Some pkt)
    | None => hfatal SSL_AD_INTERNAL_ERROR;; mret None
    end.

(** From the version on: the fields, then the table of the extensions *)
Definition process_hello_fields (pkt : PACKET) : M MSG_PROCESS_RETURN :=
  r ← reads (PACKET_get_net_2 pkt);
  match r with
  | None => hfatal SSL_AD_DECODE_ERROR;; mret MSG_PROCESS_ERROR
  | Some (v, pkt) =>
      r ← (if sslv2_record then read_v2_hello v pkt else read_hello v pkt);
      match r with
      | None => mret MSG_PROCESS_ERROR
      | Some m =>
          raw ← on_ext (fun c => tls_collect_extensions_ntls c (extensions m) SSL_EXT_CLIENT_HELLO true);
          match raw with
          | None => mret MSG_PROCESS_ERROR
          | Some raw =>
              modify (fun s => s <| clienthello :=
                Some (mk_hello (isv2 m) (legacy_version m) (random m) (session_id m) (ciphersuites m)
                        (compressions m) (extensions m) raw) |>);;
              mret MSG_PROCESS_CONTINUE_PROCESSING
          end
      end
  end.

(** A second hello is answered with a warning only. *)
Definition tls_process_client_hello_ntls (pkt : PACKET) : M MSG_PROCESS_RETURN :=
  s ← gets id;
  if negb (SSL_IS_FIRST_HANDSHAKE (h_conf s)) then
    on_ext (fun _ => modify (fun e => e <| warnings := warnings e ++ [SSL_AD_NO_RENEGOTIATION] |>));;
    mret MSG_PROCESS_FINISHED_READING
  else if negb clienthello_zalloc then hfatal SSL_AD_INTERNAL_ERROR;; mret MSG_PROCESS_ERROR
  else
    r ← (if sslv2_record then read_v2_type pkt else mret (Some pkt));
    match r with
    | None => mret MSG_PROCESS_ERROR
    | Some pkt => process_hello_fields pkt
    end.

(** ** ServerHello, server *)

(** The session id, the cipher and the compression method *)
Definition construct_server_choices (sid : list Z) : M bool :=
  ok ← put (WPACKET_sub_memcpy_u8 sid);
  if negb ok then hfail SSL_AD_INTERNAL_ERROR
  else
    s ← gets id;
    match new_cipher s with
    | None => stuck NullAccess
    | Some c =>
        '(ok, _) ← ssl3_put_cipher_by_char c;
        if negb ok then hfail SSL_AD_INTERNAL_ERROR
        else
          ok ← put (WPACKET_put_bytes_u8 0);
          if negb ok then hfail SSL_AD_INTERNAL_ERROR else mret true
    end.

(** A session that is not to be resumed has no id. *)
Definition drop_session_id : M unit :=
  s ← gets id;
  if negb (has_session s) then stuck NullAccess
  else if sess_not_resumable s || (negb session_cache_server && negb (hit (h_conf s)))
  then modify (fun s => s <| sess_id := [] |>) else mret tt.

(** The fields before the extensions, with the version [v] and the random [rnd] *)
Definition construct_server_fields (usetls13 : bool) (v : Z) (rnd : list Z) : M bool :=
  ok ← put (and_then (WPACKET_put_bytes_u16 v) (put_bytes rnd));
  if negb ok then hfail SSL_AD_INTERNAL_ERROR
  else
    drop_session_id;;
    sid ← gets (fun s => if usetls13 then tmp_session_id s else sess_id s);
    if SSL_MAX_SSL_SESSION_ID_LENGTH <? Z.of_nat (length sid) then hfail SSL_AD_INTERNAL_ERROR
    else construct_server_choices sid.

Definition tls_construct_server_hello_ntls : M bool :=
  s ← gets id;
  let usetls13 := hrr_pending s in
  ok ← construct_server_fields usetls13 (if usetls13 then TLS1_2_VERSION else version (h_conf s))
         (if usetls13 then hrrrandom_ntls else server_random s);
  if negb ok then mret false
  else
    ok ← on_ext (fun c => tls_construct_extensions_ntls c
                   (if usetls13 then SSL_EXT_TLS1_3_HELLO_RETRY_REQUEST else SSL_EXT_TLS1_2_SERVER_HELLO) None 0);
    if negb ok then mret false
    else if usetls13 then
      modify (fun s => s <| has_session := false |>);;
      conf_set (fun c => c <| hit := false |>);;
      if negb create_synthetic_message_hash_ntls then hfail SSL_AD_INTERNAL_ERROR else mret true
    else if negb verify_peer && negb ssl3_digest_cached_records then hfail SSL_AD_INTERNAL_ERROR
    else mret true.

(** ** ServerHello, client *)

Definition set_client_ciphersuite_ntls (cipherchars : list Z) : M bool :=
  match ssl_get_cipher_by_char cipherchars with
  | None => hfail SSL_AD_ILLEGAL_PARAMETER
  | Some c =>
      s ← gets id;
      if ssl_cipher_disabled (min_ver s) (max_ver s) c true then hfail SSL_AD_ILLEGAL_PARAMETER
      else if negb (bool_decide (c ∈ ssl_get_ciphers_by_id)) then hfail SSL_AD_ILLEGAL_PARAMETER
      else
        (if negb (has_session s) then stuck NullAccess else mret tt);;
        (match sess_cipher s with
         | Some sc => modify (fun s => s <| sess_cipher_id := cipher_id sc |>)
         | None => mret tt
         end);;
        id' ← gets sess_cipher_id;
        if hit (h_conf s) && negb (id' =? cipher_id c) then hfail SSL_AD_ILLEGAL_PARAMETER
        else modify (fun s => s <| new_cipher := Some c |>);; mret true
  end.

Record server_hello := mk_server_hello {
  sh_version : Z;
  sh_hrr : bool;
  sh_session_id : PACKET;
  sh_cipher : list Z;
  sh_compression : Z;
  sh_extensions : PACKET }.

Definition hello_error (al : Z) : M (option server_hello) := hfatal al;; mret None.

(** The fields of the message; the server's random is stored. *)
Definition read_server_hello (pkt : PACKET) : M (option server_hello) :=
  r ← reads (PACKET_get_net_2 pkt);
  match r with
  | None => hello_error SSL_AD_DECODE_ERROR
  | Some (sversion, pkt) =>
  s ← gets id;
  peek ← (if SSL3_RANDOM_SIZE <=? PACKET_remaining pkt
          then b ← reads (bytes_at (base pkt) (PACKET_data pkt) SSL3_RANDOM_SIZE); mret (bool_decide (hrrrandom_ntls = b))
          else mret false);
  let hrr := (version (h_conf s) =? TLS1_3_VERSION) && (sversion =? TLS1_2_VERSION) && peek in
  pkt ← (if hrr then
           modify (fun s => s <| hrr_pending := true |>);;
           conf_set (fun c => c <| hrr_none := false |>);;
           mret (PACKET_forward pkt SSL3_RANDOM_SIZE)
         else
           r ← reads (PACKET_copy_bytes pkt (repeat 0 32) SSL3_RANDOM_SIZE);
           match r with
           | None => mret None
           | Some (rnd, pkt) => modify (fun s => s <| server_random := rnd |>);; mret (Some pkt)
           end);
  match pkt with
  | None => hello_error SSL_AD_DECODE_ERROR
  | Some pkt =>
  r ← reads (PACKET_get_length_prefixed_1 pkt);
  match r with
  | None => hello_error SSL_AD_DECODE_ERROR
  | Some (sid, pkt) =>
  if SSL3_SESSION_ID_SIZE <? PACKET_remaining sid then hello_error SSL_AD_ILLEGAL_PARAMETER
  else
  match PACKET_get_bytes pkt TLS_CIPHER_LEN with
  | None => hello_error SSL_AD_DECODE_ERROR
  | Some (p, rest) =>
  cipherchars ← reads (bytes_at (base pkt) p TLS_CIPHER_LEN);
  r ← reads (PACKET_get_1 rest);
  match r with
  | None => hello_error SSL_AD_DECODE_ERROR
  | Some (compression, pkt) =>
      if (PACKET_remaining pkt =? 0) && negb hrr
      then mret (Some (mk_server_hello sversion hrr sid cipherchars compression PACKET_null_init))
      else
        r ← reads (PACKET_as_length_prefixed_2 pkt);
        match r with
        | Some (e, pkt) =>
            if negb (PACKET_remaining pkt =? 0) then hello_error SSL_AD_DECODE_ERROR
            else mret (Some (mk_server_hello sversion hrr sid cipherchars compression e))
        | None => hello_error SSL_AD_DECODE_ERROR
        end
  end end end end end.

(** The external secret of a session with a ticket *)
Definition external_secret (cipherchars : list Z) : M bool :=
  s ← gets id;
  match session_secret_cb with
  | Some f =>
      if negb (NTLS_VERSION <=? version (h_conf s)) then mret true
      else if negb (has_session s) then stuck NullAccess
      else
        match sess_tick (h_ext s) with
        | None => mret true
        | Some _ =>
            let '((ok, key, pref), (w, o)) := run_session_secret_cb f s in
            on_ext (fun _ => modify (fun e => e <| app := w |> <| options := o |>));;
            if ok && (0 <? length key)%nat then
              modify (fun s => s <| sess_master_key := key |>
                                 <| sess_cipher := match pref with Some c => Some c | None => ssl_get_cipher_by_char cipherchars end |>);;
              mret true
            else hfail SSL_AD_INTERNAL_ERROR
        end
  | None => mret true
  end.

(** Whether the session is resumed, and the session that is used *)
Definition choose_session (sid : list Z) : M bool :=
  s ← gets id;
  if negb (has_session s) then stuck NullAccess
  else if negb (length sid =? 0)%nat && bool_decide (sid = sess_id s) then
    conf_set (fun c => c <| hit := true |>);;
    if negb (bool_decide (sid_ctx s = sess_sid_ctx s)) then hfail SSL_AD_ILLEGAL_PARAMETER else mret true
  else
    ok ← (if (0 <? length (sess_id s))%nat
          then modify (fun s => s <| sess_miss := sess_miss s + 1 |>);; ssl_get_new_session false
          else mret true);
    if negb ok then mret false
    else
      conf_set (fun c => c <| sess_version := version c |>);;
      modify (fun s => s <| sess_id := sid |>);;
      mret true.

Definition perr : M MSG_PROCESS_RETURN := mret MSG_PROCESS_ERROR.

(** What follows the choice of the session: the cipher, the compression method and
    the extensions *)
Definition finish_server_hello (m : server_hello) (raw : list RAW_EXTENSION) : M MSG_PROCESS_RETURN :=
  c ← gets h_conf;
  if negb (version c =? sess_version c) then hfatal SSL_AD_PROTOCOL_VERSION;; perr
  else
    modify (fun s => s <| min_ver := version c |> <| max_ver := version c |>);;
    ok ← set_client_ciphersuite_ntls (sh_cipher m);
    if negb ok then perr
    else if negb (sh_compression m =? 0) then hfatal SSL_AD_ILLEGAL_PARAMETER;; perr
    else
      cm ← gets sess_compress_meth;
      if negb (cm =? 0) then hfatal SSL_AD_HANDSHAKE_FAILURE;; perr
      else
        '(ok, _) ← on_ext (fun c => tls_parse_all_extensions_ntls c SSL_EXT_TLS1_2_SERVER_HELLO raw None 0 true);
        if negb ok then perr else mret MSG_PROCESS_CONTINUE_READING.

(** A TLS 1.3 HelloRetryRequest *)
Definition process_hello_retry (m : server_hello) (sid : list Z) : M MSG_PROCESS_RETURN :=
  if negb (sh_compression m =? 0) then hfatal SSL_AD_ILLEGAL_PARAMETER;; perr
  else
    s ← gets id;
    if negb (bool_decide (sid = tmp_session_id s)) then hfatal SSL_AD_ILLEGAL_PARAMETER;; perr
    else
      ok ← set_client_ciphersuite_ntls (sh_cipher m);
      if negb ok then perr else tls_process_as_hello_retry_request (sh_extensions m).

Definition tls_process_server_hello_ntls (pkt : PACKET) : M MSG_PROCESS_RETURN :=
  r ← read_server_hello pkt;
  match r with
  | None => perr
  | Some m =>
      sid ← reads (bytes_at (base (sh_session_id m)) (PACKET_data (sh_session_id m)) (PACKET_remaining (sh_session_id m)));
      if sh_hrr m then process_hello_retry m sid
      else
        raw ← on_ext (fun c => tls_collect_extensions_ntls c (sh_extensions m)
                        (Z.lor SSL_EXT_TLS1_2_SERVER_HELLO SSL_EXT_TLS1_3_SERVER_HELLO) true);
        match raw with
        | None => perr
        | Some raw =>
            ok ← ssl_choose_client_version_ntls (sh_version m);
            if negb ok then perr
            else
              ok ← on_ext (fun c => tls_validate_all_contexts_ntls c SSL_EXT_TLS1_2_SERVER_HELLO raw);
              if negb ok then hfatal SSL_AD_ILLEGAL_PARAMETER;; perr
              else
                conf_set (fun c => c <| hit := false |>);;
                ok ← external_secret (sh_cipher m);
                if negb ok then perr
                else
                  ok ← choose_session sid;
                  if negb ok then perr else finish_server_hello m raw
        end
  end.

End Hello.
