(* ===== verification/HelloRead.v ===== *)
(** * NTLS hello messages: reading a ClientHello

    [tls_process_client_hello_ntls] against the format of the message: which
    messages the server takes, what it then has of them, and that no bytes make
    it read outside the message.

    First a concrete setting: two cipher suites, one session without a ticket, fixed
    randoms; the record layer may have seen the format of SSLv2. *)

From S2P Require Import Prelude Buffers CMem Packet PacketSpec Wpacket WpacketSpec PacketRules ExtTypes ExtToy ExtCust ExtClient ExtServer ExtTable ExtCollect ExtSafe ExtWrite HelloTypes HelloMsg.

(** ECC-SM4-CBC-SM3 and ECDHE-SM4-CBC-SM3 *)
Definition toy_ciphers : list SSL_CIPHER := [mk_cipher 0x0300E013 0x0101 0x0101; mk_cipher 0x0300E011 0x0101 0x0101].
Definition toy_random (server : bool) : list Z := repeat (if server then 2 else 1) 32.

Definition toy_env (v2 : bool) : @HelloLib (hello_lib []) := {|
  sslv2_record := v2;
  renegotiate := false;
  send_fallback_scsv := false;
  session_cache_server := true;
  verify_peer := false;
  SSL_get_ciphers := Some toy_ciphers;
  ssl_get_ciphers_by_id := toy_ciphers;
  session_secret_cb := None;
  SSL_SESSION_new := true;
  ssl_generate_session_id := Some [5; 6; 7];
  ssl_fill_hello_random server _ := Some (toy_random server);
  rand_bytes := Some (repeat 3 32);
  clienthello_zalloc := true;
  ssl_set_client_disabled _ := Some (0x0101, 0x0101);
  ssl_cipher_disabled _ _ _ _ := false;
  security_version _ := true;
  ssl_get_cipher_by_char b := List.find (fun c => Z.land (cipher_id c) 0xffff =? be_value b) toy_ciphers;
  run_session_secret_cb _ s := ((false, [], None), (@app (hello_lib []) (h_ext s), @options (hello_lib []) (h_ext s)));
  ssl3_digest_cached_records := true;
  create_synthetic_message_hash_ntls := true;
  tls_process_as_hello_retry_request _ s := Val (MSG_PROCESS_ERROR, s) |}.

(** A connection that has no session yet *)
Definition toy_hssl (server : bool) (e : @essl (hello_lib [])) : @hssl (hello_lib []) :=
  @mk_hssl (hello_lib []) e (hello_conf server) 0x0101 0x0101 0x0101 [] (toy_random true) false [] [] false [] [] None 0 0
    false [] (head toy_ciphers) 0 None.

(** A ClientHello with the extensions of [hello_exts_bytes] *)
Definition toy_hello_bytes : list Z :=
  [1; 1] ++ toy_random false ++ [1; 7] ++ [0; 2; 0xE0; 0x13] ++ [1; 0] ++ [0; 16] ++ hello_exts_bytes.
Definition toy_hello_packet : PACKET := mk_packet toy_hello_bytes 0 60.

Lemma toy_hello_packet_wf : packet_wf toy_hello_packet.
Proof.
  split; [vm_compute; discriminate |]. split; [vm_compute; split; discriminate |].
  split; [vm_compute; discriminate |].
  apply List.Forall_forall. intros x Hx.
  assert (E : forallb (fun x => (0 <=? x) && (x <? 256)) (view toy_hello_packet) = true) by reflexivity.
  rewrite forallb_forall in E. specialize (E x Hx). unfold is_byte. lia.
Qed.

(** ** Rules for the steps *)

Section Rules.
Context {L : ExtLib} {A : Alloc}.
Implicit Types s : hssl.

Definition halert (al : Z) (s : hssl) : hssl := s <| h_ext := alert al (h_ext s) |>.

Lemma wp_on_ext {B} (k : econf -> prog essl B) (Q : B -> hssl -> Prop) s :
  wp (k (h_conf s)) (fun b e => Q b (s <| h_ext := e |>)) (h_ext s) -> wp (on_ext k) Q s.
Proof. unfold wp, on_ext. now destruct (k _ _) as [[] |]. Qed.
Lemma wp_hfatal al (Q : unit -> hssl -> Prop) s : Q tt (halert al s) -> wp (hfatal al) Q s.
Proof. auto. Qed.
Lemma wp_hfail al (Q : bool -> hssl -> Prop) s : Q false (halert al s) -> wp (hfail al) Q s.
Proof. auto. Qed.
Lemma wp_conf_set f (Q : unit -> hssl -> Prop) s : Q tt (s <| h_conf := f (h_conf s) |>) -> wp (conf_set f) Q s.
Proof. auto. Qed.

Lemma halert_fatal al s : e_fatal (h_ext (halert al s)) <> None.
Proof. apply alert_set. Qed.

End Rules.

(** Fields of the state, and one step of a handler *)
Ltac hred :=
  cbn [set h_ext h_conf client_version min_ver max_ver client_random server_random hrr_pending tmp_session_id sid_ctx
       has_session sess_id sess_sid_ctx sess_cipher sess_cipher_id sess_compress_meth sess_not_resumable
       sess_master_key new_cipher sess_miss clienthello].
Ltac hstep :=
  lazymatch goal with
  | |- wp (_ ≫= _) _ _ => apply wp_bind
  | |- wp (mret _) _ _ => apply wp_ret
  | |- wp (gets _) _ _ => apply wp_gets
  | |- wp (modify _) _ _ => apply wp_modify
  | |- wp (hfatal _) _ _ => apply wp_hfatal
  | |- wp (hfail _) _ _ => apply wp_hfail
  | |- wp (conf_set _) _ _ => apply wp_conf_set
  | |- wp (decode_error _) _ _ => unfold decode_error
  end; cbv beta.
Ltac hsteps := repeat hstep.

(** ** Bytes *)

(** A vector is read in one way only. *)
Lemma vec_inj n a b r r' :
  Z.of_nat (length a) < 256 ^ Z.of_nat n -> Z.of_nat (length b) < 256 ^ Z.of_nat n ->
  (be_bytes n (Z.of_nat (length a)) ++ a) ++ r = (be_bytes n (Z.of_nat (length b)) ++ b) ++ r' -> a = b /\ r = r'.
Proof.
  intros Ha Hb E. rewrite <- !app_assoc in E. apply app_inj_1 in E as [E1 E]; [| now rewrite !be_bytes_length].
  apply be_bytes_inj in E1; [| lia | lia]. apply app_inj_1 in E as [-> ->]; [easy | lia].
Qed.

Lemma be_inj n a b r r' :
  0 <= a < 256 ^ Z.of_nat n -> 0 <= b < 256 ^ Z.of_nat n -> be_bytes n a ++ r = be_bytes n b ++ r' -> a = b /\ r = r'.
Proof.
  intros Ha Hb E. apply app_inj_1 in E as [E ->]; [| now rewrite !be_bytes_length].
  apply be_bytes_inj in E; auto.
Qed.

Section Copies.
Context {S : Type}.
Implicit Types s : S.

Lemma take_copy_prefix bs (d : list Z) : take (length bs) (copy_at 0 bs d) = bs.
Proof. unfold copy_at. rewrite take_0. exact (take_app_length bs _). Qed.

Lemma copy_whole b n : length b = n -> copy_at 0 b (repeat 0 n) = b.
Proof.
  intros <-. transitivity (take (length b) (copy_at 0 b (repeat 0 (length b)))); [| apply take_copy_prefix].
  symmetry. apply take_ge. rewrite copy_at_length; rewrite repeat_length; lia.
Qed.

(** Exactly the bytes asked for are copied, into a buffer of any size that has room. *)
Lemma wp_copy_inv pkt data len (Q : _ -> S -> Prop) s :
  packet_wf pkt -> 0 <= len <= Z.of_nat (length data) ->
  (Z.of_nat (length (view pkt)) < len -> Q None s) ->
  (forall d b p, packet_wf p -> base p = base pkt -> Z.of_nat (length b) = len -> view pkt = b ++ view p ->
     d = copy_at 0 b data -> Q (Some (d, p)) s) ->
  wp (reads (PACKET_copy_bytes pkt data len)) Q s.
Proof.
  intros W Hl HN HY. pose proof (copy_bytes_ok pkt data len W Hl) as G. unfold read_bytes in G.
  destruct (PACKET_copy_bytes pkt data len) as [[[d p] |] |] eqn:E; destruct (Nat.leb_spec (Z.to_nat len) (length (view pkt)));
    cbn in G; try easy; (eapply wp_reads; [reflexivity |]).
  - destruct G as (-> & Wp & Bp & Vp). apply (HY _ (take (Z.to_nat len) (view pkt))); auto.
    + rewrite length_take. lia.
    + now rewrite Vp, take_drop.
  - apply HN. lia.
Qed.

Lemma sub_packet_inv pkt len :
  packet_wf pkt -> 0 <= len ->
  match PACKET_get_sub_packet pkt len with
  | None => Z.of_nat (length (view pkt)) < len
  | Some (sub, p) => packet_wf sub /\ packet_wf p /\ Z.of_nat (length (view sub)) = len /\ view pkt = view sub ++ view p
  end.
Proof.
  intros W Hl. pose proof (get_sub_packet_ok pkt len W Hl) as G. unfold read_bytes in G.
  destruct (PACKET_get_sub_packet pkt len) as [[sub p] |]; destruct (Nat.leb_spec (Z.to_nat len) (length (view pkt)));
    cbn in G; try easy; [| lia].
  destruct G as ((Ws & _ & Vs) & Wp & _ & Vp). rewrite Vs, Vp, take_drop, length_take.
  split; [assumption |]. split; [assumption |]. split; [lia | reflexivity].
Qed.

Lemma wp_copy_all pkt dest len (Q : _ -> S -> Prop) s :
  packet_wf pkt -> Z.of_nat (length dest) = len ->
  (len < Z.of_nat (length (view pkt)) -> Q (false, dest, 0) s) ->
  (Z.of_nat (length (view pkt)) <= len ->
     Q (true, copy_at 0 (view pkt) dest, Z.of_nat (length (view pkt))) s) ->
  wp (reads (PACKET_copy_all pkt dest len)) Q s.
Proof.
  intros W Hl HN HY. pose proof (view_length pkt W) as Lv. pose proof (packet_bytes_view pkt W) as Eb.
  unfold PACKET_copy_all, PACKET_remaining, PACKET_data in *.
  destruct (Z.ltb_spec len (remaining pkt)); [eapply wp_reads; [reflexivity | apply HN; lia] |].
  rewrite Eb. cbn [mbind res_bind]. rewrite (proj2 (Z.leb_le _ _)) by lia. eapply wp_reads; [reflexivity |].
  rewrite <- Lv. apply HY. lia.
Qed.

End Copies.

(** ** The format *)

(** The bytes [b] are the hello [m]: after the version, the random, the session
    id, the cipher suites and the compression methods, there may be a vector of
    extensions and nothing else. *)
Definition regular (b : list Z) (m : CLIENTHELLO_MSG) : Prop :=
  exists tail, b = be_bytes 2 (legacy_version m) ++ random m ++ vec8 (session_id m) ++ vec16 (view (ciphersuites m))
                     ++ vec8 (compressions m) ++ tail
  /\ (tail = vec16 (view (extensions m)) \/ tail = [] /\ view (extensions m) = [])
  /\ 0 <= legacy_version m < 65536 /\ length (random m) = 32%nat /\ (length (session_id m) <= 32)%nat
  /\ fits16 (view (ciphersuites m)) = true /\ (length (compressions m) < 256)%nat
  /\ fits16 (view (extensions m)) = true.

(** In the format of SSLv2 the lengths come first; the challenge, from which the
    random is filled from the right, is cut after 32 bytes. *)
Definition v2_format (b : list Z) (m : CLIENTHELLO_MSG) : Prop :=
  exists challenge,
    b = be_bytes 1 SSL2_MT_CLIENT_HELLO ++ be_bytes 2 (legacy_version m)
          ++ be_bytes 2 (Z.of_nat (length (view (ciphersuites m)))) ++ be_bytes 2 (Z.of_nat (length (session_id m)))
          ++ be_bytes 2 (Z.of_nat (length challenge)) ++ view (ciphersuites m) ++ session_id m ++ challenge
  /\ random m = repeat 0 (32 - length (take 32 challenge)) ++ take 32 challenge
  /\ 0 <= legacy_version m < 65536 /\ (length (session_id m) <= 32)%nat
  /\ fits16 (view (ciphersuites m)) = true /\ fits16 challenge = true
  /\ compressions m = [0] /\ view (extensions m) = [].

Definition is_hello (v2 : bool) (b : list Z) (m : CLIENTHELLO_MSG) : Prop :=
  isv2 m = v2 /\ packet_wf (ciphersuites m) /\ packet_wf (extensions m)
  /\ if v2 then v2_format b m else regular b m.

Lemma null_packet_wf : packet_wf PACKET_null_init.
Proof. repeat split; try (vm_compute; discriminate). constructor. Qed.

Section Read.
Context {L : ExtLib} {K : Callbacks} {H : HelloLib} {A : Alloc}.
Implicit Types s : hssl.

(** What a failing reader leaves, and what one that succeeds does *)
Definition read_as (v2 : bool) (b : list Z) (s : hssl) (r : option CLIENTHELLO_MSG) (s' : hssl) : Prop :=
  match r with
  | Some m => s' = s /\ is_hello v2 b m
  | None => (exists al, s' = halert al s) /\ ~ exists m, is_hello v2 b m
  end.

Lemma fails_reading v2 b al s : (~ exists m, is_hello v2 b m) -> wp (decode_error al) (read_as v2 b s) s.
Proof. intros No. hsteps. split; [eauto | exact No]. Qed.

(** The bounds of the fields of a regular hello *)
Record bounded (m : CLIENTHELLO_MSG) : Prop := {
  b_random : length (random m) = 32%nat;
  b_session_id : (length (session_id m) <= 32)%nat;
  b_suites : Z.of_nat (length (view (ciphersuites m))) < 65536;
  b_compressions : Z.of_nat (length (compressions m)) < 256;
  b_extensions : Z.of_nat (length (view (extensions m))) < 65536 }.

Definition tail_of (m : CLIENTHELLO_MSG) (tail : list Z) : Prop :=
  tail = vec16 (view (extensions m)) \/ tail = [] /\ view (extensions m) = [].
Definition lists_of (m : CLIENTHELLO_MSG) (tail : list Z) : list Z :=
  vec16 (view (ciphersuites m)) ++ vec8 (compressions m) ++ tail.

Lemma regular_head v b :
  0 <= v < 65536 ->
  (forall m tail, b = random m ++ vec8 (session_id m) ++ lists_of m tail -> tail_of m tail -> bounded m -> False) ->
  ~ exists m, is_hello false (be_bytes 2 v ++ b) m.
Proof.
  intros Hv No (m & _ & _ & _ & tail & E & Ht & Hm & Hr & Hi & Hs & Hc & He).
  apply be_inj in E as [-> ->]; [| assumption | assumption]. unfold fits16 in *.
  apply (No m tail); auto. split; lia.
Qed.

(** The extensions are those of a tail, if it has any. *)
Lemma read_hello_exts_ok pkt (Q : option PACKET -> hssl -> Prop) s :
  packet_wf pkt ->
  (forall e, packet_wf e -> Z.of_nat (length (view e)) < 65536 ->
     view pkt = vec16 (view e) \/ view pkt = [] /\ view e = [] -> Q (Some e) s) ->
  ((forall m, bounded m -> ~ tail_of m (view pkt)) -> Q None s) ->
  wp (read_hello_exts pkt) Q s.
Proof.
  intros W HY HN. unfold read_hello_exts. pose proof (view_length pkt W) as Lv. unfold PACKET_remaining at 1.
  destruct (Z.eqb_spec (remaining pkt) 0) as [Hz | Hz].
  { apply wp_ret, HY; [apply null_packet_wf | reflexivity |]. right. split; [apply nil_length_inv; lia | reflexivity]. }
  assert (Hne : view pkt <> []) by (intros E; rewrite E in Lv; cbn in Lv; lia).
  apply wp_bind, (wp_vec_inv 2 false PACKET_get_net_2 _ _ _ simulates_2); [lia | assumption | |].
  { intros No. apply wp_ret, HN. intros m B [E | [E _]]; [| easy].
    apply (No _ [] (b_extensions m B)); [easy | now rewrite app_nil_r]. }
  intros e p We Wp _ _ Le _ V. apply wp_ret. pose proof (view_length p Wp) as Lp. unfold PACKET_remaining at 1.
  destruct (Z.eqb_spec (remaining p) 0) as [Hp | Hp]; cbn [negb].
  - apply HY; auto. left. rewrite V. replace (view p) with (@nil Z) by (symmetry; apply nil_length_inv; lia).
    now rewrite app_nil_r.
  - apply HN. intros m B [E | [E _]]; [| easy]. rewrite V, <- (app_nil_r (vec16 _)) in E.
    apply (vec_inj 2) in E as [_ E]; [| exact Le | exact (b_extensions m B)]. rewrite E in Lp. cbn in Lp. lia.
Qed.

(** The lists, after bytes that fix the version, the random and the session id *)
Lemma read_hello_lists_ok v rnd id pkt b s :
  packet_wf pkt -> 0 <= v < 65536 -> length rnd = 32%nat -> (length id <= 32)%nat ->
  b = rnd ++ vec8 id ++ view pkt ->
  wp (read_hello_lists v rnd id pkt) (read_as false (be_bytes 2 v ++ b) s) s.
Proof.
  intros W Hv Hr Hi Eb.
  assert (No : forall al, (forall m tail, bounded m -> tail_of m tail -> view pkt <> lists_of m tail) ->
    wp (decode_error al) (read_as false (be_bytes 2 v ++ b) s) s).
  { intros al No. apply fails_reading, regular_head; [assumption |]. intros m tail E Ht B. apply (No m tail B Ht).
    rewrite Eb in E. apply app_inj_1 in E as [_ E]; [| now rewrite (b_random m B)].
    apply (vec_inj 1) in E; [easy | lia | pose proof (b_session_id m B); lia]. }
  unfold read_hello_lists. apply wp_bind, (wp_vec_inv 2 false PACKET_get_net_2 _ _ _ simulates_2); [lia | assumption | |].
  { intros N. apply No. intros m tail B _ E. apply (N _ _ (b_suites m B) ltac:(discriminate) E). }
  intros suites p3 Wc W3 _ _ Lc _ V3. apply wp_bind, (wp_vec_inv 1 false PACKET_get_1 _ _ _ simulates_1); [lia | assumption | |].
  { intros N. apply No. intros m tail B _ E. rewrite V3 in E.
    apply (vec_inj 2) in E as [_ E]; [| exact Lc | exact (b_suites m B)].
    apply (N _ _ (b_compressions m B) ltac:(discriminate) E). }
  intros comp p4 Wm W4 _ _ Lm _ V4. apply wp_bind, read_hello_exts_ok; [assumption | |].
  - intros e We Le Ht. apply wp_bind, wp_copy_all; [assumption | reflexivity | unfold MAX_COMPRESSIONS_SIZE; lia |].
    intros _. cbn [negb]. hsteps. split; [reflexivity |]. rewrite Nat2Z.id, take_copy_prefix.
    split; [reflexivity |]. split; [assumption |]. split; [assumption |]. exists (view p4).
    cbn [legacy_version random session_id ciphersuites compressions extensions]. unfold fits16.
    split; [now rewrite Eb, V3, V4; unfold vec8, vec16; rewrite <- !app_assoc |].
    split; [exact Ht |]. repeat split; lia.
  - intros N. apply No. intros m tail B Ht E. rewrite V3 in E.
    apply (vec_inj 2) in E as [_ E]; [| exact Lc | exact (b_suites m B)]. rewrite V4 in E.
    apply (vec_inj 1) in E as [_ <-]; [| exact Lm | exact (b_compressions m B)]. now apply (N m).
Qed.

Lemma read_hello_ok v pkt s :
  packet_wf pkt -> 0 <= v < 65536 -> wp (read_hello v pkt) (read_as false (be_bytes 2 v ++ view pkt) s) s.
Proof.
  intros W Hv. unfold read_hello. apply wp_bind, wp_copy_inv; [assumption | unfold SSL3_RANDOM_SIZE; cbn; lia | |].
  { intros Hl. apply fails_reading, regular_head; [assumption |]. intros m tail E _ B. pose proof (b_random m B).
    apply (f_equal length) in E. rewrite length_app in E. unfold SSL3_RANDOM_SIZE in *. lia. }
  intros d rnd p1 W1 _ Lr V1 ->. unfold SSL3_RANDOM_SIZE in Lr.
  rewrite copy_whole by lia. apply wp_bind, (wp_vec_inv 1 false PACKET_get_1 _ _ _ simulates_1); [lia | assumption | |].
  { intros No. apply fails_reading, regular_head; [assumption |]. intros m tail E _ B. pose proof (b_session_id m B).
    rewrite V1 in E. apply app_inj_1 in E as [_ E]; [| rewrite (b_random m B); lia].
    apply (No (session_id m) _ ltac:(lia) ltac:(discriminate) E). }
  intros psid p2 Ws W2 _ _ Ls _ V2. apply wp_bind, wp_copy_all; [assumption | reflexivity | |].
  - intros Hl. cbn [negb]. apply fails_reading, regular_head; [assumption |]. intros m tail E _ B.
    pose proof (b_session_id m B). rewrite V1 in E. apply app_inj_1 in E as [_ E]; [| rewrite (b_random m B); lia].
    rewrite V2 in E. apply (vec_inj 1) in E as [E _]; [| exact Ls | lia].
    rewrite E in Hl. unfold SSL_MAX_SSL_SESSION_ID_LENGTH in Hl. lia.
  - intros Hl. cbn [negb]. rewrite Nat2Z.id, take_copy_prefix. unfold SSL_MAX_SSL_SESSION_ID_LENGTH in Hl.
    apply read_hello_lists_ok; [assumption | assumption | lia | lia |]. now rewrite V1, V2.
Qed.

(** *** The format of SSLv2 *)

(** The bytes before the fields: the version and three lengths *)
Definition v2_head (v suites sid challenge : Z) : list Z :=
  be_bytes 1 SSL2_MT_CLIENT_HELLO ++ be_bytes 2 v ++ be_bytes 2 suites ++ be_bytes 2 sid ++ be_bytes 2 challenge.

Lemma v2_fields v a i n b :
  0 <= v < 65536 -> 0 <= a < 65536 -> 0 <= i < 65536 -> 0 <= n < 65536 ->
  (forall m ch, b = view (ciphersuites m) ++ session_id m ++ ch -> Z.of_nat (length (view (ciphersuites m))) = a ->
     Z.of_nat (length (session_id m)) = i -> Z.of_nat (length ch) = n -> (length (session_id m) <= 32)%nat -> False) ->
  ~ exists m, is_hello true (v2_head v a i n ++ b) m.
Proof.
  intros Hv Ha Hi Hn No (m & _ & _ & _ & ch & E & _ & Hm & Hs & Hc & Hch & _). unfold v2_head, fits16 in *.
  rewrite <- !app_assoc in E. apply app_inv_head in E. do 4 (apply be_inj in E as [? E]; [| lia | lia]).
  subst. now apply (No m ch).
Qed.

Lemma read_v2_fields_ok v a i n pkt s :
  packet_wf pkt -> 0 <= v < 65536 -> 0 <= a < 65536 -> 0 <= i <= 32 -> 0 <= n < 65536 ->
  wp (read_v2_fields v a i n pkt) (read_as true (v2_head v a i n ++ view pkt) s) s.
Proof.
  intros W Hv Ha Hi Hn. unfold read_v2_fields. pose proof (sub_packet_inv pkt a W ltac:(lia)) as G1.
  destruct (PACKET_get_sub_packet pkt a) as [[suites p1] |].
  2:{ apply fails_reading, v2_fields; [lia .. |]. intros m ch E La Li Ln _. apply (f_equal length) in E. rewrite length_app in E. lia. }
  destruct G1 as (Ws & W1 & La & V1). apply wp_bind, wp_copy_inv; [assumption | cbn; lia | |].
  { intros Hl. apply fails_reading, v2_fields; [lia .. |]. intros m ch E La' Li Ln _. apply (f_equal length) in E, V1.
    rewrite !length_app in E. rewrite length_app in V1. lia. }
  intros d sid p2 W2 _ Li V2 ->. pose proof (sub_packet_inv p2 n W2 ltac:(lia)) as G3.
  destruct (PACKET_get_sub_packet p2 n) as [[ch p3] |].
  2:{ apply fails_reading, v2_fields; [lia .. |]. intros m ch E La' Li' Ln _. apply (f_equal length) in E, V1, V2.
      rewrite !length_app in E. rewrite length_app in V1, V2. lia. }
  destruct G3 as (Wc & W3 & Ln & V3). pose proof (view_length p3 W3) as L3. unfold PACKET_remaining at 1.
  destruct (Z.eqb_spec (remaining p3) 0) as [Hz | Hz]; cbn [negb].
  2:{ apply fails_reading, v2_fields; [lia .. |]. intros m ch' E La' Li' Ln' _. apply (f_equal length) in E, V1, V2, V3.
      rewrite !length_app in E. rewrite length_app in V1, V2, V3. lia. }
  replace (if SSL3_RANDOM_SIZE <? n then SSL3_RANDOM_SIZE else n) with (Z.of_nat (length (take 32 (view ch))))
    by (rewrite length_take; unfold SSL3_RANDOM_SIZE; destruct (Z.ltb_spec 32 n); lia).
  cbv zeta. apply wp_bind, wp_copy_inv; [assumption | rewrite repeat_length; lia | rewrite length_take; lia |].
  intros d b p _ _ Lb Vb ->. rewrite Nat2Z.id in *.
  assert (Eb : b = take 32 (view ch)).
  { rewrite length_take in Lb. rewrite <- (take_app_length b (view p)), <- Vb.
    destruct (Nat.le_gt_cases 32 (length (view ch))); [f_equal; lia | rewrite !take_ge by lia; reflexivity]. }
  hsteps. split; [reflexivity |]. split; [reflexivity |]. split; [assumption |]. split; [apply null_packet_wf |].
  rewrite copy_whole by lia. replace (Z.to_nat i) with (length sid) by lia. rewrite take_copy_prefix, Eb.
  exists (view ch). cbn [legacy_version random session_id ciphersuites compressions extensions]. unfold fits16, SSL3_RANDOM_SIZE.
  split; [| split; [do 2 f_equal; lia |]; repeat split; lia].
  rewrite La, Li, Ln, V1, V2, V3. replace (view p3) with (@nil Z) by (symmetry; apply nil_length_inv; lia).
  unfold v2_head. now rewrite app_nil_r, <- !app_assoc.
Qed.

Lemma read_v2_hello_ok v pkt s :
  packet_wf pkt -> 0 <= v < 65536 ->
  wp (read_v2_hello v pkt) (read_as true (be_bytes 1 SSL2_MT_CLIENT_HELLO ++ be_bytes 2 v ++ view pkt) s) s.
Proof.
  intros W Hv.
  assert (No : forall al, (length (view pkt) < 6)%nat ->
    wp (decode_error al) (read_as true (be_bytes 1 SSL2_MT_CLIENT_HELLO ++ be_bytes 2 v ++ view pkt) s) s).
  { intros al Hl. apply fails_reading. intros (m & _ & _ & _ & ch & E & _). apply app_inv_head in E.
    apply (f_equal length) in E. rewrite !length_app, !be_bytes_length in E. lia. }
  unfold read_v2_hello. apply wp_bind, (wp_read_inv 2 PACKET_get_net_2 _ _ _ simulates_2 W); [intros; apply No; lia |].
  intros a p1 W1 _ Ha V1. apply wp_bind, (wp_read_inv 2 PACKET_get_net_2 _ _ _ simulates_2 W1).
  { intros Hl. apply No. rewrite V1, length_app, be_bytes_length. lia. }
  intros i p2 W2 _ Hi V2. apply wp_bind, (wp_read_inv 2 PACKET_get_net_2 _ _ _ simulates_2 W2).
  { intros Hl. apply No. rewrite V1, V2, !length_app, !be_bytes_length. lia. }
  intros n p3 W3 _ Hn V3.
  assert (E : be_bytes 1 SSL2_MT_CLIENT_HELLO ++ be_bytes 2 v ++ view pkt = v2_head v a i n ++ view p3)
    by (unfold v2_head; now rewrite V1, V2, V3, <- !app_assoc).
  rewrite E. destruct (Z.ltb_spec SSL_MAX_SSL_SESSION_ID_LENGTH i) as [Hb | Hb]; unfold SSL_MAX_SSL_SESSION_ID_LENGTH in Hb.
  - apply fails_reading, v2_fields; [lia .. |]. intros m ch _ _ Li _ Hm. lia.
  - now apply read_v2_fields_ok; [| | | lia |].
Qed.

(** ** The message *)

(** The bytes of a regular hello determine its fields, and those of any hello its
    extensions. *)
Lemma regular_unique b m m' :
  regular b m -> regular b m' ->
  legacy_version m = legacy_version m' /\ random m = random m' /\ session_id m = session_id m'
  /\ view (ciphersuites m) = view (ciphersuites m') /\ compressions m = compressions m'
  /\ view (extensions m) = view (extensions m').
Proof.
  intros (tail & -> & T & Hv & Hr & Hi & Hs & Hc & He) (tail' & E & T' & Hv' & Hr' & Hi' & Hs' & Hc' & He').
  unfold fits16 in *. apply be_inj in E as [? E]; [| assumption | assumption]. apply app_inj_1 in E as [? E]; [| congruence].
  apply (vec_inj 1) in E as [? E]; [| lia | lia]. apply (vec_inj 2) in E as [? E]; [| lia | lia].
  apply (vec_inj 1) in E as [? E]; [| lia | lia]. do 5 (split; [assumption |]).
  destruct T as [-> | [-> ->]], T' as [-> | [-> ->]]; try easy.
  rewrite <- (app_nil_r (vec16 _)), <- (app_nil_r (vec16 (view (extensions m')))) in E.
  apply (vec_inj 2) in E as [E _]; [exact E | lia | lia].
Qed.

Lemma hello_exts_unique v2 b m m' : is_hello v2 b m -> is_hello v2 b m' -> view (extensions m) = view (extensions m').
Proof.
  intros (_ & _ & _ & F) (_ & _ & _ & F'). destruct v2; [| now apply (regular_unique b)].
  destruct F as (ch & _ & _ & _ & _ & _ & _ & _ & ->), F' as (ch' & _ & _ & _ & _ & _ & _ & _ & ->). reflexivity.
Qed.

(** The hello that the bytes [b] are, and its extensions *)
Definition acceptable_hello (s : hssl) (b : list Z) (m : CLIENTHELLO_MSG) (l : list (Z * list Z)) : Prop :=
  is_hello sslv2_record b m
  /\ extensions_of (h_conf s) SSL_EXT_CLIENT_HELLO (custom_ext_init_ntls (custext (h_ext s))) (extflags (h_ext s))
       (view (extensions m)) l.

Definition processed (s : hssl) (b : list Z) (r : MSG_PROCESS_RETURN) (s' : hssl) : Prop :=
  match r with
  | MSG_PROCESS_CONTINUE_PROCESSING =>
      exists m l, clienthello s' = Some m /\ acceptable_hello s b m l
        /\ tabled (h_conf s) SSL_EXT_CLIENT_HELLO (custom_ext_init_ntls (custext (h_ext s))) l (pre_proc_exts m)
        /\ e_fatal (h_ext s') = e_fatal (h_ext s)
  | MSG_PROCESS_ERROR =>
      (~ exists m l, acceptable_hello s b m l) /\ e_fatal (h_ext s') <> None /\ clienthello s' = clienthello s
  | _ => False
  end.

Lemma refused b al s : (~ exists m, is_hello sslv2_record b m) -> processed s b MSG_PROCESS_ERROR (halert al s).
Proof. intros No. split; [intros (m & l & Hm & _); eauto |]. split; [apply halert_fatal | reflexivity]. Qed.

(** From the version on *)
Lemma process_hello_fields_ok pkt b s :
  packet_wf pkt -> ext_ok C_raw_zalloc = true -> Z.of_nat (builtin_num (h_conf s)) <= null_idx (h_conf s) ->
  b = (if sslv2_record then be_bytes 1 SSL2_MT_CLIENT_HELLO else []) ++ view pkt ->
  wp (process_hello_fields pkt) (processed s b) s.
Proof.
  intros W Hz Hn Eb. apply wp_bind, (wp_read_inv 2 PACKET_get_net_2 _ _ _ simulates_2 W).
  { intros Hl. hsteps. apply refused. intros (m & _ & _ & _ & F). rewrite Eb in F. destruct sslv2_record.
    - destruct F as (ch & E & _). apply app_inv_head, (f_equal length) in E. rewrite length_app, be_bytes_length in E. lia.
    - destruct F as (tl & E & _). apply (f_equal length) in E. rewrite !length_app, be_bytes_length in E. cbn in E. lia. }
  intros v p Wp _ Hv V. rewrite V in Eb. apply wp_bind.
  apply (wp_mono _ (read_as sslv2_record b s)).
  { rewrite Eb. destruct sslv2_record; [now apply read_v2_hello_ok | now apply read_hello_ok]. }
  intros [m |] s' Hr.
  2:{ destruct Hr as [(al & ->) No]. hsteps. now apply refused. }
  destruct Hr as [-> Hm]. pose proof Hm as (_ & _ & We & _). apply wp_bind, wp_on_ext.
  eapply wp_mono; [now apply wp_collect_extensions |]. intros [raw |] e; cbn [collected_all].
  - intros (l & Hl & Hh & Hf & _). hsteps. exists (mk_hello (isv2 m) (legacy_version m) (random m) (session_id m)
      (ciphersuites m) (compressions m) (extensions m) raw), l. split; [reflexivity |]. split; [exact (conj Hm Hl) |].
    split; [exact Hh | exact Hf].
  - intros [No Hf]. hsteps. split; [| now split]. intros (m' & l & Hm' & Hl). apply No. exists l.
    now rewrite (hello_exts_unique _ _ _ _ Hm Hm').
Qed.

(** C6: In a first handshake in which the allocations for the hello succeed, a
    ClientHello is accepted if and only if its bytes have the format of the
    message - of the regular one, or of the one of SSLv2 when the record layer saw
    that - and its extensions can be collected.  The server then has the version,
    the random, the session id of at most 32 bytes, the cipher suites, the
    compression methods and the table of the extensions that these bytes encode,
    and has raised no alert; otherwise there is an alert and nothing is kept.  No
    bytes make it read or write outside a buffer. *)
Theorem tls_process_client_hello_ok pkt s :
  packet_wf pkt -> SSL_IS_FIRST_HANDSHAKE (h_conf s) = true -> clienthello_zalloc = true ->
  (sslv2_record = true -> hrr_none (h_conf s) = true) ->
  ext_ok C_raw_zalloc = true -> Z.of_nat (builtin_num (h_conf s)) <= null_idx (h_conf s) ->
  exists r s', tls_process_client_hello_ntls pkt s = Val (r, s')
    /\ match r with
       | MSG_PROCESS_CONTINUE_PROCESSING =>
           exists m l, clienthello s' = Some m /\ acceptable_hello s (view pkt) m l
             /\ tabled (h_conf s) SSL_EXT_CLIENT_HELLO (custom_ext_init_ntls (custext (h_ext s))) l (pre_proc_exts m)
             /\ e_fatal (h_ext s') = e_fatal (h_ext s)
       | MSG_PROCESS_ERROR =>
           (~ exists m l, acceptable_hello s (view pkt) m l) /\ e_fatal (h_ext s') <> None /\ clienthello s' = clienthello s
       | _ => False
       end.
Proof.
  intros W Hf Hc Hv2 Hz Hn. apply (wp_run _ (processed s (view pkt))). unfold tls_process_client_hello_ntls.
  apply wp_bind, wp_gets. cbn [id]. rewrite Hf, Hc. cbn [negb]. apply wp_bind.
  pose proof (fun al => refused (view pkt) al s) as Ref.
  pose proof (fun p => process_hello_fields_ok p (view pkt) s) as Go. destruct sslv2_record.
  2:{ apply wp_ret. now apply Go. }
  apply wp_bind, wp_gets. cbn [id]. rewrite Hv2 by reflexivity. cbn [negb].
  apply wp_bind, (wp_read_inv 1 PACKET_get_1 _ _ _ simulates_1 W).
  { intros Hl. hsteps. apply Ref. intros (m & _ & _ & _ & ch & E & _). apply (f_equal length) in E.
    rewrite length_app, be_bytes_length in E. lia. }
  intros mt p Wp _ Hmt V. destruct (Z.eqb_spec mt SSL2_MT_CLIENT_HELLO) as [-> | Hne]; cbn [negb].
  - apply wp_ret. now apply Go.
  - hsteps. apply Ref. intros (m & _ & _ & _ & ch & E & _). rewrite V in E.
    apply (be_inj 1) in E as [E _]; [easy | exact Hmt |]. unfold SSL2_MT_CLIENT_HELLO. lia.
Qed.

End Read.

(** ** In the concrete setting *)

#[local] Instance read_lib : ExtLib := hello_lib [].
#[local] Instance read_callbacks : Callbacks := hello_callbacks [].
#[local] Instance read_alloc : Alloc := hello_alloc.
#[local] Instance read_env : HelloLib := toy_env false.

Lemma tls_process_client_hello_ok_witness :
  exists s' m l, tls_process_client_hello_ntls toy_hello_packet (toy_hssl true (hello_ssl [] None 0 None []))
                 = Val (MSG_PROCESS_CONTINUE_PROCESSING, s')
    /\ clienthello s' = Some m /\ is_hello false toy_hello_bytes m
    /\ tabled (hello_conf true) SSL_EXT_CLIENT_HELLO [] l (pre_proc_exts m).
Proof.
  destruct (tls_process_client_hello_ok (H := read_env) toy_hello_packet (toy_hssl true (hello_ssl [] None 0 None []))
              toy_hello_packet_wf eq_refl eq_refl (fun _ => eq_refl) eq_refl ltac:(vm_compute; discriminate))
    as (r & s' & E & H).
  pose proof E as E'.
  apply (f_equal (fun r => match r with Val (MSG_PROCESS_CONTINUE_PROCESSING, _) => true | _ => false end)) in E'.
  vm_compute in E'. destruct r; try discriminate E'. clear E'.
  destruct H as (m & l & Hc & [Hm _] & Hh & _). exists s', m, l. exact (conj E (conj Hc (conj Hm Hh))).
Defined.
