(* ===== verification/HelloAgree.v ===== *)
(** * NTLS hello messages: the ClientHello reaches the server

    What [tls_construct_client_hello_ntls] writes: the fields as bytes, the
    choice of the cipher suites, and that a failure comes with an alert; and that
    it is what the server has after reading it, for the fields of the message
    and, by [ExtAgree], for its extensions. *)

From S2P Require Import Prelude Buffers CMem Packet PacketSpec Wpacket WpacketSpec PacketRules ExtTypes ExtToy ExtCust ExtClient ExtServer ExtTable ExtCollect ExtSafe ExtWrite ExtHello ExtLoop ExtParse ExtAgree HelloTypes HelloRead HelloMsg.

Section Write.
Context {L : ExtLib} {K : Callbacks} {H : HelloLib} {A : Alloc}.
Implicit Types s : hssl.

(** The connection with another packet *)
Definition with_pkt (p : WPACKET) (s : hssl) : hssl := s <| h_ext := h_ext s <| e_pkt := p |> |>.

(** [w] does the operations [os], if [ok], and takes [s] to [s1] otherwise; when
    it fails there is an alert, and a reason. *)
Definition hemits (w : prog hssl bool) (s : hssl) (os : list wop) (ok : bool) (s1 : hssl) : Prop :=
  forall p fs, rep p fs -> fs <> [] ->
  wp w (fun r s' =>
    if r : bool
    then exists p' fs', s' = with_pkt p' s1 /\ ok = true /\ frun os fs = Some fs' /\ fs' <> [] /\ rep p' fs'
           /\ (room p (costs os) -> (forall a, alloc_ok a = true) -> cap p' = cap p /\ written p' <= written p + costs os)
    else e_fatal (h_ext s') <> None
           /\ ~ (ok = true /\ frun os fs <> None /\ room p (costs os) /\ forall a, alloc_ok a = true)) (with_pkt p s).

Lemma hemits_ret s : hemits (mret true) s [] true s.
Proof. intros p fs R Hne. apply wp_ret. exists p, fs. do 5 (split; [easy |]). intros _ _. cbn [costs]. split; [reflexivity | lia]. Qed.

Lemma hemits_seq w k s os ok s1 os' ok' s2 :
  hemits w s os ok s1 -> hemits k s1 os' ok' s2 ->
  hemits (r ← w; if negb r then mret false else k) s (os ++ os') (ok && ok') s2.
Proof.
  intros Hw Hk p fs R Hne. apply wp_bind. eapply wp_mono; [exact (Hw p fs R Hne) |]. rewrite frun_app, costs_app.
  pose proof (costs_pos os). pose proof (costs_pos os'). intros [] s'; cbn [negb].
  - intros (p1 & fs1 & -> & -> & E1 & Hne1 & R1 & Hr1). rewrite E1. eapply wp_mono; [exact (Hk p1 fs1 R1 Hne1) |].
    intros [] s''; cbn [mbind option_bind andb].
    + intros (p2 & fs2 & -> & -> & E2 & Hne2 & R2 & Hr2). exists p2, fs2. do 5 (split; [easy |]).
      intros Hr Ha. unfold room in *. destruct Hr1 as [? ?]; [lia | assumption |]. destruct Hr2 as [? ?]; [lia | assumption |]. split; [congruence | lia].
    + intros [Hf No]. split; [assumption |]. intros (Ho & Hf' & Hr & Ha). apply No. unfold room in *.
      destruct Hr1 as [? ?]; [lia | assumption |]. repeat split; [assumption | assumption | lia | assumption].
  - intros [Hf No]. apply wp_ret. split; [assumption |]. intros (Ho & Hf' & Hr & Ha). apply No.
    apply andb_true_iff in Ho as [? _]. repeat split; [assumption | now destruct (frun os fs) | unfold room in *; lia | assumption].
Qed.

(** A write, which fails with an internal error *)
Lemma hemits_write w s os : emits w os -> hemits (r ← put w; if negb r then hfail SSL_AD_INTERNAL_ERROR else mret true) s os true s.
Proof.
  intros E p fs R Hne. apply wp_bind, wp_on_ext. eapply wp_mono; [apply (E _ fs); [exact R | exact Hne] |].
  intros [] e (p' & -> & H1 & H2); cbn [negb]; hsteps.
  - destruct (H1 eq_refl) as (fs' & Ef & Hne' & R'). exists p', fs'. split; [reflexivity |]. do 4 (split; [easy |]).
    intros Hr Ha. destruct H2 as (_ & ? & ?); [assumption | now rewrite Ef | assumption | easy].
  - split; [apply halert_fatal |]. intros (_ & Hf & Hr & Ha). now destruct H2.
Qed.

Lemma hemits_put w k s os os' ok' s2 :
  emits w os -> hemits k s os' ok' s2 ->
  hemits (r ← put w; if negb r then hfail SSL_AD_INTERNAL_ERROR else k) s (os ++ os') ok' s2.
Proof.
  intros E Hk p fs R Hne. pose proof (hemits_seq _ _ _ _ _ _ _ _ _ (hemits_write w s os E) Hk p fs R Hne) as W.
  rewrite andb_true_l in W. eapply wp_mono; [| intros r s' Hp; exact Hp]. revert W. unfold wp, mbind, prog_bind.
  destruct (put w (with_pkt p s)) as [[[] s'] |]; auto.
Qed.

(** What is computed before, from the state without the packet *)
Lemma hemits_gets {B} (f : hssl -> B) k s os ok s1 :
  (forall p, hemits (k (f (with_pkt p s))) s os ok s1) -> hemits (x ← gets f; k x) s os ok s1.
Proof. intros Hk p fs R Hne. apply wp_bind, wp_gets. now apply Hk. Qed.

(** ** Cipher suites *)

Definition flagged (c : SSL_CIPHER) : bool := Z.land (cipher_id c) 0xff000000 =? SSL3_CK_CIPHERSUITE_FLAG.
Definition cipher_chars (c : SSL_CIPHER) : list Z := if flagged c then be_bytes 2 (Z.land (cipher_id c) 0xffff) else [].
Definition suite_bytes (l : list SSL_CIPHER) : list Z := flat_map cipher_chars l.

(** The ciphers that are enabled, while there are fewer than [maxlen] bytes *)
Fixpoint chosen (mn mx maxlen totlen : Z) (sk : list SSL_CIPHER) : list SSL_CIPHER :=
  match sk with
  | [] => []
  | c :: sk =>
      if negb (totlen <? maxlen) then []
      else if ssl_cipher_disabled mn mx c false then chosen mn mx maxlen totlen sk
      else c :: chosen mn mx maxlen (totlen + Z.of_nat (length (cipher_chars c))) sk
  end.
Definition covers (mx : Z) (c : SSL_CIPHER) : bool := (mx <=? max_tls c) && (min_tls c <=? mx).

(** What appending the bytes [d] leaves, and when it may fail *)
Definition appended (d : list Z) (p : WPACKET) (fs : list frame) (p' : WPACKET) : Prop :=
  rep p' (append d fs)
  /\ (room p (Z.of_nat (length d)) -> (forall a, alloc_ok a = true) ->
      cap p' = cap p /\ written p' <= written p + Z.of_nat (length d)).
Definition no_room (d : list Z) (p : WPACKET) : Prop :=
  ~ (room p (Z.of_nat (length d)) /\ forall a, alloc_ok a = true).

Lemma appended_nil p fs : rep p fs -> fs <> [] -> appended [] p fs p.
Proof. intros R Hne. split; [| intros _ _; cbn; split; [reflexivity | lia]]. destruct fs as [| f fs]; [easy |].
  cbn. rewrite app_nil_r. now destruct f. Qed.

Lemma appended_app d d' p fs p1 p2 :
  appended d p fs p1 -> appended d' p1 (append d fs) p2 -> appended (d ++ d') p fs p2.
Proof.
  intros [R1 H1] [R2 H2]. rewrite append_append in R2. split; [assumption |]. rewrite length_app. intros Hr Ha.
  unfold room in *. destruct H1 as [? ?]; [lia | assumption |]. destruct H2 as [? ?]; [lia | assumption |].
  split; [congruence | lia].
Qed.

Lemma no_room_app d d' p fs p1 : appended d p fs p1 -> no_room d' p1 -> no_room (d ++ d') p.
Proof.
  intros [_ H1] No [Hr Ha]. rewrite length_app in Hr. unfold room in *. destruct H1 as [? ?]; [lia | assumption |].
  apply No. split; [unfold room; lia | assumption].
Qed.

Lemma no_room_l d d' p : no_room d p -> no_room (d ++ d') p.
Proof. intros No [Hr Ha]. apply No. rewrite length_app in Hr. unfold room in *. split; [lia | assumption]. Qed.

Lemma land_16 x : 0 <= Z.land x 0xffff < 65536.
Proof. change 0xffff with (Z.ones 16). rewrite Z.land_ones by lia. apply Z.mod_pos_bound. lia. Qed.

Lemma put_cipher_ok c p fs (Q : bool * Z -> hssl -> Prop) s :
  rep p fs -> fs <> [] ->
  (forall p', appended (cipher_chars c) p fs p' -> Q (true, Z.of_nat (length (cipher_chars c))) (with_pkt p' s)) ->
  (forall p', no_room (cipher_chars c) p -> Q (false, 0) (with_pkt p' s)) ->
  wp (ssl3_put_cipher_by_char c) Q (with_pkt p s).
Proof.
  intros R Hne HY HN. unfold ssl3_put_cipher_by_char. unfold cipher_chars, flagged in *.
  destruct (Z.land (cipher_id c) _ =? _); cbn [negb].
  - pose proof (land_16 (cipher_id c)). apply wp_bind, wp_on_ext.
    eapply (appends_wp _ _ _ _ fs); [apply appends_u16; lia | exact R | exact Hne | |].
    + intros p' _ R' Hr. apply wp_ret. rewrite be_bytes_length in HY. apply HY. split; [exact R' | exact Hr].
    + intros p' No. apply wp_ret, HN. intros [Hr Ha]. apply No. split; [lia |]. split; [exact Hr | exact Ha].
  - apply wp_ret. apply (HY p), appended_nil; assumption.
Qed.

(** One cipher, then the rest *)
Lemma hemits_cipher c k s os ok s1 :
  hemits k s os ok s1 ->
  hemits ('(r, _) ← ssl3_put_cipher_by_char c; if negb r then hfail SSL_AD_INTERNAL_ERROR else k) s
    ([OpCopy (cipher_chars c)] ++ os) ok s1.
Proof.
  intros Hk p fs R Hne. rewrite costs_app. cbn [costs cost]. rewrite Z.add_0_r. pose proof (costs_pos os).
  apply wp_bind, (put_cipher_ok c p fs); [assumption | assumption | |].
  - intros p1 [R1 H1]. cbn [negb]. eapply wp_mono; [exact (Hk p1 _ R1 (append_ne _ _ Hne)) |]. intros [] s'.
    + intros (p2 & fs2 & -> & -> & E & Hne2 & R2 & H2). exists p2, fs2. do 2 (split; [reflexivity |]). split; [exact E |].
      do 2 (split; [assumption |]). intros Hr Ha. unfold room in *.
      destruct H1 as [? ?]; [lia | assumption |]. destruct H2 as [? ?]; [lia | assumption |]. split; [congruence | lia].
    + intros [Hf No]. split; [assumption |]. intros (Ho & Hf' & Hr & Ha). apply No. unfold room in *.
      destruct H1 as [? ?]; [lia | assumption |]. split; [assumption |]. split; [exact Hf' |]. split; [lia | assumption].
  - intros p1 No. cbn [negb]. hsteps. split; [apply halert_fatal |]. intros (_ & _ & Hr & Ha). apply No.
    unfold room in *. split; [lia | assumption].
Qed.

(** Operations that append some bytes are as good as copying them. *)
Lemma hemits_bytes w s os d ok s1 : builds os d true -> hemits w s os ok s1 -> hemits w s [OpCopy d] ok s1.
Proof.
  intros [Br Bc] Hw p fs R Hne. specialize (Hw p fs R Hne). rewrite Br, Bc in Hw by assumption.
  cbn [frun fstep mbind option_bind costs cost]. rewrite Z.add_0_r. exact Hw.
Qed.

Lemma put_ciphers_ok sk maxlen totlen ok p fs s :
  rep p fs -> fs <> [] ->
  let l := chosen (min_ver s) (max_ver s) maxlen totlen sk in
  wp (put_ciphers sk maxlen totlen ok) (fun r s' =>
    match r with
    | Some (totlen', ok') => exists p', s' = with_pkt p' s /\ appended (suite_bytes l) p fs p'
        /\ totlen' = totlen + Z.of_nat (length (suite_bytes l)) /\ ok' = ok || existsb (covers (max_ver s)) l
    | None => e_fatal (h_ext s') <> None /\ no_room (suite_bytes l) p
    end) (with_pkt p s).
Proof.
  cbv zeta. revert totlen ok p fs. induction sk as [| c sk IH]; intros totlen ok p fs R Hne; cbn [put_ciphers chosen].
  { apply wp_ret. exists p. split; [reflexivity |]. split; [now apply appended_nil |]. cbn. rewrite orb_false_r. split; [lia | reflexivity]. }
  destruct (totlen <? maxlen); cbn [negb].
  2:{ apply wp_ret. exists p. split; [reflexivity |]. split; [now apply appended_nil |]. cbn. rewrite orb_false_r. split; [lia | reflexivity]. }
  apply wp_bind, wp_gets. cbn [id]. change (min_ver (with_pkt p s)) with (min_ver s). change (max_ver (with_pkt p s)) with (max_ver s).
  destruct (ssl_cipher_disabled _ _ c false); [now apply IH |]. apply wp_bind, (put_cipher_ok c p fs); [assumption | assumption | |].
  - intros p1 A1. cbn [negb]. eapply wp_mono; [apply IH; [exact (proj1 A1) | now apply append_ne] |].
    intros [[totlen' ok'] |] s'.
    + intros (p2 & -> & A2 & -> & ->). exists p2. split; [reflexivity |]. cbn [suite_bytes flat_map existsb].
      split; [now apply (appended_app _ _ _ _ p1) |]. rewrite length_app. unfold suite_bytes, covers. split; [lia |].
      now rewrite orb_assoc.
    + intros [Hf No]. split; [assumption |]. now apply (no_room_app _ _ _ fs p1).
  - intros p1 No. cbn [negb]. hsteps. split; [apply halert_fatal |]. now apply no_room_l.
Qed.

(** *** The list with the signalling values *)

Definition maxlen : Z := 0xfffe - (if renegotiate then 0 else 2) - (if send_fallback_scsv then 2 else 0).
Definition scsvs : list SSL_CIPHER :=
  (if renegotiate then [] else [mk_cipher SSL3_CK_SCSV 0 0])
  ++ (if send_fallback_scsv then [mk_cipher SSL3_CK_FALLBACK_SCSV 0 0] else []).
Definition offered (mn mx : Z) (sk : list SSL_CIPHER) : list SSL_CIPHER := chosen mn mx maxlen 0 sk.
Definition offer_ok (mn mx : Z) (sk : list SSL_CIPHER) : bool :=
  existsb flagged (offered mn mx sk) && existsb (covers mx) (offered mn mx sk).

Lemma chars_length c : length (cipher_chars c) = (if flagged c then 2 else 0)%nat.
Proof. unfold cipher_chars. now destruct (flagged c). Qed.

(** The list always fits its length. *)
Lemma chosen_length mn mx m n sk :
  Z.even m = true -> Z.even n = true -> n <= m -> n + Z.of_nat (length (suite_bytes (chosen mn mx m n sk))) <= m.
Proof.
  intros Hm. revert n. induction sk as [| c sk IH]; intros n Hn Hl; cbn [chosen]; [cbn; lia |].
  destruct (Z.ltb_spec n m); cbn [negb]; [| cbn; lia]. destruct (ssl_cipher_disabled _ _ _ _); [auto |].
  cbn [suite_bytes flat_map]. rewrite length_app, chars_length. fold (suite_bytes (chosen mn mx m (n + Z.of_nat (if flagged c then 2 else 0)) sk)).
  apply Z.even_spec in Hm as [a ->]. pose proof Hn as Hn'. apply Z.even_spec in Hn' as [b ->].
  specialize (IH (2 * b + Z.of_nat (if flagged c then 2 else 0)%nat)). destruct (flagged c).
  - assert (E : Z.even (2 * b + Z.of_nat 2) = true) by (apply Z.even_spec; exists (b + 1); lia). specialize (IH E ltac:(lia)). lia.
  - rewrite Z.add_0_r in *. specialize (IH Hn ltac:(lia)). lia.
Qed.

Lemma suites_nil l : (Z.of_nat (length (suite_bytes l)) =? 0) = negb (existsb flagged l).
Proof.
  induction l as [| c l IH]; [reflexivity |]. cbn [suite_bytes flat_map existsb]. rewrite length_app, chars_length.
  fold (suite_bytes l). destruct (flagged c); [apply Z.eqb_neq; lia | exact IH].
Qed.

Definition all_suites (mn mx : Z) (sk : list SSL_CIPHER) : list Z := suite_bytes (offered mn mx sk ++ scsvs).

Lemma all_suites_fit mn mx sk : fits16 (all_suites mn mx sk) = true.
Proof.
  assert (Es : Z.of_nat (length (suite_bytes scsvs)) = 0xfffe - maxlen)
    by (unfold scsvs, maxlen; now destruct renegotiate, send_fallback_scsv).
  assert (B : 0 + Z.of_nat (length (suite_bytes (offered mn mx sk))) <= maxlen)
    by (apply chosen_length; unfold maxlen; destruct renegotiate, send_fallback_scsv; easy).
  unfold all_suites, suite_bytes in *. rewrite flat_map_app. apply Z.ltb_lt. rewrite length_app. lia.
Qed.

Lemma put_scsv_ok (b : bool) (id : Z) p fs s :
  rep p fs -> fs <> [] ->
  let d := suite_bytes (if b then [mk_cipher id 0 0] else []) in
  wp (put_scsv b id) (fun ok s' =>
    if ok : bool then exists p', s' = with_pkt p' s /\ appended d p fs p'
    else e_fatal (h_ext s') <> None /\ no_room d p) (with_pkt p s).
Proof.
  intros R Hne. unfold put_scsv. destruct b; cbv zeta; cbn [suite_bytes flat_map].
  2:{ apply wp_ret. exists p. split; [reflexivity | now apply appended_nil]. }
  rewrite app_nil_r. apply wp_bind, (put_cipher_ok _ p fs); [assumption | assumption | |].
  - intros p' Hp. cbn [negb]. hsteps. eauto.
  - intros p' No. cbn [negb]. hsteps. split; [apply halert_fatal | exact No].
Qed.

Lemma cipher_list_emits sk mn mx s :
  (forall p, ssl_set_client_disabled (with_pkt p s) = Some (mn, mx)) ->
  hemits (ssl_cipher_list_to_bytes (Some sk)) s [OpCopy (all_suites mn mx sk)] (offer_ok mn mx sk)
    (s <| min_ver := mn |> <| max_ver := mx |>).
Proof.
  intros Hd p fs R Hne. set (s1 := s <| min_ver := mn |> <| max_ver := mx |>).
  assert (E : all_suites mn mx sk = suite_bytes (offered mn mx sk)
              ++ suite_bytes (if negb renegotiate then [mk_cipher SSL3_CK_SCSV 0 0] else [])
              ++ suite_bytes (if send_fallback_scsv then [mk_cipher SSL3_CK_FALLBACK_SCSV 0 0] else [])).
  { unfold all_suites, scsvs, suite_bytes. rewrite !flat_map_app. now destruct renegotiate. }
  assert (No : forall s' p0 d d', e_fatal (h_ext s') <> None -> no_room d p0 ->
    (no_room d p0 -> no_room (d' ++ d) p) -> forall x, all_suites mn mx sk = (d' ++ d) ++ x ->
    e_fatal (h_ext s') <> None /\ ~ (offer_ok mn mx sk = true /\ frun [OpCopy (all_suites mn mx sk)] fs <> None
      /\ room p (costs [OpCopy (all_suites mn mx sk)]) /\ forall a, alloc_ok a = true)).
  { intros s' p0 d d' Hf Nr Hn x Ex. split; [assumption |]. intros (_ & _ & Hr & Ha). cbn [costs cost] in Hr.
    rewrite Z.add_0_r, Ex in Hr. apply (no_room_l (d' ++ d) x p); [now apply Hn |]. now split. }
  unfold ssl_cipher_list_to_bytes. apply wp_bind, wp_gets. cbn [id]. rewrite Hd. apply wp_bind, wp_modify.
  change (with_pkt p s <| min_ver := mn |> <| max_ver := mx |>) with (with_pkt p s1). cbv zeta. fold maxlen.
  apply wp_bind. eapply wp_mono; [now apply (put_ciphers_ok sk maxlen 0 false p fs s1) |].
  change (chosen (min_ver s1) (max_ver s1) maxlen 0 sk) with (offered mn mx sk). change (max_ver s1) with mx.
  intros [[totlen ok] |] s'.
  2:{ intros [Hf Nr]. apply wp_ret. apply (No _ p (suite_bytes (offered mn mx sk)) [] Hf Nr (fun h => h) _ E). }
  intros (p1 & -> & A1 & -> & ->). rewrite Z.add_0_l, orb_false_l, suites_nil.
  destruct (offer_ok mn mx sk) eqn:Ok.
  2:{ replace (negb (existsb flagged _) || _) with true by (unfold offer_ok in Ok; destruct (existsb flagged _), (existsb (covers mx) _); easy).
      hsteps. split; [apply halert_fatal | now intros []]. }
  replace (negb (existsb flagged _) || _) with false by (unfold offer_ok in Ok; destruct (existsb flagged _), (existsb (covers mx) _); easy).
  apply wp_bind. eapply wp_mono; [apply (put_scsv_ok _ _ p1); [exact (proj1 A1) | now apply append_ne] |].
  intros [] s'; cbn [negb].
  2:{ intros [Hf Nr]. apply wp_ret. rewrite app_assoc in E. apply (No _ p1 _ _ Hf Nr (no_room_app _ _ _ _ _ A1) _ E). }
  intros (p2 & -> & A2). pose proof (appended_app _ _ _ _ _ _ A1 A2) as A12. eapply wp_mono;
    [apply (put_scsv_ok _ _ p2); [exact (proj1 A12) | now apply append_ne] |]. rewrite app_assoc in E.
  intros [] s'; cbn [negb].
  - intros (p3 & -> & A3). pose proof (appended_app _ _ _ _ _ _ A12 A3) as [R3 H3]. rewrite <- E in R3, H3.
    exists p3, (append (all_suites mn mx sk) fs). cbn [costs cost frun fstep mbind option_bind]. rewrite Z.add_0_r.
    do 3 (split; [reflexivity |]). split; [now apply append_ne |]. now split.
  - intros [Hf Nr]. apply (No _ p2 _ _ Hf Nr (no_room_app _ _ _ _ _ A12) []). now rewrite app_nil_r.
Qed.

(** ** The fields before the extensions *)

Definition hello_lists (sid : list Z) (suites : list Z) : list Z := vec8 sid ++ vec16 suites ++ vec8 [0].

Lemma hello_lists_emits sid sk mn mx s :
  Z.of_nat (length sid) <= SIZE_MAX -> SSL_get_ciphers = Some sk ->
  (forall p, ssl_set_client_disabled (with_pkt p s) = Some (mn, mx)) ->
  exists os, hemits (construct_hello_lists sid) s os (offer_ok mn mx sk) (s <| min_ver := mn |> <| max_ver := mx |>)
    /\ builds os (hello_lists sid (all_suites mn mx sk)) (Z.of_nat (length sid) <? 256).
Proof.
  intros Hs Hc Hd. set (o1 := if (0 <? length sid)%nat then [OpCopy sid] else []). set (su := all_suites mn mx sk).
  exists ((OpOpen 1 :: o1 ++ [OpClose]) ++ [OpOpen 2] ++ [OpCopy su] ++ [OpClose] ++ [OpOpen 1] ++ [OpPut 1 0; OpClose] ++ []).
  assert (E1 : emits WPACKET_start_sub_packet_u8 [OpOpen 1]) by (apply emits_op; [reflexivity | cbn; lia]).
  split.
  - unfold construct_hello_lists. apply hemits_put.
    { change (OpOpen 1 :: o1 ++ [OpClose]) with ([OpOpen 1] ++ o1 ++ [OpClose]). apply emits_and_then; [exact E1 |].
      apply emits_and_then; [| apply emits_close]. subst o1. destruct (0 <? _)%nat; [now apply emits_bytes | apply emits_ret]. }
    apply hemits_put; [apply emits_start |]. rewrite Hc, <- (andb_true_r (offer_ok mn mx sk)).
    eapply hemits_seq; [apply cipher_list_emits; exact Hd |]. apply hemits_put; [apply emits_close |].
    apply hemits_put; [exact E1 |]. apply hemits_put; [| apply hemits_ret].
    apply (emits_and_then _ _ [_] [_]); [apply emits_u8; lia | apply emits_close].
  - pose proof (all_suites_fit mn mx sk) as F.
    assert (B1 : builds (OpOpen 1 :: o1 ++ [OpClose]) (vec8 sid) (Z.of_nat (length sid) <? 256)).
    { apply (builds_vec 1 o1 sid true); [lia |]. subst o1. destruct sid; [apply builds_nil | apply builds_copy]. }
    pose proof (builds_vec16 su) as B2. unfold su in B2 at 3. rewrite F in B2.
    pose proof (builds_vec 1 [OpPut 1 0] [0] true ltac:(lia) (builds_put 1 0)) as B3. cbn [andb length] in B3.
    pose proof (builds_app _ _ _ _ _ _ B1 (builds_app _ _ _ _ _ _ B2 B3)) as B. rewrite andb_true_r in B. exact B.
Qed.

(** *** The session that is offered *)

(** Whether a client gets a new session *)
Definition session_ok (s : hssl) : bool := SSL_SESSION_new && (Z.of_nat (length (sid_ctx s)) <=? SSL_MAX_SID_CTX_LENGTH).

Lemma wp_new_session (Q : bool -> hssl -> Prop) s :
  (session_ok s = true -> Q true (with_session [] s)) ->
  (forall s', e_fatal (h_ext s') <> None -> session_ok s = false -> Q false s') ->
  wp (ssl_get_new_session false) Q s.
Proof.
  intros HY HN. unfold ssl_get_new_session, session_ok in *. destruct SSL_SESSION_new; cbn [negb andb] in *.
  2:{ hsteps. apply HN; [apply halert_fatal | reflexivity]. }
  apply wp_bind, wp_modify, wp_bind, wp_gets. cbn [id]. hred.
  destruct (Z.ltb_spec SSL_MAX_SID_CTX_LENGTH (Z.of_nat (length (sid_ctx s)))); hsteps.
  - apply HN; [apply halert_fatal | now apply Z.leb_gt].
  - apply HY. now apply Z.leb_le.
Qed.

(** The connection once the session is chosen *)
Definition session_for (s : hssl) : option hssl :=
  if negb (has_session s) || negb (ssl_version_supported_ntls (sess_version (h_conf s)) s) || negb (SSL_SESSION_is_resumable s)
  then if session_ok s then Some (with_session [] s) else None
  else Some s.

Definition sid_for (s : hssl) : list Z :=
  if new_session (h_conf s) || (sess_version (h_conf s) =? TLS1_3_VERSION) then [] else sess_id s.

Lemma wp_offered_session_id (Q : option (list Z) -> hssl -> Prop) s :
  (version (h_conf s) =? TLS1_3_VERSION) = false -> Q (Some (sid_for s)) s -> wp offered_session_id Q s.
Proof.
  intros Hv HQ. unfold offered_session_id, sid_for in *. apply wp_bind, wp_gets. cbn [id]. rewrite Hv. cbn [andb].
  destruct (_ || _); hsteps; exact HQ.
Qed.

Lemma hemits_sid k s os ok s1 :
  (version (h_conf s) =? TLS1_3_VERSION) = false -> hemits (k (sid_for s)) s os ok s1 ->
  hemits (sid ← offered_session_id; match sid with None => mret false | Some sid => k sid end) s os ok s1.
Proof. intros Hv Hk p fs R Hne. apply wp_bind, wp_offered_session_id; [exact Hv |]. exact (Hk p fs R Hne). Qed.

(** ** The message *)

(** The client's settings: the session [s1] is chosen, the random is [rnd], the
    versions from [mn] to [mx] are enabled and the ciphers [sk] have one that can
    be written and one for [mx]. *)
Record offers (s s1 : hssl) (rnd : list Z) (mn mx : Z) (sk : list SSL_CIPHER) : Prop := {
  o_session : session_for s = Some s1;
  o_random : ssl_fill_hello_random false s1 = Some rnd;
  o_length : length rnd = 32%nat;
  o_ciphers : SSL_get_ciphers = Some sk;
  o_versions : forall p, ssl_set_client_disabled (with_pkt p (s1 <| client_random := rnd |>)) = Some (mn, mx);
  o_offer : offer_ok mn mx sk = true;
  o_version : 0 <= client_version s1 < 65536;
  o_session_id : (length (sid_for s1) <= 32)%nat;
  o_not_tls13 : (version (h_conf s1) =? TLS1_3_VERSION) = false }.

Definition hello_start (v : Z) (rnd sid suites : list Z) : list Z := be_bytes 2 v ++ rnd ++ hello_lists sid suites.

(** The connection before the extensions *)
Definition before_exts (s1 : hssl) (rnd : list Z) (mn mx : Z) : hssl :=
  s1 <| client_random := rnd |> <| min_ver := mn |> <| max_ver := mx |>.

Lemma wp_choose_session (Q : bool -> hssl -> Prop) s s1 : session_for s = Some s1 -> Q true s1 -> wp choose_offered_session Q s.
Proof.
  intros E HQ. unfold choose_offered_session, session_for in *. apply wp_bind, wp_gets. cbn [id].
  destruct (_ || _); [| injection E as ->; now apply wp_ret]. apply wp_new_session; intros; case_match; simplify_eq; easy.
Qed.

Lemma start_emits s s1 rnd mn mx sk :
  offers s s1 rnd mn mx sk ->
  let s2 := s1 <| client_random := rnd |> in
  hemits (construct_hello_fields (client_version s1) rnd) s2
    [OpCopy (hello_start (client_version s1) rnd (sid_for s1) (all_suites mn mx sk))] true (before_exts s1 rnd mn mx).
Proof.
  intros [E1 E2 E3 E4 E5 E6 E7 E8 E9] s2. assert (Hsz : 65536 <= SIZE_MAX) by (vm_compute; discriminate).
  destruct (hello_lists_emits (sid_for s1) sk mn mx s2) as (os & Em & B); [lia | assumption | exact E5 |]. rewrite E6 in Em.
  assert (W : emits (and_then (WPACKET_put_bytes_u16 (client_version s1)) (put_bytes rnd)) ([OpPut 2 (client_version s1)] ++ [OpCopy rnd]))
    by (apply emits_and_then; [apply emits_u16 | apply emits_bytes]; lia).
  pose proof (builds_app _ _ _ _ _ _ (builds_app _ _ _ _ _ _ (builds_put 2 (client_version s1)) (builds_copy rnd)) B) as Bd.
  change (256 ^ Z.of_nat 2) with 65536 in Bd. rewrite !(proj2 (Z.ltb_lt _ _)), <- app_assoc in Bd by lia.
  apply (hemits_bytes _ _ _ _ _ _ Bd). exact (hemits_put _ _ _ _ _ _ _ W (hemits_sid construct_hello_lists s2 _ _ _ E9 Em)).
Qed.

Lemma construct_hello_ok s s1 rnd mn mx sk fs :
  offers s s1 rnd mn mx sk ->
  let c := h_conf s1 in let e := h_ext s1 in let l := hello_exts c e in
  let start := hello_start (client_version s1) rnd (sid_for s1) (all_suites mn mx sk) in
  server c = false -> SSL_IS_TLS13 c = false -> (version c =? SSL3_VERSION) = false ->
  hello_typed c e -> custext e = [] -> rep (e_pkt e) fs -> fs <> [] ->
  wp tls_construct_client_hello_ntls (fun ok s' =>
    if ok : bool
    then exists p' fl pad, s' = before_exts s1 rnd mn mx <| h_ext := after_hello c e <| e_pkt := p' |> <| extflags := fl |> |>
           /\ padding_exts pad /\ hello_ok c e = true /\ fits16 (enc_exts (l ++ pad)) = true
           /\ rep p' (append (start ++ block (l ++ pad)) fs)
    else e_fatal (h_ext s') <> None
         /\ ~ (hello_ok c e = true /\ Z.of_nat (length (enc_exts l)) + 256 < 65536
               /\ room (e_pkt e) (Z.of_nat (length start) + 2 + Z.of_nat (length (enc_exts l)) + 256)
               /\ forall a, alloc_ok a = true)) s.
Proof.
  intros Ho c e l start Hc H13 H3 Ht Hx R Hne. pose proof (start_emits _ _ _ _ _ _ Ho (e_pkt e) fs R Hne) as St. cbv zeta in St.
  destruct Ho as [E1 E2 E3 E4 E5 E6 E7 E8 E9]. unfold tls_construct_client_hello_ntls. apply wp_bind, (wp_choose_session _ _ _ E1).
  cbn [negb]. apply wp_bind, wp_gets. cbn [id]. rewrite E2. apply wp_bind, wp_modify.
  set (s2 := s1 <| client_random := rnd |>) in *. replace (with_pkt (e_pkt e) s2) with s2 in St by (subst s2 e; now destruct s1 as [[]]).
  apply wp_bind. eapply wp_mono; [exact St |]. fold start. cbn [costs cost frun fstep mbind option_bind]. rewrite Z.add_0_r.
  intros [] s'; cbn [negb].
  2:{ intros [Hf No]. apply wp_ret. split; [assumption |]. intros (_ & _ & Hr & Ha). apply No. unfold room in *. repeat split; [easy | lia | assumption]. }
  intros (p1 & fs1 & -> & _ & [= <-] & Hne1 & R1 & Hr1). apply wp_on_ext.
  change (h_conf (with_pkt p1 (before_exts s1 rnd mn mx))) with c. change (h_ext (with_pkt p1 (before_exts s1 rnd mn mx))) with (e <| e_pkt := p1 |>).
  destruct (client_hello_extensions c Hc H13 H3 0 (e <| e_pkt := p1 |>) (append start fs)) as (ok & e' & Ec & Post);
    [destruct Ht; now constructor | assumption | exact R1 | assumption |].
  unfold wp. rewrite Ec. rewrite after_hello_pkt in Post.
  change (hello_exts c (e <| e_pkt := p1 |>)) with l in Post. change (hello_ok c (e <| e_pkt := p1 |>)) with (hello_ok c e) in Post.
  destruct ok.
  - destruct Post as (p' & fl & pad & -> & Hp & Hok & Hfit & R' & _). exists p', fl, pad. rewrite append_append in R'.
    split; [reflexivity |]. auto.
  - destruct Post as [[_ Hf] No]. split; [now apply Hf |]. intros (Hok & Hl & Hr & Ha). apply No.
    unfold room in *. destruct Hr1 as [? ?]; [lia | assumption |]. repeat split; [assumption | assumption | change (e_pkt (e <| e_pkt := p1 |>)) with p1; lia | assumption].
Qed.
End Write.

(** ** At the server *)

Section Agree.
Context {L : ExtLib} {K : Callbacks} {H : HelloLib} {A : Alloc}.
Implicit Types s t : hssl.

(** The bytes of a message with the extensions [l] *)
Definition hello_message (v : Z) (rnd sid suites : list Z) (l : list (Z * list Z)) : list Z :=
  hello_start v rnd sid suites ++ block l.

(** The message is one that the server can read. *)
Lemma message_regular v rnd sid suites l b :
  bytes b -> b = hello_message v rnd sid suites l -> 0 <= v < 65536 -> length rnd = 32%nat -> (length sid <= 32)%nat ->
  fits16 suites = true -> fits16 (enc_exts l) = true ->
  exists m, is_hello false b m /\ legacy_version m = v /\ random m = rnd /\ session_id m = sid
    /\ view (ciphersuites m) = suites /\ compressions m = [0] /\ view (extensions m) = enc_exts l.
Proof.
  intros B -> Hv Hr Hi Hs He. unfold hello_message, hello_start, hello_lists in *. rewrite <- !app_assoc in *.
  assert (Bs : bytes suites) by (unfold bytes, vec16 in *; rewrite !Forall_app in B; tauto).
  assert (Be : bytes (enc_exts l)).
  { unfold bytes, vec16 in *. destruct l; [constructor |]. unfold block, vec16 in B. rewrite !Forall_app in B. tauto. }
  apply fits16_lt in Hs as Hs', He as He'. assert (Hsz : 65536 <= SIZE_MAX / 2) by (vm_compute; discriminate).
  destruct (buf_init_wf suites Bs ltac:(lia)) as (ps & _ & Ws & Vs).
  destruct (buf_init_wf (enc_exts l) Be ltac:(lia)) as (pe & _ & We & Ve).
  exists (mk_hello false v rnd sid ps [0] pe []). split; [| easy].
  split; [reflexivity |]. split; [exact Ws |]. split; [exact We |]. exists (block l).
  cbn [legacy_version random session_id ciphersuites compressions extensions]. rewrite Vs, Ve.
  split; [reflexivity |]. split; [| repeat split; auto; cbn; lia].
  destruct l; [now right | now left].
Qed.

(** What the server does with a message whose extensions it can collect *)
Lemma process_regular packet v rnd sid suites l t (P : list RAW_EXTENSION -> essl -> Prop) :
  sslv2_record = false -> SSL_IS_FIRST_HANDSHAKE (h_conf t) = true -> clienthello_zalloc = true -> packet_wf packet ->
  view packet = hello_message v rnd sid suites l -> 0 <= v < 65536 -> length rnd = 32%nat -> (length sid <= 32)%nat ->
  fits16 suites = true -> fits16 (enc_exts l) = true ->
  (forall p, packet_wf p -> view p = enc_exts l ->
     exists raw e, tls_collect_extensions_ntls (h_conf t) p SSL_EXT_CLIENT_HELLO true (h_ext t) = Val (Some raw, e) /\ P raw e) ->
  wp (tls_process_client_hello_ntls packet) (fun r t' => r = MSG_PROCESS_CONTINUE_PROCESSING
    /\ exists m e, t' = t <| h_ext := e |> <| clienthello := Some m |> /\ P (pre_proc_exts m) e
       /\ legacy_version m = v /\ random m = rnd /\ session_id m = sid /\ view (ciphersuites m) = suites
       /\ compressions m = [0]) t.
Proof.
  intros Hv2 Hf Hz W V Hv Hr Hi Hs He Hc. unfold tls_process_client_hello_ntls. apply wp_bind, wp_gets. cbn [id].
  rewrite Hf, Hz, Hv2. cbn [negb]. apply wp_bind, wp_ret. unfold process_hello_fields. rewrite Hv2.
  pose proof (view_bytes packet W) as B. destruct (message_regular v rnd sid suites l _ B V Hv Hr Hi Hs He) as (m0 & Hm0 & F0).
  assert (V' : view packet = be_bytes 2 v ++ rnd ++ hello_lists sid suites ++ block l)
    by (rewrite V; unfold hello_message, hello_start; now rewrite <- !app_assoc).
  apply wp_bind, (wp_get_net_2 _ v _ _ _ W V' Hv). intros p Wp _ Vp. apply wp_bind.
  eapply wp_mono; [now apply read_hello_ok |]. rewrite Vp, <- V'. intros [m |] s'.
  2:{ intros [_ No]. exfalso. eauto. }
  intros [-> Hm]. pose proof Hm as (_ & _ & We & Rm). destruct Hm0 as (_ & _ & _ & Rm0).
  destruct (regular_unique _ _ _ Rm Rm0) as (E1 & E2 & E3 & E4 & E5 & E6). destruct F0 as (F1 & F2 & F3 & F4 & F5 & F6).
  assert (Ee : view (extensions m) = enc_exts l) by congruence.
  apply wp_bind, wp_on_ext. unfold wp at 1. destruct (Hc _ We Ee) as (raw & e & -> & Hp). hsteps. split; [reflexivity |].
  exists (mk_hello (isv2 m) (legacy_version m) (random m) (session_id m) (ciphersuites m) (compressions m) (extensions m) raw), e.
  split; [reflexivity |]. split; [exact Hp |].
  cbn [legacy_version random session_id ciphersuites compressions]. repeat split; congruence.
Qed.

(** C5: The ClientHello reaches the server.  Conditions: a first handshake below
    TLS 1.3 on both sides; the client has a session to offer or a new one, a random of
    32 bytes and an enabled cipher for its highest version; its settings are such as
    the API accepts (host name, fragment length, protocols, OCSP objects that can be
    read back); it has no SRTP profiles unless the server is DTLS (over TLS the server
    rejects the hello, [srtp_over_tls_rejected] of ExtCustSpec); neither side has custom
    extensions (one registered for both roles is rejected, [both_roles_rejected]); the
    server has no session ticket callback and resumes no session; there is room in the
    message and no allocation fails.  Then the client constructs its ClientHello, and a
    server that receives these bytes as a regular record processes them without an
    alert.  It has the version, the random, the session id and the cipher suites of the
    client - those that are enabled, in the client's order, and the signalling values,
    always within 65534 bytes - and null compression, and parsing the table of
    extensions gives it the client's host name, maximum fragment length, protocols,
    certificate status request (type, responders and request extensions), whether the
    client does NPN, and over DTLS the SRTP profile that the server prefers among those
    offered. *)
Theorem client_hello_agree ci s s1 rnd mn mx sk t fs :
  offers s s1 rnd mn mx sk ->
  let c := h_conf s1 in let cs := h_conf t in let e := h_ext s1 in
  let suites := all_suites mn mx sk in
  server c = false -> SSL_IS_TLS13 c = false -> (version c =? SSL3_VERSION) = false ->
  server cs = true -> SSL_IS_TLS13 cs = false -> (version cs =? SSL3_VERSION) = false -> hit cs = false ->
  session_ticket_cb cs = None -> SSL_IS_FIRST_HANDSHAKE cs = true -> SSL_IS_FIRST_HANDSHAKE c = true ->
  Z.of_nat (builtin_num cs) <= null_idx cs -> (forall k, ext_ok k = true) ->
  sslv2_record = false -> clienthello_zalloc = true ->
  hello_typed c e -> hello_valid c cs e -> hello_ok c e = true -> Z.of_nat (length (enc_exts (hello_exts c e))) + 256 < 65536 ->
  custext e = [] -> custext (h_ext t) = [] -> rep (e_pkt e) fs -> fs <> [] ->
  room (e_pkt e) (Z.of_nat (length (hello_start (client_version s1) rnd (sid_for s1) suites)) + 2
                  + Z.of_nat (length (enc_exts (hello_exts c e))) + 256) ->
  (forall a, alloc_ok a = true) ->
  exists s' l, tls_construct_client_hello_ntls s = Val (true, s')
    /\ client_random s' = rnd
    /\ rep (e_pkt (h_ext s')) (append (hello_message (client_version s1) rnd (sid_for s1) suites l) fs)
    /\ forall packet, packet_wf packet -> view packet = hello_message (client_version s1) rnd (sid_for s1) suites l ->
       exists m t', tls_process_client_hello_ntls packet t = Val (MSG_PROCESS_CONTINUE_PROCESSING, t')
         /\ clienthello t' = Some m
         /\ legacy_version m = client_version s1 /\ random m = rnd /\ session_id m = sid_for s1
         /\ view (ciphersuites m) = suites /\ compressions m = [0]
         /\ exists raw' e', tls_parse_all_extensions_ntls cs SSL_EXT_CLIENT_HELLO (pre_proc_exts m) None ci false (h_ext t')
                            = Val ((true, raw'), e')
            /\ hostname e' = hostname e
            /\ sess_max_fragment_len_mode e' = (if max_fragment_len_mode e =? TLSEXT_max_fragment_length_DISABLED
                                                then sess_max_fragment_len_mode (h_ext t) else max_fragment_len_mode e)
            /\ alpn_proposed e' = alpn c
            /\ status_type e' = (if wants_status e then TLSEXT_STATUSTYPE_ocsp else TLSEXT_STATUSTYPE_nothing)
            /\ (wants_status e = true -> ocsp_ids e' = ocsp_ids e /\ (is_Some (ocsp_exts e) -> ocsp_exts e' = ocsp_exts e))
            /\ npn_seen e' = bool_decide (is_Some (npn_select_cb c))
            /\ srtp_profile e' = match srtp_profiles c, srtp_profiles cs with
                                 | Some offered, Some srvr => srtp_best srvr offered
                                 | _, _ => None
                                 end
            /\ e_fatal e' = e_fatal (h_ext t).
Proof.
  intros Ho c cs e suites Hc H13 H3 Hs H13' H3' Hh Htk Hf Hf' Hn Hok Hv2 Hz Ht Hv He Hl Hx Hx' R Hne Hr Ha.
  destruct (wp_run _ _ _ (construct_hello_ok _ _ _ _ _ _ _ Ho Hc H13 H3 Ht Hx R Hne)) as ([] & s' & E & Post);
    [| now destruct Post as [_ []]]. destruct Post as (p' & fl & pad & -> & Hp & _ & F & R').
  destruct (padding_exts_opt cs pad Hp) as [n ->]. rewrite all_opts_exts in *.
  eexists _, (omap id (all_opts c e n)). split; [exact E |]. split; [reflexivity |]. split; [exact R' |].
  intros packet W V. destruct Ho as [_ _ Hlen _ _ _ Hver Hsid _].
  pose (P := fun raw e1 => fresh (h_ext t) e1 /\ exists raw',
    tls_parse_all_extensions_ntls cs SSL_EXT_CLIENT_HELLO raw None ci false e1 = Val ((true, raw'), receives c cs e e1)).
  assert (Col : forall p, packet_wf p -> view p = enc_exts (omap id (all_opts c e n)) -> exists raw e1,
    tls_collect_extensions_ntls (h_conf t) p SSL_EXT_CLIENT_HELLO true (h_ext t) = Val (Some raw, e1) /\ P raw e1).
  { intros p Wp Vp. destruct (hello_received c cs Hs H13' H3' Hh Htk ltac:(congruence) Hn Hok ci e n (h_ext t) p Ht Hv He Hx' Wp Vp F)
      as (raw & e1 & raw' & E1 & Fr & E2). unfold P. eauto 10. }
  destruct (wp_run _ _ _ (process_regular packet _ _ _ _ _ t P Hv2 Hf Hz W V Hver Hlen Hsid (all_suites_fit mn mx sk) F Col))
    as (r & t' & Ep & -> & m & e1 & -> & (Fr & raw' & Ea) & Fields).
  exists m, (t <| h_ext := e1 |> <| clienthello := Some m |>). split; [exact Ep |]. split; [reflexivity |].
  destruct Fields as (F1 & F2 & F3 & F4 & F5). do 5 (split; [assumption |]). exists raw', (receives c cs e e1).
  split; [exact Ea |]. destruct Fr.
  unfold receives, got_srtp, got_alpn, got_npn, got_status, got_mode, got_name, sent_alpn, wants_npn. ered.
  rewrite ?fresh_name, ?fresh_mode, ?fresh_status, ?fresh_npn, ?fresh_alpn, ?fresh_srtp, Hf', andb_true_r, orb_false_r.
  split; [now destruct (hostname e) |]. split; [reflexivity |]. split; [now destruct (alpn c) |]. split; [reflexivity |].
  split; [| split; [reflexivity |]; split; [reflexivity | assumption]].
  intros ->. split; [reflexivity |]. intros Hso. now rewrite bool_decide_eq_true_2.
Qed.

End Agree.

(** ** In the concrete setting *)

#[local] Instance agree_lib : ExtLib := hello_lib [].
#[local] Instance agree_callbacks : Callbacks := hello_callbacks [].
#[local] Instance agree_alloc : Alloc := hello_alloc.
#[local] Instance agree_env : HelloLib := toy_env false.

Definition agree_client : hssl := toy_hssl false hello_client.
Definition agree_session : hssl := with_session [] agree_client.
Definition agree_server : hssl := toy_hssl true hello_server.

Lemma agree_offers : offers agree_client agree_session (toy_random false) 0x0101 0x0101 toy_ciphers.
Proof. split; try reflexivity; vm_compute; repeat split; discriminate || (repeat constructor). Qed.

Lemma agree_typed : hello_typed (h_conf agree_session) (h_ext agree_session).
Proof. destruct hello_client_typed. now split. Qed.

Lemma agree_valid : hello_valid (h_conf agree_session) (h_conf agree_server) (h_ext agree_session).
Proof. destruct hello_client_valid. now split. Qed.

Lemma client_hello_agree_witness :
  exists s' l, tls_construct_client_hello_ntls agree_client = Val (true, s')
    /\ forall packet, packet_wf packet ->
       view packet = hello_message 0x0101 (toy_random false) [] [0xE0; 0x13; 0xE0; 0x11; 0; 0xFF] l ->
       exists m t', tls_process_client_hello_ntls packet agree_server = Val (MSG_PROCESS_CONTINUE_PROCESSING, t')
         /\ clienthello t' = Some m /\ random m = toy_random false
         /\ view (ciphersuites m) = [0xE0; 0x13; 0xE0; 0x11; 0; 0xFF]
         /\ exists raw' e', tls_parse_all_extensions_ntls (hello_conf true) SSL_EXT_CLIENT_HELLO (pre_proc_exts m) None 0 false
                              (h_ext t') = Val ((true, raw'), e')
            /\ hostname e' = Some [97; 98].
Proof.
  destruct (client_hello_agree (H := agree_env) 0 agree_client agree_session (toy_random false) 0x0101 0x0101 toy_ciphers
              agree_server [mk_frame 0 0 []] agree_offers eq_refl eq_refl eq_refl eq_refl eq_refl eq_refl eq_refl eq_refl eq_refl
              eq_refl ltac:(vm_compute; discriminate) (fun k => eq_refl) eq_refl eq_refl agree_typed agree_valid eq_refl eq_refl
              eq_refl eq_refl hello_wpacket_rep ltac:(discriminate) ltac:(vm_compute; discriminate) (fun a => eq_refl))
    as (s' & l & E & _ & _ & G).
  exists s', l. split; [exact E |]. intros packet W V.
  destruct (G packet W V) as (m & t' & E1 & E2 & _ & E3 & _ & E4 & _ & raw' & e' & E5 & E6 & _). exists m, t'.
  split; [exact E1 |]. split; [exact E2 |]. split; [exact E3 |]. split; [exact E4 |]. exists raw', e'. exact (conj E5 E6).
Defined.
