(* ===== verification/HelloAccept.v ===== *)
(** * NTLS hello messages: the ServerHello at the client

    [tls_process_server_hello_ntls] on any bytes: it is safe, and what the client
    has agreed to when it accepts; and what the server writes before the
    extensions is what the client reads. *)

From S2P Require Import Prelude Buffers CMem Packet PacketSpec Wpacket WpacketSpec PacketRules ExtTypes ExtToy ExtCust ExtClient ExtServer ExtTable ExtCollect ExtSafe ExtWrite ExtHello HelloTypes HelloRead HelloMsg HelloAgree.

Section Accept.
Context {L : ExtLib} {K : Callbacks} {H : HelloLib} {A : Alloc}.
Implicit Types s : hssl.

(** The bytes [b] are a message with these fields. *)
Record is_server_hello (b : list Z) (v : Z) (rnd sid chars : list Z) (comp : Z) (exts : list Z) : Prop := {
  sh_bytes : b = be_bytes 2 v ++ rnd ++ vec8 sid ++ chars ++ be_bytes 1 comp ++ vec16 exts
             \/ b = be_bytes 2 v ++ rnd ++ vec8 sid ++ chars ++ be_bytes 1 comp /\ exts = [];
  sh_vers : 0 <= v < 65536;
  sh_random : length rnd = 32%nat;
  sh_sid : (length sid <= 32)%nat;
  sh_chars : length chars = 2%nat }.

(** A failure has raised an alert. *)
Definition alerted s : Prop := e_fatal (h_ext s) <> None.

Lemma get_bytes_inv pkt len :
  packet_wf pkt -> 0 <= len ->
  match PACKET_get_bytes pkt len with
  | None => True
  | Some (d, p) => exists b, bytes_at (base pkt) d len = Val b /\ Z.of_nat (length b) = len /\ packet_wf p /\ view pkt = b ++ view p
  end.
Proof.
  intros W Hl. pose proof (get_bytes_any pkt len W Hl) as G. pose proof (get_bytes_ok pkt len W Hl) as G'.
  destruct (PACKET_get_bytes pkt len) as [[d p] |]; [| exact I]. unfold read_bytes in G'.
  destruct (Nat.leb_spec (Z.to_nat len) (length (view pkt))); [| easy].
  destruct G' as ((Ws & _ & Vs) & Wp & Bp & Vp). exists (take (Z.to_nat len) (view pkt)).
  pose proof (packet_bytes_view _ Ws) as E. rewrite Vs in E. split; [exact E |]. split; [rewrite length_take; lia |].
  split; [assumption |]. now rewrite Vp, take_drop.
Qed.

(** Looking at the random changes nothing. *)
Lemma peek_any p s :
  packet_wf p ->
  wp (if SSL3_RANDOM_SIZE <=? PACKET_remaining p
      then b ← reads (bytes_at (base p) (PACKET_data p) SSL3_RANDOM_SIZE); mret (bool_decide (hrrrandom_ntls = b))
      else mret false) (fun _ s' => s' = s) s.
Proof.
  intros W. destruct (Z.leb_spec SSL3_RANDOM_SIZE (PACKET_remaining p)); [| now apply wp_ret]. apply wp_bind.
  eapply wp_reads; [apply (bytes_at_view p); [assumption | unfold PACKET_remaining, SSL3_RANDOM_SIZE in *; lia] |]. now apply wp_ret.
Qed.

Lemma read_server_hello_ok pkt s :
  packet_wf pkt -> (version (h_conf s) =? TLS1_3_VERSION) = false ->
  wp (read_server_hello pkt) (fun r s' =>
    match r with
    | None => alerted s'
    | Some m => exists rnd, s' = s <| server_random := rnd |> /\ sh_hrr m = false
        /\ packet_wf (sh_session_id m) /\ packet_wf (sh_extensions m)
        /\ is_server_hello (view pkt) (sh_version m) rnd (view (sh_session_id m)) (sh_cipher m) (sh_compression m)
             (view (sh_extensions m))
    end) s.
Proof.
  intros W Hv. unfold read_server_hello, hello_error.
  apply wp_bind, (wp_read_inv 2 PACKET_get_net_2 _ _ _ simulates_2 W); [intros _; hsteps; apply halert_fatal |].
  intros v p1 W1 _ Rv V1. apply wp_bind, wp_gets. cbn [id]. rewrite Hv. cbn [andb]. apply wp_bind.
  apply (wp_mono _ (fun _ s' => s' = s)); [now apply peek_any |].
  intros peek s' ->. apply wp_bind, wp_bind, wp_copy_inv; [assumption | unfold SSL3_RANDOM_SIZE; cbn; lia | intros _; apply wp_ret; hsteps; apply halert_fatal |].
  intros d rnd p2 W2 _ Lr V2 ->. unfold SSL3_RANDOM_SIZE in Lr. rewrite copy_whole by lia. apply wp_bind, wp_modify, wp_ret.
  apply wp_bind, (wp_vec_inv 1 false PACKET_get_1 _ _ _ simulates_1); [lia | assumption | intros _; hsteps; apply halert_fatal |].
  intros sid p3 Ws W3 _ _ Ls _ V3. pose proof (view_length sid Ws) as Lsid. unfold PACKET_remaining at 1.
  destruct (Z.ltb_spec SSL3_SESSION_ID_SIZE (remaining sid)) as [Hb | Hb]; [hsteps; apply halert_fatal |]. unfold SSL3_SESSION_ID_SIZE in Hb.
  pose proof (get_bytes_inv p3 TLS_CIPHER_LEN W3 ltac:(unfold TLS_CIPHER_LEN; lia)) as G.
  destruct (PACKET_get_bytes p3 TLS_CIPHER_LEN) as [[d p4] |]; [| hsteps; apply halert_fatal].
  destruct G as (chars & Ec & Lc & W4 & V4). unfold TLS_CIPHER_LEN in Lc. apply wp_bind. eapply wp_reads; [exact Ec |].
  apply wp_bind, (wp_read_inv 1 PACKET_get_1 _ _ _ simulates_1 W4); [intros _; hsteps; apply halert_fatal |].
  intros comp p5 W5 _ _ V5. rewrite andb_true_r. pose proof (view_length p5 W5) as L5. unfold PACKET_remaining at 1.
  destruct (Z.eqb_spec (remaining p5) 0) as [Hz | Hz].
  - apply wp_ret. exists rnd. split; [reflexivity |]. split; [reflexivity |]. split; [exact Ws |]. split; [apply null_packet_wf |].
    cbn [sh_version sh_session_id sh_cipher sh_compression sh_extensions]. split; try lia.
    right. split; [| reflexivity]. rewrite V1, V2, V3, V4, V5. replace (view p5) with (@nil Z) by (symmetry; apply nil_length_inv; lia).
    rewrite app_nil_r. unfold vec8. now rewrite <- !app_assoc.
  - apply wp_bind, (wp_vec_inv 2 true PACKET_get_net_2 _ _ _ simulates_2); [lia | assumption | intros _; hsteps; apply halert_fatal |].
    intros e p6 We W6 _ _ _ Hl V6. specialize (Hl eq_refl). rewrite (remaining_nil p6 W6 Hl). cbn [Z.eqb negb]. apply wp_ret.
    exists rnd. split; [reflexivity |]. split; [reflexivity |]. split; [exact Ws |]. split; [exact We |].
    cbn [sh_version sh_session_id sh_cipher sh_compression sh_extensions]. split; try lia.
    left. rewrite V1, V2, V3, V4, V5, V6, Hl, app_nil_r. unfold vec8, vec16. now rewrite <- !app_assoc.
Qed.

(** ** The steps *)

Definition chosen_conf (v : Z) (c : econf) : econf :=
  if method_version c =? TLS_ANY_VERSION then c <| version := v |> <| method_version := NTLS_VERSION |> else c <| version := v |>.
(** The versions that may be chosen *)
Definition version_ok (v : Z) (c : econf) : Prop :=
  method_version c = v \/ method_version c = TLS_ANY_VERSION /\ v = NTLS1_1_VERSION.

Lemma chosen_conf_fields v c :
  alpn (chosen_conf v c) = alpn c /\ version (chosen_conf v c) = v /\ sess_version (chosen_conf v c) = sess_version c.
Proof. unfold chosen_conf. now destruct (_ =? _). Qed.

Lemma choose_version_ok v s :
  wp (ssl_choose_client_version_ntls v) (fun ok s' =>
    if ok : bool then version_ok v (h_conf s) /\ s' = s <| h_conf := chosen_conf v (h_conf s) |> else alerted s') s.
Proof.
  unfold ssl_choose_client_version_ntls, chosen_conf, version_ok. apply wp_bind, wp_gets. cbn [id].
  destruct (Z.eqb_spec (method_version (h_conf s)) TLS_ANY_VERSION) as [Ha | Ha]; cbn [negb].
  - cbn [existsb ntls_version_table orb]. destruct (Z.eqb_spec v NTLS1_1_VERSION); cbn [orb]; hsteps; [auto | apply halert_fatal].
  - destruct (Z.eqb_spec v (method_version (h_conf s))) as [-> |]; cbn [negb]; hsteps; [auto | apply halert_fatal].
Qed.

(** The cipher that a session was made with: the id that is recorded counts when
    the cipher itself is not known. *)
Definition made_with (s : hssl) : Z :=
  match sess_cipher s with Some sc => cipher_id sc | None => sess_cipher_id s end.

(** The application has supplied the secret of the session through its callback,
    asked in the state [s0]: there is a ticket, the callback has answered with a key,
    and [pref] is the cipher it prefers, if any. *)
Definition external_key (s0 : hssl) (pref : option SSL_CIPHER) : Prop :=
  NTLS_VERSION <= version (h_conf s0) /\ sess_tick (h_ext s0) <> None
  /\ exists f key e, session_secret_cb = Some f /\ run_session_secret_cb f s0 = ((true, key, pref), e) /\ key <> [].

Lemma external_secret_ok chars s :
  has_session s = true ->
  wp (external_secret chars) (fun ok s' =>
    if ok : bool
    then (h_conf s' = h_conf s /\ custext (h_ext s') = custext (h_ext s) /\ server_random s' = server_random s
         /\ has_session s' = true /\ sess_id s' = sess_id s /\ sid_ctx s' = sid_ctx s /\ sess_sid_ctx s' = sess_sid_ctx s)
         /\ (made_with s' = made_with s
             \/ exists pref, external_key s pref
                /\ sess_cipher s' = match pref with Some c => Some c | None => ssl_get_cipher_by_char chars end)
    else alerted s') s.
Proof.
  intros Hs. unfold external_secret. apply wp_bind, wp_gets. cbn [id].
  destruct session_secret_cb as [f |] eqn:Ef; [| apply wp_ret; auto 10].
  destruct (Z.leb_spec NTLS_VERSION (version (h_conf s))) as [Hv | _]; cbn [negb]; [| apply wp_ret; auto 10].
  rewrite Hs. cbn [negb]. destruct (sess_tick (h_ext s)) as [tick |] eqn:Et; [| apply wp_ret; auto 10].
  destruct (run_session_secret_cb f s) as [[[ok key] pref] [w o]] eqn:Er. apply wp_bind, wp_on_ext, wp_modify.
  destruct (ok && _) eqn:Ek; hsteps; [| apply halert_fatal]. apply andb_true_iff in Ek as [-> Hk].
  split; [auto 10 |]. right. exists pref. split; [| reflexivity]. split; [exact Hv |]. split; [congruence |].
  exists f, key, (w, o). split; [exact Ef |]. split; [exact Er |]. now destruct key.
Qed.

(** A session is resumed if the server has named it and its context is ours; or
    else the session of this connection is the one that the server names. *)
Record session_chosen (sid : list Z) (s s' : hssl) : Prop := {
  ch_custext : custext (h_ext s') = custext (h_ext s);
  ch_alpn : alpn (h_conf s') = alpn (h_conf s);
  ch_version : version (h_conf s') = version (h_conf s);
  ch_random : server_random s' = server_random s;
  ch_session : has_session s' = true;
  ch_id : sess_id s' = sid;
  ch_choice :
    (hit (h_conf s') = true /\ sid <> [] /\ sid = sess_id s /\ sid_ctx s = sess_sid_ctx s
     /\ sess_version (h_conf s') = sess_version (h_conf s)
     /\ sess_cipher s' = sess_cipher s /\ sess_cipher_id s' = sess_cipher_id s)
    \/ (hit (h_conf s') = hit (h_conf s) /\ (sid = [] \/ sid <> sess_id s)) }.

Lemma choose_session_ok sid s :
  has_session s = true ->
  wp (choose_session sid) (fun ok s' => if ok : bool then session_chosen sid s s' else alerted s') s.
Proof.
  intros Hs. unfold choose_session. apply wp_bind, wp_gets. cbn [id]. rewrite Hs. cbn [negb].
  destruct (negb (length sid =? 0)%nat && bool_decide (sid = sess_id s)) eqn:E.
  - apply andb_true_iff in E as [E1 E2]. apply bool_decide_eq_true in E2. apply wp_bind, wp_conf_set.
    destruct (bool_decide_reflect (sid_ctx s = sess_sid_ctx s)) as [Ec | _]; cbn [negb]; hsteps; [| apply halert_fatal].
    split; auto. left. split; [reflexivity |]. split; [destruct sid; easy |]. auto.
  - assert (Hn : sid = [] \/ sid <> sess_id s).
    { apply andb_false_iff in E as [E | E]; [left; now destruct sid | right; now apply bool_decide_eq_false in E]. }
    apply wp_bind. apply (wp_mono _ (fun (ok : bool) s' =>
      if ok then s' = s \/ exists n, s' = with_session [] (s <| sess_miss := n |>) else alerted s')).
    + destruct (0 <? _)%nat; [| apply wp_ret; now left]. apply wp_bind, wp_modify, wp_new_session; [right; eauto | auto].
    + intros [] s1 H1; cbn [negb]; [| now apply wp_ret]. hsteps.
      destruct H1 as [-> | (n & ->)]; split; auto.
Qed.

Lemma set_cipher_ok chars s :
  has_session s = true ->
  wp (set_client_ciphersuite_ntls chars) (fun ok s' =>
    if ok : bool
    then exists c, ssl_get_cipher_by_char chars = Some c /\ ssl_cipher_disabled (min_ver s) (max_ver s) c true = false
           /\ c ∈ ssl_get_ciphers_by_id /\ s' = s <| sess_cipher_id := made_with s |> <| new_cipher := Some c |>
           /\ (hit (h_conf s) = true -> made_with s = cipher_id c)
    else alerted s') s.
Proof.
  intros Hs. unfold set_client_ciphersuite_ntls. destruct (ssl_get_cipher_by_char chars) as [c |]; [| hsteps; apply halert_fatal].
  apply wp_bind, wp_gets. cbn [id]. destruct (ssl_cipher_disabled _ _ c true) eqn:Ed; [hsteps; apply halert_fatal |].
  destruct (bool_decide_reflect (c ∈ ssl_get_ciphers_by_id)) as [Hc | _]; cbn [negb]; [| hsteps; apply halert_fatal].
  rewrite Hs. cbn [negb]. apply wp_bind, wp_ret, wp_bind. apply (wp_mono _ (fun _ s' => s' = s <| sess_cipher_id := made_with s |>)).
  { unfold made_with. destruct (sess_cipher s); hsteps; [reflexivity |]. now destruct s. }
  intros _ s' ->. apply wp_bind, wp_gets. hred.
  destruct (hit (h_conf s) && negb (made_with s =? cipher_id c)) eqn:Eh; hsteps; [apply halert_fatal |].
  exists c. do 4 (split; [easy |]). intros Hh. rewrite Hh in Eh. now apply negb_false_iff, Z.eqb_eq in Eh.
Qed.

(** *** The end of the message *)

Lemma tabled_wf c ctx meths l raw : tabled c ctx meths l raw -> table_wf (builtin_num c + length meths) raw.
Proof.
  intros [Ln Hr]. split; [exact Ln |]. apply Forall_lookup. intros j e E. specialize (Hr j e E).
  destruct (present e); [tauto |]. destruct Hr as [-> _]. apply null_packet_wf.
Qed.

(** What is needed to parse the extensions *)
Definition ready (raw : list RAW_EXTENSION) (s : hssl) : Prop :=
  has_session s = true /\ sound (h_ext s) /\ bytes (default [] (alpn (h_conf s)))
  /\ table_wf (builtin_num (h_conf s) + length (custext (h_ext s))) raw.

(** The number of built-in extensions is the same for all connections. *)
Lemma builtin_num_any c : builtin_num c = 30%nat.
Proof. reflexivity. Qed.

Lemma ready_moves raw s s' :
  ready raw s -> has_session s' = has_session s -> custext (h_ext s') = custext (h_ext s) ->
  alpn (h_conf s') = alpn (h_conf s) -> ready raw s'.
Proof.
  unfold ready, sound. intros (H1 & H2 & H3 & H4) -> -> ->. rewrite !builtin_num_any in *. auto.
Qed.

Lemma finish_server_hello_ok m raw s :
  ready raw s ->
  wp (finish_server_hello m raw) (fun r s' =>
    match r with
    | MSG_PROCESS_CONTINUE_READING =>
        let v := version (h_conf s) in
        sess_version (h_conf s) = v /\ sh_compression m = 0 /\ sess_compress_meth s = 0
        /\ (exists c, ssl_get_cipher_by_char (sh_cipher m) = Some c /\ ssl_cipher_disabled v v c true = false
             /\ c ∈ ssl_get_ciphers_by_id /\ (hit (h_conf s) = true -> made_with s = cipher_id c /\ sess_cipher_id s' = cipher_id c)
             /\ new_cipher s' = Some c)
        /\ h_conf s' = h_conf s /\ server_random s' = server_random s /\ sess_id s' = sess_id s
        /\ sess_compress_meth s' = 0 /\ min_ver s' = v /\ max_ver s' = v
    | MSG_PROCESS_ERROR => alerted s'
    | _ => False
    end) s.
Proof.
  intros (Hs & So & Ha & Tw). unfold finish_server_hello, perr. apply wp_bind, wp_gets.
  destruct (Z.eqb_spec (version (h_conf s)) (sess_version (h_conf s))) as [Ev | _]; cbn [negb]; [| hsteps; apply halert_fatal].
  apply wp_bind, wp_modify, wp_bind. eapply wp_mono; [apply set_cipher_ok; exact Hs |].
  intros [] s'; cbn [negb]; [| intros Hf; now apply wp_ret]. intros (c & E1 & E2 & E3 & -> & E4).
  change (made_with _) with (made_with s) in E4 |- *.
  destruct (Z.eqb_spec (sh_compression m) 0) as [Hc |]; cbn [negb]; [| hsteps; apply halert_fatal].
  apply wp_bind, wp_gets. hred. destruct (Z.eqb_spec (sess_compress_meth s) 0) as [Hm |]; cbn [negb]; [| hsteps; apply halert_fatal].
  apply wp_bind, wp_on_ext. hred. eapply wp_mono; [apply (parse_all_wp _ Ha _ _ _ _ _ _ _ eq_refl Tw So) |].
  intros [ok raw'] e ([_ Hf] & _). cbn [fst] in Hf. destruct ok; cbn [negb]; apply wp_ret; [| now apply Hf].
  split; [now symmetry |]. split; [exact Hc |]. split; [exact Hm |].
  split; [| auto 10]. exists c. do 3 (split; [assumption |]). split; [| reflexivity]. intros Hh. specialize (E4 Hh). auto.
Qed.

(** ** The message *)

(** What the client has agreed to *)
Record agreed (b : list Z) (s s' : hssl) (v : Z) (rnd sid chars exts : list Z) (c : SSL_CIPHER) : Prop := {
  agreed_message : is_server_hello b v rnd sid chars 0 exts;
  agreed_version : version_ok v (h_conf s) /\ version (h_conf s') = v /\ sess_version (h_conf s') = v
                   /\ min_ver s' = v /\ max_ver s' = v;
  agreed_random : server_random s' = rnd;
  agreed_cipher : new_cipher s' = Some c /\ ssl_get_cipher_by_char chars = Some c
                  /\ ssl_cipher_disabled v v c true = false /\ c ∈ ssl_get_ciphers_by_id;
  agreed_compression : sess_compress_meth s' = 0;
  agreed_session : sess_id s' = sid;
  agreed_resumed : hit (h_conf s') = true ->
    sid <> [] /\ sid = sess_id s /\ sid_ctx s = sess_sid_ctx s /\ sess_cipher_id s' = cipher_id c
    /\ sess_version (h_conf s) = v
    /\ (made_with s = cipher_id c
        \/ exists s0 pref, version (h_conf s0) = v /\ external_key s0 pref
           /\ (pref = None \/ cipher_id <$> pref = Some (cipher_id c)));
  agreed_new : hit (h_conf s') = false -> sid = [] \/ sid <> sess_id s }.

(** After the extensions have been collected *)
Lemma choices_ok m raw b s rnd sid :
  ready raw s -> is_server_hello b (sh_version m) rnd sid (sh_cipher m) (sh_compression m) (view (sh_extensions m)) ->
  server_random s = rnd ->
  wp (ok ← ssl_choose_client_version_ntls (sh_version m);
      if negb ok then perr
      else
        ok ← on_ext (fun c => tls_validate_all_contexts_ntls c SSL_EXT_TLS1_2_SERVER_HELLO raw);
        if negb ok then hfatal SSL_AD_ILLEGAL_PARAMETER;; perr
        else
          conf_set (fun c => c <| hit := false |>);;
          ok ← external_secret (sh_cipher m);
          if negb ok then perr
          else
            ok ← choose_session sid;
            if negb ok then perr else finish_server_hello m raw) (fun r s' =>
    match r with
    | MSG_PROCESS_CONTINUE_READING =>
        exists c, agreed b s s' (sh_version m) rnd sid (sh_cipher m) (view (sh_extensions m)) c
    | MSG_PROCESS_ERROR => alerted s'
    | _ => False
    end) s.
Proof.
  intros Rd Hm Hr. pose proof Rd as (Hs & _). unfold perr. apply wp_bind. eapply wp_mono; [apply choose_version_ok |].
  intros [] s'; cbn [negb]; [| intros Hf; now apply wp_ret]. intros [Vok ->].
  apply wp_bind, wp_on_ext. unfold tls_validate_all_contexts_ntls at 1. apply wp_bind, wp_gets, wp_ret.
  destruct (validate_from _ _ _ _ _); cbn [negb]; [| hsteps; apply halert_fatal].
  apply wp_bind, wp_conf_set, wp_bind. eapply wp_mono; [apply external_secret_ok; exact Hs |].
  intros [] s1; cbn [negb]; [| intros Hf; now apply wp_ret]. hred. intros ((X1 & X2 & X3 & X4 & X5 & X6 & X7) & XM).
  pose proof (chosen_conf_fields (sh_version m) (h_conf s)) as (Ea & Ev & Es). cbn in X1.
  apply wp_bind. eapply wp_mono; [apply choose_session_ok; exact X4 |].
  intros [] s2; cbn [negb]; [| intros Hf; now apply wp_ret]. intros [C1 C2 C3 C4 C5 C6 C7]. rewrite X1 in *. cbn in C2, C3, C7.
  assert (Rd' : ready raw s2) by (apply (ready_moves raw s _ Rd); congruence).
  eapply wp_mono; [apply finish_server_hello_ok; exact Rd' |]. intros [] s3; auto. cbv zeta.
  intros (Hv & Hc & Hcm & (c & E1 & E2 & E3 & E4 & E5) & F1 & F2 & F3 & F4 & F5 & F6). rewrite Hc in Hm. exists c.
  assert (Vs : version (h_conf s2) = sh_version m) by congruence. rewrite Vs in *.
  split; [exact Hm | | congruence | auto | exact F4 | congruence | | ]; rewrite ?F1; [auto 10 | |]; intros Hh.
  - destruct C7 as [(_ & G1 & G2 & G3 & G4 & G5 & G6) | [G1 _]]; [| congruence]. destruct (E4 Hh) as [Em Ei].
    assert (Em' : made_with s1 = cipher_id c) by (rewrite <- Em; unfold made_with; now rewrite G5, G6).
    do 3 (split; [congruence |]). split; [exact Ei |]. split; [congruence |].
    destruct XM as [XM | (pref & XK & XC)]; [left; rewrite <- Em', XM; reflexivity |]. right. eexists _, pref.
    split; [| split; [exact XK |]]; [exact Ev |]. unfold made_with in Em'. rewrite XC in Em'.
    destruct pref as [p |]; [right; cbn; now rewrite Em' | now left].
  - destruct C7 as [(G1 & _) | [_ [G1 | G1]]]; [congruence | now left |]. right. congruence.
Qed.

(** C7: A ServerHello is safe to process, whatever its bytes and whatever the
    callbacks answer: the client reads inside the message, and an error has raised
    an alert.  When the client accepts, the message has the format of a ServerHello
    with null compression; its version is the one of the client's method, or NTLS
    1.1 for the flexible method, and is that of the session; its cipher is known,
    enabled for that version and in the client's list; the server's random and the
    session id are kept.  The session is resumed exactly when the server has named
    the session that the client has, and then only in the same context, in the same
    version, and with the cipher that the session was made with before the message
    came - unless the application has supplied the secret of a session with a ticket
    through its callback: then the cipher is the one the callback prefers, and any
    accepted cipher if it prefers none, since the session takes over the one that
    the server names. *)
Theorem tls_process_server_hello_ok pkt s :
  packet_wf pkt -> (version (h_conf s) =? TLS1_3_VERSION) = false -> has_session s = true ->
  sound (h_ext s) -> bytes (default [] (alpn (h_conf s))) ->
  ext_ok C_raw_zalloc = true -> Z.of_nat (builtin_num (h_conf s)) <= null_idx (h_conf s) ->
  exists r s', tls_process_server_hello_ntls pkt s = Val (r, s')
    /\ match r with
       | MSG_PROCESS_CONTINUE_READING =>
           exists v rnd sid chars exts c, agreed (view pkt) s s' v rnd sid chars exts c
       | MSG_PROCESS_ERROR => e_fatal (h_ext s') <> None
       | _ => False
       end.
Proof.
  intros W Hv Hs So Ha Hz Hn. apply (wp_run _ (fun r s' => match r with MSG_PROCESS_CONTINUE_READING => _ | MSG_PROCESS_ERROR => _ | _ => _ end)).
  unfold tls_process_server_hello_ntls, perr. apply wp_bind.
  eapply wp_mono; [now apply read_server_hello_ok |]. intros [m |] s'; [| intros Hf; now apply wp_ret].
  intros (rnd & -> & Hh & Ws & We & Hm). apply wp_bind. eapply wp_reads; [apply packet_bytes_view; exact Ws |]. rewrite Hh.
  apply wp_bind, wp_on_ext. hred. eapply wp_mono; [now apply wp_collect_extensions |].
  intros [raw |] e; unfold collected_all; cbn [flag].
  - intros (l & _ & Hl & _ & Hx). change (flag _ SSL_EXT_CLIENT_HELLO) with false in *. cbn iota in *.
    eapply wp_mono; [apply (choices_ok m raw (view pkt)); [| exact Hm | reflexivity] |].
    + split; [exact Hs |]. unfold sound. hred. rewrite Hx. split; [exact So |]. split; [exact Ha |]. exact (tabled_wf _ _ _ _ _ Hl).
    + intros [] s'; auto. intros (c & [G1 G2 G3 G4 G5 G6 G7 G8]). exists (sh_version m), rnd, (view (sh_session_id m)), (sh_cipher m),
        (view (sh_extensions m)), c. now split.
  - intros [_ Hf]. now apply wp_ret.
Qed.

(** ** The ServerHello of the server *)

(** The session id that is sent *)
Definition answered_id (s : hssl) : list Z :=
  if sess_not_resumable s || (negb session_cache_server && negb (hit (h_conf s))) then [] else sess_id s.

Lemma server_choices_emits sid c s :
  Z.of_nat (length sid) <= 32 -> new_cipher s = Some c ->
  hemits (construct_server_choices sid) s [OpCopy (vec8 sid ++ cipher_chars c ++ [0])] true s.
Proof.
  intros Hl Hc. assert (Hsz : 32 <= SIZE_MAX) by (vm_compute; discriminate).
  pose proof (builds_app _ _ _ _ _ _ (builds_vec 1 [OpCopy sid] sid true ltac:(lia) (builds_copy sid))
                (builds_app _ _ _ _ _ _ (builds_copy (cipher_chars c)) (builds_put 1 0))) as B.
  change (256 ^ Z.of_nat 1) with 256 in B. rewrite (proj2 (Z.ltb_lt _ _)) in B by lia. apply (hemits_bytes _ _ _ _ _ _ B).
  apply hemits_put; [apply emits_vec8; lia |]. apply hemits_gets. intros q. cbn [id].
  change (new_cipher (with_pkt q s)) with (new_cipher s). rewrite Hc. apply hemits_cipher, hemits_write, emits_u8. lia.
Qed.

Lemma server_fields_emits v rnd c s :
  has_session s = true -> 0 <= v < 65536 -> length rnd = 32%nat -> (length (answered_id s) <= 32)%nat -> new_cipher s = Some c ->
  hemits (construct_server_fields false v rnd) s [OpCopy (be_bytes 2 v ++ rnd ++ vec8 (answered_id s) ++ cipher_chars c ++ [0])] true
    (s <| sess_id := answered_id s |>).
Proof.
  intros Hs Hv Hr Hi Hc. assert (Hsz : 65536 <= SIZE_MAX) by (vm_compute; discriminate).
  assert (W : emits (and_then (WPACKET_put_bytes_u16 v) (put_bytes rnd)) ([OpPut 2 v] ++ [OpCopy rnd]))
    by (apply emits_and_then; [apply emits_u16 | apply emits_bytes]; lia).
  pose proof (builds_app _ _ _ _ _ _ (builds_app _ _ _ _ _ _ (builds_put 2 v) (builds_copy rnd))
                (builds_copy (vec8 (answered_id s) ++ cipher_chars c ++ [0]))) as B.
  change (256 ^ Z.of_nat 2) with 65536 in B. rewrite (proj2 (Z.ltb_lt _ _)), <- (app_assoc (be_bytes 2 v)) in B by lia.
  apply (hemits_bytes _ _ _ _ _ _ B), hemits_put; [exact W |]. intros p fs R Hne. apply wp_bind.
  apply (wp_mono _ (fun _ s' => s' = with_pkt p (s <| sess_id := answered_id s |>))).
  { unfold drop_session_id, answered_id. apply wp_bind, wp_gets. cbn [id]. change (has_session (with_pkt p s)) with (has_session s).
    rewrite Hs. cbn [negb]. change (sess_not_resumable (with_pkt p s)) with (sess_not_resumable s). change (h_conf (with_pkt p s)) with (h_conf s).
    destruct (_ || _); hsteps; [reflexivity | now destruct s]. }
  intros _ s' ->. apply wp_bind, wp_gets. cbn iota. change (sess_id (with_pkt p (s <| sess_id := answered_id s |>))) with (answered_id s).
  rewrite (proj2 (Z.ltb_ge _ _)) by (unfold SSL_MAX_SSL_SESSION_ID_LENGTH; lia).
  apply (server_choices_emits (answered_id s) c (s <| sess_id := answered_id s |>)); [lia | exact Hc | exact R | exact Hne].
Qed.

(** The client reads what the server has written. *)
Lemma read_server_hello_known pkt s v rnd sid chars exts :
  packet_wf pkt -> (version (h_conf s) =? TLS1_3_VERSION) = false ->
  is_server_hello (view pkt) v rnd sid chars 0 exts -> fits16 exts = true ->
  wp (read_server_hello pkt) (fun r s' => s' = s <| server_random := rnd |>
    /\ exists m, r = Some m /\ sh_version m = v /\ view (sh_session_id m) = sid /\ sh_cipher m = chars
       /\ sh_compression m = 0 /\ view (sh_extensions m) = exts /\ sh_hrr m = false) s.
Proof.
  intros W Hv [Hb Hvr Hr Hi Hc] Hf. apply fits16_lt in Hf.
  assert (Hb' : exists tail, view pkt = be_bytes 2 v ++ rnd ++ vec8 sid ++ chars ++ be_bytes 1 0 ++ tail
                  /\ (tail = vec16 exts \/ tail = [] /\ exts = []))
    by (destruct Hb as [Hb | [Hb ->]]; [exists (vec16 exts) | exists []; rewrite app_nil_r]; auto).
  destruct Hb' as (tail & Hb' & Ht). clear Hb. unfold read_server_hello.
  apply wp_bind, (wp_get_net_2 _ v _ _ _ W Hb' Hvr). intros p1 W1 _ V1. apply wp_bind, wp_gets. cbn [id]. rewrite Hv. cbn [andb].
  apply wp_bind, (wp_mono _ (fun _ s' => s' = s)); [now apply peek_any |]. intros peek s' ->.
  apply wp_bind, wp_bind, wp_copy_inv; [assumption | unfold SSL3_RANDOM_SIZE; cbn; lia | |].
  { intros Hl. rewrite V1, length_app in Hl. unfold SSL3_RANDOM_SIZE in Hl. lia. }
  intros d rnd' p2 W2 _ Lr V2 ->. unfold SSL3_RANDOM_SIZE in Lr. rewrite copy_whole by lia.
  rewrite V1 in V2. apply app_inj_1 in V2 as [<- V2]; [| lia]. symmetry in V2. apply wp_bind, wp_modify, wp_ret.
  apply wp_bind, (wp_get_vec 1 PACKET_get_1 _ _ _ _ _ simulates_1 ltac:(lia) W2 V2 ltac:(lia)). intros psid p3 Ws Vs W3 _ V3.
  pose proof (view_length psid Ws) as Ls. rewrite Vs in Ls. unfold PACKET_remaining at 1, SSL3_SESSION_ID_SIZE at 1.
  rewrite (proj2 (Z.ltb_ge _ _)) by lia.
  destruct (get_bytes_view p3 chars _ TLS_CIPHER_LEN W3 V3) as (dc & p4 & -> & Ec & W4 & _ & V4); [unfold TLS_CIPHER_LEN; lia |].
  apply wp_bind. eapply wp_reads; [exact Ec |]. apply wp_bind, (wp_get_1 _ 0 _ _ _ W4 V4 ltac:(lia)). intros p5 W5 _ V5.
  rewrite andb_true_r. pose proof (view_length p5 W5) as L5. rewrite V5 in L5. unfold PACKET_remaining at 1.
  destruct Ht as [-> | [-> ->]].
  - destruct (Z.eqb_spec (remaining p5) 0) as [Hz | _]; [rewrite vec16_length in L5; lia |].
    apply wp_bind, (wp_vec_inv 2 true PACKET_get_net_2 _ _ _ simulates_2); [lia | assumption | |].
    { intros No. exfalso. apply (No exts [] Hf); [easy | now rewrite app_nil_r, V5]. }
    intros pe p6 We W6 _ _ Le Hl V6. specialize (Hl eq_refl). rewrite (remaining_nil p6 W6 Hl). cbn [Z.eqb negb]. apply wp_ret.
    split; [reflexivity |]. eexists. split; [reflexivity |]. cbn [sh_version sh_session_id sh_cipher sh_compression sh_extensions sh_hrr].
    rewrite V5, <- (app_nil_r (vec16 exts)) in V6. apply (vec_inj 2) in V6 as [<- _]; [| exact Hf | exact Le]. auto 10.
  - cbn in L5. rewrite <- L5. cbn [Z.eqb]. apply wp_ret. split; [reflexivity |]. eexists. split; [reflexivity |]. auto 10.
Qed.

(** The ServerHello reaches the client: the fields that the server writes before
    the extensions, followed by a block of extensions or by nothing, are read by the
    client as the server's version and random, the id of its session or none if
    the session is not to be resumed, the two bytes of its cipher, null compression
    and the block. *)
Theorem server_hello_fields_agree s c t fs exts pkt :
  has_session s = true -> 0 <= version (h_conf s) < 65536 -> length (server_random s) = 32%nat ->
  (length (answered_id s) <= 32)%nat -> new_cipher s = Some c -> flagged c = true ->
  rep (e_pkt (h_ext s)) fs -> fs <> [] -> fits16 exts = true ->
  (version (h_conf t) =? TLS1_3_VERSION) = false -> packet_wf pkt ->
  exists ok s', construct_server_fields false (version (h_conf s)) (server_random s) s = Val (ok, s')
    /\ if ok : bool
       then exists d, rep (e_pkt (h_ext s')) (append d fs) /\ sess_id s' = answered_id s
         /\ (view pkt = d ++ vec16 exts \/ view pkt = d /\ exts = [] ->
             exists m, read_server_hello pkt t = Val (Some m, t <| server_random := server_random s |>)
               /\ sh_version m = version (h_conf s) /\ view (sh_session_id m) = answered_id s /\ sh_cipher m = cipher_chars c
               /\ sh_compression m = 0 /\ view (sh_extensions m) = exts)
       else e_fatal (h_ext s') <> None.
Proof.
  intros Hs Hv Hr Hi Hc Hfl R Hne Hf Ht W.
  pose proof (server_fields_emits _ _ c s Hs Hv Hr Hi Hc (e_pkt (h_ext s)) fs R Hne) as E.
  replace (with_pkt (e_pkt (h_ext s)) s) with s in E by now destruct s as [[]].
  destruct (wp_run _ _ _ E) as (ok & s' & Er & P). exists ok, s'. split; [exact Er |]. destruct ok; [| apply P].
  destruct P as (p' & fs' & -> & _ & Ef & _ & R' & _). cbn [frun fstep mbind option_bind] in Ef. injection Ef as <-.
  exists (be_bytes 2 (version (h_conf s)) ++ server_random s ++ vec8 (answered_id s) ++ cipher_chars c ++ [0]).
  split; [exact R' |]. split; [reflexivity |]. intros V. rewrite <- !app_assoc in V.
  destruct (wp_run _ _ _ (read_server_hello_known pkt t (version (h_conf s)) (server_random s) (answered_id s) (cipher_chars c) exts W Ht
    ltac:(split; [exact V | assumption .. | now rewrite chars_length, Hfl]) Hf))
    as (r & t' & E1 & -> & m & -> & M1 & M2 & M3 & M4 & M5 & _). exists m. auto 10.
Qed.

End Accept.

(** ** In the concrete setting *)

#[local] Instance accept_lib : ExtLib := hello_lib [].
#[local] Instance accept_callbacks : Callbacks := hello_callbacks [].
#[local] Instance accept_alloc : Alloc := hello_alloc.
#[local] Instance accept_env : HelloLib := toy_env false.

(** A client that has the session [9; 9], made with the first cipher, and a server
    that resumes it *)
Definition accept_client : hssl :=
  with_session [9; 9] (toy_hssl false (hello_ssl [] None 0 None []))
    <| sess_cipher := head toy_ciphers |>.
Definition accept_bytes : list Z := [1; 1] ++ toy_random true ++ [2; 9; 9] ++ [0xE0; 0x13] ++ [0].
Definition accept_packet : PACKET := mk_packet accept_bytes 0 40.

Lemma accept_packet_wf : packet_wf accept_packet.
Proof.
  split; [vm_compute; discriminate |]. split; [vm_compute; split; discriminate |].
  split; [vm_compute; discriminate |]. apply List.Forall_forall. intros x Hx.
  assert (E : forallb (fun x => (0 <=? x) && (x <? 256)) (view accept_packet) = true) by reflexivity.
  rewrite forallb_forall in E. specialize (E x Hx). unfold is_byte. lia.
Qed.

Lemma accept_alpn : bytes (default [] (alpn (h_conf accept_client))).
Proof. repeat (apply Forall_cons_2; [unfold is_byte; lia |]). apply Forall_nil_2. Qed.

Lemma tls_process_server_hello_ok_witness :
  exists s' v rnd sid chars exts c,
    tls_process_server_hello_ntls accept_packet accept_client = Val (MSG_PROCESS_CONTINUE_READING, s')
    /\ agreed accept_bytes accept_client s' v rnd sid chars exts c.
Proof.
  destruct (tls_process_server_hello_ok (H := accept_env) accept_packet accept_client accept_packet_wf eq_refl eq_refl
              (Forall_nil_2 _) accept_alpn eq_refl ltac:(vm_compute; discriminate)) as (r & s' & E & P).
  pose proof E as E'.
  apply (f_equal (fun r => match r with Val (MSG_PROCESS_CONTINUE_READING, _) => true | _ => false end)) in E'.
  vm_compute in E'. destruct r; try discriminate E'. clear E'.
  destruct P as (v & rnd & sid & chars & exts & c & G). exists s', v, rnd, sid, chars, exts, c. exact (conj E G).
Defined.

(** The session of the example is resumed. *)
Example accept_resumes :
  match tls_process_server_hello_ntls accept_packet accept_client with
  | Val (MSG_PROCESS_CONTINUE_READING, s') => hit (h_conf s') = true /\ new_cipher s' = head toy_ciphers
  | _ => False
  end.
Proof. vm_compute. auto. Qed.
